(* ===== verification/_CoqProject ===== *)
-Q . S2P
Prelude.v
Errors.v
QList.v
Platform.v
Sbuf.v
ListenerBuf.v
SbufParser.v
Remote.v
ModTable.v
Domain.v
Session.v
SessionIface.v
Ioctl.v
Mem.v
Rpcmem.v
DmaHandles.v
Context.v
Cap.v
Notif.v
Pls.v
ProcBuf.v
BufBound.v
StdPath.v
Crc.v
Wake.v
Invoke.v
Handles.v
Control.v
Ring.v
DspSignal.v
MapRefs.v
DspQueue.v
DspQueueCtl.v
Listener.v
ListenerCall.v
AppsFile.v
AppsMem.v
