(* ===== verification/Prelude.v ===== *)
(** * FastRPC user-space library: verification development

    FastRPC lets a Linux process call functions of a DSP and lets the DSP call back.
    This development models the user-space library (the C code under [src/]) and proves
    what its parts promise. Definitions carry the names of the C functions, macros and
    types they translate; source paths below are relative to [src/].

    ** The program and its model

    A process addresses a DSP session by an effective domain id. A session is opened on a
    device node, counted by references, and owns lists of remote handles. Calls on a handle
    are marshalled into scalars and arguments and go to the kernel driver by [ioctl(2)].
    Buffers are mapped and registered per session. In the other direction a listener thread
    receives calls of the DSP, unpacks their arguments and invokes a function of the module
    table. Each file below models one of these parts.

    - [Prelude]: this file; machine integers ([u8], [u32], [u64], [s32]), alignment, the byte
      memory with [load] and [store], little-endian words, C strings as byte lists.
    - [Errors]: the codes of [inc/AEEStdErr.h] and the monad of functions with a [bail:]
      label ([VERIFY], [VERIFYC]): a step returns a value or jumps with a code. [to_bail] is
      the whole function, [with_locals] adds local variables that the label's code reads.
      [wp] is the weakest precondition used by the proofs, [preserves] the invariant form.
    - [QList]: [inc/AEEQList.h], the intrusive doubly linked lists, over an explicit heap of
      nodes, and the sequences they implement. The files below use sequences.
    - [Platform]: [src/platform_libs.c], [src/pl_list.c] and the start-up and unloading in
      [src/fastrpc_apps_user.c] and [src/listener_android.c] that count libraries with it.
    - [Sbuf], [ListenerBuf]: [inc/sbuf.h] and [inc/listener_buf.h], the marshalling of the
      reverse calls, over explicit addresses and bytes.
    - [SbufParser]: the combinators of [inc/sbuf_parser.h] and [parse_uri] of
      [src/mod_table.c].
    - [Remote]: the scalars word of [inc/remote.h].
    - [ModTable]: [src/mod_table.c]. The state [mt] is the static and constant tables, the
      hash table of published handles ([gmap] from key to slot), the 20 reverse slots, and a
      world [W] on which loaded code acts. The operations are those of [mod_table_open],
      [mod_table_invoke], [mod_table_close] and the registration functions.
    - [Domain]: the id macros of [inc/fastrpc_internal.h], domain names and URI suffixes.
    - [Session]: the array [hlist] of [src/fastrpc_apps_user.c] ([proc]): references, device,
      handle lists and their counters.
    - [SessionIface]: what the rest of the library uses of sessions, as a class of operations
      ([SessionOps]) and laws ([SessionLaws]); [with_ref] is the pattern of the macros
      [FASTRPC_GET_REF]/[FASTRPC_PUT_REF]; the instance proves the laws for [Session].
    - [Ioctl]: [src/fastrpc_ioctl.c] and [convert_kernel_to_user_error].
    - [Mem], [DmaHandles]: [src/fastrpc_mem.c], against the interface of [SessionIface].
    - [Context]: [src/fastrpc_context.c], contexts over several sessions.
    - [Pls]: [inc/pls.h] and [src/gpls.c], a list of keyed objects updated by compare-and-swap.
    - [ProcBuf]: [src/fastrpc_procbuf.c], the process parameters sent to the DSP.
    - [BufBound], [StdPath]: [src/BufBound.c] and [src/std_path.c].
    - [Crc]: the CRC of [src/fastrpc_apps_user.c].
    - [Wake]: the counted wake lock of [src/fastrpc_pm.c].
    - [Invoke]: [remote_handle_invoke] and its 64-bit form in [src/fastrpc_apps_user.c]. The
      state [rt] joins those of [Mem], [DmaHandles], [Wake] and the sessions.
    - [Handles]: how a session comes up and goes down ([domain_init], [domain_deinit]) and how
      handles are opened and closed. The state [app] adds the rest of [struct handle_list].
    - [Cap]: [src/fastrpc_cap.c], queries of capabilities, the search for a DSP in the file
      system, the cached answers, and [check_rpc_error].
    - [Notif]: [src/fastrpc_notif.c], the clients of status notifications and the worker thread
      of each domain. Threads started, joined and callbacks made are a trace.
    - [Control]: [remote_session_control], [remote_handle_control] and what they call. The state
      [ctl] joins those of [Handles], [Cap], [Notif] and [Context] with the parameters stored
      for a domain; a request is a constructor with the structure of its argument.
    - [Ring]: the circular packet buffer of the DSP queues ([src/dspqueue/dspqueue_cpu.c],
      [inc/dspqueue_shared.h]): positions, headers and copying, and the steps of its writer and
      its reader as a relation [step].
    - [DspSignal]: [src/dspsignal.c], the table of driver signals.
    - [DspQueue]: the operations on one queue: writing, reading, peeking, early wakeups, blocking
      calls, statistics. The state [dq] holds the shared words of both directions ([shared]), the
      local counters and the maps of [Mem] that hold the buffer references. What other threads
      do while a call waits is a list of events. [MapRefs] says what [fastrpc_buffer_ref] does to
      the maps.
    - [DspQueueCtl]: creating and closing queues, the error callbacks, the thread that relays
      signals and the queues on several domains. The state is the table of domains, each with its
      slots; calls that leave the component are asked of an oracle and written to a trace, from
      which the resources held (blocks, signals, names, threads) are counted.
    - [Listener]: the thread of [src/listener_android.c] that serves the calls of the DSP. The
      state [lst] has the blocks it allocated, the memory and a world on which the DSP and the
      modules act; the locals [loc] are its two buffers, the context and the last result. [turn]
      is one turn of the loop: it receives a call, grows or shrinks the buffers, unpacks and calls the
      module table; the result is the answer of the next turn. [ListenerCall] joins it with [ListenerBuf].
    - [AppsFile]: [src/apps_std_imp.c], the files the DSP opens on this side: the ordered list of
      files and their descriptors, the files in shared memory, the open directories. The C
      library is a class ([Libc], with [LibcLaws] on the streams that are open).
    - [Rpcmem]: [src/rpcmem_linux.c], the allocator of shared buffers, over the operations of
      the kernel ([Kernel], [KernelLaws]) and the registration of buffers in [Mem].
    - [AppsMem]: [src/apps_mem_imp.c], the memory the DSP asks for: a list of buffers per session,
      over [Rpcmem], the mapping functions of [Mem] and the handles of [DmaHandles].

    ** Conventions

    Integers are [Z], cut to their width where the code converts or can wrap. Addresses are
    integers; memory is a finite map from address to byte where bytes matter. A function that
    runs under one lock is one step; where a claim is about interleavings ([Pls], the two
    critical sections of [DmaHandles.remote_register_dma_handle_attr]) the smaller steps are
    separate definitions. [calloc] and [malloc] succeed unless an address argument says
    otherwise (0 for failure). Log output and tracing are left out.

    Code outside the repository is a parameter: [ioctl(2)], [dlopen], [dlsym] and [dlclose],
    the functions of loaded modules, directory reading, the environment, the C library's files,
    the memory of the DMA heap, and the opening of device nodes. Each is an argument or a section variable,
    and the witnesses run the model with concrete ones. The hash tables of [inc/uthash.h]
    are maps or lists with the order of insertion.

    Loops that are not structural take fuel: [SbufParser.loop_fuel] and [parse_uri] use the
    bytes left (each turn consumes one, [parse_uri_spans] shows that more changes nothing);
    [StdPath.dots_fuel] is quadratic in the path ([cleanpath_total] shows that it is
    enough); the list walks of [Pls] use the size of the heap (a chain has no repetition).

    ** What is proved

    - Round trips: marshalling ([ListenerBuf.pack_unpack_in_bufs]), module URIs
      ([SbufParser.parse_uri_print_ver]), scalars, process parameters ([ProcBuf.pack_roundtrip]),
      domain suffixes, paths.
    - Bounds: parsed spans lie in the input, reply arguments in the buffer, bounded writers
      never write past their end, rebuilt URIs fit their slot.
    - Invariants over all reachable states or preserved by every operation: the module table
      ([ModTable.mod_table_invariant]), handle counters, one static map per descriptor.
    - Resource balance: session references ([Mem.map_functions_balanced], by the laws of the
      interface alone), buffer references, registrations, module references.
    - Invocation: the request the kernel gets is the marshalled argument list with the
      registrations of its buffers ([Invoke.invoke_request], on the normal path: no wake lock,
      reverse map, checksums or counters); session references are balanced on every path
      ([Invoke.invoke_balanced]), and the wake lock is given back before the kernel is entered
      ([Invoke.invoke_wake_balanced]).
    - Lifecycle: a session comes up entirely or not at all ([Handles.domain_init_outcome]),
      goes down without device, references, maps and cached handles
      ([Handles.domain_deinit_resets], which also says what stays), and an open
      gives a handle that leads to its remote handle ([Handles.open_handle]).
    - Control: requests keep the stored parameters in range ([Control.params_in_range]); a
      reservation takes the first spare session ([Control.reserve_session]) and its URI leads
      back to it ([Control.session_uri_roundtrip]). The reference that a request gives back is
      not always the one it took ([Control.session_references]). Capability queries leave the
      sessions as they were ([Cap.capability_queries]); worker threads are joined, unless the
      library ends while they are in the table, and call no client ([Notif.notif_threads]).
    - Calls of the DSP: a message of the sender reaches the function of its handle once, with its
      bytes, and the answer is the next turn's ([ListenerCall.listener_serves]); the thread owns
      at most its two buffers and gives back all ([Listener.listener_buffers], which also says when
      a reply can be longer than its buffer); it holds a session
      reference exactly while it serves a call ([Listener.listener_references]).
    - Files of the DSP: as long as no bookkeeping failure is reported, open streams are those of
      the tables ([AppsFile.streams_accounted]),
      descriptors are unique ([AppsFile.descriptors_unique]), and a decrypted file reads as its
      bytes ([AppsFile.decrypted_reads]).
    - Memory for the DSP: a buffer is either in the list with its descriptor and its mapping, or
      both are gone ([Rpcmem.rpcmem_accounted]; the buffer of a failed [mmap], which the code does
      not recognise, has a descriptor only); the buffers held for the DSP are those of the
      lists, whatever fails, for sessions that do not start over a list in use
      ([AppsMem.dsp_memory_accounted]).
    - Queues: first in, first out under every interleaving, early wakeups included, unless one
      ends at the end of the queue ([Ring.ring_fifo]); a write is all or nothing, its references
      when the descriptors are distinct ([DspQueue.write_all_or_nothing]); a read takes the first packet
      ([DspQueue.read_takes_first]); blocking calls end with a result of their own and give back
      their wait count ([DspQueue.blocking_write_result]); a blocked writer wakes up
      ([DspQueue.blocked_write_wakes]). Every resource of a queue is accounted for in every
      reachable state of the table ([DspQueueCtl.queues_accounted]), except that a failed creation keeps the condition variable
      for space: a creation is all or nothing otherwise
      ([DspQueueCtl.create_all_or_nothing]) and a close gives back what the creation took
      ([DspQueueCtl.close_releases]). Sizes for which this fails: [Ring.large_packet_stuck],
      [Ring.queue_size_unchecked].
    - Refinement: the intrusive lists implement sequences ([QList.qlist_refines]), with loops that
      visit each node once ([QList.qlist_loops]); a library is up exactly while it is referenced
      ([Platform.pl_lib_counted]), and the start-up brings up everything or nothing
      ([Platform.library_init_unload]); the wake lock is a counter ([Wake.wake_lock_counts]); the
      DMA handle array implements a map with counts; the table-driven CRC is polynomial division;
      effective ids are pairs of a domain and a session.
    - Concurrency: under every interleaving [pls_add_lookup_singleton] gives one object per
      key, and a failed compare-and-swap implies progress.
    - Behaviour on errors, including defects that the model shows: the signed length check
      ([ListenerBuf.unpack_in_bufs_oversized]), counters that drift from their lists
      ([Session.counters_drift]), the DMA registration race ([DmaHandles.register_race]),
      sessions closed by a refused context ([Context.refused_context_closes_sessions]), the
      unmapping that never happens ([Mem.unmap_fd_leaks]), a failed mapping that is recorded,
      a truncated length ([Ioctl.munmap_length_truncated]), negative sessions in a URI, the
      size check of the process buffer ([ProcBuf.pack_past_end]), the erased hidden names
      ([StdPath.cleanpath_erases_hidden]), and the dangling table of contexts.

    ** What is not modelled

    - Of [src/apps_std_imp.c]: the search of a file over the directories named by environment
      variables, and [apps_std_stat]. The operations on what is open are complete.
    - Of [src/listener_android.c]: the creation of the thread and of its event descriptor, which
      is a sequence of system calls without a state of its own.
    - Of [src/dspqueue/dspqueue_cpu.c]: the loop of the thread that runs packet callbacks.
    - Log output, tracing, counters and their configuration ([src/fastrpc_log.c],
      [src/log_config.c], [src/fastrpc_perf.c], [src/fastrpc_config.c], [src/adspmsgd.c]): they
      do not change what the calls return.
    - The stubs and skeletons that QAIC generates, the vendored [inc/uthash.h] (maps here), the
      daemons and the tests. *)
From Stdlib Require Export ZArith Lia Sorted.
From stdpp Require Export base list gmap strings.

#[global] Open Scope Z_scope.

(** ** Notation scope of the development *)
Declare Scope fastrpc_scope.
Delimit Scope fastrpc_scope with frpc.

(** ** Machine integers

    An [int], [uint32_t] or [uintptr_t] of the code is a [Z]; every place where
    the code's arithmetic wraps goes through one of these normalisations. *)
Definition u8 (z : Z) : Z := z mod 256.
Definition u32 (z : Z) : Z := z mod 4294967296.
Definition u64 (z : Z) : Z := z mod 18446744073709551616.
Definition s32 (z : Z) : Z := (z + 2147483648) mod 4294967296 - 2147483648.

Definition INT_MAX : Z := 2147483647.

Lemma u32_small z : 0 <= z < 4294967296 -> u32 z = z.
Proof. apply Z.mod_small. Qed.
Lemma u64_small z : 0 <= z < 18446744073709551616 -> u64 z = z.
Proof. apply Z.mod_small. Qed.
Lemma s32_small z : -2147483648 <= z < 2147483648 -> s32 z = z.
Proof. intros. unfold s32. rewrite Z.mod_small; lia. Qed.
Lemma u32_range z : 0 <= u32 z < 4294967296.
Proof. apply Z.mod_pos_bound; lia. Qed.
Lemma u64_range z : 0 <= u64 z < 18446744073709551616.
Proof. apply Z.mod_pos_bound; lia. Qed.
Lemma s32_range z : -2147483648 <= s32 z < 2147483648.
Proof. unfold s32. pose proof (Z.mod_pos_bound (z + 2147483648) 4294967296). lia. Qed.

Lemma u32_u32 z : u32 (u32 z) = u32 z.
Proof. apply u32_small, u32_range. Qed.

Lemma s32_u32 z : s32 (u32 z) = s32 z.
Proof. unfold s32, u32. f_equal. apply Zplus_mod_idemp_l. Qed.

Lemma u64_add_l a b : u64 (u64 a + b) = u64 (a + b).
Proof. apply Zplus_mod_idemp_l. Qed.
Lemma u64_add_r a b : u64 (a + u64 b) = u64 (a + b).
Proof. apply Zplus_mod_idemp_r. Qed.
Lemma u64_sub_l a b : u64 (u64 a - b) = u64 (a - b).
Proof. apply Zminus_mod_idemp_l. Qed.
Lemma u64_sub_r a b : u64 (a - u64 b) = u64 (a - b).
Proof. apply Zminus_mod_idemp_r. Qed.

(** [int_norm] removes the wrap-arounds that the context shows to be no-ops. *)
Ltac int_norm :=
  repeat match goal with
  | |- context [s32 ?z] => rewrite (s32_small z) by lia
  | |- context [u32 ?z] => rewrite (u32_small z) by lia
  | |- context [u64 ?z] => rewrite (u64_small z) by lia
  end.
Ltac int_norm_in H :=
  repeat match type of H with
  | context [s32 ?z] => rewrite (s32_small z) in H by lia
  | context [u32 ?z] => rewrite (u32_small z) in H by lia
  | context [u64 ?z] => rewrite (u64_small z) in H by lia
  end.

(** Case analysis on the integer comparisons of a goal. *)
Ltac case_ltb :=
  match goal with
  | |- context [Z.ltb ?a ?b] => destruct (Z.ltb_spec a b)
  | |- context [Z.leb ?a ?b] => destruct (Z.leb_spec a b)
  | |- context [Z.eqb ?a ?b] => destruct (Z.eqb_spec a b)
  end.
Ltac case_nltb :=
  match goal with
  | |- context [Nat.ltb ?a ?b] => destruct (Nat.ltb_spec a b)
  | |- context [Nat.leb ?a ?b] => destruct (Nat.leb_spec a b)
  end.
Ltac case_ltb_in H :=
  match type of H with
  | context [Z.ltb ?a ?b] => destruct (Z.ltb_spec a b)
  | context [Z.leb ?a ?b] => destruct (Z.leb_spec a b)
  | context [Z.eqb ?a ?b] => destruct (Z.eqb_spec a b)
  end.

(** [ALIGN_B(p, a)] for a power of two [a]: [((p) + ((a) - 1)) & ~((a) - 1)]. *)
Definition align_mask (p a : Z) : Z := Z.land (p + (a - 1)) (Z.lnot (a - 1)).

Lemma land_lnot_ones p k : 0 <= k -> Z.land p (Z.lnot (2 ^ k - 1)) = p - p mod 2 ^ k.
Proof.
  intros Hk.
  replace (2 ^ k - 1) with (Z.ones k) by (rewrite Z.ones_equiv; lia).
  rewrite <- Z.ldiff_land.
  rewrite Z.ldiff_ones_r by lia.
  rewrite Z.shiftr_div_pow2, Z.shiftl_mul_pow2 by lia.
  pose proof (Z.div_mod p (2 ^ k)). lia.
Qed.

(** A test of one bit. *)
Lemma land_pow2 a k : 0 <= k -> Z.land a (2 ^ k) = if Z.testbit a k then 2 ^ k else 0.
Proof.
  intros Hk. apply Z.bits_inj'. intros n Hn. rewrite Z.land_spec, Z.pow2_bits_eqb by done.
  destruct (Z.eqb_spec k n) as [->|Hne].
  - destruct (Z.testbit a n); [by rewrite Z.pow2_bits_true|by rewrite Z.bits_0].
  - rewrite andb_false_r. destruct (Z.testbit a k); [by rewrite Z.pow2_bits_false|by rewrite Z.bits_0].
Qed.

(** The rounding macro is round-up to the next multiple, for every power of two. *)
Lemma align_mask_pow2 p k :
  0 <= k -> align_mask p (2 ^ k) = (p + 2 ^ k - 1) / 2 ^ k * 2 ^ k.
Proof.
  intros Hk. unfold align_mask. rewrite land_lnot_ones by lia.
  replace (p + (2 ^ k - 1)) with (p + 2 ^ k - 1) by lia.
  pose proof (Z.div_mod (p + 2 ^ k - 1) (2 ^ k)). lia.
Qed.

Lemma align_mask_bounds p k :
  0 <= k -> p <= align_mask p (2 ^ k) < p + 2 ^ k /\ align_mask p (2 ^ k) mod 2 ^ k = 0.
Proof.
  intros Hk. rewrite align_mask_pow2 by lia.
  assert (0 < 2 ^ k) by lia.
  pose proof (Z.div_mod (p + 2 ^ k - 1) (2 ^ k)).
  pose proof (Z.mod_pos_bound (p + 2 ^ k - 1) (2 ^ k)).
  split; [lia|]. apply Z.mod_mul. lia.
Qed.

(** ** Bytes and memory

    Memory maps an address to a byte value; a byte never written reads 0. *)
Abbreviation memory := (gmap Z Z).

Definition rd (m : memory) (a : Z) : Z := default 0 (m !! a).

Definition load (m : memory) (a n : Z) : list Z := (fun i => rd m (a + i)) <$> seqZ 0 n.

Fixpoint store (m : memory) (a : Z) (bs : list Z) : memory :=
  match bs with
  | [] => m
  | b :: bs => store (<[a := b]> m) (a + 1) bs
  end.

Lemma length_load m a n : length (load m a n) = Z.to_nat n.
Proof. unfold load. rewrite length_fmap, length_seqZ. done. Qed.

Lemma rd_store m a bs x :
  rd (store m a bs) x =
    if (a <=? x) && (x <? a + Z.of_nat (length bs))
    then nth (Z.to_nat (x - a)) bs 0 else rd m x.
Proof.
  revert m a; induction bs as [|b bs IH]; intros m a; cbn [store length].
  - repeat case_ltb; try lia; done.
  - rewrite IH. unfold rd. destruct (decide (a = x)) as [->|Hne].
    + rewrite lookup_insert_eq. replace (x - x) with 0 by lia. cbn.
      repeat case_ltb; try lia; done.
    + rewrite lookup_insert_ne by done.
      repeat case_ltb; cbn; try lia; try done.
      replace (Z.to_nat (x - a)) with (S (Z.to_nat (x - (a + 1)))) by lia. done.
Qed.

Lemma rd_store_in m a bs x :
  a <= x < a + Z.of_nat (length bs) -> rd (store m a bs) x = nth (Z.to_nat (x - a)) bs 0.
Proof. intros. rewrite rd_store. repeat case_ltb; try lia; done. Qed.

Lemma rd_store_out m a bs x :
  x < a \/ a + Z.of_nat (length bs) <= x -> rd (store m a bs) x = rd m x.
Proof. intros. rewrite rd_store. repeat case_ltb; try lia; done. Qed.

(** Two memories agree on the addresses [a, a + n). *)
Definition agree (m m' : memory) (a n : Z) : Prop := forall x, a <= x < a + n -> rd m x = rd m' x.

Lemma load_agree m m' a n : agree m m' a n -> load m a n = load m' a n.
Proof.
  intros H. unfold load. apply list_fmap_ext. intros i y Hy.
  apply lookup_seqZ in Hy as [-> ?]. apply H. lia.
Qed.

Lemma load_store_same m a bs : load (store m a bs) a (Z.of_nat (length bs)) = bs.
Proof.
  apply list_eq_same_length with (n := length bs); [done | | ].
  { rewrite length_load. lia. }
  intros i x y Hi Hx Hy. unfold load in Hx.
  rewrite list_lookup_fmap, (lookup_seqZ_lt 0) in Hx by lia. cbn in Hx.
  injection Hx as <-. rewrite rd_store_in by lia.
  rewrite (nth_lookup_Some bs _ 0 y); [done|]. rewrite <- Hy. f_equal. lia.
Qed.

Lemma load_store_out m a bs x n :
  x + n <= a \/ a + Z.of_nat (length bs) <= x -> load (store m a bs) x n = load m x n.
Proof. intros. apply load_agree. intros y Hy. apply rd_store_out. lia. Qed.

(** Little-endian encoding of a 32-bit word, as the code copies it by address. *)
Definition le32 (z : Z) : list Z :=
  [z mod 256; z / 256 mod 256; z / 65536 mod 256; z / 16777216 mod 256].
Definition of_le32 (bs : list Z) : Z :=
  match bs with
  | [a; b; c; d] => a + 256 * b + 65536 * c + 16777216 * d
  | _ => 0
  end.

Lemma length_le32 z : length (le32 z) = 4%nat.
Proof. done. Qed.

Lemma of_le32_le32 z : 0 <= z < 4294967296 -> of_le32 (le32 z) = z.
Proof. intros Hz. unfold of_le32, le32. Z.to_euclidean_division_equations. lia. Qed.

Lemma le32_of_le32 bs :
  length bs = 4%nat -> Forall (fun b => 0 <= b < 256) bs -> le32 (of_le32 bs) = bs.
Proof.
  intros Hl Hb. destruct bs as [|a [|b [|c [|d [|]]]]]; try done.
  rewrite !Forall_cons in Hb. destruct Hb as (?&?&?&?&_). unfold le32, of_le32.
  repeat match goal with |- _ :: _ = _ :: _ => f_equal end;
    Z.to_euclidean_division_equations; lia.
Qed.

Lemma nth_load m a n i : 0 <= i < n -> nth (Z.to_nat i) (load m a n) 0 = rd m (a + i).
Proof.
  intros Hi. apply nth_lookup_Some. unfold load.
  rewrite list_lookup_fmap, (lookup_seqZ_lt 0) by lia. cbn. f_equal. f_equal. lia.
Qed.

(** Two byte lists of one length are equal when their bytes are. *)
Lemma bytes_eq (l1 l2 : list Z) :
  length l1 = length l2 ->
  (forall i, 0 <= i < Z.of_nat (length l1) -> nth (Z.to_nat i) l1 0 = nth (Z.to_nat i) l2 0) ->
  l1 = l2.
Proof.
  intros Hl H. apply (nth_ext _ _ 0 0); [done|]. intros n Hn.
  specialize (H (Z.of_nat n)). rewrite Nat2Z.id in H. apply H. lia.
Qed.

Lemma app_nth {A} (l l' : list A) d n :
  nth n (l ++ l') d = if (n <? length l)%nat then nth n l d else nth (n - length l) l' d.
Proof. case_nltb; [by apply app_nth1 | by apply app_nth2]. Qed.

(** ** C strings as byte lists (without the terminating NUL) *)
Definition byte_of_ascii (a : Ascii.ascii) : Z := Z.of_N (Ascii.N_of_ascii a).

Definition str (s : string) : list Z := byte_of_ascii <$> String.list_ascii_of_string s.

(** [strncmp(a, b, n) == 0] for two NUL-terminated strings read through [f] and [g]. *)
Fixpoint strncmp_eq (f g : Z -> Z) (i : Z) (n : nat) : bool :=
  match n with
  | O => true
  | S n => if f i =? g i then (if f i =? 0 then true else strncmp_eq f g (i + 1) n) else false
  end.

(** A string constant as the bytes at an address, followed by its NUL. *)
Definition cstr (s : list Z) (i : Z) : Z := if i <? 0 then 0 else nth (Z.to_nat i) s 0.

Lemma load_cons m a n : 0 < n -> load m a n = rd m a :: load m (a + 1) (n - 1).
Proof.
  intros Hn. apply bytes_eq; [cbn; rewrite !length_load; lia|].
  intros i Hi. rewrite length_load in Hi. rewrite nth_load by lia.
  destruct (decide (i = 0)) as [->|]; [cbn; f_equal; lia|].
  replace (Z.to_nat i) with (S (Z.to_nat (i - 1))) by lia. cbn [nth].
  rewrite nth_load by lia. f_equal. lia.
Qed.

Lemma load_nil m a n : n <= 0 -> load m a n = [].
Proof. intros. apply nil_length_inv. rewrite length_load. lia. Qed.

Lemma load_app m a n1 n2 : 0 <= n1 -> 0 <= n2 -> load m a (n1 + n2) = load m a n1 ++ load m (a + n1) n2.
Proof.
  intros H1 H2. apply bytes_eq; [rewrite length_app, !length_load; lia|].
  intros i Hi. rewrite length_load in Hi. rewrite nth_load, app_nth, length_load by lia.
  case_nltb; [by rewrite nth_load by lia|].
  replace (Z.to_nat i - Z.to_nat n1)%nat with (Z.to_nat (i - n1)) by lia.
  rewrite nth_load by lia. f_equal. lia.
Qed.
