(* ===== verification/Errors.v ===== *)
(** Result codes of [inc/AEEStdErr.h] (the CPU build, where [AEE_EOFFSET] is 0)
    and the state-and-bail monad in which the functions written with the macros
    [VERIFY]/[VERIFYC] of [inc/verify.h] are modelled. *)
From S2P Require Import Prelude.

Definition DSP_AEE_EOFFSET : Z := 2147484672. (* 0x80000400 *)
Definition AEE_SUCCESS : Z := 0.
Definition AEE_EUNKNOWN : Z := -1.
Definition AEE_EFAILED : Z := 1.
Definition AEE_ENOMEMORY : Z := 2.
Definition AEE_EEXPIRED : Z := 12.
Definition AEE_EBADSTATE : Z := 13.
Definition AEE_EBADPARM : Z := 14.
Definition AEE_EUNSUPPORTED : Z := 20.
Definition AEE_ERESOURCENOTFOUND : Z := 22.
Definition AEE_EALREADY : Z := 26.
Definition AEE_EMEMPTR : Z := 29.
Definition AEE_EBUFFERTOOSMALL : Z := 38.
Definition AEE_ENOSUCH : Z := 39.
Definition AEE_EINVHANDLE : Z := 44.
Definition AEE_EINTERRUPTED : Z := 46.
Definition AEE_EINVALIDDEVICE : Z := 59.
Definition AEE_ENOSUCHMOD : Z := 62.
Definition AEE_ENOSUCHSYMBOL : Z := 66.
Definition AEE_ENOSUCHMAP : Z := 72.
Definition AEE_EBADDOMAIN : Z := 75.
Definition AEE_EBADSIZE : Z := 77.
Definition AEE_EBADCONTEXT : Z := 84.
Definition AEE_EGETENV : Z := 99.
Definition AEE_ENORPCMEMORY : Z := 104.
Definition AEE_ENOTINITIALIZED : Z := 107.
Definition AEE_EUNSUPPORTEDAPI : Z := 108.
Definition AEE_ECONNREFUSED : Z := 114.
Definition AEE_ERPC : Z := 512.

(** ** State and bail

    A body between the top of a function and its [bail:] label either runs to
    the label or jumps to it with [nErr] set; in both cases the state it left
    is kept. *)
Inductive outcome (A : Type) :=
  | Go (a : A)
  | Bail (nErr : Z).
Arguments Go {_}.
Arguments Bail {_}.

Definition M (S A : Type) : Type := S -> outcome A * S.

#[export] Instance M_ret S : MRet (M S) := fun A a s => (Go a, s).
#[export] Instance M_bind S : MBind (M S) := fun A B f m s =>
  match m s with
  | (Go a, s') => f a s'
  | (Bail e, s') => (Bail e, s')
  end.

Definition bail {S A} (e : Z) : M S A := fun s => (Bail e, s).
Definition get {S} : M S S := fun s => (Go s, s).
Definition gets {S A} (f : S -> A) : M S A := fun s => (Go (f s), s).
Definition put {S} (s' : S) : M S unit := fun _ => (Go tt, s').
Definition modify {S} (f : S -> S) : M S unit := fun s => (Go tt, f s).

(** [VERIFYC(val, err_code)]. *)
Definition VERIFYC {S} (b : bool) (e : Z) : M S unit := if b then mret tt else bail e.

(** [VERIFY(val)]: [nErr = nErr == 0 ? -1 : nErr; goto bail], where [nErr] is the
    value the enclosing function has at that point. *)
Definition VERIFY {S} (nErr : Z) (b : bool) : M S unit :=
  if b then mret tt else bail (if nErr =? 0 then -1 else nErr).

(** [VERIFY(AEE_SUCCESS == (nErr = call))]. *)
Definition VERIFY_CALL {S} (call : M S Z) : M S unit :=
  r ← call; VERIFY r (r =? AEE_SUCCESS).

(** [VERIFYC(AEE_SUCCESS == (nErr = call), err_code)]. *)
Definition VERIFYC_CALL {S} (call : M S Z) (e : Z) : M S unit :=
  r ← call; VERIFYC (r =? AEE_SUCCESS) e.

(** Running a body up to its [bail:] label: the [nErr] the label sees. *)
Definition to_bail {S} (body : M S unit) : M S Z := fun s =>
  match body s with
  | (Go _, s') => (Go AEE_SUCCESS, s')
  | (Bail e, s') => (Go e, s')
  end.

(** A call that cannot jump out of its caller: value and state. *)
Definition run {S A} (d : A) (m : M S A) (s : S) : A * S :=
  match m s with
  | (Go a, s') => (a, s')
  | (Bail _, s') => (d, s')
  end.

(** Locals that the code after a [bail:] label reads: a second state component. *)
Definition lift {S L A} (m : M S A) : M (S * L) A := fun sl =>
  let '(r, s') := m sl.1 in (r, (s', sl.2)).
Definition getl {S L A} (f : L -> A) : M (S * L) A := fun sl => (Go (f sl.2), sl).
Definition setl {S L} (f : L -> L) : M (S * L) unit := fun sl => (Go tt, (sl.1, f sl.2)).

(** The part up to [bail:] with fresh locals: the error code and the locals. *)
Definition with_locals {S L} (l0 : L) (body : M (S * L) unit) : M S (Z * L) := fun s =>
  match body (s, l0) with
  | (Go _, (s', l)) => (Go (AEE_SUCCESS, l), s')
  | (Bail e, (s', l)) => (Go (e, l), s')
  end.

(** A C function: its body never leaves through [bail] (the label is inside). *)
Class Total {S A} (m : M S A) : Prop := total : forall s, exists a s', m s = (Go a, s').

#[export] Instance Total_ret S A (a : A) : Total (mret a : M S A).
Proof. intros s. by eexists _, _. Qed.
#[export] Instance Total_to_bail S (b : M S unit) : Total (to_bail b).
Proof. intros s. unfold to_bail. destruct (b s) as [[[]|e] s']; by eexists _, _. Qed.
#[export] Instance Total_with_locals S L (l0 : L) (b : M (S * L) unit) : Total (with_locals l0 b).
Proof. intros s. unfold with_locals. destruct (b (s, l0)) as [[[]|e] [s' l]]; by eexists _, _. Qed.
#[export] Instance Total_get S : Total (@get S).
Proof. intros s. by eexists _, _. Qed.
#[export] Instance Total_gets S A (f : S -> A) : Total (gets f).
Proof. intros s. by eexists _, _. Qed.
#[export] Instance Total_modify S (f : S -> S) : Total (modify f).
Proof. intros s. by eexists _, _. Qed.
#[export] Instance Total_put S (s : S) : Total (put s).
Proof. intros s0. by eexists _, _. Qed.
#[export] Instance Total_bind S A B (m : M S A) (f : A -> M S B) :
  Total m -> (forall a, Total (f a)) -> Total (m ≫= f).
Proof.
  intros Hm Hf s. destruct (Hm s) as (a & s' & E). destruct (Hf a s') as (b & s'' & E').
  exists b, s''. unfold mbind, M_bind. by rewrite E.
Qed.
#[export] Instance Total_if S A (c : bool) (m m' : M S A) :
  Total m -> Total m' -> Total (if c then m else m').
Proof. by destruct c. Qed.

(** Preservation of a state predicate by a computation, bail paths included. *)
Definition preserves {S A} (P : S -> Prop) (m : M S A) : Prop :=
  forall s, P s -> P (m s).2.

Lemma preserves_ret {S A} P (a : A) : preserves P (mret a : M S A).
Proof. by intros s. Qed.
Lemma preserves_bail {S A} P e : preserves P (bail e : M S A).
Proof. by intros s. Qed.
Lemma preserves_get {S} P : preserves P (@get S).
Proof. by intros s. Qed.
Lemma preserves_gets {S A} P (f : S -> A) : preserves P (gets f).
Proof. by intros s. Qed.
Lemma preserves_bind {S A B} P (m : M S A) (f : A -> M S B) :
  preserves P m -> (forall a, preserves P (f a)) -> preserves P (m ≫= f).
Proof.
  intros Hm Hf s Hs. specialize (Hm s Hs). unfold mbind, M_bind.
  destruct (m s) as [[a|e] s'] eqn:E; cbn in *; [by apply Hf | done].
Qed.
Lemma preserves_to_bail {S} P (b : M S unit) : preserves P b -> preserves P (to_bail b).
Proof. intros Hb s Hs. specialize (Hb s Hs). unfold to_bail. by destruct (b s) as [[|] ]. Qed.
Lemma preserves_VERIFYC {S} P b e : preserves P (VERIFYC b e : M S unit).
Proof. intros s. by destruct b. Qed.
Lemma preserves_VERIFY {S} P n b : preserves P (VERIFY n b : M S unit).
Proof. intros s. by destruct b. Qed.
Lemma preserves_VERIFY_CALL {S} P (m : M S Z) : preserves P m -> preserves P (VERIFY_CALL m).
Proof. intros H. apply preserves_bind; [done|]. intros. apply preserves_VERIFY. Qed.
Lemma preserves_VERIFYC_CALL {S} P (m : M S Z) e : preserves P m -> preserves P (VERIFYC_CALL m e).
Proof. intros H. apply preserves_bind; [done|]. intros. apply preserves_VERIFYC. Qed.
Lemma preserves_modify {S} (P : S -> Prop) f : (forall s, P s -> P (f s)) -> preserves P (modify f).
Proof. intros H s Hs. by apply H. Qed.
Lemma preserves_if {S A} P (c : bool) (m m' : M S A) :
  preserves P m -> preserves P m' -> preserves P (if c then m else m').
Proof. by destruct c. Qed.

Lemma preserves_with_locals {S L} (P : S -> Prop) (l0 : L) b :
  preserves (fun sl => P sl.1) b -> preserves P (with_locals l0 b).
Proof. intros Hb s Hs. specialize (Hb (s, l0) Hs). unfold with_locals. by destruct (b (s, l0)) as [[|] []]. Qed.
Lemma preserves_lift {S L A} (P : S -> Prop) (m : M S A) :
  preserves P m -> preserves (fun sl : S * L => P sl.1) (lift m).
Proof. intros Hm [s l] Hs. specialize (Hm s Hs). unfold lift. cbn in *. by destruct (m s). Qed.
Lemma preserves_getl {S L A} (P : S -> Prop) (f : L -> A) :
  preserves (fun sl : S * L => P sl.1) (getl f).
Proof. by intros []. Qed.
Lemma preserves_setl {S L} (P : S -> Prop) (f : L -> L) :
  preserves (fun sl : S * L => P sl.1) (setl f).
Proof. by intros []. Qed.

Create HintDb bail.
#[export] Hint Resolve preserves_ret preserves_bail preserves_get preserves_gets
  preserves_VERIFYC preserves_VERIFY preserves_VERIFY_CALL preserves_VERIFYC_CALL
  preserves_to_bail preserves_bind preserves_if preserves_with_locals preserves_lift
  preserves_getl preserves_setl : bail.

(** Unfolding one monadic program on a concrete or symbolic state. *)
Ltac munfold :=
  unfold VERIFY_CALL, VERIFYC_CALL, VERIFYC, VERIFY, to_bail, with_locals, lift, getl, setl, get, gets, put, modify, bail,
    mbind, M_bind, mret, M_ret in *; cbn beta iota in *.

(** ** Weakest preconditions

    [Q] for leaving at the end, [R] for leaving through [bail]. *)
Definition wp {S A} (m : M S A) (Q : A -> S -> Prop) (R : Z -> S -> Prop) (s : S) : Prop :=
  match m s with
  | (Go a, s') => Q a s'
  | (Bail e, s') => R e s'
  end.

Section wp.
Context {S A B : Type}.
Implicit Types (Q : A -> S -> Prop) (R : Z -> S -> Prop).

Lemma wp_ret (a : A) Q R s : Q a s -> wp (mret a) Q R s.
Proof. done. Qed.
Lemma wp_bail e Q R s : R e s -> wp (bail e : M S A) Q R s.
Proof. done. Qed.
Lemma wp_bind (m : M S B) (f : B -> M S A) Q R s :
  wp m (fun b s' => wp (f b) Q R s') R s -> wp (m ≫= f) Q R s.
Proof. unfold wp, mbind, M_bind. by destruct (m s) as [[]]. Qed.
Lemma wp_mono (m : M S A) Q Q' R R' s :
  wp m Q R s -> (forall a s', Q a s' -> Q' a s') -> (forall e s', R e s' -> R' e s') -> wp m Q' R' s.
Proof. unfold wp. intros H HQ HR. destruct (m s) as [[]]; auto. Qed.
Lemma wp_if (c : bool) (m m' : M S A) Q R s :
  (c = true -> wp m Q R s) -> (c = false -> wp m' Q R s) -> wp (if c then m else m') Q R s.
Proof. destruct c; auto. Qed.
End wp.

Lemma wp_VERIFY {S} n b (Q : unit -> S -> Prop) R s :
  (b = true -> Q tt s) -> (b = false -> R (if n =? 0 then -1 else n) s) -> wp (VERIFY n b) Q R s.
Proof. intros HQ HR. destruct b; unfold wp; cbn; auto. Qed.
Lemma wp_VERIFYC {S} e b (Q : unit -> S -> Prop) R s :
  (b = true -> Q tt s) -> (b = false -> R e s) -> wp (VERIFYC b e) Q R s.
Proof. intros HQ HR. destruct b; unfold wp; cbn; auto. Qed.
Lemma wp_gets {S A} (f : S -> A) (Q : A -> S -> Prop) R s : Q (f s) s -> wp (gets f) Q R s.
Proof. done. Qed.
Lemma wp_modify {S} (f : S -> S) (Q : unit -> S -> Prop) R s : Q tt (f s) -> wp (modify f) Q R s.
Proof. done. Qed.

Lemma wp_lift {S L A} (m : M S A) (Q : A -> S * L -> Prop) R s l :
  wp m (fun a s' => Q a (s', l)) (fun e s' => R e (s', l)) s -> wp (lift m) Q R (s, l).
Proof. unfold wp, lift. cbn. by destruct (m s) as [[]]. Qed.
Lemma wp_getl {S L A} (f : L -> A) (Q : A -> S * L -> Prop) R s l : Q (f l) (s, l) -> wp (getl f) Q R (s, l).
Proof. done. Qed.
Lemma wp_setl {S L} (f : L -> L) (Q : unit -> S * L -> Prop) R s l : Q tt (s, f l) -> wp (setl f) Q R (s, l).
Proof. done. Qed.
Lemma wp_with_locals {S L} (l0 : L) (b : M (S * L) unit) (Q : Z * L -> S -> Prop) R s :
  wp b (fun _ sl => Q (AEE_SUCCESS, sl.2) sl.1) (fun e sl => Q (e, sl.2) sl.1) (s, l0) ->
  wp (with_locals l0 b) Q R s.
Proof. unfold wp, with_locals. by destruct (b (s, l0)) as [[[]|] []]. Qed.
Lemma wp_to_bail {S} (b : M S unit) (Q : Z -> S -> Prop) R s :
  wp b (fun _ s' => Q AEE_SUCCESS s') (fun e s' => Q e s') s -> wp (to_bail b) Q R s.
Proof. unfold wp, to_bail. by destruct (b s) as [[[]|] ?]. Qed.
Lemma wp_VERIFY_CALL {S} (c : M S Z) (Q : unit -> S -> Prop) R s :
  wp c (fun r s' => (r = 0 -> Q tt s') /\ (r <> 0 -> R r s')) R s -> wp (VERIFY_CALL c) Q R s.
Proof.
  intros H. unfold VERIFY_CALL. apply wp_bind. eapply wp_mono; [exact H| |done].
  intros r s' [HQ HR]. unfold AEE_SUCCESS. apply wp_VERIFY.
  - intros ->%Z.eqb_eq. by apply HQ.
  - intros E. rewrite E. apply HR. by apply Z.eqb_neq.
Qed.

Lemma wp_get {S} (Q : S -> S -> Prop) R s : Q s s -> wp (@get S) Q R s.
Proof. done. Qed.
Lemma wp_put {S} (s' : S) (Q : unit -> S -> Prop) R s : Q tt s' -> wp (put s') Q R s.
Proof. done. Qed.

(** What a computation returns, from a weakest precondition and back. *)
Lemma wp_result {S A} (m : M S A) a s s' :
  wp m (fun x t => x = a /\ t = s') (fun _ _ => False) s -> m s = (Go a, s').
Proof. unfold wp. destruct (m s) as [[] ?]; [by intros [-> ->]|done]. Qed.
Lemma wp_call {S A} (m : M S A) (Q : A -> S -> Prop) R s a s' : m s = (Go a, s') -> Q a s' -> wp m Q R s.
Proof. unfold wp. by intros ->. Qed.

(** From a weakest precondition to the resulting state. *)
Lemma wp_run_state {S A} (m : M S A) (P : S -> Prop) s :
  wp m (fun _ => P) (fun _ => P) s -> P (m s).2.
Proof. unfold wp. by destruct (m s) as [[]]. Qed.

(** Two programs that do the same from [s], and what they do there. *)
Definition wp2 {S A} (m m' : M S A) (Q : A -> S -> Prop) (R : Z -> S -> Prop) (s : S) : Prop :=
  wp m Q R s /\ m' s = m s.

Lemma wp2_bind {S A B} (m : M S B) (f g : B -> M S A) (Q : A -> S -> Prop) R s :
  wp m (fun b s' => wp2 (f b) (g b) Q R s') R s -> wp2 (m ≫= f) (m ≫= g) Q R s.
Proof. unfold wp2, wp, mbind, M_bind. by destruct (m s) as [[]]. Qed.

Lemma wp2_refl {S A} (m : M S A) (Q : A -> S -> Prop) R s : wp m Q R s -> wp2 m m Q R s.
Proof. done. Qed.

(** Applies the rule of the head constructor. *)
Ltac wp_step :=
  lazymatch goal with
  | |- wp (mbind _ _) _ _ _ => apply wp_bind
  | |- wp2 (mbind _ _) _ _ _ _ => apply wp2_bind
  | |- wp (VERIFYC _ _) _ _ _ => apply wp_VERIFYC; intros
  | |- wp (VERIFY _ _) _ _ _ => apply wp_VERIFY; intros
  | |- wp (gets _) _ _ _ => apply wp_gets
  | |- wp get _ _ _ => apply wp_get
  | |- wp (put _) _ _ _ => apply wp_put
  | |- wp (modify _) _ _ _ => apply wp_modify
  | |- wp (mret _) _ _ _ => apply wp_ret
  | |- wp (bail _) _ _ _ => apply wp_bail
  | |- wp (lift _) _ _ _ => apply wp_lift
  | |- wp (getl _) _ _ _ => apply wp_getl
  | |- wp (setl _) _ _ _ => apply wp_setl
  | |- wp (with_locals _ _) _ _ _ => apply wp_with_locals
  | |- wp (to_bail _) _ _ _ => apply wp_to_bail
  | |- wp (VERIFY_CALL _) _ _ _ => apply wp_VERIFY_CALL
  | |- wp (if _ then _ else _) _ _ _ => apply wp_if; intros
  end.

(** ** Preservation, computation by computation

    [keep] applies the rule of the head constructor, splits conditions and matches, and takes
    what a component says of its own operations from the hints [keeps]; [keep_with] tries a
    rule of the component first. *)
Create HintDb keeps.
Ltac keep_with rule :=
  repeat first
    [ progress (intros; cbv beta)
    | rule
    | solve [eauto with keeps nocore]
    | apply preserves_bind | apply preserves_with_locals | apply preserves_lift | apply preserves_getl | apply preserves_setl
    | apply preserves_to_bail | apply preserves_VERIFY_CALL
    | apply preserves_VERIFYC | apply preserves_VERIFY | apply preserves_ret | apply preserves_bail | apply preserves_gets
    | apply preserves_get
    | match goal with |- preserves _ (if ?c then _ else _) => destruct c eqn:? end
    | match goal with |- preserves _ (match ?x with _ => _ end) => destruct x end ].
Ltac keep := keep_with fail.
