(* ===== verification/QList.v ===== *)
(** The intrusive lists, [inc/AEEQList.h]: circular doubly linked lists with a head node.

    The memory is a finite map from the address of a node to its two pointers; touching a
    node that is not there is a fault. The lists of the other files are sequences: the
    theorem [qlist_refines] says what entitles them to be. *)
From S2P Require Import Prelude.
#[local] Open Scope Z_scope.

(** ** Memory *)
Record QNode := Node { pNext : Z; pPrev : Z }.
Abbreviation heap := (gmap Z QNode).

(** A computation on the memory, [None] for a fault. *)
Definition P (A : Type) : Type := heap -> option (A * heap).
#[export] Instance P_ret : MRet P := fun A a h => Some (a, h).
#[export] Instance P_bind : MBind P := fun A B f m h => match m h with Some (a, h) => f a h | None => None end.

Definition set_pNext (v : Z) (n : QNode) : QNode := Node v (pPrev n).
Definition set_pPrev (v : Z) (n : QNode) : QNode := Node (pNext n) v.
Definition next (p : Z) : P Z := fun h => (fun n => (pNext n, h)) <$> h !! p.
Definition prev (p : Z) : P Z := fun h => (fun n => (pPrev n, h)) <$> h !! p.
Definition upd (p : Z) (f : QNode -> QNode) : P unit := fun h => (fun n => (tt, <[p := f n]> h)) <$> h !! p.
Definition put_next (p v : Z) : P unit := upd p (set_pNext v).
Definition put_prev (p v : Z) : P unit := upd p (set_pPrev v).

(** ** Nodes. The address of a list is that of its head. *)
Definition QNode_InsPrev (me pn : Z) : P unit :=
  pPrev ← prev me;
  _ ← put_next pn me;
  _ ← put_prev pn pPrev;
  _ ← put_next pPrev pn;
  put_prev me pn.
Definition QNode_InsNext (me pn : Z) : P unit :=
  pNext ← next me;
  _ ← put_prev pn me;
  _ ← put_next pn pNext;
  _ ← put_prev pNext pn;
  put_next me pn.
Definition QNode_Dequeue (me : Z) : P unit :=
  pNext ← next me;
  pPrev ← prev me;
  _ ← put_next pPrev pNext;
  put_prev pNext pPrev.
Definition QNode_CtorZ (me : Z) : P unit := _ ← put_prev me 0; put_next me 0.
Definition QNode_IsQueuedZ (me : Z) : P bool := n ← next me; mret (negb (n =? 0)).
Definition QNode_DequeueZ (me : Z) : P unit :=
  q ← QNode_IsQueuedZ me;
  if q : bool then (_ ← QNode_Dequeue me; _ ← put_prev me 0; put_next me 0) else mret tt.

(** ** Lists *)
Definition QList_Zero (me : Z) : P unit := _ ← put_prev me me; put_next me me.
Definition QList_Ctor (me : Z) : P unit := QList_Zero me.
Definition QList_IsEmpty (me : Z) : P bool := n ← next me; mret (n =? me).
Definition QList_IsNull (me : Z) : P bool := n ← next me; p ← prev me; mret ((n =? 0) && (p =? 0)).
Definition QList_AppendNode (me pn : Z) : P unit := QNode_InsPrev me pn.
Definition QList_PrependNode (me pn : Z) : P unit := QNode_InsNext me pn.
Definition QList_CtorFrom (d s : Z) : P unit :=
  sn ← next s;
  _ ← put_prev sn d;
  sp ← prev s;
  _ ← put_prev d sp;
  sn ← next s;
  _ ← put_next d sn;
  sp ← prev s;
  _ ← put_next sp d;
  QList_Zero s.
Definition QList_AppendList (d s : Z) : P unit :=
  dp ← prev d;
  sn ← next s;
  _ ← put_prev sn dp;
  _ ← put_next dp sn;
  sp ← prev s;
  _ ← put_prev d sp;
  _ ← put_next sp d;
  QList_Zero s.
Definition or_null (me pn : Z) : Z := if pn =? me then 0 else pn.
Definition QList_GetFirst (me : Z) : P Z := pn ← next me; mret (or_null me pn).
Definition QList_GetLast (me : Z) : P Z := pn ← prev me; mret (or_null me pn).
Definition QList_Pop (me : Z) : P Z :=
  pn ← next me;
  pnn ← next pn;
  _ ← put_next me pnn;
  _ ← put_prev pnn me;
  mret (or_null me pn).
Definition QList_PopZ (me : Z) : P Z :=
  pn ← QList_Pop me;
  _ ← (if negb (pn =? 0) then QNode_CtorZ pn else mret tt);
  mret pn.
Definition QList_PopLast (me : Z) : P Z :=
  pp ← prev me;
  ppp ← prev pp;
  _ ← put_prev me ppp;
  _ ← put_next ppp me;
  mret (or_null me pp).
Definition QList_PopLastZ (me : Z) : P Z :=
  pn ← QList_PopLast me;
  _ ← (if negb (pn =? 0) then QNode_CtorZ pn else mret tt);
  mret pn.

(** ** Loops

    The body has a state of its own. The result is [None] when the fuel ended first. *)
Section loops.
Context {S : Type}.
Variables (q : Z) (body : Z -> S -> P S).
(** [QLIST_FOR_REST], from a node on, and [QLIST_REV_FOR_REST]. *)
Fixpoint QLIST_FOR_REST (fuel : nat) (pn : Z) (s : S) : P (option S) :=
  if pn =? q then mret (Some s)
  else match fuel with
       | O => mret None
       | Datatypes.S fuel => s ← body pn s; pn ← next pn; QLIST_FOR_REST fuel pn s
       end.
Fixpoint QLIST_REV_FOR_REST (fuel : nat) (pn : Z) (s : S) : P (option S) :=
  if pn =? q then mret (Some s)
  else match fuel with
       | O => mret None
       | Datatypes.S fuel => s ← body pn s; pn ← prev pn; QLIST_REV_FOR_REST fuel pn s
       end.
Definition QLIST_FOR_ALL (fuel : nat) (s : S) : P (option S) := pn ← next q; QLIST_FOR_REST fuel pn s.
Definition QLIST_REV_FOR_ALL (fuel : nat) (s : S) : P (option S) := pn ← prev q; QLIST_REV_FOR_REST fuel pn s.
(** The node after the current one is read before the body. *)
Fixpoint nextsafe (fuel : nat) (pn pnn : Z) (s : S) : P (option S) :=
  if pn =? q then mret (Some s)
  else match fuel with
       | O => mret None
       | Datatypes.S fuel => s ← body pn s; n ← next pnn; nextsafe fuel pnn n s
       end.
Definition QLIST_NEXTSAFE_FOR_ALL (fuel : nat) (s : S) : P (option S) :=
  pn ← next q; pnn ← next pn; nextsafe fuel pn pnn s.
End loops.

(** ** The shape of a ring *)
Definition nxt (h : heap) (a : Z) : option Z := pNext <$> h !! a.
Definition prv (h : heap) (a : Z) : option Z := pPrev <$> h !! a.
Definition link (h : heap) (x y : Z) : Prop := nxt h x = Some y /\ prv h y = Some x.
(** From [x] through all of [l]; [end_of x l] is the last node. *)
Fixpoint chain (h : heap) (x : Z) (l : list Z) : Prop :=
  match l with
  | [] => True
  | y :: l => link h x y /\ chain h y l
  end.
Fixpoint end_of (x : Z) (l : list Z) : Z := match l with [] => x | y :: l => end_of y l end.
Definition first_of (x : Z) (l : list Z) : Z := match l with [] => x | y :: _ => y end.
Definition ring (h : heap) (q : Z) (l : list Z) : Prop := chain h q l /\ link h (end_of q l) q.

Lemma end_of_app x l1 l2 : end_of x (l1 ++ l2) = end_of (end_of x l1) l2.
Proof. revert x. induction l1 as [|y l1 IH]; intros x; [done|apply IH]. Qed.
Lemma chain_app h x l1 l2 : chain h x (l1 ++ l2) <-> chain h x l1 /\ chain h (end_of x l1) l2.
Proof. revert x. induction l1 as [|y l1 IH]; intros x; cbn; [tauto|]. rewrite IH. tauto. Qed.
Lemma end_of_in x l : end_of x l ∈ x :: l.
Proof. revert x. induction l as [|y l IH]; intros x; cbn; [by left|]. right. apply IH. Qed.
Lemma first_of_in x l : first_of x l ∈ x :: l.
Proof. destruct l; cbn; set_solver. Qed.

(** The two ends of a ring, from the head. *)
Lemma ring_first h q l : ring h q l -> nxt h q = Some (first_of q l).
Proof. intros [Hc Hl]. destruct l as [|y l]; [apply Hl|apply Hc]. Qed.
Lemma ring_last h q l : ring h q l -> prv h q = Some (end_of q l).
Proof. intros [_ Hl]. apply Hl. Qed.
(** A node of the ring and its neighbours. *)
Lemma ring_mid h q l1 n l2 : ring h q (l1 ++ n :: l2) -> nxt h n = Some (first_of q l2) /\ prv h n = Some (end_of q l1).
Proof.
  intros [Hc Hl]. rewrite end_of_app in Hl. apply chain_app in Hc as [_ [Hn Hc]]. cbn in *.
  split; [|apply Hn]. destruct l2; [apply Hl|apply Hc].
Qed.
Lemma ring_mem h q l a : ring h q l -> a ∈ q :: l -> is_Some (h !! a).
Proof.
  intros Hr [->|(l1 & l2 & ->)%list_elem_of_split]%elem_of_cons.
  - apply ring_first in Hr. unfold nxt in Hr. destruct (h !! q); [by eexists|done].
  - apply ring_mid in Hr as [Hr _]. unfold nxt in Hr. destruct (h !! a); [by eexists|done].
Qed.

(** A chain only depends on the next pointers before its end and the previous ones after
    its start. *)
Lemma chain_frame h h' x l :
  NoDup (x :: l) -> (forall a, a ∈ x :: l -> a <> end_of x l -> nxt h' a = nxt h a) -> (forall a, a ∈ l -> prv h' a = prv h a) ->
  chain h x l -> chain h' x l.
Proof.
  revert x. induction l as [|y l IH]; intros x Hd Hn Hp; [done|]. cbn. intros [[H1 H2] Hc].
  apply NoDup_cons in Hd as [Hx Hd]. split; [split|].
  - rewrite Hn; [done|by left|]. intros E. apply Hx. rewrite E. apply (end_of_in y l).
  - rewrite Hp; [done|by left].
  - apply IH; [done| | |done].
    + intros a Ha He. apply Hn; [by right|done].
    + intros a Ha. apply Hp. by right.
Qed.
Lemma ring_frame h h' q l : (forall a, a ∈ q :: l -> h' !! a = h !! a) -> ring h q l -> ring h' q l.
Proof.
  intros He [Hc [Hn Hp]].
  assert (Hx : forall x l0, (forall a, a ∈ x :: l0 -> a ∈ q :: l) -> chain h x l0 -> chain h' x l0).
  { intros x l0. revert x. induction l0 as [|y l0 IH]; intros x Hi; [done|]. intros [[H1 H2] H3]. split; [split|].
    - unfold nxt. rewrite He; [done|]. apply Hi. by left.
    - unfold prv. rewrite He; [done|]. apply Hi. right. by left.
    - apply IH; [|done]. intros a Ha. apply Hi. by right. }
  split; [by apply Hx|]. split; [unfold nxt; rewrite He; [done|apply end_of_in]|unfold prv; rewrite He; [done|by left]].
Qed.

(** ** Running: no fault, and the result satisfies [Q] *)
Definition runs {A} (m : P A) (h : heap) (Q : A -> heap -> Prop) : Prop := exists a h', m h = Some (a, h') /\ Q a h'.
Lemma runs_ret {A} (a : A) h (Q : A -> heap -> Prop) : Q a h -> runs (mret a) h Q.
Proof. by exists a, h. Qed.
Lemma runs_bind {A B} (m : P A) (f : A -> P B) h Q : runs m h (fun a h => runs (f a) h Q) -> runs (m ≫= f) h Q.
Proof. intros (a & h1 & E & b & h2 & E2 & H). exists b, h2. split; [|done]. unfold mbind, P_bind. by rewrite E. Qed.
Lemma runs_mono {A} (m : P A) h (Q Q' : A -> heap -> Prop) : runs m h Q -> (forall a h, Q a h -> Q' a h) -> runs m h Q'.
Proof. intros (a & h1 & E & H) HQ. exists a, h1. auto. Qed.
Lemma runs_next h p v (Q : Z -> heap -> Prop) : nxt h p = Some v -> Q v h -> runs (next p) h Q.
Proof. unfold nxt, runs, next. destruct (h !! p); cbn; [|done]. intros [= ->]. eauto. Qed.
Lemma runs_prev h p v (Q : Z -> heap -> Prop) : prv h p = Some v -> Q v h -> runs (prev p) h Q.
Proof. unfold prv, runs, prev. destruct (h !! p); cbn; [|done]. intros [= ->]. eauto. Qed.

(** [h'] is [h] but for the nodes in [l]. *)
Definition only (l : list Z) (h h' : heap) : Prop :=
  (forall a, a ∉ l -> h' !! a = h !! a) /\ (forall a, is_Some (h' !! a) <-> is_Some (h !! a)).
Lemma only_trans l1 l2 h1 h2 h3 : only l1 h1 h2 -> only l2 h2 h3 -> only (l1 ++ l2) h1 h3.
Proof.
  intros [A1 B1] [A2 B2]. split; intros a; [|by rewrite B2].
  intros Ha. rewrite A2, A1; [done|set_solver..].
Qed.
Lemma only_refl h : only [] h h.
Proof. done. Qed.
Lemma only_weaken l l' h h' : only l h h' -> (forall a, a ∈ l -> a ∈ l') -> only l' h h'.
Proof. intros [A B] Hi. split; [|done]. intros a Ha. apply A. auto. Qed.

Lemma runs_put_next h p v (Q : unit -> heap -> Prop) :
  is_Some (h !! p) ->
  (forall h', (forall a, nxt h' a = if decide (a = p) then Some v else nxt h a) -> (forall a, prv h' a = prv h a) -> only [p] h h' -> Q tt h') ->
  runs (put_next p v) h Q.
Proof.
  intros [n Hn] HQ. unfold put_next, upd, runs. rewrite Hn. cbn. eexists _, _; split; [reflexivity|].
  assert (Hi : forall a, <[p:=set_pNext v n]> h !! a = if decide (a = p) then Some (set_pNext v n) else h !! a).
  { intros a. destruct (decide (a = p)) as [->|]; [by rewrite lookup_insert_eq|by rewrite lookup_insert_ne]. }
  apply HQ; [| |split]; unfold nxt, prv; intros a; try intros Ha; rewrite Hi; destruct (decide (a = p)) as [->|]; try done; rewrite ?Hn; try done.
  set_solver.
Qed.
Lemma runs_put_prev h p v (Q : unit -> heap -> Prop) :
  is_Some (h !! p) ->
  (forall h', (forall a, nxt h' a = nxt h a) -> (forall a, prv h' a = if decide (a = p) then Some v else prv h a) -> only [p] h h' -> Q tt h') ->
  runs (put_prev p v) h Q.
Proof.
  intros [n Hn] HQ. unfold put_prev, upd, runs. rewrite Hn. cbn. eexists _, _; split; [reflexivity|].
  assert (Hi : forall a, <[p:=set_pPrev v n]> h !! a = if decide (a = p) then Some (set_pPrev v n) else h !! a).
  { intros a. destruct (decide (a = p)) as [->|]; [by rewrite lookup_insert_eq|by rewrite lookup_insert_ne]. }
  apply HQ; [| |split]; unfold nxt, prv; intros a; try intros Ha; rewrite Hi; destruct (decide (a = p)) as [->|]; try done; rewrite ?Hn; try done.
  set_solver.
Qed.

(** ** Surgery on rings *)
Lemma end_of_ne x y l n : n ∉ y :: l -> end_of x (y :: l) <> n.
Proof. intros Hn <-. apply Hn, (end_of_in y l). Qed.

(** A chain and a node before it. *)
Lemma chain_cons h x y l : chain h x (y :: l) <-> link h x y /\ chain h y l.
Proof. done. Qed.

Lemma first_of_ne (q : Z) (l1 l2 : list Z) (a : Z) : a ∈ l1 -> q ∉ l1 -> (forall x, x ∈ l1 -> x ∉ l2) -> a <> first_of q l2.
Proof.
  intros Ha Hq Hd ->. destruct l2 as [|y l2]; cbn in *; [done|]. apply (Hd y Ha). by left.
Qed.

Lemma nodup_ne (l1 l2 : list Z) a b : NoDup (l1 ++ l2) -> a ∈ l1 -> b ∈ l2 -> a <> b.
Proof. intros (_ & H & _)%NoDup_app Ha Hb ->. by apply (H b). Qed.
Lemma nodup_end (q : Z) l1 l2 a : NoDup ((q :: l1) ++ l2) -> a ∈ l2 -> a <> end_of q l1.
Proof. intros Hd Ha E. eapply nodup_ne; [exact Hd|apply end_of_in|exact Ha|done]. Qed.

Lemma ring_insert h h' q l1 n l2 :
  ring h q (l1 ++ l2) -> n ∉ q :: l1 ++ l2 -> NoDup ((q :: l1) ++ l2) ->
  (forall a, nxt h' a = if decide (a = n) then Some (first_of q l2) else if decide (a = end_of q l1) then Some n else nxt h a) ->
  (forall a, prv h' a = if decide (a = n) then Some (end_of q l1) else if decide (a = first_of q l2) then Some n else prv h a) ->
  ring h' q (l1 ++ n :: l2).
Proof.
  intros [Hc Hl] Hnq Hd Hn Hp. apply chain_app in Hc as [Hc1 Hc2]. rewrite end_of_app in Hl.
  pose proof (end_of_in q l1) as He. pose proof (first_of_in q l2) as Hf.
  assert (Hin : forall a, a ∈ q :: l1 \/ a ∈ l2 -> a <> n).
  { intros a Ha ->. apply Hnq. change (n ∈ (q :: l1) ++ l2). by apply elem_of_app. }
  pose proof (nodup_end q l1 l2) as Hend. destruct (proj1 (NoDup_app (q :: l1) l2) Hd) as (Hd1 & Hd12 & Hd2).
  assert (Hq : q ∉ l1) by (by apply NoDup_cons in Hd1 as [? _]).
  assert (Hlx : link h' (end_of q l1) n).
  { split; [rewrite Hn, decide_False by auto|rewrite Hp]; by rewrite decide_True. }
  assert (Hly : link h' n (first_of q l2)).
  { split; [by rewrite Hn, decide_True|]. rewrite Hp, decide_False, decide_True; [done..|]. apply Hin. apply elem_of_cons in Hf as [->|Hf]; [left; left|by right]. }
  split.
  - apply chain_app. split; [|split; [done|]].
    + apply (chain_frame h); [done| | |done].
      * intros a Ha Hae. rewrite Hn, !decide_False; auto.
      * intros a Ha. rewrite Hp, !decide_False; [done| |apply Hin; left; by right].
        apply (first_of_ne q l1); [done..|]. intros x Hx. apply Hd12. by right.
    + destruct l2 as [|y l2]; [done|]. cbn [first_of] in *. split; [done|].
      apply chain_cons in Hc2 as [_ Hc2]. apply (chain_frame h); [done| | |done].
      * intros a Ha _. rewrite Hn, !decide_False; auto.
      * apply NoDup_cons in Hd2 as [Hy Hd2]. intros a Ha. rewrite Hp, !decide_False; [done|by intros ->|]. apply Hin. right. by right.
  - rewrite end_of_app. cbn [end_of]. destruct l2 as [|y l2]; [done|]. cbn [first_of end_of] in *.
    pose proof (end_of_in y l2) as Hey. destruct Hl as [Hl1 Hl2]. split.
    + rewrite Hn, !decide_False; auto.
    + rewrite Hp, !decide_False; [done| |apply Hin; left; by left]. intros ->. apply (Hd12 y); by left.
Qed.

Lemma ring_delete h h' q l1 n l2 :
  ring h q (l1 ++ n :: l2) -> NoDup ((q :: l1) ++ n :: l2) ->
  (forall a, nxt h' a = if decide (a = end_of q l1) then Some (first_of q l2) else nxt h a) ->
  (forall a, prv h' a = if decide (a = first_of q l2) then Some (end_of q l1) else prv h a) ->
  ring h' q (l1 ++ l2).
Proof.
  intros [Hc Hl] Hd Hn Hp. apply chain_app in Hc as [Hc1 [_ Hc2]]. rewrite end_of_app in Hl. cbn [end_of] in Hl.
  pose proof (end_of_in q l1) as He.
  assert (Hend : forall a, a ∈ l2 -> a <> end_of q l1) by (intros a Ha; eapply nodup_end; [exact Hd|by right]).
  destruct (proj1 (NoDup_app (q :: l1) (n :: l2)) Hd) as (Hd1 & Hd12 & [Hnl Hd2]%NoDup_cons).
  assert (Hq : q ∉ l1) by (by apply NoDup_cons in Hd1 as [? _]).
  assert (Hly : link h' (end_of q l1) (first_of q l2)).
  { split; [rewrite Hn|rewrite Hp]; by rewrite decide_True. }
  split.
  - apply chain_app. split.
    + apply (chain_frame h); [done| | |done].
      * intros a Ha Hae. by rewrite Hn, decide_False.
      * intros a Ha. rewrite Hp, decide_False; [done|]. apply (first_of_ne q l1); [done..|]. intros x Hx Hx2. apply (Hd12 x); by right.
    + destruct l2 as [|y l2]; [done|]. cbn [first_of] in *. split; [done|].
      apply chain_cons in Hc2 as [_ Hc2]. apply (chain_frame h); [done| | |done].
      * intros a Ha _. rewrite Hn, decide_False; auto.
      * apply NoDup_cons in Hd2 as [Hy Hd2]. intros a Ha. rewrite Hp, decide_False; [done|by intros ->].
  - rewrite end_of_app. destruct l2 as [|y l2]; [done|]. cbn [first_of end_of] in *.
    pose proof (end_of_in y l2) as Hey. destruct Hl as [Hl1 Hl2]. split.
    + rewrite Hn, decide_False; auto.
    + rewrite Hp, decide_False; [done|]. intros ->. apply (Hd12 y); [by left|right; by left].
Qed.

(** The nodes [m] of a chain behind a chain [l], closed to a ring. *)
Lemma ring_concat h h' d l s m :
  chain h d l -> chain h s m -> NoDup ((d :: l) ++ m) ->
  (forall a, a ∈ (d :: l) ++ m -> a <> end_of d l -> a <> end_of d (l ++ m) -> nxt h' a = nxt h a) ->
  (forall a, a ∈ l ++ m -> a <> first_of d m -> prv h' a = prv h a) ->
  link h' (end_of d l) (first_of d m) -> link h' (end_of d (l ++ m)) d -> ring h' d (l ++ m).
Proof.
  intros Hl Hm Hd Hn Hp Hlink Hend. split; [|done]. apply chain_app.
  destruct (proj1 (NoDup_app (d :: l) m) Hd) as (Hd1 & Hd12 & Hd2). pose proof (nodup_end d l m) as Hne.
  assert (Hq : d ∉ l) by (by apply NoDup_cons in Hd1 as [? _]).
  split.
  - apply (chain_frame h); [done| | |done].
    + intros a Ha Hae. apply Hn; [apply elem_of_app; by left|done|]. rewrite end_of_app. destruct m as [|y m]; [done|].
      intros ->. apply (Hd12 _ Ha). apply (end_of_in y m).
    + intros a Ha. apply Hp; [apply elem_of_app; by left|]. apply (first_of_ne d l); [done..|]. intros x Hx. apply Hd12. by right.
  - destruct m as [|y m]; [done|]. cbn [first_of] in *. split; [done|]. destruct Hm as [_ Hm].
    pose proof (proj1 (NoDup_cons _ _) Hd2) as [Hy _]. apply (chain_frame h); [done| | |done].
    + intros a Ha Hae. apply Hn; [apply elem_of_app; by right|by apply Hne|]. rewrite end_of_app. done.
    + intros a Ha. apply Hp; [apply elem_of_app; right; by right|by intros ->].
Qed.

(** ** The operations on rings *)
Lemma ring_edge h q l1 l2 : ring h q (l1 ++ l2) -> nxt h (end_of q l1) = Some (first_of q l2) /\ prv h (first_of q l2) = Some (end_of q l1).
Proof.
  intros [Hc Hl]. apply chain_app in Hc as [Hc1 Hc2]. rewrite end_of_app in Hl. destruct l2 as [|y l2]; [exact Hl|]. apply Hc2.
Qed.
Lemma nxt_alloc h a v : nxt h a = Some v -> is_Some (h !! a).
Proof. unfold nxt. destruct (h !! a); [by eexists|done]. Qed.
Lemma prv_alloc h a v : prv h a = Some v -> is_Some (h !! a).
Proof. unfold prv. destruct (h !! a); [by eexists|done]. Qed.

(** Steps through the loads and stores; the pointers after a store are known at every node. *)
Ltac known :=
  match goal with
  | H : only _ ?h0 ?h |- is_Some (?h !! _) => apply (proj2 H); known
  | |- is_Some _ => eauto using nxt_alloc, prv_alloc, ring_mem
  end.
Ltac pointers :=
  repeat match goal with
         | H : forall a, nxt ?h a = _ |- context [nxt ?h _] => rewrite H
         | H : forall a, prv ?h a = _ |- context [prv ?h _] => rewrite H
         end.
Ltac mem_step :=
  lazymatch goal with
  | |- runs (_ ≫= _) _ _ => apply runs_bind; mem_step
  | |- runs (mret _) _ _ => apply runs_ret
  | |- runs (next _) _ _ => eapply runs_next; [pointers; try done; eauto|cbv beta]
  | |- runs (prev _) _ _ => eapply runs_prev; [pointers; try done; eauto|cbv beta]
  | |- runs (put_next _ _) _ _ => apply runs_put_next; [known|let h := fresh "h" in intros h ? ? ?; cbv beta]
  | |- runs (put_prev _ _) _ _ => apply runs_put_prev; [known|let h := fresh "h" in intros h ? ? ?; cbv beta]
  end.
(** Pointers after several stores. *)
Ltac pointer_cases := intros; pointers; repeat case_decide; subst; try done; try congruence.
Ltac only_solve := repeat match goal with H1 : only ?l ?h0 ?h1, H2 : only ?m ?h1 ?h2 |- only _ _ ?h2 => pose proof (only_trans _ _ _ _ _ H1 H2); clear H1 H2 end;
  eapply only_weaken; [eassumption|let a := fresh "a" in let Ha := fresh "Ha" in intros a Ha;
    repeat (apply elem_of_app in Ha as [Ha|Ha]); try (apply list_elem_of_singleton in Ha; subst a); first [assumption|set_solver]].

Lemma zero_spec h me : is_Some (h !! me) -> runs (QList_Zero me) h (fun _ h' => ring h' me [] /\ only [me] h h').
Proof.
  intros Ha. unfold QList_Zero. do 2 mem_step. split; [|only_solve]. split; [done|]. split; cbn; pointer_cases.
Qed.

Lemma ends_ne (q : Z) l1 l2 n : n ∉ q :: l1 ++ l2 -> end_of q l1 <> n /\ first_of q l2 <> n.
Proof.
  intros Hn. split; intros <-; apply Hn; change (q :: l1 ++ l2) with ((q :: l1) ++ l2); apply elem_of_app.
  - left. apply end_of_in.
  - pose proof (first_of_in q l2) as [->|H]%elem_of_cons; [left; left|by right].
Qed.

Lemma ins_prev_spec h q l1 l2 n :
  ring h q (l1 ++ l2) -> n ∉ q :: l1 ++ l2 -> NoDup (q :: l1 ++ l2) -> is_Some (h !! n) ->
  runs (QNode_InsPrev (first_of q l2) n) h (fun _ h' => ring h' q (l1 ++ n :: l2) /\ only [n; end_of q l1; first_of q l2] h h').
Proof.
  intros Hr Hn Hd Ha. destruct (ring_edge h q l1 l2 Hr) as [E1 E2]. destruct (ends_ne q l1 l2 n Hn).
  unfold QNode_InsPrev. do 5 mem_step. split; [|only_solve]. apply (ring_insert h); [done..| |]; pointer_cases.
Qed.
Lemma ins_next_spec h q l1 l2 n :
  ring h q (l1 ++ l2) -> n ∉ q :: l1 ++ l2 -> NoDup (q :: l1 ++ l2) -> is_Some (h !! n) ->
  runs (QNode_InsNext (end_of q l1) n) h (fun _ h' => ring h' q (l1 ++ n :: l2) /\ only [n; end_of q l1; first_of q l2] h h').
Proof.
  intros Hr Hn Hd Ha. destruct (ring_edge h q l1 l2 Hr) as [E1 E2]. destruct (ends_ne q l1 l2 n Hn).
  unfold QNode_InsNext. do 5 mem_step. split; [|only_solve]. apply (ring_insert h); [done..| |]; pointer_cases.
Qed.
Lemma dequeue_spec h q l1 n l2 :
  ring h q (l1 ++ n :: l2) -> NoDup (q :: l1 ++ n :: l2) ->
  runs (QNode_Dequeue n) h (fun _ h' => ring h' q (l1 ++ l2) /\ only [end_of q l1; first_of q l2] h h').
Proof.
  intros Hr Hd. destruct (ring_mid h q l1 n l2 Hr) as [E1 E2]. destruct (ring_edge h q l1 (n :: l2) Hr) as [E3 E4].
  assert (Hf : is_Some (h !! first_of q l2)).
  { eapply ring_mem; [exact Hr|]. pose proof (first_of_in q l2). set_solver. }
  unfold QNode_Dequeue. do 4 mem_step. split; [|only_solve]. apply (ring_delete h _ q l1 n l2); [done..| |]; pointer_cases.
Qed.
Lemma ctorZ_spec h n : is_Some (h !! n) -> runs (QNode_CtorZ n) h (fun _ h' => nxt h' n = Some 0 /\ prv h' n = Some 0 /\ only [n] h h').
Proof. intros Ha. unfold QNode_CtorZ. do 2 mem_step. split_and!; [pointer_cases..|only_solve]. Qed.

Lemma pop_spec h q l :
  ring h q l -> NoDup (q :: l) -> q <> 0 -> 
  runs (QList_Pop q) h (fun r h' => match l with
    | [] => r = 0 /\ ring h' q [] /\ only [q] h h'
    | n :: l => r = n /\ ring h' q l /\ only (q :: l) h h' end).
Proof.
  intros Hr Hd H0. unfold QList_Pop. pose proof (ring_first h q l Hr) as E1. destruct l as [|n l]; cbn [first_of] in E1.
  - destruct Hr as [_ [E2 E3]]. cbn in E2, E3. do 5 mem_step. unfold or_null. rewrite Z.eqb_refl. split_and!; [done| |only_solve].
    split; [done|]. split; cbn; pointer_cases.
  - destruct (ring_mid h q [] n l Hr) as [E2 E3].
    assert (Hf : is_Some (h !! first_of q l)).
    { eapply ring_mem; [exact Hr|]. pose proof (first_of_in q l). set_solver. }
    do 5 mem_step. unfold or_null. rewrite (proj2 (Z.eqb_neq n q)) by (intros ->; apply NoDup_cons in Hd as [Hd _]; apply Hd; by left).
    split_and!; [done| |].
    + apply (ring_delete h _ q [] n l); [done..| |]; cbn [end_of]; pointer_cases.
    + pose proof (first_of_in q l). only_solve.
Qed.

Lemma pop_last_spec h q l :
  ring h q l -> NoDup (q :: l) -> q <> 0 ->
  runs (QList_PopLast q) h (fun r h' =>
    (l = [] /\ r = 0 /\ ring h' q [] /\ only [q] h h') \/
    (exists l1, l = l1 ++ [r] /\ ring h' q l1 /\ only (q :: l1) h h')).
Proof.
  intros Hr Hd H0. unfold QList_PopLast. pose proof (ring_last h q l Hr) as E1.
  destruct l as [|n l1 _] using rev_ind; [cbn in E1|rewrite end_of_app in E1; cbn in E1].
  - destruct Hr as [_ [E2 E3]]. cbn in E2, E3. do 5 mem_step. left. unfold or_null. rewrite Z.eqb_refl. split_and!; [done..| |only_solve].
    split; [done|]. split; cbn; pointer_cases.
  - destruct (ring_mid h q l1 n [] Hr) as [E2 E3].
    assert (Hf : is_Some (h !! end_of q l1)).
    { eapply ring_mem; [exact Hr|]. pose proof (end_of_in q l1). set_solver. }
    do 5 mem_step. right. exists l1. unfold or_null.
    rewrite (proj2 (Z.eqb_neq n q)) by (intros ->; apply NoDup_cons in Hd as [Hd _]; apply Hd; set_solver).
    split_and!; [done| |].
    + rewrite <- (app_nil_r l1). apply (ring_delete h _ q l1 n []); [done..| |]; cbn [first_of]; pointer_cases.
    + pose proof (end_of_in q l1). only_solve.
Qed.

Lemma append_list_spec h d l s m :
  ring h d l -> ring h s m -> NoDup ((d :: l) ++ s :: m) ->
  runs (QList_AppendList d s) h (fun _ h' => ring h' d (l ++ m) /\ ring h' s [] /\ only ((d :: l) ++ s :: m) h h').
Proof.
  intros Hd Hs Hn. pose proof (ring_first h s m Hs) as Es. pose proof (ring_last h d l Hd) as Ed. pose proof (ring_last h s m Hs) as El.
  pose proof (end_of_in d l) as Hin1. pose proof (end_of_in s m) as Hin2. pose proof (first_of_in s m) as Hin3.
  assert (Hne : forall a b, a ∈ d :: l -> b ∈ s :: m -> a <> b) by (intros a b; by apply nodup_ne).
  assert (Hed : forall a, a ∈ s :: m -> a <> end_of d l) by (intros a Ha E; by apply (Hne (end_of d l) a)).
  assert (Hds : d <> s) by (apply Hne; by left).
  assert (Hsm : s ∉ m) by (by apply NoDup_app in Hn as (_ & _ & [? _]%NoDup_cons)).
  assert (Ha : is_Some (h !! end_of d l)) by eauto using ring_mem.
  assert (Hb : is_Some (h !! first_of s m)) by eauto using ring_mem.
  assert (Hc : is_Some (h !! d)) by (eapply ring_mem; [exact Hd|by left]).
  assert (Hz : is_Some (h !! s)) by (eapply ring_mem; [exact Hs|by left]).
  assert (He : is_Some (h !! end_of s m)) by eauto using ring_mem.
  assert (Hel : is_Some (h !! end_of d (l ++ m))) by (rewrite end_of_app; destruct m; [done|exact He]).
  assert (M1 : end_of d l ∈ (d :: l) ++ s :: m) by (apply elem_of_app; by left).
  assert (M2 : first_of s m ∈ (d :: l) ++ s :: m) by (apply elem_of_app; by right).
  assert (M3 : d ∈ (d :: l) ++ s :: m) by (by left).
  assert (M4 : s ∈ (d :: l) ++ s :: m) by (apply elem_of_app; right; by left).
  assert (M5 : end_of d (l ++ m) ∈ (d :: l) ++ s :: m).
  { rewrite end_of_app. destruct m as [|y m]; [done|]. apply elem_of_app. right. right. apply (end_of_in y m). }
  unfold QList_AppendList. do 4 mem_step. apply runs_bind. eapply (runs_prev _ _ (end_of d (l ++ m))).
  { rewrite end_of_app. destruct m; cbn [first_of end_of] in *; pointer_cases. exfalso. apply Hsm. by left. }
  do 2 mem_step. eapply runs_mono; [apply zero_spec; known|]. intros [] h4 [Hz0 Ho]. split_and!; [|done|only_solve].
  assert (Hk : forall a, a <> s -> nxt h4 a = nxt h3 a /\ prv h4 a = prv h3 a).
  { intros a Has. unfold nxt, prv. rewrite (proj1 Ho a); [done|set_solver]. }
  assert (Hnd : NoDup ((d :: l) ++ m)).
  { apply NoDup_app in Hn as (N1 & N2 & [_ N3]%NoDup_cons). apply NoDup_app. split_and!; [done| |done]. intros x Hx Hm. apply (N2 x Hx). by right. }
  assert (Hnotin : forall a, a ∈ (d :: l) ++ m -> a <> s).
  { intros a [Hx|Hx]%elem_of_app ->; [by apply (Hne s s); [|left|]|done]. }
  assert (Hdm : forall a, a ∈ l ++ m -> a <> d) by (intros a Hx ->; by apply NoDup_cons in Hnd as [? _]).
  apply (ring_concat h _ d l s m); [apply Hd|apply Hs|done| | | |].
  - intros a Hx H1' H2'. rewrite (proj1 (Hk a (Hnotin a Hx))). pointer_cases.
  - intros a Hx H1'. rewrite (proj2 (Hk a (Hnotin a ltac:(right; exact Hx)))). pose proof (Hdm a Hx).
    assert (a <> first_of s m). { destruct m; [|done]. rewrite app_nil_r in Hx. intros ->. apply (Hne s s); [by right|by left|done]. }
    pointer_cases.
  - assert (Hx : end_of d l <> s) by (apply Hnotin, elem_of_app; by left). split.
    + rewrite (proj1 (Hk _ Hx)). destruct m as [|y m]; cbn [first_of] in *; [rewrite app_nil_r in *; pointer_cases|].
      assert (end_of d l <> end_of d (l ++ y :: m)).
      { rewrite end_of_app. intros E. apply (Hed (end_of y m)); [right; apply (end_of_in y m)|done]. }
      pointer_cases.
    + destruct m as [|y m]; cbn [first_of] in *.
      * rewrite (proj2 (Hk d Hds)). rewrite app_nil_r in *. pointer_cases.
      * assert (y <> s) by (apply Hnotin, elem_of_app; right; by left). assert (y <> d) by (apply Hdm, elem_of_app; right; by left).
        rewrite (proj2 (Hk y ltac:(done))). pointer_cases.
  - assert (Hx : end_of d (l ++ m) <> s) by (apply Hnotin; apply (end_of_in d (l ++ m))).
    split; [rewrite (proj1 (Hk _ Hx))|rewrite (proj2 (Hk d Hds))]; pointer_cases.
Qed.

Lemma ctor_from_spec h d s m :
  ring h s m -> NoDup (d :: s :: m) -> is_Some (h !! d) ->
  runs (QList_CtorFrom d s) h (fun _ h' => ring h' d m /\ ring h' s [] /\ only (d :: s :: m) h h').
Proof.
  intros Hs Hn Hc. pose proof (ring_first h s m Hs) as Es. pose proof (ring_last h s m Hs) as El.
  pose proof (end_of_in s m) as Hin2. pose proof (first_of_in s m) as Hin3.
  apply NoDup_cons in Hn as [Hds0 [Hsm Hm]%NoDup_cons].
  assert (Hds : d <> s) by (intros ->; apply Hds0; by left).
  assert (Hdm : forall a, a ∈ m -> a <> d) by (intros a Ha ->; apply Hds0; by right).
  assert (Hms : forall a, a ∈ m -> a <> s) by (by intros a Ha ->).
  assert (Hb : is_Some (h !! first_of s m)) by eauto using ring_mem.
  assert (Hz : is_Some (h !! s)) by (eapply ring_mem; [exact Hs|by left]).
  assert (Hel : is_Some (h !! end_of d m)) by (destruct m; [done|eauto using ring_mem]).
  assert (M2 : first_of s m ∈ d :: s :: m) by (by right).
  assert (M3 : d ∈ d :: s :: m) by (by left).
  assert (M4 : s ∈ d :: s :: m) by (right; by left).
  assert (M5 : end_of d m ∈ d :: s :: m).
  { destruct m as [|y m]; [by left|]. right. right. apply (end_of_in y m). }
  assert (Hes : end_of d m <> s) by (destruct m as [|y m]; [done|apply Hms, (end_of_in y m)]).
  assert (Hprev : (if decide (s = first_of s m) then Some d else prv h s) = Some (end_of d m)).
  { destruct m as [|y m]; cbn [first_of end_of] in *; [by rewrite decide_True|]. rewrite decide_False; [done|]. intros ->. apply Hsm. by left. }
  assert (Hnext : first_of s m <> s -> first_of s m <> d).
  { destruct m; cbn in *; [done|]. intros _. apply Hdm. by left. }
  unfold QList_CtorFrom. do 2 mem_step. apply runs_bind. eapply (runs_prev _ _ (end_of d m)); [pointers; exact Hprev|].
  mem_step. apply runs_bind. eapply (runs_next _ _ (first_of s m)); [pointer_cases|].
  mem_step. apply runs_bind. eapply (runs_prev _ _ (end_of d m)).
  { pointers. rewrite decide_False by done. pointers. exact Hprev. }
  mem_step. eapply runs_mono; [apply zero_spec; known|]. intros [] h4 [Hz0 Ho]. split_and!; [|done|only_solve].
  assert (Hk : forall a, a <> s -> nxt h4 a = nxt h3 a /\ prv h4 a = prv h3 a).
  { intros a Has. unfold nxt, prv. rewrite (proj1 Ho a); [done|set_solver]. }
  apply (ring_concat h _ d [] s m); [done|apply Hs|apply NoDup_cons; split; [|done]; by intros Hx; apply (Hdm d)| | | |].
  - intros a [->|Hx]%elem_of_cons H1' H2'; [done|]. cbn in Hx. rewrite (proj1 (Hk a (Hms a Hx))). pose proof (Hdm a Hx). pointer_cases.
  - cbn. intros a Hx H1'. rewrite (proj2 (Hk a (Hms a Hx))). pose proof (Hdm a Hx).
    assert (a <> first_of s m) by (destruct m; [by apply elem_of_nil in Hx|done]). pointer_cases.
  - cbn [end_of]. destruct m as [|y m]; cbn [first_of end_of] in *.
    + split; [rewrite (proj1 (Hk d Hds))|rewrite (proj2 (Hk d Hds))]; pointer_cases.
    + assert (y <> s) by (apply Hms; by left). assert (y <> d) by (apply Hdm; by left).
      assert (d <> end_of y m) by (intros E; apply (Hdm (end_of y m)); [apply (end_of_in y m)|done]).
      split; [rewrite (proj1 (Hk d Hds))|rewrite (proj2 (Hk y ltac:(done)))]; pointer_cases.
  - cbn. split; [rewrite (proj1 (Hk _ Hes))|rewrite (proj2 (Hk d Hds))]; pointer_cases.
Qed.

(** ** Many lists

    The abstract state: the sequence of each list, and the nodes that are in no list, with
    whether they are known to be zeroed. *)
Record abs := Abs { lists : gmap Z (list Z); spare : gmap Z bool }.

Inductive op :=
  | Ctor (q : Z) | CtorZ (n : Z) | InsPrev (m n : Z) | InsNext (m n : Z) | Append (q n : Z) | Prepend (q n : Z)
  | Dequeue (n : Z) | DequeueZ (n : Z) | IsQueuedZ (n : Z) | IsEmpty (q : Z) | IsNull (q : Z) | GetFirst (q : Z) | GetLast (q : Z)
  | Pop (q : Z) | PopZ (q : Z) | PopLast (q : Z) | PopLastZ (q : Z) | AppendList (d s : Z) | CtorFrom (d s : Z).

Definition void (m : P unit) : P Z := _ ← m; mret 0.
Definition flag (m : P bool) : P Z := b ← m; mret (if b : bool then 1 else 0).
Definition run_op (o : op) : P Z :=
  match o with
  | Ctor q => void (QList_Ctor q)
  | CtorZ n => void (QNode_CtorZ n)
  | InsPrev m n => void (QNode_InsPrev m n)
  | InsNext m n => void (QNode_InsNext m n)
  | Append q n => void (QList_AppendNode q n)
  | Prepend q n => void (QList_PrependNode q n)
  | Dequeue n => void (QNode_Dequeue n)
  | DequeueZ n => void (QNode_DequeueZ n)
  | IsQueuedZ n => flag (QNode_IsQueuedZ n)
  | IsEmpty q => flag (QList_IsEmpty q)
  | IsNull q => flag (QList_IsNull q)
  | GetFirst q => QList_GetFirst q
  | GetLast q => QList_GetLast q
  | Pop q => QList_Pop q
  | PopZ q => QList_PopZ q
  | PopLast q => QList_PopLast q
  | PopLastZ q => QList_PopLastZ q
  | AppendList d s => void (QList_AppendList d s)
  | CtorFrom d s => void (QList_CtorFrom d s)
  end.

(** What the operations mean, for a client that follows the rules of the header: it queues
    only nodes that are in no list and dequeues only nodes that are in one. *)
Definition put (q : Z) (l : list Z) (a : abs) : abs := Abs (<[q := l]> (lists a)) (spare a).
Definition take_spare (n : Z) (a : abs) : abs := Abs (lists a) (delete n (spare a)).
Definition give_spare (n : Z) (z : bool) (a : abs) : abs := Abs (lists a) (<[n := z]> (spare a)).
Definition last_or_null (l : list Z) : Z := default 0 (last l).
Definition first_or_null (l : list Z) : Z := default 0 (head l).

Inductive does (a : abs) : op -> Z -> abs -> Prop :=
  | does_ctor q z : spare a !! q = Some z -> does a (Ctor q) 0 (put q [] (take_spare q a))
  | does_ctorZ n z : spare a !! n = Some z -> does a (CtorZ n) 0 (give_spare n true a)
  | does_ins_prev q l1 l2 n z : lists a !! q = Some (l1 ++ l2) -> spare a !! n = Some z ->
      does a (InsPrev (first_of q l2) n) 0 (put q (l1 ++ n :: l2) (take_spare n a))
  | does_ins_next q l1 l2 n z : lists a !! q = Some (l1 ++ l2) -> spare a !! n = Some z ->
      does a (InsNext (end_of q l1) n) 0 (put q (l1 ++ n :: l2) (take_spare n a))
  | does_append q l n z : lists a !! q = Some l -> spare a !! n = Some z -> does a (Append q n) 0 (put q (l ++ [n]) (take_spare n a))
  | does_prepend q l n z : lists a !! q = Some l -> spare a !! n = Some z -> does a (Prepend q n) 0 (put q (n :: l) (take_spare n a))
  | does_dequeue q l1 n l2 : lists a !! q = Some (l1 ++ n :: l2) -> does a (Dequeue n) 0 (put q (l1 ++ l2) (give_spare n false a))
  | does_dequeueZ q l1 n l2 : lists a !! q = Some (l1 ++ n :: l2) -> does a (DequeueZ n) 0 (put q (l1 ++ l2) (give_spare n true a))
  | does_dequeueZ_not n : spare a !! n = Some true -> does a (DequeueZ n) 0 a
  | does_is_queued q l n : lists a !! q = Some l -> n ∈ l -> does a (IsQueuedZ n) 1 a
  | does_not_queued n : spare a !! n = Some true -> does a (IsQueuedZ n) 0 a
  | does_is_empty q l : lists a !! q = Some l -> does a (IsEmpty q) (match l with [] => 1 | _ => 0 end) a
  | does_is_null q l : lists a !! q = Some l -> does a (IsNull q) 0 a
  | does_first q l : lists a !! q = Some l -> does a (GetFirst q) (first_or_null l) a
  | does_last q l : lists a !! q = Some l -> does a (GetLast q) (last_or_null l) a
  | does_pop_empty q : lists a !! q = Some [] -> does a (Pop q) 0 a
  | does_pop q n l : lists a !! q = Some (n :: l) -> does a (Pop q) n (put q l (give_spare n false a))
  | does_popZ_empty q : lists a !! q = Some [] -> does a (PopZ q) 0 a
  | does_popZ q n l : lists a !! q = Some (n :: l) -> does a (PopZ q) n (put q l (give_spare n true a))
  | does_pop_last_empty q : lists a !! q = Some [] -> does a (PopLast q) 0 a
  | does_pop_last q n l : lists a !! q = Some (l ++ [n]) -> does a (PopLast q) n (put q l (give_spare n false a))
  | does_pop_lastZ_empty q : lists a !! q = Some [] -> does a (PopLastZ q) 0 a
  | does_pop_lastZ q n l : lists a !! q = Some (l ++ [n]) -> does a (PopLastZ q) n (put q l (give_spare n true a))
  | does_append_list d s l m : d <> s -> lists a !! d = Some l -> lists a !! s = Some m ->
      does a (AppendList d s) 0 (put s [] (put d (l ++ m) a))
  | does_ctor_from d s m z : spare a !! d = Some z -> lists a !! s = Some m ->
      does a (CtorFrom d s) 0 (put s [] (put d m (take_spare d a))).

(** The memory represents the lists: each is a ring, no node is in two of them, a spare node
    is in none, and there is no node at 0. *)
Record repr (h : heap) (a : abs) : Prop := {
  re_ring q l : lists a !! q = Some l -> ring h q l /\ NoDup (q :: l);
  re_disjoint q1 q2 l1 l2 x : lists a !! q1 = Some l1 -> lists a !! q2 = Some l2 -> x ∈ q1 :: l1 -> x ∈ q2 :: l2 -> q1 = q2;
  re_spare n z : spare a !! n = Some z -> is_Some (h !! n) /\ (z = true -> nxt h n = Some 0);
  re_apart n z q l : spare a !! n = Some z -> lists a !! q = Some l -> n ∉ q :: l;
  re_null : h !! 0 = None
}.

(** [x] is in no other list than [q]. *)
Definition not_elsewhere (a : abs) (q x : Z) : Prop := forall q' l, lists a !! q' = Some l -> x ∈ q' :: l -> q' = q.

Lemma repr_set h h' a q l' sp' X :
  repr h a -> ring h' q l' -> NoDup (q :: l') -> only X h h' ->
  (forall x, x ∈ X -> not_elsewhere a q x) -> (forall x, x ∈ q :: l' -> not_elsewhere a q x) ->
  (forall n z, sp' !! n = Some z -> is_Some (h !! n) /\ (z = true -> nxt h' n = Some 0) /\ (n ∉ q :: l') /\ not_elsewhere a q n) ->
  repr h' (Abs (<[q := l']> (lists a)) sp').
Proof.
  intros [Hr Hdis Hs Hap H0] Hq Hnd Ho HX Hl Hsp. split; cbn.
  - intros p l. destruct (decide (p = q)) as [->|Hpq]; [rewrite lookup_insert_eq; by intros [= <-]|rewrite lookup_insert_ne by done].
    intros E. split; [|by apply Hr]. apply (ring_frame h); [|by apply Hr]. intros x Hx. apply (proj1 Ho). intros HxX.
    apply Hpq. by apply (HX x HxX p l).
  - intros q1 q2 l1 l2 x. destruct (decide (q1 = q)) as [->|H1], (decide (q2 = q)) as [->|H2];
      rewrite ?lookup_insert_eq, ?lookup_insert_ne by done; intros E1 E2 M1 M2; simplify_eq; [done|..].
    + symmetry. by apply (Hl x M1 q2 l2).
    + by apply (Hl x M2 q1 l1).
    + by apply (Hdis q1 q2 l1 l2 x).
  - intros n z E. destruct (Hsp n z E) as (A & B & _). split; [by apply (proj2 Ho)|done].
  - intros n z p l E. destruct (Hsp n z E) as (_ & _ & A & B). destruct (decide (p = q)) as [->|Hpq]; [rewrite lookup_insert_eq; by intros [= <-]|rewrite lookup_insert_ne by done].
    intros El Hx. apply Hpq. by apply (B p l).
  - destruct (h' !! 0) eqn:E; [|done]. assert (Hc : is_Some (h !! 0)) by (apply (proj2 Ho); by eexists). rewrite H0 in Hc. by destruct Hc.
Qed.

Lemma in_list_only h a q l x : repr h a -> lists a !! q = Some l -> x ∈ q :: l -> not_elsewhere a q x.
Proof. intros Hr Hq Hx q' l' Hq' Hx'. by eapply re_disjoint. Qed.
Lemma spare_only h a n z q : repr h a -> spare a !! n = Some z -> not_elsewhere a q n.
Proof. intros Hr Hn q' l' Hq' Hx'. exfalso. by eapply re_apart. Qed.
Lemma not_null h a x : repr h a -> is_Some (h !! x) -> x <> 0.
Proof. intros Hr Hx ->. rewrite (re_null h a Hr) in Hx. by destruct Hx. Qed.
Lemma node_not_null h a q l x : repr h a -> lists a !! q = Some l -> x ∈ q :: l -> x <> 0.
Proof. intros Hr Hq Hx. eapply not_null; [exact Hr|]. eapply ring_mem; [by eapply re_ring|done]. Qed.
Lemma spare_kept h h' a n z X : repr h a -> spare a !! n = Some z -> only X h h' -> n ∉ X -> is_Some (h !! n) /\ (z = true -> nxt h' n = Some 0).
Proof.
  intros Hr Hn Ho HX. destruct (re_spare h a Hr n z Hn) as [A B]. split; [done|]. intros Hz. unfold nxt. rewrite (proj1 Ho n HX). by apply B.
Qed.

Lemma repr_insert h h' a q l1 n l2 z X :
  repr h a -> lists a !! q = Some (l1 ++ l2) -> spare a !! n = Some z -> ring h' q (l1 ++ n :: l2) ->
  only X h h' -> (forall x, x ∈ X -> x ∈ n :: q :: l1 ++ l2) -> repr h' (put q (l1 ++ n :: l2) (take_spare n a)).
Proof.
  intros Hr Hq Hn Hring Ho HX. destruct (re_ring h a Hr q _ Hq) as [Hr0 Hd]. pose proof (re_apart h a Hr n z q _ Hn Hq) as Hap.
  assert (Hp : q :: l1 ++ n :: l2 ≡ₚ n :: q :: l1 ++ l2) by (rewrite <- Permutation_middle; apply Permutation_swap).
  assert (Hwhere : forall x, x ∈ n :: q :: l1 ++ l2 -> not_elsewhere a q x).
  { intros x [->|Hx]%elem_of_cons; [by eapply spare_only|by eapply in_list_only]. }
  apply (repr_set h h' a q _ _ X); [done|done|rewrite Hp; by apply NoDup_cons|done|by auto|intros x; rewrite Hp; auto|].
  cbn. intros m y [Hm Hy]%lookup_delete_Some.
  assert (Hout : m ∉ n :: q :: l1 ++ l2). { intros [->|Hx]%elem_of_cons; [done|]. by apply (re_apart h a Hr m y q _ Hy Hq). }
  destruct (spare_kept h h' a m y X Hr Hy Ho) as [A B]; [by auto|].
  split_and!; [done..|by rewrite Hp|by eapply spare_only].
Qed.

Lemma repr_remove h h' a q l1 n l2 z X :
  repr h a -> lists a !! q = Some (l1 ++ n :: l2) -> ring h' q (l1 ++ l2) ->
  only X h h' -> (forall x, x ∈ X -> x ∈ q :: l1 ++ n :: l2) -> (z = true -> nxt h' n = Some 0) ->
  repr h' (put q (l1 ++ l2) (give_spare n z a)).
Proof.
  intros Hr Hq Hring Ho HX Hz. destruct (re_ring h a Hr q _ Hq) as [Hr0 Hd].
  assert (Hp : q :: l1 ++ n :: l2 ≡ₚ n :: q :: l1 ++ l2) by (rewrite <- Permutation_middle; apply Permutation_swap).
  assert (Hwhere : forall x, x ∈ q :: l1 ++ n :: l2 -> not_elsewhere a q x) by (intros x Hx; by eapply in_list_only).
  rewrite Hp in Hd. apply NoDup_cons in Hd as [Hn Hd].
  apply (repr_set h h' a q _ _ X); [done|done|done|done|by auto|intros x Hx; apply Hwhere; rewrite Hp; by right|].
  cbn. intros m y [[<- ->]|[Hm Hy]]%lookup_insert_Some.
  - split_and!; [|done|done|apply Hwhere; rewrite Hp; by left]. eapply ring_mem; [exact Hr0|]. rewrite Hp. by left.
  - assert (Hout : m ∉ q :: l1 ++ n :: l2) by by apply (re_apart h a Hr m y q _ Hy Hq).
    destruct (spare_kept h h' a m y X Hr Hy Ho) as [A B]; [by auto|].
    split_and!; [done..| |by eapply spare_only]. intros Hx. apply Hout. rewrite Hp. by right.
Qed.

(** A change of nodes that are in no list. *)
Lemma repr_spare h h' a sp' X :
  repr h a -> only X h h' -> (forall x, x ∈ X -> is_Some (spare a !! x)) ->
  (forall n z, sp' !! n = Some z -> is_Some (spare a !! n) /\ (z = true -> nxt h' n = Some 0)) -> repr h' (Abs (lists a) sp').
Proof.
  intros [Hr Hdis Hs Hap H0] Ho HX Hsp. split; cbn; [|exact Hdis| | |].
  - intros q l E. split; [|by apply Hr]. apply (ring_frame h); [|by apply Hr]. intros x Hx. apply (proj1 Ho). intros HxX.
    destruct (HX x HxX) as [z Hz]. by apply (Hap x z q l).
  - intros n z E. destruct (Hsp n z E) as [[y Hy] B]. split; [|done]. apply (proj2 Ho). by eapply Hs.
  - intros n z q l E. destruct (Hsp n z E) as [[y Hy] _]. by apply (Hap n y).
  - destruct (h' !! 0) eqn:E; [|done]. assert (Hc : is_Some (h !! 0)) by (apply (proj2 Ho); by eexists). rewrite H0 in Hc. by destruct Hc.
Qed.

(** ** Refinement *)
Lemma runs_void (m : P unit) h (Q : Z -> heap -> Prop) : runs m h (fun _ h' => Q 0 h') -> runs (void m) h Q.
Proof. intros H. apply runs_bind. eapply runs_mono; [exact H|]. intros [] h' Hq. by apply runs_ret. Qed.
Lemma first_or_null_eq q l : q ∉ l -> or_null q (first_of q l) = first_or_null l.
Proof.
  unfold or_null, first_or_null. destruct l as [|y l]; cbn; [by rewrite Z.eqb_refl|].
  intros Hq. destruct (Z.eqb_spec y q) as [->|]; [|done]. exfalso. apply Hq. by left.
Qed.
Lemma end_of_last q l : end_of q l = default q (last l).
Proof. revert q. induction l as [|y l IH]; intros q; [done|]. cbn [end_of]. rewrite IH. destruct l as [|x l]; [done|].
  change (last (y :: x :: l)) with (last (x :: l)). destruct (last (x :: l)) eqn:E; [done|]. by apply last_None in E.
Qed.
Lemma last_or_null_eq q l : q ∉ l -> or_null q (end_of q l) = last_or_null l.
Proof.
  intros Hq. unfold or_null, last_or_null. rewrite end_of_last. destruct (last l) as [y|] eqn:E; cbn; [|by rewrite Z.eqb_refl].
  destruct (Z.eqb_spec y q) as [->|]; [|done]. exfalso. apply Hq. apply last_Some in E as [l' ->]. set_solver.
Qed.
Lemma end_of_null q l : end_of q l = q -> q ∉ l -> l = [].
Proof. destruct l as [|y l]; [done|]. cbn. intros E Hq. exfalso. apply Hq. rewrite <- E. apply (end_of_in y l). Qed.

Section refines.
Variables (h : heap) (a : abs) (Hr : repr h a).

Lemma insert_ok q l1 n l2 z h' :
  lists a !! q = Some (l1 ++ l2) -> spare a !! n = Some z -> ring h' q (l1 ++ n :: l2) -> only [n; end_of q l1; first_of q l2] h h' ->
  repr h' (put q (l1 ++ n :: l2) (take_spare n a)).
Proof.
  intros Hq Hn Hring Ho. eapply repr_insert; [exact Hr|exact Hq|exact Hn|exact Hring|exact Ho|].
  pose proof (end_of_in q l1). pose proof (first_of_in q l2). set_solver.
Qed.
Lemma inserting q l1 l2 n z (m : P unit) :
  (ring h q (l1 ++ l2) -> n ∉ q :: l1 ++ l2 -> NoDup (q :: l1 ++ l2) -> is_Some (h !! n) ->
    runs m h (fun _ h' => ring h' q (l1 ++ n :: l2) /\ only [n; end_of q l1; first_of q l2] h h')) ->
  lists a !! q = Some (l1 ++ l2) -> spare a !! n = Some z ->
  runs (void m) h (fun r h' => r = 0 /\ repr h' (put q (l1 ++ n :: l2) (take_spare n a))).
Proof.
  intros Hm Hq Hn. destruct (re_ring h a Hr q _ Hq) as [Hring Hd]. apply runs_void. eapply runs_mono.
  - apply Hm; [done|by eapply re_apart|done|by eapply re_spare].
  - intros [] h' [H1 H2]. split; [done|]. by eapply insert_ok.
Qed.

Lemma remove_ok q l1 n l2 z h' X :
  lists a !! q = Some (l1 ++ n :: l2) -> ring h' q (l1 ++ l2) -> only X h h' -> (forall x, x ∈ X -> x ∈ q :: l1 ++ n :: l2) ->
  (z = true -> nxt h' n = Some 0) -> repr h' (put q (l1 ++ l2) (give_spare n z a)).
Proof. intros. by eapply repr_remove. Qed.

(** Zeroing a node that has left its list. *)
Lemma zero_ok q l1 n l2 h1 h' X :
  lists a !! q = Some (l1 ++ n :: l2) -> ring h1 q (l1 ++ l2) -> only X h h1 -> (forall x, x ∈ X -> x ∈ q :: l1 ++ n :: l2) ->
  nxt h' n = Some 0 -> only [n] h1 h' -> repr h' (put q (l1 ++ l2) (give_spare n true a)).
Proof.
  intros Hq Hring Ho HX Hz Ho'. destruct (re_ring h a Hr q _ Hq) as [_ Hd].
  assert (Hp : q :: l1 ++ n :: l2 ≡ₚ n :: q :: l1 ++ l2) by (rewrite <- Permutation_middle; apply Permutation_swap).
  rewrite Hp in Hd. apply NoDup_cons in Hd as [Hn Hd].
  eapply (remove_ok q l1 n l2 true h' (X ++ [n])); [done| |by eapply only_trans| |done].
  - apply (ring_frame h1); [|done]. intros x Hx. apply (proj1 Ho'). intros ->%list_elem_of_singleton. done.
  - intros x [Hx| ->%list_elem_of_singleton]%elem_of_app; [by apply HX|]. rewrite Hp. by left.
Qed.
End refines.

(** Removal, with and without zeroing. *)
Lemma pop_runs h a q n l : repr h a -> lists a !! q = Some (n :: l) ->
  runs (QList_Pop q) h (fun r h' => r = n /\ ring h' q l /\ only (q :: l) h h').
Proof.
  intros Hr Hq. destruct (re_ring h a Hr q _ Hq) as [Hring Hd].
  apply (pop_spec h q (n :: l)); [done..|]. eapply node_not_null; [exact Hr|exact Hq|by left].
Qed.
Lemma pop_last_runs h a q n l : repr h a -> lists a !! q = Some (l ++ [n]) ->
  runs (QList_PopLast q) h (fun r h' => r = n /\ ring h' q l /\ only (q :: l) h h').
Proof.
  intros Hr Hq. destruct (re_ring h a Hr q _ Hq) as [Hring Hd].
  eapply runs_mono; [apply (pop_last_spec h q (l ++ [n])); [done..|]; eapply node_not_null; [exact Hr|exact Hq|by left]|].
  intros r h' [[Hl _]|(l1 & Hl & H1 & H2)]; [by destruct l|]. apply app_inj_2 in Hl as [<- [= <-]]; done.
Qed.
Lemma dequeue_runs h a q l1 n l2 : repr h a -> lists a !! q = Some (l1 ++ n :: l2) ->
  runs (QNode_Dequeue n) h (fun _ h' => ring h' q (l1 ++ l2) /\ only [end_of q l1; first_of q l2] h h').
Proof. intros Hr Hq. destruct (re_ring h a Hr q _ Hq) as [Hring Hd]. by apply dequeue_spec. Qed.
Lemma ends_in (q : Z) l1 n l2 x : x ∈ [end_of q l1; first_of q l2] -> x ∈ q :: l1 ++ n :: l2.
Proof. pose proof (end_of_in q l1). pose proof (first_of_in q l2). set_solver. Qed.

Lemma empty_pop h a q : repr h a -> lists a !! q = Some [] -> runs (QList_Pop q) h (fun r h' => r = 0 /\ repr h' a).
Proof.
  intros Hr Hq. destruct (re_ring h a Hr q _ Hq) as [Hring Hd].
  eapply runs_mono; [apply (pop_spec h q []); [done..|]; eapply node_not_null; [exact Hr|exact Hq|by left]|].
  intros r h' (-> & H1 & H2). split; [done|].
  assert (Ha : a = put q [] a) by (unfold put; rewrite insert_id by done; by destruct a).
  rewrite Ha. apply (repr_set h h' a q [] (spare a) [q]); [done..| | |].
  - intros x ->%list_elem_of_singleton. eapply in_list_only; [exact Hr|exact Hq|by left].
  - intros x ->%list_elem_of_singleton. eapply in_list_only; [exact Hr|exact Hq|by left].
  - intros n z Hn. assert (Hx : n ∉ [q]) by by apply (re_apart h a Hr n z q []).
    destruct (spare_kept h h' a n z [q]) as [A B]; [done..|]. split_and!; [done..|by eapply spare_only].
Qed.
Lemma empty_pop_last h a q : repr h a -> lists a !! q = Some [] -> runs (QList_PopLast q) h (fun r h' => r = 0 /\ repr h' a).
Proof.
  intros Hr Hq. destruct (re_ring h a Hr q _ Hq) as [[_ [E2 E3]] Hd]. cbn in E2, E3.
  destruct (empty_pop h a q Hr Hq) as (r & h' & E & Hx). exists r, h'. split; [|done]. rewrite <- E.
  unfold QList_Pop, QList_PopLast, mbind, P_bind, next, prev, nxt, prv in *. destruct (h !! q) as [n|] eqn:Hn; [|done].
  cbn in *. injection E2 as E2. injection E3 as E3. rewrite E2, E3. cbn. rewrite Hn. cbn. rewrite E2, E3.
  unfold put_next, put_prev, upd. rewrite Hn. cbn. rewrite !lookup_insert_eq. cbn. by rewrite !insert_insert_eq.
Qed.

Lemma zeroed_pop h a q n l l1 l2 (pop : P Z) : repr h a -> lists a !! q = Some l -> l = l1 ++ n :: l2 ->
  runs pop h (fun r h' => r = n /\ ring h' q (l1 ++ l2) /\ only (q :: l1 ++ l2) h h') ->
  runs (pn ← pop; _ ← (if negb (pn =? 0) then QNode_CtorZ pn else mret tt); mret pn) h
    (fun r h' => r = n /\ repr h' (put q (l1 ++ l2) (give_spare n true a))).
Proof.
  intros Hr Hq -> Hp. apply runs_bind. eapply runs_mono; [exact Hp|]. intros r h1 (-> & H1 & H2).
  assert (Hin : n ∈ q :: l1 ++ n :: l2) by set_solver.
  rewrite (proj2 (Z.eqb_neq n 0)) by by eapply node_not_null. cbn [negb]. apply runs_bind.
  eapply runs_mono; [apply ctorZ_spec, (proj2 H2); eapply ring_mem; [by eapply re_ring|done]|].
  intros [] h2 (Z1 & _ & Z2). apply runs_ret. split; [done|].
  eapply (zero_ok h a); [done|done|exact H1|exact H2| |done|done]. set_solver.
Qed.

(** Without one of the lists, whose nodes then are nowhere. *)
Lemma repr_drop h a s : repr h a -> repr h (Abs (delete s (lists a)) (spare a)).
Proof.
  intros [Hr Hdis Hs Hap H0]. split; cbn; [| |done| |done].
  - intros q l [_ E]%lookup_delete_Some. by apply Hr.
  - intros q1 q2 l1 l2 x [_ E1]%lookup_delete_Some [_ E2]%lookup_delete_Some. by apply (Hdis q1 q2 l1 l2 x).
  - intros n z q l E [_ E1]%lookup_delete_Some. by apply (Hap n z q l).
Qed.

(** The nodes of [s] go to [d], and [s] is empty. *)
Lemma move_ok h a h' d s l m sp :
  repr h a -> lists a !! s = Some m -> ring h' d l -> NoDup (d :: l) -> ring h' s [] -> s ∉ d :: l ->
  (forall x, x ∈ d :: l ++ s :: m -> not_elsewhere (Abs (delete s (lists a)) (spare a)) d x) -> only (d :: l ++ s :: m) h h' ->
  (forall n z, sp !! n = Some z -> spare a !! n = Some z /\ (n ∉ d :: l)) ->
  repr h' (put s [] (put d l (Abs (lists a) sp))).
Proof.
  intros Hr Hs Hd Hnd Hs' Hsd HX Ho Hsp. pose proof (repr_drop h a s Hr) as Hr0.
  assert (H1 : repr h' (Abs (<[d:=l]> (delete s (lists a))) sp)).
  { pose proof (repr_set h h' (Abs (delete s (lists a)) (spare a)) d l sp (d :: l ++ s :: m)) as G. cbn [lists] in G. apply G; clear G; [done..| | |].
    - exact HX.
    - intros x Hx. apply HX. set_solver.
    - intros n z Hn. destruct (Hsp n z Hn) as [Hn1 Hn2].
      assert (Hns : n ∉ s :: m) by by apply (re_apart h a Hr n z s m).
      assert (Hno : n ∉ d :: l ++ s :: m) by (change (n ∉ (d :: l) ++ s :: m); rewrite elem_of_app; tauto).
      destruct (spare_kept h h' a n z _ Hr Hn1 Ho Hno) as [A B].
      split_and!; [done..|]. by eapply spare_only. }
  assert (E : put s [] (put d l (Abs (lists a) sp)) = Abs (<[s:=[]]> (<[d:=l]> (delete s (lists a)))) sp).
  { unfold put. cbn. f_equal. apply map_eq. intros x. destruct (decide (x = s)) as [->|]; [by rewrite !lookup_insert_eq|].
    rewrite !(lookup_insert_ne _ s) by done. destruct (decide (x = d)) as [->|]; [by rewrite !lookup_insert_eq|].
    rewrite !(lookup_insert_ne _ d) by done. by rewrite lookup_delete_ne. }
  rewrite E. pose proof (repr_set h' h' (Abs (<[d:=l]> (delete s (lists a))) sp) s [] sp []) as G. cbn [lists] in G. apply G; clear G; [done|done|apply NoDup_singleton|apply only_refl|by intros ? ?%elem_of_nil| |].
  - intros x ->%list_elem_of_singleton q k Hk Hx. cbn in Hk. apply lookup_insert_Some in Hk as [[<- <-]|[_ Hk]]; [done|].
    apply lookup_delete_Some in Hk as [Hq Hk]. symmetry. by apply (re_disjoint h a Hr s q m k s); [..|left|].
  - intros n z Hn. destruct (Hsp n z Hn) as [Hn1 Hn2]. destruct (re_spare _ _ H1 n z Hn) as [A B].
    split_and!; [done|done| |].
    + intros ->%list_elem_of_singleton. apply (re_apart h a Hr s z s m); [done..|by left].
    + by apply (spare_only h' (Abs (<[d:=l]> (delete s (lists a))) sp) n z).
Qed.

Lemma does_pops h a o r a' : repr h a -> does a o r a' ->
  match o with Pop _ | PopZ _ | PopLast _ | PopLastZ _ => True | _ => False end ->
  runs (run_op o) h (fun r' h' => r' = r /\ repr h' a').
Proof.
  intros Hr Hd Ho. destruct Hd; try done; cbn [run_op]; clear Ho.
  - by apply empty_pop.
  - eapply runs_mono; [by eapply pop_runs|]. intros r h' (-> & H1 & H2). split; [done|].
    eapply (remove_ok h a Hr q [] n l false h'); [done..| |done]. set_solver.
  - unfold QList_PopZ. apply runs_bind. eapply runs_mono; [by apply empty_pop|]. intros r h' [-> H']. apply runs_bind, runs_ret, runs_ret. done.
  - eapply (zeroed_pop h a q n (n :: l) [] l); [done..|]. by eapply pop_runs.
  - by apply empty_pop_last.
  - eapply runs_mono; [by eapply pop_last_runs|]. intros r h' (-> & H1 & H2). split; [done|].
    rewrite <- (app_nil_r l). eapply (remove_ok h a Hr q l n [] false h'); [done|by rewrite app_nil_r|done| |done]. set_solver.
  - unfold QList_PopLastZ. apply runs_bind. eapply runs_mono; [by apply empty_pop_last|]. intros r h' [-> H']. apply runs_bind, runs_ret, runs_ret. done.
  - rewrite <- (app_nil_r l). eapply (zeroed_pop h a q n (l ++ [n]) l []); [done..|]. rewrite app_nil_r. by eapply pop_last_runs.
Qed.

Lemma does_moves h a o r a' : repr h a -> does a o r a' ->
  match o with AppendList _ _ | CtorFrom _ _ => True | _ => False end ->
  runs (run_op o) h (fun r' h' => r' = r /\ repr h' a').
Proof.
  intros Hr Hd Ho. destruct Hd as [| | | | | | | | | | | | | | | | | | | | | | |d s l m Hds Hl Hm|d s m z Hz Hm]; try done; cbn [run_op]; clear Ho.
  - destruct (re_ring h a Hr d l Hl) as [R1 N1]. destruct (re_ring h a Hr s m Hm) as [R2 N2].
    assert (Hne : forall x, x ∈ d :: l -> x ∉ s :: m) by (intros x Hx Hx'; apply Hds; by apply (re_disjoint h a Hr d s l m x)).
    assert (Hnd : NoDup ((d :: l) ++ s :: m)) by (apply NoDup_app; by split_and!).
    apply runs_void. eapply runs_mono; [by apply append_list_spec|]. intros [] h' (H1 & H2 & H3). split; [done|].
    eapply (move_ok h a h' d s (l ++ m) m (spare a)); [done..| |done| | | |].
    + apply NoDup_app in Hnd as (A & B & [C D]%NoDup_cons). change (NoDup ((d :: l) ++ m)). apply NoDup_app. split_and!; [done| |done]. set_solver.
    + intros Hx. change (s ∈ (d :: l) ++ m) in Hx. apply elem_of_app in Hx as [Hx|Hx]; [by apply (Hne s); [|left]|by apply NoDup_cons in N2 as [? _]].
    + intros x Hx q k Hk Hxk. cbn [lists] in Hk. apply lookup_delete_Some in Hk as [Hqs Hk]. destruct (decide (x ∈ s :: m)) as [Hxm|Hxm].
      * exfalso. apply Hqs. by apply (re_disjoint h a Hr s q m k x).
      * apply (re_disjoint h a Hr q d k l x); [done..|]. set_solver.
    + eapply only_weaken; [exact H3|]. set_solver.
    + intros n y Hn. split; [done|]. change (n ∉ (d :: l) ++ m). pose proof (re_apart h a Hr n y d l Hn Hl). pose proof (re_apart h a Hr n y s m Hn Hm). set_solver.
  - destruct (re_ring h a Hr s m Hm) as [R2 N2]. pose proof (re_apart h a Hr d z s m Hz Hm) as Hap.
    apply runs_void. eapply runs_mono; [apply ctor_from_spec; [done|by apply NoDup_cons|by eapply re_spare]|].
    intros [] h' (H1 & H2 & H3). split; [done|].
    apply NoDup_cons in N2 as [Hsm Nm].
    eapply (move_ok h a h' d s m m (delete d (spare a))); [done..| |done| | | |].
    + apply NoDup_cons. split; [|done]. intros Hx. apply Hap. by right.
    + intros [->|Hx]%elem_of_cons; [apply Hap; by left|done].
    + intros x Hx q k Hk Hxk. cbn [lists] in Hk. apply lookup_delete_Some in Hk as [Hqs Hk]. destruct (decide (x = d)) as [->|Hxd]; [exfalso; by apply (re_apart h a Hr d z q k)|].
      exfalso. apply Hqs. apply (re_disjoint h a Hr s q m k x); [done..| |done]. set_solver.
    + eapply only_weaken; [exact H3|]. set_solver.
    + intros n y [Hnd Hn]%lookup_delete_Some. split; [done|]. pose proof (re_apart h a Hr n y s m Hn Hm). set_solver.
Qed.

Definition queries (o : op) : bool := match o with IsQueuedZ _ | IsEmpty _ | IsNull _ | GetFirst _ | GetLast _ => true | _ => false end.

Lemma does_queries h a o r a' : repr h a -> does a o r a' -> queries o = true -> runs (run_op o) h (fun r' h' => r' = r /\ repr h' a').
Proof.
  intros Hr Hd Ho.
  destruct Hd as [q z Hz|n z Hz|q l1 l2 n z Hq Hz|q l1 l2 n z Hq Hz|q l n z Hq Hz|q l n z Hq Hz|q l1 n l2 Hq|q l1 n l2 Hq|n Hz|q l n Hq Hn|n Hz|q l Hq|q l Hq|q l Hq|q l Hq| | | | | | | | | | ];
    try done; clear Ho; cbn [run_op].
  - unfold flag, QNode_IsQueuedZ. destruct (re_ring h a Hr q _ Hq) as [Hring _]. apply list_elem_of_split in Hn as (l1 & l2 & ->).
    destruct (ring_mid h q l1 n l2 Hring) as [E1 _]. apply runs_bind, runs_bind. eapply runs_next; [exact E1|]. apply runs_ret, runs_ret.
    rewrite (proj2 (Z.eqb_neq (first_of q l2) 0)); [done|].
    eapply node_not_null; [exact Hr|exact Hq|]. pose proof (first_of_in q l2). set_solver.
  - unfold flag, QNode_IsQueuedZ. apply runs_bind, runs_bind. eapply runs_next; [by apply (re_spare h a Hr n true Hz)|]. apply runs_ret, runs_ret. done.
  - unfold flag, QList_IsEmpty. destruct (re_ring h a Hr q _ Hq) as [Hring Hd]. apply runs_bind, runs_bind.
    eapply runs_next; [by eapply ring_first|]. apply runs_ret, runs_ret. split; [|done]. destruct l as [|y l]; cbn; [by rewrite Z.eqb_refl|].
    destruct (Z.eqb_spec y q) as [->|]; [|done]. apply NoDup_cons in Hd as [Hd _]. exfalso. apply Hd. by left.
  - unfold flag, QList_IsNull. destruct (re_ring h a Hr q _ Hq) as [Hring Hd]. apply runs_bind, runs_bind.
    eapply runs_next; [by eapply ring_first|]. apply runs_bind. eapply runs_prev; [by eapply ring_last|]. apply runs_ret, runs_ret.
    rewrite (proj2 (Z.eqb_neq (first_of q l) 0)); [done|]. eapply node_not_null; [exact Hr|exact Hq|apply first_of_in].
  - destruct (re_ring h a Hr q _ Hq) as [Hring [Hd _]%NoDup_cons]. apply runs_bind. eapply runs_next; [by eapply ring_first|]. apply runs_ret.
    split; [by apply first_or_null_eq|done].
  - destruct (re_ring h a Hr q _ Hq) as [Hring [Hd _]%NoDup_cons]. apply runs_bind. eapply runs_prev; [by eapply ring_last|]. apply runs_ret.
    split; [by apply last_or_null_eq|done].
Qed.

Lemma does_runs h a o r a' : repr h a -> does a o r a' -> runs (run_op o) h (fun r' h' => r' = r /\ repr h' a').
Proof.
  intros Hr Hd.
  assert (Hcase : match o with Pop _ | PopZ _ | PopLast _ | PopLastZ _ => True | _ => False end \/
                  match o with AppendList _ _ | CtorFrom _ _ => True | _ => False end \/
                  queries o = true \/
                  match o with Pop _ | PopZ _ | PopLast _ | PopLastZ _ | AppendList _ _ | CtorFrom _ _ | IsQueuedZ _ | IsEmpty _ | IsNull _ | GetFirst _ | GetLast _ => False | _ => True end) by (destruct o; auto).
  destruct Hcase as [Ho|[Ho|[Ho|Ho]]]; [by apply (does_pops h a)|by apply (does_moves h a)|by apply (does_queries h a)|].
  destruct Hd as [q z Hz|n z Hz|q l1 l2 n z Hq Hz|q l1 l2 n z Hq Hz|q l n z Hq Hz|q l n z Hq Hz|q l1 n l2 Hq|q l1 n l2 Hq|n Hz|q l n Hq Hn|n Hz|q l Hq|q l Hq|q l Hq|q l Hq| | | | | | | | | | ];
    try done; clear Ho; cbn [run_op].
  - apply runs_void. eapply runs_mono; [apply zero_spec; by eapply re_spare|]. intros [] h' [H1 H2]. split; [done|].
    apply (repr_set h h' a q [] (delete q (spare a)) [q]); [done|done|apply NoDup_singleton|done| | |].
    + intros x ->%list_elem_of_singleton. by eapply spare_only.
    + intros x ->%list_elem_of_singleton. by eapply spare_only.
    + intros n y [Hn Hy]%lookup_delete_Some. assert (Hx : n ∉ [q]) by (intros ->%list_elem_of_singleton; done).
      destruct (spare_kept h h' a n y [q]) as [A B]; [done..|]. split_and!; [done..|by eapply spare_only].
  - apply runs_void. eapply runs_mono; [apply ctorZ_spec; by eapply re_spare|]. intros [] h' (Z1 & _ & Z2). split; [done|].
    apply (repr_spare h h' a _ [n]); [done|done|intros x ->%list_elem_of_singleton; by eexists|].
    intros m y [[<- <-]|[Hn Hy]]%lookup_insert_Some; [by split; [eexists|]|]. split; [by eexists|].
    eapply spare_kept; [exact Hr|exact Hy|exact Z2|]. intros ->%list_elem_of_singleton. done.
  - eapply inserting; [done| |done..]. intros. by apply ins_prev_spec.
  - eapply inserting; [done| |done..]. intros. by apply ins_next_spec.
  - eapply (inserting h a Hr q l [] n z); [|by rewrite app_nil_r|done]. intros. by apply (ins_prev_spec h q l [] n).
  - eapply (inserting h a Hr q [] l n z); [|done..]. intros. by apply (ins_next_spec h q [] l n).
  - apply runs_void. eapply runs_mono; [by eapply dequeue_runs|]. intros [] h' [H1 H2]. split; [done|].
    eapply (remove_ok h a Hr q l1 n l2 false h'); [done..|apply ends_in|done].
  - apply runs_void. unfold QNode_DequeueZ, QNode_IsQueuedZ. destruct (re_ring h a Hr q _ Hq) as [Hring _].
    destruct (ring_mid h q l1 n l2 Hring) as [E1 _].
    apply runs_bind, runs_bind. eapply runs_next; [exact E1|]. apply runs_ret.
    rewrite (proj2 (Z.eqb_neq (first_of q l2) 0)).
    2:{ eapply node_not_null; [exact Hr|exact Hq|]. pose proof (first_of_in q l2). set_solver. }
    cbn [negb]. apply runs_bind. eapply runs_mono; [by eapply dequeue_runs|]. intros [] h1 [H1 H2].
    eapply runs_mono; [apply (ctorZ_spec h1 n), (proj2 H2); by eapply nxt_alloc|]. intros [] h' (Z1 & _ & Z2). split; [done|].
    eapply (zero_ok h a Hr q l1 n l2 h1 h'); [done..|apply ends_in|done|done].
  - apply runs_void. unfold QNode_DequeueZ, QNode_IsQueuedZ. apply runs_bind, runs_bind.
    eapply runs_next; [by apply (re_spare h a Hr n true Hz)|]. apply runs_ret. cbn. by apply runs_ret.
Qed.

(** Sequences of operations, with their results. *)
Fixpoint run_ops (os : list op) : P (list Z) :=
  match os with
  | [] => mret []
  | o :: os => r ← run_op o; rs ← run_ops os; mret (r :: rs)
  end.
Inductive does_all : abs -> list op -> list Z -> abs -> Prop :=
  | does_none a : does_all a [] [] a
  | does_next a o r b os rs c : does a o r b -> does_all b os rs c -> does_all a (o :: os) (r :: rs) c.

(** C32: The intrusive lists implement sequences: from any memory that represents a family of
    disjoint lists and spare nodes, every sequence of operations that queues only spare nodes
    and dequeues only queued ones runs without touching memory that is not a node, gives the
    results of the operations on sequences, and leaves a memory that represents the outcome.
    This includes appending a list to another and taking a list over, also when the source is
    empty. *)
Theorem qlist_refines h a os rs c :
  repr h a -> does_all a os rs c -> exists h', run_ops os h = Some (rs, h') /\ repr h' c.
Proof.
  intros Hr Hd. revert h Hr. induction Hd as [a|a o r b os rs c Ho _ IH]; intros h Hr; [by exists h|].
  destruct (does_runs h a o r b Hr Ho) as (r' & h1 & E & -> & Hr1). destruct (IH h1 Hr1) as (h2 & E2 & Hr2).
  exists h2. split; [|done]. cbn [run_ops]. unfold mbind, P_bind. rewrite E. cbn. by rewrite E2.
Qed.

(** ** Loops over a list *)

(** Giving the memory of a node back. *)
Definition free (p : Z) : P unit := fun h => match h !! p with Some _ => Some (tt, delete p h) | None => None end.

Lemma next_eq h p v : nxt h p = Some v -> next p h = Some (v, h).
Proof. unfold nxt, next. destruct (h !! p); cbn; [by intros [= ->]|done]. Qed.
Lemma prev_eq h p v : prv h p = Some v -> prev p h = Some (v, h).
Proof. unfold prv, prev. destruct (h !! p); cbn; [by intros [= ->]|done]. Qed.

Lemma for_all_spec {S} h q l (f : S -> Z -> S) fuel s : ring h q l -> q ∉ l -> (length l <= fuel)%nat ->
  QLIST_FOR_ALL q (fun n s => mret (f s n)) fuel s h = Some (Some (foldl f s l), h).
Proof.
  intros Hr Hq Hf. unfold QLIST_FOR_ALL, mbind, P_bind. rewrite (next_eq h q (first_of q l)) by by apply ring_first.
  assert (H : forall l2 l1 fuel s, l = l1 ++ l2 -> (length l2 <= fuel)%nat ->
    QLIST_FOR_REST q (fun n s => mret (f s n)) fuel (first_of q l2) s h = Some (Some (foldl f s l2), h)); [|by apply (H l [])].
  induction l2 as [|n l2 IH]; intros l1 fu s0 El Hfu.
  - destruct fu; cbn; by rewrite Z.eqb_refl.
  - destruct fu as [|fu]; cbn in Hfu; [lia|]. cbn [QLIST_FOR_REST first_of]. subst l.
    rewrite (proj2 (Z.eqb_neq n q)) by (intros ->; apply Hq, elem_of_app; right; by left).
    destruct (ring_mid h q l1 n l2 Hr) as [E1 _]. unfold mbind, P_bind, mret, P_ret. rewrite (next_eq h n _ E1).
    apply (IH (l1 ++ [n])); [by rewrite <- app_assoc|lia].
Qed.
Lemma rev_for_all_spec {S} h q l (f : S -> Z -> S) fuel s : ring h q l -> q ∉ l -> (length l <= fuel)%nat ->
  QLIST_REV_FOR_ALL q (fun n s => mret (f s n)) fuel s h = Some (Some (foldl f s (rev l)), h).
Proof.
  intros Hr Hq Hf. unfold QLIST_REV_FOR_ALL, mbind, P_bind. rewrite (prev_eq h q (end_of q l)) by by apply ring_last.
  assert (H : forall l1 l2 fuel s, l = l1 ++ l2 -> (length l1 <= fuel)%nat ->
    QLIST_REV_FOR_REST q (fun n s => mret (f s n)) fuel (end_of q l1) s h = Some (Some (foldl f s (rev l1)), h)).
  { induction l1 as [|n l1 IH] using rev_ind; intros l2 fu s0 El Hfu.
    - destruct fu; cbn; by rewrite Z.eqb_refl.
    - rewrite length_app in Hfu. destruct fu as [|fu]; cbn in Hfu; [lia|]. rewrite end_of_app. cbn [QLIST_REV_FOR_REST end_of].
      subst l. rewrite <- app_assoc in *. cbn [app] in *.
      rewrite (proj2 (Z.eqb_neq n q)) by (intros ->; apply Hq, elem_of_app; right; by left).
      destruct (ring_mid h q l1 n l2 Hr) as [_ E1]. unfold mbind, P_bind, mret, P_ret. rewrite (prev_eq h n _ E1).
      rewrite rev_unit. apply (IH (n :: l2)); [done|lia]. }
  by apply (H l []); [rewrite app_nil_r|].
Qed.

(** The loop that is safe against removal, with an invariant for the nodes that are left. *)
Lemma nextsafe_spec {S} q (body : Z -> S -> P S) (f : S -> Z -> S) (Inv : list Z -> heap -> Prop) :
  (forall l h, Inv l h -> is_Some (nxt h q) /\ (forall n l', l = n :: l' -> n <> q /\ nxt h n = Some (first_of q l'))) ->
  (forall n l s h, Inv (n :: l) h -> runs (body n s) h (fun s' h' => s' = f s n /\ Inv l h')) ->
  forall l fuel s h, Inv l h -> (length l <= fuel)%nat -> nxt h q = Some (first_of q l) ->
  exists h', QLIST_NEXTSAFE_FOR_ALL q body fuel s h = Some (Some (foldl f s l), h') /\ Inv [] h'.
Proof.
  intros HI Hb l fuel s h Hl Hf Hq.
  assert (H : forall l fu s h pnn, Inv l h -> (length l <= fu)%nat -> (forall n l', l = n :: l' -> pnn = first_of q l') ->
    exists h', nextsafe q body fu (first_of q l) pnn s h = Some (Some (foldl f s l), h') /\ Inv [] h').
  { clear -HI Hb. induction l as [|n l IH]; intros fu s h pnn Hl Hf Hp.
    - exists h. split; [|done]. destruct fu; cbn; by rewrite Z.eqb_refl.
    - destruct fu as [|fu]; cbn in Hf; [lia|]. cbn [nextsafe first_of]. destruct (HI _ _ Hl) as [_ Hn]. destruct (Hn n l eq_refl) as [Hnq _].
      rewrite (proj2 (Z.eqb_neq n q)) by done. rewrite (Hp n l eq_refl).
      destruct (Hb n l s h Hl) as (s' & h1 & E & -> & Hl1). unfold mbind, P_bind. rewrite E.
      destruct (HI _ _ Hl1) as [[v Hv] Hn1].
      destruct l as [|m l].
      + cbn [first_of]. rewrite (next_eq h1 _ v Hv). apply (IH fu _ h1 v); [done|lia|done].
      + destruct (Hn1 m l eq_refl) as [_ Em]. cbn [first_of]. rewrite (next_eq h1 m _ Em). apply (IH fu _ h1); [done|cbn in *; lia|].
        by intros ? ? [= <- <-]. }
  unfold QLIST_NEXTSAFE_FOR_ALL, mbind, P_bind. rewrite (next_eq h q _ Hq).
  destruct (HI _ _ Hl) as [[v Hv] Hn]. destruct l as [|n l]; cbn [first_of].
  - rewrite (next_eq h q v Hv). by apply (H [] fuel s h v).
  - destruct (Hn n l eq_refl) as [_ En]. rewrite (next_eq h n _ En). apply (H (n :: l) fuel s h); [done..|]. by intros ? ? [= <- <-].
Qed.

Lemma nextsafe_dequeue_free {S} (f : S -> Z -> S) h q l fuel s : ring h q l -> q ∉ l -> NoDup l -> (length l <= fuel)%nat ->
  exists h', QLIST_NEXTSAFE_FOR_ALL q (fun n s => _ ← QNode_Dequeue n; _ ← free n; mret (f s n)) fuel s h = Some (Some (foldl f s l), h') /\
     ring h' q [] /\ forall n, n ∈ l -> h' !! n = None.
Proof.
  intros Hr Hq Hd Hf. pose proof (ring_first h q l Hr) as Hfirst.
  set (gone := fun (k : list Z) (h' : heap) => forall n, n ∈ l -> n ∉ k -> h' !! n = None).
  destruct (nextsafe_spec q (fun n s => _ ← QNode_Dequeue n; _ ← free n; mret (f s n)) f
    (fun k h' => ring h' q k /\ NoDup (q :: k) /\ gone k h' /\ forall n, n ∈ k -> n ∈ l)) with (l := l) (fuel := fuel) (s := s) (h := h)
    as (h' & E & H1 & _ & H3 & _); [| |split_and!; [done|by apply NoDup_cons|by intros n ? ?|done]|done|done|].
  - intros k h1 (A & B & _). split; [rewrite (ring_first h1 q k A); by eexists|]. intros n k' ->. split.
    + intros ->. apply NoDup_cons in B as [B _]. apply B. by left.
    + by apply (ring_mid h1 q [] n k').
  - intros n k s1 h1 (A & B & G & I). apply runs_bind. eapply runs_mono; [by apply (dequeue_spec h1 q [] n k)|].
    intros [] h2 [A2 O2]. apply NoDup_cons in B as [Bq [Bn Bk]%NoDup_cons].
    assert (Hn2 : is_Some (h2 !! n)) by (apply (proj2 O2); eapply ring_mem; [exact A|right; by left]).
    apply runs_bind. unfold free, runs. destruct Hn2 as [x Hx]. rewrite Hx. eexists _, _; split; [reflexivity|]. cbv beta.
    eexists _, _; split; [reflexivity|]. cbv beta. split; [done|]. split_and!.
    + apply (ring_frame h2); [|done]. intros a Ha. rewrite lookup_delete_ne; [done|]. intros ->. apply elem_of_cons in Ha as [->|Ha]; [apply Bq; by left|done].
    + apply NoDup_cons. split; [|done]. intros Hk. apply Bq. by right.
    + intros m Hm Hmk. destruct (decide (m = n)) as [->|Hmn]; [by rewrite lookup_delete_eq|]. rewrite lookup_delete_ne by done.
      rewrite (proj1 O2 m); [apply G; [done|]; intros [->|?]%elem_of_cons; done|].
      cbn [end_of]. intros [->|[->|?%elem_of_nil]%elem_of_cons]%elem_of_cons; [done| |done].
      pose proof (first_of_in q k) as [E|E]%elem_of_cons; [rewrite E in Hm; done|done].
    + intros m Hm. apply I. by right.
  - exists h'. split; [done|]. split; [done|]. intros n Hn. apply H3; [done|apply not_elem_of_nil].
Qed.
Lemma nextsafe_free {S} (f : S -> Z -> S) h q l fuel s : ring h q l -> q ∉ l -> NoDup l -> (length l <= fuel)%nat ->
  exists h', QLIST_NEXTSAFE_FOR_ALL q (fun n s => _ ← free n; mret (f s n)) fuel s h = Some (Some (foldl f s l), h') /\
     h' !! q = h !! q /\ forall n, n ∈ l -> h' !! n = None.
Proof.
  intros Hr Hq Hd Hf. pose proof (ring_first h q l Hr) as Hfirst.
  destruct (nextsafe_spec q (fun n s => _ ← free n; mret (f s n)) f
    (fun k h' => (exists l1, l = l1 ++ k) /\ (forall a, a ∈ q :: k -> h' !! a = h !! a) /\ forall n, n ∈ l -> n ∉ k -> h' !! n = None))
    with (l := l) (fuel := fuel) (s := s) (h := h) as (h' & E & _ & H2 & H3); [| |split_and!; [by exists []|done|by intros n ? ?]|done|done|].
  - intros k h1 ((l1 & ->) & Hk & _). split; [unfold nxt in *; rewrite Hk by (by left); rewrite Hfirst; by eexists|]. intros n k' ->. split.
    + intros ->. apply Hq. apply elem_of_app. right. by left.
    + unfold nxt. rewrite Hk by (right; by left). by apply (ring_mid h q l1 n k').
  - intros n k s1 h1 ((l1 & ->) & Hk & Hg). pose proof (proj1 (NoDup_app l1 (n :: k)) Hd) as (_ & _ & [Hnk _]%NoDup_cons).
    assert (Hn : is_Some (h1 !! n)).
    { rewrite Hk by (right; by left). eapply ring_mem; [exact Hr|]. right. apply elem_of_app. right. by left. }
    apply runs_bind. unfold free, runs. destruct Hn as [x Hx]. rewrite Hx. eexists _, _; split; [reflexivity|]. cbv beta.
    eexists _, _; split; [reflexivity|]. cbv beta. split; [done|]. split_and!.
    + exists (l1 ++ [n]). by rewrite <- app_assoc.
    + intros a Ha. rewrite lookup_delete_ne; [apply Hk; set_solver|]. intros ->. apply elem_of_cons in Ha as [->|Ha]; [|done].
      apply Hq. apply elem_of_app. right. by left.
    + intros m Hm Hmk. destruct (decide (m = n)) as [->|Hmn]; [by rewrite lookup_delete_eq|]. rewrite lookup_delete_ne by done.
      apply Hg; [done|]. intros [->|?]%elem_of_cons; done.
  - exists h'. split; [done|]. split; [apply H2; by left|]. intros n Hn. apply H3; [done|apply not_elem_of_nil].
Qed.

(** Walking over a list. [QLIST_FOR_ALL] visits the nodes in order, [QLIST_REV_FOR_ALL] in
    reverse, and both end after as many turns as there are nodes. A loop that may remove nodes,
    [QLIST_NEXTSAFE_FOR_ALL], visits all of them when the body dequeues and frees its node, and
    leaves an empty list. When the body frees its node without dequeuing it, the loop still
    visits all, but the list that is left leads to freed memory: the next walk over it faults,
    and so does a [QLIST_FOR_ALL] that frees its node. *)
Theorem qlist_loops {S : Type} (f : S -> Z -> S) h q l fuel s :
  ring h q l -> NoDup (q :: l) -> (length l <= fuel)%nat ->
  QLIST_FOR_ALL q (fun n s => mret (f s n)) fuel s h = Some (Some (foldl f s l), h) /\
  QLIST_REV_FOR_ALL q (fun n s => mret (f s n)) fuel s h = Some (Some (foldl f s (rev l)), h) /\
  (exists h', QLIST_NEXTSAFE_FOR_ALL q (fun n s => _ ← QNode_Dequeue n; _ ← free n; mret (f s n)) fuel s h = Some (Some (foldl f s l), h') /\
     ring h' q [] /\ forall n, n ∈ l -> h' !! n = None) /\
  (l <> [] -> exists h', QLIST_NEXTSAFE_FOR_ALL q (fun n s => _ ← free n; mret (f s n)) fuel s h = Some (Some (foldl f s l), h') /\
     QLIST_FOR_ALL q (fun n s => mret (f s n)) fuel s h' = None) /\
  (l <> [] -> QLIST_FOR_ALL q (fun n s => _ ← free n; mret (f s n)) fuel s h = None).
Proof.
  intros Hr Hd Hf. apply NoDup_cons in Hd as [Hq Hd]. pose proof (ring_first h q l Hr) as Hfirst. split_and!.
  - by apply for_all_spec.
  - by apply rev_for_all_spec.
  - by apply nextsafe_dequeue_free.
  - intros Hl. destruct (nextsafe_free f h q l fuel s Hr Hq Hd Hf) as (h' & E & H1 & H2). exists h'. split; [done|].
    destruct l as [|n l]; [done|]. cbn [first_of] in Hfirst. unfold QLIST_FOR_ALL, mbind, P_bind.
    rewrite (next_eq h' q n) by (unfold nxt in *; by rewrite H1). destruct fuel as [|fuel]; cbn in Hf; [lia|]. cbn [QLIST_FOR_REST].
    rewrite (proj2 (Z.eqb_neq n q)) by (intros ->; apply Hq; by left). unfold mbind, P_bind, mret, P_ret, next. by rewrite (H2 n) by by left.
  - intros Hl. destruct l as [|n l]; [done|]. cbn [first_of] in Hfirst. unfold QLIST_FOR_ALL, mbind, P_bind.
    rewrite (next_eq h q n Hfirst). destruct fuel as [|fuel]; cbn in Hf; [lia|]. cbn [QLIST_FOR_REST].
    rewrite (proj2 (Z.eqb_neq n q)) by (intros ->; apply Hq; by left). unfold mbind, P_bind, mret, P_ret, free, next.
    destruct (h !! n) eqn:En; [|done]. by rewrite lookup_delete_eq.
Qed.

(** ** Concrete lists *)
Module QListEx.
Definition nodes : list Z := [1; 2; 3; 10; 11; 12].
Definition h0 : heap := list_to_map ((fun n => (n, Node 0 0)) <$> nodes).
Definition a0 : abs := Abs ∅ (list_to_map ((fun n => (n, true)) <$> nodes)).

Lemma repr0 : repr h0 a0.
Proof.
  assert (Hs : forall n z, spare a0 !! n = Some z -> n ∈ nodes).
  { intros n z H. cbn in H. repeat (apply lookup_insert_Some in H as [[<- _]|[_ H]]; [unfold nodes; set_solver|]). done. }
  split; cbn [lists]; try done.
  intros n z H. apply Hs in H. unfold nodes in H.
  repeat (apply elem_of_cons in H as [->|H]; [split; [by eexists|done]|]). by apply elem_of_nil in H.
Qed.

(** Two lists are filled, the second is appended to the first, and a third takes all over. *)
Definition script : list op :=
  [Ctor 1; Ctor 2; Append 1 10; Prepend 1 11; Append 2 12; AppendList 1 2; Pop 1; IsEmpty 2; CtorFrom 3 1; PopLastZ 3; IsQueuedZ 12; GetFirst 3].
Lemma qlist_refines_witness : exists h', run_ops script h0 = Some ([0; 0; 0; 0; 0; 0; 11; 1; 0; 12; 0; 10], h').
Proof.
  assert (Hd : exists c, does_all a0 script [0; 0; 0; 0; 0; 0; 11; 1; 0; 12; 0; 10] c).
  { eexists.
    eapply does_next; [eapply does_ctor; reflexivity|]. eapply does_next; [eapply does_ctor; reflexivity|].
    eapply does_next; [eapply does_append; reflexivity|]. eapply does_next; [eapply does_prepend; reflexivity|].
    eapply does_next; [eapply does_append; reflexivity|]. eapply does_next; [eapply does_append_list; [done|reflexivity..]|].
    eapply does_next; [eapply does_pop; reflexivity|]. eapply does_next; [eapply (does_is_empty _ 2 []); reflexivity|].
    eapply does_next; [eapply does_ctor_from; reflexivity|]. eapply does_next; [eapply (does_pop_lastZ _ 3 12 [10]); reflexivity|].
    eapply does_next; [eapply does_not_queued; reflexivity|]. eapply does_next; [eapply (does_first _ 3 [10]); reflexivity|]. apply does_none. }
  destruct Hd as [c Hd]. destruct (qlist_refines h0 a0 script _ c repr0 Hd) as (h' & E & _). by exists h'.
Defined.

(** A list of two nodes. *)
Definition h2 : heap := list_to_map [(1, Node 10 11); (10, Node 11 1); (11, Node 1 10)].
Lemma qlist_loops_witness :
  (exists h', QLIST_NEXTSAFE_FOR_ALL 1 (fun n s => _ ← QNode_Dequeue n; _ ← free n; mret (s ++ [n])) 2 [] h2 = Some (Some [10; 11], h')) /\
  QLIST_FOR_ALL 1 (fun n s => _ ← free n; mret (s ++ [n])) 2 [] h2 = None.
Proof.
  destruct (qlist_loops (fun s n => s ++ [n]) h2 1 [10; 11] 2 []) as (_ & _ & (h' & E & _) & _ & F).
  - by repeat split.
  - repeat constructor; set_solver.
  - done.
  - split; [by exists h'|by apply F].
Defined.
End QListEx.
