(* ===== verification/Platform.v ===== *)
(** Library initialisation: the reference-counted libraries of [src/platform_libs.c] and
    [inc/platform_libs.h], the initialisation and tear-down of [src/fastrpc_apps_user.c] and
    [src/listener_android.c] that use them, and the destructor of the shared object.

    The state has the count and the code of each library and a trace of what was called. The
    initialisers of the leaf libraries always succeed in this repository; what can fail is an
    argument. *)
From S2P Require Import Prelude Errors.
#[local] Open Scope Z_scope.

(** ** State *)
Inductive lib := gpls | rpcmem | apps_std | mod_table | listener_android | fastrpc_apps_user.
#[export] Instance lib_eq_dec : EqDecision lib.
Proof. solve_decision. Defined.

(** The parts that [fastrpc_apps_user_init] sets up itself. *)
Inductive part := TLS_KEY | MEM | CONTEXT_TABLE | LOG | CONFIG | HLIST | SIGNALS | NOTIF | APPS_MEM | WAKE_LOCK | LIB_REFCNT | DOMAINS.
Inductive event :=
  | LIB_INIT (l : lib) | LIB_DEINIT (l : lib)   (* a library's own function is called *)
  | PART_INIT (p : part) | PART_DEINIT (p : part).

(** [uRefs] and [nErr] of [struct platform_lib]; [hlist]: not NULL; [keyed]: [tlsKey] is valid. *)
Record pl := Pl { uRefs : lib -> Z; nErr : lib -> Z; hlist : bool; keyed : bool; trace : list event }.
(** [PL_DEFINE]: no references, code -1. *)
Definition pl0 : pl := Pl (fun _ => 0) (fun _ => -1) false false [].

Definition fn_set (l : lib) (v : Z) (f : lib -> Z) : lib -> Z := fun x => if decide (x = l) then v else f x.
Definition set_refs (l : lib) (v : Z) (s : pl) : pl := Pl (fn_set l v (uRefs s)) (nErr s) (hlist s) (keyed s) (trace s).
Definition set_err (l : lib) (v : Z) (s : pl) : pl := Pl (uRefs s) (fn_set l v (nErr s)) (hlist s) (keyed s) (trace s).
Definition set_hlist (b : bool) (s : pl) : pl := Pl (uRefs s) (nErr s) b (keyed s) (trace s).
Definition set_keyed (b : bool) (s : pl) : pl := Pl (uRefs s) (nErr s) (hlist s) b (trace s).
Definition add_event (e : event) (s : pl) : pl := Pl (uRefs s) (nErr s) (hlist s) (keyed s) (trace s ++ [e]).
Definition event_of (e : event) : M pl unit := modify (add_event e).

(** ** Counted libraries *)
Definition pl_lib_init (l : lib) (init : M pl Z) : M pl Z :=
  r ← gets (fun s => uRefs s l);
  _ ← modify (set_refs l (u32 (r + 1)));
  _ ← (if r =? 0 then (_ ← event_of (LIB_INIT l); nErr ← init; modify (set_err l nErr)) else mret tt);
  gets (fun s => nErr s l).
Definition pl_lib_deinit (l : lib) (deinit : M pl unit) : M pl unit :=
  r ← gets (fun s => uRefs s l);
  _ ← modify (set_refs l (u32 (r - 1)));
  e ← gets (fun s => nErr s l);
  if (r =? 1) && (e =? 0) then (_ ← event_of (LIB_DEINIT l); deinit) else mret tt.

(** A library whose own functions do nothing to the other libraries and succeed. *)
Definition leaf_init (l : lib) : M pl Z := pl_lib_init l (mret AEE_SUCCESS).
Definition leaf_deinit (l : lib) : M pl unit := pl_lib_deinit l (mret tt).

(** [pl_init] and [pl_deinit] over a table of initialisers and of finalisers. *)
Fixpoint pl_init_lst (lst : list (M pl Z)) : M pl Z :=
  match lst with
  | [] => mret AEE_SUCCESS
  | init :: lst => nErr ← init; if negb (nErr =? 0) then mret nErr else pl_init_lst lst
  end.
Definition pl_deinit_lst (lst : list (M pl unit)) : M pl unit := foldr (fun deinit k => _ ← deinit; k) (mret tt) (rev lst).

Section init.
(** What can fail: [pthread_key_create], the allocation of [hlist] and the registrations of the
    four modules that the listener serves. *)
Variables (pthread_key_create : Z) (calloc : bool) (registrations : list Z).

(** ** The listener *)
Definition listener_android_deinit : M pl unit :=
  _ ← leaf_deinit mod_table; leaf_deinit apps_std.
Fixpoint register_all (codes : list Z) : M pl unit :=
  match codes with [] => mret tt | c :: codes => _ ← VERIFY c (c =? AEE_SUCCESS); register_all codes end.
Definition listener_android_init : M pl Z :=
  nErr ← to_bail (
    _ ← VERIFY_CALL (leaf_init mod_table);
    _ ← VERIFY_CALL (leaf_init apps_std);
    register_all registrations);
  _ ← (if negb (nErr =? AEE_SUCCESS) then listener_android_deinit else mret tt);
  mret nErr.

(** ** The library *)
Definition part_init (p : part) : M pl unit := event_of (PART_INIT p).
Definition part_deinit (p : part) : M pl unit := event_of (PART_DEINIT p).

Definition fastrpc_apps_user_deinit : M pl unit :=
  k ← gets keyed;
  _ ← (if k : bool then (_ ← part_deinit TLS_KEY; modify (set_keyed false)) else mret tt);
  h ← gets hlist;
  _ ← (if h : bool then (_ ← listener_android_deinit; _ ← part_deinit HLIST; modify (set_hlist false)) else mret tt);
  _ ← part_deinit CONTEXT_TABLE;
  _ ← part_deinit SIGNALS;
  _ ← part_deinit NOTIF;
  _ ← part_deinit APPS_MEM;
  _ ← part_deinit WAKE_LOCK;
  _ ← part_deinit LOG;
  _ ← part_deinit MEM;
  _ ← leaf_deinit apps_std;
  _ ← leaf_deinit rpcmem;
  leaf_deinit gpls.

Definition fastrpc_apps_user_init : M pl Z :=
  nErr ← to_bail (
    _ ← VERIFY_CALL (leaf_init gpls);
    _ ← VERIFY_CALL (leaf_init rpcmem);
    _ ← VERIFY_CALL (leaf_init apps_std);
    _ ← (if pthread_key_create =? 0 then (_ ← part_init TLS_KEY; modify (set_keyed true)) else mret tt);
    _ ← VERIFY pthread_key_create (pthread_key_create =? AEE_SUCCESS);
    _ ← part_init MEM;
    _ ← part_init CONTEXT_TABLE;
    _ ← part_init LOG;
    _ ← part_init CONFIG;
    _ ← VERIFYC calloc AEE_ENOMEMORY;
    _ ← part_init HLIST;
    _ ← modify (set_hlist true);
    _ ← listener_android_init;              (* the result is not used *)
    _ ← part_init NOTIF;
    part_init APPS_MEM);
  _ ← (if negb (nErr =? 0) then fastrpc_apps_user_deinit else mret tt);
  mret nErr.

(** [frpc_init], and what [fastrpc_init_once] returns after it. *)
Definition frpc_init : M pl Z := pl_lib_init fastrpc_apps_user fastrpc_apps_user_init.

(** [pl_list]. *)
Definition pl_init : M pl Z := pl_init_lst [leaf_init gpls; pl_lib_init listener_android listener_android_init].
Definition pl_deinit : M pl unit := pl_deinit_lst [leaf_deinit gpls; pl_lib_deinit listener_android listener_android_deinit].

(** The destructor of the shared object. *)
Definition close_dev : M pl unit :=
  _ ← part_deinit DOMAINS;
  _ ← part_deinit LIB_REFCNT;
  _ ← pl_deinit;
  pl_lib_deinit fastrpc_apps_user fastrpc_apps_user_deinit.

(** ** What is up *)

(** The calls of a library's own functions alternate: [Some b] when they do, and whether the
    library is up after them. *)
Definition next_up (l : lib) (e : event) (u : option bool) : option bool :=
  match u, e with
  | Some up, LIB_INIT x => if decide (x = l) then (if up : bool then None else Some true) else u
  | Some up, LIB_DEINIT x => if decide (x = l) then (if up : bool then Some false else None) else u
  | _, _ => u
  end.
Definition up_after (l : lib) (tr : list event) (u : option bool) : option bool := foldl (fun u e => next_up l e u) u tr.
Definition is_up (l : lib) (s : pl) : option bool := up_after l (trace s) (Some false).

Lemma is_up_add l e s : is_up l (add_event e s) = next_up l e (is_up l s).
Proof. unfold is_up, up_after. cbn [trace add_event]. by rewrite foldl_app. Qed.

Definition all_registered : bool := forallb (fun c => c =? AEE_SUCCESS) registrations.

Lemma register_all_spec s : exists o, register_all registrations s = (o, s) /\
  if all_registered then o = Go tt else exists e, e <> 0 /\ o = Bail e.
Proof.
  unfold all_registered. induction registrations as [|c cs IH]; cbn [register_all forallb]; [by eexists|].
  unfold VERIFY. destruct (Z.eqb_spec c AEE_SUCCESS) as [->|Hc]; cbn; [exact IH|]. eexists. split; [reflexivity|]. exists c. split; [exact Hc|]. by rewrite (proj2 (Z.eqb_neq c 0)) by exact Hc.
Qed.
End init.

Lemma fn_set_same l v f : fn_set l v f l = v.
Proof. unfold fn_set. by rewrite decide_True. Qed.
Lemma fn_set_other l v f x : x <> l -> fn_set l v f x = f x.
Proof. intros H. unfold fn_set. by rewrite decide_False. Qed.

(** Calls of one library, [true] for an initialisation. *)
Fixpoint run_calls (l : lib) (e : Z) (calls : list bool) : M pl unit :=
  match calls with
  | [] => mret tt
  | true :: calls => _ ← pl_lib_init l (mret e); run_calls l e calls
  | false :: calls => _ ← pl_lib_deinit l (mret tt); run_calls l e calls
  end.
Fixpoint balance (calls : list bool) : Z :=
  match calls with [] => 0 | b :: calls => (if b : bool then 1 else -1) + balance calls end.
(** No call takes a reference back that is not there. *)
Fixpoint never_below (c : Z) (calls : list bool) : Prop :=
  0 <= c /\ match calls with [] => True | b :: calls => never_below (if b : bool then c + 1 else c - 1) calls end.

(** The code of the initialiser: 0 once it has run with success. *)
Definition counted (l : lib) (c : Z) (s : pl) : Prop :=
  uRefs s l = c /\ is_up l s = Some (0 <? c) /\ (0 < c -> nErr s l = 0).

Lemma counted_init l c s : counted l c s -> 0 <= c < 4294967295 ->
  exists s', pl_lib_init l (mret 0) s = (Go 0, s') /\ counted l (c + 1) s'.
Proof.
  intros (H1 & H2 & H3) Hc. unfold pl_lib_init, event_of. munfold. rewrite H1. rewrite u32_small by lia.
  destruct (Z.eqb_spec c 0) as [->|Hc0]; cbn.
  - eexists. split; [by rewrite fn_set_same|]. split_and!; cbn.
    + by rewrite fn_set_same.
    + etransitivity; [exact (is_up_add l (LIB_INIT l) s)|]. rewrite H2. cbn. by rewrite decide_True.
    + intros _. by rewrite fn_set_same.
  - eexists. split; [by rewrite H3 by lia|]. split_and!; cbn.
    + by rewrite fn_set_same.
    + etransitivity; [exact H2|]. by rewrite !(proj2 (Z.ltb_lt _ _)) by lia.
    + intros _. apply H3. lia.
Qed.
Lemma counted_deinit l c s : counted l c s -> 0 < c <= 4294967295 ->
  exists s', pl_lib_deinit l (mret tt) s = (Go tt, s') /\ counted l (c - 1) s'.
Proof.
  intros (H1 & H2 & H3) Hc. unfold pl_lib_deinit, event_of. munfold. cbn. rewrite H1, H3 by lia. rewrite u32_small by lia.
  destruct (Z.eqb_spec c 1) as [->|Hc1]; cbn.
  - eexists. split; [done|]. split_and!; cbn; [by rewrite fn_set_same| |lia].
    etransitivity; [exact (is_up_add l (LIB_DEINIT l) s)|]. rewrite H2. cbn. by rewrite decide_True.
  - eexists. split; [done|]. split_and!; cbn; [by rewrite fn_set_same| |intros _; apply H3; lia].
    etransitivity; [exact H2|]. by rewrite !(proj2 (Z.ltb_lt _ _)) by lia.
Qed.

(** A library is up exactly while it is referenced: for every sequence of [pl_lib_init] and
    [pl_lib_deinit] in which no call gives back a reference that is not there, the count is
    the number of references, the library's own functions are called alternately, and it is
    up when the count is positive. *)
Theorem pl_lib_counted l calls s c :
  counted l c s -> never_below c calls -> c + Z.of_nat (length calls) < 4294967296 ->
  exists s', run_calls l 0 calls s = (Go tt, s') /\ counted l (c + balance calls) s'.
Proof.
  revert s c. induction calls as [|[] calls IH]; intros s c Hs Hn Hb; cbn [run_calls balance length] in *.
  - exists s. by rewrite Z.add_0_r.
  - destruct Hn as [Hc Hn]. destruct (counted_init l c s Hs) as (s1 & E & H1); [lia|].
    destruct (IH s1 (c + 1) H1 Hn) as (s2 & E2 & H2); [lia|]. exists s2. unfold mbind, M_bind. rewrite E. split; [exact E2|].
    by rewrite Z.add_assoc.
  - destruct Hn as [Hc Hn]. assert (Hc1 : 0 <= c - 1) by (destruct calls; apply Hn).
    destruct (counted_deinit l c s Hs) as (s1 & E & H1); [lia|].
    destruct (IH s1 (c - 1) H1 Hn) as (s2 & E2 & H2); [lia|]. exists s2. unfold mbind, M_bind. rewrite E. split; [exact E2|].
    replace (c + (-1 + balance calls)) with (c - 1 + balance calls) by lia. done.
Qed.

(** ** Bringing the library up and unloading it *)

(** Only the first failing registration matters. *)
Lemma bind_ext {S A B} (m m' : M S A) (f f' : A -> M S B) : (forall s, m s = m' s) -> (forall a s, f a s = f' a s) -> forall s, (m ≫= f) s = (m' ≫= f') s.
Proof. intros Hm Hf s. unfold mbind, M_bind. rewrite Hm. destruct (m' s) as [[a|e] s']; [apply Hf|done]. Qed.
Lemma to_bail_ext {S} (m m' : M S unit) : (forall s, m s = m' s) -> forall s, to_bail m s = to_bail m' s.
Proof. intros Hm s. unfold to_bail. by rewrite Hm. Qed.
Ltac ext := repeat first [reflexivity | apply to_bail_ext; intros | apply bind_ext; intros].

Lemma registrations_first regs : exists regs', (regs' = [] \/ exists e, e <> 0 /\ regs' = [e]) /\
  all_registered regs = all_registered regs' /\ forall s, register_all regs s = register_all regs' s.
Proof.
  unfold all_registered. induction regs as [|c cs (r & Hr & Ha & IH)]; [exists []; by split; [left|]|].
  cbn [forallb]. destruct (Z.eqb_spec c AEE_SUCCESS) as [->|Hc].
  - exists r. split_and!; [done|done|]. intros s. cbn [register_all]. etransitivity; [|apply IH]. done.
  - exists [c]. split_and!; [right; by exists c| |].
    + cbn. by rewrite (proj2 (Z.eqb_neq c AEE_SUCCESS)).
    + intros s. cbn [register_all]. unfold VERIFY. by rewrite (proj2 (Z.eqb_neq c AEE_SUCCESS)).
Qed.
Lemma listener_same regs regs' : (forall s, register_all regs s = register_all regs' s) -> forall s, listener_android_init regs s = listener_android_init regs' s.
Proof. intros H s. unfold listener_android_init. ext. apply H. Qed.
Lemma init_same key alloc regs regs' : (forall s, register_all regs s = register_all regs' s) -> forall s, frpc_init key alloc regs s = frpc_init key alloc regs' s.
Proof.
  intros H s. unfold frpc_init, pl_lib_init, fastrpc_apps_user_init. apply bind_ext; [done|intros r s1]. apply bind_ext; [done|intros [] s2].
  apply bind_ext; [intros s3|done]. destruct (r =? 0); [|done]. repeat first [reflexivity | by apply listener_same | apply to_bail_ext; intros | apply bind_ext; intros].
Qed.

Definition libs : list lib := [gpls; rpcmem; apps_std; mod_table; listener_android; fastrpc_apps_user].
(** In the order of [libs]: the counts, and what is up. *)
Definition counts (s : pl) : list Z := uRefs s <$> libs.
Definition ups (s : pl) : list (option bool) := (fun l => is_up l s) <$> libs.
(** What [fastrpc_apps_user_init] returns. *)
Definition init_code (key : Z) (alloc : bool) : Z := if negb (key =? 0) then key else if alloc then AEE_SUCCESS else AEE_ENOMEMORY.

(** The library comes up with all the libraries it needs or with none of them: when the
    thread key or the table cannot be had every count but its own is 0 again and every library
    that was brought up is down. A registration of the listener that fails does not fail the
    initialisation, although no call of the DSP can be served then. Unloading the shared
    object takes down whatever is up, each library once;
    the counts of [gpls] and [listener_android] wrap around, because [pl_deinit] has no
    [pl_init]. *)
Theorem library_init_unload key alloc regs :
  let e := init_code key alloc in
  let listening := all_registered regs in
  exists s s', frpc_init key alloc regs pl0 = (Go e, s) /\ close_dev s = (Go tt, s') /\
    counts s = (if e =? 0 then [1; 1; if listening then 2 else 1; if listening then 1 else 0; 0; 1] else [0; 0; 0; 0; 0; 1]) /\
    ups s = (if e =? 0 then [Some true; Some true; Some true; Some listening; Some false; Some true] else [Some false; Some false; Some false; Some false; Some false; Some true]) /\
    hlist s = (e =? 0) /\
    ups s' = [Some false; Some false; Some false; Some false; Some false; Some (negb (e =? 0))] /\
    hlist s' = false /\ keyed s' = false /\ uRefs s' gpls = 4294967295 /\ uRefs s' listener_android = 4294967295.
Proof.
  cbv zeta. destruct (registrations_first regs) as (r & Hr & -> & Hs). rewrite (init_same key alloc regs r Hs).
  destruct key as [|p|p], alloc; destruct Hr as [->|([|q|q] & He & ->)]; try done;
    eexists _, _; (split; [vm_compute; reflexivity|]); (split; [vm_compute; reflexivity|]); by vm_compute.
Qed.

(** ** Concrete runs *)
Module PlatformEx.
Lemma pl_lib_counted_witness : exists s, run_calls gpls 0 [true; true; false; true; false; false] pl0 = (Go tt, s) /\ is_up gpls s = Some false.
Proof.
  destruct (pl_lib_counted gpls [true; true; false; true; false; false] pl0 0) as (s & E & _ & H & _); [by repeat split|cbn; lia|cbn; lia|].
  by exists s.
Defined.
End PlatformEx.
