(* ===== verification/Sbuf.v ===== *)
(** The serialisation buffer of [inc/sbuf.h]: a cursor over a window of valid
    memory.  The cursor may run outside the window, so that the same sequence of
    calls first measures and then fills a buffer.  All pointer arithmetic is
    modulo 2^64 and every [int] conversion of the code is kept. *)
From S2P Require Import Prelude.

Record sbuf := Sbuf {
  buf : Z;       (* start of valid memory *)
  bufEnd : Z;    (* end of valid memory *)
  bufStart : Z;  (* start with the optional offset *)
  bufCur : Z     (* current position *)
}.

Definition set_cur (b : sbuf) (c : Z) : sbuf :=
  {| buf := buf b; bufEnd := bufEnd b; bufStart := bufStart b; bufCur := c |}.

Definition sbuf_init (offset data dataLen : Z) : sbuf :=
  {| buf := u64 data;
     bufStart := u64 (data - offset);
     bufCur := u64 (data - offset);
     bufEnd := u64 (data + dataLen) |}.

Definition sbuf_advance (b : sbuf) (len : Z) : sbuf := set_cur b (u64 (bufCur b + len)).

Definition sbuf_needed (b : sbuf) : Z := s32 (u64 (bufCur b - bufStart b)).

(** [__builtin_sub_overflow(bufEnd, bufCur, &result)] with an [int] result. *)
Definition sbuf_left (b : sbuf) : Z := s32 (bufEnd b - bufCur b).

Definition sbuf_head (b : sbuf) : Z := bufCur b.

Definition sbuf_valid (b : sbuf) : bool := (buf b <=? bufCur b) && (bufCur b <? bufEnd b).

(** [_SBUF_ALIGN(x, y)]: [x] is an [int], [y] a [uint32_t], so the arithmetic is
    done in 32-bit unsigned. *)
Definition _SBUF_ALIGN (x y : Z) : Z :=
  Z.land (u32 (u32 x + u32 (y - 1))) (u32 (Z.lnot (u32 (y - 1)))).

Definition sbuf_align (b : sbuf) (align : Z) : sbuf :=
  sbuf_advance b (s32 (u32 (_SBUF_ALIGN (sbuf_needed b) align - u32 (sbuf_needed b)))).

(** [psrc] is the memory the code copies from, [srcLen] the length it is given. *)
Definition sbuf_write (b : sbuf) (m : memory) (psrc : list Z) (srcLen : Z) : sbuf * memory :=
  if buf b <? u64 (bufCur b + srcLen) then
    let '(b1, src, srcLen) :=
      if bufCur b <? buf b
      then let len := s32 (u64 (buf b - bufCur b)) in
           (sbuf_advance b len, drop (Z.to_nat len) psrc, s32 (srcLen - len))
      else (b, psrc, srcLen) in
    let writeLen := Z.min srcLen (sbuf_left b1) in
    let m1 :=
      if 0 <? writeLen
      then store m (bufCur b1)
             (take (Z.to_nat (Z.min (u64 (bufEnd b1 - bufCur b1)) writeLen)) src)
      else m in
    (sbuf_advance b1 srcLen, m1)
  else (sbuf_advance b srcLen, m).

(** [pdst] is the destination's contents; the second result its contents after. *)
Definition sbuf_read (b : sbuf) (m : memory) (pdst : list Z) (dstLen : Z) : sbuf * list Z :=
  if buf b <? u64 (bufCur b + dstLen) then
    let '(b1, skip, dstLen) :=
      if bufCur b <? buf b
      then let len := s32 (u64 (buf b - bufCur b)) in
           (sbuf_advance b len, len, s32 (dstLen - len))
      else (b, 0, dstLen) in
    let readLen := Z.min dstLen (sbuf_left b1) in
    let dst :=
      if 0 <? readLen
      then take (Z.to_nat skip) pdst ++ load m (bufCur b1) readLen
             ++ drop (Z.to_nat (skip + readLen)) pdst
      else pdst in
    (sbuf_advance b1 dstLen, dst)
  else (sbuf_advance b dstLen, pdst).

(** ** The contract

    [sbuf_room b n]: the cursor can advance by [n] without leaving the range in
    which the code's [int] differences are exact. *)
Record sbuf_room (b : sbuf) (n : Z) : Prop := {
  room_buf : 0 <= buf b <= bufEnd b;
  room_end : bufEnd b < 2 ^ 63;
  room_start : 0 <= bufStart b <= bufCur b;
  room_needed : bufCur b + n - bufStart b < 2 ^ 31;
  room_cur : bufCur b + n < 2 ^ 63;
  room_left : bufEnd b - bufCur b < 2 ^ 31;
  room_over : bufCur b + n - bufEnd b <= 2 ^ 31;
  room_pos : 0 <= n
}.

Definition in_window (b : sbuf) (x : Z) : Prop := buf b <= x < bufEnd b.

Ltac room H :=
  let f := fresh in pose proof H as f; destruct f;
  change (2 ^ 63) with 9223372036854775808 in *; change (2 ^ 31) with 2147483648 in *.

Lemma sbuf_room_weaken b n n' : sbuf_room b n -> 0 <= n' <= n -> sbuf_room b n'.
Proof. intros H ?. room H. constructor; lia. Qed.

Lemma sbuf_advance_small b n k : sbuf_room b n -> 0 <= k <= n -> sbuf_advance b k = set_cur b (bufCur b + k).
Proof. intros H ?. room H. unfold sbuf_advance. by int_norm. Qed.

Lemma sbuf_room_advance b n k : sbuf_room b n -> 0 <= k <= n -> sbuf_room (set_cur b (bufCur b + k)) (n - k).
Proof. intros H ?. room H. constructor; cbn; lia. Qed.

Lemma sbuf_needed_small b n : sbuf_room b n -> sbuf_needed b = bufCur b - bufStart b.
Proof. intros H. room H. unfold sbuf_needed. by int_norm. Qed.

Lemma sbuf_left_small b n : sbuf_room b n -> sbuf_left b = bufEnd b - bufCur b.
Proof. intros H. room H. unfold sbuf_left. rewrite s32_small; lia. Qed.

(** ** Alignment *)
Definition align_up (x k : Z) : Z := (x + 2 ^ k - 1) / 2 ^ k * 2 ^ k.

Lemma align_up_bounds x k : 0 <= k -> x <= align_up x k < x + 2 ^ k.
Proof.
  intros Hk. unfold align_up. assert (0 < 2 ^ k) by lia.
  pose proof (Z.div_mod (x + 2 ^ k - 1) (2 ^ k)).
  pose proof (Z.mod_pos_bound (x + 2 ^ k - 1) (2 ^ k)). lia.
Qed.

Lemma SBUF_ALIGN_pow2 x k :
  0 <= k < 31 -> 0 <= x -> x + 2 ^ k < 2 ^ 31 -> _SBUF_ALIGN x (2 ^ k) = align_up x k.
Proof.
  intros Hk Hx Hs. unfold _SBUF_ALIGN.
  assert (0 < 2 ^ k) by lia. change (2 ^ 31) with 2147483648 in Hs.
  int_norm.
  assert (E : Z.land (x + (2 ^ k - 1)) (u32 (Z.lnot (2 ^ k - 1))) = align_mask x (2 ^ k)).
  { unfold align_mask, u32. change 4294967296 with (2 ^ 32).
    rewrite <- (Z.land_ones _ 32) by lia.
    rewrite Z.land_assoc, <- (Z.land_assoc _ _ (Z.ones 32)), (Z.land_comm (Z.lnot _)).
    rewrite Z.land_assoc, (Z.land_ones _ 32) by lia. f_equal.
    apply Z.mod_small. change (2 ^ 32) with 4294967296. lia. }
  rewrite E. apply align_mask_pow2. lia.
Qed.

Lemma sbuf_align_spec b n k :
  0 <= k < 31 -> sbuf_room b n -> 2 ^ k <= n ->
  sbuf_align b (2 ^ k) = set_cur b (bufStart b + align_up (bufCur b - bufStart b) k).
Proof.
  intros Hk Hr Hn. unfold sbuf_align. rewrite (sbuf_needed_small b n) by done.
  pose proof (align_up_bounds (bufCur b - bufStart b) k ltac:(lia)) as Ha.
  room Hr. rewrite SBUF_ALIGN_pow2; [|lia|lia|change (2^31) with 2147483648; lia].
  int_norm. rewrite (sbuf_advance_small b n) by (try done; lia). f_equal. lia.
Qed.

(** ** What a write does

    Exactly the bytes whose address lies in the window are copied; the cursor
    advances by the whole length. *)
Lemma sbuf_write_spec b m psrc srcLen :
  sbuf_room b srcLen -> srcLen = Z.of_nat (length psrc) ->
  (sbuf_write b m psrc srcLen).1 = set_cur b (bufCur b + srcLen) /\
  forall x, rd (sbuf_write b m psrc srcLen).2 x =
    if decide (bufCur b <= x < bufCur b + srcLen /\ buf b <= x < bufEnd b)
    then nth (Z.to_nat (x - bufCur b)) psrc 0 else rd m x.
Proof.
  intros Hr Hl. room Hr. unfold sbuf_write. int_norm. case_ltb.
  2:{ split; [by rewrite (sbuf_advance_small b srcLen) by (done || lia)|].
      intros x. rewrite decide_False by lia. done. }
  case_ltb.
  - int_norm. rewrite (sbuf_advance_small b srcLen) by (done || lia).
    pose proof (sbuf_room_advance b srcLen (buf b - bufCur b) Hr ltac:(lia)) as Hr1.
    rewrite (sbuf_left_small _ _ Hr1). cbn [bufEnd bufCur set_cur].
    rewrite (sbuf_advance_small _ _ _ Hr1) by lia. int_norm.
    split; [cbn; unfold set_cur; cbn; f_equal; lia|]. intros x. cbn [snd].
    case_ltb.
    + rewrite rd_store, length_take, length_drop.
      case_decide as Hd; repeat case_ltb; cbn [andb]; try lia; try done.
      rewrite nth_firstn, nth_skipn. case_nltb; [f_equal|]; lia.
    + rewrite decide_False by lia. done.
  - rewrite (sbuf_left_small _ _ Hr), (sbuf_advance_small b srcLen) by (done || lia).
    split; [done|]. intros x. cbn [snd]. case_ltb.
    + int_norm. rewrite rd_store, length_take.
      case_decide as Hd; repeat case_ltb; cbn [andb]; try lia; try done.
      rewrite nth_firstn. case_nltb; [done|lia].
    + rewrite decide_False by lia. done.
Qed.

(** The copied middle of a destination between its untouched ends: [c] is the
    cursor, [lo, hi) the window, [skip] the bytes in front of the window. *)
Lemma read_splice m (dst : list Z) c skip n (lo hi : Z) :
  0 < n -> skip = Z.max 0 (lo - c) ->
  n = Z.min (c + Z.of_nat (length dst)) hi - (c + skip) ->
  let dst' := take (Z.to_nat skip) dst ++ load m (c + skip) n ++ drop (Z.to_nat (skip + n)) dst in
  length dst' = length dst /\
  forall i, 0 <= i < Z.of_nat (length dst) ->
    nth (Z.to_nat i) dst' 0 =
    if decide (lo <= c + i < hi) then rd m (c + i) else nth (Z.to_nat i) dst 0.
Proof.
  intros Hn Hs Hw dst'. subst dst'. split.
  { rewrite !length_app, length_take, length_drop, length_load. lia. }
  intros i Hi. rewrite !app_nth, length_take, length_load, nth_firstn, nth_skipn.
  repeat case_nltb; try lia.
  - rewrite decide_False by lia. done.
  - replace (Z.to_nat i - Z.to_nat skip `min` length dst)%nat with (Z.to_nat (i - skip)) by lia.
    rewrite nth_load, decide_True by lia. f_equal. lia.
  - rewrite decide_False by lia. f_equal. lia.
Qed.

(** ** What a read does *)
Lemma sbuf_read_spec b m pdst dstLen :
  sbuf_room b dstLen -> dstLen = Z.of_nat (length pdst) ->
  (sbuf_read b m pdst dstLen).1 = set_cur b (bufCur b + dstLen) /\
  length (sbuf_read b m pdst dstLen).2 = length pdst /\
  forall i, 0 <= i < dstLen -> nth (Z.to_nat i) (sbuf_read b m pdst dstLen).2 0 =
    if decide (buf b <= bufCur b + i < bufEnd b) then rd m (bufCur b + i)
    else nth (Z.to_nat i) pdst 0.
Proof.
  intros Hr Hl. room Hr. unfold sbuf_read. int_norm. case_ltb.
  2:{ rewrite (sbuf_advance_small b dstLen) by (done || lia). split_and!; [done..|].
      intros i Hi. rewrite decide_False by lia. done. }
  case_ltb.
  - int_norm. rewrite (sbuf_advance_small b dstLen) by (done || lia).
    pose proof (sbuf_room_advance b dstLen (buf b - bufCur b) Hr ltac:(lia)) as Hr1.
    rewrite (sbuf_left_small _ _ Hr1). cbn [bufEnd bufCur set_cur].
    rewrite (sbuf_advance_small _ _ _ Hr1) by lia.
    split; [cbn; unfold set_cur; cbn; f_equal; lia|]. cbn [snd]. case_ltb.
    +      int_norm. subst dstLen. apply read_splice; lia.
    + split; [done|]. intros i Hi. rewrite decide_False by lia. done.
  - rewrite (sbuf_left_small _ _ Hr), (sbuf_advance_small b dstLen) by (done || lia).
    split; [done|]. cbn [snd]. case_ltb.
    + subst dstLen. pose proof (read_splice m pdst (bufCur b) 0
        (Z.of_nat (length pdst) `min` (bufEnd b - bufCur b)) (buf b) (bufEnd b)) as Hsp.
      rewrite (Z.add_0_r (bufCur b)) in Hsp. apply Hsp; lia.
    + split; [done|]. intros i Hi. rewrite decide_False by lia. done.
Qed.
