(* ===== verification/ListenerBuf.v ===== *)
(** Marshalling of remote arguments, [inc/listener_buf.h]: a sequence of
    [length, padding, payload] items written through the buffer of [Sbuf].

    [pack_in_bufs]/[unpack_in_bufs] are the two ends of the argument channel,
    [pack_out_lens]/[unpack_out_lens] carry the output lengths, and
    [pack_out_bufs]/[unpack_out_bufs] carry the results back. *)
From S2P Require Import Prelude Errors Sbuf.

(** The [buf] arm of [remote_arg]: an address and a [size_t] length. *)
Record remote_arg := RemoteArg { pv : Z; nLen : Z }.

Fixpoint pack_in_bufs (b : sbuf) (m : memory) (pra : list remote_arg) : sbuf * memory :=
  match pra with
  | [] => (b, m)
  | a :: pra =>
    let len := u32 (nLen a) in
    let '(b, m) := sbuf_write b m (le32 len) 4 in
    if len =? 0 then pack_in_bufs b m pra
    else
      let b := sbuf_align b 8 in
      let '(b, m) := sbuf_write b m (load m (pv a) len) (s32 len) in
      pack_in_bufs b m pra
  end.

Fixpoint pack_out_lens (b : sbuf) (m : memory) (pra : list remote_arg) : sbuf * memory :=
  match pra with
  | [] => (b, m)
  | a :: pra =>
    let '(b, m) := sbuf_write b m (le32 (u32 (nLen a))) 4 in
    pack_out_lens b m pra
  end.

(** [len] is the local of the same name: it survives from one iteration to the
    next, and keeps its value when the read falls outside the window. *)
Fixpoint unpack_in_bufs (b : sbuf) (m : memory) (len : Z) (pra : list remote_arg)
    : sbuf * list remote_arg :=
  match pra with
  | [] => (b, [])
  | a :: pra =>
    let '(b, bs) := sbuf_read b m (le32 len) 4 in
    let len := of_le32 bs in
    let '(b, a) :=
      if len =? 0 then (b, {| pv := pv a; nLen := len |})
      else
        let b := sbuf_align b 8 in
        let p := if s32 len <=? sbuf_left b then sbuf_head b else pv a in
        (sbuf_advance b (s32 len), {| pv := p; nLen := len |}) in
    let '(b, pra) := unpack_in_bufs b m len pra in
    (b, a :: pra)
  end.

Fixpoint unpack_out_lens (b : sbuf) (m : memory) (len : Z) (pra : list remote_arg)
    : sbuf * list remote_arg :=
  match pra with
  | [] => (b, [])
  | a :: pra =>
    let '(b, bs) := sbuf_read b m (le32 len) 4 in
    let len := of_le32 bs in
    let '(b, pra) := unpack_out_lens b m len pra in
    (b, {| pv := pv a; nLen := len |} :: pra)
  end.

(** Maps the output buffers into the reply: an argument that does not fit keeps
    the [pv] it had. *)
Fixpoint pack_out_bufs (b : sbuf) (m : memory) (pra : list remote_arg)
    : sbuf * memory * list remote_arg :=
  match pra with
  | [] => (b, m, [])
  | a :: pra =>
    let '(b, m) := sbuf_write b m (le32 (u32 (nLen a))) 4 in
    let '(b, a) :=
      if nLen a =? 0 then (b, a)
      else
        let b := sbuf_align b 8 in
        let p := if s32 (nLen a) <=? sbuf_left b then sbuf_head b else pv a in
        (sbuf_advance b (s32 (nLen a)), {| pv := p; nLen := nLen a |}) in
    let '(b, m, pra) := pack_out_bufs b m pra in
    (b, m, a :: pra)
  end.

(** Copies the results into the caller's buffers; stops at the first length
    that is not the expected one. *)
Fixpoint unpack_out_bufs (b : sbuf) (m : memory) (len : Z) (pra : list remote_arg)
    : sbuf * memory * Z :=
  match pra with
  | [] => (b, m, 0)
  | a :: pra =>
    let '(b, bs) := sbuf_read b m (le32 len) 4 in
    let len := of_le32 bs in
    if negb (len =? nLen a) then (b, m, -1)
    else if nLen a =? 0 then unpack_out_bufs b m len pra
    else
      let b := sbuf_align b 8 in
      let '(b, dst) := sbuf_read b m (load m (pv a) (nLen a)) (s32 (nLen a)) in
      unpack_out_bufs b (store m (pv a) dst) len pra
  end.

(** ** The layout

    Where the code puts the items, as offsets from the start of the buffer. *)
Definition item_data (off : Z) : Z := align_up (off + 4) 3.
Definition item_end (off len : Z) : Z := if len =? 0 then off + 4 else item_data off + len.
Definition bufs_end (off : Z) (lens : list Z) : Z := fold_left item_end lens off.

(** An upper bound of the room the items need: 4 bytes of length, at most 8 of
    padding, the payload. *)
Definition items_bound (lens : list Z) : Z := foldr (fun l n => 12 + l + n) 0 lens.

Lemma item_data_bounds off : off + 4 <= item_data off < off + 12.
Proof. unfold item_data. pose proof (align_up_bounds (off + 4) 3 ltac:(lia)). lia. Qed.

Lemma item_end_bounds off len : 0 <= len -> off + 4 + len <= item_end off len < off + 12 + len.
Proof. intros. unfold item_end. pose proof (item_data_bounds off). case_ltb; lia. Qed.

Lemma bufs_end_ge off lens : Forall (fun l => 0 <= l) lens -> off <= bufs_end off lens.
Proof.
  intros H. revert off. induction H as [|l lens Hl H IH]; intros off; cbn; [lia|].
  specialize (IH (item_end off l)). pose proof (item_end_bounds off l Hl).
  unfold bufs_end in IH. lia.
Qed.

Lemma items_bound_cons l lens : items_bound (l :: lens) = 12 + l + items_bound lens.
Proof. done. Qed.

Lemma items_bound_nonneg lens : Forall (fun l => 0 <= l) lens -> 0 <= items_bound lens.
Proof. induction 1; [done | rewrite items_bound_cons; lia]. Qed.

Lemma bufs_end_cons off l lens : bufs_end off (l :: lens) = bufs_end (item_end off l) lens.
Proof. done. Qed.

(** ** One item *)

(** The offset of the cursor from the start of the buffer. *)
Definition off (b : sbuf) : Z := bufCur b - bufStart b.

Definition at_off (b : sbuf) (o : Z) : sbuf := set_cur b (bufStart b + o).

Lemma off_at_off b o : off (at_off b o) = o.
Proof. unfold off, at_off. cbn. lia. Qed.
Lemma at_off_at_off b o o' : at_off (at_off b o) o' = at_off b o'.
Proof. done. Qed.
Lemma at_off_off b : at_off b (off b) = b.
Proof. unfold at_off, off. destruct b; unfold set_cur; cbn. f_equal. lia. Qed.
Lemma at_off_off_eq b o : o = off b -> at_off b o = b.
Proof. intros ->. apply at_off_off. Qed.

Lemma room_at_off b n o k : sbuf_room b n -> off b <= o -> 0 <= k -> o + k <= off b + n -> sbuf_room (at_off b o) k.
Proof.
  intros H Ho Hk Hn. replace k with (n - (n - k)) by lia. unfold off in *.
  room H. constructor; cbn; unfold at_off; cbn; lia.
Qed.

(** After the length word, with the cursor moved over the padding. *)
Lemma align_step b len n :
  sbuf_room b (12 + len + n) -> 0 <= len -> 0 <= n ->
  sbuf_align (at_off b (off b + 4)) 8 = at_off b (item_data (off b)).
Proof.
  intros Hr Hl Hn. change 8 with (2 ^ 3).
  rewrite (sbuf_align_spec _ (8 + len + n)); [|lia| |lia].
  - unfold at_off, item_data, set_cur, off. cbn. f_equal. f_equal. f_equal. lia.
  - apply (room_at_off b (12 + len + n)); (done || lia).
Qed.

Lemma write_step b m bs len n :
  sbuf_room b n -> len = Z.of_nat (length bs) -> len <= n ->
  (sbuf_write b m bs len).1 = at_off b (off b + len) /\
  forall x, rd (sbuf_write b m bs len).2 x =
    if decide (bufCur b <= x < bufCur b + len /\ in_window b x)
    then nth (Z.to_nat (x - bufCur b)) bs 0 else rd m x.
Proof.
  intros Hr Hl Hn.
  destruct (sbuf_write_spec b m bs len) as [E H]; [|done|].
  { eapply sbuf_room_weaken; [done|lia]. }
  split; [|exact H]. rewrite E. unfold at_off, off. f_equal. lia.
Qed.

Lemma read_word_step b m w :
  sbuf_room b 4 -> buf b <= bufCur b -> bufCur b + 4 <= bufEnd b ->
  sbuf_read b m (le32 w) 4 = (at_off b (off b + 4), load m (bufCur b) 4).
Proof.
  intros Hr Hlo Hhi.
  destruct (sbuf_read_spec b m (le32 w) 4 Hr eq_refl) as (E1 & E2 & E3).
  rewrite (surjective_pairing (sbuf_read _ _ _ _)). f_equal.
  - rewrite E1. unfold at_off, off. f_equal. lia.
  - apply bytes_eq; [rewrite E2, length_load; done|].
    intros i Hi. rewrite E2, length_le32 in Hi. rewrite E3 by lia.
    rewrite nth_load, decide_True by lia. done.
Qed.

Lemma lens_ok_cons a pra :
  Forall (fun a => 0 <= nLen a < 2147483648) (a :: pra) ->
  0 <= nLen a < 2147483648 /\ Forall (fun a => 0 <= nLen a < 2147483648) pra.
Proof. by rewrite Forall_cons. Qed.

Definition lens (pra : list remote_arg) : list Z := nLen <$> pra.

Definition lens_ok (pra : list remote_arg) : Prop := Forall (fun a => 0 <= nLen a < 2147483648) pra.

Lemma lens_nonneg pra : lens_ok pra -> Forall (fun l => 0 <= l) (lens pra).
Proof. intros H. unfold lens. rewrite Forall_fmap. eapply Forall_impl; [exact H|]. cbn. lia. Qed.

(** ** Packing: the cursor follows the layout, nothing outside the window or in
    front of the cursor changes. *)
Lemma pack_in_bufs_spec pra : forall b m,
  lens_ok pra -> sbuf_room b (items_bound (lens pra)) ->
  (pack_in_bufs b m pra).1 = at_off b (bufs_end (off b) (lens pra)) /\
  forall x, (x < bufCur b \/ ~ in_window b x) -> rd (pack_in_bufs b m pra).2 x = rd m x.
Proof.
  induction pra as [|a pra IH]; intros b m Hok Hr.
  { cbn. by rewrite at_off_off. }
  apply lens_ok_cons in Hok as [Ha Hok].
  pose proof (items_bound_nonneg _ (lens_nonneg _ Hok)) as Hnn.
  change (lens (a :: pra)) with (nLen a :: lens pra) in *.
  rewrite items_bound_cons in Hr. rewrite bufs_end_cons. cbn [pack_in_bufs].
  pose proof (item_end_bounds (off b) (nLen a) ltac:(lia)) as Hie.
  pose proof (item_data_bounds (off b)) as Hid.
  rewrite (u32_small (nLen a)), (s32_small (nLen a)) by lia.
  destruct (write_step b m (le32 (nLen a)) 4 _ Hr eq_refl ltac:(lia)) as [E1 W1].
  destruct (sbuf_write b m (le32 (nLen a)) 4) as [b1 m1]. cbn [fst snd] in E1, W1. subst b1.
  unfold item_end in *. case_ltb.
  - destruct (IH (at_off b (off b + 4)) m1 Hok) as [-> F].
    { eapply room_at_off; [done|lia..]. }
    rewrite at_off_at_off, off_at_off. split; [done|]. intros x Hx.
    rewrite F, W1 by (unfold in_window, at_off, off in *; cbn in *; lia).
    rewrite decide_False; [done|]. unfold in_window in *. lia.
  - rewrite (align_step b (nLen a) (items_bound (lens pra))) by (done || lia).
    destruct (write_step (at_off b (item_data (off b))) m1 (load m1 (pv a) (nLen a)) (nLen a)
                (nLen a + items_bound (lens pra))) as [E2 W2].
    { eapply room_at_off; [done|lia..]. }
    { rewrite length_load. lia. }
    { lia. }
    destruct (sbuf_write (at_off _ _) m1 _ _) as [b2 m2]. cbn [fst snd] in E2, W2. subst b2.
    rewrite at_off_at_off, off_at_off in *.
    destruct (IH (at_off b (item_data (off b) + nLen a)) m2 Hok) as [-> F].
    { eapply room_at_off; [done|lia..]. }
    rewrite at_off_at_off, off_at_off. split; [done|]. intros x Hx.
    rewrite F, W2 by (unfold in_window, at_off, off in *; cbn in *; lia).
    rewrite decide_False by (unfold in_window, at_off, off in *; cbn in *; lia).
    rewrite W1, decide_False; [done|]. unfold in_window in *. lia.
Qed.

(** ** Unpacking what was packed *)

(** The payload lies outside the window that is written. *)
Definition payload_out (b : sbuf) (a : remote_arg) : Prop :=
  pv a + nLen a <= buf b \/ bufEnd b <= pv a.

(** What the receiver gets for an argument [a] of a sender whose memory was [m]. *)
Definition received (b : sbuf) (m m' : memory) (a a' : remote_arg) : Prop :=
  nLen a' = nLen a /\
  (nLen a <> 0 ->
   buf b <= pv a' /\ pv a' + nLen a' <= bufEnd b /\
   load m' (pv a') (nLen a') = load m (pv a) (nLen a)).

(** A non-empty item, unfolded on both sides. *)
Lemma unpack_item b m len a pra n :
  sbuf_room b (12 + n) -> buf b <= bufCur b -> bufCur b + 4 <= bufEnd b -> 0 <= n ->
  let l := of_le32 (load m (bufCur b) 4) in
  0 <= l <= n -> bufStart b + item_end (off b) l <= bufEnd b ->
  unpack_in_bufs b m len (a :: pra) =
    let '(b', pra') := unpack_in_bufs (at_off b (item_end (off b) l)) m l pra in
    (b', {| pv := if l =? 0 then pv a else bufStart b + item_data (off b); nLen := l |} :: pra').
Proof.
  intros Hr Hlo Hhi Hn l Hl He. cbn [unpack_in_bufs].
  rewrite read_word_step by (done || (eapply sbuf_room_weaken; [done|lia])).
  change (of_le32 (load m (bufCur b) 4)) with l.
  pose proof (item_data_bounds (off b)) as Hid. unfold item_end in *.
  destruct (Z.eqb_spec l 0); [by destruct (unpack_in_bufs _ _ _ _)|].
  assert (Hr' : sbuf_room b (12 + l + (n - l))) by (replace (12 + l + (n - l)) with (12 + n) by lia; done).
  rewrite (align_step b l (n - l)) by (done || lia).
  assert (Hr2 : sbuf_room (at_off b (item_data (off b))) l).
  { eapply room_at_off; [exact Hr|lia..]. }
  assert (l < 2147483648).
  { pose proof Hr as Hr0. unfold off in *. room Hr0. lia. }
  rewrite (s32_small l) by lia.
  rewrite (sbuf_left_small _ _ Hr2), (sbuf_advance_small _ _ _ Hr2) by lia.
  cbn [bufEnd bufCur at_off set_cur sbuf_head].
  destruct (Z.leb_spec l (bufEnd b - (bufStart b + item_data (off b)))); [|lia].
  replace (set_cur (at_off b (item_data (off b))) (bufStart b + item_data (off b) + l))
    with (at_off b (item_data (off b) + l)); [by destruct (unpack_in_bufs _ _ _ _)|].
  unfold at_off, set_cur. cbn. f_equal. lia.
Qed.

Lemma received_frame b m0 m m' a a' :
  payload_out b a -> (forall x, ~ in_window b x -> rd m x = rd m0 x) ->
  received b m m' a a' -> received b m0 m' a a'.
Proof.
  intros Hp Hf [Hl H]. split; [done|]. intros Hn. destruct (H Hn) as (?&?&E).
  split_and!; try done. rewrite E. apply load_agree. intros x Hx. apply Hf.
  unfold payload_out, in_window in *. lia.
Qed.

(** The part of the memory behind one packed item. *)
Lemma pack_item b m a pra :
  lens_ok (a :: pra) -> sbuf_room b (items_bound (lens (a :: pra))) ->
  buf b <= bufCur b -> bufStart b + item_end (off b) (nLen a) <= bufEnd b -> payload_out b a ->
  exists m2,
    (pack_in_bufs b m (a :: pra)).2 =
      (pack_in_bufs (at_off b (item_end (off b) (nLen a))) m2 pra).2 /\
    (forall x, ~ in_window b x -> rd m2 x = rd m x) /\
    of_le32 (load m2 (bufCur b) 4) = nLen a /\
    (nLen a <> 0 -> load m2 (bufStart b + item_data (off b)) (nLen a) = load m (pv a) (nLen a)).
Proof.
  intros Hok Hr Hlo He Hp. apply lens_ok_cons in Hok as [Ha Hok].
  pose proof (items_bound_nonneg _ (lens_nonneg _ Hok)) as Hnn.
  change (lens (a :: pra)) with (nLen a :: lens pra) in Hr. rewrite items_bound_cons in Hr.
  pose proof (item_data_bounds (off b)) as Hid. cbn [pack_in_bufs].
  rewrite (u32_small (nLen a)), (s32_small (nLen a)) by lia.
  destruct (write_step b m (le32 (nLen a)) 4 _ Hr eq_refl ltac:(lia)) as [E1 W1].
  destruct (sbuf_write b m (le32 (nLen a)) 4) as [b1 m1]. cbn [fst snd] in E1, W1. subst b1.
  pose proof (item_end_bounds (off b) (nLen a) ltac:(lia)) as Hie.
  assert (Hc : bufCur b = bufStart b + off b) by (unfold off; lia).
  assert (Hw : load m1 (bufCur b) 4 = le32 (nLen a)).
  { apply bytes_eq; [done|]. intros i Hi. rewrite length_load in Hi.
    rewrite nth_load, W1, decide_True by (unfold in_window; lia). f_equal. lia. }
  assert (F1 : forall x, ~ in_window b x -> rd m1 x = rd m x).
  { intros x Hx. rewrite W1, decide_False by tauto. done. }
  unfold item_end in *. case_ltb.
  - exists m1. split_and!; [done..| |lia]. rewrite Hw. apply of_le32_le32. lia.
  - rewrite (align_step b (nLen a) (items_bound (lens pra))) by (done || lia).
    destruct (write_step (at_off b (item_data (off b))) m1 (load m1 (pv a) (nLen a)) (nLen a)
                (nLen a + items_bound (lens pra))) as [E2 W2].
    { eapply room_at_off; [done|lia..]. }
    { rewrite length_load. lia. }
    { lia. }
    destruct (sbuf_write (at_off _ _) m1 _ _) as [b2 m2]. cbn [fst snd] in E2, W2. subst b2.
    rewrite at_off_at_off, off_at_off in *. exists m2.
    assert (W2' : forall x, bufCur b <= x < bufStart b + item_data (off b) -> rd m2 x = rd m1 x).
    { intros x Hx. rewrite W2, decide_False; [done|]. cbn. lia. }
    split_and!; [done| | |].
    + intros x Hx. rewrite W2, decide_False by (intros [? Hx']; apply Hx; exact Hx'). by apply F1.
    + rewrite <- (of_le32_le32 (nLen a)) by lia. rewrite <- Hw. f_equal. apply load_agree.
      intros x Hx. apply W2'. lia.
    + intros _. rewrite <- (load_agree m1 m (pv a)).
      2:{ intros x Hx. apply F1. unfold payload_out, in_window in *. lia. }
      apply bytes_eq; [by rewrite !length_load|]. intros i Hi. rewrite length_load in Hi.
      rewrite nth_load by lia. rewrite W2, decide_True by (unfold in_window; cbn; lia).
      f_equal. cbn. lia.
Qed.

Lemma unpack_pack pra : forall b m pra0 len,
  lens_ok pra -> sbuf_room b (items_bound (lens pra)) ->
  buf b <= bufCur b -> bufStart b + bufs_end (off b) (lens pra) <= bufEnd b ->
  Forall (payload_out b) pra -> length pra0 = length pra ->
  let m' := (pack_in_bufs b m pra).2 in
  (unpack_in_bufs b m' len pra0).1 = (pack_in_bufs b m pra).1 /\
  Forall2 (received b m m') pra (unpack_in_bufs b m' len pra0).2.
Proof.
  induction pra as [|a pra IH]; intros b m pra0 len Hok Hr Hlo He Hp Hl m'; subst m'.
  { destruct pra0; [|done]. cbn. done. }
  destruct pra0 as [|a0 pra0]; [done|]. injection Hl as Hl.
  pose proof Hok as Hok0. apply lens_ok_cons in Hok0 as [Ha Hok'].
  apply Forall_cons in Hp as [Hpa Hp].
  pose proof (items_bound_nonneg _ (lens_nonneg _ Hok')) as Hnn.
  change (lens (a :: pra)) with (nLen a :: lens pra) in *.
  rewrite bufs_end_cons in He.
  pose proof (item_end_bounds (off b) (nLen a) ltac:(lia)) as Hie.
  pose proof (item_data_bounds (off b)) as Hid.
  pose proof (bufs_end_ge (item_end (off b) (nLen a)) _ (lens_nonneg _ Hok')) as Hge.
  destruct (pack_item b m a pra) as (m2 & E & F & Hw & Hd); try done; [lia|].
  rewrite (proj1 (pack_in_bufs_spec (a :: pra) b m Hok Hr)).
  change (lens (a :: pra)) with (nLen a :: lens pra). rewrite bufs_end_cons, E.
  pose proof Hr as Hr0. rewrite items_bound_cons in Hr0.
  assert (Hr' : sbuf_room (at_off b (item_end (off b) (nLen a))) (items_bound (lens pra))).
  { eapply room_at_off; [exact Hr0|lia..]. }
  set (b' := at_off b (item_end (off b) (nLen a))) in *.
  assert (Ho' : off b' = item_end (off b) (nLen a)) by apply off_at_off.
  assert (Hc' : bufCur b' = bufStart b + item_end (off b) (nLen a)) by done.
  assert (Hc : bufCur b = bufStart b + off b) by (unfold off; lia).
  destruct (IH b' m2 pra0 (nLen a) Hok' Hr') as [E1 E2];
    [change (buf b') with (buf b); lia | rewrite Ho'; exact He | exact Hp | done |].
  destruct (pack_in_bufs_spec pra b' m2 Hok' Hr') as [Ec F'].
  set (m' := (pack_in_bufs b' m2 pra).2) in *.
  assert (Hw' : of_le32 (load m' (bufCur b) 4) = nLen a).
  { rewrite <- Hw. f_equal. apply load_agree. intros x Hx. apply F'. lia. }
  rewrite (unpack_item b m' len a0 pra0 (nLen a + items_bound (lens pra))); cbv zeta;
    rewrite ?Hw'; try lia;
    [| by replace (12 + (nLen a + items_bound (lens pra))) with (12 + nLen a + items_bound (lens pra)) by lia].
  fold b'. destruct (unpack_in_bufs b' m' (nLen a) pra0) as [b'' pra1]. cbn [fst snd] in E1, E2 |- *.
  split; [rewrite E1, Ec, Ho'; done|]. constructor.
  - split; [done|]. cbn. intros Hn. destruct (Z.eqb_spec (nLen a) 0); [done|].
    unfold item_end in *. rewrite (proj2 (Z.eqb_neq _ _) n) in *.
    split_and!; [lia|lia|]. rewrite <- Hd by done. apply load_agree. intros x Hx. apply F'. lia.
  - clearbody m'. clear - E2 F Hp. induction E2 as [|x y l l' H E2 IH]; [done|].
    apply Forall_cons in Hp as [Hx Hp]. constructor; [|by apply IH].
    eapply received_frame; [exact Hx|exact F|exact H].
Qed.

(** ** Measuring and mapping the output buffers *)

(** The room of the initial buffer of the code. *)
Lemma room_init data dataLen n :
  0 <= data -> 0 <= dataLen < 2147483648 -> data + dataLen < 2 ^ 62 -> 0 <= n < 2147483648 ->
  sbuf_room (sbuf_init 0 data dataLen) n.
Proof.
  change (2 ^ 62) with 4611686018427387904. intros.
  constructor; unfold sbuf_init; cbn [buf bufEnd bufStart bufCur]; int_norm; lia.
Qed.

Lemma off_init data dataLen : off (sbuf_init 0 data dataLen) = 0.
Proof. unfold off, sbuf_init. cbn. lia. Qed.

(** What [pack_out_bufs] makes of an argument placed at offset [o]. *)
Definition mapped_at (b : sbuf) (o : Z) (a a' : remote_arg) : Prop :=
  nLen a' = nLen a /\
  (nLen a <> 0 -> bufStart b + item_end o (nLen a) <= bufEnd b -> pv a' = bufStart b + item_data o) /\
  (nLen a = 0 \/ bufEnd b < bufStart b + item_end o (nLen a) -> pv a' = pv a).

Inductive mapped (b : sbuf) : Z -> list remote_arg -> list remote_arg -> Prop :=
  | mapped_nil o : mapped b o [] []
  | mapped_cons o a a' pra pra' :
      mapped_at b o a a' -> mapped b (item_end o (nLen a)) pra pra' ->
      mapped b o (a :: pra) (a' :: pra').

Lemma mapped_at_off b p o l l' : mapped (at_off b p) o l l' -> mapped b o l l'.
Proof. intros H. induction H; constructor; done. Qed.

Lemma pack_out_bufs_spec pra : forall b m,
  lens_ok pra -> sbuf_room b (items_bound (lens pra)) ->
  let r := pack_out_bufs b m pra in
  r.1.1 = at_off b (bufs_end (off b) (lens pra)) /\
  (forall x, x < bufCur b \/ ~ in_window b x -> rd r.1.2 x = rd m x) /\
  mapped b (off b) pra r.2.
Proof.
  induction pra as [|a pra IH]; intros b m Hok Hr r; subst r.
  { cbn. rewrite at_off_off. split_and!; [done..|constructor]. }
  apply lens_ok_cons in Hok as [Ha Hok].
  pose proof (items_bound_nonneg _ (lens_nonneg _ Hok)) as Hnn.
  change (lens (a :: pra)) with (nLen a :: lens pra) in *.
  rewrite items_bound_cons in Hr. rewrite bufs_end_cons. cbn [pack_out_bufs].
  pose proof (item_end_bounds (off b) (nLen a) ltac:(lia)) as Hie.
  pose proof (item_data_bounds (off b)) as Hid.
  rewrite (u32_small (nLen a)), (s32_small (nLen a)) by lia.
  destruct (write_step b m (le32 (nLen a)) 4 _ Hr eq_refl ltac:(lia)) as [E1 W1].
  destruct (sbuf_write b m (le32 (nLen a)) 4) as [b1 m1]. cbn [fst snd] in E1, W1. subst b1.
  assert (Hn : sbuf_room (at_off b (item_end (off b) (nLen a))) (items_bound (lens pra))).
  { eapply room_at_off; [exact Hr|lia..]. }
  specialize (IH (at_off b (item_end (off b) (nLen a))) m1 Hok Hn). cbv zeta in IH.
  rewrite off_at_off, at_off_at_off in IH.
  assert (F : forall m2, (forall x, x < bufCur (at_off b (item_end (off b) (nLen a))) \/ ~ in_window b x ->
      rd m2 x = rd m1 x) -> forall x, x < bufCur b \/ ~ in_window b x -> rd m2 x = rd m x).
  { intros m2 H x Hx. rewrite H, W1; [rewrite decide_False; [done|]|].
    - unfold in_window in *. lia.
    - unfold in_window, at_off, off in *. cbn in *. lia. }
  unfold item_end in *. destruct (Z.eqb_spec (nLen a) 0) as [Hz|Hz].
  - destruct (pack_out_bufs _ m1 pra) as [[b2 m2] pra2]. cbn [fst snd] in *.
    destruct IH as (E & F' & Hm). split_and!; [done|by apply F|].
    constructor; [split_and!; [done|lia|done]|]. unfold item_end.
    rewrite (proj2 (Z.eqb_eq _ _) Hz). by eapply mapped_at_off.
  - rewrite (align_step b (nLen a) (items_bound (lens pra))) by (done || lia).
    assert (Hr2 : sbuf_room (at_off b (item_data (off b))) (nLen a)).
    { eapply room_at_off; [exact Hr|lia..]. }
    rewrite (sbuf_left_small _ _ Hr2), (sbuf_advance_small _ _ _ Hr2) by lia.
    cbn [bufEnd bufCur at_off set_cur sbuf_head].
    replace (set_cur (at_off b (item_data (off b))) (bufStart b + item_data (off b) + nLen a))
      with (at_off b (item_data (off b) + nLen a)).
    2:{ unfold at_off, set_cur. cbn. f_equal. lia. }
    destruct (pack_out_bufs _ m1 pra) as [[b2 m2] pra2]. cbn [fst snd] in *.
    destruct IH as (E & F' & Hm). split_and!; [done|by apply F|].
    constructor; [|unfold item_end; rewrite (proj2 (Z.eqb_neq _ _) Hz); by eapply mapped_at_off].
    unfold mapped_at, item_end. rewrite (proj2 (Z.eqb_neq _ _) Hz). cbn.
    split_and!; [done| |]; intros; case_ltb; lia || done.
Qed.

(** When everything fits, every non-empty argument is mapped into the window,
    in order and without overlap. *)
Lemma mapped_fits b o pra pra' :
  mapped b o pra pra' -> lens_ok pra -> bufStart b + bufs_end o (lens pra) <= bufEnd b ->
  lens pra' = lens pra /\
  Forall (fun a' => nLen a' <> 0 -> bufStart b + o + 4 <= pv a' /\ pv a' + nLen a' <= bufEnd b) pra' /\
  StronglySorted (fun a1 a2 => nLen a1 <> 0 -> nLen a2 <> 0 -> pv a1 + nLen a1 <= pv a2) pra'.
Proof.
  intros Hm. induction Hm as [o|o a a' pra pra' Ha Hm IH]; intros Hok He.
  { split_and!; constructor. }
  apply lens_ok_cons in Hok as [Hla Hok].
  change (lens (a :: pra)) with (nLen a :: lens pra) in He. rewrite bufs_end_cons in He.
  destruct (IH Hok He) as (El & Hf & Hs). destruct Ha as (Hl & Hin & _).
  pose proof (bufs_end_ge (item_end o (nLen a)) _ (lens_nonneg _ Hok)) as Hge.
  pose proof (item_end_bounds o (nLen a) ltac:(lia)) as Hie.
  pose proof (item_data_bounds o) as Hid.
  assert (Hpv : nLen a' <> 0 -> pv a' = bufStart b + item_data o /\
                 item_end o (nLen a) = item_data o + nLen a).
  { rewrite Hl. intros Hn. split; [apply Hin; lia|]. unfold item_end. by rewrite (proj2 (Z.eqb_neq _ _) Hn). }
  split_and!.
  - unfold lens in *. cbn. by rewrite El, Hl.
  - constructor; [intros Hn; destruct (Hpv Hn); lia|].
    eapply Forall_impl; [exact Hf|]. cbn. intros x Hx Hn. specialize (Hx Hn). lia.
  - constructor; [done|]. eapply Forall_impl; [exact Hf|]. cbn. intros x Hx Hn Hn'.
    specialize (Hx Hn'). destruct (Hpv Hn). lia.
Qed.

Lemma needed_at_off b o n : sbuf_room b n -> off b <= o <= off b + n -> sbuf_needed (at_off b o) = o.
Proof.
  intros Hr Ho. rewrite (sbuf_needed_small _ 0); [apply off_at_off|].
  eapply room_at_off; [exact Hr|lia..].
Qed.

Lemma bufs_end_le o ls : Forall (fun l => 0 <= l) ls -> bufs_end o ls <= o + items_bound ls.
Proof.
  intros H. revert o. induction H as [|l ls Hl H IH]; intros o; [cbn; lia|].
  rewrite bufs_end_cons, items_bound_cons. specialize (IH (item_end o l)).
  pose proof (item_end_bounds o l Hl). lia.
Qed.

Lemma out_needed data dataLen m pra :
  0 <= data -> 0 <= dataLen < 2147483648 -> data + dataLen < 2 ^ 62 ->
  lens_ok pra -> items_bound (lens pra) < 2147483648 ->
  sbuf_needed (pack_out_bufs (sbuf_init 0 data dataLen) m pra).1.1 = bufs_end 0 (lens pra).
Proof.
  intros Hd Hl He Hok Hb. pose proof (lens_nonneg _ Hok) as Hnn.
  assert (Hr : sbuf_room (sbuf_init 0 data dataLen) (items_bound (lens pra))).
  { apply room_init; try done. pose proof (items_bound_nonneg _ Hnn). lia. }
  destruct (pack_out_bufs_spec pra _ m Hok Hr) as (-> & _ & _).
  rewrite off_init. apply (needed_at_off _ _ _ Hr). rewrite off_init.
  pose proof (bufs_end_ge 0 _ Hnn). pose proof (bufs_end_le 0 _ Hnn). lia.
Qed.

(** * Properties *)

(** C1: an argument list packed by [pack_in_bufs] into a buffer that is large enough
    is delivered by [unpack_in_bufs], whatever the receiver's array and the stale
    local [len] held: the same lengths, and every non-empty payload inside the
    buffer with the sender's bytes. *)
Theorem pack_unpack_in_bufs data dataLen m pra pra0 len :
  0 <= data -> 0 <= dataLen < 2147483648 -> data + dataLen < 2 ^ 62 ->
  lens_ok pra -> items_bound (lens pra) < 2147483648 ->
  bufs_end 0 (lens pra) <= dataLen ->
  Forall (payload_out (sbuf_init 0 data dataLen)) pra -> length pra0 = length pra ->
  let b := sbuf_init 0 data dataLen in
  let m' := (pack_in_bufs b m pra).2 in
  Forall2 (received b m m') pra (unpack_in_bufs b m' len pra0).2.
Proof.
  intros Hd Hl He Hok Hb Hfit Hp Hlen b m'. pose proof (lens_nonneg _ Hok) as Hnn.
  assert (Hr : sbuf_room b (items_bound (lens pra))).
  { apply room_init; try done. pose proof (items_bound_nonneg _ Hnn). lia. }
  change (2 ^ 62) with 4611686018427387904 in He.
  apply unpack_pack; try done.
  - unfold b, sbuf_init. cbn. int_norm. lia.
  - unfold b. rewrite off_init. unfold sbuf_init. cbn [bufStart bufEnd]. int_norm. lia.
Qed.

Definition ex_pra : list remote_arg := [RemoteArg 100 5; RemoteArg 0 0; RemoteArg 200 3].

Lemma pack_unpack_in_bufs_witness :
  let b := sbuf_init 0 1000 64 in
  let m' := (pack_in_bufs b ∅ ex_pra).2 in
  Forall2 (received b ∅ m') ex_pra (unpack_in_bufs b m' 7 ex_pra).2.
Proof.
  apply (pack_unpack_in_bufs 1000 64 ∅ ex_pra ex_pra 7); try (cbn; lia); try done.
  - repeat constructor; cbn; lia.
  - repeat constructor; unfold payload_out; vm_compute; intuition congruence.
Defined.

(** the listener measures its reply with [pack_out_bufs] over the empty buffer
    [sbuf_init(&buf, 0, 0, 0)] and then maps it: a buffer of at least the measured
    length receives every argument, the non-empty ones inside the buffer, in
    order and pairwise disjoint, and the second pass needs exactly what the
    first one measured; only bytes of the buffer are written. *)
Theorem out_bufs_measure_then_map data dataLen m m0 pra :
  0 <= data -> 0 <= dataLen < 2147483648 -> data + dataLen < 2 ^ 62 ->
  lens_ok pra -> items_bound (lens pra) < 2147483648 ->
  let measured := sbuf_needed (pack_out_bufs (sbuf_init 0 0 0) m0 pra).1.1 in
  measured <= dataLen ->
  let r := pack_out_bufs (sbuf_init 0 data dataLen) m pra in
  sbuf_needed r.1.1 = measured /\
  lens r.2 = lens pra /\
  Forall (fun a' => nLen a' <> 0 -> data <= pv a' /\ pv a' + nLen a' <= data + dataLen) r.2 /\
  StronglySorted (fun a1 a2 => nLen a1 <> 0 -> nLen a2 <> 0 -> pv a1 + nLen a1 <= pv a2) r.2 /\
  (forall x, ~ (data <= x < data + dataLen) -> rd r.1.2 x = rd m x).
Proof.
  intros Hd Hl He Hok Hb measured Hm r. pose proof (lens_nonneg _ Hok) as Hnn.
  pose proof (items_bound_nonneg _ Hnn) as Hib. subst measured.
  rewrite (out_needed 0 0) in * by (done || lia).
  split; [by apply out_needed|]. subst r.
  assert (Hr : sbuf_room (sbuf_init 0 data dataLen) (items_bound (lens pra))) by (apply room_init; done).
  change (2 ^ 62) with 4611686018427387904 in He.
  destruct (pack_out_bufs_spec pra _ m Hok Hr) as (_ & F & Hmap). rewrite off_init in Hmap.
  assert (Hse : bufStart (sbuf_init 0 data dataLen) = data /\ bufEnd (sbuf_init 0 data dataLen) = data + dataLen
                /\ buf (sbuf_init 0 data dataLen) = data).
  { unfold sbuf_init. cbn [bufStart bufEnd buf]. int_norm. lia. }
  destruct Hse as (Hs & Hee & Hbb).
  destruct (mapped_fits _ _ _ _ Hmap Hok) as (E1 & E2 & E3); [rewrite Hs, Hee; lia|].
  rewrite Hs, Hee in E2. split_and!; [done| |done|].
  - eapply Forall_impl; [exact E2|]. cbn. intros x Hx Hn. specialize (Hx Hn). lia.
  - intros x Hx. apply F. right. unfold in_window. rewrite Hbb, Hee. lia.
Qed.

Lemma out_bufs_measure_then_map_witness :
  let r := pack_out_bufs (sbuf_init 0 4096 40) ∅ ex_pra in
  sbuf_needed r.1.1 = 27 /\
  lens r.2 = lens ex_pra /\
  Forall (fun a' => nLen a' <> 0 -> 4096 <= pv a' /\ pv a' + nLen a' <= 4096 + 40) r.2 /\
  StronglySorted (fun a1 a2 => nLen a1 <> 0 -> nLen a2 <> 0 -> pv a1 + nLen a1 <= pv a2) r.2 /\
  (forall x, ~ (4096 <= x < 4096 + 40) -> rd r.1.2 x = rd ∅ x).
Proof.
  apply (out_bufs_measure_then_map 4096 40 ∅ ∅ ex_pra); try (cbn; lia).
  - repeat constructor; cbn; lia.
  - vm_compute. congruence.
Defined.

(** the receiver's test [(int)nLen <= sbuf_left(buf)] is signed: a length word
    of at least 2^31 passes it for every buffer, so the argument points into the
    buffer and claims more bytes than the buffer holds. *)
Theorem unpack_in_bufs_oversized data dataLen m len a l :
  0 <= data -> 8 <= dataLen < 2147483648 -> data + dataLen < 2 ^ 62 ->
  of_le32 (load m data 4) = l -> 2147483648 <= l < 4294967296 ->
  (unpack_in_bufs (sbuf_init 0 data dataLen) m len [a]).2 = [RemoteArg (data + 8) l] /\
  data + dataLen < (data + 8) + l.
Proof.
  intros Hd Hl He Hw Hlr. change (2 ^ 62) with 4611686018427387904 in He.
  split; [|lia].
  assert (Hr : sbuf_room (sbuf_init 0 data dataLen) 12) by (apply room_init; (done || lia)).
  pose proof Hr as Hr4. apply (sbuf_room_weaken _ 12 4) in Hr4; [|lia].
  assert (Hse : bufStart (sbuf_init 0 data dataLen) = data /\ bufEnd (sbuf_init 0 data dataLen) = data + dataLen
                /\ buf (sbuf_init 0 data dataLen) = data /\ bufCur (sbuf_init 0 data dataLen) = data).
  { unfold sbuf_init. cbn [bufStart bufEnd buf bufCur]. int_norm. lia. }
  destruct Hse as (Hs & Hee & Hbb & Hcc).
  cbn [unpack_in_bufs]. rewrite read_word_step by (done || lia). rewrite Hcc, Hw.
  rewrite (proj2 (Z.eqb_neq l 0)) by lia. rewrite off_init.
  replace (0 + 4) with (off (sbuf_init 0 data dataLen) + 4) by (rewrite off_init; lia).
  rewrite (align_step _ 0 0) by (done || lia). rewrite off_init.
  change (item_data 0) with 8.
  assert (Hr8 : sbuf_room (at_off (sbuf_init 0 data dataLen) 8) 0).
  { eapply room_at_off; [exact Hr|rewrite ?off_init; lia..]. }
  rewrite (sbuf_left_small _ _ Hr8). unfold at_off. cbn [bufEnd bufCur set_cur sbuf_head].
  rewrite Hs, Hee. destruct (Z.leb_spec (s32 l) (data + dataLen - (data + 8))) as [_|Hc].
  - done.
  - unfold s32 in Hc. Z.to_euclidean_division_equations. lia.
Qed.

Lemma unpack_in_bufs_oversized_witness :
  (unpack_in_bufs (sbuf_init 0 4096 16) (store ∅ 4096 (le32 4294967040)) 0 [RemoteArg 0 0]).2
    = [RemoteArg 4104 4294967040] /\ 4096 + 16 < (4096 + 8) + 4294967040.
Proof. apply (unpack_in_bufs_oversized 4096 16); (lia || reflexivity). Defined.
