(* ===== verification/SbufParser.v ===== *)
(** The recursive-descent parser combinators of [inc/sbuf_parser.h] and the URI
    parser of [src/mod_table.c] built from them.

    A C parser, an [int] function of a [struct sbuf] pointer, reads characters from memory and moves the
    cursor: here [memory -> sbuf -> bool * sbuf]. *)
From S2P Require Import Prelude Errors Sbuf.

Definition parser : Type := memory -> sbuf -> bool * sbuf.

Definition sbuf_parser_init (data dataLen : Z) : sbuf := sbuf_init 0 data dataLen.

Definition sbuf_cur (b : sbuf) : Z := sbuf_head b.

(** [None] when the cursor is outside the window. *)
Definition sbuf_peek (m : memory) (b : sbuf) : option Z :=
  if sbuf_valid b then Some (rd m (sbuf_cur b)) else None.

Definition sbuf_end (b : sbuf) : bool := sbuf_left b =? 0.

(** The loop over the NUL-terminated [chars]. *)
Definition mem_chars (c : Z) (chars : list Z) : bool := existsb (Z.eqb c) chars.

Definition sbuf_chars (chars : list Z) : parser := fun m b =>
  match sbuf_peek m b with
  | None => (false, b)
  | Some c => if mem_chars c chars then (true, sbuf_advance b 1) else (false, b)
  end.

Definition sbuf_notchars (chars : list Z) : parser := fun m b =>
  match sbuf_peek m b with
  | None => (false, b)
  | Some c => if mem_chars c chars then (false, b) else (true, sbuf_advance b 1)
  end.

Definition sbuf_char (t : Z) : parser := sbuf_chars [t].
Definition sbuf_notchar (t : Z) : parser := sbuf_notchars [t].
Definition sbuf_any : parser := sbuf_notchars [].

(** Pairs of characters, inclusive. *)
Fixpoint in_ranges (c : Z) (chars : list Z) : bool :=
  match chars with
  | lo :: hi :: rest => ((lo <=? c) && (c <=? hi)) || in_ranges c rest
  | _ => false
  end.

Definition sbuf_range (chars : list Z) : parser := fun m b =>
  match sbuf_peek m b with
  | None => (false, b)
  | Some c => if in_ranges c chars then (true, sbuf_advance b 1) else (false, b)
  end.

(** Consumes as it matches: a mismatch leaves the matched prefix consumed. *)
Fixpoint sbuf_string (s : list Z) : parser := fun m b =>
  match s with
  | [] => (true, b)
  | c :: s => match sbuf_char c m b with
              | (true, b) => sbuf_string s m b
              | (false, b) => (false, b)
              end
  end.

(** [while (consume(buf)) {;}], at most [fuel] times. *)
Fixpoint many_loop (fuel : nat) (consume : parser) (m : memory) (b : sbuf) : sbuf :=
  match fuel with
  | O => b
  | S fuel => match consume m b with
              | (true, b) => many_loop fuel consume m b
              | (false, b) => b
              end
  end.

(** One more iteration than there are characters left. *)
Definition loop_fuel (b : sbuf) : nat := S (Z.to_nat (bufEnd b - bufCur b)).

Definition sbuf_many (consume : parser) : parser := fun m b =>
  if sbuf_valid b then (true, many_loop (loop_fuel b) consume m b) else (false, b).

Definition sbuf_many1 (consume : parser) : parser := fun m b =>
  match consume m b with
  | (false, b) => (false, b)
  | (true, b) => (true, (sbuf_many consume m b).2)
  end.

Fixpoint until_loop (fuel : nat) (consume stop : parser) (m : memory) (b : sbuf) : bool * sbuf :=
  match fuel with
  | O => (false, b)
  | S fuel => match stop m b with
              | (true, b) => (true, b)
              | (false, b) => match consume m b with
                              | (false, b) => (false, b)
                              | (true, b) => until_loop fuel consume stop m b
                              end
              end
  end.

Definition sbuf_until (consume stop : parser) : parser := fun m b =>
  until_loop (loop_fuel b) consume stop m b.

Definition sbuf_try (p : parser) : parser := fun m b =>
  let '(ok, tryp) := p m (sbuf_parser_init (sbuf_cur b) (sbuf_left b)) in
  if ok then (true, sbuf_advance b (s32 (sbuf_cur tryp - sbuf_cur b))) else (false, b).

(** ** What is left of the input *)

(** [at_input m b s]: the cursor stands in front of the characters [s]. *)
Record at_input (m : memory) (b : sbuf) (s : list Z) : Prop := {
  ai_buf : 0 <= buf b <= bufCur b;
  ai_cur : bufCur b + Z.of_nat (length s) = bufEnd b;
  ai_len : Z.of_nat (length s) < 2147483648;
  ai_end : bufEnd b < 2 ^ 63;
  ai_rest : load m (bufCur b) (Z.of_nat (length s)) = s
}.

Ltac at_input H := let f := fresh in pose proof H as f; destruct f;
  change (2 ^ 63) with 9223372036854775808 in *.

Lemma at_input_advance m b s1 s2 :
  at_input m b (s1 ++ s2) ->
  sbuf_advance b (Z.of_nat (length s1)) = set_cur b (bufCur b + Z.of_nat (length s1)) /\
  at_input m (sbuf_advance b (Z.of_nat (length s1))) s2.
Proof.
  intros H. at_input H. rewrite length_app in *.
  assert (E : sbuf_advance b (Z.of_nat (length s1)) = set_cur b (bufCur b + Z.of_nat (length s1))).
  { unfold sbuf_advance. by int_norm. }
  split; [done|]. rewrite E. constructor; cbn; try lia.
  rewrite Nat2Z.inj_add, load_app in ai_rest0 by lia.
  apply app_inj_1 in ai_rest0 as [_ E2]; [done|]. rewrite length_load. lia.
Qed.

Lemma at_input_cons m b c s :
  at_input m b (c :: s) -> sbuf_peek m b = Some c /\ at_input m (sbuf_advance b 1) s.
Proof.
  intros H. split; [|apply (at_input_advance m b [c] s H)].
  at_input H. cbn [length] in *. unfold sbuf_peek, sbuf_valid.
  rewrite (proj2 (Z.leb_le _ _)), (proj2 (Z.ltb_lt _ _)) by lia. cbn. f_equal.
  rewrite load_cons in ai_rest0 by lia. by injection ai_rest0.
Qed.

Lemma at_input_nil m b : at_input m b [] -> sbuf_peek m b = None.
Proof.
  intros H. at_input H. cbn in *. unfold sbuf_peek, sbuf_valid.
  rewrite (proj2 (Z.ltb_ge _ _)) by lia. by rewrite andb_false_r.
Qed.

Lemma at_input_end m b s : at_input m b s -> sbuf_end b = bool_decide (s = []).
Proof.
  intros H. at_input H. unfold sbuf_end, sbuf_left. int_norm.
  destruct s; cbn [length] in *; case_bool_decide; case_ltb; try done; lia.
Qed.

Lemma at_input_valid m b s : at_input m b s -> sbuf_valid b = negb (bool_decide (s = [])).
Proof.
  intros H. at_input H. unfold sbuf_valid. rewrite (proj2 (Z.leb_le _ _)) by lia.
  destruct s; cbn [length] in *; case_bool_decide; case_ltb; try done; lia.
Qed.

Lemma at_input_init m data s :
  0 <= data -> Z.of_nat (length s) < 2147483648 -> data + Z.of_nat (length s) < 2 ^ 63 ->
  load m data (Z.of_nat (length s)) = s ->
  at_input m (sbuf_parser_init data (Z.of_nat (length s))) s.
Proof.
  change (2 ^ 63) with 9223372036854775808. intros.
  constructor; unfold sbuf_parser_init, sbuf_init; cbn [buf bufEnd bufCur]; int_norm; try lia.
  by replace (data - 0) with data by lia.
Qed.

(** ** Parsers of one character *)
Class CharParser (p : parser) (ok : Z -> bool) : Prop :=
  char_parser : forall m b s, at_input m b s ->
    p m b = match s with
            | [] => (false, b)
            | c :: _ => if ok c then (true, sbuf_advance b 1) else (false, b)
            end.

#[export] Instance sbuf_chars_char l : CharParser (sbuf_chars l) (fun c => mem_chars c l).
Proof.
  intros m b [|c s] H; unfold sbuf_chars; [by rewrite (at_input_nil _ _ H)|].
  by rewrite (proj1 (at_input_cons _ _ _ _ H)).
Qed.
#[export] Instance sbuf_notchars_char l : CharParser (sbuf_notchars l) (fun c => negb (mem_chars c l)).
Proof.
  intros m b [|c s] H; unfold sbuf_notchars; [by rewrite (at_input_nil _ _ H)|].
  rewrite (proj1 (at_input_cons _ _ _ _ H)). by destruct (mem_chars c l).
Qed.
#[export] Instance sbuf_range_char l : CharParser (sbuf_range l) (fun c => in_ranges c l).
Proof.
  intros m b [|c s] H; unfold sbuf_range; [by rewrite (at_input_nil _ _ H)|].
  by rewrite (proj1 (at_input_cons _ _ _ _ H)).
Qed.
#[export] Instance sbuf_char_char t : CharParser (sbuf_char t) (fun c => mem_chars c [t]).
Proof. apply sbuf_chars_char. Qed.
#[export] Instance sbuf_notchar_char t : CharParser (sbuf_notchar t) (fun c => negb (mem_chars c [t])).
Proof. apply sbuf_notchars_char. Qed.
#[export] Instance sbuf_any_char : CharParser sbuf_any (fun _ => true).
Proof. intros m b s H. unfold sbuf_any. rewrite (sbuf_notchars_char [] m b s H). by destruct s. Qed.

Lemma sbuf_advance_advance b x y : sbuf_advance (sbuf_advance b x) y = sbuf_advance b (x + y).
Proof. unfold sbuf_advance. cbn. rewrite u64_add_l. unfold set_cur. cbn. f_equal. f_equal. lia. Qed.

Lemma sbuf_advance_0 m b s : at_input m b s -> sbuf_advance b 0 = b.
Proof.
  intros H. at_input H. unfold sbuf_advance. int_norm. rewrite Z.add_0_r. by destruct b.
Qed.

Lemma mem_chars_singleton c t : mem_chars c [t] = (c =? t).
Proof. cbn. by rewrite orb_false_r. Qed.

(** [stops ok s]: no further character is accepted. *)
Definition stops (ok : Z -> bool) (s : list Z) : Prop :=
  match s with [] => True | c :: _ => ok c = false end.

Lemma many_loop_spec p ok `{!CharParser p ok} m s1 : forall fuel b s2,
  at_input m b (s1 ++ s2) -> forallb ok s1 = true -> stops ok s2 ->
  (length s1 < fuel)%nat ->
  many_loop fuel p m b = sbuf_advance b (Z.of_nat (length s1)).
Proof.
  induction s1 as [|c s1 IH]; intros fuel b s2 Hi Hok Hst Hf.
  - destruct fuel; [cbn in Hf; lia|]. cbn [many_loop length app] in *.
    rewrite (char_parser _ _ _ Hi). change (Z.of_nat 0) with 0. rewrite (sbuf_advance_0 _ _ _ Hi).
    destruct s2 as [|c s2]; [done|]. cbn in Hst. by rewrite Hst.
  - destruct fuel; [lia|]. cbn [forallb] in Hok. apply andb_prop in Hok as [Hc Hok].
    cbn [many_loop]. rewrite (char_parser _ _ _ Hi). cbn [app]. rewrite Hc.
    rewrite (IH fuel _ s2); [|apply (at_input_cons _ _ _ _ Hi)|done|done|cbn in Hf; lia].
    rewrite sbuf_advance_advance. f_equal. cbn. lia.
Qed.

Lemma sbuf_many1_spec p ok `{!CharParser p ok} m b s1 s2 :
  at_input m b (s1 ++ s2) -> s1 <> [] -> forallb ok s1 = true -> stops ok s2 ->
  sbuf_many1 p m b = (true, sbuf_advance b (Z.of_nat (length s1))).
Proof.
  intros Hi Hne Hok Hst. destruct s1 as [|c s1]; [done|].
  cbn [forallb] in Hok. apply andb_prop in Hok as [Hc Hok].
  unfold sbuf_many1. rewrite (char_parser _ _ _ Hi). cbn [app]. rewrite Hc. f_equal.
  pose proof (proj2 (at_input_cons _ _ _ _ Hi)) as Hi'. unfold sbuf_many.
  rewrite (at_input_valid _ _ _ Hi'). case_bool_decide as Hn; cbn [negb snd].
  - apply app_nil in Hn as [-> ->]. cbn. done.
  - pose proof Hi' as Hi''. at_input Hi''.
    rewrite (many_loop_spec p ok m s1 _ _ s2) by (try done; unfold loop_fuel; rewrite length_app in *; lia).
    rewrite sbuf_advance_advance. f_equal. cbn. lia.
Qed.

Lemma sbuf_string_ok s : forall m b t,
  at_input m b (s ++ t) -> sbuf_string s m b = (true, sbuf_advance b (Z.of_nat (length s))).
Proof.
  induction s as [|c s IH]; intros m b t Hi; cbn [sbuf_string].
  - cbn [length]. change (Z.of_nat 0) with 0. by rewrite (sbuf_advance_0 _ _ _ Hi).
  - rewrite (char_parser _ _ _ Hi). cbn [app]. rewrite mem_chars_singleton, Z.eqb_refl.
    rewrite (IH m _ t) by apply (at_input_cons _ _ _ _ Hi).
    rewrite sbuf_advance_advance. do 2 f_equal. cbn. lia.
Qed.

(** ** The URI parser of [mod_table.c] *)
Record parsed_uri := ParsedUri {
  file : Z; sym : Z; ver : Z;
  filelen : Z; symlen : Z; verlen : Z
}.

Definition empty_uri : parsed_uri := ParsedUri 0 0 0 0 0 0.

Definition notqmark : parser := sbuf_notchar 63.           (* '?' *)
Definition notandoreq : parser := sbuf_notchars [38; 61].  (* "&=" *)
Definition notand : parser := sbuf_notchar 38.             (* '&' *)

(** The locals [buf] and the output structure. *)
Record puri := Puri { pbuf : sbuf; pout : parsed_uri }.

Definition prun (p : memory -> sbuf -> bool * sbuf) (m : memory) : M puri bool := fun s =>
  let '(ok, b) := p m (pbuf s) in (Go ok, {| pbuf := b; pout := pout s |}).

Definition pcur : M puri Z := gets (fun s => sbuf_cur (pbuf s)).
Definition pset (f : parsed_uri -> parsed_uri) : M puri unit :=
  modify (fun s => {| pbuf := pbuf s; pout := f (pout s) |}).

Definition modver : list Z := str "_modver".

(** One [name] or [name=value] of the query. *)
Definition parse_query (m : memory) : M puri unit :=
  name ← pcur;
  ok ← prun (sbuf_many1 notandoreq) m; _ ← VERIFY 0 ok;
  c ← pcur;
  let nameLen := s32 (c - name) in
  eq ← prun (sbuf_char 61) m;
  vl ← (if eq : bool
        then (value ← pcur;
              ok ← prun (sbuf_many1 notand) m; _ ← VERIFY 0 ok;
              c ← pcur;
              mret (value, s32 (c - value)))
        else mret (0, 0));
  let '(value, valueLen) := vl : Z * Z in
  _ ← prun (sbuf_char 38) m;
  if strncmp_eq (fun i => rd m (name + i)) (cstr modver) 0 (Z.to_nat (u64 nameLen))
  then pset (fun o => {| file := file o; filelen := filelen o; sym := sym o; symlen := symlen o;
                         ver := value; verlen := valueLen |})
  else mret tt.

(** [while(!sbuf_end(&buf))]. *)
Fixpoint parse_queries (fuel : nat) (m : memory) : M puri unit :=
  match fuel with
  | O => mret tt
  | S fuel =>
    e ← gets (fun s => sbuf_end (pbuf s));
    if e : bool then mret tt else (_ ← parse_query m; parse_queries fuel m)
  end.

Definition parse_uri_body (fuel : nat) (m : memory) : M puri unit :=
  ok ← prun (sbuf_string (str "file://")) m; _ ← VERIFYC ok AEE_EBADPARM;
  _ ← prun (sbuf_string (str "/")) m;
  f ← pcur;
  _ ← pset (fun o => {| file := f; filelen := filelen o; sym := sym o; symlen := symlen o;
                        ver := ver o; verlen := verlen o |});
  ok ← prun (sbuf_many1 notqmark) m; _ ← VERIFY 0 ok;
  c ← pcur;
  _ ← pset (fun o => {| file := file o; filelen := s32 (c - file o); sym := sym o; symlen := symlen o;
                        ver := ver o; verlen := verlen o |});
  ok ← prun (sbuf_char 63) m; _ ← VERIFY 0 ok;
  y ← pcur;
  _ ← pset (fun o => {| file := file o; filelen := filelen o; sym := y; symlen := symlen o;
                        ver := ver o; verlen := verlen o |});
  ok ← prun (sbuf_many1 notand) m; _ ← VERIFY 0 ok;
  c ← pcur;
  _ ← pset (fun o => {| file := file o; filelen := filelen o; sym := sym o; symlen := s32 (c - sym o);
                        ver := ver o; verlen := verlen o |});
  e ← gets (fun s => sbuf_end (pbuf s));
  if e : bool then mret tt
  else
    amp ← prun (sbuf_char 38) m;
    if amp : bool then parse_queries fuel m else mret tt.

(** [fuel] bounds the passes of the query loop. *)
Definition parse_uri_fuel (fuel : nat) (m : memory) (uri urilen : Z) : Z * parsed_uri :=
  let '(nErr, s) := run (-1) (to_bail (parse_uri_body fuel m))
                        {| pbuf := sbuf_parser_init uri urilen; pout := empty_uri |} in
  (nErr, pout s).

Definition parse_uri (m : memory) (uri urilen : Z) : Z * parsed_uri :=
  parse_uri_fuel (S (Z.to_nat urilen)) m uri urilen.

(** ** Parsing what [open_mod_table_open_from_static] prints

    The version form is printed with ["file:///%.*s?%.*s&_modver=%.*s"], the plain
    one with ["file://%.*s?%.*s"] (two slashes). *)
Definition no_char (c : Z) (s : list Z) : bool := forallb (fun x => negb (mem_chars x [c])) s.

Definition print_uri_ver (f y v : list Z) : list Z :=
  str "file:///" ++ f ++ str "?" ++ y ++ str "&_modver=" ++ v.

Definition print_uri (f y : list Z) : list Z := str "file://" ++ f ++ str "?" ++ y.

(** One parser step on the state of [parse_uri]. *)
Lemma prun_step p m b o n s1 s2 :
  p m b = (true, sbuf_advance b (Z.of_nat (length s1))) ->
  at_input m b (s1 ++ s2) -> n = Z.of_nat (length s1) ->
  prun p m {| pbuf := b; pout := o |} = (Go true, {| pbuf := sbuf_advance b n; pout := o |}) /\
  bufCur (sbuf_advance b n) = bufCur b + n /\ at_input m (sbuf_advance b n) s2.
Proof.
  intros Hp Hi ->. unfold prun. cbn. rewrite Hp. split; [done|].
  destruct (at_input_advance _ _ _ _ Hi) as [E Hi']. split; [|exact Hi'].
  etrans; [exact (f_equal bufCur E)|done].
Qed.

Lemma prun_char m b o c t s :
  at_input m b (c :: s) -> c = t ->
  prun (sbuf_char t) m {| pbuf := b; pout := o |} = (Go true, {| pbuf := sbuf_advance b 1; pout := o |}) /\
  bufCur (sbuf_advance b 1) = bufCur b + 1 /\ at_input m (sbuf_advance b 1) s.
Proof.
  intros Hi ->. apply (prun_step _ _ _ _ 1 [t]); [|done|done].
  rewrite (char_parser _ _ _ Hi), mem_chars_singleton, Z.eqb_refl. done.
Qed.

Lemma prun_char_nil m b o t :
  at_input m b [] ->
  prun (sbuf_char t) m {| pbuf := b; pout := o |} = (Go false, {| pbuf := b; pout := o |}).
Proof. intros Hi. unfold prun. cbn. by rewrite (char_parser _ _ _ Hi). Qed.

Lemma prun_many1 p ok `{!CharParser p ok} m b o s1 s2 n :
  at_input m b (s1 ++ s2) -> s1 <> [] -> forallb ok s1 = true -> stops ok s2 ->
  n = Z.of_nat (length s1) ->
  prun (sbuf_many1 p) m {| pbuf := b; pout := o |} = (Go true, {| pbuf := sbuf_advance b n; pout := o |}) /\
  bufCur (sbuf_advance b n) = bufCur b + n /\ at_input m (sbuf_advance b n) s2.
Proof.
  intros Hi Hne Hok Hst Hn. apply (prun_step _ _ _ _ _ s1); [|done|done].
  by apply (sbuf_many1_spec p ok m b s1 s2).
Qed.

Lemma prun_string m b o s t n :
  at_input m b (s ++ t) -> n = Z.of_nat (length s) ->
  prun (sbuf_string s) m {| pbuf := b; pout := o |} = (Go true, {| pbuf := sbuf_advance b n; pout := o |}) /\
  bufCur (sbuf_advance b n) = bufCur b + n /\ at_input m (sbuf_advance b n) t.
Proof. intros Hi Hn. apply (prun_step _ _ _ _ _ s); [|done|done]. by eapply sbuf_string_ok. Qed.

Lemma strncmp_modver m name :
  load m name (Z.of_nat (length modver)) = modver ->
  strncmp_eq (fun i => rd m (name + i)) (cstr modver) 0 (length modver) = true.
Proof.
  intros H. assert (E : forall i, 0 <= i < 7 -> rd m (name + i) = cstr modver i).
  { intros i Hi. rewrite <- (nth_load m name 7) by lia. change 7 with (Z.of_nat (length modver)).
    rewrite H. unfold cstr. by rewrite (proj2 (Z.ltb_ge i 0)) by lia. }
  change (length modver) with 7%nat. cbn [strncmp_eq]. by rewrite !E.
Qed.

(** The common prefix: file and symbol parsed, the cursor behind the symbol. *)
Lemma parse_uri_body_prefix fuel m uri urilen pre f y rest :
  pre = str "file:///" \/ (pre = str "file://" /\ stops (fun c => mem_chars c [47]) f) ->
  f <> [] -> no_char 63 f = true -> y <> [] -> no_char 38 y = true ->
  stops (fun c => negb (mem_chars c [38])) rest ->
  let s := pre ++ f ++ str "?" ++ y ++ rest in
  let b := sbuf_parser_init uri urilen in
  let lp := Z.of_nat (length pre) in let lf := Z.of_nat (length f) in let ly := Z.of_nat (length y) in
  at_input m b s -> bufCur b = uri ->
  let out := {| file := uri + lp; filelen := lf; sym := uri + lp + lf + 1; symlen := ly;
                ver := 0; verlen := 0 |} in
  exists b', at_input m b' rest /\ bufCur b' = uri + lp + lf + 1 + ly /\
  parse_uri_body fuel m {| pbuf := b; pout := empty_uri |} =
    (e ← gets (fun s => sbuf_end (pbuf s));
     if e : bool then mret tt
     else amp ← prun (sbuf_char 38) m;
          if amp : bool then parse_queries fuel m else mret tt)
      {| pbuf := b'; pout := out |}.
Proof.
  intros Hpre Hf Hfo Hy Hyo Hst s b lp lf ly Hi Hu out.
  assert (Hlen : 0 <= lf < 2147483648 /\ 0 <= ly < 2147483648).
  { pose proof Hi as Hi0. at_input Hi0. unfold s in *. rewrite !length_app in *. lia. }
  unfold parse_uri_body.
  (* the scheme and the optional slash *)
  assert (exists b1, at_input m b1 (f ++ str "?" ++ y ++ rest) /\ bufCur b1 = uri + lp /\
    forall k : M puri unit,
    (ok ← prun (sbuf_string (str "file://")) m; _ ← VERIFYC ok AEE_EBADPARM;
     _ ← prun (sbuf_string (str "/")) m; k) {| pbuf := b; pout := empty_uri |} =
    k {| pbuf := b1; pout := empty_uri |}) as (b1 & Hi1 & Hc1 & E1).
  { assert (Hs : exists t, s = str "file://" ++ t).
    { destruct Hpre as [->|[-> _]]; unfold s.
      - change (str "file:///") with (str "file://" ++ str "/"). rewrite <- app_assoc. eauto.
      - eauto. }
    destruct Hs as [t Hs]. pose proof Hi as Hit. rewrite Hs in Hit.
    destruct (prun_string m b empty_uri _ _ 7 Hit eq_refl) as (Ea & Eac & Hia).
    destruct Hpre as [->|[-> Hsl]].
    - assert (Ht : t = str "/" ++ f ++ str "?" ++ y ++ rest).
      { apply (app_inv_head (str "file://")). rewrite <- Hs. unfold s. by rewrite app_assoc. }
      rewrite Ht in Hia.
      destruct (prun_string m _ empty_uri (str "/") _ 1 Hia eq_refl) as (Eb & Ebc & Hib).
      eexists. split; [exact Hib|]. split; [rewrite Ebc, Eac, Hu; unfold lp; cbn; lia|].
      intros k. munfold. rewrite Ea. cbv beta iota. by rewrite Eb.
    - assert (Ht : t = f ++ str "?" ++ y ++ rest).
      { apply (app_inv_head (str "file://")). by rewrite <- Hs. }
      rewrite Ht in Hia. eexists. split; [exact Hia|]. split; [rewrite Eac, Hu; unfold lp; cbn; lia|].
      intros k. munfold. rewrite Ea. cbv beta iota. unfold prun. cbn [pbuf].
      change (str "/") with [47]. cbn [sbuf_string].
      rewrite (char_parser _ _ _ Hia). destruct f as [|c f]; [done|]. cbn [app].
      cbn [stops] in Hsl. by rewrite Hsl. }
  (* file, '?', symbol *)
  destruct (prun_many1 notqmark _ m b1 {| file := uri + lp; filelen := 0; sym := 0; symlen := 0; ver := 0; verlen := 0 |}
              f (str "?" ++ y ++ rest) lf Hi1 Hf Hfo eq_refl eq_refl) as (E2 & Ec2 & Hi2).
  destruct (prun_char m _ {| file := uri + lp; filelen := lf; sym := 0; symlen := 0; ver := 0; verlen := 0 |}
              63 63 _ Hi2 eq_refl) as (E3 & Ec3 & Hi3).
  destruct (prun_many1 notand _ m _ {| file := uri + lp; filelen := lf; sym := uri + lp + lf + 1; symlen := 0; ver := 0; verlen := 0 |}
              y rest ly Hi3 Hy Hyo Hst eq_refl) as (E4 & Ec4 & Hi4).
  eexists. split; [exact Hi4|]. split; [rewrite Ec4, Ec3, Ec2, Hc1; lia|].
  rewrite E1. unfold pcur, pset. munfold. cbn [pbuf pout empty_uri file sym ver filelen symlen verlen].
  unfold sbuf_cur, sbuf_head. rewrite Hc1, E2. cbn [pbuf pout file sym ver filelen symlen verlen].
  rewrite Ec2, Hc1. replace (s32 (uri + lp + lf - (uri + lp))) with lf by (rewrite s32_small; lia).
  rewrite E3. cbn [pbuf pout file sym ver filelen symlen verlen]. rewrite Ec3, Ec2, Hc1, E4.
  cbn [pbuf pout file sym ver filelen symlen verlen]. rewrite Ec4, Ec3, Ec2, Hc1.
  replace (s32 (uri + lp + lf + 1 + ly - (uri + lp + lf + 1))) with ly by (rewrite s32_small; lia).
  done.
Qed.

(** The version query, with the cursor on its first character. *)
Lemma parse_query_modver m b o v :
  at_input m b (modver ++ str "=" ++ v) -> v <> [] -> no_char 38 v = true ->
  let lv := Z.of_nat (length v) in
  exists b', at_input m b' [] /\
  parse_query m {| pbuf := b; pout := o |} =
    (Go tt, {| pbuf := b';
               pout := {| file := file o; filelen := filelen o; sym := sym o; symlen := symlen o;
                          ver := bufCur b + 8; verlen := lv |} |}).
Proof.
  intros Hi Hv Hvo lv.
  assert (Hl : 0 <= lv < 2147483648).
  { pose proof Hi as Hi0. at_input Hi0. rewrite !length_app in *. lia. }
  assert (Hm : load m (bufCur b) (Z.of_nat (length modver)) = modver).
  { pose proof Hi as Hi0. at_input Hi0. rewrite length_app, Nat2Z.inj_add, load_app in ai_rest0 by lia.
    apply app_inj_1 in ai_rest0 as [E _]; [done|]. rewrite length_load. lia. }
  destruct (prun_many1 notandoreq _ m b o modver _ 7 Hi ltac:(done) eq_refl eq_refl eq_refl)
    as (E1 & Ec1 & Hi1).
  destruct (prun_char m _ o 61 61 _ Hi1 eq_refl) as (E2 & Ec2 & Hi2).
  rewrite <- (app_nil_r v) in Hi2.
  destruct (prun_many1 notand _ m _ o v [] lv Hi2 Hv Hvo I eq_refl) as (E3 & Ec3 & Hi3).
  eexists. split; [exact Hi3|].
  unfold parse_query, pcur, pset. munfold. cbn [pbuf pout]. unfold sbuf_cur, sbuf_head.
  rewrite E1. cbv beta iota. cbn [pbuf]. rewrite E2. cbv beta iota. cbn [pbuf]. rewrite E3.
  cbv beta iota. cbn [pbuf]. rewrite (prun_char_nil _ _ _ _ Hi3). cbv beta iota.
  rewrite Ec3, Ec2, Ec1.
  replace (bufCur b + 7 - bufCur b) with 7 by lia.
  change (Z.to_nat (u64 (s32 7))) with (length modver). rewrite strncmp_modver by done.
  cbn [pbuf pout]. do 3 f_equal; [lia|].
  replace (bufCur b + 7 + 1 + lv - (bufCur b + 7 + 1)) with lv by lia. rewrite s32_small; lia.
Qed.

Section print_parse.
Context (m : memory) (uri : Z) (f y : list Z).
Context (Hf : f <> []) (Hfo : no_char 63 f = true) (Hy : y <> []) (Hyo : no_char 38 y = true).
Context (Hu : 0 <= uri).

(** C2: [parse_uri] inverts the version form that [open_mod_table_open_from_static]
    prints: it returns 0 and the exact file, symbol and version substrings. *)
Theorem parse_uri_print_ver v :
  let s := print_uri_ver f y v in let n := Z.of_nat (length s) in
  v <> [] -> no_char 38 v = true -> n < 2147483648 -> uri + n < 2 ^ 62 ->
  load m uri n = s ->
  let lf := Z.of_nat (length f) in let ly := Z.of_nat (length y) in
  parse_uri m uri n =
    (0, {| file := uri + 8; filelen := lf; sym := uri + 8 + lf + 1; symlen := ly;
           ver := uri + 8 + lf + 1 + ly + 9; verlen := Z.of_nat (length v) |}).
Proof.
  change (2 ^ 62) with 4611686018427387904.
  intros s n Hv Hvo Hn Hun Hl lf ly.
  assert (Hi : at_input m (sbuf_parser_init uri n) s).
  { apply at_input_init; try done. change (2 ^ 63) with 9223372036854775808. unfold n in *. lia. }
  unfold parse_uri, parse_uri_fuel, run, to_bail.
  destruct (parse_uri_body_prefix (S (Z.to_nat n)) m uri n (str "file:///") f y (str "&_modver=" ++ v))
    as (b' & Hi' & Hc' & E); try done; [by left| |].
  { unfold sbuf_parser_init, sbuf_init. cbn [bufCur]. int_norm. lia. }
  rewrite E. munfold. cbn [pbuf]. rewrite (at_input_end _ _ _ Hi'), bool_decide_eq_false_2 by done.
  cbv beta iota.
  destruct (prun_char m b' {| file := uri + 8; filelen := lf; sym := uri + 8 + lf + 1; symlen := ly;
              ver := 0; verlen := 0 |} 38 38 (modver ++ str "=" ++ v) Hi' eq_refl) as (E2 & Ec2 & Hi2).
  change (Z.of_nat (length (str "file:///"))) with 8 in *. fold lf ly. rewrite E2.
  cbv beta iota.
  assert (Hn1 : exists k, Z.to_nat n = S k).
  { exists (Z.to_nat n - 1)%nat. unfold n, s, print_uri_ver. rewrite length_app. cbn. lia. }
  destruct Hn1 as [k Hk]. rewrite Hk. cbn [parse_queries]. munfold. cbn [pbuf].
  rewrite (at_input_end _ _ _ Hi2), bool_decide_eq_false_2 by done. cbv beta iota.
  edestruct (parse_query_modver m _ {| file := uri + 8; filelen := lf; sym := uri + 8 + lf + 1; symlen := ly;
              ver := 0; verlen := 0 |} v Hi2 Hv Hvo) as (b3 & Hi3 & E3).
  rewrite E3. cbn [pbuf]. rewrite (at_input_end _ _ _ Hi3), bool_decide_eq_true_2 by done.
  cbv beta iota. cbn [pout file sym symlen filelen]. unfold AEE_SUCCESS. do 2 f_equal.
  rewrite Ec2, Hc'. lia.
Qed.
End print_parse.

Definition ex_uri : list Z := print_uri_ver (str "librhtest_skel.so") (str "rhtest_skel_handle_invoke") (str "1.0").

Lemma parse_uri_print_ver_witness :
  parse_uri (store ∅ 4096 ex_uri) 4096 (Z.of_nat (length ex_uri)) =
    (0, {| file := 4096 + 8; filelen := 17; sym := 4096 + 8 + 17 + 1; symlen := 25;
           ver := 4096 + 8 + 17 + 1 + 25 + 9; verlen := 3 |}).
Proof.
  apply (parse_uri_print_ver (store ∅ 4096 ex_uri) 4096 (str "librhtest_skel.so")
           (str "rhtest_skel_handle_invoke"));
    first [lia | done | vm_compute; congruence].
Defined.

(** ** Arbitrary input

    Whatever the bytes are, a parser keeps the cursor inside the input. *)
Section bounds.
Context (m : memory) (e : Z).

Definition fits (b : sbuf) : Prop := exists s, at_input m b s /\ bufEnd b = e.

Class Adv (p : parser) : Prop :=
  adv : forall b, fits b -> fits (p m b).2 /\ bufCur b <= bufCur (p m b).2.

Lemma fits_advance_1 b : fits b -> sbuf_end b = false -> fits (sbuf_advance b 1) /\ bufCur (sbuf_advance b 1) = bufCur b + 1.
Proof.
  intros (s & Hi & He) Hn. rewrite (at_input_end _ _ _ Hi) in Hn.
  destruct s as [|c s]; [done|]. destruct (at_input_advance m b [c] s Hi) as [E Hi'].
  change (Z.of_nat (length [c])) with 1 in *. split; [|by rewrite E].
  exists s. split; [done|]. by rewrite E.
Qed.

#[export] Instance CharParser_Adv p ok `{!CharParser p ok} : Adv p.
Proof.
  intros b (s & Hi & He). rewrite (char_parser _ _ _ Hi).
  destruct s as [|c s]; [cbn; split; [by exists []|lia]|].
  destruct (fits_advance_1 b) as [Hf Hc]; [by exists (c :: s)|by rewrite (at_input_end _ _ _ Hi)|].
  destruct (ok c); cbn [fst snd]; (split; [|lia]); [done|by exists (c :: s)].
Qed.

Lemma many_loop_adv p `{!Adv p} fuel : forall b, fits b ->
  fits (many_loop fuel p m b) /\ bufCur b <= bufCur (many_loop fuel p m b).
Proof.
  induction fuel as [|fuel IH]; intros b Hb; cbn [many_loop]; [split; [done|lia]|].
  destruct (adv b Hb) as (Hf & Hc). destruct (p m b) as [[] b']; cbn in *; [|done].
  destruct (IH b' Hf). split; [done|lia].
Qed.

(** [sbuf_many1] moves the cursor by at least one when it succeeds. *)
Lemma many1_adv p ok `{!CharParser p ok} b : fits b ->
  fits (sbuf_many1 p m b).2 /\ bufCur b <= bufCur (sbuf_many1 p m b).2 /\
  ((sbuf_many1 p m b).1 = true -> bufCur b < bufCur (sbuf_many1 p m b).2).
Proof.
  intros Hb. unfold sbuf_many1. pose proof Hb as (s & Hi & He).
  rewrite (char_parser _ _ _ Hi). destruct s as [|c s]; [cbn; split_and!; [done|lia|done]|].
  destruct (ok c); [|cbn; split_and!; [done|lia|done]].
  destruct (fits_advance_1 b Hb) as [Hf Hc]; [by rewrite (at_input_end _ _ _ Hi)|].
  unfold sbuf_many. destruct (sbuf_valid _); cbn [fst snd].
  - destruct (many_loop_adv p (loop_fuel (sbuf_advance b 1)) _ Hf). split_and!; [done|lia|lia].
  - split_and!; [done|lia|lia].
Qed.

Lemma string_adv t : forall b, fits b -> fits (sbuf_string t m b).2 /\ bufCur b <= bufCur (sbuf_string t m b).2.
Proof.
  induction t as [|c t IH]; intros b Hb; cbn [sbuf_string]; [split; [done|cbn; lia]|].
  destruct (adv (p := sbuf_char c) b Hb) as (Hf & Hc).
  destruct (sbuf_char c m b) as [[] b']; cbn in *; [|done].
  destruct (IH b' Hf). split; [done|lia].
Qed.

(** A span [p, p + l) of the input read so far. *)
Definition span_ok (u c p l : Z) : Prop := l = 0 \/ (u <= p /\ 0 <= l /\ p + l <= c).

Definition spans_ok (u : Z) (s : puri) : Prop :=
  fits (pbuf s) /\ u <= bufCur (pbuf s) /\ e - u < 2147483648 /\
  span_ok u (bufCur (pbuf s)) (file (pout s)) (filelen (pout s)) /\
  span_ok u (bufCur (pbuf s)) (sym (pout s)) (symlen (pout s)) /\
  span_ok u (bufCur (pbuf s)) (ver (pout s)) (verlen (pout s)).

Lemma span_ok_weaken u c c' p l : span_ok u c p l -> c <= c' -> span_ok u c' p l.
Proof. unfold span_ok. lia. Qed.

Lemma fits_cur b : fits b -> bufCur b <= e.
Proof. intros (s & Hi & <-). at_input Hi. lia. Qed.

(** Moving the cursor forward keeps the spans. *)
Lemma spans_ok_move u b b' o :
  spans_ok u {| pbuf := b; pout := o |} -> fits b' -> bufCur b <= bufCur b' ->
  spans_ok u {| pbuf := b'; pout := o |}.
Proof.
  unfold spans_ok. cbn. intros (?&?&?&?&?&?) Hf Hc.
  split_and!; try done; try lia; by eapply span_ok_weaken.
Qed.
End bounds.

Section spans.
Context (m : memory) (e u : Z).
Abbreviation good := (spans_ok m e u).

Lemma wp_prun (p : parser) (Q : bool -> puri -> Prop) R b o :
  good {| pbuf := b; pout := o |} ->
  fits m e (p m b).2 -> bufCur b <= bufCur (p m b).2 ->
  (forall b', good {| pbuf := b'; pout := o |} -> bufCur b <= bufCur b' -> b' = (p m b).2 ->
     Q (p m b).1 {| pbuf := b'; pout := o |}) ->
  wp (prun p m) Q R {| pbuf := b; pout := o |}.
Proof.
  intros Hg Hf Hc HQ. unfold wp, prun. cbn. destruct (p m b) as [ok b'] eqn:E. cbn in *.
  apply HQ; [|done|done]. by eapply spans_ok_move.
Qed.

Lemma wp_prun_char p ok `{!CharParser p ok} (Q : bool -> puri -> Prop) R b o :
  good {| pbuf := b; pout := o |} ->
  (forall ok b', good {| pbuf := b'; pout := o |} -> bufCur b <= bufCur b' -> Q ok {| pbuf := b'; pout := o |}) ->
  wp (prun p m) Q R {| pbuf := b; pout := o |}.
Proof.
  intros Hg HQ. destruct (CharParser_Adv m e p ok b (proj1 Hg)) as [Hf Hc].
  apply wp_prun; eauto.
Qed.

Lemma wp_prun_string t (Q : bool -> puri -> Prop) R b o :
  good {| pbuf := b; pout := o |} ->
  (forall ok b', good {| pbuf := b'; pout := o |} -> bufCur b <= bufCur b' -> Q ok {| pbuf := b'; pout := o |}) ->
  wp (prun (sbuf_string t) m) Q R {| pbuf := b; pout := o |}.
Proof.
  intros Hg HQ. destruct (string_adv m e t b (proj1 Hg)) as [Hf Hc]. apply wp_prun; eauto.
Qed.

Lemma wp_prun_many1 p ok `{!CharParser p ok} (Q : bool -> puri -> Prop) R b o :
  good {| pbuf := b; pout := o |} ->
  (forall ok b', good {| pbuf := b'; pout := o |} -> bufCur b <= bufCur b' ->
     (ok = true -> bufCur b < bufCur b') -> Q ok {| pbuf := b'; pout := o |}) ->
  wp (prun (sbuf_many1 p) m) Q R {| pbuf := b; pout := o |}.
Proof.
  intros Hg HQ. destruct (many1_adv m e p ok b (proj1 Hg)) as (Hf & Hc & Hs).
  apply wp_prun; try done. intros b' Hb Hl ->. by apply HQ.
Qed.

Lemma good_facts b o : good {| pbuf := b; pout := o |} -> u <= bufCur b <= e /\ e - u < 2147483648.
Proof. intros (Hf & ?&?&_). cbn in *. pose proof (fits_cur _ _ _ Hf). lia. Qed.

(** A query either bails or consumes at least one character. *)
Lemma parse_query_spans b o :
  good {| pbuf := b; pout := o |} ->
  wp (parse_query m) (fun _ s => good s /\ bufCur b < bufCur (pbuf s)) (fun _ s => good s)
     {| pbuf := b; pout := o |}.
Proof.
  intros Hg. unfold parse_query, pcur, pset. do 2 wp_step. cbn [pbuf pout]. wp_step.
  apply (wp_prun_many1 notandoreq _); [done|]. intros ok b1 Hg1 Hc1 Hok1. wp_step. wp_step; [|done].
  do 2 wp_step. cbn [pbuf pout]. wp_step. apply (wp_prun_char (sbuf_char 61) _); [done|].
  intros eq b2 Hg2 Hc2. wp_step.
  assert (Hk : forall value valueLen b3 R,
    good {| pbuf := b3; pout := o |} -> bufCur b < bufCur b3 ->
    (valueLen = 0 \/ (u <= value /\ 0 <= valueLen /\ value + valueLen <= bufCur b3)) ->
    wp (_ ← prun (sbuf_char 38) m;
        if strncmp_eq (fun i => rd m (sbuf_cur b + i)) (cstr modver) 0 (Z.to_nat (u64 (s32 (sbuf_cur b1 - sbuf_cur b))))
        then modify (fun s => {| pbuf := pbuf s; pout :=
           {| file := file (pout s); filelen := filelen (pout s); sym := sym (pout s); symlen := symlen (pout s);
                       ver := value; verlen := valueLen |} |})
        else mret tt) (fun _ s => good s /\ bufCur b < bufCur (pbuf s)) R
       {| pbuf := b3; pout := o |}).
  { intros value valueLen b3 R Hg3 Hc3 Hsp. wp_step. apply (wp_prun_char (sbuf_char 38) _); [done|].
    intros _ b4 Hg4 Hc4. apply wp_if; intros _; wp_step; cbn; (split; [|lia]); [|done].
    destruct Hg4 as (?&?&?&?&?&?). split_and!; try done. cbn in *.
    eapply span_ok_weaken; [exact Hsp|lia]. }
  apply wp_if; intros _.
  - do 2 wp_step. cbn [pbuf pout]. wp_step. apply (wp_prun_many1 notand _); [done|].
    intros ok' b3 Hg3 Hc3 Hok3. wp_step. wp_step; [|done]. do 3 wp_step. cbn [pbuf pout].
    apply Hk; [done|specialize (Hok1 H); lia|]. right.
    pose proof (good_facts _ _ Hg2). pose proof (good_facts _ _ Hg3).
    unfold sbuf_cur, sbuf_head. cbn. rewrite s32_small by lia. lia.
  - wp_step. apply Hk; [done|specialize (Hok1 H); lia|by left].
Qed.

Lemma fits_end b : fits m e b -> sbuf_end b = true -> bufCur b = e.
Proof.
  intros (t & Hi & <-). rewrite (at_input_end _ _ _ Hi). at_input Hi.
  rewrite bool_decide_eq_true. intros ->. cbn in *. lia.
Qed.

(** The query loop keeps the spans, and a successful one stops at the end. *)
Lemma parse_queries_spans fuel : forall b o,
  good {| pbuf := b; pout := o |} -> e - bufCur b < Z.of_nat fuel ->
  wp (parse_queries fuel m) (fun _ s => good s /\ sbuf_end (pbuf s) = true) (fun _ s => good s)
     {| pbuf := b; pout := o |} /\
  forall k, parse_queries (fuel + k) m {| pbuf := b; pout := o |} =
            parse_queries fuel m {| pbuf := b; pout := o |}.
Proof.
  induction fuel as [|fuel IH]; intros b o Hg Hf.
  { pose proof (good_facts _ _ Hg). lia. }
  pose proof (parse_query_spans b o Hg) as Hq. unfold wp in Hq.
  cbn [parse_queries Nat.add]. unfold wp. munfold. cbn [pbuf].
  destruct (sbuf_end b) eqn:He; [done|].
  destruct (parse_query m {| pbuf := b; pout := o |}) as [[a|er] [b' o']]; [|done].
  cbn [pbuf] in Hq. destruct Hq as [Hg' Hc]. apply IH; [done|lia].
Qed.

Lemma wp_pset (f : parsed_uri -> parsed_uri) (Q : unit -> puri -> Prop) R b o :
  Q tt {| pbuf := b; pout := f o |} -> wp (pset f) Q R {| pbuf := b; pout := o |}.
Proof. done. Qed.

(** Replacing the output: its three spans must end before the cursor. *)
Lemma good_set b o o' :
  good {| pbuf := b; pout := o |} ->
  span_ok u (bufCur b) (file o') (filelen o') -> span_ok u (bufCur b) (sym o') (symlen o') ->
  span_ok u (bufCur b) (ver o') (verlen o') -> good {| pbuf := b; pout := o' |}.
Proof. intros (?&?&?&_). done. Qed.

(** Closing a span that was opened at an earlier cursor [c]. *)
Lemma span_close b c o :
  good {| pbuf := b; pout := o |} -> u <= c <= bufCur b -> span_ok u (bufCur b) c (s32 (sbuf_cur b - c)).
Proof.
  intros Hg Hc. pose proof (good_facts _ _ Hg). right. unfold sbuf_cur, sbuf_head.
  rewrite s32_small by lia. lia.
Qed.

(** The whole body, from the start of the input; more fuel changes nothing. *)
Lemma parse_uri_body_spans fuel k b :
  fits m e b -> u = bufCur b -> e - u < 2147483648 -> e - u < Z.of_nat fuel ->
  wp2 (parse_uri_body fuel m) (parse_uri_body (fuel + k) m) (fun _ s => good s) (fun _ s => good s)
    {| pbuf := b; pout := empty_uri |}.
Proof.
  intros Hb Hu Hlt Hfu.
  assert (Hg : good {| pbuf := b; pout := empty_uri |}).
  { split_and!; cbn; [done|lia|done|by left..]. }
  assert (forall b o, good {| pbuf := b; pout := o |} -> u <= bufCur b) as Hle.
  { intros ? ? H. pose proof (good_facts _ _ H). lia. }
  unfold parse_uri_body, pcur. wp_step. apply wp_prun_string; [done|]. intros ok0 b0 Hg0 Hc0.
  wp_step. wp_step; [|done]. wp_step. apply wp_prun_string; [done|]. intros ok1 b1 Hg1 Hc1.
  do 2 wp_step. wp_step. apply wp_pset. cbn [file filelen sym symlen ver verlen empty_uri pbuf].
  wp_step. apply (wp_prun_many1 notqmark _); [eapply good_set; [exact Hg1|by left..]|].
  intros ok2 b2 Hg2 Hc2 _. wp_step. wp_step; [|done]. do 2 wp_step.
  wp_step. apply wp_pset. cbn [file filelen sym symlen ver verlen pbuf].
  wp_step. apply (wp_prun_char (sbuf_char 63) _).
  { eapply good_set; [exact Hg2|eapply span_close; [done|split; [by eapply Hle|done]]|by left..]. }
  intros ok3 b3 Hg3 Hc3. wp_step. wp_step; [|done]. do 2 wp_step.
  wp_step. apply wp_pset. cbn [file filelen sym symlen ver verlen pbuf].
  wp_step. apply (wp_prun_many1 notand _).
  { eapply good_set; [exact Hg3|apply Hg3|by left..]. }
  intros ok4 b4 Hg4 Hc4 _. wp_step. wp_step; [|done]. do 2 wp_step.
  wp_step. apply wp_pset. cbn [file filelen sym symlen ver verlen pbuf].
  match goal with |- wp2 _ _ _ _ {| pbuf := _; pout := ?o |} => assert (Hg5 : good {| pbuf := b4; pout := o |}) end.
  { eapply good_set; [exact Hg4|apply Hg4|eapply span_close; [done|split; [by eapply Hle|done]]|by left]. }
  do 2 wp_step. destruct (sbuf_end _); [by apply wp2_refl|].
  wp_step. apply (wp_prun_char (sbuf_char 38) _); [done|]. intros ok6 b6 Hg6 Hc6.
  destruct ok6; [|by apply wp2_refl].
  pose proof (good_facts _ _ Hg6). edestruct parse_queries_spans as [Hw Hk]; [exact Hg6| |split].
  - instantiate (1 := fuel). lia.
  - eapply wp_mono; [exact Hw|by intros ? ? []|done].
  - apply Hk.
Qed.
End spans.

Lemma parse_uri_inside m uri n k :
  0 <= uri -> 0 <= n < 2147483648 -> uri + n < 2 ^ 62 ->
  let o := (parse_uri m uri n).2 in
  let inside p l := l = 0 \/ (uri <= p /\ 0 <= l /\ p + l <= uri + n) in
  inside (file o) (filelen o) /\ inside (sym o) (symlen o) /\ inside (ver o) (verlen o) /\
  parse_uri_fuel (S (Z.to_nat n) + k) m uri n = parse_uri m uri n.
Proof.
  change (2 ^ 62) with 4611686018427387904. intros Hu Hn Hun o inside.
  assert (Hi : at_input m (sbuf_parser_init uri n) (load m uri n)).
  { pose proof (at_input_init m uri (load m uri n)) as H.
    rewrite length_load, Z2Nat.id in H by lia.
    change (2 ^ 63) with 9223372036854775808 in H. apply H; [lia..|done]. }
  assert (Hc : bufCur (sbuf_parser_init uri n) = uri /\ bufEnd (sbuf_parser_init uri n) = uri + n).
  { unfold sbuf_parser_init, sbuf_init. cbn. split; int_norm; lia. }
  destruct Hc as [Hc He].
  destruct (parse_uri_body_spans m (uri + n) uri (S (Z.to_nat n)) k (sbuf_parser_init uri n))
    as [Hw Hk]; [by exists (load m uri n)|done|lia|lia|].
  unfold o, parse_uri, parse_uri_fuel, run, to_bail. rewrite Hk. unfold wp in Hw.
  set (r := parse_uri_body _ _ _) in *. clearbody r. clear Hk o.
  assert (Hg : spans_ok m (uri + n) uri r.2) by (by destruct r as [[|]]).
  pose proof (fits_cur _ _ _ (proj1 Hg)). destruct Hg as (_ & ? & _ & Hs1 & Hs2 & Hs3).
  unfold inside. unfold span_ok in *. destruct r as [[|] s]; cbn in *; split_and!; try lia; done.
Qed.

(** C3: On every input, well formed or not, [parse_uri] returns spans that lie inside
    the input (the assertion at the end of the C function), and its query loop
    stops: the fuel is enough and any more of it gives the same result. *)
Theorem parse_uri_spans m uri n k :
  0 <= uri -> 0 <= n < 2147483648 -> uri + n < 2 ^ 62 ->
  let o := (parse_uri m uri n).2 in
  let inside p l := l = 0 \/ (uri <= p /\ 0 <= l /\ p + l <= uri + n) in
  inside (file o) (filelen o) /\ inside (sym o) (symlen o) /\ inside (ver o) (verlen o) /\
  parse_uri_fuel (S (Z.to_nat n) + k) m uri n = parse_uri m uri n.
Proof. apply parse_uri_inside. Qed.

Lemma parse_uri_spans_lemma m uri n :
  0 <= uri -> 0 <= n < 2147483648 -> uri + n < 2 ^ 62 ->
  let o := (parse_uri m uri n).2 in
  let inside p l := l = 0 \/ (uri <= p /\ 0 <= l /\ p + l <= uri + n) in
  inside (file o) (filelen o) /\ inside (sym o) (symlen o) /\ inside (ver o) (verlen o).
Proof. intros Hu Hn Hun o inside. pose proof (parse_uri_inside m uri n 0 Hu Hn Hun) as (?&?&?&_). done. Qed.

(** A malformed query: no version is found, and the call fails. *)
Lemma parse_uri_spans_witness :
  let s := str "file:///a?b&=" in let m := store ∅ 4096 s in
  (parse_uri m 4096 (Z.of_nat (length s))).1 = -1 /\
  parse_uri_fuel (S (Z.to_nat (Z.of_nat (length s))) + 5) m 4096 (Z.of_nat (length s)) =
    parse_uri m 4096 (Z.of_nat (length s)).
Proof.
  intros s m. split; [vm_compute; reflexivity|].
  apply (parse_uri_spans m 4096 (Z.of_nat (length s)) 5); vm_compute; intuition congruence.
Defined.
