(* ===== verification/Remote.v ===== *)
(** The scalars word of [inc/remote.h]: every invocation carries its attribute,
    its method and the number of its buffers and handles in one 32-bit word. *)
From S2P Require Import Prelude.

(** [REMOTE_SCALARS_METHOD_ATTR] .. [REMOTE_SCALARS_OUTHANDLES]. *)
Definition REMOTE_SCALARS_METHOD_ATTR (sc : Z) : Z := Z.land (Z.shiftr sc 29) 7.
Definition REMOTE_SCALARS_METHOD (sc : Z) : Z := Z.land (Z.shiftr sc 24) 31.
Definition REMOTE_SCALARS_INBUFS (sc : Z) : Z := Z.land (Z.shiftr sc 16) 255.
Definition REMOTE_SCALARS_OUTBUFS (sc : Z) : Z := Z.land (Z.shiftr sc 8) 255.
Definition REMOTE_SCALARS_INHANDLES (sc : Z) : Z := Z.land (Z.shiftr sc 4) 15.
Definition REMOTE_SCALARS_OUTHANDLES (sc : Z) : Z := Z.land sc 15.

(** [REMOTE_SCALARS_MAKEX]: each field is masked to its width, then shifted into place. *)
Definition REMOTE_SCALARS_MAKEX (nAttr nMethod nIn nOut noIn noOut : Z) : Z :=
  Z.lor (u32 (Z.shiftl (Z.land (u32 nAttr) 7) 29))
 (Z.lor (u32 (Z.shiftl (Z.land (u32 nMethod) 31) 24))
 (Z.lor (u32 (Z.shiftl (Z.land (u32 nIn) 255) 16))
 (Z.lor (u32 (Z.shiftl (Z.land (u32 nOut) 255) 8))
 (Z.lor (u32 (Z.shiftl (Z.land (u32 noIn) 15) 4))
        (Z.land (u32 noOut) 15))))).

Definition REMOTE_SCALARS_LENGTH (sc : Z) : Z :=
  REMOTE_SCALARS_INBUFS sc + REMOTE_SCALARS_OUTBUFS sc +
  REMOTE_SCALARS_INHANDLES sc + REMOTE_SCALARS_OUTHANDLES sc.

(** Every bit of the word belongs to exactly one field. *)
Lemma land_ones_mod z k : 0 <= k -> Z.land z (Z.ones k) = z mod 2 ^ k.
Proof. intros. by rewrite Z.land_ones. Qed.

Lemma testbit_u32 z n : Z.testbit (u32 z) n = bool_decide (n < 32) && Z.testbit z n.
Proof.
  unfold u32. change 4294967296 with (2 ^ 32).
  destruct (decide (n < 32)) as [H|H].
  - by rewrite Z.mod_pow2_bits_low, bool_decide_eq_true_2.
  - destruct (decide (0 <= n)); [|lia].
    by rewrite Z.mod_pow2_bits_high, bool_decide_eq_false_2 by lia.
Qed.

Lemma testbit_ones_bd k n : 0 <= k -> Z.testbit (Z.ones k) n = bool_decide (0 <= n < k).
Proof.
  intros Hk. destruct (decide (0 <= n < k)) as [H|H].
  - by rewrite Z.ones_spec_low, bool_decide_eq_true_2.
  - rewrite bool_decide_eq_false_2 by done. destruct (decide (n < 0)); [by apply Z.testbit_neg_r|].
    apply Z.ones_spec_high. lia.
Qed.

(** Bitwise comparison of two field expressions. *)
Ltac fields :=
  unfold REMOTE_SCALARS_METHOD_ATTR, REMOTE_SCALARS_METHOD, REMOTE_SCALARS_INBUFS,
    REMOTE_SCALARS_OUTBUFS, REMOTE_SCALARS_INHANDLES, REMOTE_SCALARS_OUTHANDLES, REMOTE_SCALARS_MAKEX;
  change 7 with (Z.ones 3); change 31 with (Z.ones 5); change 255 with (Z.ones 8);
  change 15 with (Z.ones 4);
  apply Z.bits_inj'; intros n Hn;
  repeat first [rewrite Z.land_spec | rewrite Z.lor_spec | rewrite Z.shiftr_spec by lia
               | rewrite Z.shiftl_spec by lia | rewrite testbit_u32 | rewrite testbit_ones_bd by lia].

(** Decides the bounds of the bit index, once the context fixes its range. *)
Ltac bit_ranges :=
  repeat match goal with
  | |- context [bool_decide ?P] =>
      first [rewrite (bool_decide_eq_true_2 P) by lia | rewrite (bool_decide_eq_false_2 P) by lia]
  end; cbn; rewrite ?andb_true_r, ?andb_false_r, ?orb_false_r, ?orb_false_l; try done.

Ltac field_of k :=
  fields; match goal with n : Z |- _ => destruct (decide (n < k)) end;
  bit_ranges; f_equal; lia.

Section fields.
Context (a me i o hi ho : Z).
Let sc := REMOTE_SCALARS_MAKEX a me i o hi ho.

Lemma makex_u32 : REMOTE_SCALARS_MAKEX a me i o hi ho = u32 (REMOTE_SCALARS_MAKEX a me i o hi ho).
Proof. fields. destruct (decide (n < 32)); bit_ranges. Qed.

(** The scalars word round-trips: every accessor returns the field that
    [REMOTE_SCALARS_MAKEX] was given, cut to the field's width, whatever the other
    fields are (no field spills into its neighbour). *)
Theorem scalars_fields :
  REMOTE_SCALARS_METHOD_ATTR sc = a mod 8 /\ REMOTE_SCALARS_METHOD sc = me mod 32 /\
  REMOTE_SCALARS_INBUFS sc = i mod 256 /\ REMOTE_SCALARS_OUTBUFS sc = o mod 256 /\
  REMOTE_SCALARS_INHANDLES sc = hi mod 16 /\ REMOTE_SCALARS_OUTHANDLES sc = ho mod 16 /\
  REMOTE_SCALARS_LENGTH sc = i mod 256 + o mod 256 + hi mod 16 + ho mod 16 /\
  sc = u32 sc.
Proof.
  unfold REMOTE_SCALARS_LENGTH.
  change 8 with (2 ^ 3). change 32 with (2 ^ 5). change 256 with (2 ^ 8). change 16 with (2 ^ 4).
  rewrite <- !land_ones_mod by lia. unfold sc.
  assert (REMOTE_SCALARS_INBUFS (REMOTE_SCALARS_MAKEX a me i o hi ho) = Z.land i (Z.ones 8)) as -> by field_of 8.
  assert (REMOTE_SCALARS_OUTBUFS (REMOTE_SCALARS_MAKEX a me i o hi ho) = Z.land o (Z.ones 8)) as -> by field_of 8.
  assert (REMOTE_SCALARS_INHANDLES (REMOTE_SCALARS_MAKEX a me i o hi ho) = Z.land hi (Z.ones 4)) as -> by field_of 4.
  assert (REMOTE_SCALARS_OUTHANDLES (REMOTE_SCALARS_MAKEX a me i o hi ho) = Z.land ho (Z.ones 4)) as -> by field_of 4.
  split_and!; [field_of 3|field_of 5|done..|exact makex_u32].
Qed.
End fields.

