(* ===== verification/ModTable.v ===== *)
(** The module table of [src/mod_table.c]: the registry of static, override and
    constant modules, the fixed table of reverse handles, and the operations that
    open, invoke and close a module.

    Each function runs under the locks the C code takes, so it is one atomic step
    of the model; code loaded at run time ([dlopen], [dlsym], the invoke
    functions) is a parameter that acts on a world [W] of its own. *)
From S2P Require Import Prelude Errors Sbuf SbufParser Remote.

(** ** Data *)
Record static_mod := StaticMod { sm_invoke : Z; sm_handle_invoke : Z }.

Record const_mod := ConstMod { cm_invoke : Z; cm_handle_invoke : Z; cm_key : Z; cm_h64 : Z; cm_uri : list Z }.

(** [struct open_mod]; the spans [vals] are kept as the strings they delimit. *)
Record open_mod := OpenMod {
  om_dlhandle : Z; om_invoke : Z; om_handle_invoke : Z; om_key : Z; om_h64 : Z;
  om_refs : Z; om_uri : list Z
}.

Definition zero_mod : open_mod := OpenMod 0 0 0 0 0 0 [].

Definition MAX_REV_HANDLES : nat := 20.
Definition REV_HANDLE_SIZE : Z := 256.
(** [sizeof(struct open_mod)] on a 64-bit target: four words, the 56 bytes of
    [UT_hash_handle], [h64], the 40 bytes of [struct parsed_uri], [refs], [uri[1]]. *)
Definition sizeof_open_mod : Z := 144.
Definition offsetof_uri : Z := 140.
(** [sizeof] of the longest URI pattern, with its NUL. *)
Definition sizeof_uri_pattern : Z :=
  Z.of_nat (length (str "file:///lib_skel.so?_skel_handle_invoke&_modver=1.0")) + 1.

(** An invocation argument: a buffer's bytes or a handle. *)
Inductive mod_arg := ABuf (bs : list Z) | AHandle (h : Z).

(** One process's table: [struct static_mod_table] (with the hash tables keyed by
    URI as lists, newest first), [struct open_mod_table] once its per-process slot
    exists, the reverse handle table, and the world of the loaded code. *)
Record mt (W : Type) := Mt {
  bInit : bool;
  staticModOverrides : list (list Z * static_mod);
  staticMods : list (list Z * static_mod);
  constMods : gmap Z const_mod;
  pls_refs : Z;
  openMods : option (gmap Z nat);
  rev_handle_table : list open_mod;
  world : W
}.
Arguments Mt {_}.
Arguments bInit {_}. Arguments staticModOverrides {_}. Arguments staticMods {_}.
Arguments constMods {_}. Arguments pls_refs {_}. Arguments openMods {_}.
Arguments rev_handle_table {_}. Arguments world {_}.

(** Field updates. *)
Definition om_set_key (k : Z) (d : open_mod) : open_mod :=
  OpenMod (om_dlhandle d) (om_invoke d) (om_handle_invoke d) k (om_h64 d) (om_refs d) (om_uri d).
Definition om_set_refs (r : Z) (d : open_mod) : open_mod :=
  OpenMod (om_dlhandle d) (om_invoke d) (om_handle_invoke d) (om_key d) (om_h64 d) r (om_uri d).
Definition om_set_h64 (h : Z) (d : open_mod) : open_mod :=
  OpenMod (om_dlhandle d) (om_invoke d) (om_handle_invoke d) (om_key d) h (om_refs d) (om_uri d).
Definition om_set_uri (u : list Z) (d : open_mod) : open_mod :=
  OpenMod (om_dlhandle d) (om_invoke d) (om_handle_invoke d) (om_key d) (om_h64 d) (om_refs d) u.
Definition om_set_dlhandle (h : Z) (d : open_mod) : open_mod :=
  OpenMod h (om_invoke d) (om_handle_invoke d) (om_key d) (om_h64 d) (om_refs d) (om_uri d).
Definition om_set_fns (i hi : Z) (d : open_mod) : open_mod :=
  OpenMod (om_dlhandle d) i hi (om_key d) (om_h64 d) (om_refs d) (om_uri d).

Section update.
Context {W : Type}.
Definition set_table (t : list open_mod) (s : mt W) : mt W :=
  Mt (bInit s) (staticModOverrides s) (staticMods s) (constMods s) (pls_refs s) (openMods s) t (world s).
Definition set_open (o : option (gmap Z nat)) (s : mt W) : mt W :=
  Mt (bInit s) (staticModOverrides s) (staticMods s) (constMods s) (pls_refs s) o (rev_handle_table s) (world s).
Definition set_world (w : W) (s : mt W) : mt W :=
  Mt (bInit s) (staticModOverrides s) (staticMods s) (constMods s) (pls_refs s) (openMods s) (rev_handle_table s) w.
Definition set_static (b : bool) (o t : list (list Z * static_mod)) (c : gmap Z const_mod) (s : mt W) : mt W :=
  Mt b o t c (pls_refs s) (openMods s) (rev_handle_table s) (world s).

Definition slot (i : nat) (s : mt W) : open_mod := nth i (rev_handle_table s) zero_mod.
Definition upd_slot (i : nat) (f : open_mod -> open_mod) (s : mt W) : mt W :=
  set_table (alter f i (rev_handle_table s)) s.

(** The hash table of open modules, empty before its constructor ran. *)
Definition open_tbl (s : mt W) : gmap Z nat := default ∅ (openMods s).
Definition set_open_tbl (f : gmap Z nat -> gmap Z nat) (s : mt W) : mt W :=
  set_open (Some (f (open_tbl s))) s.
End update.

(** [HASH_FIND_STR]. *)
Fixpoint hash_find_str {A} (tbl : list (list Z * A)) (uri : list Z) : option A :=
  match tbl with
  | [] => None
  | (u, x) :: tbl => if bool_decide (u = uri) then Some x else hash_find_str tbl uri
  end.

(** [snprintf(dst, n, "%s", s)]: what is stored (without NUL), and the count. *)
Definition snprintf (n : Z) (s : list Z) : list Z * Z := (take (Z.to_nat (n - 1)) s, Z.of_nat (length s)).

(** The byte at [i] of the string stored in a buffer. *)
Definition strlen (s : list Z) : Z := Z.of_nat (length s).

(** [parse_uri] on a string stored at [p], its three spans read back. *)
Record uri_parts := UriParts { u_file : list Z; u_sym : list Z; u_ver : list Z }.

Definition parse_uri_at (p : Z) (uri : list Z) : Z * uri_parts :=
  let m := store ∅ p uri in
  let '(nErr, o) := parse_uri m p (strlen uri) in
  (nErr, {| u_file := load m (file o) (filelen o);
            u_sym := load m (sym o) (symlen o);
            u_ver := load m (ver o) (verlen o) |}).

(** Cutting [tmp] at its last ['.'] (kept whole when it has none). *)
Fixpoint cut_last_dot (s : list Z) : option (list Z) :=
  match s with
  | [] => None
  | c :: s => match cut_last_dot s with
              | Some t => Some (c :: t)
              | None => if c =? 46 then Some [] else None
              end
  end.

Definition strlcat (s t : list Z) (n : Z) : list Z := take (Z.to_nat (n - 1)) (s ++ t).

Definition system_lib_name (tmp : list Z) (tmplen : Z) : list Z :=
  strlcat (default tmp (cut_last_dot tmp)) (str "_system.so") tmplen.

Section mod_table.
Context {W : Type}.
(** The dynamic loader: handle ([0] for NULL) and whether [errno] is [ENOENT]. *)
Variable DLOPEN : list Z -> W -> (Z * bool) * W.
Variable DLSYM : Z -> list Z -> W -> Z * W.
Variable DLCLOSE : Z -> W -> Z * W.
(** A call through an [invoke_fn] or a [handle_invoke_fn] pointer: the error code
    and the arguments as the callee left them. *)
Variable call_invoke : Z -> Z -> list mod_arg -> W -> (Z * list mod_arg) * W.
Variable call_handle_invoke : Z -> Z -> Z -> list mod_arg -> W -> (Z * list mod_arg) * W.
(** The address of [rev_handle_table]. *)
Variable rev_table : Z.

Definition ext {A} (f : W -> A * W) : M (mt W) A := fun s =>
  let '(a, w) := f (world s) in (Go a, set_world w s).

Definition slot_addr (i : nat) : Z := rev_table + REV_HANDLE_SIZE * Z.of_nat i.

(** *** Static registration *)
Definition static_mod_table_ctor : M (mt W) Z :=
  _ ← modify (fun s => if bInit s then s else set_static true [] [] (constMods s) s);
  mret 0.

Definition static_mod_table_dtor_imp : M (mt W) unit :=
  modify (fun s => if bInit s then set_static false [] [] ∅ s else s).

(** [over] selects [&me->staticModOverrides] against [&me->staticMods]. *)
Definition static_mod_add (over : bool) (uri : list Z) (inv hinv : Z) : M (mt W) Z :=
  to_bail (
    modify (fun s =>
      let sm := {| sm_invoke := inv; sm_handle_invoke := hinv |} in
      if over
      then set_static (bInit s) ((uri, sm) :: staticModOverrides s) (staticMods s) (constMods s) s
      else set_static (bInit s) (staticModOverrides s) ((uri, sm) :: staticMods s) (constMods s) s)).

Definition static_mod_table_register_static_override uri pfn := static_mod_add true uri pfn 0.
Definition static_mod_table_register_static_override1 uri pfn := static_mod_add true uri 0 pfn.
Definition static_mod_table_register_static uri pfn := static_mod_add false uri pfn 0.
Definition static_mod_table_register_static1 uri pfn := static_mod_add false uri 0 pfn.

Definition static_mod_table_register_const_handle (lcl remote : Z) (uri : list Z) (inv hinv : Z) : M (mt W) Z :=
  let key := u32 lcl in
  dmOld ← gets (fun s => constMods s !! key);
  match dmOld with
  | Some _ => mret (-1)
  | None =>
      _ ← modify (fun s =>
            set_static (bInit s) (staticModOverrides s) (staticMods s)
              (<[key := {| cm_invoke := inv; cm_handle_invoke := hinv; cm_key := key;
                           cm_h64 := remote; cm_uri := uri |}]> (constMods s)) s);
      mret AEE_SUCCESS
  end.

(** The public registration functions. *)
Definition after_ctor (k : M (mt W) Z) : M (mt W) Z :=
  r ← static_mod_table_ctor; if r =? 0 then k else mret AEE_EUNKNOWN.
Definition mod_table_register_static_override name pfn :=
  after_ctor (static_mod_table_register_static_override name pfn).
Definition mod_table_register_static_override1 name pfn :=
  after_ctor (static_mod_table_register_static_override1 name pfn).
Definition mod_table_register_static name pfn := after_ctor (static_mod_table_register_static name pfn).
Definition mod_table_register_static1 name pfn := after_ctor (static_mod_table_register_static1 name pfn).
Definition mod_table_register_const_handle remote uri pfn :=
  after_ctor (static_mod_table_register_const_handle remote 0 uri pfn 0).
Definition mod_table_register_const_handle1 remote lcl uri pfn :=
  after_ctor (static_mod_table_register_const_handle remote lcl uri 0 pfn).

(** *** The open and close calls into a module *)
Definition arg_h64 (a : mod_arg) : Z := match a with AHandle h => h | ABuf _ => 0 end.

(** [mod->handle_invoke(0, MAKEX(0,0,2,0,0,1), args)]; [ph] is written on success only. *)
Definition open_mod_handle_open (i : nat) (name : list Z) : M (mt W) Z :=
  let len := s32 (strlen name + 1) in
  fn ← gets (fun s => om_handle_invoke (slot i s));
  r ← ext (call_handle_invoke fn 0 (REMOTE_SCALARS_MAKEX 0 0 2 0 0 1)
             [ABuf (le32 (u32 len)); ABuf (name ++ [0]); AHandle 0]);
  let '(nErr, args) := r : Z * list mod_arg in
  _ ← (if nErr =? 0 then modify (upd_slot i (om_set_h64 (arg_h64 (nth 2 args (AHandle 0))))) else mret tt);
  mret nErr.

Definition open_mod_handle_close (i : nat) (h : Z) : M (mt W) Z :=
  fn ← gets (fun s => om_handle_invoke (slot i s));
  r ← ext (call_handle_invoke fn 0 (REMOTE_SCALARS_MAKEX 0 1 0 0 1 0) [AHandle h]);
  mret r.1.

(** Releasing what a module holds: its handle, then its library. *)
Definition close_h64 (i : nat) : M (mt W) unit :=
  h ← gets (fun s => om_h64 (slot i s));
  if h =? 0 then mret tt else (_ ← open_mod_handle_close i h; mret tt).
Definition close_dl (i : nat) : M (mt W) Z :=
  h ← gets (fun s => om_dlhandle (slot i s));
  if h =? 0 then mret 0 else ext (DLCLOSE h).

(** *** Reverse handles *)
Fixpoint find_slot (p : open_mod -> bool) (i : nat) (t : list open_mod) : option nat :=
  match t with
  | [] => None
  | d :: t => if p d then Some i else find_slot p (S i) t
  end.

(** The first slot whose key is 0; [AEE_EUNKNOWN] when all are taken. *)
Definition next_available_rev_handle : M (mt W) (Z * nat) :=
  r ← gets (fun s => find_slot (fun d => om_key d =? 0) 0 (rev_handle_table s));
  mret (match r with Some i => (0, i) | None => (AEE_EUNKNOWN, O) end).

(** [strncmp(dmOld->uri, uri, MAX(strlen(dmOld->uri), strlen(uri)))] on the slots in use. *)
Definition same_uri (u v : list Z) : bool :=
  strncmp_eq (cstr u) (cstr v) 0 (Z.to_nat (Z.max (strlen u) (strlen v))).

Definition is_reverse_handle_opened (uri : list Z) : M (mt W) (option Z) :=
  r ← gets (fun s => find_slot (fun d => negb (om_key d =? 0) && same_uri (om_uri d) uri) 0 (rev_handle_table s));
  match r with
  | None => mret None
  | Some i =>
      _ ← modify (upd_slot i (fun d => om_set_refs (s32 (om_refs d + 1)) d));
      k ← gets (fun s => om_key (slot i s));
      mret (Some (u32 k))
  end.

(** *** Opening a module *)

(** The locals that the code behind [bail:] reads; [od_handle] is [*handle] once written. *)
Record od := Od { od_dm : option nat; od_dlErr : Z; od_handle : option Z }.
Definition od_init : od := Od None 0 None.
Definition set_dm (i : nat) (l : od) : od := Od (Some i) (od_dlErr l) (od_handle l).
Definition set_dlErr (e : Z) (l : od) : od := Od (od_dm l) e (od_handle l).
Definition set_handle (h : Z) (l : od) : od := Od (od_dm l) (od_dlErr l) (Some h).

Definition uri_buf_len (uri : list Z) : Z := s32 (strlen uri * 2 + sizeof_uri_pattern + 1).

(** [snprintf] into [tmp] followed by its check. *)
Definition print_checked (tmplen : Z) (s : list Z) : M (mt W * od) (list Z) :=
  let '(tmp, rv) := snprintf tmplen s in
  _ ← VERIFYC ((0 <? rv) && (rv <=? tmplen)) AEE_EBADPARM; mret tmp.

(** [dlopen], with the second attempt on the [_system.so] name. *)
Definition dl_load (i : nat) (tmp : list Z) (tmplen : Z) : M (mt W * od) unit :=
  r ← lift (ext (DLOPEN tmp));
  let '(h, enoent) := r : Z * bool in
  _ ← lift (modify (upd_slot i (om_set_dlhandle h)));
  _ ← setl (set_dlErr (if h =? 0 then AEE_EINVHANDLE else 0));
  if (h =? 0) && enoent
  then
    _ ← VERIFYC (strlen tmp <=? tmplen) AEE_EBADPARM;
    let tmp := system_lib_name tmp tmplen in
    _ ← VERIFYC ((0 <? strlen tmp) && (strlen tmp <=? tmplen)) AEE_EBADPARM;
    r ← lift (ext (DLOPEN tmp));
    let '(h, _) := r : Z * bool in
    _ ← lift (modify (upd_slot i (om_set_dlhandle h)));
    setl (set_dlErr (if h =? 0 then AEE_EINVHANDLE else 0))
  else mret tt.

Definition is_ver_1_0 (ver : list Z) : bool :=
  negb (strlen ver =? 0) && strncmp_eq (cstr ver) (cstr (str "1.0")) 0 (length ver).

Definition dl_symbol (i : nat) (tmp : list Z) (ver : list Z) : M (mt W * od) unit :=
  h ← lift (gets (fun s => om_dlhandle (slot i s)));
  f ← lift (ext (DLSYM h tmp));
  _ ← lift (modify (upd_slot i (if is_ver_1_0 ver then om_set_fns 0 f else om_set_fns f 0)));
  _ ← setl (set_dlErr (if f =? 0 then AEE_ENOSUCHSYMBOL else 0));
  VERIFYC (negb (f =? 0)) AEE_ENOSUCHSYMBOL.

(** [do { HASH_FIND_INT; if found key++ } while (found)]. *)
Fixpoint free_key (fuel : nat) (tbl : gmap Z nat) (key : Z) : Z :=
  match fuel with
  | O => key
  | S fuel => match tbl !! u32 key with Some _ => free_key fuel tbl (key + 1) | None => key end
  end.

(** The key, the first reference, and the module's own open call. *)
Definition start_module (i : nat) (uri : list Z) : M (mt W * od) unit :=
  _ ← lift (modify (upd_slot i (fun d => om_set_refs 1 (om_set_key (u32 (slot_addr i)) d))));
  fn ← lift (gets (fun s => om_handle_invoke (slot i s)));
  if fn =? 0 then mret tt else VERIFY_CALL (lift (open_mod_handle_open i uri)).

Definition open_mod_table_open_dynamic_body (uri : list Z) : M (mt W * od) unit :=
  let len := strlen uri in let tmplen := uri_buf_len uri in
  _ ← VERIFYC (sizeof_open_mod + len + 1 <=? REV_HANDLE_SIZE) AEE_ENOMEMORY;
  k ← lift (is_reverse_handle_opened uri);
  match k with
  | Some h => setl (set_handle h)
  | None =>
    r ← lift next_available_rev_handle;
    let '(e, i) := r : Z * nat in
    _ ← VERIFYC (e =? 0) AEE_EINVHANDLE;
    _ ← VERIFYC (i <? MAX_REV_HANDLES)%nat AEE_EINVHANDLE;
    _ ← setl (set_dm i);
    _ ← lift (modify (upd_slot i (fun _ => om_set_uri uri zero_mod)));
    let vals := (parse_uri_at (slot_addr i + offsetof_uri) uri).2 in
    tmp ← print_checked tmplen (if strlen (u_file vals) =? 0 then str "lib" ++ uri ++ str "_skel.so" else u_file vals);
    _ ← dl_load i tmp tmplen;
    dlErr ← getl od_dlErr;
    _ ← VERIFY dlErr (dlErr =? 0);
    tmp ← print_checked tmplen (if strlen (u_sym vals) =? 0 then uri ++ str "_skel_invoke" else u_sym vals);
    _ ← dl_symbol i tmp (u_ver vals);
    _ ← start_module i uri;
    tbl ← lift (gets open_tbl);
    key0 ← lift (gets (fun s => om_key (slot i s)));
    let key := free_key (S (size tbl)) tbl key0 in
    _ ← lift (modify (upd_slot i (om_set_key key)));
    c ← lift (gets (fun s => constMods s !! u32 key));
    match c with
    | Some _ => bail (-1)
    | None =>
      _ ← lift (modify (set_open_tbl <[u32 key := i]>));
      setl (set_handle (u32 key))
    end
  end.

(** Undoing a failed open. *)
Definition release_slot (i : nat) (dl : bool) : M (mt W) unit :=
  _ ← close_h64 i;
  _ ← (if dl then (_ ← close_dl i; mret tt) else mret tt);
  modify (upd_slot i (om_set_key 0)).

(** Result: the error code, [*handle] when written, [*pdlErr] when written (always
    0 on entry). A loader failure is reported through [*pdlErr] with code 0. *)
Definition open_mod_table_open_dynamic (uri : list Z) : M (mt W) (Z * option Z * Z) :=
  r ← with_locals od_init (open_mod_table_open_dynamic_body uri);
  let '(nErr, l) := r : Z * od in
  if nErr =? AEE_SUCCESS then mret (nErr, od_handle l, 0)
  else
    let dlErr := od_dlErr l in
    _ ← (match od_dm l with Some i => release_slot i true | None => mret tt end);
    mret (if dlErr =? 0 then nErr else 0, od_handle l, dlErr).

(** The normal form under which a static module is looked up a second time. *)
Definition static_uri (p : uri_parts) : list Z :=
  if strlen (u_ver p) =? 0
  then str "file://" ++ u_file p ++ str "?" ++ u_sym p
  else str "file:///" ++ u_file p ++ str "?" ++ u_sym p ++ str "&_modver=" ++ u_ver p.

(** [uri_addr]: where the caller's string is. *)
Definition open_mod_table_open_from_static_body (uri_addr : Z) (over : bool) (uri : list Z) : M (mt W * od) unit :=
  let len := strlen uri in let sz := uri_buf_len uri in
  let tbl := fun s : mt W => if over then staticModOverrides s else staticMods s in
  _ ← VERIFYC (sizeof_open_mod + sz <=? REV_HANDLE_SIZE) AEE_ENOMEMORY;
  k ← lift (is_reverse_handle_opened uri);
  match k with
  | Some h => setl (set_handle h)
  | None =>
    r ← lift next_available_rev_handle;
    let '(e, i) := r : Z * nat in
    _ ← VERIFYC (e =? 0) AEE_EINVHANDLE;
    _ ← VERIFYC (i <? MAX_REV_HANDLES)%nat AEE_EINVHANDLE;
    _ ← setl (set_dm i);
    _ ← lift (modify (upd_slot i (fun _ => om_set_uri uri zero_mod)));
    sm ← lift (gets (fun s => hash_find_str (tbl s) uri));
    sm ← (match sm with
          | Some sm => mret (Some sm)
          | None =>
            let '(nErr, vals) := parse_uri_at uri_addr uri in
            _ ← VERIFY nErr (nErr =? AEE_SUCCESS);
            u ← print_checked sz (static_uri vals);
            _ ← lift (modify (upd_slot i (om_set_uri u)));
            lift (gets (fun s => hash_find_str (tbl s) u))
          end);
    match sm with
    | None => bail AEE_ENOSUCHMOD
    | Some sm =>
      _ ← lift (modify (upd_slot i (om_set_fns (sm_invoke sm) (sm_handle_invoke sm))));
      _ ← start_module i uri;
      key ← lift (gets (fun s => om_key (slot i s)));
      _ ← lift (modify (set_open_tbl <[u32 key := i]>));
      setl (set_handle (u32 key))
    end
  end.

Definition open_mod_table_open_from_static (uri_addr : Z) (over : bool) (uri : list Z) : M (mt W) (Z * option Z) :=
  r ← with_locals od_init (open_mod_table_open_from_static_body uri_addr over uri);
  let '(nErr, l) := r : Z * od in
  _ ← (if nErr =? 0 then mret tt
       else match od_dm l with Some i => release_slot i false | None => mret tt end);
  mret (nErr, od_handle l).

(** Overrides first, then the dynamic loader, then (when that could not load) the
    registered static modules. *)
Definition open_mod_table_open (uri_addr : Z) (uri : list Z) : M (mt W) (Z * option Z * Z) :=
  r1 ← open_mod_table_open_from_static uri_addr true uri;
  let '(e1, h1) := r1 : Z * option Z in
  if e1 =? 0 then mret (AEE_SUCCESS, h1, 0)
  else
    r2 ← open_mod_table_open_dynamic uri;
    let '(e2, h2, dlErr) := r2 : Z * option Z * Z in
    if negb (e2 =? AEE_SUCCESS) then mret (e2, h2, 0)
    else if dlErr =? 0 then mret (AEE_SUCCESS, h2, 0)
    else
      r3 ← open_mod_table_open_from_static uri_addr false uri;
      let '(e3, h3) := r3 : Z * option Z in
      mret (AEE_SUCCESS, h3, if e3 =? 0 then 0 else dlErr).

(** *** Closing and invoking *)

(** The end of an invocation: drops its reference. *)
Definition open_mod_close (i : nat) : M (mt W) unit :=
  _ ← modify (upd_slot i (fun d => om_set_refs (s32 (om_refs d - 1)) d));
  d ← gets (slot i);
  if om_refs d =? 0 then
    _ ← modify (set_open_tbl (delete (u32 (om_key d))));
    _ ← close_h64 i;
    _ ← close_dl i;
    modify (upd_slot i (om_set_key 0))
  else mret tt.

(** The code and [*pdlErr]. *)
Definition open_mod_table_close (handle : Z) : M (mt W) (Z * Z) :=
  r ← gets (fun s => open_tbl s !! u32 handle);
  match r with
  | None => mret (AEE_ENOSUCHMOD, 0)
  | Some i =>
    _ ← modify (upd_slot i (fun d => om_set_refs (s32 (om_refs d - 1)) d));
    d ← gets (slot i);
    if om_refs d =? 0 then
      _ ← modify (set_open_tbl (delete (u32 (om_key d))));
      _ ← modify (upd_slot i (om_set_key 0));
      _ ← close_h64 i;
      dlErr ← close_dl i;
      mret (dlErr, dlErr)
    else mret (AEE_SUCCESS, 0)
  end.

Definition open_mod_table_get_open (handle : Z) : M (mt W) (option nat) :=
  r ← gets (fun s => open_tbl s !! u32 handle);
  match r with
  | None => mret None
  | Some i => _ ← modify (upd_slot i (fun d => om_set_refs (s32 (om_refs d + 1)) d)); mret (Some i)
  end.

Definition open_mod_table_get_const (handle : Z) : M (mt W) (option const_mod) :=
  gets (fun s => constMods s !! u32 handle).

(** A call through the pair of function pointers: [invoke] when it is set. *)
Definition dispatch (inv hinv h sc : Z) (pra : list mod_arg) : M (mt W) (Z * list mod_arg) :=
  if inv =? 0 then ext (call_handle_invoke hinv h sc pra) else ext (call_invoke inv sc pra).

Definition open_mod_table_handle_invoke (handle sc : Z) (pra : list mod_arg) : M (mt W) (Z * list mod_arg) :=
  cm ← open_mod_table_get_const handle;
  match cm with
  | Some cm => dispatch (cm_invoke cm) (cm_handle_invoke cm) (cm_h64 cm) sc pra
  | None =>
    om ← open_mod_table_get_open handle;
    match om with
    | None => mret (AEE_ENOSUCHMOD, pra)
    | Some i =>
      d ← gets (slot i);
      r ← dispatch (om_invoke d) (om_handle_invoke d) (om_h64 d) sc pra;
      _ ← open_mod_close i;
      mret r
    end
  end.

(** *** The public entry points *)

(** [HAP_pls_add_lookup]: the per-process [open_mod_table], constructed on first use. *)
Definition HAP_pls_add_lookup_omt : M (mt W) Z :=
  to_bail (
    s ← get;
    match openMods s with
    | Some _ => if pls_refs s =? 0 then bail (-1) else mret tt
    | None => _ ← VERIFY 0 (negb (pls_refs s =? 0)); modify (set_open (Some ∅))
    end).

Definition HAP_pls_lookup_omt : M (mt W) Z :=
  gets (fun s => match openMods s with
                 | Some _ => if pls_refs s =? 0 then -1 else 0
                 | None => -1
                 end).

Definition mod_table_open (uri_addr : Z) (uri : option (list Z)) : M (mt W) (Z * option Z * Z) :=
  match uri with
  | None => mret (AEE_EBADPARM, None, 0)
  | Some uri =>
    e ← HAP_pls_add_lookup_omt;
    if e =? AEE_SUCCESS then open_mod_table_open uri_addr uri else mret (e, None, 0)
  end.

Definition mod_table_invoke (handle sc : Z) (pra : list mod_arg) : M (mt W) (Z * list mod_arg) :=
  e ← HAP_pls_add_lookup_omt;
  if e =? AEE_SUCCESS then open_mod_table_handle_invoke (u32 handle) sc pra else mret (e, pra).

Definition mod_table_close (handle : Z) : M (mt W) (Z * Z) :=
  e ← HAP_pls_lookup_omt;
  if e =? AEE_SUCCESS then open_mod_table_close (u32 handle) else mret (e, 0).

(** The destructor of the per-process table, run at shutdown. *)
Definition open_mod_table_dtor_imp : M (mt W) unit :=
  tbl ← gets open_tbl;
  _ ← foldr (fun i k => _ ← close_h64 i; _ ← close_dl i; _ ← modify (upd_slot i (om_set_key 0)); k)
            (mret tt) (map_to_list tbl).*2;
  modify (set_open (Some ∅)).

(** ** The table invariant

    [wf x s]: every live slot carries the key of its own address and is in the hash
    table under it, and the hash table holds nothing else; [x] is a slot under
    construction, of which nothing is required but that it is not published. *)
Hypothesis rev_table_layout : 0 < u32 rev_table /\ u32 rev_table + 5120 <= 4294967296.

Definition rev_key (i : nat) : Z := u32 (slot_addr i).

Definition is_x (x : option nat) (i : nat) : Prop := x = Some i.

Record wf (x : option nat) (s : mt W) : Prop := {
  wf_len : length (rev_handle_table s) = MAX_REV_HANDLES;
  wf_x : forall i, x = Some i -> (i < MAX_REV_HANDLES)%nat;
  wf_keys : forall i, (i < MAX_REV_HANDLES)%nat -> x <> Some i ->
              om_key (slot i s) = 0 \/ om_key (slot i s) = rev_key i;
  wf_tbl : forall k i, open_tbl s !! k = Some i ->
              (i < MAX_REV_HANDLES)%nat /\ x <> Some i /\ k = rev_key i /\ om_key (slot i s) = k;
  wf_open : forall i, (i < MAX_REV_HANDLES)%nat -> x <> Some i -> om_key (slot i s) <> 0 ->
              open_tbl s !! om_key (slot i s) = Some i
}.

Lemma rev_key_eq i : (i < 20)%nat -> rev_key i = u32 rev_table + 256 * Z.of_nat i.
Proof.
  intros Hi. unfold rev_key, slot_addr, REV_HANDLE_SIZE, u32. rewrite <- Zplus_mod_idemp_l.
  apply Z.mod_small. pose proof (u32_range rev_table). unfold u32 in *. lia.
Qed.
Lemma rev_key_inj i j : (i < 20)%nat -> (j < 20)%nat -> rev_key i = rev_key j -> i = j.
Proof. intros Hi Hj. rewrite !rev_key_eq by done. lia. Qed.
Lemma rev_key_pos i : (i < 20)%nat -> 0 < rev_key i < 4294967296.
Proof. intros Hi. rewrite rev_key_eq by done. lia. Qed.
Lemma u32_rev_key i : u32 (rev_key i) = rev_key i.
Proof. apply u32_u32. Qed.

Lemma slot_upd i j f (s : mt W) :
  length (rev_handle_table s) = MAX_REV_HANDLES -> (i < MAX_REV_HANDLES)%nat ->
  slot j (upd_slot i f s) = if decide (j = i) then f (slot i s) else slot j s.
Proof.
  intros Hl Hi. unfold slot, upd_slot, set_table. cbn. rewrite !nth_lookup.
  destruct (decide (j = i)) as [->|]; [|by rewrite list_lookup_alter_ne].
  rewrite list_lookup_alter_eq. destruct (lookup_lt_is_Some_2 (rev_handle_table s) i) as [d Hd]; [lia|].
  rewrite Hd. done.
Qed.

Lemma open_tbl_upd i f (s : mt W) : open_tbl (upd_slot i f s) = open_tbl s.
Proof. done. Qed.
Lemma length_upd i f (s : mt W) : length (rev_handle_table (upd_slot i f s)) = length (rev_handle_table s).
Proof. cbn. apply length_alter. Qed.

(** Taking a free slot, changing it, and giving it back or publishing it. *)
Lemma wf_take i s : wf None s -> (i < MAX_REV_HANDLES)%nat -> om_key (slot i s) = 0 -> wf (Some i) s.
Proof.
  intros [] Hi Hk. constructor; try done.
  - by intros ? [= <-].
  - intros j Hj _. by apply wf_keys0.
  - intros k j Hkj. destruct (wf_tbl0 _ _ Hkj) as (? & _ & ? & E). split_and!; try done.
    intros [= ->]. rewrite Hk in E. pose proof (rev_key_pos j). unfold MAX_REV_HANDLES in *. lia.
  - intros j Hj _. by apply wf_open0.
Qed.

Lemma wf_change i f s : wf (Some i) s -> wf (Some i) (upd_slot i f s).
Proof.
  intros []. pose proof (wf_x0 i eq_refl) as Hi.
  constructor; rewrite ?length_upd, ?open_tbl_upd; try done.
  - intros j Hj Hne. rewrite slot_upd by done. destruct (decide _) as [->|]; [done|by apply wf_keys0].
  - intros k j Hkj. destruct (wf_tbl0 _ _ Hkj) as (? & ? & ? & ?).
    rewrite slot_upd by done. destruct (decide _) as [->|]; [done|by split_and!].
  - intros j Hj Hne. rewrite slot_upd by done. destruct (decide _) as [->|]; [done|by apply wf_open0].
Qed.

Lemma wf_release i s : wf (Some i) s -> wf None (upd_slot i (om_set_key 0) s).
Proof.
  intros []. pose proof (wf_x0 i eq_refl) as Hi.
  constructor; rewrite ?length_upd, ?open_tbl_upd; try done.
  - intros j Hj _. rewrite slot_upd by done. destruct (decide _) as [->|]; [by left|].
    apply wf_keys0; [done|congruence].
  - intros k j Hkj. destruct (wf_tbl0 _ _ Hkj) as (? & ? & ? & ?).
    rewrite slot_upd by done. destruct (decide _) as [->|]; [done|by split_and!].
  - intros j Hj _. rewrite slot_upd by done. destruct (decide _) as [->|]; [done|].
    intros. apply wf_open0; [done|congruence|done].
Qed.

Lemma slot_set_open f j (s : mt W) : slot j (set_open_tbl f s) = slot j s.
Proof. done. Qed.
Lemma open_tbl_set f (s : mt W) : open_tbl (set_open_tbl f s) = f (open_tbl s).
Proof. done. Qed.

Lemma wf_publish i s :
  wf (Some i) s -> om_key (slot i s) = rev_key i -> wf None (set_open_tbl <[rev_key i := i]> s).
Proof.
  intros [] Hk. pose proof (wf_x0 i eq_refl) as Hi. unfold MAX_REV_HANDLES in *.
  constructor; try done; unfold MAX_REV_HANDLES in *; rewrite ?open_tbl_set; intros.
  - rewrite slot_set_open. destruct (decide (i0 = i)) as [->|]; [by right|]. apply wf_keys0; [done|congruence].
  - rewrite slot_set_open. destruct (decide (k = rev_key i)) as [->|].
    + rewrite lookup_insert_eq in H. by simplify_eq.
    + rewrite lookup_insert_ne in H by done. destruct (wf_tbl0 _ _ H) as (? & ? & ? & ?). by split_and!.
  - rewrite slot_set_open in *. destruct (decide (i0 = i)) as [->|].
    + rewrite Hk. by rewrite lookup_insert_eq.
    + rewrite lookup_insert_ne; [apply wf_open0; [done|congruence|done]|].
      destruct (wf_keys0 i0) as [E|E]; [done|congruence|congruence|].
      rewrite E. intros ?%rev_key_inj; congruence.
Qed.

(** Withdrawing a published module. *)
Lemma wf_withdraw i s :
  wf None s -> open_tbl s !! om_key (slot i s) = Some i ->
  wf (Some i) (set_open_tbl (delete (u32 (om_key (slot i s)))) s).
Proof.
  intros [] Ht. destruct (wf_tbl0 _ _ Ht) as (Hi & _ & Hk & _). rewrite Hk, u32_rev_key. clear Hk Ht.
  unfold MAX_REV_HANDLES in *.
  constructor; try done; unfold MAX_REV_HANDLES in *; rewrite ?open_tbl_set; intros.
  - by simplify_eq.
  - rewrite slot_set_open. by apply wf_keys0.
  - rewrite slot_set_open. apply lookup_delete_Some in H as [Hne H].
    destruct (wf_tbl0 _ _ H) as (? & _ & -> & ?). split_and!; try done. congruence.
  - rewrite slot_set_open in *. rewrite lookup_delete_ne; [by apply wf_open0|].
    destruct (wf_keys0 i0) as [E|E]; [done|done|congruence|].
    rewrite E. intros ?%rev_key_inj; congruence.
Qed.

(** An update that keeps a slot's key. *)
Lemma wf_keep i f s :
  (i < MAX_REV_HANDLES)%nat -> (forall d, om_key (f d) = om_key d) -> wf None s -> wf None (upd_slot i f s).
Proof.
  intros Hi Hf [].
  assert (Hk : forall j, om_key (slot j (upd_slot i f s)) = om_key (slot j s)).
  { intros j. rewrite slot_upd by done. destruct (decide _) as [->|]; [apply Hf|done]. }
  constructor; rewrite ?length_upd, ?open_tbl_upd; try done; intros; rewrite !Hk in *; eauto.
Qed.

Lemma slot_upd_same i f s : wf (Some i) s -> slot i (upd_slot i f s) = f (slot i s).
Proof. intros []. rewrite slot_upd by eauto. by rewrite decide_True. Qed.

Lemma wf_ext x s s' :
  rev_handle_table s = rev_handle_table s' -> open_tbl s = open_tbl s' -> wf x s -> wf x s'.
Proof.
  intros Ht Ho [].
  assert (Hs : forall i, slot i s = slot i s') by (intros i; unfold slot; by rewrite Ht).
  constructor; intros; rewrite <- ?Ht, <- ?Hs, <- ?Ho in *; eauto.
Qed.

Lemma wf_world x w s : wf x s -> wf x (set_world w s).
Proof. by apply wf_ext. Qed.

(** Computations that change the world of the loaded code only. *)
Definition only_world {A} (m : M (mt W) A) : Prop := forall s, exists a w, m s = (Go a, set_world w s).

Lemma set_world_same (s : mt W) : set_world (world s) s = s.
Proof. by destruct s. Qed.
Lemma set_world_twice w w' (s : mt W) : set_world w' (set_world w s) = set_world w' s.
Proof. done. Qed.

Lemma only_world_ext {A} (f : W -> A * W) : only_world (ext f).
Proof. intros s. unfold ext. destruct (f (world s)) as [a w]. by exists a, w. Qed.
Lemma only_world_gets {A} (f : mt W -> A) : only_world (gets f).
Proof. intros s. exists (f s), (world s). by rewrite set_world_same. Qed.
Lemma only_world_ret {A} (a : A) : only_world (mret a).
Proof. intros s. exists a, (world s). by rewrite set_world_same. Qed.
Lemma only_world_bind {A B} (m : M (mt W) A) (k : A -> M (mt W) B) :
  only_world m -> (forall a, only_world (k a)) -> only_world (m ≫= k).
Proof.
  intros Hm Hk s. destruct (Hm s) as (a & w & E). destruct (Hk a (set_world w s)) as (b & w' & E').
  exists b, w'. unfold mbind, M_bind. by rewrite E, E'.
Qed.
Lemma only_world_if {A} (c : bool) (m m' : M (mt W) A) :
  only_world m -> only_world m' -> only_world (if c then m else m').
Proof. by destruct c. Qed.
Hint Resolve only_world_ext only_world_gets only_world_ret only_world_bind only_world_if : bail.

Lemma only_world_handle_close i h : only_world (open_mod_handle_close i h).
Proof. unfold open_mod_handle_close. eauto with bail. Qed.
Hint Resolve only_world_handle_close : bail.
Lemma only_world_close_h64 i : only_world (close_h64 i).
Proof. unfold close_h64. eauto 10 with bail. Qed.
Lemma only_world_close_dl i : only_world (close_dl i).
Proof. unfold close_dl. eauto 10 with bail. Qed.
Lemma only_world_dispatch f g h sc pra : only_world (dispatch f g h sc pra).
Proof. unfold dispatch. eauto 10 with bail. Qed.

Lemma wp_only_world {A} (m : M (mt W) A) (Q : A -> mt W -> Prop) R s :
  only_world m -> (forall a w, Q a (set_world w s)) -> wp m Q R s.
Proof. intros Hm HQ. unfold wp. destruct (Hm s) as (a & w & ->). apply HQ. Qed.

Lemma wp_handle_open i uri (Q : Z -> mt W -> Prop) R s :
  (forall r w, r <> 0 -> Q r (set_world w s)) ->
  (forall h w, Q 0 (upd_slot i (om_set_h64 h) (set_world w s))) ->
  wp (open_mod_handle_open i uri) Q R s.
Proof.
  intros HR HQ. unfold open_mod_handle_open. do 2 wp_step. cbn beta. wp_step.
  apply wp_only_world; [apply only_world_ext|]. intros [r args] w. wp_step. wp_step.
  - wp_step. wp_step. apply Z.eqb_eq in H as ->. apply HQ.
  - wp_step. wp_step. apply Z.eqb_neq in H. by apply HR.
Qed.

(** Where a search found a slot. *)
Lemma find_slot_spec p t : forall i j,
  find_slot p i t = Some j -> exists k, j = (i + k)%nat /\ (k < length t)%nat /\ p (nth k t zero_mod) = true.
Proof.
  induction t as [|d t IH]; intros i j; cbn [find_slot]; [done|].
  destruct (p d) eqn:Hp.
  - intros [= <-]. exists O. cbn. split_and!; [lia|lia|done].
  - intros (k & -> & Hk & Hpk)%IH. exists (S k). cbn. split_and!; [lia|lia|done].
Qed.

Lemma find_slot_None p t : forall i, find_slot p i t = None -> forall k, (k < length t)%nat -> p (nth k t zero_mod) = false.
Proof.
  induction t as [|d t IH]; intros i; cbn; [lia|].
  destruct (p d) eqn:Hp; [done|]. intros H [|k] Hk; [done|]. apply (IH _ H). lia.
Qed.

Lemma wp_is_opened uri (Q : option Z -> mt W -> Prop) R s :
  wf None s ->
  (Q None s) ->
  (forall i, (i < MAX_REV_HANDLES)%nat -> om_key (slot i s) = rev_key i -> same_uri (om_uri (slot i s)) uri = true ->
     Q (Some (rev_key i)) (upd_slot i (fun d => om_set_refs (s32 (om_refs d + 1)) d) s)) ->
  wp (is_reverse_handle_opened uri) Q R s.
Proof.
  intros Hwf HN HS. unfold is_reverse_handle_opened. do 2 wp_step.
  destruct (find_slot _ _ _) as [i|] eqn:E; [|by wp_step].
  apply find_slot_spec in E as (k & -> & Hk & Hp). cbn in Hp. apply andb_true_iff in Hp as [Hp Hu].
  rewrite (wf_len _ _ Hwf) in Hk. fold (slot k s) in Hp, Hu.
  apply negb_true_iff, Z.eqb_neq in Hp.
  destruct (wf_keys _ _ Hwf k Hk) as [|Hkey]; [done|done|].
  do 2 wp_step. do 3 wp_step. cbn [Nat.add]. rewrite slot_upd by (done || apply Hwf).
  rewrite decide_True by done. cbn [om_set_refs om_key]. rewrite Hkey, u32_rev_key. by apply HS.
Qed.

Lemma wp_next_available (Q : Z * nat -> mt W -> Prop) R s :
  wf None s ->
  (forall i, (i < MAX_REV_HANDLES)%nat -> om_key (slot i s) = 0 -> Q (0, i) s) ->
  ((forall i, (i < MAX_REV_HANDLES)%nat -> om_key (slot i s) <> 0) -> Q (AEE_EUNKNOWN, O) s) ->
  wp next_available_rev_handle Q R s.
Proof.
  intros Hwf HS HN. unfold next_available_rev_handle. do 3 wp_step.
  destruct (find_slot _ _ _) as [i|] eqn:E.
  - apply find_slot_spec in E as (k & -> & Hk & Hp). cbn in Hp. rewrite (wf_len _ _ Hwf) in Hk.
    apply HS; [done|]. by apply Z.eqb_eq.
  - apply HN. intros i Hi. pose proof (find_slot_None _ _ _ E i) as Hn. rewrite (wf_len _ _ Hwf) in Hn.
    specialize (Hn Hi). by apply Z.eqb_neq.
Qed.

(** *** The open functions keep the invariant *)
Definition under_construction (e : Z) (sl : mt W * od) : Prop :=
  e <> 0 /\ match od_dm sl.2 with Some i => wf (Some i) sl.1 | None => wf None sl.1 end.

Definition opened (s : mt W) (h : Z) : Prop :=
  exists i, (i < MAX_REV_HANDLES)%nat /\ h = rev_key i /\ open_tbl s !! h = Some i.

Definition handed_out (sl : mt W * od) : Prop :=
  wf None sl.1 /\ exists h, od_handle sl.2 = Some h /\ opened sl.1 h.

Lemma opened_live s i f :
  wf None s -> (i < MAX_REV_HANDLES)%nat -> om_key (slot i s) = rev_key i -> opened (upd_slot i f s) (rev_key i).
Proof.
  intros Hwf Hi Hk. exists i. split_and!; try done. rewrite open_tbl_upd, <- Hk. apply (wf_open _ _ Hwf); [done..|].
  rewrite Hk. pose proof (rev_key_pos i). unfold MAX_REV_HANDLES in *. lia.
Qed.

Lemma wp_print_checked n t (Q : list Z -> mt W * od -> Prop) R sl :
  (forall tmp, Q tmp sl) -> R AEE_EBADPARM sl -> wp (print_checked n t) Q R sl.
Proof. intros HQ HR. unfold print_checked, snprintf. do 2 wp_step; [by wp_step|done]. Qed.

Lemma wp_upd i f (Q : unit -> mt W -> Prop) R s :
  wf (Some i) s -> (forall s', wf (Some i) s' -> open_tbl s' = open_tbl s -> constMods s' = constMods s -> s' = upd_slot i f s -> Q tt s') ->
  wp (modify (upd_slot i f)) Q R s.
Proof. intros Hwf HQ. wp_step. apply HQ; try done. by apply wf_change. Qed.

Lemma under_bad e s l i : od_dm l = Some i -> e <> 0 -> wf (Some i) s -> under_construction e (s, l).
Proof. intros Hl He Hwf. split; [done|]. cbn. by rewrite Hl. Qed.

Lemma wp_dl_load i tmp n (Q : unit -> mt W * od -> Prop) s l :
  wf (Some i) s -> od_dm l = Some i ->
  (forall s' l', wf (Some i) s' -> od_dm l' = Some i -> Q tt (s', l')) ->
  wp (dl_load i tmp n) Q under_construction (s, l).
Proof.
  intros Hwf Hl HQ. unfold dl_load. wp_step. wp_step.
  apply wp_only_world; [apply only_world_ext|]. intros [h en] w. wp_step. wp_step.
  apply wp_upd; [by apply wf_world|]. intros s1 Hwf1 _ _ _. do 2 wp_step. wp_step.
  - wp_step. wp_step; [|by eapply under_bad]. wp_step. wp_step; [|by eapply under_bad].
    wp_step. wp_step. apply wp_only_world; [apply only_world_ext|]. intros [h' en'] w'. wp_step. wp_step.
    apply wp_upd; [by apply wf_world|]. intros s2 Hwf2 _ _ _. wp_step. by apply HQ.
  - wp_step. by apply HQ.
Qed.

Lemma wp_dl_symbol i tmp ver (Q : unit -> mt W * od -> Prop) s l :
  wf (Some i) s -> od_dm l = Some i ->
  (forall s' l', wf (Some i) s' -> od_dm l' = Some i -> Q tt (s', l')) ->
  wp (dl_symbol i tmp ver) Q under_construction (s, l).
Proof.
  intros Hwf Hl HQ. unfold dl_symbol. do 3 wp_step. wp_step. wp_step.
  apply wp_only_world; [apply only_world_ext|]. intros f w. wp_step. wp_step.
  apply wp_upd; [by apply wf_world|]. intros s1 Hwf1 _ _ _. do 2 wp_step.
  wp_step; [by apply HQ|by eapply under_bad].
Qed.

Lemma wp_start_module i uri (Q : unit -> mt W * od -> Prop) s l :
  wf (Some i) s -> od_dm l = Some i ->
  (forall s' l', wf (Some i) s' -> om_key (slot i s') = rev_key i -> od_dm l' = Some i -> Q tt (s', l')) ->
  wp (start_module i uri) Q under_construction (s, l).
Proof.
  intros Hwf Hl HQ. unfold start_module. wp_step. wp_step.
  apply wp_upd; [done|]. intros s1 Hwf1 _ _ Hs1.
  assert (Hk : om_key (slot i s1) = rev_key i).
  { subst s1. by rewrite slot_upd_same. }
  do 3 wp_step. wp_step; [wp_step; by apply HQ|].
  wp_step. wp_step. apply wp_handle_open.
  - intros r w Hr. split; [done|]. intros _. eapply under_bad; [done..|by apply wf_world].
  - intros h w. split; [|done]. intros _. apply HQ; [by apply wf_change, wf_world| |done].
    rewrite slot_upd_same by (by apply wf_world). done.
Qed.

Lemma verify_code_nz n : (if n =? 0 then -1 else n) <> 0.
Proof. destruct (Z.eqb_spec n 0); lia. Qed.

Lemma free_key_free fuel tbl key : tbl !! u32 key = None -> free_key fuel tbl key = key.
Proof. intros H. destruct fuel; cbn; [done|by rewrite H]. Qed.

Lemma wf_unpublished i s : wf (Some i) s -> open_tbl s !! rev_key i = None.
Proof.
  intros Hwf. destruct (_ !! _) as [j|] eqn:E; [|done]. exfalso.
  destruct (wf_tbl _ _ Hwf _ _ E) as (Hj & Hne & He & _).
  apply rev_key_inj in He; [congruence|by eapply wf_x|done].
Qed.

Lemma wp_publish i (Q : unit -> mt W * od -> Prop) R s l :
  wf (Some i) s -> om_key (slot i s) = rev_key i ->
  (forall s' l', wf None s' -> opened s' (rev_key i) -> od_handle l' = Some (rev_key i) -> Q tt (s', l')) ->
  wp (_ ← lift (modify (set_open_tbl <[rev_key i := i]>)); setl (set_handle (rev_key i))) Q R (s, l).
Proof.
  intros Hwf Hk HQ. do 3 wp_step. wp_step. apply HQ; [by apply wf_publish| |done].
  exists i. split_and!; [by eapply wf_x|done|]. by rewrite open_tbl_set, lookup_insert_eq.
Qed.

Lemma dynamic_body_wf uri s :
  wf None s ->
  wp (open_mod_table_open_dynamic_body uri) (fun _ sl => handed_out sl) under_construction (s, od_init).
Proof.
  intros Hwf. unfold open_mod_table_open_dynamic_body. wp_step. wp_step; [|done].
  wp_step. wp_step. apply wp_is_opened; [done| |].
  2: { intros i Hi Hk Hu. wp_step. split; [by apply wf_keep|]. exists (rev_key i). split; [done|].
       by apply opened_live. }
  wp_step. wp_step. apply wp_next_available; [done| |].
  2: { intros _. wp_step. by apply wp_VERIFYC. }
  intros i Hi Hki. wp_step. wp_step; [|done]. wp_step. wp_step; [|done].
  wp_step. wp_step. wp_step. wp_step.
  apply wp_upd; [by apply wf_take|]. intros s1 Hwf1 _ _ _. wp_step.
  apply wp_print_checked; [|by eapply under_bad]. intros tmp1. wp_step.
  apply wp_dl_load; [done..|]. intros s2 l2 Hwf2 Hl2. do 2 wp_step. wp_step.
  wp_step; [|eapply under_bad; [done|apply verify_code_nz|done]].
  wp_step. apply wp_print_checked; [|by eapply under_bad]. intros tmp2. wp_step.
  apply wp_dl_symbol; [done..|]. intros s3 l3 Hwf3 Hl3. wp_step.
  apply wp_start_module; [done..|]. intros s4 l4 Hwf4 Hk4 Hl4. do 3 wp_step. do 3 wp_step.
  rewrite Hk4, free_key_free by (rewrite u32_rev_key; by apply wf_unpublished).
  wp_step. wp_step. apply wp_upd; [done|]. intros s5 Hwf5 _ _ Hs5.
  assert (Hk5 : om_key (slot i s5) = rev_key i).
  { subst s5. by rewrite slot_upd_same. }
  do 3 wp_step. rewrite u32_rev_key. destruct (constMods s5 !! rev_key i); [wp_step; by eapply under_bad|].
  apply wp_publish; [done..|]. intros s6 l6 ???. split; [done|]. by exists (rev_key i).
Qed.

Lemma static_body_wf a over uri s :
  wf None s ->
  wp (open_mod_table_open_from_static_body a over uri) (fun _ sl => handed_out sl) under_construction (s, od_init).
Proof.
  intros Hwf. unfold open_mod_table_open_from_static_body. wp_step. wp_step; [|done].
  wp_step. wp_step. apply wp_is_opened; [done| |].
  2: { intros i Hi Hk Hu. wp_step. split; [by apply wf_keep|]. exists (rev_key i). split; [done|].
       by apply opened_live. }
  wp_step. wp_step. apply wp_next_available; [done| |].
  2: { intros _. wp_step. by apply wp_VERIFYC. }
  intros i Hi Hki. wp_step. wp_step; [|done]. wp_step. wp_step; [|done].
  wp_step. wp_step. wp_step. wp_step.
  apply wp_upd; [by apply wf_take|]. intros s1 Hwf1 _ _ _. do 3 wp_step.
  assert (Hrest : forall sm s2, wf (Some i) s2 ->
    wp (match sm with
        | None => bail AEE_ENOSUCHMOD
        | Some sm =>
          _ ← lift (modify (upd_slot i (om_set_fns (sm_invoke sm) (sm_handle_invoke sm))));
          _ ← start_module i uri;
          key ← lift (gets (fun s => om_key (slot i s)));
          _ ← lift (modify (set_open_tbl <[u32 key := i]>));
          setl (set_handle (u32 key))
        end) (fun _ sl => handed_out sl) under_construction (s2, set_dm i od_init)).
  { intros [sm|] s2 Hwf2; [|wp_step; by eapply under_bad].
    wp_step. wp_step. apply wp_upd; [done|]. intros s3 Hwf3 _ _ _. wp_step.
    apply wp_start_module; [done..|]. intros s4 l4 Hwf4 Hk4 Hl4. do 3 wp_step.
    rewrite Hk4, u32_rev_key.
    apply wp_publish; [done..|]. intros s6 l6 ???. split; [done|]. by exists (rev_key i). }
  wp_step. destruct (hash_find_str _ _) as [sm|]; [wp_step; by apply (Hrest (Some sm))|].
  destruct (parse_uri_at a uri) as [e vals]. wp_step. wp_step.
  2: { eapply under_bad; [done|apply verify_code_nz|done]. }
  wp_step. apply wp_print_checked; [|by eapply under_bad]. intros u. wp_step. wp_step.
  apply wp_upd; [done|]. intros s2 Hwf2 _ _ _. do 2 wp_step. by apply (Hrest (hash_find_str _ u)).
Qed.

Lemma wp_close_h64 i (Q : unit -> mt W -> Prop) R s :
  (forall w, Q tt (set_world w s)) -> wp (close_h64 i) Q R s.
Proof. intros HQ. apply wp_only_world; [apply only_world_close_h64|]. by intros []. Qed.
Lemma wp_close_dl i (Q : Z -> mt W -> Prop) R s :
  (forall e w, Q e (set_world w s)) -> wp (close_dl i) Q R s.
Proof. intros HQ. apply wp_only_world; [apply only_world_close_dl|done]. Qed.

Lemma wp_release_slot i dl (Q : unit -> mt W -> Prop) R s :
  wf (Some i) s -> (forall s', wf None s' -> Q tt s') -> wp (release_slot i dl) Q R s.
Proof.
  intros Hwf HQ. unfold release_slot. wp_step. apply wp_close_h64. intros w. wp_step. destruct dl.
  - wp_step. apply wp_close_dl. intros e w'. do 2 wp_step. apply HQ, wf_release. by do 2 apply wf_world.
  - do 2 wp_step. apply HQ, wf_release. by apply wf_world.
Qed.

(** The result of an open function: the invariant, and a published handle when the
    code is 0 and no loader error is reported. *)
Definition open_ok (e dl : Z) (h : option Z) (s : mt W) : Prop :=
  wf None s /\ (e = 0 -> dl = 0 -> exists k, h = Some k /\ opened s k).

Lemma wp_open_dynamic uri (Q : Z * option Z * Z -> mt W -> Prop) R s :
  wf None s -> (forall e h dl s', open_ok e dl h s' -> Q (e, h, dl) s') ->
  wp (open_mod_table_open_dynamic uri) Q R s.
Proof.
  intros Hwf HQ. unfold open_mod_table_open_dynamic. do 2 wp_step.
  eapply wp_mono; [by apply dynamic_body_wf| |].
  - intros _ [s' l] [Hwf' (h & Hh & Ho)]. cbn [fst snd] in *. rewrite Z.eqb_refl. wp_step. apply HQ. split; [done|]. eauto.
  - intros e [s' l] [He Hl]. cbn [fst snd] in *. rewrite (proj2 (Z.eqb_neq e AEE_SUCCESS)) by done.
    assert (Hend : forall s'', wf None s'' -> Q (if od_dlErr l =? 0 then e else 0, od_handle l, od_dlErr l) s'').
    { intros s'' Hw. apply HQ. split; [done|]. destruct (Z.eqb_spec (od_dlErr l) 0); [done|congruence]. }
    wp_step. destruct (od_dm l) as [i|].
    + apply wp_release_slot; [done|]. intros s'' Hw. wp_step. by apply Hend.
    + wp_step. wp_step. by apply Hend.
Qed.

Lemma wp_open_static a over uri (Q : Z * option Z -> mt W -> Prop) R s :
  wf None s -> (forall e h s', open_ok e 0 h s' -> Q (e, h) s') ->
  wp (open_mod_table_open_from_static a over uri) Q R s.
Proof.
  intros Hwf HQ. unfold open_mod_table_open_from_static. do 2 wp_step.
  eapply wp_mono; [by apply static_body_wf| |].
  - intros _ [s' l] [Hwf' (h & Hh & Ho)]. cbn [fst snd] in *. change (AEE_SUCCESS =? 0) with true. do 3 wp_step. apply HQ. split; [done|]. eauto.
  - intros e [s' l] [He Hl]. cbn [fst snd] in *. rewrite (proj2 (Z.eqb_neq e 0)) by done. wp_step.
    assert (Hend : forall s'', wf None s'' -> Q (e, od_handle l) s'').
    { intros s'' Hw. apply HQ. by split. }
    destruct (od_dm l) as [i|].
    + apply wp_release_slot; [done|]. intros s'' Hw. wp_step. by apply Hend.
    + do 2 wp_step. by apply Hend.
Qed.

Lemma wp_table_open a uri (Q : Z * option Z * Z -> mt W -> Prop) R s :
  wf None s -> (forall e h dl s', open_ok e dl h s' -> Q (e, h, dl) s') ->
  wp (open_mod_table_open a uri) Q R s.
Proof.
  intros Hwf HQ. unfold open_mod_table_open. wp_step. apply wp_open_static; [done|].
  intros e1 h1 s1 [Hw1 H1]. destruct (Z.eqb_spec e1 0) as [->|].
  { wp_step. apply HQ. split; [done|]. auto. }
  wp_step. apply wp_open_dynamic; [done|]. intros e2 h2 dl s2 [Hw2 H2].
  destruct (Z.eqb_spec e2 AEE_SUCCESS) as [->|]; cbn [negb].
  2: { wp_step. apply HQ. by split. }
  destruct (Z.eqb_spec dl 0) as [->|].
  { wp_step. apply HQ. by split. }
  wp_step. apply wp_open_static; [done|]. intros e3 h3 s3 [Hw3 H3]. wp_step. apply HQ. split; [done|].
  intros _. destruct (Z.eqb_spec e3 0) as [->|]; [auto|done].
Qed.

Lemma wp_pls_add_lookup (Q : Z -> mt W -> Prop) R s :
  wf None s ->
  (forall e s', wf None s' -> rev_handle_table s' = rev_handle_table s -> open_tbl s' = open_tbl s ->
     constMods s' = constMods s -> Q e s') ->
  wp HAP_pls_add_lookup_omt Q R s.
Proof.
  intros Hwf HQ. unfold HAP_pls_add_lookup_omt. wp_step. wp_step. unfold wp at 1, get.
  destruct (openMods s) as [t|] eqn:Ho.
  - destruct (_ =? 0); wp_step; by apply HQ.
  - wp_step. wp_step; [|by apply HQ]. wp_step. apply HQ; try done.
    + eapply wf_ext; [..|done]; [done|]. unfold open_tbl. by rewrite Ho.
    + unfold open_tbl. by rewrite Ho.
Qed.

Lemma wf_lookup s k i : wf None s -> open_tbl s !! k = Some i -> (i < MAX_REV_HANDLES)%nat /\ om_key (slot i s) = k /\ k = rev_key i.
Proof. intros Hwf H. destruct (wf_tbl _ _ Hwf _ _ H) as (?&_&?&?). done. Qed.

Lemma wf_unref s i g :
  wf None s -> open_tbl s !! rev_key i = Some i ->
  wf None (upd_slot i (fun d => om_set_refs (g d) d) s).
Proof. intros Hwf H. apply wf_keep; [by eapply wf_lookup|done|done]. Qed.

Lemma wf_withdraw' s i :
  wf None s -> open_tbl s !! rev_key i = Some i ->
  wf (Some i) (set_open_tbl (delete (u32 (om_key (slot i s)))) s).
Proof.
  intros Hwf H. apply wf_withdraw; [done|]. by destruct (wf_lookup _ _ _ Hwf H) as (_ & -> & _).
Qed.

Lemma wp_table_close h (Q : Z * Z -> mt W -> Prop) R s :
  wf None s -> (forall r s', wf None s' -> Q r s') -> wp (open_mod_table_close h) Q R s.
Proof.
  intros Hwf HQ. unfold open_mod_table_close. do 2 wp_step.
  destruct (_ !! _) as [i|] eqn:E; [|wp_step; by apply HQ].
  destruct (wf_lookup _ _ _ Hwf E) as (Hi & Hk & Hr). rewrite Hr in E.
  do 2 wp_step. do 2 wp_step. pose proof (wf_unref s i (fun d => s32 (om_refs d - 1)) Hwf E) as Hwf'.
  wp_step; [|wp_step; by apply HQ]. do 2 wp_step. do 2 wp_step. wp_step.
  apply wp_close_h64. intros w. wp_step. apply wp_close_dl. intros e w'. wp_step. apply HQ.
  do 2 apply wf_world. apply wf_release. by apply wf_withdraw'.
Qed.

Lemma wp_mod_close i (Q : unit -> mt W -> Prop) R s :
  wf None s -> open_tbl s !! rev_key i = Some i -> (forall r s', wf None s' -> Q r s') -> wp (open_mod_close i) Q R s.
Proof.
  intros Hwf E HQ. unfold open_mod_close. do 2 wp_step. do 2 wp_step.
  pose proof (wf_unref s i (fun d => s32 (om_refs d - 1)) Hwf E) as Hwf'.
  wp_step; [|wp_step; by apply HQ]. do 3 wp_step.
  apply wp_close_h64. intros w. wp_step. apply wp_close_dl. intros e w'. wp_step. apply HQ.
  apply wf_release. do 2 apply wf_world. by apply wf_withdraw'.
Qed.

Lemma wp_handle_invoke h sc pra (Q : Z * list mod_arg -> mt W -> Prop) R s :
  wf None s -> (forall r s', wf None s' -> Q r s') -> wp (open_mod_table_handle_invoke h sc pra) Q R s.
Proof.
  intros Hwf HQ. unfold open_mod_table_handle_invoke, open_mod_table_get_const, open_mod_table_get_open. do 2 wp_step.
  destruct (constMods s !! _) as [cm|].
  { apply wp_only_world; [apply only_world_dispatch|]. intros r w. apply HQ. by apply wf_world. }
  do 3 wp_step. destruct (_ !! _) as [i|] eqn:E; [|do 2 wp_step; by apply HQ].
  destruct (wf_lookup _ _ _ Hwf E) as (Hi & Hk & Hr). rewrite Hr in E.
  do 3 wp_step. do 2 wp_step. wp_step. apply wp_only_world; [apply only_world_dispatch|]. intros r w.
  wp_step. apply wp_mod_close; [by apply wf_world, wf_unref|done|]. intros [] s' Hw. wp_step. by apply HQ.
Qed.

(** ** Reachable tables *)
Definition mt_init (w : W) : mt W := Mt false [] [] ∅ 1 None (repeat zero_mod MAX_REV_HANDLES) w.

Inductive mt_reach : mt W -> Prop :=
| reach_init w : mt_reach (mt_init w)
| reach_static over uri inv hinv s :
    mt_reach s -> mt_reach (after_ctor (static_mod_add over uri inv hinv) s).2
| reach_const lcl remote uri inv hinv s :
    mt_reach s -> mt_reach (after_ctor (static_mod_table_register_const_handle lcl remote uri inv hinv) s).2
| reach_open a uri s : mt_reach s -> mt_reach (mod_table_open a uri s).2
| reach_invoke h sc pra s : mt_reach s -> mt_reach (mod_table_invoke h sc pra s).2
| reach_close h s : mt_reach s -> mt_reach (mod_table_close h s).2
| reach_world w s : mt_reach s -> mt_reach (set_world w s).

Lemma wf_init w : wf None (mt_init w).
Proof.
  assert (Hs : forall i, slot i (mt_init w) = zero_mod).
  { intros i. unfold slot, mt_init. cbn [rev_handle_table]. apply nth_repeat. }
  constructor; try done; intros; rewrite ?Hs in *; try done. by left.
Qed.

(** From a weakest precondition to the resulting state. *)
Lemma wp_state {A} (m : M (mt W) A) (P : mt W -> Prop) s :
  wp m (fun _ s' => P s') (fun _ s' => P s') s -> P (m s).2.
Proof. unfold wp. by destruct (m s) as [[]]. Qed.

Lemma wf_static s b o t c : wf None s -> wf None (set_static b o t c s).
Proof. by apply wf_ext. Qed.

Lemma wf_after_ctor (k : M (mt W) Z) s :
  (forall s, wf None s -> wf None (k s).2) -> wf None s -> wf None (after_ctor k s).2.
Proof.
  intros Hk Hwf. unfold after_ctor, static_mod_table_ctor. munfold. cbn. apply Hk.
  destruct (bInit s); [done|by apply wf_static].
Qed.

Lemma wp_mod_table_open a uri (Q : Z * option Z * Z -> mt W -> Prop) R s :
  wf None s -> (forall e h dl s', open_ok e dl h s' -> Q (e, h, dl) s') ->
  wp (mod_table_open a uri) Q R s.
Proof.
  intros Hwf HQ. unfold mod_table_open. destruct uri as [uri|]; [|wp_step; by apply HQ].
  wp_step. apply wp_pls_add_lookup; [done|]. intros e s' Hw _ _ _. wp_step.
  - by apply wp_table_open.
  - wp_step. apply HQ. split; [done|]. intros ->. done.
Qed.

Lemma mod_table_reach_wf s : mt_reach s -> wf None s.
Proof.
  induction 1 as [w|over uri inv hinv s _ IH|lcl remote uri inv hinv s _ IH|a uri s _ IH|h sc pra s _ IH|h s _ IH|w s _ IH].
  - apply wf_init.
  - apply wf_after_ctor; [|done]. intros s' Hw. cbn. by destruct over; apply wf_static.
  - apply wf_after_ctor; [|done]. intros s' Hw. unfold static_mod_table_register_const_handle. munfold.
    destruct (_ !! _); [done|by apply wf_static].
  - apply wp_state. apply wp_mod_table_open; [done|]. by intros e h dl s' [].
  - apply wp_state. unfold mod_table_invoke. wp_step. apply wp_pls_add_lookup; [done|].
    intros e s' Hw _ _ _. wp_step; [by apply wp_handle_invoke|by wp_step].
  - apply wp_state. unfold mod_table_close, HAP_pls_lookup_omt. do 2 wp_step. wp_step; [by apply wp_table_close|by wp_step].
  - by apply wf_world.
Qed.

(** C4: In every reachable table the handle table and the reverse slots agree: the
    slots in use are exactly the published handles, each under the key of its own
    slot, so no two modules share a handle; and a [mod_table_open] that reports
    neither an error nor a loader error has handed out a published handle. *)
Theorem mod_table_invariant s :
  mt_reach s ->
  (forall i, (i < MAX_REV_HANDLES)%nat -> om_key (slot i s) <> 0 <-> open_tbl s !! rev_key i = Some i) /\
  (forall k i, open_tbl s !! k = Some i -> (i < MAX_REV_HANDLES)%nat /\ om_key (slot i s) = k) /\
  (forall k k' i, open_tbl s !! k = Some i -> open_tbl s !! k' = Some i -> k = k') /\
  (forall a uri h s', mod_table_open a uri s = (Go (AEE_SUCCESS, h, 0), s') ->
     exists k, h = Some k /\ opened s' k).
Proof.
  intros Hwf%mod_table_reach_wf. split_and!.
  - intros i Hi. split.
    + intros Hk. destruct (wf_keys _ _ Hwf i Hi) as [E|E]; [done|done|]. rewrite <- E. by apply (wf_open _ _ Hwf).
    + intros H. destruct (wf_lookup _ _ _ Hwf H) as (_ & -> & _). pose proof (rev_key_pos i Hi). lia.
  - intros k i H. by destruct (wf_lookup _ _ _ Hwf H) as (? & ? & _).
  - intros k k' i H H'. destruct (wf_lookup _ _ _ Hwf H) as (_ & _ & ->).
    by destruct (wf_lookup _ _ _ Hwf H') as (_ & _ & ->).
  - intros a uri h s' E.
    pose proof (wp_mod_table_open a uri
      (fun r s' => let '(e, h, dl) := r in e = 0 -> dl = 0 -> exists k, h = Some k /\ opened s' k)
      (fun _ _ => True) s Hwf) as H.
    unfold wp in H. rewrite E in H. apply H; [|done|done]. by intros e h' dl s'' [].
Qed.

(** ** Functional behaviour *)
Definition live (s : mt W) (i : nat) : Prop :=
  wf None s /\ pls_refs s <> 0 /\ is_Some (openMods s) /\ open_tbl s !! rev_key i = Some i.

Lemma pls_ready s : pls_refs s <> 0 -> is_Some (openMods s) -> HAP_pls_add_lookup_omt s = (Go 0, s).
Proof.
  intros Hr [t Ht]. unfold HAP_pls_add_lookup_omt. munfold. rewrite Ht.
  by rewrite (proj2 (Z.eqb_neq _ _)).
Qed.

Lemma live_get s i : live s i ->
  (i < MAX_REV_HANDLES)%nat /\ om_key (slot i s) = rev_key i /\ length (rev_handle_table s) = MAX_REV_HANDLES.
Proof.
  intros (Hwf & _ & _ & H). destruct (wf_lookup _ _ _ Hwf H) as (? & ? & _). split_and!; try done. apply Hwf.
Qed.

Lemma upd_upd i f g (s : mt W) : upd_slot i f (upd_slot i g s) = upd_slot i (fun d => f (g d)) s.
Proof. unfold upd_slot, set_table. cbn. f_equal. apply list_alter_alter_eq. Qed.

Lemma upd_id i f (s : mt W) : (forall d, slot i s = d -> f d = d) -> upd_slot i f s = s.
Proof.
  intros Hf. destruct s. unfold upd_slot, set_table, slot in *. cbn in *. f_equal.
  rewrite <- (list_alter_id id rev_handle_table0 i) at 2 by done. apply list_alter_ext; [|done].
  intros x Hx. apply Hf. by apply nth_lookup_Some.
Qed.

(** The function a live module dispatches to. *)
Definition module_call (d : open_mod) (sc : Z) (pra : list mod_arg) : W -> (Z * list mod_arg) * W :=
  if om_invoke d =? 0 then call_handle_invoke (om_handle_invoke d) (om_h64 d) sc pra
  else call_invoke (om_invoke d) sc pra.

Lemma dispatch_call d sc pra s :
  dispatch (om_invoke d) (om_handle_invoke d) (om_h64 d) sc pra s =
  (Go (module_call d sc pra (world s)).1, set_world (module_call d sc pra (world s)).2 s).
Proof.
  unfold dispatch, module_call, ext. destruct (om_invoke d =? 0).
  - by destruct (call_handle_invoke _ _ _ _ _).
  - by destruct (call_invoke _ _ _ _).
Qed.

(** C5: Invoking a published handle calls exactly the function the module was opened
    with (its [invoke], else its [handle_invoke] with its [h64]), returns what that
    function returns, and leaves the table as it was: the reference taken for the
    call is given back. *)
Theorem invoke_open_module s i sc pra :
  live s i -> constMods s !! rev_key i = None -> 0 < om_refs (slot i s) < INT_MAX ->
  mod_table_invoke (rev_key i) sc pra s =
    (Go (module_call (slot i s) sc pra (world s)).1,
     set_world (module_call (slot i s) sc pra (world s)).2 s).
Proof.
  intros Hl Hc Hr. destruct (live_get _ _ Hl) as (Hi & Hk & Hlen).
  destruct Hl as (Hwf & Hp & Ho & Ht). unfold INT_MAX in Hr.
  unfold mod_table_invoke, open_mod_table_handle_invoke, open_mod_table_get_const, open_mod_table_get_open.
  set (inc := fun d => om_set_refs (s32 (om_refs d + 1)) d).
  unfold mbind, M_bind. rewrite pls_ready by done. cbn beta iota.
  change (0 =? AEE_SUCCESS) with true. cbn beta iota. rewrite !u32_rev_key. munfold. rewrite ?u32_rev_key, Hc, Ht.
  fold inc. rewrite dispatch_call.
  assert (Hsl : slot i (upd_slot i inc s) = om_set_refs (om_refs (slot i s) + 1) (slot i s)).
  { rewrite slot_upd, decide_True by done. unfold inc. by rewrite s32_small by lia. }
  rewrite Hsl. change (module_call (om_set_refs _ ?d)) with (module_call d).
  change (world (upd_slot i inc s)) with (world s).
  set (w := (module_call (slot i s) sc pra (world s)).2).
  unfold open_mod_close. munfold.
  assert (Hback : upd_slot i (fun d => om_set_refs (s32 (om_refs d - 1)) d) (set_world w (upd_slot i inc s)) = set_world w s).
  { change (set_world w (upd_slot i (fun d => om_set_refs (s32 (om_refs d - 1)) d) (upd_slot i inc s)) = set_world w s).
    f_equal. rewrite upd_upd. apply upd_id. intros d <-. unfold inc. cbn [om_refs om_set_refs].
    rewrite (s32_small (_ + 1)) by lia. rewrite s32_small by lia.
    destruct (slot i s); unfold om_set_refs; cbn. f_equal. lia. }
  rewrite Hback. change (slot i (set_world w s)) with (slot i s).
  rewrite (proj2 (Z.eqb_neq _ _)) by lia. done.
Qed.

(** What the last close of a module does to the world: the module's own close call,
    then [dlclose]. *)
Definition close_effect (d : open_mod) (w : W) : Z * W :=
  let w := if om_h64 d =? 0 then w
           else (call_handle_invoke (om_handle_invoke d) 0 (REMOTE_SCALARS_MAKEX 0 1 0 0 1 0) [AHandle (om_h64 d)] w).2 in
  if om_dlhandle d =? 0 then (0, w) else DLCLOSE (om_dlhandle d) w.

Lemma close_both i s :
  (_ ← close_h64 i; close_dl i) s =
  (Go (close_effect (slot i s) (world s)).1, set_world (close_effect (slot i s) (world s)).2 s).
Proof.
  unfold close_h64, close_dl, open_mod_handle_close, close_effect, ext. munfold.
  destruct (om_h64 (slot i s) =? 0); cbn [world].
  - destruct (om_dlhandle (slot i s) =? 0); cbn [fst snd]; [by rewrite set_world_same|]. by destruct (DLCLOSE _ _).
  - destruct (call_handle_invoke _ _ _ _ _) as [r w]. change (slot i (set_world w s)) with (slot i s).
    cbn [fst snd]. destruct (om_dlhandle (slot i s) =? 0); [done|]. cbn [world set_world]. by destruct (DLCLOSE _ _).
Qed.

(** Closing a handle that was opened more than once only drops one reference.
    Closing its last reference unpublishes the handle, frees its slot and no other,
    makes the module's own close call and then [dlclose] (whose code is returned, also
    in [*pdlErr]), and every later invocation of the handle fails with
    [AEE_ENOSUCHMOD] and calls nothing. *)
Theorem close_module s i :
  live s i -> 0 < om_refs (slot i s) < INT_MAX ->
  (1 < om_refs (slot i s) ->
     mod_table_close (rev_key i) s =
       (Go (AEE_SUCCESS, 0), upd_slot i (om_set_refs (om_refs (slot i s) - 1)) s)) /\
  (om_refs (slot i s) = 1 -> exists s',
     let '(e, w) := close_effect (slot i s) (world s) in
     mod_table_close (rev_key i) s = (Go (e, e), s') /\ world s' = w /\
     open_tbl s' = delete (rev_key i) (open_tbl s) /\ om_key (slot i s') = 0 /\
     (forall j, j <> i -> slot j s' = slot j s) /\
     (constMods s !! rev_key i = None -> forall sc pra,
        mod_table_invoke (rev_key i) sc pra s' = (Go (AEE_ENOSUCHMOD, pra), s'))).
Proof.
  intros Hl Hr. destruct (live_get _ _ Hl) as (Hi & Hk & Hlen).
  destruct Hl as (Hwf & Hp & [t Ho] & Ht). unfold INT_MAX in Hr.
  assert (Hstart : mod_table_close (rev_key i) s = open_mod_table_close (rev_key i) s).
  { unfold mod_table_close, HAP_pls_lookup_omt. munfold. rewrite Ho.
    rewrite (proj2 (Z.eqb_neq (pls_refs s) 0)) by done. cbn. by rewrite u32_rev_key. }
  set (dec := fun d => om_set_refs (s32 (om_refs d - 1)) d).
  assert (Hsl : slot i (upd_slot i dec s) = om_set_refs (om_refs (slot i s) - 1) (slot i s)).
  { rewrite slot_upd, decide_True by done. unfold dec. by rewrite s32_small by lia. }
  set (s1 := upd_slot i (om_set_key 0) (set_open_tbl (delete (rev_key i)) (upd_slot i dec s))).
  assert (Hc : mod_table_close (rev_key i) s =
    if om_refs (slot i s) - 1 =? 0
    then (_ ← close_h64 i; dlErr ← close_dl i; mret (dlErr, dlErr)) s1
    else (Go (AEE_SUCCESS, 0), upd_slot i dec s)).
  { rewrite Hstart. unfold open_mod_table_close. munfold. rewrite u32_rev_key, Ht. fold dec. rewrite Hsl.
    cbn [om_refs om_key om_set_refs]. rewrite Hk, u32_rev_key. by destruct (om_refs (slot i s) - 1 =? 0). }
  rewrite Hc. clear Hstart. split.
  - intros Hgt. rewrite (proj2 (Z.eqb_neq _ _)) by lia. f_equal.
    unfold upd_slot, set_table. f_equal. apply list_alter_ext; [|done]. intros d Hd.
    apply (nth_lookup_Some _ _ zero_mod) in Hd. fold (slot i s) in Hd. subst d. unfold dec. by rewrite s32_small by lia.
  - intros H1. rewrite (proj2 (Z.eqb_eq (om_refs (slot i s) - 1) 0)) by lia.
    assert (Hs1 : slot i s1 = om_set_key 0 (om_set_refs 0 (slot i s))).
    { unfold s1. rewrite slot_upd, decide_True by (done || cbn; by rewrite length_alter).
      rewrite slot_set_open, Hsl. do 2 f_equal. lia. }
    assert (Hcl : close_effect (slot i s1) = close_effect (slot i s)) by (by rewrite Hs1).
    exists (set_world (close_effect (slot i s) (world s)).2 s1).
    pose proof (close_both i s1) as Hb. rewrite Hcl in Hb. change (world s1) with (world s) in Hb.
    destruct (close_effect (slot i s) (world s)) as [e w]. cbn [fst snd] in *.
    split_and!; try done.
    + revert Hb. unfold mbind, M_bind. destruct (close_h64 i s1) as [[[]|] s2]; [|done].
      destruct (close_dl i s2) as [[e'|] s3]; [|done]. by intros [= -> ->].
    + change (om_key (slot i s1) = 0). by rewrite Hs1.
    + intros j Hj. change (slot j s1 = slot j s). unfold s1.
      rewrite slot_upd, decide_False by (done || cbn; by rewrite length_alter).
      rewrite slot_set_open, slot_upd, decide_False; done.
    + intros Hcm sc pra. unfold mod_table_invoke. unfold mbind at 1, M_bind at 1.
      rewrite pls_ready by done. change (0 =? AEE_SUCCESS) with true. cbn beta iota. rewrite u32_rev_key.
      unfold open_mod_table_handle_invoke, open_mod_table_get_const, open_mod_table_get_open.
      munfold. rewrite ?u32_rev_key. change (constMods (set_world w s1)) with (constMods s). rewrite Hcm.
      change (open_tbl (set_world w s1)) with (delete (rev_key i) (open_tbl s)). by rewrite lookup_delete_eq.
Qed.

(** *** Opening an open URI again *)
Definition no_nul (u : list Z) : Prop := Forall (fun c => c <> 0) u.

Lemma strncmp_refl f i n : strncmp_eq f f i n = true.
Proof. revert i; induction n as [|n IH]; intros i; cbn; [done|]. rewrite Z.eqb_refl. by destruct (f i =? 0). Qed.

Lemma same_uri_refl u : same_uri u u = true.
Proof. apply strncmp_refl. Qed.

(** The strings agree up to the longer one's length, so they are equal. *)
Lemma strncmp_prefix u v i n :
  no_nul u -> no_nul v -> strncmp_eq (cstr u) (cstr v) (Z.of_nat i) n = true ->
  (length u <= i + n)%nat -> (length v <= i + n)%nat -> drop i u = drop i v.
Proof.
  intros Hu Hv. revert i. induction n as [|n IH]; intros i H Hlu Hlv.
  { rewrite !drop_ge by lia. done. }
  cbn [strncmp_eq] in H. unfold cstr in H at 1 2 3.
  rewrite (proj2 (Z.ltb_ge (Z.of_nat i) 0)), Nat2Z.id in H by lia.
  destruct (Z.eqb_spec (nth i u 0) (nth i v 0)) as [E|]; [|done].
  assert (Hnz : forall w, no_nul w -> (i < length w)%nat -> nth i w 0 <> 0).
  { intros w Hw Hi. destruct (lookup_lt_is_Some_2 w i Hi) as [c Hc].
    rewrite (nth_lookup_Some _ _ 0 _ Hc). by eapply (Forall_lookup_1 _ _ _ _ Hw). }
  destruct (Z.eqb_spec (nth i u 0) 0) as [Ez|Ez].
  - destruct (decide (i < length u)%nat) as [Hlt|]; [by destruct (Hnz u Hu Hlt)|].
    destruct (decide (i < length v)%nat) as [Hlt|]; [destruct (Hnz v Hv Hlt); congruence|].
    rewrite !drop_ge by lia. done.
  - destruct (decide (i < length u)%nat); [|by rewrite nth_overflow in Ez by lia].
    destruct (decide (i < length v)%nat); [|rewrite (nth_overflow v) in E by lia; congruence].
    destruct (lookup_lt_is_Some_2 u i) as [c Hc]; [done|]. destruct (lookup_lt_is_Some_2 v i) as [c' Hc']; [done|].
    rewrite (drop_S u c i), (drop_S v c' i) by done.
    rewrite (nth_lookup_Some _ _ 0 _ Hc), (nth_lookup_Some _ _ 0 _ Hc') in E. subst. f_equal.
    apply IH; [|lia|lia]. by replace (Z.of_nat (S i)) with (Z.of_nat i + 1) by lia.
Qed.

Lemma same_uri_eq u v : no_nul u -> no_nul v -> same_uri u v = true -> u = v.
Proof.
  intros Hu Hv H. unfold same_uri, strlen in H.
  by apply (strncmp_prefix u v 0) in H; [| | |lia|lia].
Qed.

(** Opening a URI that is open already (dynamically, or as a static module under
    the same string) runs no loader and no module code: it returns the handle of the
    open module with one more reference, on the override path for short URIs and on
    the dynamic path for the longer ones that the override path has no room for. *)
Theorem reopen_same_handle a s uri i :
  wf None s -> pls_refs s <> 0 -> is_Some (openMods s) -> no_nul uri -> strlen uri <= 111 ->
  (forall j, (j < MAX_REV_HANDLES)%nat -> om_key (slot j s) <> 0 -> no_nul (om_uri (slot j s))) ->
  (i < MAX_REV_HANDLES)%nat -> om_key (slot i s) <> 0 -> om_uri (slot i s) = uri ->
  exists j, om_uri (slot j s) = uri /\ om_key (slot j s) = rev_key j /\
    mod_table_open a (Some uri) s =
      (Go (AEE_SUCCESS, Some (rev_key j), 0), upd_slot j (fun d => om_set_refs (s32 (om_refs d + 1)) d) s).
Proof.
  intros Hwf Hp Ho Hn Hlen Hnn Hi Hk Hu.
  set (p := fun d => negb (om_key d =? 0) && same_uri (om_uri d) uri).
  destruct (find_slot p 0 (rev_handle_table s)) as [j|] eqn:Hf.
  2: { pose proof (find_slot_None _ _ _ Hf i) as H. rewrite (wf_len _ _ Hwf) in H. specialize (H Hi).
       fold (slot i s) in H. unfold p in H. rewrite Hu, same_uri_refl, (proj2 (Z.eqb_neq _ _)) in H by done. done. }
  pose proof Hf as (k & -> & Hkl & Hpk)%find_slot_spec. cbn [Nat.add] in *. fold (slot k s) in Hpk.
  rewrite (wf_len _ _ Hwf) in Hkl. unfold p in Hpk. apply andb_true_iff in Hpk as [Hkk Hsu].
  apply negb_true_iff, Z.eqb_neq in Hkk.
  destruct (wf_keys _ _ Hwf k Hkl) as [|Hkey]; [done|done|].
  exists k. split_and!; [apply same_uri_eq; auto|done|].
  assert (Hro : is_reverse_handle_opened uri s =
    (Go (Some (rev_key k)), upd_slot k (fun d => om_set_refs (s32 (om_refs d + 1)) d) s)).
  { unfold is_reverse_handle_opened. munfold. fold p. rewrite Hf. cbn beta iota.
    rewrite slot_upd, decide_True by (done || apply Hwf). cbn [om_key om_set_refs]. by rewrite Hkey, u32_rev_key. }
  unfold mod_table_open. unfold mbind, M_bind. rewrite pls_ready by done.
  change (0 =? AEE_SUCCESS) with true. cbn beta iota.
  unfold open_mod_table_open, open_mod_table_open_from_static, open_mod_table_open_from_static_body.
  munfold. destruct (sizeof_open_mod + uri_buf_len uri <=? REV_HANDLE_SIZE); cbn [fst snd].
  { rewrite Hro. done. }
  cbn. unfold open_mod_table_open_dynamic, open_mod_table_open_dynamic_body. munfold.
  rewrite (proj2 (Z.leb_le _ _)) by (unfold sizeof_open_mod, REV_HANDLE_SIZE; lia). cbn [fst snd].
  rewrite Hro. done.
Qed.

(** *** The room in a slot *)
Lemma load_len m p l n : 0 <= l <= n -> strlen (load m p l) <= n.
Proof. intros. unfold strlen. rewrite length_load. lia. Qed.

(** A URI that passes the size check of the static path is shorter than 30 bytes,
    and for it the rebuilt URI always fits: [snprintf] into the slot truncates nothing
    and ends inside the 256 bytes of the slot. *)
Theorem static_uri_fits a uri :
  0 <= a < 2 ^ 61 -> strlen uri < 2 ^ 29 ->
  sizeof_open_mod + uri_buf_len uri <= REV_HANDLE_SIZE ->
  let u := static_uri (parse_uri_at a uri).2 in
  strlen uri <= 29 /\ snprintf (uri_buf_len uri) u = (u, strlen u) /\
  offsetof_uri + strlen u + 1 <= REV_HANDLE_SIZE.
Proof.
  change (2 ^ 61) with 2305843009213693952. change (2 ^ 29) with 536870912.
  intros Ha Hl Hs u. unfold uri_buf_len in *.
  change sizeof_uri_pattern with 52 in *. assert (0 <= strlen uri) by (unfold strlen; lia).
  rewrite s32_small in * by lia. unfold sizeof_open_mod, REV_HANDLE_SIZE, offsetof_uri in *.
  assert (Hu : strlen u <= 18 + 3 * strlen uri).
  { unfold u, parse_uri_at. set (m := store ∅ a uri).
    pose proof (parse_uri_spans_lemma m a (strlen uri)) as Hsp.
    destruct (parse_uri m a (strlen uri)) as [e o]. cbn [fst snd] in *.
    destruct Hsp as (H1 & H2 & H3); [lia|lia|change (2 ^ 62) with 4611686018427387904; lia|].
    assert (L1 : strlen (load m (file o) (filelen o)) <= strlen uri) by (apply load_len; lia).
    assert (L2 : strlen (load m (sym o) (symlen o)) <= strlen uri) by (apply load_len; lia).
    assert (L3 : strlen (load m (ver o) (verlen o)) <= strlen uri) by (apply load_len; lia).
    unfold static_uri. cbn [u_file u_sym u_ver]. unfold strlen in *.
    destruct (_ =? 0); rewrite !length_app; cbn [length str fmap list_fmap String.list_ascii_of_string]; lia. }
  split_and!; [lia| |lia]. unfold snprintf. f_equal. apply take_ge.
  unfold strlen in *. lia.
Qed.
End mod_table.

(** ** A concrete process

    The world is a counter; one library, [libfoo_skel.so], exports every symbol. *)
Module ModTableEx.
Definition DLOPEN (name : list Z) (w : Z) : (Z * bool) * Z :=
  ((if bool_decide (name = str "libfoo_skel.so") then 7 else 0, true), w + 1).
Definition DLSYM (h : Z) (name : list Z) (w : Z) : Z * Z := (if h =? 7 then 100 else 0, w).
Definition DLCLOSE (h w : Z) : Z * Z := (0, w + 1000).
Definition call_invoke (f sc : Z) (pra : list mod_arg) (w : Z) : (Z * list mod_arg) * Z := ((0, [AHandle (f + sc)]), w + 10).
Definition call_handle_invoke (f h sc : Z) (pra : list mod_arg) (w : Z) : (Z * list mod_arg) * Z :=
  ((0, [AHandle h]), w + 100).
Definition rt : Z := 1048576.

Definition openx := mod_table_open DLOPEN DLSYM DLCLOSE call_handle_invoke rt 4096.
Definition invokex := mod_table_invoke DLCLOSE call_invoke call_handle_invoke.
Definition closex := mod_table_close DLCLOSE call_handle_invoke.
Definition s0 : mt Z := mt_init 0.
Definition s1 : mt Z := (openx (Some (str "foo")) s0).2.
Abbreviation reach := (mt_reach DLOPEN DLSYM DLCLOSE call_invoke call_handle_invoke rt).

Lemma layout : 0 < u32 rt /\ u32 rt + 5120 <= 4294967296.
Proof. vm_compute. intuition congruence. Qed.

Lemma reach_s1 : reach s1.
Proof. apply reach_open, reach_init. Qed.

Lemma open_s1 : (openx (Some (str "foo")) s0).1 = Go (0, Some 1048576, 0).
Proof. vm_compute. done. Qed.

Lemma live_s1 : live rt s1 0.
Proof.
  split_and!; [by eapply mod_table_reach_wf; [exact layout|apply reach_s1]|..]; [vm_compute; congruence| |by vm_compute].
  exists {[ 1048576 := O ]}. by vm_compute.
Qed.

Lemma mod_table_invariant_witness :
  reach s1 /\ exists k, Some 1048576 = Some k /\ opened rt s1 k.
Proof.
  split; [apply reach_s1|].
  apply (mod_table_invariant DLOPEN DLSYM DLCLOSE call_invoke call_handle_invoke rt layout s0
           (reach_init _ _ _ _ _ _ 0)) with (a := 4096) (uri := Some (str "foo")).
  by vm_compute.
Defined.

Lemma invoke_open_module_witness :
  (invokex 1048576 3 [] s1).1 = Go (0, [AHandle 103]).
Proof.
  unfold invokex. change 1048576 with (rev_key rt 0).
  rewrite (invoke_open_module DLCLOSE call_invoke call_handle_invoke rt s1 0 3 [] live_s1);
    first [by vm_compute | unfold INT_MAX; split; by vm_compute].
Defined.

Lemma close_module_witness :
  exists s', closex 1048576 s1 = (Go (0, 0), s') /\ om_key (slot 0 s') = 0 /\ world s' = 1001.
Proof.
  assert (Hr : om_refs (slot 0 s1) = 1) by (by vm_compute).
  assert (He : close_effect DLCLOSE call_handle_invoke (slot 0 s1) (world s1) = (0, 1001)) by (by vm_compute).
  unfold closex. change 1048576 with (rev_key rt 0).
  pose proof (close_module DLCLOSE call_invoke call_handle_invoke rt s1 0 live_s1) as H.
  rewrite Hr, He in H. destruct (proj2 (H ltac:(by split)) eq_refl) as (s' & Hc & Hw & _ & Hk & _).
  exact (ex_intro _ s' (conj Hc (conj Hk Hw))).
Defined.

Lemma reopen_same_handle_witness :
  exists j, om_uri (slot j s1) = str "foo" /\
    (openx (Some (str "foo")) s1).1 = Go (0, Some (rev_key rt j), 0).
Proof.
  destruct (reopen_same_handle DLOPEN DLSYM DLCLOSE call_handle_invoke rt 4096 s1 (str "foo") 0)
    as (j & Hu & _ & E).
  - apply live_s1.
  - by vm_compute.
  - apply live_s1.
  - repeat constructor; by vm_compute.
  - by vm_compute.
  - intros j Hj. unfold MAX_REV_HANDLES in Hj.
    do 20 (destruct j as [|j]; [vm_compute; try congruence; intros _; repeat constructor; congruence|]). lia.
  - by vm_compute; lia.
  - by vm_compute.
  - by vm_compute.
  - exists j. split; [exact Hu|]. unfold openx. by rewrite E.
Defined.

Lemma static_uri_fits_witness :
  let uri := str "file:///a.so?b&_modver=1.0" in
  strlen uri <= 29 /\ offsetof_uri + strlen (static_uri (parse_uri_at 4096 uri).2) + 1 <= REV_HANDLE_SIZE.
Proof.
  intros uri. destruct (static_uri_fits 4096 uri) as (H1 & _ & H2);
    [vm_compute; intuition congruence|by vm_compute|by vm_compute|]. by split.
Defined.
End ModTableEx.
