(* ===== verification/Domain.v ===== *)
(** Domain numbers and names: the macros of [inc/fastrpc_internal.h] that relate a
    DSP, a session and an effective domain id, and the functions of
    [src/fastrpc_apps_user.c] that find a domain or a library name in a URI. *)
From S2P Require Import Prelude Errors.

(** ** Effective domain ids *)
Definition NUM_DOMAINS : Z := 8.
Definition NUM_SESSIONS : Z := 4.
Definition DOMAIN_ID_MASK : Z := 7.
Definition NUM_DOMAINS_EXTEND : Z := NUM_DOMAINS * NUM_SESSIONS.
Definition DEFAULT_DOMAIN_ID : Z := 3.
Definition INVALID_DOMAIN_ID : Z := -1.

(** C division truncates towards zero. *)
Definition GET_SESSION_ID_FROM_DOMAIN_ID (domain_id : Z) : Z := Z.quot domain_id NUM_DOMAINS.
Definition GET_EFFECTIVE_DOMAIN_ID (domain session : Z) : Z := s32 (domain + NUM_DOMAINS * session).
Definition GET_DOMAIN_FROM_EFFEC_DOMAIN_ID (effec : Z) : Z := Z.land effec DOMAIN_ID_MASK.
Definition IS_VALID_DOMAIN_ID (domain : Z) : bool := (0 <=? domain) && (domain <? NUM_DOMAINS).
Definition IS_VALID_EFFECTIVE_DOMAIN_ID (domain : Z) : bool := (0 <=? domain) && (domain <? NUM_DOMAINS_EXTEND).
Definition IS_EXTENDED_DOMAIN_ID (domain : Z) : bool := (NUM_DOMAINS <=? domain) && (domain <? NUM_DOMAINS_EXTEND).

(** [FOR_EACH_EFFECTIVE_DOMAIN_ID]: the ids in loop order. *)
Definition EFFECTIVE_DOMAIN_IDS : list Z := seqZ 0 NUM_DOMAINS_EXTEND.

(** The effective ids are a bijection between the 8 domains times the 4 sessions
    and 0..31: the two projections invert [GET_EFFECTIVE_DOMAIN_ID], its results are
    valid, every valid id arises, and an id is extended exactly when its session is
    not 0. *)
Theorem effective_domain_bijection :
  (forall d s, IS_VALID_DOMAIN_ID d = true -> 0 <= s < NUM_SESSIONS ->
     let e := GET_EFFECTIVE_DOMAIN_ID d s in
     IS_VALID_EFFECTIVE_DOMAIN_ID e = true /\ GET_DOMAIN_FROM_EFFEC_DOMAIN_ID e = d /\
     GET_SESSION_ID_FROM_DOMAIN_ID e = s /\ (IS_EXTENDED_DOMAIN_ID e = true <-> s <> 0)) /\
  (forall e, IS_VALID_EFFECTIVE_DOMAIN_ID e = true ->
     let d := GET_DOMAIN_FROM_EFFEC_DOMAIN_ID e in let s := GET_SESSION_ID_FROM_DOMAIN_ID e in
     IS_VALID_DOMAIN_ID d = true /\ 0 <= s < NUM_SESSIONS /\ GET_EFFECTIVE_DOMAIN_ID d s = e).
Proof.
  unfold IS_VALID_DOMAIN_ID, IS_VALID_EFFECTIVE_DOMAIN_ID, IS_EXTENDED_DOMAIN_ID, GET_EFFECTIVE_DOMAIN_ID,
    GET_DOMAIN_FROM_EFFEC_DOMAIN_ID, GET_SESSION_ID_FROM_DOMAIN_ID, NUM_DOMAINS_EXTEND, NUM_DOMAINS,
    NUM_SESSIONS, DOMAIN_ID_MASK.
  change (8 * 4) with 32. change 7 with (Z.ones 3).
  assert (Hland : forall z, Z.land z (Z.ones 3) = z mod 8) by (intros; by rewrite Z.land_ones).
  split.
  - intros d s [H1%Z.leb_le H2%Z.ltb_lt]%andb_true_iff Hs. rewrite s32_small by lia.
    rewrite Hland, !andb_true_iff, !Z.leb_le, !Z.ltb_lt.
    split_and!; try lia; Z.to_euclidean_division_equations; lia.
  - intros e [H1%Z.leb_le H2%Z.ltb_lt]%andb_true_iff.
    rewrite Hland, andb_true_iff, Z.leb_le, Z.ltb_lt.
    rewrite s32_small by (Z.to_euclidean_division_equations; lia).
    split_and!; try (Z.to_euclidean_division_equations; lia).
Qed.

(** ** Strings *)

(** [strncmp(s, p, strlen(p)) == 0]. *)
Fixpoint starts_with (p s : list Z) : bool :=
  match p, s with
  | [], _ => true
  | c :: p, d :: s => (c =? d) && starts_with p s
  | _ :: _, [] => false
  end.

(** [strstr(s, p)]: the suffix that starts at the first occurrence. *)
Fixpoint strstr (s p : list Z) : option (list Z) :=
  if starts_with p s then Some s
  else match s with [] => None | _ :: s => strstr s p end.

Definition isspace (c : Z) : bool := (c =? 32) || ((9 <=? c) && (c <=? 13)).
Definition isdigit (c : Z) : bool := (48 <=? c) && (c <=? 57).

Fixpoint skip_space (s : list Z) : list Z :=
  match s with c :: t => if isspace c then skip_space t else s | [] => [] end.
Fixpoint digits (acc : Z) (s : list Z) : Z :=
  match s with c :: s => if isdigit c then digits (10 * acc + (c - 48)) s else acc | [] => acc end.

(** [strtol(s, NULL, 10)], with a 64-bit [long]. *)
Definition LONG_MAX : Z := 9223372036854775807.
Definition strtol10 (s : list Z) : Z :=
  let clamp z := Z.max (- LONG_MAX - 1) (Z.min LONG_MAX z) in
  match skip_space s with
  | 45 :: s => clamp (- digits 0 s)
  | 43 :: s => clamp (digits 0 s)
  | s => clamp (digits 0 s)
  end.

(** ** Names of the domains *)
Definition ADSP_DOMAIN_ID : Z := 0.
Definition MDSP_DOMAIN_ID : Z := 1.
Definition SDSP_DOMAIN_ID : Z := 2.
Definition CDSP_DOMAIN_ID : Z := 3.
Definition CDSP1_DOMAIN_ID : Z := 4.
Definition GDSP0_DOMAIN_ID : Z := 5.
Definition GDSP1_DOMAIN_ID : Z := 6.

Definition SUBSYSTEM_NAME (d : Z) : list Z :=
  nth (Z.to_nat d) [str "adsp"; str "mdsp"; str "sdsp"; str "cdsp"; str "cdsp1"; str "gdsp0"; str "gdsp1"; str "reserved"] [].

(** The chain of comparisons shared by the name functions: the first name in this
    order that [test] accepts; [cdsp1] is tried before its prefix [cdsp]. *)
Definition DOMAIN_ORDER : list Z :=
  [ADSP_DOMAIN_ID; MDSP_DOMAIN_ID; SDSP_DOMAIN_ID; CDSP1_DOMAIN_ID; CDSP_DOMAIN_ID; GDSP0_DOMAIN_ID; GDSP1_DOMAIN_ID].

Fixpoint first_domain (test : Z -> bool) (order : list Z) : Z :=
  match order with
  | [] => INVALID_DOMAIN_ID
  | d :: order => if test d then d else first_domain test order
  end.

(** [domain_name_len] is converted to [size_t] by the comparison. *)
Definition get_domain_from_domain_name (domain_name : option (list Z)) (domain_name_len : Z) : Z :=
  if u64 domain_name_len <? Z.of_nat (length (SUBSYSTEM_NAME ADSP_DOMAIN_ID)) then INVALID_DOMAIN_ID
  else match domain_name with
       | None => INVALID_DOMAIN_ID
       | Some name => first_domain (fun d => starts_with (SUBSYSTEM_NAME d) name) DOMAIN_ORDER
       end.

Definition DOMAIN_URI (d : Z) : list Z := str "&_dom=" ++ SUBSYSTEM_NAME d.

Definition get_domain_from_id (domain_id : Z) : list Z :=
  if (0 <=? domain_id) && (domain_id <=? GDSP1_DOMAIN_ID) then DOMAIN_URI domain_id else str "invalid domain".

Definition DOMAIN_NAME_IN_URI : Z := 1.
Definition DOMAIN_NAME_STAND_ALONE : Z := 2.
Definition FASTRPC_SESSION_URI : list Z := str "&_session=".

Definition is_found {A} (o : option A) : bool := match o with Some _ => true | None => false end.

Definition get_domain_from_name (uri : option (list Z)) (type : Z) : Z :=
  match uri with
  | None => DEFAULT_DOMAIN_ID
  | Some uri =>
    if type =? DOMAIN_NAME_STAND_ALONE then
      first_domain (fun d => starts_with (SUBSYSTEM_NAME d) uri) DOMAIN_ORDER
    else if type =? DOMAIN_NAME_IN_URI then
      let domain := first_domain (fun d => is_found (strstr uri (DOMAIN_URI d))) DOMAIN_ORDER in
      if domain =? INVALID_DOMAIN_ID then INVALID_DOMAIN_ID
      else match strstr uri FASTRPC_SESSION_URI with
           | None => domain
           | Some t =>
             let session_id := s32 (strtol10 (drop (length FASTRPC_SESSION_URI) t)) in
             if session_id <? NUM_SESSIONS then GET_EFFECTIVE_DOMAIN_ID domain session_id
             else INVALID_DOMAIN_ID
           end
    else DEFAULT_DOMAIN_ID
  end.

(** The ["lib....so"] part of a URI, for the log. *)
Definition get_lib_name (uri : option (list Z)) : option (list Z) :=
  match uri with
  | None => None
  | Some uri =>
    match strstr uri (str "lib") with
    | None => None
    | Some start =>
      match strstr start (str ".so") with
      | None => None
      | Some end_ =>
        let off := (length start - length end_)%nat in
        if (0 <? off)%nat then Some (take (off + 3) start) else None
      end
    end
  end.

(** ** Names and URIs round-trip *)
Lemma starts_with_app p t : starts_with p (p ++ t) = true.
Proof. induction p as [|c p IH]; cbn; [done|]. by rewrite Z.eqb_refl. Qed.

Lemma starts_with_iff p s : starts_with p s = true <-> exists t, s = p ++ t.
Proof.
  revert s; induction p as [|c p IH]; intros s; cbn; [split; [by exists s|done]|].
  destruct s as [|d s]; [split; [done|by intros (? & ?)]|].
  rewrite andb_true_iff, Z.eqb_eq, IH. split; [intros [-> (t & ->)]; by exists t|].
  intros (t & [= -> ->]). split; [done|by exists t].
Qed.

(** A pattern whose only ['&'] is its first byte is not found across the place where
    something that begins with ['&'] is appended. *)
Definition no_amp (u : list Z) : Prop := Forall (fun c => c <> 38) u.

Lemma starts_with_across p u t : no_amp p -> starts_with p (u ++ 38 :: t) = true -> starts_with p u = true.
Proof.
  intros Hp. revert u. induction Hp as [|c p Hc _ IH]; intros u; [by destruct u|]. destruct u as [|d u]; cbn.
  - by rewrite (proj2 (Z.eqb_neq c 38)).
  - rewrite !andb_true_iff. intros [H1 H2]. split; [done|by apply IH].
Qed.

Lemma strstr_skip u t p : no_amp p -> strstr u (38 :: p) = None -> strstr (u ++ 38 :: t) (38 :: p) = strstr (38 :: t) (38 :: p).
Proof.
  intros Hp. induction u as [|c u IH]; [done|]. cbn [app strstr]. intros H.
  destruct (starts_with (38 :: p) (c :: u)) eqn:E; [done|].
  destruct (starts_with (38 :: p) (c :: u ++ 38 :: t)) eqn:E'; [|by apply IH].
  cbn in E, E'. apply andb_true_iff in E' as [E1 E2]. rewrite E1 in E. by rewrite (starts_with_across p u t Hp E2) in E.
Qed.

Lemma strstr_longer s p q : strstr s p = None -> strstr s (p ++ q) = None.
Proof.
  induction s as [|c s IH]; cbn [strstr]; intros H.
  - destruct p; [done|done].
  - destruct (starts_with p (c :: s)) eqn:E; [done|]. destruct (starts_with (p ++ q) (c :: s)) eqn:E'; [|by apply IH].
    apply starts_with_iff in E' as (t & E'). rewrite <- app_assoc in E'. by rewrite E', starts_with_app in E.
Qed.

(** A module URI that names neither a domain nor a session. It may have a query of its own,
    as the generated ones do ([...?fn&_modver=1.0]). *)
Definition bare_uri (u : list Z) : Prop := strstr u (str "&_dom=") = None /\ strstr u FASTRPC_SESSION_URI = None.

Lemma first_domain_ext f g l : (forall d, f d = g d) -> first_domain f l = first_domain g l.
Proof. intros H. induction l as [|d l IH]; cbn; [done|]. by rewrite H, IH. Qed.

Lemma subsystem_no_amp d : no_amp (SUBSYSTEM_NAME d).
Proof.
  unfold SUBSYSTEM_NAME, no_amp. generalize (Z.to_nat d). intros n. apply Forall_forall. intros c Hc.
  assert (H : Forall no_amp [str "adsp"; str "mdsp"; str "sdsp"; str "cdsp"; str "cdsp1"; str "gdsp0"; str "gdsp1"; str "reserved"]) by by repeat constructor.
  rewrite nth_lookup in Hc. destruct (_ !! n) eqn:E; [|by apply elem_of_nil in Hc].
  apply (proj1 (Forall_lookup _ _) H) in E. by apply (proj1 (Forall_forall _ _) E).
Qed.

Lemma get_domain_from_name_skip u t :
  bare_uri u -> starts_with [38] t = true ->
  get_domain_from_name (Some (u ++ t)) DOMAIN_NAME_IN_URI = get_domain_from_name (Some t) DOMAIN_NAME_IN_URI.
Proof.
  intros [Hd Hs] (t' & ->)%starts_with_iff. cbn [app]. set (t := t'). unfold get_domain_from_name.
  change (DOMAIN_NAME_IN_URI =? DOMAIN_NAME_STAND_ALONE) with false.
  rewrite Z.eqb_refl. cbv iota.
  rewrite (first_domain_ext _ (fun d => is_found (strstr (38 :: t) (DOMAIN_URI d)))).
  2: { intros d. cbv beta. change (DOMAIN_URI d) with (38 :: str "_dom=" ++ SUBSYSTEM_NAME d). rewrite strstr_skip; [done| |].
       - apply Forall_app. split; [by repeat constructor|].
         apply subsystem_no_amp.
       - exact (strstr_longer u (str "&_dom=") (SUBSYSTEM_NAME d) Hd). }
  change FASTRPC_SESSION_URI with (38 :: str "_session="). rewrite strstr_skip; [done|by repeat constructor|exact Hs].
Qed.

(** A module URI that names no domain and no session, extended with the domain suffix that
    [get_domain_from_id] gives, and optionally a session suffix, is parsed back to that
    domain and session, for each of the seven named domains and the four sessions: in
    particular [cdsp1] is not taken for [cdsp]; the stand-alone names are parsed back
    by both name functions. *)
Theorem domain_uri_roundtrip u d s :
  bare_uri u -> 0 <= d <= GDSP1_DOMAIN_ID -> 0 <= s < NUM_SESSIONS ->
  get_domain_from_name (Some (u ++ get_domain_from_id d)) DOMAIN_NAME_IN_URI = d /\
  get_domain_from_name (Some (u ++ get_domain_from_id d ++ FASTRPC_SESSION_URI ++ [48 + s])) DOMAIN_NAME_IN_URI
    = GET_EFFECTIVE_DOMAIN_ID d s /\
  get_domain_from_name (Some (SUBSYSTEM_NAME d)) DOMAIN_NAME_STAND_ALONE = d /\
  get_domain_from_domain_name (Some (SUBSYSTEM_NAME d)) (Z.of_nat (length (SUBSYSTEM_NAME d))) = d.
Proof.
  intros Hu Hd Hs. unfold GDSP1_DOMAIN_ID, NUM_SESSIONS in *.
  assert (Hd' : d = 0 \/ d = 1 \/ d = 2 \/ d = 3 \/ d = 4 \/ d = 5 \/ d = 6) by lia.
  assert (Hs' : s = 0 \/ s = 1 \/ s = 2 \/ s = 3) by lia.
  destruct Hd' as [->|[->|[->|[->|[->|[->| ->]]]]]]; destruct Hs' as [->|[->|[->| ->]]];
    rewrite !get_domain_from_name_skip by done; by vm_compute.
Qed.

Lemma domain_uri_roundtrip_witness :
  get_domain_from_name (Some (str "file:///libcalc_skel.so?calc_skel_handle_invoke&_modver=1.0" ++ get_domain_from_id 4 ++ FASTRPC_SESSION_URI ++ [48 + 2]))
    DOMAIN_NAME_IN_URI = 20.
Proof.
  destruct (domain_uri_roundtrip (str "file:///libcalc_skel.so?calc_skel_handle_invoke&_modver=1.0") 4 2) as (_ & H & _);
    [by split|by vm_compute|by vm_compute|exact H].
Defined.

(** A negative session number in a URI is not rejected: only [session_id <
    NUM_SESSIONS] is checked, so ["&_session=-1"] yields the negative id [domain - 8],
    which is neither a valid id nor [INVALID_DOMAIN_ID]. *)
Theorem negative_session_accepted u d :
  bare_uri u -> 0 <= d <= GDSP1_DOMAIN_ID ->
  let r := get_domain_from_name (Some (u ++ get_domain_from_id d ++ FASTRPC_SESSION_URI ++ str "-1")) DOMAIN_NAME_IN_URI in
  r = d - 8 /\ IS_VALID_EFFECTIVE_DOMAIN_ID r = false /\ r <> INVALID_DOMAIN_ID.
Proof.
  intros Hu Hd. unfold GDSP1_DOMAIN_ID in *.
  assert (Hd' : d = 0 \/ d = 1 \/ d = 2 \/ d = 3 \/ d = 4 \/ d = 5 \/ d = 6) by lia.
  destruct Hd' as [->|[->|[->|[->|[->|[->| ->]]]]]]; rewrite !get_domain_from_name_skip by done; vm_compute; intuition congruence.
Qed.

Lemma negative_session_accepted_witness :
  get_domain_from_name (Some (str "calc" ++ get_domain_from_id 3 ++ FASTRPC_SESSION_URI ++ str "-1")) DOMAIN_NAME_IN_URI = -5.
Proof.
  apply (negative_session_accepted (str "calc") 3); [by split|by vm_compute].
Defined.
