(* ===== verification/Session.v ===== *)
(** Sessions and handles of [src/fastrpc_apps_user.c]: the table [hlist] of the
    effective domains, the session reference counts, and the lists of open handles.

    A domain's lock protects each function's access, so a function is one step.
    Addresses returned by [calloc] are arguments (0 when it fails). *)
From S2P Require Import Prelude Errors Domain.

(** ** Data *)
Record handle_info := HandleInfo {
  hi_addr : Z;                    (* the node's address, which is also [hi->local] *)
  hi_hlist : Z;                   (* [hi->hlist - &hlist[0]] *)
  hi_remote : Z;
  hi_name : option (list Z)
}.

#[export] Instance handle_info_eq_dec : EqDecision handle_info.
Proof. solve_decision. Defined.

Definition FASTRPC_DOMAIN_STATE_CLEAN : Z := 0.
Definition FASTRPC_DOMAIN_STATE_INIT : Z := 1.
Definition FASTRPC_DOMAIN_STATE_DEINIT : Z := 2.
Definition INVALID_DEVICE : Z := -1.

(** [struct handle_list], the part the modelled functions use. *)
Record handle_list := HandleList {
  ql : list handle_info; nql : list handle_info; rql : list handle_info;
  constCount : Z; domainsCount : Z; nondomainsCount : Z; reverseCount : Z;
  state : Z; ref : Z; dev : Z; mode : Z; setmode : Z
}.

Definition hl0 : handle_list := HandleList [] [] [] 0 0 0 0 FASTRPC_DOMAIN_STATE_CLEAN 0 INVALID_DEVICE 0 0.

(** The process: [hlist] ([None] before it is allocated), the thread's context (when
    [tlsKey] is valid), and the descriptors passed to [close]. *)
Record proc := Proc {
  hlist : option (gmap Z handle_list);
  tlsKey : bool;
  tls : option Z;
  closed : list Z
}.

Definition hl (s : proc) (d : Z) : handle_list := default hl0 (h ← hlist s; h !! d).

Definition set_hl (d : Z) (f : handle_list -> handle_list) (s : proc) : proc :=
  Proc (match hlist s with Some h => Some (<[d := f (hl s d)]> h) | None => None end)
       (tlsKey s) (tls s) (closed s).
Definition set_tls (t : option Z) (s : proc) : proc := Proc (hlist s) (tlsKey s) t (closed s).
Definition set_closed (l : list Z) (s : proc) : proc := Proc (hlist s) (tlsKey s) (tls s) l.

Definition set_ref (r : Z) (h : handle_list) : handle_list :=
  HandleList (ql h) (nql h) (rql h) (constCount h) (domainsCount h) (nondomainsCount h) (reverseCount h)
    (state h) r (dev h) (mode h) (setmode h).
Definition set_dev (v : Z) (h : handle_list) : handle_list :=
  HandleList (ql h) (nql h) (rql h) (constCount h) (domainsCount h) (nondomainsCount h) (reverseCount h)
    (state h) (ref h) v (mode h) (setmode h).
Definition set_mode (m sm : Z) (h : handle_list) : handle_list :=
  HandleList (ql h) (nql h) (rql h) (constCount h) (domainsCount h) (nondomainsCount h) (reverseCount h)
    (state h) (ref h) (dev h) m sm.

(** The three lists of a domain and the counters that go with them. *)
Inductive which := QL | NQL | RQL.
Definition lst (w : which) (h : handle_list) : list handle_info :=
  match w with QL => ql h | NQL => nql h | RQL => rql h end.
Definition set_lst (w : which) (l : list handle_info) (h : handle_list) : handle_list :=
  match w with
  | QL => HandleList l (nql h) (rql h) (constCount h) (domainsCount h) (nondomainsCount h) (reverseCount h) (state h) (ref h) (dev h) (mode h) (setmode h)
  | NQL => HandleList (ql h) l (rql h) (constCount h) (domainsCount h) (nondomainsCount h) (reverseCount h) (state h) (ref h) (dev h) (mode h) (setmode h)
  | RQL => HandleList (ql h) (nql h) l (constCount h) (domainsCount h) (nondomainsCount h) (reverseCount h) (state h) (ref h) (dev h) (mode h) (setmode h)
  end.
Definition add_counts (c d n r : Z) (h : handle_list) : handle_list :=
  HandleList (ql h) (nql h) (rql h) (u32 (constCount h + c)) (u32 (domainsCount h + d))
    (u32 (nondomainsCount h + n)) (u32 (reverseCount h + r)) (state h) (ref h) (dev h) (mode h) (setmode h).

(** ** Sessions *)
Definition set_thread_context (domain : Z) : M proc unit :=
  modify (fun s => if tlsKey s then set_tls (Some domain) s else s).

Definition get_device_fd (domain : Z) (s : proc) : Z :=
  match hlist s with
  | Some _ => if dev (hl s domain) =? -1 then -1 else dev (hl s domain)
  | None => -1
  end.

Definition IS_SESSION_OPEN_ALREADY (domain : Z) (s : proc) : bool :=
  match hlist s with Some _ => negb (dev (hl s domain) =? -1) | None => false end.

(** [open_device_node]: the new descriptor, negative on failure. Result: code and [*dev]. *)
Definition fastrpc_session_open (open_device_node : Z) (domain : Z) : M proc (Z * option Z) :=
  s ← get;
  if IS_SESSION_OPEN_ALREADY domain s then mret (0, Some (dev (hl s domain)))
  else if 0 <=? open_device_node then mret (0, Some open_device_node)
  else mret (AEE_ECONNREFUSED, None).

Definition fastrpc_session_close (domain dv : Z) : M proc unit :=
  s ← get;
  match hlist s with
  | None => mret tt
  | Some _ =>
    if (dev (hl s domain) =? INVALID_DEVICE) && negb (dv =? INVALID_DEVICE)
    then put (set_closed (dv :: closed s) s)
    else if negb (dev (hl s domain) =? INVALID_DEVICE) && (dv =? INVALID_DEVICE)
    then put (set_hl domain (set_dev INVALID_DEVICE) (set_closed (dev (hl s domain) :: closed s) s))
    else mret tt
  end.

Definition fastrpc_session_get (domain : Z) : M proc Z :=
  s ← get;
  match hlist s with
  | None => mret AEE_ENOTINITIALIZED
  | Some _ =>
    if state (hl s domain) =? FASTRPC_DOMAIN_STATE_DEINIT then mret AEE_ENOTINITIALIZED
    else
      _ ← put (set_hl domain (fun h => set_ref (u32 (ref h + 1)) h) s);
      _ ← set_thread_context domain;
      mret 0
  end.

Definition fastrpc_session_put (domain : Z) : M proc Z :=
  s ← get;
  match hlist s with
  | None => mret AEE_ENOTINITIALIZED
  | Some _ =>
    _ ← (if 0 <? ref (hl s domain) then put (set_hl domain (fun h => set_ref (ref h - 1) h) s) else mret tt);
    r ← gets (fun s => ref (hl s domain));
    mret (s32 r)
  end.

(** Code and [*dev]. *)
Definition fastrpc_session_dev (domain : Z) (s : proc) : Z * Z :=
  if negb (IS_VALID_EFFECTIVE_DOMAIN_ID domain) then (AEE_ENOTINITIALIZED, INVALID_DEVICE)
  else match hlist s with
       | None => (AEE_ENOTINITIALIZED, INVALID_DEVICE)
       | Some _ =>
         if state (hl s domain) =? FASTRPC_DOMAIN_STATE_DEINIT then (AEE_ENOTINITIALIZED, INVALID_DEVICE)
         else if dev (hl s domain) <? 0 then (AEE_ENOTINITIALIZED, INVALID_DEVICE)
         else (AEE_SUCCESS, dev (hl s domain))
       end.

(** [list - &hlist[0]] of the thread's context, when it is a valid id. *)
Definition get_current_domain (s : proc) : Z :=
  match tls s with
  | Some d => if IS_VALID_EFFECTIVE_DOMAIN_ID d then d else DEFAULT_DOMAIN_ID
  | None => DEFAULT_DOMAIN_ID
  end.

Definition is_process_exiting (domain : Z) (s : proc) : bool :=
  if IS_VALID_EFFECTIVE_DOMAIN_ID domain then negb (state (hl s domain) =? FASTRPC_DOMAIN_STATE_INIT) else true.

Definition remote_set_mode (m : Z) : M proc Z :=
  _ ← foldr (fun i k => _ ← modify (set_hl i (set_mode m 1)); k) (mret tt) EFFECTIVE_DOMAIN_IDS;
  mret AEE_SUCCESS.

(** [present]: the result of [check_error_code_change_present]. *)
Definition KERNEL_ERRNO_START : Z := -1024.
Definition HLOS_ERR_END : Z := 1024.
Definition check_rpc_error (present : bool) (err : Z) : Z :=
  let off := s32 DSP_AEE_EOFFSET in
  if present then
    if (KERNEL_ERRNO_START <? err) && (err <=? HLOS_ERR_END) then 0
    else if (off <? err) && (err <=? off + 1024) then 0
    else if (err =? AEE_ENOSUCH) || (err =? AEE_EINTERRUPTED) then 0
    else -1
  else 0.

(** ** Handles *)

(** The first node at [addr] in the lists searched. *)
Definition find_hinfo (addr : Z) (l : list handle_info) : option handle_info :=
  list_find (fun h => hi_addr h = addr) l ≫= fun p => Some p.2.

Fixpoint find_hinfo_all (addr : Z) (s : proc) (ds : list Z) : option handle_info :=
  match ds with
  | [] => None
  | d :: ds => match find_hinfo addr (ql (hl s d)) with Some h => Some h | None => find_hinfo_all addr s ds end
  end.

(** [is_valid_local_handle]; the node found stands for the memory behind the pointer. *)
Definition valid_local_handle (domain addr : Z) (s : proc) : option handle_info :=
  if domain =? -1 then find_hinfo_all addr s EFFECTIVE_DOMAIN_IDS else find_hinfo addr (ql (hl s domain)).

(** The code, and the node of a valid handle ([QNode_IsQueuedZ] holds: it is in a list). *)
Definition verify_local_handle (domain lcl : Z) (s : proc) : Z * option handle_info :=
  if (lcl =? 18446744073709551615) || (lcl =? 0) then (AEE_EINVHANDLE, None)
  else match valid_local_handle domain lcl s with
       | None => (AEE_EINVHANDLE, None)
       | Some h => if (0 <=? hi_hlist h) && (hi_hlist h <? NUM_DOMAINS_EXTEND) then (AEE_SUCCESS, Some h)
                   else (AEE_ERPC, None)
       end.

Definition get_domain_from_handle (lcl : Z) (s : proc) : Z * option Z :=
  match verify_local_handle (-1) lcl s with
  | (e, Some h) => if IS_VALID_EFFECTIVE_DOMAIN_ID (hi_hlist h) then (e, Some (hi_hlist h)) else (AEE_EINVHANDLE, None)
  | (e, None) => (e, None)
  end.

Definition get_handle_remote (lcl : Z) (s : proc) : Z * option Z :=
  match verify_local_handle (-1) lcl s with
  | (e, Some h) => (e, Some (hi_remote h))
  | (e, None) => (e, None)
  end.

Definition IS_CONST_HANDLE (h : Z) : bool := h <? 255.

(** [addr]: what [calloc] returns. Result: the code and [*local]. *)
Definition fastrpc_alloc_handle (addr domain : Z) (w : which) (remote : Z) (name : option (list Z)) : M proc (Z * option Z) :=
  if addr =? 0 then mret (AEE_ENOMEMORY, None)
  else
    let hinfo := {| hi_addr := addr; hi_hlist := domain; hi_remote := remote; hi_name := get_lib_name name |} in
    _ ← modify (set_hl domain (fun h => set_lst w (hinfo :: lst w h) h));
    mret (0, Some addr).

(** Removes the first node of this remote handle, if there is one. *)
Fixpoint remove_remote (remote : Z) (l : list handle_info) : list handle_info :=
  match l with
  | [] => []
  | h :: l => if hi_remote h =? remote then l else h :: remove_remote remote l
  end.

Definition fastrpc_free_handle (domain : Z) (w : which) (remote : Z) : M proc Z :=
  _ ← modify (set_hl domain (fun h => set_lst w (remove_remote remote (lst w h)) h));
  mret 0.

Inductive list_req :=
  | NON_DOMAIN_LIST_PREPEND | NON_DOMAIN_LIST_DEQUEUE
  | REVERSE_HANDLE_LIST_PREPEND | REVERSE_HANDLE_LIST_DEQUEUE
  | DOMAIN_LIST_PREPEND | DOMAIN_LIST_DEQUEUE.

(** The request numbers of [fastrpc_internal.h]. *)
Definition list_req_of (req : Z) : option list_req :=
  nth_error [NON_DOMAIN_LIST_PREPEND; NON_DOMAIN_LIST_DEQUEUE; REVERSE_HANDLE_LIST_PREPEND;
             REVERSE_HANDLE_LIST_DEQUEUE; DOMAIN_LIST_PREPEND; DOMAIN_LIST_DEQUEUE] (Z.to_nat req).

Definition req_list (r : list_req) : which :=
  match r with
  | NON_DOMAIN_LIST_PREPEND | NON_DOMAIN_LIST_DEQUEUE => NQL
  | REVERSE_HANDLE_LIST_PREPEND | REVERSE_HANDLE_LIST_DEQUEUE => RQL
  | DOMAIN_LIST_PREPEND | DOMAIN_LIST_DEQUEUE => QL
  end.
Definition is_prepend (r : list_req) : bool :=
  match r with
  | NON_DOMAIN_LIST_PREPEND | REVERSE_HANDLE_LIST_PREPEND | DOMAIN_LIST_PREPEND => true
  | _ => false
  end.

(** The counter of a list and handle moves by [z]. *)
Definition count_step (w : which) (h z : Z) : handle_list -> handle_list :=
  match w with
  | QL => if IS_CONST_HANDLE h then add_counts z 0 0 0 else add_counts 0 z 0 0
  | NQL => add_counts 0 0 z 0
  | RQL => add_counts 0 0 0 z
  end.

Definition fastrpc_update_module_list (req : Z) (domain h addr : Z) (name : option (list Z)) : M proc (Z * option Z) :=
  match (if req <? 0 then None else list_req_of req) with
  | None => mret (AEE_EUNSUPPORTEDAPI, None)
  | Some r =>
    let w := req_list r in
    if is_prepend r then
      a ← fastrpc_alloc_handle addr domain w h name;
      let '(nErr, lcl) := a : Z * option Z in
      if nErr =? AEE_SUCCESS
      then (_ ← modify (set_hl domain (count_step w h 1)); mret (AEE_SUCCESS, lcl))
      else mret (nErr, lcl)
    else
      nErr ← fastrpc_free_handle domain w h;
      if nErr =? AEE_SUCCESS
      then (_ ← modify (set_hl domain (count_step w h (-1))); mret (AEE_SUCCESS, None))
      else mret (nErr, None)
  end.

(** [close_reverse_handle] is code of the listener: here the handles it is given. *)
Definition MULTI_DOMAIN_HANDLE_LIST_ID : Z := 1.
Definition NON_DOMAIN_HANDLE_LIST_ID : Z := 2.
Definition REVERSE_HANDLE_LIST_ID : Z := 3.

Definition fastrpc_clear_handle_list (req domain : Z) : M proc (list Z) :=
  if req =? MULTI_DOMAIN_HANDLE_LIST_ID then (_ ← modify (set_hl domain (set_lst QL [])); mret [])
  else if req =? NON_DOMAIN_HANDLE_LIST_ID then (_ ← modify (set_hl domain (set_lst NQL [])); mret [])
  else if req =? REVERSE_HANDLE_LIST_ID then
    l ← gets (fun s => rql (hl s domain));
    _ ← modify (set_hl domain (set_lst RQL []));
    mret (hi_addr <$> l)
  else mret [].

(** ** Lookups after updates *)
Lemma hl_set d d' f s : is_Some (hlist s) -> hl (set_hl d f s) d' = if decide (d' = d) then f (hl s d) else hl s d'.
Proof.
  intros [h Hh]. unfold set_hl. rewrite Hh. unfold hl at 1. cbn [hlist mbind option_bind].
  destruct (decide (d' = d)) as [->|].
  - by rewrite lookup_insert_eq.
  - rewrite lookup_insert_ne by done. unfold hl. by rewrite Hh.
Qed.
Lemma hl_set_same d f s : is_Some (hlist s) -> hl (set_hl d f s) d = f (hl s d).
Proof. intros. rewrite hl_set, decide_True; done. Qed.
Lemma hlist_set d f s : is_Some (hlist s) -> is_Some (hlist (set_hl d f s)).
Proof. intros [h Hh]. cbn. rewrite Hh. eauto. Qed.
Lemma set_hl_hl d f g s : is_Some (hlist s) -> set_hl d f (set_hl d g s) = set_hl d (fun h => f (g h)) s.
Proof.
  intros Hs. pose proof (hl_set_same d g s Hs) as Hg. destruct Hs as [h Hh]. unfold set_hl at 1.
  rewrite Hg. unfold set_hl. cbn. rewrite Hh. cbn. f_equal. f_equal. by rewrite insert_insert_eq.
Qed.

(** ** Session references *)

(** [n] gets of a domain, then [m] puts. *)
Fixpoint iter_m {A} (n : nat) (m : M proc A) : M proc unit :=
  match n with O => mret tt | S n => _ ← m; iter_m n m end.

Definition after {A} (m : M proc A) (s : proc) : proc := (m s).2.

Lemma session_get_ok d s :
  is_Some (hlist s) -> state (hl s d) <> FASTRPC_DOMAIN_STATE_DEINIT ->
  fastrpc_session_get d s =
    (Go 0, let s' := set_hl d (fun h => set_ref (u32 (ref h + 1)) h) s in
           if tlsKey s then set_tls (Some d) s' else s').
Proof.
  intros [h Hh] Hst. unfold fastrpc_session_get, set_thread_context. munfold. rewrite Hh.
  rewrite (proj2 (Z.eqb_neq _ _)) by done. cbn. by destruct (tlsKey s).
Qed.

Lemma session_put_ok d s :
  is_Some (hlist s) ->
  let s' := if 0 <? ref (hl s d) then set_hl d (fun h => set_ref (ref h - 1) h) s else s in
  fastrpc_session_put d s = (Go (s32 (ref (hl s' d))), s').
Proof.
  intros [h Hh] s'. unfold fastrpc_session_put. munfold. rewrite Hh.
  subst s'. by destruct (0 <? ref (hl s d)).
Qed.

(** C14: Session references are counted exactly: on a domain that is not being torn
    down every get succeeds and adds one and makes the domain the thread's current
    one; every put takes one away and stops at 0, so no sequence of puts underflows
    the unsigned counter; a get and a put cancel; and no other domain is touched.
    Once the domain is in the DEINIT state a get fails and changes nothing. *)
Theorem session_refcount d s :
  is_Some (hlist s) -> 0 <= ref (hl s d) < 4294967295 ->
  (state (hl s d) <> FASTRPC_DOMAIN_STATE_DEINIT ->
     let s1 := after (fastrpc_session_get d) s in
     (fastrpc_session_get d s).1 = Go 0 /\ ref (hl s1 d) = ref (hl s d) + 1 /\
     (tlsKey s = true -> IS_VALID_EFFECTIVE_DOMAIN_ID d = true -> get_current_domain s1 = d) /\
     ref (hl (after (fastrpc_session_put d) s1) d) = ref (hl s d) /\
     (forall d', d' <> d -> hl (after (fastrpc_session_put d) s1) d' = hl s d')) /\
  (forall n, ref (hl (after (iter_m n (fastrpc_session_put d)) s) d) = Z.max 0 (ref (hl s d) - Z.of_nat n)) /\
  (state (hl s d) = FASTRPC_DOMAIN_STATE_DEINIT -> fastrpc_session_get d s = (Go AEE_ENOTINITIALIZED, s)).
Proof.
  intros Hs Hr. split_and!.
  - intros Hst s1. set (s' := set_hl d (fun h => set_ref (u32 (ref h + 1)) h) s).
    pose proof (session_get_ok d s Hs Hst) as Eg.
    assert (Es1 : s1 = if tlsKey s then set_tls (Some d) s' else s') by (unfold s1, after; by rewrite Eg).
    clearbody s1. rewrite Eg. unfold after. cbn [fst].
    assert (Hs' : is_Some (hlist s')) by by apply hlist_set.
    assert (Hs1 : is_Some (hlist s1)) by (rewrite Es1; destruct (tlsKey s); exact Hs').
    assert (Hh : forall x, hl s1 x = hl s' x) by (intros; rewrite Es1; destruct (tlsKey s); reflexivity).
    assert (Hd : hl s' d = set_ref (ref (hl s d) + 1) (hl s d)).
    { unfold s'. rewrite hl_set_same by done. by rewrite u32_small by lia. }
    rewrite (session_put_ok d s1) by done. cbn [snd]. rewrite Hh, Hd. cbn [ref set_ref].
    rewrite (proj2 (Z.ltb_lt _ _)) by lia. split_and!; [done|done| | |].
    + intros Ht Hv. unfold get_current_domain. rewrite Es1, Ht. cbn. by rewrite Hv.
    + rewrite hl_set_same by done. rewrite Hh, Hd. cbn. lia.
    + intros d' Hne. rewrite hl_set by done. rewrite decide_False, Hh by done.
      unfold s'. by rewrite hl_set, decide_False.
  - intros n. revert s Hs Hr. induction n as [|n IH]; intros s Hs Hr; [cbn; lia|].
    unfold after in *. cbn [iter_m]. unfold mbind, M_bind. rewrite (session_put_ok d s) by done.
    destruct (Z.ltb_spec 0 (ref (hl s d))).
    + rewrite IH; rewrite ?hl_set_same by done; cbn [ref set_ref]; [lia|by apply hlist_set|lia].
    + rewrite IH by done. lia.
  - intros Hst. unfold fastrpc_session_get. munfold. destruct Hs as [h ->].
    by rewrite (proj2 (Z.eqb_eq _ _)).
Qed.

Definition ex_proc : proc := Proc (Some ∅) true None [].

Lemma session_refcount_witness :
  ref (hl (after (fastrpc_session_get 3) ex_proc) 3) = 1 /\
  ref (hl (after (iter_m 5 (fastrpc_session_put 3)) ex_proc) 3) = 0.
Proof.
  destruct (session_refcount 3 ex_proc) as (H1 & H2 & _); [by eexists|by vm_compute|].
  split; [apply H1; by vm_compute|exact (H2 5%nat)].
Defined.

(** ** The life of a handle *)
Definition fresh (addr : Z) (s : proc) : Prop :=
  addr <> 0 /\ addr <> 18446744073709551615 /\
  forall d, d ∈ EFFECTIVE_DOMAIN_IDS -> find_hinfo addr (ql (hl s d)) = None.

Definition counts_in_range (h : handle_list) : Prop :=
  0 <= constCount h < 4294967295 /\ 0 <= domainsCount h < 4294967295 /\
  0 <= nondomainsCount h < 4294967295 /\ 0 <= reverseCount h < 4294967295.

Lemma valid_effective d : IS_VALID_EFFECTIVE_DOMAIN_ID d = true <-> d ∈ EFFECTIVE_DOMAIN_IDS.
Proof.
  unfold IS_VALID_EFFECTIVE_DOMAIN_ID, EFFECTIVE_DOMAIN_IDS. rewrite andb_true_iff, Z.leb_le, Z.ltb_lt, elem_of_seqZ. lia.
Qed.

Lemma find_hinfo_cons addr n l :
  find_hinfo addr (n :: l) = if decide (hi_addr n = addr) then Some n else find_hinfo addr l.
Proof.
  unfold find_hinfo. cbn. destruct (decide (hi_addr n = addr)); [done|].
  by destruct (list_find _ l) as [[]|].
Qed.

Lemma find_hinfo_all_at addr s d n ds :
  d ∈ ds -> find_hinfo addr (ql (hl s d)) = Some n ->
  (forall d', d' ∈ ds -> d' <> d -> find_hinfo addr (ql (hl s d')) = None) ->
  find_hinfo_all addr s ds = Some n.
Proof.
  induction ds as [|d0 ds IH]; [by intros ?%elem_of_nil|]. intros Hin Hd Ho. cbn [find_hinfo_all].
  destruct (decide (d0 = d)) as [->|Hne]; [by rewrite Hd|].
  rewrite Ho by (done || by left). apply elem_of_cons in Hin as [->|Hin]; [done|].
  apply IH; [done..|]. intros d' ??. apply Ho; [by right|done].
Qed.

Lemma find_hinfo_all_None addr s ds :
  (forall d, d ∈ ds -> find_hinfo addr (ql (hl s d)) = None) -> find_hinfo_all addr s ds = None.
Proof.
  induction ds as [|d0 ds IH]; intros H; cbn; [done|]. rewrite H by set_solver. apply IH. set_solver.
Qed.

Lemma find_hinfo_all_ext a s s' ds :
  (forall d, find_hinfo a (ql (hl s d)) = find_hinfo a (ql (hl s' d))) -> find_hinfo_all a s ds = find_hinfo_all a s' ds.
Proof. intros H. induction ds as [|d0 ds IH]; cbn; [done|]. by rewrite H, IH. Qed.

Lemma verify_ext a s s' d :
  (forall d, find_hinfo a (ql (hl s d)) = find_hinfo a (ql (hl s' d))) -> verify_local_handle d a s = verify_local_handle d a s'.
Proof.
  intros H. unfold verify_local_handle, valid_local_handle.
  by rewrite (find_hinfo_all_ext a s s' _ H), H.
Qed.

(** The state after a prepend and after a dequeue of the same list. *)
Lemma update_prepend req r d h addr name s :
  list_req_of req = Some r -> 0 <= req -> is_prepend r = true -> addr <> 0 ->
  fastrpc_update_module_list req d h addr name s =
    (Go (0, Some addr),
     set_hl d (count_step (req_list r) h 1)
       (set_hl d (fun x => set_lst (req_list r) (HandleInfo addr d h (get_lib_name name) :: lst (req_list r) x) x) s)).
Proof.
  intros Hr Hq Hp Ha. unfold fastrpc_update_module_list, fastrpc_alloc_handle. munfold.
  rewrite (proj2 (Z.ltb_ge _ _)) by done. rewrite Hr, Hp, (proj2 (Z.eqb_neq _ _)) by done. done.
Qed.

Lemma update_dequeue req r d h addr name s :
  list_req_of req = Some r -> 0 <= req -> is_prepend r = false ->
  fastrpc_update_module_list req d h addr name s =
    (Go (0, None),
     set_hl d (count_step (req_list r) h (-1))
       (set_hl d (fun x => set_lst (req_list r) (remove_remote h (lst (req_list r) x)) x) s)).
Proof.
  intros Hr Hq Hp. unfold fastrpc_update_module_list, fastrpc_free_handle. munfold.
  rewrite (proj2 (Z.ltb_ge _ _)) by done. by rewrite Hr, Hp.
Qed.

Lemma count_step_back w h x :
  counts_in_range x -> count_step w h (-1) (count_step w h 1 x) = x.
Proof.
  intros (?&?&?&?). destruct x. cbn in *. destruct w; unfold count_step; [destruct (IS_CONST_HANDLE h)|..];
    unfold add_counts; cbn; f_equal; rewrite ?Z.add_0_r; rewrite !u32_small; try lia; rewrite ?u32_small; lia.
Qed.

Lemma count_lst w w' h z x l : count_step w h z (set_lst w' l x) = set_lst w' l (count_step w h z x).
Proof. destruct x, w, w'; unfold count_step; try done; by destruct (IS_CONST_HANDLE h). Qed.
Lemma lst_count w w' h z x : lst w' (count_step w h z x) = lst w' x.
Proof. destruct x, w, w'; unfold count_step; try done; by destruct (IS_CONST_HANDLE h). Qed.
Lemma lst_set w l x : lst w (set_lst w l x) = l.
Proof. by destruct x, w. Qed.
Lemma set_lst_set w l l' x : set_lst w l (set_lst w l' x) = set_lst w l x.
Proof. by destruct x, w. Qed.
Lemma set_lst_id w x : set_lst w (lst w x) x = x.
Proof. by destruct x, w. Qed.

Section lifecycle.
Context (s : proc) (d h addr : Z) (name : option (list Z)).
Context (Hs : is_Some (hlist s)) (Hd : IS_VALID_EFFECTIVE_DOMAIN_ID d = true) (Hf : fresh addr s).
Let s1 := after (fastrpc_update_module_list 4 d h addr name) s.

Lemma s1_ql x : ql (hl s1 x) = if decide (x = d) then HandleInfo addr d h (get_lib_name name) :: ql (hl s d) else ql (hl s x).
Proof.
  destruct Hf as (Ha & _ & _). unfold s1, after. rewrite (update_prepend 4 DOMAIN_LIST_PREPEND) by done.
  cbn [snd req_list]. rewrite set_hl_hl, hl_set by done. destruct (decide (x = d)) as [->|]; [|done].
  change (ql ?z) with (lst QL z). by rewrite lst_count, lst_set.
Qed.

Lemma s1_verify : verify_local_handle (-1) addr s1 = (AEE_SUCCESS, Some (HandleInfo addr d h (get_lib_name name))).
Proof.
  pose proof Hf as (Ha & Ha' & Hfr).
  unfold verify_local_handle, valid_local_handle. rewrite !(proj2 (Z.eqb_neq addr _)) by done. cbn [orb Z.eqb Pos.eqb].
  rewrite (find_hinfo_all_at addr s1 d (HandleInfo addr d h (get_lib_name name))).
  - cbn [hi_hlist]. pose proof Hd as Hd'. unfold IS_VALID_EFFECTIVE_DOMAIN_ID in Hd'. by rewrite Hd'.
  - by apply valid_effective.
  - rewrite s1_ql, decide_True, find_hinfo_cons by done. by rewrite decide_True.
  - intros d' Hin Hne. rewrite s1_ql, decide_False by done. by apply Hfr.
Qed.

(** A handle opened on a domain (prepended at an address not in use) is valid: it
    leads back to its domain and its remote handle, and no other handle's validity
    changes. Dequeuing it restores the domain's record, counters included, and the
    handle is rejected from then on. *)
Theorem handle_lifecycle :
  counts_in_range (hl s d) ->
  (fastrpc_update_module_list 4 d h addr name s).1 = Go (AEE_SUCCESS, Some addr) /\
  get_domain_from_handle addr s1 = (AEE_SUCCESS, Some d) /\
  get_handle_remote addr s1 = (AEE_SUCCESS, Some h) /\
  (forall a, a <> addr -> verify_local_handle (-1) a s1 = verify_local_handle (-1) a s) /\
  (forall a n, let s2 := after (fastrpc_update_module_list 5 d h a n) s1 in
     (forall x, hl s2 x = hl s x) /\ verify_local_handle (-1) addr s2 = (AEE_EINVHANDLE, None)).
Proof.
  intros Hc. pose proof Hf as (Ha & Ha' & Hfr).
  pose proof s1_verify as Hv.
  split_and!.
  - unfold AEE_SUCCESS. by rewrite (update_prepend 4 DOMAIN_LIST_PREPEND).
  - unfold get_domain_from_handle. rewrite Hv. cbn [hi_hlist]. by rewrite Hd.
  - unfold get_handle_remote. by rewrite Hv.
  - intros a Hne. apply verify_ext. intros x. rewrite s1_ql. destruct (decide (x = d)) as [->|]; [|done].
    rewrite find_hinfo_cons. by rewrite decide_False by (cbn; congruence).
  - intros a n s2.
    assert (Hb : forall x, hl s2 x = hl s x).
    { intros x. unfold s2, s1, after. rewrite (update_prepend 4 DOMAIN_LIST_PREPEND) by done.
      rewrite (update_dequeue 5 DOMAIN_LIST_DEQUEUE) by done. cbn [snd req_list].
      rewrite !set_hl_hl, hl_set by (done || by repeat apply hlist_set). destruct (decide (x = d)) as [->|]; [|done].
      rewrite !lst_count, !lst_set. cbn [remove_remote hi_remote]. rewrite Z.eqb_refl.
      rewrite !count_lst, set_lst_set, count_step_back by done. apply set_lst_id. }
    split; [done|]. unfold verify_local_handle, valid_local_handle.
    rewrite !(proj2 (Z.eqb_neq addr _)) by done. cbn [orb Z.eqb Pos.eqb].
    rewrite find_hinfo_all_None; [done|]. intros x Hx. rewrite Hb. by apply Hfr.
Qed.
End lifecycle.

Lemma handle_lifecycle_witness :
  get_domain_from_handle 4096 (after (fastrpc_update_module_list 4 3 1000 4096 None) ex_proc) = (0, Some 3).
Proof.
  apply (handle_lifecycle ex_proc 3 1000 4096 None);
    [by eexists|done|split_and!; [done|done|intros d _; unfold hl; cbn; by rewrite lookup_empty]|by vm_compute].
Defined.

(** ** The counters *)

(** Each counter is the number of handles of its kind. *)
Definition counts_ok (h : handle_list) : Prop :=
  constCount h = Z.of_nat (length (filter (fun x => IS_CONST_HANDLE (hi_remote x) = true) (ql h))) /\
  domainsCount h = Z.of_nat (length (filter (fun x => IS_CONST_HANDLE (hi_remote x) <> true) (ql h))) /\
  nondomainsCount h = Z.of_nat (length (nql h)) /\ reverseCount h = Z.of_nat (length (rql h)).

Lemma remove_remote_filter (P : handle_info -> Prop) `{!forall x, Decision (P x)} h l :
  (forall x, hi_remote x = h -> P x) -> Exists (fun x => hi_remote x = h) l ->
  length (filter P l) = S (length (filter P (remove_remote h l))).
Proof.
  intros HP. induction 1 as [x l Hx|x l _ IH]; cbn [remove_remote].
  - rewrite (proj2 (Z.eqb_eq _ _) Hx). by rewrite filter_cons_True by auto.
  - destruct (Z.eqb_spec (hi_remote x) h) as [Hx|Hx].
    + by rewrite filter_cons_True by auto.
    + rewrite !filter_cons. destruct (decide (P x)); cbn; lia.
Qed.

Lemma remove_remote_filter_other (P : handle_info -> Prop) `{!forall x, Decision (P x)} h l :
  (forall x, hi_remote x = h -> ~ P x) -> filter P (remove_remote h l) = filter P l.
Proof.
  intros HP. induction l as [|x l IH]; cbn [remove_remote]; [done|].
  destruct (Z.eqb_spec (hi_remote x) h) as [Hx|Hx]; [by rewrite filter_cons_False by auto|].
  rewrite !filter_cons. destruct (decide (P x)); by rewrite IH.
Qed.

Lemma remove_remote_length h l :
  Exists (fun x => hi_remote x = h) l -> length l = S (length (remove_remote h l)).
Proof.
  induction 1 as [x l Hx|x l _ IH]; cbn [remove_remote].
  - by rewrite (proj2 (Z.eqb_eq _ _) Hx).
  - destruct (hi_remote x =? h); cbn; lia.
Qed.

(** One counting step against the lengths of the lists. *)
Lemma counts_prepend w h n x :
  hi_remote n = h -> counts_ok x -> counts_in_range x ->
  counts_ok (count_step w h 1 (set_lst w (n :: lst w x) x)).
Proof.
  intros Hn (H1 & H2 & H3 & H4) (R1 & R2 & R3 & R4). destruct x, w; unfold count_step; cbn in *.
  - destruct (IS_CONST_HANDLE h) eqn:E; unfold counts_ok, add_counts; cbn [constCount domainsCount nondomainsCount reverseCount ql nql rql];
      rewrite !filter_cons, Hn, E; cbn [decide]; rewrite ?Z.add_0_r, !u32_small by lia;
      repeat case_decide; try congruence; cbn [length]; split_and!; lia.
  - unfold counts_ok, add_counts; cbn. rewrite ?Z.add_0_r, !u32_small by lia. split_and!; lia.
  - unfold counts_ok, add_counts; cbn. rewrite ?Z.add_0_r, !u32_small by lia. split_and!; lia.
Qed.

Lemma counts_dequeue w h x :
  counts_ok x -> counts_in_range x -> Exists (fun n => hi_remote n = h) (lst w x) ->
  counts_ok (count_step w h (-1) (set_lst w (remove_remote h (lst w x)) x)).
Proof.
  intros (H1 & H2 & H3 & H4) (R1 & R2 & R3 & R4) He. destruct x, w; unfold count_step; cbn in *.
  - destruct (IS_CONST_HANDLE h) eqn:E; unfold counts_ok, add_counts; cbn [constCount domainsCount nondomainsCount reverseCount ql nql rql].
    + rewrite (remove_remote_filter_other (fun x => IS_CONST_HANDLE (hi_remote x) <> true)) by (intros ? Hx Hc; apply Hc; by rewrite Hx).
      pose proof (remove_remote_filter (fun x => IS_CONST_HANDLE (hi_remote x) = true) h ql0 ltac:(intros ? Hx; cbv beta; by rewrite Hx) He).
      rewrite ?Z.add_0_r, !u32_small by lia. split_and!; lia.
    + rewrite (remove_remote_filter_other (fun x => IS_CONST_HANDLE (hi_remote x) = true)) by (intros ? Hx; by rewrite Hx, E).
      pose proof (remove_remote_filter (fun x => IS_CONST_HANDLE (hi_remote x) <> true) h ql0 ltac:(intros ? Hx; cbv beta; by rewrite Hx, E) He).
      rewrite ?Z.add_0_r, !u32_small by lia. split_and!; lia.
  - apply remove_remote_length in He. unfold counts_ok, add_counts; cbn. rewrite ?Z.add_0_r, !u32_small by lia. split_and!; lia.
  - apply remove_remote_length in He. unfold counts_ok, add_counts; cbn. rewrite ?Z.add_0_r, !u32_small by lia. split_and!; lia.
Qed.

(** The handle counters that decide when a session is closed are exact: every
    prepend, and every dequeue of a handle that is in the list, keeps each counter equal
    to the number of handles of its kind (constant, domain, non-domain, reverse), on
    every domain. *)
Theorem counters_exact s d req r h addr name :
  is_Some (hlist s) -> 0 <= req -> list_req_of req = Some r ->
  (forall x, counts_ok (hl s x) /\ counts_in_range (hl s x)) ->
  (if is_prepend r then addr <> 0 else Exists (fun n => hi_remote n = h) (lst (req_list r) (hl s d))) ->
  forall x, counts_ok (hl (after (fastrpc_update_module_list req d h addr name) s) x).
Proof.
  intros Hs Hq Hr Hok Hcase x. destruct (Hok d) as [Hd Hrg]. unfold after.
  destruct (is_prepend r) eqn:Hp.
  - rewrite (update_prepend req r) by done. cbn [snd]. rewrite set_hl_hl, hl_set by done.
    destruct (decide (x = d)) as [->|]; [by apply counts_prepend|apply Hok].
  - rewrite (update_dequeue req r) by done. cbn [snd]. rewrite set_hl_hl, hl_set by done.
    destruct (decide (x = d)) as [->|]; [by apply counts_dequeue|apply Hok].
Qed.

Lemma ex_proc_fresh x : hl ex_proc x = hl0.
Proof. unfold hl. cbn. by rewrite lookup_empty. Qed.

Lemma counters_exact_witness :
  counts_ok (hl (after (fastrpc_update_module_list 0 3 70000 4096 None) ex_proc) 3).
Proof.
  apply (counters_exact ex_proc 3 0 NON_DOMAIN_LIST_PREPEND);
    [by eexists|lia|done|intros x; rewrite ex_proc_fresh; by vm_compute|done].
Defined.

(** The counters leave the lists behind in two ways. Dequeuing a handle that is not
    in the list still reports success and still decrements (an unsigned 0 becomes
    4294967295). And clearing a domain's lists at session teardown empties them without
    resetting any counter, so the next session starts from the old counts; for the
    reverse list the teardown closes the local node addresses, never the remote handles
    that were opened. *)
Theorem counters_drift s d h a name :
  is_Some (hlist s) ->
  (ql (hl s d) = [] -> domainsCount (hl s d) = 0 -> IS_CONST_HANDLE h = false ->
     let r := fastrpc_update_module_list 5 d h a name s in
     r.1 = Go (AEE_SUCCESS, None) /\ domainsCount (hl r.2 d) = 4294967295) /\
  (let s1 := after (fastrpc_clear_handle_list MULTI_DOMAIN_HANDLE_LIST_ID d) s in
   ql (hl s1 d) = [] /\ domainsCount (hl s1 d) = domainsCount (hl s d) /\ constCount (hl s1 d) = constCount (hl s d)) /\
  (fastrpc_clear_handle_list REVERSE_HANDLE_LIST_ID d s).1 = Go (hi_addr <$> rql (hl s d)).
Proof.
  intros Hs. split_and!.
  - intros Hq Hc Hh. rewrite (update_dequeue 5 DOMAIN_LIST_DEQUEUE) by done. cbn [fst snd req_list].
    split; [done|]. rewrite set_hl_hl, hl_set_same by done. unfold count_step. rewrite Hh.
    destruct (hl s d). cbn in *. by rewrite Hc.
  - unfold after, fastrpc_clear_handle_list. munfold.
    change (MULTI_DOMAIN_HANDLE_LIST_ID =? MULTI_DOMAIN_HANDLE_LIST_ID) with true. cbn [snd]. rewrite hl_set_same by done. by destruct (hl s d).
  - unfold fastrpc_clear_handle_list. munfold. done.
Qed.

Lemma counters_drift_witness :
  domainsCount (hl (fastrpc_update_module_list 5 3 70000 0 None ex_proc).2 3) = 4294967295.
Proof. apply (counters_drift ex_proc 3 70000 0 None); [by eexists|by rewrite ex_proc_fresh..|done]. Defined.
