(* ===== verification/SessionIface.v ===== *)
(** What the session layer promises to the components that use it: taking and giving
    back a session reference, the device of a session, and the pattern of the macros
    [FASTRPC_GET_REF]/[FASTRPC_PUT_REF]; and the proof that [Session] keeps it. *)
From S2P Require Import Prelude Errors Domain Session.

(** ** The interface *)
Class SessionOps (K : Type) := {
  fastrpc_init_once : M K Z;
  current_domain : K -> Z;
  session_get : Z -> M K Z;
  session_put : Z -> M K Z;
  session_dev : Z -> K -> Z * Z
}.

Definition REF_MAX : Z := 4294967295.

(** [sess_ok] is the session state's own invariant, [sref] its reference counts. *)
Class SessionLaws (K : Type) `{SessionOps K} := {
  sess_ok : K -> Prop;
  sref : K -> Z -> Z;
  sref_range k d : sess_ok k -> 0 <= sref k d;
  init_sref k : sess_ok k ->
    exists e k', fastrpc_init_once k = (Go e, k') /\ sess_ok k' /\ forall d, sref k' d = sref k d;
  get_sref d k : sess_ok k -> sref k d < REF_MAX ->
    exists e k', session_get d k = (Go e, k') /\ sess_ok k' /\
      forall x, sref k' x = if decide (e = 0 /\ x = d) then sref k d + 1 else sref k x;
  put_sref d k : sess_ok k -> sref k d <> 0 ->
    exists r k', session_put d k = (Go r, k') /\ sess_ok k' /\
      forall x, sref k' x = if decide (x = d) then sref k d - 1 else sref k x
}.

(** A component state that contains a session state. *)
Class HasSession (S K : Type) := {
  ses : S -> K;
  set_ses : K -> S -> S;
  ses_set k s : ses (set_ses k s) = k
}.

#[export] Instance prod_session {S K L} `{HasSession S K} : HasSession (S * L) K :=
  { ses s := ses s.1; set_ses k s := (set_ses k s.1, s.2); ses_set k s := ses_set k s.1 }.

Section with_ref.
Context {S K : Type} `{HS : HasSession S K} `{HO : SessionOps K} `{HL : !SessionLaws K}.

Definition on_ses {A} (m : M K A) : M S A := fun s =>
  let '(r, k) := m (ses s) in (r, set_ses k s).

(** [FASTRPC_GET_REF(domain)], a body that runs up to [bail:], [FASTRPC_PUT_REF(domain)]
    and what follows; [fail] is the rest of the function when no reference is taken. *)
Definition bracket {A B} (d : Z) (fail : Z -> M S B) (body : M S A) (post : A -> M S B) : M S B :=
  e ← on_ses (session_get d);
  if negb (e =? AEE_SUCCESS) then fail e else (r ← body; _ ← on_ses (session_put d); post r).

Definition with_ref (d : Z) (body : M S unit) : M S Z := bracket d mret (to_bail body) mret.

(** The references are the same after as before, on every path; [n] bounds how many
    the computation holds at once. *)
Definition balanced {A} (n : Z) (m : M S A) : Prop :=
  forall s, sess_ok (ses s) -> (forall x, sref (ses s) x < REF_MAX - n) ->
    sess_ok (ses (m s).2) /\ forall x, sref (ses (m s).2) x = sref (ses s) x.

Lemma balanced_ret {A} n (a : A) : balanced n (mret a : M S A).
Proof. by intros s. Qed.
Lemma balanced_bail {A} n e : balanced n (bail e : M S A).
Proof. by intros s. Qed.
Lemma balanced_gets {A} n (f : S -> A) : balanced n (gets f).
Proof. by intros s. Qed.
Lemma balanced_get n : balanced n (@get S).
Proof. by intros s. Qed.
Lemma balanced_bind {A B} n (m : M S A) (f : A -> M S B) :
  balanced n m -> (forall a, balanced n (f a)) -> balanced n (m ≫= f).
Proof.
  intros Hm Hf s Ho Hs. destruct (Hm s Ho Hs) as [Ho' Hm']. unfold mbind, M_bind.
  destruct (m s) as [[a|e] s']; cbn in *; [|done].
  destruct (Hf a s' Ho') as [Ho2 Hf']; [intros y; rewrite Hm'; apply Hs|].
  split; [done|]. intros x. by rewrite Hf'.
Qed.
Lemma balanced_to_bail n (b : M S unit) : balanced n b -> balanced n (to_bail b).
Proof. intros Hb s Ho Hs. specialize (Hb s Ho Hs). unfold to_bail. by destruct (b s) as [[|] ]. Qed.
Lemma balanced_VERIFYC n b e : balanced n (VERIFYC b e : M S unit).
Proof. intros s. by destruct b. Qed.
Lemma balanced_VERIFY n k b : balanced n (VERIFY k b : M S unit).
Proof. intros s. by destruct b. Qed.
Lemma balanced_VERIFY_CALL n (m : M S Z) : balanced n m -> balanced n (VERIFY_CALL m).
Proof. intros H. apply balanced_bind; [done|]. intros. apply balanced_VERIFY. Qed.
Lemma balanced_if {A} n (c : bool) (m m' : M S A) : balanced n m -> balanced n m' -> balanced n (if c then m else m').
Proof. by destruct c. Qed.
Lemma balanced_modify n (f : S -> S) : (forall s, ses (f s) = ses s) -> balanced n (modify f).
Proof. intros Hf s Ho Hs. cbn. by rewrite Hf. Qed.
Lemma balanced_init n : balanced n (on_ses fastrpc_init_once).
Proof.
  intros s Ho Hs. unfold on_ses. destruct (init_sref (ses s) Ho) as (e & k' & -> & Ho' & Hk). cbn. by rewrite ses_set.
Qed.

Lemma balanced_weaken {A} n n' (m : M S A) : n <= n' -> balanced n m -> balanced n' m.
Proof. intros Hn Hm s Ho Hs. apply Hm; [done|]. intros x. specialize (Hs x). lia. Qed.

(** The state after a get and a put, with something balanced in between. *)
Lemma put_back d s k s' x :
  sess_ok (ses s) -> (forall y, sref k y = if decide (y = d) then sref (ses s) d + 1 else sref (ses s) y) ->
  sess_ok (ses s') -> (forall y, sref (ses s') y = sref k y) ->
  exists r k', session_put d (ses s') = (Go r, k') /\ sess_ok k' /\ sref k' x = sref (ses s) x.
Proof.
  intros Ho Hk Ho' Hs'. pose proof (sref_range (ses s) d Ho).
  assert (Hd : sref k d = sref (ses s) d + 1) by (by rewrite Hk, decide_True).
  destruct (put_sref d (ses s') Ho') as (r & k2 & E & Ho2 & Hp); [rewrite Hs'; lia|].
  exists r, k2. split_and!; [done..|]. rewrite Hp, !Hs'.
  destruct (decide (x = d)) as [->|Hne]; [lia|]. by rewrite Hk, decide_False.
Qed.

Lemma balanced_bracket {A B} n d (body : M S A) (k : Z -> M S B) (post : A -> M S B) :
  0 <= n -> balanced n body -> (forall s, exists a s', body s = (Go a, s')) ->
  (forall e, balanced (n + 1) (k e)) -> (forall a, balanced (n + 1) (post a)) ->
  balanced (n + 1) (bracket d k body post).
Proof.
  intros Hn Hb Ht Hk Hpost s Ho Hs. unfold bracket, on_ses. munfold.
  destruct (get_sref d (ses s) Ho) as (e & kk & -> & Hok & Hkk); [specialize (Hs d); lia|].
  unfold AEE_SUCCESS. destruct (Z.eqb_spec e 0) as [->|He]; cbn [negb].
  2: { assert (Hsame : forall x, sref (ses (set_ses kk s)) x = sref (ses s) x).
       { intros x. rewrite ses_set, Hkk, decide_False by tauto. done. }
       destruct (Hk e (set_ses kk s)) as [Ho1 H1].
       - by rewrite ses_set.
       - intros x. rewrite Hsame. apply Hs.
       - split; [done|]. intros x. by rewrite H1. }
  assert (Hk0 : forall y, sref kk y = if decide (y = d) then sref (ses s) d + 1 else sref (ses s) y).
  { intros y. rewrite Hkk. destruct (decide (0 = 0 /\ y = d)) as [[_ ->]|Hy]; [by rewrite decide_True|].
    by rewrite decide_False by tauto. }
  destruct (Hb (set_ses kk s)) as [Ho' Hb'].
  { by rewrite ses_set. }
  { rewrite ses_set. intros y. rewrite Hk0. pose proof (Hs d). pose proof (Hs y). destruct (decide (y = d)); lia. }
  rewrite ses_set in Hb'. destruct (Ht (set_ses kk s)) as (a & s' & E). rewrite E in *. cbn [snd] in *.
  assert (Hput : forall x, exists r k', session_put d (ses s') = (Go r, k') /\
      sess_ok k' /\ sref k' x = sref (ses s) x) by (intros x; by apply (put_back d s kk)).
  destruct (Hput d) as (r0 & k0 & E0 & Ho0 & _). rewrite E0.
  assert (Hx : forall x, sref k0 x = sref (ses s) x).
  { intros x. destruct (Hput x) as (r1 & k1 & E1 & _ & Hx). congruence. }
  destruct (Hpost a (set_ses k0 s')) as [Ho2 H2].
  { by rewrite ses_set. }
  { intros x. rewrite ses_set, Hx. apply Hs. }
  split; [done|]. intros x. by rewrite H2, ses_set.
Qed.

Lemma balanced_with_ref n d body : 0 <= n -> balanced n body -> balanced (n + 1) (with_ref d body).
Proof.
  intros Hn Hb. apply balanced_bracket; [done|by apply balanced_to_bail| |..].
  - apply (total (m := to_bail body)).
  - intros e. apply balanced_ret.
  - intros e. apply balanced_ret.
Qed.
End with_ref.

#[export] Hint Resolve balanced_ret balanced_bail balanced_gets balanced_get balanced_bind balanced_to_bail
  balanced_VERIFYC balanced_VERIFY balanced_VERIFY_CALL balanced_if balanced_init : bail.

(** Lifted computations, and locals, over the same session state. *)
Section locals.
Context {S K : Type} `{HS : HasSession S K} `{HO : SessionOps K} `{HL : !SessionLaws K}.

Lemma balanced_lift {L A} n (m : M S A) : balanced n m -> balanced (S := S * L) n (lift m).
Proof. intros Hm [s l] Ho Hs. specialize (Hm s Ho Hs). unfold lift. cbn in *. by destruct (m s). Qed.
Lemma balanced_getl {L A} n (f : L -> A) : balanced (S := S * L) n (getl f).
Proof. by intros []. Qed.
Lemma balanced_setl {L} n (f : L -> L) : balanced (S := S * L) n (setl f).
Proof. by intros []. Qed.
Lemma balanced_with_locals {L} n (l0 : L) (b : M (S * L) unit) : balanced n b -> balanced n (with_locals l0 b).
Proof. intros Hb s Ho Hs. specialize (Hb (s, l0) Ho Hs). unfold with_locals. by destruct (b (s, l0)) as [[|] []]. Qed.
Lemma balanced_put_gets n (f : S -> S) : (forall s, ses (f s) = ses s) -> balanced n (s ← get; put (f s)).
Proof. intros Hf s Ho Hs. munfold. cbn. by rewrite Hf. Qed.
Lemma with_locals_total {L} (l0 : L) (b : M (S * L) unit) s : exists a s', with_locals l0 b s = (Go a, s').
Proof. apply (total (m := with_locals l0 b)). Qed.
Lemma balanced_bracket_locals {L B} n d (l0 : L) body (k : Z -> M S B) post :
  0 <= n -> balanced n body -> (forall e, balanced (n + 1) (k e)) -> (forall a, balanced (n + 1) (post a)) ->
  balanced (n + 1) (bracket d k (with_locals l0 body) post).
Proof. intros. apply balanced_bracket; try done; [by apply balanced_with_locals|apply with_locals_total]. Qed.
Lemma balanced_ref_0 d (body : M S unit) : balanced 0 body -> balanced 1 (with_ref d body).
Proof. apply (balanced_with_ref 0). lia. Qed.
Lemma balanced_ref_1 d (body : M S unit) : balanced 1 body -> balanced 2 (with_ref d body).
Proof. apply (balanced_with_ref 1). lia. Qed.
Lemma balanced_1_2 {A} (m : M S A) : balanced 1 m -> balanced 2 m.
Proof. apply balanced_weaken. lia. Qed.
End locals.

Create HintDb balanced.

(** Follows the program's structure; the leaves are in the hint database. *)
Ltac bal :=
  repeat lazymatch goal with
  | |- forall _, _ => intro
  | |- balanced _ (mbind _ _) => apply balanced_bind
  | |- balanced _ (if _ then _ else _) => apply balanced_if
  | |- balanced _ (match ?x with _ => _ end) => destruct x
  | |- balanced _ (mret _) => apply balanced_ret
  | |- balanced _ (bail _) => apply balanced_bail
  | |- balanced _ (gets _) => apply balanced_gets
  | |- balanced _ get => apply balanced_get
  | |- balanced _ (VERIFYC _ _) => apply balanced_VERIFYC
  | |- balanced _ (VERIFY _ _) => apply balanced_VERIFY
  | |- balanced _ (VERIFY_CALL _) => apply balanced_VERIFY_CALL
  | |- balanced _ (to_bail _) => apply balanced_to_bail
  | |- balanced _ (lift _) => apply balanced_lift
  | |- balanced _ (getl _) => apply balanced_getl
  | |- balanced _ (setl _) => apply balanced_setl
  | |- balanced _ (with_locals _ _) => apply balanced_with_locals
  | |- balanced _ (modify _) => apply balanced_modify; intros; reflexivity
  | |- balanced _ _ => solve [auto with balanced nocore] || fail
  end.

(** ** The session layer keeps the interface *)
Section instance.
Context {W : Type}.

(** The library initialiser: allocates [hlist] once; its stored result is [pl_err]. *)
Class PlResult := pl_err : Z.
Context `{PlResult}.

Definition on_proc {A} (m : M proc A) : M (proc * W) A := fun pw =>
  let '(r, p) := m pw.1 in (r, (p, pw.2)).

Definition init_once : M (proc * W) Z :=
  on_proc (p ← get;
           match hlist p with
           | Some _ => mret pl_err
           | None => if pl_err =? AEE_SUCCESS
                     then (_ ← put (Proc (Some ∅) true (tls p) (closed p)); mret pl_err) else mret pl_err
           end).

#[export] Instance proc_session : SessionOps (proc * W) := {
  fastrpc_init_once := init_once;
  current_domain pw := get_current_domain pw.1;
  session_get d := on_proc (fastrpc_session_get d);
  session_put d := on_proc (fastrpc_session_put d);
  session_dev d pw := fastrpc_session_dev d pw.1
}.

Definition proc_ok (p : proc) : Prop := forall d, 0 <= ref (hl p d) <= REF_MAX.

Lemma hl_none p d : hlist p = None -> hl p d = hl0.
Proof. intros E. unfold hl. by rewrite E. Qed.

#[export] Program Instance proc_session_laws : SessionLaws (proc * W) := {
  sess_ok pw := proc_ok pw.1;
  sref pw d := ref (hl pw.1 d)
}.
Next Obligation. intros [p w] d Hp. apply Hp. Qed.
Next Obligation.
  intros [p w] Hp. change (fastrpc_init_once (p, w)) with (init_once (p, w)).
  unfold init_once, on_proc. munfold. cbn [fst snd].
  destruct (hlist p) as [h|] eqn:Hh.
  { eexists _, _; split; [reflexivity|]; split; [exact Hp|by intros]. }
  destruct (pl_err =? AEE_SUCCESS).
  2: { eexists _, _; split; [reflexivity|]; split; [exact Hp|by intros]. }
  eexists _, _. split; [reflexivity|]. cbn [fst].
  assert (Hd : forall d, ref (hl (Proc (Some ∅) true (tls p) (closed p)) d) = ref (hl p d)).
  { intros d. rewrite (hl_none p) by done. unfold hl. cbn. by rewrite lookup_empty. }
  split; [intros d; rewrite Hd; apply Hp|done].
Qed.
Next Obligation.
  intros d [p w] Hp Hlt. cbn [fst] in *. change (session_get d (p, w)) with (on_proc (fastrpc_session_get d) (p, w)).
  unfold on_proc. cbn [fst snd].
  destruct (hlist p) as [h|] eqn:Hh.
  2: { unfold fastrpc_session_get. munfold. rewrite Hh. eexists _, _. split; [reflexivity|]. split; [done|].
       intros x. by rewrite decide_False by (intros [? _]; done). }
  assert (Hs : is_Some (hlist p)) by eauto.
  destruct (decide (state (hl p d) = FASTRPC_DOMAIN_STATE_DEINIT)) as [Hd|Hd].
  { unfold fastrpc_session_get. munfold. rewrite Hh, (proj2 (Z.eqb_eq _ _) Hd). eexists _, _. split; [reflexivity|].
    split; [done|]. intros x. by rewrite decide_False by (intros [? _]; done). }
  rewrite session_get_ok by done. eexists _, _. split; [reflexivity|].
  set (p' := set_hl d (fun h => set_ref (u32 (ref h + 1)) h) p).
  assert (Hx : forall x, ref (hl p' x) = if decide (0 = 0 /\ x = d) then ref (hl p d) + 1 else ref (hl p x)).
  { intros x. unfold p'. rewrite hl_set by done. specialize (Hp d). unfold REF_MAX in *.
    destruct (decide (x = d)) as [->|]; [|by rewrite decide_False by tauto].
    rewrite decide_True by done. cbn. apply u32_small. lia. }
  assert (Hok : forall x, 0 <= ref (hl p' x) <= REF_MAX).
  { intros x. rewrite Hx. pose proof (Hp d). pose proof (Hp x). destruct (decide (0 = 0 /\ x = d)); lia. }
  destruct (tlsKey p); split; done.
Qed.
Next Obligation.
  intros d [p w] Hp Hnz. cbn [fst] in *. change (session_put d (p, w)) with (on_proc (fastrpc_session_put d) (p, w)).
  unfold on_proc. cbn [fst snd].
  destruct (hlist p) as [h|] eqn:Hh; [|by rewrite hl_none in Hnz].
  assert (Hs : is_Some (hlist p)) by eauto. rewrite session_put_ok by done.
  pose proof (Hp d). rewrite (proj2 (Z.ltb_lt _ _)) by lia. eexists _, _. split; [reflexivity|].
  assert (Hx : forall x, ref (hl (set_hl d (fun h => set_ref (ref h - 1) h) p) x) =
    if decide (x = d) then ref (hl p d) - 1 else ref (hl p x)).
  { intros x. rewrite hl_set by done. by destruct (decide (x = d)) as [->|]. }
  split; [|done]. intros x. cbn [fst]. rewrite Hx. pose proof (Hp x). destruct (decide (x = d)); lia.
Qed.
End instance.
