(* ===== verification/Ioctl.v ===== *)
(** The kernel interface: the wrappers of [src/fastrpc_ioctl.c] and the translation
    of kernel errors of [inc/fastrpc_internal.h].

    The system call [ioctl(2)] is a parameter: it takes the request the wrapper built
    and a kernel state, and gives the return value, the output field and [errno]. *)
From S2P Require Import Prelude Errors.

(** ** Requests *)
(** [struct fastrpc_invoke_args]; the request carries the array it points to. *)
Record fastrpc_invoke_args := InvokeArgs { ia_ptr : Z; ia_length : Z; ia_fd : Z; ia_attr : Z }.

Inductive ioctl_req :=
  | IOCTL_INIT_ATTACH
  | IOCTL_INIT_ATTACH_SNS
  | IOCTL_INIT_CREATE_STATIC (namelen memlen name : Z)
  | IOCTL_INIT_CREATE (file filelen filefd attrs siglen : Z)
  | IOCTL_INVOKE (handle sc : Z) (args : list fastrpc_invoke_args)
  | IOCTL_MEM_MAP (version fd offset flags vaddrin length attrs : Z)
  | IOCTL_MMAP (fd flags vaddrin size : Z)
  | IOCTL_MEM_UNMAP (version fd vaddr length : Z)
  | IOCTL_MUNMAP (vaddrout size : Z)
  | IOCTL_GET_DSP_INFO (domain attribute_id : Z).

Record io := Io { io_ret : Z; io_out : Z; io_errno : Z }.

(** Request numbers of the wrappers. *)
Definition FASTRPC_INIT_ATTACH : Z := 0.
Definition FASTRPC_INIT_CREATE : Z := 1.
Definition FASTRPC_INIT_CREATE_STATIC : Z := 2.
Definition FASTRPC_INIT_ATTACH_SENSORS : Z := 3.
Definition INVOKE : Z := 0.
Definition INVOKE_FD : Z := 2.
Definition MMAP : Z := 0.
Definition MUNMAP : Z := 1.
Definition MMAP_64 : Z := 2.
Definition MUNMAP_64 : Z := 3.
Definition MEM_MAP : Z := 4.
Definition MEM_UNMAP : Z := 5.
Definition MUNMAP_FD : Z := 6.
Definition PERF_V2_DRIVER_SUPPORT : Z := 256.
Definition FASTRPC_MAX_ATTRIBUTES : Z := 259 + 1.
Definition FASTRPC_SESSION_ID1 : Z := 4.

Section ioctl.
Context {W : Type}.
Variable ioctl : Z -> ioctl_req -> W -> io * W.

(** No system call is made. *)
Definition no_ioctl (ret : Z) : W -> io * W := fun w => ({| io_ret := ret; io_out := 0; io_errno := 0 |}, w).

Definition ioctl_init (dv flags attr shell shelllen shellfd memlen tessiglen : Z) : W -> io * W :=
  if flags =? FASTRPC_INIT_ATTACH then ioctl dv IOCTL_INIT_ATTACH
  else if flags =? FASTRPC_INIT_ATTACH_SENSORS then ioctl dv IOCTL_INIT_ATTACH_SNS
  else if flags =? FASTRPC_INIT_CREATE_STATIC then ioctl dv (IOCTL_INIT_CREATE_STATIC (u32 shelllen) (u32 memlen) shell)
  else if flags =? FASTRPC_INIT_CREATE then ioctl dv (IOCTL_INIT_CREATE shell (u32 shelllen) shellfd (u32 attr) (u32 tessiglen))
  else no_ioctl AEE_EBADPARM.

Definition ioctl_invoke (dv req handle sc : Z) (pra : list fastrpc_invoke_args) : W -> io * W :=
  if (INVOKE <=? req) && (req <=? INVOKE_FD) then ioctl dv (IOCTL_INVOKE handle sc pra)
  else no_ioctl AEE_EUNSUPPORTED.

Definition ioctl_mmap (dv req flags attr fd offset len vaddrin : Z) : W -> io * W :=
  if req =? MEM_MAP then ioctl dv (IOCTL_MEM_MAP 0 fd offset flags vaddrin len attr)
  else if (req =? MMAP) || (req =? MMAP_64) then ioctl dv (IOCTL_MMAP fd flags vaddrin len)
  else no_ioctl AEE_EBADPARM.

(** The length is an [int] parameter, widened to 64 bits in the request. *)
Definition ioctl_munmap (dv req attr buf fd len vaddr : Z) : W -> io * W :=
  let len := s32 len in
  if (req =? MEM_UNMAP) || (req =? MUNMAP_FD) then ioctl dv (IOCTL_MEM_UNMAP 0 fd vaddr (u64 len))
  else if (req =? MUNMAP) || (req =? MUNMAP_64) then ioctl dv (IOCTL_MUNMAP vaddr (u64 len))
  else no_ioctl AEE_SUCCESS.

Definition ioctl_getdspinfo (dv domain attr : Z) : W -> io * W :=
  if (PERF_V2_DRIVER_SUPPORT <=? attr) && (attr <? FASTRPC_MAX_ATTRIBUTES) then no_ioctl 0
  else ioctl dv (IOCTL_GET_DSP_INFO domain attr).

Definition ioctl_setmode (dv mode : Z) : Z := if mode =? FASTRPC_SESSION_ID1 then AEE_SUCCESS else AEE_EUNSUPPORTED.
End ioctl.

(** ** Kernel errors *)
Definition AEE_EITEMBUSY : Z := 32.
Definition AEE_ENOSUCHDEVICE : Z := 67.
Definition AEE_EBADPERMS : Z := 78.
Definition AEE_ECONNRESET : Z := 104.
Definition AEE_EFILE : Z := 513.
Definition MIN_KERNEL_ERRNO : Z := 0.
Definition MAX_KERNEL_ERRNO : Z := 135.
Definition ENOENT : Z := 2.
Definition EBUSY : Z := 16.
Definition EINVAL : Z := 22.
Definition ENOTTY : Z := 25.

Definition one_of (z : Z) (l : list Z) : bool := existsb (Z.eqb z) l.

(** The switch; [ENOENT] and [EBUSY] fall through to the default. *)
Definition convert_kernel_to_user_error (nErr err_no : Z) : Z :=
  if negb ((nErr =? AEE_EUNKNOWN) && negb (err_no =? 0) && ((MIN_KERNEL_ERRNO <=? err_no) && (err_no <=? MAX_KERNEL_ERRNO)))
  then nErr
  else if one_of err_no [5; 109; 99; 25; 56] then AEE_ERPC
  else if one_of err_no [14; 44; 77; 22; 9; 52; 53; 75; 112; 17; 74] then AEE_EBADPARM
  else if one_of err_no [6; 19; 126] then AEE_ENOSUCHDEVICE
  else if one_of err_no [105; 12] then AEE_ENOMEMORY
  else if one_of err_no [63; 122; 110; 87; 108] then AEE_EEXPIRED
  else if one_of err_no [107; 111] then AEE_ECONNREFUSED
  else if one_of err_no [104; 32] then AEE_ECONNRESET
  else if one_of err_no [93] then AEE_EUNSUPPORTED
  else if one_of err_no [27] then AEE_EFILE
  else if one_of err_no [13; 1] then AEE_EBADPERMS
  else
    (* case ENOENT: *) let nErr := if err_no =? ENOENT then AEE_ENOSUCH else nErr in
    (* case EBUSY: *) let nErr := if one_of err_no [ENOENT; EBUSY] then AEE_EITEMBUSY else nErr in
    (* default: *) AEE_ERPC.

(** No failure becomes a success. *)
Lemma convert_nonzero n e : n <> AEE_SUCCESS -> convert_kernel_to_user_error n e <> AEE_SUCCESS.
Proof.
  intros Hn. unfold convert_kernel_to_user_error. destruct (negb _); [done|].
  repeat (match goal with |- context [one_of e ?l] => destruct (one_of e l) end; [done|]). done.
Qed.

(** Kernel errors: only an ioctl that returned -1 with an [errno] from 1 to 135 is
    translated, every other code passes through unchanged; a translated error is never
    success and never the raw -1, so no failure is lost. [ENOENT] and [EBUSY] are
    reported as the generic [AEE_ERPC]: their cases ([AEE_ENOSUCH], [AEE_EITEMBUSY])
    lack a break and are overwritten by the default. *)
Theorem kernel_errors_converted n e :
  (n <> AEE_EUNKNOWN -> convert_kernel_to_user_error n e = n) /\
  (e < 1 \/ 135 < e -> convert_kernel_to_user_error n e = n) /\
  (1 <= e <= 135 -> 0 < convert_kernel_to_user_error AEE_EUNKNOWN e) /\
  convert_kernel_to_user_error AEE_EUNKNOWN ENOENT = AEE_ERPC /\
  convert_kernel_to_user_error AEE_EUNKNOWN EBUSY = AEE_ERPC.
Proof.
  unfold convert_kernel_to_user_error, MIN_KERNEL_ERRNO, MAX_KERNEL_ERRNO. split_and!.
  - intros Hn. by rewrite (proj2 (Z.eqb_neq _ _) Hn).
  - intros He. destruct (n =? AEE_EUNKNOWN); cbn [andb negb]; [|done].
    repeat case_ltb; try lia; done.
  - intros He. rewrite Z.eqb_refl. repeat case_ltb; try lia. cbn [andb negb].
    repeat (match goal with |- context [one_of e ?l] => destruct (one_of e l) end; [by vm_compute|]). by vm_compute.
  - done.
  - done.
Qed.

(** The hypotheses of each part hold: an unchanged error and a translated one. *)
Lemma kernel_errors_converted_witness :
  convert_kernel_to_user_error 14 5 = 14 /\ 0 < convert_kernel_to_user_error AEE_EUNKNOWN 16.
Proof.
  split; [by apply (proj1 (kernel_errors_converted 14 5))|].
  destruct (kernel_errors_converted 0 16) as (_ & _ & H & _). apply H. lia.
Defined.

(** Lengths of 2 GiB and more do not survive an unmap: the request asks for the
    length that was mapped exactly when it is below 2^31, and for a mapping of 4 GiB it
    asks the kernel to unmap 0 bytes. *)
Theorem munmap_length_truncated {W} (ioctl : Z -> ioctl_req -> W -> io * W) dv fd len vaddr w :
  0 <= len < 2 ^ 64 ->
  exists len', ioctl_munmap ioctl dv MEM_UNMAP 0 0 fd len vaddr w = ioctl dv (IOCTL_MEM_UNMAP 0 fd vaddr len') w /\
  (len < 2 ^ 31 -> len' = len) /\ (2 ^ 31 <= len -> len' <> len \/ 2 ^ 64 - 2 ^ 31 <= len) /\
  (len = 2 ^ 32 -> len' = 0).
Proof.
  change (2 ^ 64) with 18446744073709551616. change (2 ^ 31) with 2147483648. change (2 ^ 32) with 4294967296.
  intros Hl. exists (u64 (s32 len)). split; [done|]. split_and!.
  - intros H. rewrite s32_small by lia. apply u64_small. lia.
  - intros H. pose proof (s32_range len). unfold u64. destruct (Z.lt_ge_cases (s32 len) 0).
    + replace (s32 len) with (s32 len + 18446744073709551616 + (-1) * 18446744073709551616) by lia.
      rewrite Z_mod_plus_full. rewrite Z.mod_small by lia. lia.
    + rewrite Z.mod_small by lia. lia.
  - by intros ->.
Qed.

Lemma munmap_length_truncated_witness :
  exists len', ioctl_munmap (fun _ _ (w : unit) => (Io 0 0 0, w)) 5 MEM_UNMAP 0 0 7 4294967296 4096 tt
    = (Io 0 0 0, tt) /\ len' = 0.
Proof.
  destruct (munmap_length_truncated (fun _ _ (w : unit) => (Io 0 0 0, w)) 5 7 4294967296 4096 tt)
    as (l & H & _ & _ & H'); [by vm_compute|]. exists l. split; [exact H|by apply H'].
Defined.
