(* ===== verification/Mem.v ===== *)
(** Buffer registration and mapping, [src/fastrpc_mem.c]: the list of registered file
    descriptors, the per-domain lists of static maps and of remote maps, and the
    mapping functions of the public interface.

    The session layer is used through the interface [SessionOps]; [ioctl(2)] and the
    anonymous [mmap(2)] are parameters. A list under its mutex is changed in one step. *)
From S2P Require Import Prelude Errors Domain Ioctl Session SessionIface.

(** ** Data *)
Record mem_to_fd := MemToFd {
  tf_buf : Z; tf_size : Z; tf_fd : Z; tf_nova : Z; tf_attr : Z; tf_refcount : Z;
  tf_mapped : gset Z                   (* the domains whose [mapped] flag is set *)
}.

Record fastrpc_mem_map := MemMap {
  mm_fd : Z; mm_offset : Z; mm_flags : Z; mm_attrs : Z; mm_vaddrin : Z; mm_length : Z; mm_vaddrout : Z
}.
Record static_map := StaticMap { sm_map : fastrpc_mem_map; sm_refs : Z }.
Record fastrpc_remote_map := RemoteMap { rm_vadsp : Z; rm_flags : Z }.

(** [errno] is the thread's; [freed_va] the ranges given to [munmap(2)]; [aborted] is
    set when the process raises [SIGABRT]. *)
Record mem (K : Type) := Mem {
  fdlist : list mem_to_fd;
  smaplst : gmap Z (list static_map);
  memlist : gmap Z (list fastrpc_remote_map);
  errno : Z;
  freed_va : list (Z * Z);
  aborted : bool;
  mses : K
}.
Arguments Mem {_}. Arguments fdlist {_}. Arguments smaplst {_}. Arguments memlist {_}.
Arguments errno {_}. Arguments freed_va {_}. Arguments aborted {_}. Arguments mses {_}.

Section update.
Context {K : Type}.
Definition set_fdlist (l : list mem_to_fd) (s : mem K) : mem K :=
  Mem l (smaplst s) (memlist s) (errno s) (freed_va s) (aborted s) (mses s).
Definition smaps (s : mem K) (d : Z) : list static_map := default [] (smaplst s !! d).
Definition set_smaps (d : Z) (l : list static_map) (s : mem K) : mem K :=
  Mem (fdlist s) (<[d := l]> (smaplst s)) (memlist s) (errno s) (freed_va s) (aborted s) (mses s).
Definition rmaps (s : mem K) (d : Z) : list fastrpc_remote_map := default [] (memlist s !! d).
Definition set_rmaps (d : Z) (l : list fastrpc_remote_map) (s : mem K) : mem K :=
  Mem (fdlist s) (smaplst s) (<[d := l]> (memlist s)) (errno s) (freed_va s) (aborted s) (mses s).
Definition set_errno (e : Z) (s : mem K) : mem K :=
  Mem (fdlist s) (smaplst s) (memlist s) e (freed_va s) (aborted s) (mses s).
Definition set_freed (l : list (Z * Z)) (s : mem K) : mem K :=
  Mem (fdlist s) (smaplst s) (memlist s) (errno s) l (aborted s) (mses s).
Definition set_aborted (s : mem K) : mem K :=
  Mem (fdlist s) (smaplst s) (memlist s) (errno s) (freed_va s) true (mses s).
Definition set_mses (k : K) (s : mem K) : mem K :=
  Mem (fdlist s) (smaplst s) (memlist s) (errno s) (freed_va s) (aborted s) k.

#[export] Instance mem_session : HasSession (mem K) K :=
  { ses := mses; set_ses := set_mses; ses_set := fun _ _ => eq_refl }.
End update.

Definition set_refs (r : Z) (m : static_map) : static_map := StaticMap (sm_map m) r.
Definition tf_with (attr refc : Z) (mapped : gset Z) (t : mem_to_fd) : mem_to_fd :=
  MemToFd (tf_buf t) (tf_size t) (tf_fd t) (tf_nova t) attr refc mapped.

(** ** Constants *)
Definition FASTRPC_ATTR_KEEP_MAP : Z := 8.
Definition FASTRPC_ATTR_NOMAP : Z := 16.
Definition FASTRPC_ATTR_TRY_MAP_STATIC : Z := 128.
Definition FASTRPC_MAP_FLAGS_MASK : Z := 65535.
Definition FASTRPC_MAP_STATIC : Z := 0.
Definition FASTRPC_MAP_RESERVED : Z := 1.
Definition FASTRPC_MAP_FD_NOMAP : Z := 16.
Definition FASTRPC_MAP_MAX : Z := FASTRPC_MAP_FD_NOMAP + 1.
Definition REMOTE_MAP_MAX_FLAG : Z := 1.
Definition ADSP_MMAP_REMOTE_HEAP_ADDR : Z := 8.
Definition ADSP_MMAP_ADD_PAGES : Z := 4096.

Definition has_attr (attr bit : Z) : bool := negb (Z.land attr bit =? 0).

(** [STD_BETWEEN], with its conversions to [unsigned long]. *)
Definition STD_BETWEEN (val minGE maxLT : Z) : bool :=
  (u64 minGE <=? u64 val) && (u64 (u64 val - u64 minGE) <? u64 (u64 maxLT - u64 minGE)).

(** The position of the first element that satisfies [p]. *)
Fixpoint find_pos {A} (p : A -> bool) (l : list A) : option nat :=
  match l with
  | [] => None
  | x :: l => if p x then Some O else S <$> find_pos p l
  end.
Definition remove_at {A} (i : nat) (l : list A) : list A := take i l ++ drop (S i) l.


Section mem.
Context {K : Type} `{HO : SessionOps K}.
Variable sys_ioctl : Z -> ioctl_req -> K -> io * K.

(** A wrapper of [Ioctl] run on the session state, with its effect on [errno]. *)
Definition do_ioctl (c : K -> io * K) : M (mem K) io := fun s =>
  let '(r, k) := c (mses s) in
  (Go r, set_mses k (if io_ret r =? 0 then s else set_errno (io_errno r) s)).

Definition do_mmap dv req flags attr fd offset len vaddrin : M (mem K) io :=
  do_ioctl (ioctl_mmap sys_ioctl dv req flags attr fd offset len vaddrin).
Definition do_munmap dv req attr buf fd len vaddr : M (mem K) io :=
  do_ioctl (ioctl_munmap sys_ioctl dv req attr buf fd len vaddr).

Definition get_dev (d : Z) : M (mem K) (Z * Z) := gets (fun s => session_dev d (mses s)).

(** [domain == -1] stands for the thread's current domain. *)
Definition pick_domain (domain : Z) : M (mem K) Z :=
  gets (fun s => if domain =? -1 then current_domain (mses s) else domain).

Definition init : M (mem K) Z := on_ses fastrpc_init_once.

(** *** Remote maps *)

(** Looks a DSP address up and takes its node out of the list. *)
Definition fastrpc_remote_map_lookup (domain vadsp : Z) : M (mem K) (option fastrpc_remote_map) :=
  l ← gets (fun s => rmaps s domain);
  match find_pos (fun m => rm_vadsp m =? vadsp) l with
  | None => mret None
  | Some i => _ ← modify (set_rmaps domain (remove_at i l)); mret (l !! i)
  end.

(** *** Static maps *)
Definition has_fd (fd : Z) (m : static_map) : bool := mm_fd (sm_map m) =? fd.

(** Result: the code and [*vaddrout]. *)
Definition fastrpc_mmap_helper (domain fd vaddr offset length flags attrs : Z) : M (mem K) (Z * Z) :=
  domain ← pick_domain domain;
  if negb (IS_VALID_EFFECTIVE_DOMAIN_ID domain) then (_ ← modify (set_errno 0); mret (AEE_EBADPARM, 0))
  else
    bracket domain (fun e => _ ← modify (set_errno 0); mret (e, 0))
      (with_locals (0, 0) (
        dd ← lift (get_dev domain);
        let '(e, dv) := dd : Z * Z in
        _ ← VERIFY e (e =? AEE_SUCCESS);
        _ ← VERIFYC (negb (dv =? -1)) AEE_ERPC;
        l ← lift (gets (fun s => smaps s domain));
        _ ← VERIFYC (negb (is_found (find_pos (has_fd fd) l))) AEE_EALREADY;
        r ← lift (do_mmap dv MEM_MAP flags attrs fd offset length (u64 vaddr));
        _ ← setl (fun _ => (io_ret r, io_out r));
        if io_ret r =? 0 then
          let map := {| mm_fd := fd; mm_offset := offset; mm_flags := flags; mm_attrs := attrs;
                        mm_vaddrin := u64 vaddr; mm_length := length; mm_vaddrout := io_out r |} in
          l ← lift (gets (fun s => smaps s domain));
          lift (modify (set_smaps domain (l ++ [StaticMap map 1])))
        else
          en ← lift (gets errno);
          if (en =? ENOTTY) || (io_ret r =? s32 (Z.lor DSP_AEE_EOFFSET AEE_EUNSUPPORTED))
          then bail AEE_EUNSUPPORTED else bail AEE_EFAILED))
      (fun r => let '(nErr, (iocErr, vaddrout)) := r : Z * (Z * Z) in
                _ ← (if negb (nErr =? 0) && (iocErr =? 0) then modify (set_errno 0) else mret tt);
                mret (nErr, vaddrout)).

Definition fastrpc_mmap (domain fd vaddr offset length flags : Z) : M (mem K) Z :=
  to_bail (
    _ ← VERIFY_CALL init;
    let attrs := Z.land flags (Z.lnot FASTRPC_MAP_FLAGS_MASK) in
    let flags := Z.land flags FASTRPC_MAP_FLAGS_MASK in
    _ ← VERIFYC ((0 <=? fd) && (offset =? 0) && (attrs =? 0)) AEE_EBADPARM;
    _ ← VERIFYC ((0 <=? flags) && (flags <? FASTRPC_MAP_MAX) && negb (flags =? FASTRPC_MAP_RESERVED)) AEE_EBADPARM;
    r ← fastrpc_mmap_helper domain fd vaddr offset length flags attrs;
    if r.1 =? 0 then mret tt else bail r.1).

(** [raddr] is not NULL. Result: the code and [*raddr]. *)
Definition fastrpc_mmap_internal (domain fd vaddr offset length flags : Z) : M (mem K) (Z * Z) :=
  e ← init;
  if negb (e =? AEE_SUCCESS) then mret (e, 0)
  else
    let attrs := Z.land flags (Z.lnot FASTRPC_MAP_FLAGS_MASK) in
    let flags := Z.land flags FASTRPC_MAP_FLAGS_MASK in
    if negb ((0 <=? fd) && (offset =? 0) && (attrs =? 0)) then mret (AEE_EBADPARM, 0)
    else fastrpc_mmap_helper domain fd vaddr offset length flags attrs.

(** The common body of the two unmap functions, from the device on: the node is the
    first that [p] accepts; its count is 0 while the kernel call is made. *)
Definition unmap_node (domain : Z) (p : static_map -> bool) : M (mem K * Z) unit :=
  dd ← lift (get_dev domain);
  let '(e, dv) := dd : Z * Z in
  _ ← VERIFY e (e =? AEE_SUCCESS);
  l ← lift (gets (fun s => smaps s domain));
  match find_pos p l with
  | None => bail AEE_ENOSUCHMAP
  | Some i =>
    let m := nth i l (StaticMap (MemMap 0 0 0 0 0 0 0) 0) in
    _ ← VERIFYC (negb (1 <? sm_refs m)) AEE_EBADPARM;
    _ ← lift (modify (set_smaps domain (alter (set_refs 0) i l)));
    r ← lift (do_munmap dv MEM_UNMAP 0 0 (mm_fd (sm_map m)) (mm_length (sm_map m)) (mm_vaddrout (sm_map m)));
    _ ← setl (fun _ => io_ret r);
    l ← lift (gets (fun s => smaps s domain));
    en ← lift (gets errno);
    if io_ret r =? 0 then lift (modify (set_smaps domain (remove_at i l)))
    else if (en =? ENOTTY) || (en =? EINVAL) then bail AEE_EUNSUPPORTED
    else (_ ← lift (modify (set_smaps domain (alter (set_refs 1) i l))); bail AEE_EFAILED)
  end.

Definition unmap_with (domain : Z) (p : static_map -> bool) : M (mem K) Z :=
  bracket domain (fun e => _ ← modify (set_errno 0); mret e)
    (with_locals 0 (unmap_node domain p))
    (fun r => let '(nErr, iocErr) := r : Z * Z in
              _ ← (if negb (nErr =? 0) && (iocErr =? 0) then modify (set_errno 0) else mret tt);
              mret nErr).

Definition fastrpc_munmap (domain fd vaddr length : Z) : M (mem K) Z :=
  e ← init;
  if negb (e =? AEE_SUCCESS) then (_ ← modify (set_errno 0); mret e)
  else
    domain ← pick_domain domain;
    if negb ((0 <=? fd) && IS_VALID_EFFECTIVE_DOMAIN_ID domain) then (_ ← modify (set_errno 0); mret AEE_EBADPARM)
    else unmap_with domain (has_fd fd).

Definition fastrpc_munmap_internal (domain raddr length : Z) : M (mem K) Z :=
  e ← init;
  if negb (e =? AEE_SUCCESS) then (_ ← modify (set_errno 0); mret e)
  else
    domain ← pick_domain domain;
    if negb (IS_VALID_EFFECTIVE_DOMAIN_ID domain) then (_ ← modify (set_errno 0); mret AEE_EBADPARM)
    else unmap_with domain (fun m => mm_vaddrout (sm_map m) =? raddr).

(** *** The public mapping functions *)

(** At [bail:]: a failure is translated with the current [errno]. *)
Definition to_user (nErr : Z) : M (mem K) Z :=
  en ← gets errno;
  mret (if nErr =? AEE_SUCCESS then nErr else convert_kernel_to_user_error nErr en).

(** [raddr]: whether the pointer is not NULL. Result: the code and [*raddr] when written. *)
Definition remote_mem_map (domain fd flags vaddr size : Z) (raddr : bool) : M (mem K) (Z * option Z) :=
  r ← with_locals None (
    _ ← VERIFY_CALL (lift init);
    _ ← VERIFYC (0 <=? fd) AEE_EBADPARM;
    _ ← VERIFYC ((0 <=? flags) && (flags <? REMOTE_MAP_MAX_FLAG) && raddr) AEE_EBADPARM;
    domain ← lift (pick_domain domain);
    _ ← VERIFYC (IS_VALID_EFFECTIVE_DOMAIN_ID domain) AEE_EBADPARM;
    VERIFY_CALL (with_ref domain (
      dd ← lift (get_dev domain);
      let '(e, dv) := dd : Z * Z in
      _ ← VERIFY e (e =? AEE_SUCCESS);
      r ← lift (do_mmap dv MMAP_64 flags 0 fd 0 size vaddr);
      _ ← setl (fun _ => Some (io_out r));
      if io_ret r =? 0 then mret tt else bail (io_ret r))));
  let '(nErr, out) := r : Z * option Z in
  e ← to_user nErr; mret (e, out).

Definition remote_mem_unmap (domain raddr size : Z) : M (mem K) Z :=
  nErr ← to_bail (
    _ ← VERIFY_CALL init;
    _ ← VERIFYC (negb (raddr =? 0)) AEE_EBADPARM;
    domain ← pick_domain domain;
    _ ← VERIFYC (IS_VALID_EFFECTIVE_DOMAIN_ID domain) AEE_EBADPARM;
    VERIFY_CALL (with_ref domain (
      dd ← get_dev domain;
      let '(e, dv) := dd : Z * Z in
      _ ← VERIFY e (e =? AEE_SUCCESS);
      r ← do_munmap dv MUNMAP_64 0 0 (-1) size raddr;
      if io_ret r =? 0 then mret tt else bail (io_ret r))));
  to_user nErr.

(** The result of the [ADD_PAGES]/[REMOTE_HEAP] ioctl is not checked before the map
    is recorded. *)
Definition is_heap_flag (flags : Z) : bool := (flags =? ADSP_MMAP_ADD_PAGES) || (flags =? ADSP_MMAP_REMOTE_HEAP_ADDR).

Definition remote_mmap64_internal (fd flags vaddrin size : Z) : M (mem K) (Z * option Z) :=
  r ← with_locals None (
    _ ← VERIFY_CALL (lift init);
    domain ← lift (gets (fun s => current_domain (mses s)));
    _ ← VERIFYC (IS_VALID_EFFECTIVE_DOMAIN_ID domain) AEE_EBADDOMAIN;
    VERIFY_CALL (with_ref domain (
      dd ← lift (get_dev domain);
      let '(e, dv) := dd : Z * Z in
      _ ← VERIFY e (e =? AEE_SUCCESS);
      _ ← VERIFYC (negb (dv =? -1)) AEE_ERPC;
      r ← (if is_heap_flag flags
           then (r ← lift (do_mmap dv MMAP_64 flags 0 fd 0 (u64 size) vaddrin); mret (io_ret r, io_out r))
           else (r ← lift (fastrpc_mmap_internal domain fd vaddrin 0 (u64 size) flags);
                 _ ← VERIFY r.1 (r.1 =? AEE_SUCCESS); mret r));
      let '(nErr, vaout) := r : Z * Z in
      _ ← setl (fun _ => Some vaout);
      _ ← lift (modify (fun s => set_rmaps domain (rmaps s domain ++ [RemoteMap vaout flags]) s));
      if nErr =? 0 then mret tt else bail nErr)));
  let '(nErr, out) := r : Z * option Z in
  e ← to_user nErr; mret (e, out).

(** [vaddrout]: whether the pointer is not NULL. *)
Definition remote_mmap64 (fd flags vaddrin size : Z) (vaddrout : bool) : M (mem K) (Z * option Z) :=
  e ← init;
  if negb (e =? AEE_SUCCESS) then mret (e, None)
  else if negb (flags =? 0) then mret (AEE_EBADPARM, None)
  else if negb ((0 <=? size) && (0 <=? fd) && vaddrout) then mret (AEE_EBADPARM, None)
  else
    r ← remote_mmap64_internal fd flags vaddrin size;
    let '(nErr, out) := r : Z * option Z in
    mret (if nErr =? AEE_EBADDOMAIN then AEE_ERPC else nErr, out).

(** The 32-bit variant keeps the low word of the address. *)
Definition remote_mmap (fd flags vaddrin size : Z) (vaddrout : bool) : M (mem K) (Z * option Z) :=
  if negb vaddrout then mret (AEE_EBADPARM, None)
  else
    r ← remote_mmap64 fd flags vaddrin size true;
    let '(nErr, out) := r : Z * option Z in
    mret (nErr, Some (u32 (default 0 out))).

Definition remote_munmap64 (vaddrout size : Z) : M (mem K) Z :=
  nErr ← to_bail (
    _ ← VERIFY_CALL init;
    domain ← gets (fun s => current_domain (mses s));
    _ ← VERIFYC (IS_VALID_EFFECTIVE_DOMAIN_ID domain) AEE_ERPC;
    VERIFY_CALL (with_ref domain (
      dd ← get_dev domain;
      let '(e, dv) := dd : Z * Z in
      _ ← VERIFY e (e =? AEE_SUCCESS);
      node ← fastrpc_remote_map_lookup domain vaddrout;
      match node with
      | Some m =>
        nErr ← (if is_heap_flag (rm_flags m)
                then (r ← do_munmap dv MUNMAP_64 0 0 (-1) size vaddrout; mret (io_ret r))
                else fastrpc_munmap_internal domain vaddrout size);
        if nErr =? AEE_SUCCESS then mret tt
        else (_ ← modify (fun s => set_rmaps domain (rmaps s domain ++ [m]) s); bail nErr)
      | None =>
        r ← do_munmap dv MUNMAP_64 0 0 (-1) size vaddrout;
        if io_ret r =? 0 then mret tt else bail (io_ret r)
      end)));
  to_user nErr.

Definition remote_munmap (vaddrout size : Z) : M (mem K) Z := remote_munmap64 vaddrout size.

(** *** Registered buffers *)

(** One pass of the loop of [fastrpc_unmap_fd]: both checks continue on success. *)
Definition unmap_fd_domain (attr buf size fd ii : Z) : M (mem K) unit :=
  e ← on_ses (session_get ii);
  if e =? 0 then mret tt
  else
    dd ← get_dev ii;
    let '(e, dv) := dd : Z * Z in
    if e =? 0 then (_ ← on_ses (session_put ii); mret tt)
    else
      _ ← do_munmap dv MUNMAP_FD attr buf fd size 0;
      _ ← on_ses (session_put ii); mret tt.

Definition for_each_domain (f : Z -> M (mem K) unit) : M (mem K) unit :=
  foldr (fun d k => _ ← f d; k) (mret tt) EFFECTIVE_DOMAIN_IDS.

Definition fastrpc_unmap_fd (buf size fd attr : Z) : M (mem K) unit :=
  for_each_domain (unmap_fd_domain attr buf size fd).

(** The loops over all domains collect the [mapped] flags of the buffer. *)
Definition try_map_buffer (t : mem_to_fd) : M (mem K) mem_to_fd :=
  r ← foldr (fun d k (acc : gset Z) =>
        e ← fastrpc_mmap d (tf_fd t) (tf_buf t) 0 (tf_size t) FASTRPC_MAP_STATIC;
        k (if e =? 0 then {[ d ]} ∪ acc else acc))
      (fun acc => mret acc) EFFECTIVE_DOMAIN_IDS (tf_mapped t);
  mret (tf_with (tf_attr t) (tf_refcount t) r t).

Definition try_unmap_buffer (t : mem_to_fd) : M (mem K) Z :=
  foldr (fun d k (errcnt : Z) =>
        if decide (d ∈ tf_mapped t)
        then (e ← fastrpc_munmap d (tf_fd t) (tf_buf t) (tf_size t);
              k (if e =? 0 then errcnt else errcnt + 1))
        else k errcnt)
      (fun errcnt => mret errcnt) EFFECTIVE_DOMAIN_IDS 0.

(** [mmap_ret]: the anonymous mapping, -1 when it fails. Result: the address or NULL (0). *)
Definition remote_register_fd_attr (mmap_ret fd size attr : Z) : M (mem K) Z :=
  e ← to_bail (
    _ ← VERIFY_CALL init;
    _ ← VERIFYC (0 <=? fd) AEE_EBADPARM;
    VERIFYC (negb (mmap_ret =? -1)) AEE_ERPC);
  if e =? 0
  then (_ ← modify (fun s => set_fdlist (fdlist s ++ [MemToFd mmap_ret size fd 1 attr 0 ∅]) s); mret mmap_ret)
  else mret 0.
Definition remote_register_fd (mmap_ret fd size : Z) : M (mem K) Z :=
  if size <? 0 then mret 0 else remote_register_fd_attr mmap_ret fd size 0.
Definition remote_register_fd2 (mmap_ret fd size : Z) : M (mem K) Z := remote_register_fd_attr mmap_ret fd size 0.

(** Registering: another reference, or a new node at the end of the list. *)
Definition register_buf (buf size fd attr : Z) : M (mem K) unit :=
  l ← gets fdlist;
  match find_pos (fun t => (tf_buf t =? buf) && (tf_size t =? size) && (tf_fd t =? fd)) l with
  | Some i =>
    modify (set_fdlist (alter (fun t => tf_with (if attr =? 0 then tf_attr t else attr) (s32 (tf_refcount t + 1)) (tf_mapped t) t) i l))
  | None =>
    let t := MemToFd buf size fd 0 attr 1 ∅ in
    t ← (if has_attr (tf_attr t) FASTRPC_ATTR_TRY_MAP_STATIC then try_map_buffer t else mret t);
    modify (fun s => set_fdlist (fdlist s ++ [t]) s)
  end.

(** Deregistering ([fd == -1]): the first node of that address and size loses a
    reference, and is torn down with the last. When nothing is torn down and a node of
    that address with another size was passed, the process aborts. *)
Definition release_buf (t : mem_to_fd) : M (mem K) unit :=
  _ ← (if has_attr (tf_attr t) FASTRPC_ATTR_KEEP_MAP
       then fastrpc_unmap_fd (tf_buf t) (tf_size t) (tf_fd t) (tf_attr t) else mret tt);
  _ ← (if has_attr (tf_attr t) FASTRPC_ATTR_TRY_MAP_STATIC then (_ ← try_unmap_buffer t; mret tt) else mret tt);
  if tf_nova t =? 0 then mret tt else modify (fun s => set_freed ((tf_buf t, tf_size t) :: freed_va s) s).

Definition deregister_buf (buf size : Z) : M (mem K) unit :=
  l ← gets fdlist;
  match find_pos (fun t => (tf_buf t =? buf) && (tf_size t =? size)) l with
  | Some i =>
    let l' := alter (fun t => tf_with (tf_attr t) (s32 (tf_refcount t - 1)) (tf_mapped t) t) i l in
    match l' !! i with
    | Some t =>
      if tf_refcount t <=? 0
      then (_ ← modify (set_fdlist (remove_at i l')); release_buf t)
      else (_ ← modify (set_fdlist l');
            if existsb (fun t => tf_buf t =? buf) (take i l) then modify set_aborted else mret tt)
    | None => mret tt
    end
  | None => if existsb (fun t => tf_buf t =? buf) l then modify set_aborted else mret tt
  end.

Definition remote_register_buf_common (buf size fd attr : Z) : M (mem K) Z :=
  to_bail (
    _ ← VERIFY_CALL init;
    _ ← VERIFYC (negb (buf =? 0)) AEE_EBADPARM;
    _ ← VERIFYC (negb (size =? 0)) AEE_EBADPARM;
    if fd =? -1 then deregister_buf buf size else register_buf buf size fd attr).

Definition remote_register_buf (buf size fd : Z) := remote_register_buf_common buf (u64 size) fd 0.
Definition remote_register_buf_attr (buf size fd attr : Z) := remote_register_buf_common buf (u64 size) fd attr.
Definition remote_register_buf_attr2 (buf size fd attr : Z) := remote_register_buf_common buf size fd attr.

(** The registered buffer that contains [buf, buf + bufLen). Result: the code, and on
    success [(fd, nova, base, attr)], with fd -1 when no buffer contains [buf]. *)
Fixpoint fd_from_buf (buf bufLen : Z) (l : list mem_to_fd) : Z * option (Z * Z * Z * Z) :=
  match l with
  | [] => (0, Some (-1, 0, 0, 0))
  | t :: l =>
    let top := u64 (tf_buf t + tf_size t) in
    if STD_BETWEEN buf (tf_buf t) top then
      if STD_BETWEEN (u64 (buf + bufLen - 1)) (tf_buf t) top
      then (if tf_fd t =? -1 then fd_from_buf buf bufLen l else (0, Some (tf_fd t, tf_nova t, tf_buf t, tf_attr t)))
      else (AEE_EBADPARM, None)
    else fd_from_buf buf bufLen l
  end.
Definition fdlist_fd_from_buf (buf bufLen : Z) (s : mem K) := fd_from_buf buf bufLen (fdlist s).

(** *** Sessions that open and close *)
Fixpoint mem_open_loop (domain : Z) (todo done : list mem_to_fd) : M (mem K) (list mem_to_fd) :=
  match todo with
  | [] => mret done
  | t :: todo =>
    if has_attr (tf_attr t) FASTRPC_ATTR_TRY_MAP_STATIC && negb (bool_decide (domain ∈ tf_mapped t))
    then (e ← fastrpc_mmap domain (tf_fd t) (tf_buf t) 0 (tf_size t) FASTRPC_MAP_STATIC;
          let t := if e =? 0 then tf_with (tf_attr t) (tf_refcount t) ({[ domain ]} ∪ tf_mapped t) t else t in
          mem_open_loop domain todo (done ++ [t]))
    else mem_open_loop domain todo (done ++ [t])
  end.
Definition fastrpc_mem_open (domain : Z) : M (mem K) Z :=
  if IS_VALID_EFFECTIVE_DOMAIN_ID domain
  then (l ← gets fdlist; l ← mem_open_loop domain l []; _ ← modify (set_fdlist l); mret 0)
  else mret AEE_EBADPARM.

Definition fastrpc_mem_close (domain : Z) : M (mem K) Z :=
  if IS_VALID_EFFECTIVE_DOMAIN_ID domain then
    _ ← modify (set_smaps domain []);
    _ ← modify (fun s => set_fdlist ((fun t => tf_with (tf_attr t) (tf_refcount t) (tf_mapped t ∖ {[ domain ]}) t) <$> fdlist s) s);
    mret 0
  else mret AEE_EBADPARM.

(** Code, [*va] and [*size] when written. *)
Definition fastrpc_buffer_ref (domain fd rf : Z) : M (mem K) (Z * option (Z * Z)) :=
  if negb (IS_VALID_EFFECTIVE_DOMAIN_ID domain) then mret (AEE_EBADPARM, None)
  else
    l ← gets (fun s => smaps s domain);
    match find_pos (has_fd fd) l with
    | None => mret (AEE_ENOSUCHMAP, None)
    | Some i =>
      let m := nth i l (StaticMap (MemMap 0 0 0 0 0 0 0) 0) in
      if negb (0 <? sm_refs m) then mret (AEE_ERPC, None)
      else
        let out := Some (mm_vaddrin (sm_map m), mm_length (sm_map m)) in
        if rf =? 1 then (_ ← modify (set_smaps domain (alter (set_refs (s32 (sm_refs m + 1))) i l)); mret (0, out))
        else if rf =? -1 then
          if sm_refs m =? 1 then mret (AEE_EBADPARM, out)
          else (_ ← modify (set_smaps domain (alter (set_refs (sm_refs m - 1)) i l)); mret (0, out))
        else if rf =? 0 then mret (0, out) else mret (AEE_ERPC, out)
    end.

(** ** Session references

    The kernel does not touch the session references. *)
Context `{HL : !SessionLaws K}.
Hypothesis ioctl_sref : forall dv r k, sess_ok k ->
  sess_ok (sys_ioctl dv r k).2 /\ forall x, sref (sys_ioctl dv r k).2 x = sref k x.

Lemma balanced_do_ioctl n c :
  (forall k, sess_ok k -> sess_ok (c k).2 /\ forall x, sref (c k).2 x = sref k x) -> balanced n (do_ioctl c).
Proof.
  intros Hc s Ho Hs. unfold do_ioctl. change (ses s) with (mses s) in *. specialize (Hc (mses s) Ho).
  destruct (c (mses s)) as [r k]. cbn in *. by destruct (io_ret r =? 0).
Qed.

Lemma balanced_do_mmap n dv req flags attr fd offset len va : balanced n (do_mmap dv req flags attr fd offset len va).
Proof.
  apply balanced_do_ioctl. intros k Hk. unfold ioctl_mmap.
  destruct (_ =? MEM_MAP); [by apply ioctl_sref|]. destruct (_ || _); [by apply ioctl_sref|done].
Qed.
Lemma balanced_do_munmap n dv req attr buf fd len va : balanced n (do_munmap dv req attr buf fd len va).
Proof.
  apply balanced_do_ioctl. intros k Hk. unfold ioctl_munmap.
  destruct (_ || _); [by apply ioctl_sref|]. destruct (_ || _); [by apply ioctl_sref|done].
Qed.

Lemma balanced_pick n d : balanced n (pick_domain d).
Proof. apply balanced_gets. Qed.
Lemma balanced_get_dev n d : balanced n (get_dev d).
Proof. apply balanced_gets. Qed.

Hint Resolve balanced_do_mmap balanced_do_munmap balanced_pick balanced_get_dev balanced_init : balanced.

Lemma balanced_mmap_helper domain fd va offset length flags attrs :
  balanced 1 (fastrpc_mmap_helper domain fd va offset length flags attrs).
Proof. unfold fastrpc_mmap_helper. bal. apply (balanced_bracket_locals 0); [lia|bal..]. Qed.

Lemma balanced_unmap_with domain p : balanced 1 (unmap_with domain p).
Proof. unfold unmap_with, unmap_node. apply (balanced_bracket_locals 0); [lia|bal..]. Qed.
Hint Resolve balanced_mmap_helper balanced_unmap_with : balanced.

Lemma balanced_mmap domain fd va offset length flags : balanced 1 (fastrpc_mmap domain fd va offset length flags).
Proof. unfold fastrpc_mmap. bal. Qed.
Lemma balanced_mmap_internal domain fd va offset length flags :
  balanced 1 (fastrpc_mmap_internal domain fd va offset length flags).
Proof. unfold fastrpc_mmap_internal. bal. Qed.
Lemma balanced_munmap domain fd va length : balanced 1 (fastrpc_munmap domain fd va length).
Proof. unfold fastrpc_munmap. bal. Qed.
Lemma balanced_munmap_internal domain raddr length : balanced 1 (fastrpc_munmap_internal domain raddr length).
Proof. unfold fastrpc_munmap_internal. bal. Qed.
Lemma balanced_to_user n e : balanced n (to_user e).
Proof. unfold to_user. bal. Qed.
Lemma balanced_lookup n d va : balanced n (fastrpc_remote_map_lookup d va).
Proof. unfold fastrpc_remote_map_lookup. bal. Qed.
Hint Resolve balanced_mmap_internal balanced_munmap_internal balanced_to_user balanced_lookup : balanced.

Lemma balanced_remote_mem_map domain fd flags va size raddr : balanced 1 (remote_mem_map domain fd flags va size raddr).
Proof. unfold remote_mem_map. bal. apply balanced_ref_0. bal. Qed.
Lemma balanced_remote_mem_unmap domain raddr size : balanced 1 (remote_mem_unmap domain raddr size).
Proof. unfold remote_mem_unmap. bal. apply balanced_ref_0. bal. Qed.
Lemma balanced_mmap64_internal fd flags va size : balanced 2 (remote_mmap64_internal fd flags va size).
Proof. unfold remote_mmap64_internal. bal. apply balanced_ref_1. bal. Qed.
Lemma balanced_munmap64 va size : balanced 2 (remote_munmap64 va size).
Proof. unfold remote_munmap64. bal. apply balanced_ref_1. bal. Qed.
Hint Resolve balanced_mmap64_internal : balanced.

(** C33: Every public mapping function gives back the session references it takes: on
    every path, success or failure, with any kernel that leaves the session table
    alone, the reference count of every domain is the same after the call as before
    (the nested calls hold at most two at once). *)
Theorem map_functions_balanced s domain fd va offset length flags raddr size r :
  sess_ok (mses s) -> (forall x, sref (mses s) x < REF_MAX - 2) ->
  forall x,
  let same {A} (m : M (mem K) A) := sref (mses (m s).2) x = sref (mses s) x in
  same (fastrpc_mmap domain fd va offset length flags) /\
  same (fastrpc_munmap domain fd va length) /\
  same (remote_mem_map domain fd flags va size r) /\
  same (remote_mem_unmap domain raddr size) /\
  same (remote_mmap64 fd flags va size r) /\
  same (remote_munmap64 raddr size).
Proof.
  intros Ho Hs x same.
  assert (Hb : forall A (m : M (mem K) A), balanced 2 m -> same A m) by (intros A m Hm; by apply Hm).
  split_and!; apply Hb.
  - apply balanced_1_2, balanced_mmap.
  - apply balanced_1_2, balanced_munmap.
  - apply balanced_1_2, balanced_remote_mem_map.
  - apply balanced_1_2, balanced_remote_mem_unmap.
  - unfold remote_mmap64. bal.
  - apply balanced_munmap64.
Qed.

(** ** Static maps *)
Lemma wp_on_ses {S' A} `{HasSession S' K} (m : M K A) (Q : A -> S' -> Prop) R s :
  (forall a k, Q a (set_ses k s)) -> (forall e k, R e (set_ses k s)) -> wp (on_ses m) Q R s.
Proof. intros HQ HR. unfold wp, on_ses. destruct (m (ses s)) as [[a|e] k]; [apply HQ|apply HR]. Qed.

Lemma wp_do_ioctl c (Q : io -> mem K -> Prop) R s :
  (forall e, Q (c (mses s)).1 (set_mses (c (mses s)).2 (set_errno e s))) -> wp (do_ioctl c) Q R s.
Proof.
  intros HQ. unfold wp, do_ioctl. destruct (c (mses s)) as [r k]. cbn in HQ.
  destruct (io_ret r =? 0); [|apply HQ]. specialize (HQ (errno s)). by destruct s.
Qed.

Definition fds (s : mem K) (d : Z) : list Z := (fun m => mm_fd (sm_map m)) <$> smaps s d.
Definition fd_unique (s : mem K) : Prop := forall d, NoDup (fds s d).

Lemma smaps_set d l (s : mem K) x : smaps (set_smaps d l s) x = if decide (x = d) then l else smaps s x.
Proof.
  unfold smaps, set_smaps. cbn. destruct (decide (x = d)) as [->|]; [by rewrite lookup_insert_eq|by rewrite lookup_insert_ne].
Qed.

Lemma find_pos_Some {A} (p : A -> bool) l i : find_pos p l = Some i -> exists x, l !! i = Some x /\ p x = true.
Proof.
  revert i; induction l as [|y l IH]; intros i; cbn; [done|]. destruct (p y) eqn:E.
  - intros [= <-]. by exists y.
  - destruct (find_pos p l) as [j|]; [|done]. intros [= <-]. by apply IH.
Qed.
Lemma find_pos_None {A} (p : A -> bool) l : find_pos p l = None -> Forall (fun x => p x = false) l.
Proof.
  induction l as [|y l IH]; cbn; [constructor|]. destruct (p y) eqn:E; [done|].
  destruct (find_pos p l); [done|]. intros _. constructor; auto.
Qed.
Lemma find_pos_app_None {A} (p : A -> bool) l l' :
  find_pos p l = None -> find_pos p (l ++ l') = (fun i => (length l + i)%nat) <$> find_pos p l'.
Proof.
  induction l as [|y l IH]; cbn; [by destruct (find_pos p l')|]. destruct (p y); [done|].
  destruct (find_pos p l); [done|]. intros _. rewrite IH by done. by destruct (find_pos p l').
Qed.

Lemma fmap_alter_refs (l : list static_map) (i : nat) r :
  (fun m => mm_fd (sm_map m)) <$> alter (set_refs r) i l = (fun m => mm_fd (sm_map m)) <$> l.
Proof.
  revert i; induction l as [|m l IH]; intros [|i]; [done..|]. cbn. f_equal. apply IH.
Qed.

Lemma NoDup_remove_at {A} (l : list A) i : NoDup l -> NoDup (remove_at i l).
Proof.
  intros H. eapply sublist_NoDup; [exact H|]. clear H. unfold remove_at.
  revert i; induction l as [|x l IH]; intros [|i]; cbn; [done|done|by apply sublist_cons|].
  apply sublist_skip, IH.
Qed.
Lemma fmap_remove_at {A B} (f : A -> B) l i : f <$> remove_at i l = remove_at i (f <$> l).
Proof. unfold remove_at. by rewrite fmap_app, fmap_take, fmap_drop. Qed.

Lemma fd_unique_set d l s :
  fd_unique s -> NoDup ((fun m => mm_fd (sm_map m)) <$> l) -> fd_unique (set_smaps d l s).
Proof. intros Hu Hl x. unfold fds. rewrite smaps_set. destruct (decide (x = d)); [done|apply Hu]. Qed.

Lemma wp_bracket_inv {A B} (I : mem K -> Prop) d (fail : Z -> M (mem K) B) (body : M (mem K) A) post s :
  (forall k s', I s' -> I (set_mses k s')) -> I s ->
  (forall e s', I s' -> wp (fail e) (fun _ => I) (fun _ => I) s') ->
  (forall s', I s' -> wp body (fun _ => I) (fun _ => I) s') ->
  (forall a s', I s' -> wp (post a) (fun _ => I) (fun _ => I) s') ->
  wp (bracket d fail body post) (fun _ => I) (fun _ => I) s.
Proof.
  intros Hk Hs Hf Hb Hp. unfold bracket. wp_step. apply wp_on_ses; intros e k; [|by apply Hk].
  wp_step; [apply Hf; by apply Hk|]. wp_step. eapply wp_mono; [apply Hb; by apply Hk| |done].
  intros a s' Hs'. wp_step. apply wp_on_ses; intros; [|by apply Hk]. apply Hp. by apply Hk.
Qed.

Lemma mmap_helper_unique domain fd va offset length flags attrs s :
  fd_unique s -> fd_unique (fastrpc_mmap_helper domain fd va offset length flags attrs s).2.
Proof.
  intros Hu. apply (wp_run_state _ fd_unique). unfold fastrpc_mmap_helper, pick_domain. do 2 wp_step. wp_step.
  { do 2 wp_step. by wp_step. }
  apply wp_bracket_inv; try done.
  2: { intros [n [i v]] s' Hs'. wp_step. by wp_step; repeat wp_step. }
  set (d := if domain =? -1 then _ else _). clearbody d.
  intros s' Hs'. wp_step. unfold get_dev. do 3 wp_step. destruct (session_dev d (mses s')) as [e dv].
  wp_step. wp_step; [|done]. wp_step. wp_step; [|done]. do 3 wp_step. wp_step. wp_step; [|done].
  wp_step. wp_step. unfold do_mmap. apply wp_do_ioctl. intros en. do 2 wp_step. wp_step.
  - do 3 wp_step. wp_step. wp_step. cbn [fst]. apply fd_unique_set; [done|].
    rewrite fmap_app. apply NoDup_app. split_and!; [apply Hs'| |apply NoDup_singleton].
    cbn [fmap list_fmap sm_map mm_fd]. intros x Hx ->%list_elem_of_singleton.
    apply negb_true_iff in H2. destruct (find_pos (has_fd fd) (smaps s' d)) as [j|] eqn:E; [done|].
    apply find_pos_None in E. apply list_elem_of_fmap in Hx as (m & -> & Hm).
    rewrite Forall_forall in E. specialize (E m Hm). unfold has_fd in E. by rewrite Z.eqb_refl in E.
  - do 3 wp_step. by wp_step; wp_step.
Qed.

Lemma unmap_with_unique domain p s : fd_unique s -> fd_unique (unmap_with domain p s).2.
Proof.
  intros Hu. apply (wp_run_state _ fd_unique). unfold unmap_with. apply wp_bracket_inv; try done.
  2: { intros [n i] s' Hs'. wp_step. by wp_step; repeat wp_step. }
  intros s' Hs'. wp_step. unfold unmap_node, get_dev. do 3 wp_step. destruct (session_dev domain (mses s')) as [e dv].
  wp_step. wp_step; [|done]. do 3 wp_step. destruct (find_pos p _) as [i|]; [|by wp_step].
  wp_step. wp_step; [|done]. wp_step. wp_step. wp_step. wp_step. wp_step. unfold do_munmap.
  apply wp_do_ioctl. intros en. do 2 wp_step. do 3 wp_step. do 3 wp_step.
  match goal with |- context [smaps (set_mses ?k ?s0) domain] =>
    replace (smaps (set_mses k s0) domain) with (alter (set_refs 0) i (smaps s' domain))
  end.
  2: { change (alter (set_refs 0) i (smaps s' domain) = smaps (set_smaps domain (alter (set_refs 0) i (smaps s' domain)) s') domain).
       by rewrite smaps_set, decide_True. }
  match goal with |- context [set_mses ?k ?s0] => set (s1 := set_mses k s0) end.
  assert (H1 : fd_unique s1).
  { change (fd_unique (set_smaps domain (alter (set_refs 0) i (smaps s' domain)) s')).
    apply fd_unique_set; [done|]. rewrite fmap_alter_refs. apply Hs'. }
  clearbody s1. wp_step; [wp_step; wp_step|wp_step; [by wp_step|wp_step; wp_step; wp_step; wp_step]]; cbn [fst].
  - apply fd_unique_set; [done|]. rewrite fmap_remove_at, fmap_alter_refs. apply NoDup_remove_at, Hs'.
  - apply fd_unique_set; [done|]. rewrite !fmap_alter_refs. apply Hs'.
Qed.

Lemma preserves_on_ses {A} (I : mem K -> Prop) (m : M K A) :
  (forall k s, I s -> I (set_mses k s)) -> preserves I (on_ses m).
Proof. intros HI s Hs. unfold on_ses. destruct (m (ses s)) as [r k]. by apply HI. Qed.
Lemma preserves_init : preserves fd_unique init.
Proof. by apply preserves_on_ses. Qed.
Lemma preserves_helper domain fd va offset length flags attrs :
  preserves fd_unique (fastrpc_mmap_helper domain fd va offset length flags attrs).
Proof. intros s. apply mmap_helper_unique. Qed.
Lemma preserves_unmap_with domain p : preserves fd_unique (unmap_with domain p).
Proof. intros s. apply unmap_with_unique. Qed.
Lemma preserves_errno e : preserves fd_unique (modify (set_errno e)).
Proof. by apply preserves_modify. Qed.
Hint Resolve preserves_init preserves_helper preserves_unmap_with preserves_errno : bail.

Lemma fd_unique_buffer_ref domain fd rf s : fd_unique s -> fd_unique (fastrpc_buffer_ref domain fd rf s).2.
Proof.
  intros Hu. unfold fastrpc_buffer_ref. munfold. destruct (negb _); [done|].
  destruct (find_pos _ _) as [i|]; [|done]. destruct (negb _); [done|].
  assert (Ha : forall r, fd_unique (set_smaps domain (alter (set_refs r) i (smaps s domain)) s)).
  { intros r. apply fd_unique_set; [done|]. rewrite fmap_alter_refs. apply Hu. }
  destruct (rf =? 1); [apply Ha|]. destruct (rf =? -1); [|by destruct (rf =? 0)].
  destruct (_ =? 1); [done|apply Ha].
Qed.

(** C34: A file descriptor has at most one static map per domain, always: mapping
    (public or internal), both unmaps, reference changes and session close keep the
    descriptors of every domain's list distinct, whatever the session layer and the
    kernel answer. *)
Theorem static_maps_unique s domain fd va offset length flags raddr rf :
  fd_unique s ->
  fd_unique (fastrpc_mmap domain fd va offset length flags s).2 /\
  fd_unique (fastrpc_mmap_internal domain fd va offset length flags s).2 /\
  fd_unique (fastrpc_munmap domain fd va length s).2 /\
  fd_unique (fastrpc_munmap_internal domain raddr length s).2 /\
  fd_unique (fastrpc_buffer_ref domain fd rf s).2 /\
  fd_unique (fastrpc_mem_close domain s).2.
Proof.
  intros Hu. split_and!; [..|by apply fd_unique_buffer_ref|].
  - revert s Hu. unfold fastrpc_mmap. change (preserves fd_unique (fastrpc_mmap domain fd va offset length flags)).
    unfold fastrpc_mmap. eauto 20 with bail.
  - unfold fastrpc_mmap_internal. munfold. pose proof (preserves_init s Hu) as Hi.
    destruct (init s) as [[e|e] s1]; [|done]. cbn in Hi. destruct (negb _); [done|]. destruct (negb _); [done|].
    by apply preserves_helper.
  - assert (H : preserves fd_unique (fastrpc_munmap domain fd va length)); [|by apply H].
    unfold fastrpc_munmap, pick_domain. eauto 20 with bail.
  - assert (H : preserves fd_unique (fastrpc_munmap_internal domain raddr length)); [|by apply H].
    unfold fastrpc_munmap_internal, pick_domain. eauto 20 with bail.
  - unfold fastrpc_mem_close. munfold. destruct (IS_VALID_EFFECTIVE_DOMAIN_ID domain); [|done].
    apply (fd_unique_set domain [] s); [done|constructor].
Qed.

(** A buffer in use cannot be unmapped: while a static map has more than one
    reference, [fastrpc_munmap] of its descriptor makes no kernel call and changes no
    map, and the last reference cannot be dropped through [fastrpc_buffer_ref]; a
    reference taken and given back restores the list. *)
Theorem buffer_ref_protects s d fd i m :
  IS_VALID_EFFECTIVE_DOMAIN_ID d = true -> find_pos (has_fd fd) (smaps s d) = Some i -> smaps s d !! i = Some m ->
  0 < sm_refs m < INT_MAX ->
  let out := Some (mm_vaddrin (sm_map m), mm_length (sm_map m)) in
  let s1 := (fastrpc_buffer_ref d fd 1 s).2 in
  (fastrpc_buffer_ref d fd 1 s).1 = Go (0, out) /\
  (fastrpc_buffer_ref d fd (-1) s1).1 = Go (0, out) /\
  (forall x, smaps (fastrpc_buffer_ref d fd (-1) s1).2 x = smaps s x) /\
  (sm_refs m = 1 -> fastrpc_buffer_ref d fd (-1) s = (Go (AEE_EBADPARM, out), s)) /\
  (forall l, unmap_node d (has_fd fd) (s1, l) =
     (if (session_dev d (mses s1)).1 =? AEE_SUCCESS then Bail AEE_EBADPARM
      else Bail (session_dev d (mses s1)).1, (s1, l))).
Proof.
  intros Hd Hf Hm Hr out s1. unfold INT_MAX in Hr.
  assert (Hn : forall l m', l !! i = Some m' -> nth i l (StaticMap (MemMap 0 0 0 0 0 0 0) 0) = m').
  { intros l m' E. by apply nth_lookup_Some. }
  assert (E1 : fastrpc_buffer_ref d fd 1 s =
    (Go (0, out), set_smaps d (alter (set_refs (sm_refs m + 1)) i (smaps s d)) s)).
  { unfold fastrpc_buffer_ref. munfold. rewrite Hd. cbn [negb]. rewrite Hf, (Hn _ _ Hm).
    rewrite (proj2 (Z.ltb_lt _ _)) by lia. cbn [negb]. rewrite s32_small by lia. done. }
  assert (Hs1 : smaps s1 d = alter (set_refs (sm_refs m + 1)) i (smaps s d)).
  { unfold s1. rewrite E1. cbn [snd]. by rewrite smaps_set, decide_True. }
  assert (Hm1 : smaps s1 d !! i = Some (set_refs (sm_refs m + 1) m)).
  { by rewrite Hs1, list_lookup_alter_eq, Hm. }
  assert (Hf1 : find_pos (has_fd fd) (smaps s1 d) = Some i).
  { rewrite Hs1. clear -Hf. revert i Hf. generalize (smaps s d). intros l. induction l as [|y l IH]; intros i; cbn; [done|].
    destruct (has_fd fd y) eqn:E; [intros [= <-]; cbn [alter list_alter find_pos]; change (has_fd fd (set_refs _ y)) with (has_fd fd y); by rewrite E|].
    destruct (find_pos _ l) as [j|]; [|done]. intros [= <-]. cbn. rewrite E. by rewrite (IH j). }
  split_and!.
  - by rewrite E1.
  - unfold fastrpc_buffer_ref. munfold. rewrite Hd. cbn [negb]. rewrite Hf1, (Hn _ _ Hm1). cbn [sm_refs set_refs].
    rewrite (proj2 (Z.ltb_lt _ _)) by lia. cbn [negb Z.eqb]. rewrite (proj2 (Z.eqb_neq _ _)) by lia. done.
  - intros x. unfold fastrpc_buffer_ref. munfold. rewrite Hd. cbn [negb]. rewrite Hf1, (Hn _ _ Hm1). cbn [sm_refs set_refs].
    rewrite (proj2 (Z.ltb_lt _ _)) by lia. cbn [negb]. rewrite (proj2 (Z.eqb_neq (sm_refs m + 1) 1)) by lia.
    change (-1 =? 1) with false. change (-1 =? -1) with true. cbv iota. cbn [snd].
    rewrite smaps_set. destruct (decide (x = d)) as [->|Hne].
    + rewrite Hs1, list_alter_alter_eq. rewrite <- (list_alter_id id (smaps s d) i) at 2 by done.
      apply list_alter_ext; [|done]. intros y Hy. rewrite Hm in Hy. injection Hy as <-. destruct m. unfold set_refs. cbn. f_equal. lia.
    + unfold s1. rewrite E1. cbn [snd]. by rewrite smaps_set, decide_False.
  - intros H1. unfold fastrpc_buffer_ref. munfold. rewrite Hd. cbn [negb]. rewrite Hf, (Hn _ _ Hm), H1. done.
  - intros l. unfold unmap_node, get_dev. munfold. cbn [fst snd].
    destruct (session_dev d (mses s1)) as [e dv]. cbn [fst].
    destruct (Z.eqb_spec e AEE_SUCCESS) as [->|He]; [|cbn; by rewrite (proj2 (Z.eqb_neq _ _))].
    cbn [snd fst]. rewrite Hf1, (Hn _ _ Hm1). cbn [sm_refs set_refs]. rewrite (proj2 (Z.ltb_lt _ _)) by lia. done.
Qed.

(** ** Registered buffers *)
Fixpoint times (n : nat) (m : M (mem K) unit) : M (mem K) unit :=
  match n with O => mret tt | S n => _ ← times n m; m end.

Lemma find_pos_none_iff {A} (p : A -> bool) l : Forall (fun x => p x = false) l -> find_pos p l = None.
Proof. induction 1 as [|x l Hx _ IH]; cbn; [done|]. by rewrite Hx, IH. Qed.

Lemma other_buf_false buf (q : mem_to_fd -> bool) l :
  Forall (fun t => tf_buf t <> buf) l -> Forall (fun t => (tf_buf t =? buf) && q t = false) l.
Proof.
  intros H. eapply Forall_impl; [exact H|]. intros t Ht. cbv beta.
  by rewrite (proj2 (Z.eqb_neq _ _) Ht).
Qed.

Lemma other_buf_absent buf l : Forall (fun t => tf_buf t <> buf) l -> existsb (fun t => tf_buf t =? buf) l = false.
Proof. induction 1 as [|t l Ht _ IH]; cbn; [done|]. by rewrite (proj2 (Z.eqb_neq _ _) Ht). Qed.

Section one_buffer.
Context (buf size fd attr : Z) (s : mem K).
Context (Hnew : Forall (fun t => tf_buf t <> buf) (fdlist s)).
Context (Hattr : has_attr attr FASTRPC_ATTR_TRY_MAP_STATIC = false).

Definition buf_node (r : Z) : mem_to_fd := MemToFd buf size fd 0 attr r ∅.
Definition with_node (r : Z) : mem K := set_fdlist (fdlist s ++ [buf_node r]) s.

Lemma find_node (q : mem_to_fd -> bool) r :
  q (buf_node r) = true ->
  find_pos (fun t => (tf_buf t =? buf) && q t) (fdlist (with_node r)) = Some (length (fdlist s)).
Proof.
  intros Hq. cbn. rewrite find_pos_app_None by by apply find_pos_none_iff, other_buf_false.
  cbn. rewrite Z.eqb_refl, Hq. cbn. f_equal. lia.
Qed.

Lemma register_first : register_buf buf size fd attr s = (Go tt, with_node 1).
Proof.
  unfold register_buf. munfold.
  assert (E : find_pos (fun t => (tf_buf t =? buf) && (tf_size t =? size) && (tf_fd t =? fd)) (fdlist s) = None).
  { apply find_pos_none_iff. eapply Forall_impl; [exact Hnew|]. intros t Ht. cbv beta. by rewrite (proj2 (Z.eqb_neq _ _) Ht). }
  rewrite E. cbn [tf_attr]. by rewrite Hattr.
Qed.

Lemma alter_node (f : mem_to_fd -> mem_to_fd) r :
  alter f (length (fdlist s)) (fdlist s ++ [buf_node r]) = fdlist s ++ [f (buf_node r)].
Proof. by rewrite alter_app_r_alt, Nat.sub_diag by lia. Qed.

Lemma register_again r :
  0 < r < INT_MAX -> register_buf buf size fd attr (with_node r) = (Go tt, with_node (r + 1)).
Proof.
  intros Hr. unfold INT_MAX in Hr. unfold register_buf. munfold.
  assert (E : find_pos (fun t => (tf_buf t =? buf) && (tf_size t =? size) && (tf_fd t =? fd)) (fdlist (with_node r)) = Some (length (fdlist s))).
  { rewrite <- (find_node (fun t => (tf_size t =? size) && (tf_fd t =? fd)) r) by (cbn; by rewrite !Z.eqb_refl).
    clear. generalize (fdlist (with_node r)). intros l. induction l as [|t l IH]; cbn; [done|]. by rewrite <- andb_assoc, IH. }
  rewrite E. cbn [fdlist with_node set_fdlist]. rewrite alter_node. unfold tf_with, buf_node. cbn [tf_buf tf_size tf_fd tf_nova tf_attr tf_refcount tf_mapped].
  rewrite s32_small by lia. by destruct (attr =? 0).
Qed.

Lemma deregister_one r : 1 < r < INT_MAX -> deregister_buf buf size (with_node r) = (Go tt, with_node (r - 1)).
Proof.
  intros Hr. unfold INT_MAX in Hr. unfold deregister_buf. munfold.
  rewrite (find_node (fun t => tf_size t =? size) r) by (cbn; apply Z.eqb_refl).
  cbn [fdlist with_node set_fdlist]. rewrite alter_node, lookup_app_r, Nat.sub_diag by lia. cbn [lookup list_lookup].
  unfold tf_with, buf_node. cbn [tf_buf tf_size tf_fd tf_nova tf_attr tf_refcount tf_mapped].
  rewrite s32_small by lia. rewrite (proj2 (Z.leb_gt _ _)) by lia.
  assert (Ex : existsb (fun t => tf_buf t =? buf) (take (length (fdlist s)) (fdlist s ++ [MemToFd buf size fd 0 attr r ∅])) = false).
  { rewrite take_app_length. by apply other_buf_absent. }
  by rewrite Ex.
Qed.

Lemma deregister_last :
  has_attr attr FASTRPC_ATTR_KEEP_MAP = false -> deregister_buf buf size (with_node 1) = (Go tt, s).
Proof.
  intros Hk. unfold deregister_buf, release_buf. munfold.
  rewrite (find_node (fun t => tf_size t =? size) 1) by (cbn; apply Z.eqb_refl).
  cbn [fdlist with_node set_fdlist]. rewrite alter_node, lookup_app_r, Nat.sub_diag by lia. cbn [lookup list_lookup].
  unfold tf_with, buf_node. cbn [tf_buf tf_size tf_fd tf_nova tf_attr tf_refcount tf_mapped].
  change (s32 (1 - 1) <=? 0) with true. cbn [tf_refcount]. rewrite Hk, Hattr.
  unfold remove_at. rewrite take_app_length, drop_ge by (rewrite length_app; cbn; lia). rewrite app_nil_r.
  change (0 =? 0) with true. cbv iota beta. unfold with_node, set_fdlist. by destruct s.
Qed.

(** Registration is reference counted: a buffer registered [n+1] times (at an
    address that is not registered) appears once in the list, stays there, and is
    found by [fdlist_fd_from_buf] for every range inside it, until it has been
    deregistered [n+1] times; then the list is exactly what it was before. *)
Theorem register_counted n k b len :
  has_attr attr FASTRPC_ATTR_KEEP_MAP = false -> Z.of_nat n + 1 < INT_MAX -> (k <= n)%nat ->
  0 <= buf -> 0 < size -> buf + size < 18446744073709551616 -> fd <> -1 ->
  buf <= b -> 0 < len -> b + len <= buf + size ->
  Forall (fun t => STD_BETWEEN b (tf_buf t) (u64 (tf_buf t + tf_size t)) = false) (fdlist s) ->
  let s1 := (times (S n) (register_buf buf size fd attr) s).2 in
  let s2 := (times k (deregister_buf buf size) s1).2 in
  fdlist s2 = fdlist s ++ [MemToFd buf size fd 0 attr (Z.of_nat (n + 1 - k)) ∅] /\
  fdlist_fd_from_buf b len s2 = (0, Some (fd, 0, buf, attr)) /\
  (times (S n) (deregister_buf buf size) s1).2 = s.
Proof.
  intros Hk Hn Hkn Hb Hsz Htop Hfd Hlo Hlen Hhi Hout. unfold INT_MAX in Hn.
  assert (H1 : forall j, (j <= n)%nat -> times (S j) (register_buf buf size fd attr) s = (Go tt, with_node (Z.of_nat (S j)))).
  { induction j as [|j IH]; intros Hj.
    - cbn [times]. munfold. by rewrite register_first.
    - change (times (S (S j)) (register_buf buf size fd attr)) with
        (_ ← times (S j) (register_buf buf size fd attr); register_buf buf size fd attr).
      unfold mbind, M_bind. rewrite IH by lia. rewrite register_again by (unfold INT_MAX; lia). do 2 f_equal. lia. }
  assert (H2 : forall j, (j <= n)%nat ->
    times j (deregister_buf buf size) (with_node (Z.of_nat (S n))) = (Go tt, with_node (Z.of_nat (n + 1 - j)))).
  { induction j as [|j IH]; intros Hj; [cbn [times]; munfold; do 2 f_equal; lia|].
    cbn [times]. unfold mbind, M_bind. rewrite IH by lia. rewrite deregister_one by (unfold INT_MAX; lia). do 2 f_equal. lia. }
  cbv zeta. rewrite H1 by lia. cbn [snd]. rewrite H2 by lia. cbn [snd]. split_and!; [done| |].
  - unfold fdlist_fd_from_buf. cbn [fdlist with_node set_fdlist]. clear H1 H2. revert Hout. clear Hnew.
    generalize (fdlist s) as l. intros l. induction 1 as [|t l Ht _ IH]; cbn [app fd_from_buf].
    + cbn [tf_buf tf_size tf_fd tf_nova tf_attr buf_node].
      assert (Hbt : forall v, buf <= v < buf + size -> STD_BETWEEN v buf (u64 (buf + size)) = true).
      { intros v Hv. unfold STD_BETWEEN. int_norm. apply andb_true_iff. rewrite Z.leb_le, Z.ltb_lt. lia. }
      rewrite Hbt by lia. rewrite (u64_small (b + len - 1)) by lia. rewrite Hbt by lia.
      by rewrite (proj2 (Z.eqb_neq _ _) Hfd).
    + rewrite Ht. exact IH.
  - cbn [times]. unfold mbind, M_bind. rewrite H2 by lia. replace (Z.of_nat (n + 1 - n)) with 1 by lia.
    by rewrite deregister_last.
Qed.
End one_buffer.
End mem.

(** ** Over the session layer of [Session] *)
Section proc_mem.
Context {W : Type}.
#[local] Instance pl_ok : PlResult := 0.
Variable sys_ioctl : Z -> ioctl_req -> proc * W -> io * (proc * W).

(** The domain can be used: its table entry is live and has a device. *)
Definition live (p : proc) (d : Z) : Prop :=
  is_Some (hlist p) /\ state (hl p d) <> FASTRPC_DOMAIN_STATE_DEINIT /\ 0 <= dev (hl p d).

Definition pref (s : mem (proc * W)) (d : Z) : Z := ref (hl (mses s).1 d).

Lemma get_live d (s : mem (proc * W)) :
  live (mses s).1 d -> exists p',
    on_ses (session_get d) s = (Go 0, set_mses (p', (mses s).2) s) /\
    (forall x, hl p' x = if decide (x = d) then set_ref (u32 (pref s d + 1)) (hl (mses s).1 d) else hl (mses s).1 x) /\
    is_Some (hlist p').
Proof.
  intros (Hs & Hst & _). unfold on_ses. change (ses s) with (mses s). destruct s as [l1 l2 l3 e f a [p w]]. cbn in *.
  unfold on_proc. cbn [fst snd]. rewrite session_get_ok by done.
  eexists. split; [reflexivity|]. split.
  - intros x. transitivity (hl (set_hl d (fun h => set_ref (u32 (ref h + 1)) h) p) x).
    + by destruct (tlsKey p).
    + by rewrite hl_set.
  - destruct (tlsKey p); apply hlist_set; done.
Qed.

Lemma wp_eq {S A} (m : M S A) (Q : A -> S -> Prop) R s a s' : m s = (Go a, s') -> Q a s' -> wp m Q R s.
Proof. unfold wp. by intros ->. Qed.

Lemma unmap_fd_loop attr buf size fd ds (s : mem (proc * W)) :
  NoDup ds -> is_Some (hlist (mses s).1) -> Forall (live (mses s).1) ds -> exists p',
  foldr (fun d k => _ ← unmap_fd_domain sys_ioctl attr buf size fd d; k) (mret tt) ds s =
    (Go tt, set_mses (p', (mses s).2) s) /\
  (forall d, ref (hl p' d) = if decide (d ∈ ds) then u32 (pref s d + 1) else pref s d).
Proof.
  intros Hd. revert s. induction Hd as [|d ds Hn Hd IH]; intros s Hs Hl.
  { exists (mses s).1. split; [by destruct s as [l1 l2 l3 e f a [p w]]|]. intros d. rewrite decide_False; [done|set_solver]. }
  apply Forall_cons in Hl as [H1 Hl]. destruct (get_live d s H1) as (p1 & E1 & Hp1 & Hs1).
  set (s1 := set_mses (p1, (mses s).2) s).
  destruct (IH s1) as (p' & E & Hp'); [done| |].
  { apply Forall_forall. intros x Hx. rewrite Forall_forall in Hl. destruct (Hl x Hx) as (? & ? & ?).
    assert (x <> d) by (intros ->; done). split; [done|]. cbn. by rewrite Hp1, decide_False. }
  exists p'. split.
  - assert (Eu : unmap_fd_domain sys_ioctl attr buf size fd d s = (Go tt, s1)).
    { unfold unmap_fd_domain. munfold. by rewrite E1. }
    cbn [foldr]. unfold mbind at 1, M_bind at 1. rewrite Eu. exact E.
  - intros x. rewrite Hp'. unfold pref. cbn. rewrite Hp1. destruct (decide (x = d)) as [->|Hne].
    + rewrite decide_False by done. by rewrite decide_True by (apply list_elem_of_here).
    + destruct (decide (x ∈ ds)); [by rewrite decide_True by (by apply list_elem_of_further)|by rewrite decide_False by (by intros [?|?]%elem_of_cons)].
Qed.

(** Deregistering a buffer that was kept mapped unmaps nothing while the sessions
    are usable: with every domain live, [fastrpc_unmap_fd] makes no kernel call (the
    world is unchanged) and leaves every domain with one session reference more than
    before, never given back, so it is not idempotent either. *)
Theorem unmap_fd_leaks s buf size fd attr :
  (forall d, IS_VALID_EFFECTIVE_DOMAIN_ID d = true -> live (mses s).1 d) ->
  let s' := (fastrpc_unmap_fd sys_ioctl buf size fd attr s).2 in
  (fastrpc_unmap_fd sys_ioctl buf size fd attr s).1 = Go tt /\
  (mses s').2 = (mses s).2 /\ fdlist s' = fdlist s /\ smaplst s' = smaplst s /\
  forall d, pref s' d = if IS_VALID_EFFECTIVE_DOMAIN_ID d then u32 (pref s d + 1) else pref s d.
Proof.
  intros Hl. assert (Hv : forall d, d ∈ EFFECTIVE_DOMAIN_IDS <-> IS_VALID_EFFECTIVE_DOMAIN_ID d = true).
  { intros d. unfold EFFECTIVE_DOMAIN_IDS, IS_VALID_EFFECTIVE_DOMAIN_ID. rewrite elem_of_seqZ, andb_true_iff, Z.leb_le, Z.ltb_lt. lia. }
  destruct (unmap_fd_loop attr buf size fd EFFECTIVE_DOMAIN_IDS s) as (p' & E & Hp').
  - apply NoDup_seqZ.
  - apply (Hl 0). done.
  - apply Forall_forall. intros d Hd. by apply Hl, Hv.
  - intros s'. unfold s', fastrpc_unmap_fd, for_each_domain. rewrite E. split_and!; [done..|].
    intros d. unfold pref at 1. cbn [snd mses set_mses fst]. rewrite Hp'. specialize (Hv d).
    destruct (decide (d ∈ EFFECTIVE_DOMAIN_IDS)) as [Hd|Hd].
    + by rewrite (proj1 Hv Hd).
    + destruct (IS_VALID_EFFECTIVE_DOMAIN_ID d); [|done]. by destruct Hd; apply Hv.
Qed.

(** A remote heap allocation that the kernel refused is recorded all the same:
    when the [ADD_PAGES]/[REMOTE_HEAP] request fails, [remote_mmap64_internal] reports
    the failure but the domain's list of remote maps has a new entry, for whatever
    address the failed call left in the output field. *)
Theorem failed_heap_map_recorded s fd flags vaddrin size :
  let d := get_current_domain (mses s).1 in
  live (mses s).1 d -> IS_VALID_EFFECTIVE_DOMAIN_ID d = true -> is_heap_flag flags = true ->
  (forall dv r k, io_ret (sys_ioctl dv r k).1 = -1 /\ (sys_ioctl dv r k).2 = k) ->
  exists out,
    let res := remote_mmap64_internal sys_ioctl fd flags vaddrin size s in
    (exists e, res.1 = Go (e, Some out) /\ e <> AEE_SUCCESS) /\
    rmaps res.2 d = rmaps s d ++ [RemoteMap out flags].
Proof.
  intros d Hl Hv Hf Hio.
  set (Q := fun (r : Z * option Z) (s' : mem (proc * W)) => exists out, r.1 <> AEE_SUCCESS /\ r.2 = Some out /\
    rmaps s' d = rmaps s d ++ [RemoteMap out flags]).
  assert (H : wp (remote_mmap64_internal sys_ioctl fd flags vaddrin size) Q (fun _ _ => False) s).
  2: { unfold wp in H. destruct (remote_mmap64_internal _ _ _ _ _ s) as [[[e o]|e] s']; [|done].
       destruct H as (out & He & Ho & Hr). cbn in *. subst o. exists out. cbn. eauto. }
  assert (Ei : init s = (Go 0, s)).
  { destruct s as [l1 l2 l3 e f a [p w]]. destruct Hl as ([h Hh] & _). unfold init, on_ses. cbn in *. unfold init_once, on_proc. munfold.
    cbn [fst]. by rewrite Hh. }
  destruct (get_live d s Hl) as (p1 & Eg & Hp1 & Hs1). set (s1 := set_mses (p1, (mses s).2) s) in *.
  assert (Ed : fastrpc_session_dev d p1 = (AEE_SUCCESS, dev (hl p1 d))).
  { unfold fastrpc_session_dev. rewrite Hv. cbn [negb]. destruct Hs1 as [h ->]. rewrite Hp1, decide_True by done.
    destruct Hl as (_ & Hst & Hdv). cbn [state dev set_ref]. by rewrite (proj2 (Z.eqb_neq _ _) Hst), (proj2 (Z.ltb_ge _ _) Hdv). }
  assert (Hdv : dev (hl p1 d) <> -1) by (rewrite Hp1, decide_True by done; destruct Hl as (_ & _ & ?); cbn; lia).
  unfold remote_mmap64_internal. wp_step. wp_step. wp_step. wp_step. wp_step. apply (wp_eq _ _ _ _ _ _ Ei). split; [intros _|done].
  wp_step. wp_step. wp_step. change (current_domain (mses s)) with d. rewrite Hv. wp_step. wp_step; [|done]. wp_step.
  unfold with_ref, bracket. wp_step.
  apply (wp_eq _ _ _ _ 0 (s1, None)).
  { revert Eg. unfold on_ses. change (ses (s, None)) with (ses s). destruct (session_get d (ses s)) as [r k].
    intros [= -> E]. cbn. by rewrite E. }
  change (0 =? AEE_SUCCESS) with true. cbn [negb]. do 3 wp_step. wp_step. unfold get_dev. wp_step.
  change (session_dev d (mses s1)) with (fastrpc_session_dev d p1). rewrite Ed.
  wp_step. wp_step; [|done]. wp_step. wp_step; [|by apply negb_false_iff, Z.eqb_eq in H1].
  rewrite Hf. do 3 wp_step. unfold do_mmap. apply wp_do_ioctl. intros en.
  unfold ioctl_mmap. change (MMAP_64 =? MEM_MAP) with false. change ((MMAP_64 =? MMAP) || (MMAP_64 =? MMAP_64)) with true. cbv iota.
  match goal with |- context [sys_ioctl ?a ?b ?c] => destruct (Hio a b c) as [Hr Hk]; destruct (sys_ioctl a b c) as [ior k'] end.
  cbn in Hr, Hk. subst k'. cbn [fst snd]. wp_step. do 3 wp_step. do 2 wp_step. rewrite Hr.
  wp_step; [done|]. wp_step. wp_step.
  match goal with |- wp (on_ses (session_put d)) _ _ (?x, _) => set (s2 := x) end.
  assert (Ep : exists r k, session_put d (ses (s2, Some (io_out ior))) = (Go r, k)).
  { change (ses (s2, _)) with (p1, (mses s).2). cbn. unfold on_proc. cbn [fst snd]. rewrite session_put_ok by done. eauto. }
  destruct Ep as (r0 & k0 & Ep). apply (wp_eq _ _ _ _ r0 (set_mses k0 s2, Some (io_out ior))).
  { unfold on_ses. by rewrite Ep. }
  wp_step. split; [done|]. intros _. unfold to_user. do 3 wp_step. wp_step. wp_step.
  exists (io_out ior). cbn [fst snd]. split_and!; [by apply (convert_nonzero (-1))|done|].
  change (rmaps (set_mses k0 s2) d) with (rmaps s2 d). unfold s2, rmaps, set_rmaps. cbn. by rewrite lookup_insert_eq.
Qed.
End proc_mem.

(** ** Concrete inputs *)
Module MemEx.
#[local] Instance ex_pl : PlResult := 0.
(** Domain 3 is open on device 5; a kernel that refuses every request. *)
Definition entry : handle_list := HandleList [] [] [] 0 0 0 0 FASTRPC_DOMAIN_STATE_INIT 0 5 0 0.
Definition ex_proc : proc := Proc (Some {[ 3 := entry ]}) true (Some 3) [].
Definition all_proc : proc := Proc (Some (list_to_map ((fun d => (d, entry)) <$> EFFECTIVE_DOMAIN_IDS))) true (Some 3) [].
Definition no_kernel (_ : Z) (_ : ioctl_req) (k : proc * unit) : io * (proc * unit) := (Io (-1) 0 22, k).
Definition state0 (p : proc) : mem (proc * unit) := Mem [] ∅ ∅ 0 [] false (p, tt).
Definition mapped : static_map := StaticMap (MemMap 9 0 0 0 4096 64 8192) 1.
Definition state1 : mem (proc * unit) := set_smaps 3 [mapped] (state0 ex_proc).

Lemma ex_proc_hl d : hl ex_proc d = if decide (d = 3) then entry else hl0.
Proof.
  unfold hl. cbn. destruct (decide (d = 3)) as [->|]; [by rewrite lookup_singleton_eq|by rewrite lookup_singleton_ne].
Qed.
Lemma ex_proc_ref d : ref (hl ex_proc d) = 0.
Proof. rewrite ex_proc_hl. by destruct (decide (d = 3)). Qed.

Lemma map_functions_balanced_witness :
  sref (mses (fastrpc_munmap no_kernel 3 9 0 64 state1).2) 3 = 0.
Proof.
  etransitivity; [apply (map_functions_balanced no_kernel (fun _ _ _ H => conj H (fun _ => eq_refl)) state1 3 9 0 0 64 0 0 0 true)|apply ex_proc_ref].
  - intros d. change (0 <= ref (hl ex_proc d) <= REF_MAX). by rewrite ex_proc_ref.
  - intros d. change (ref (hl ex_proc d) < REF_MAX - 2). by rewrite ex_proc_ref.
Defined.

Lemma state1_unique : fd_unique state1.
Proof.
  intros d. unfold fds, state1. rewrite smaps_set. destruct (decide (d = 3)); [apply NoDup_singleton|constructor].
Qed.
Lemma static_maps_unique_witness : fd_unique (fastrpc_mmap no_kernel 3 9 4096 0 64 0 state1).2.
Proof. apply (static_maps_unique no_kernel state1 3 9 4096 0 64 0 0 0 state1_unique). Defined.

Lemma buffer_ref_protects_witness :
  (fastrpc_buffer_ref 3 9 1 state1).1 = Go (0, Some (4096, 64)).
Proof.
  apply (buffer_ref_protects no_kernel state1 3 9 0 mapped); [done|done|done|by unfold INT_MAX].
Defined.

Lemma register_counted_witness :
  (times 3 (deregister_buf no_kernel 4096 64) (times 3 (register_buf no_kernel 4096 64 9 0) state1).2).2 = state1.
Proof.
  apply (register_counted no_kernel 4096 64 9 0 state1 (Forall_nil_2 _) eq_refl 2 1 4100 8);
    first [done|lia|constructor|by unfold INT_MAX].
Defined.

Lemma unmap_fd_leaks_witness : pref (fastrpc_unmap_fd no_kernel 4096 64 9 8 (state0 all_proc)).2 3 = 1.
Proof.
  etransitivity; [apply (unmap_fd_leaks no_kernel (state0 all_proc) 4096 64 9 8)|by vm_compute].
  intros d Hd. assert (E : hl all_proc d = entry).
  { apply andb_true_iff in Hd as [H1 H2]. apply Z.leb_le in H1. apply Z.ltb_lt in H2. unfold NUM_DOMAINS_EXTEND, NUM_DOMAINS, NUM_SESSIONS in H2.
    assert (Hc : d ∈ EFFECTIVE_DOMAIN_IDS) by (unfold EFFECTIVE_DOMAIN_IDS; apply elem_of_seqZ; unfold NUM_DOMAINS_EXTEND, NUM_DOMAINS, NUM_SESSIONS; lia).
    unfold hl, all_proc. cbn [hlist mbind option_bind].
    erewrite elem_of_list_to_map_1; [reflexivity| |apply list_elem_of_fmap; eauto].
    rewrite <- list_fmap_compose. change (NoDup (id <$> EFFECTIVE_DOMAIN_IDS)). rewrite list_fmap_id. apply NoDup_seqZ. }
  split; [by eexists|]. change (mses (state0 all_proc)).1 with all_proc. by rewrite E.
Defined.

Lemma failed_heap_map_recorded_witness : exists out,
  rmaps (remote_mmap64_internal no_kernel 9 ADSP_MMAP_ADD_PAGES 0 4096 (state0 ex_proc)).2 3 = [RemoteMap out ADSP_MMAP_ADD_PAGES].
Proof.
  destruct (failed_heap_map_recorded no_kernel (state0 ex_proc) 9 ADSP_MMAP_ADD_PAGES 0 4096) as (out & _ & H).
  - split; [by eexists|]. change (mses (state0 ex_proc)).1 with ex_proc. change (get_current_domain ex_proc) with 3. by rewrite ex_proc_hl.
  - done.
  - done.
  - by intros.
  - exists out. exact H.
Defined.
End MemEx.
