(* ===== verification/Rpcmem.v ===== *)
(** Shared memory for the DSP, [src/rpcmem_linux.c]: buffers from the DMA heap or, without one,
    from the driver, the list that leads from their addresses to their descriptors, and their
    registration with [Mem].

    The kernel is an interface, [Kernel]: its calls change a set of open descriptors and a map
    of mappings. The list under its mutex is changed in one step. *)
From S2P Require Import Prelude Errors Domain Ioctl Session SessionIface Mem.
#[local] Open Scope Z_scope.

Definition PAGE_SIZE : Z := 4096.
Definition MAP_FAILED : Z := 18446744073709551615.

(** ** The kernel *)
Inductive kcall :=
  | OPEN_HEAP | OPEN_NODE (domain : Z) | CALLOC
  | DMA_HEAP_IOCTL_ALLOC (heap len : Z) | FASTRPC_IOCTL_ALLOC_DMA_BUFF (dev size : Z)
  | MMAP (size fd : Z) | MUNMAP (addr len : Z) | CLOSE (fd : Z).
(** The result of a call and the descriptor that it stores. *)
Class Kernel (W : Type) := {
  kernel : kcall -> W -> (Z * Z) * W;
  open_fds : W -> gset Z;
  maps : W -> gmap Z Z                    (* the length of the mapping at an address *)
}.
(** Mappings do not overlap and lie in the address space. *)
Definition maps_ok (m : gmap Z Z) : Prop :=
  forall a n, m !! a = Some n -> 0 < a /\ 0 < n /\ a + n < MAP_FAILED /\
    forall b k, m !! b = Some k -> a <> b -> a + n <= b \/ b + k <= a.
Class KernelLaws (W : Type) `{Kernel W} := {
  alloc_fds c w r d w' : match c with DMA_HEAP_IOCTL_ALLOC _ _ | FASTRPC_IOCTL_ALLOC_DMA_BUFF _ _ => True | _ => False end ->
    kernel c w = ((r, d), w') -> maps w' = maps w /\
    if r =? 0 then 0 <= d /\ (d ∉ open_fds w) /\ open_fds w' = {[d]} ∪ open_fds w else open_fds w' = open_fds w;
  mmap_maps n fd w a d w' : kernel (MMAP n fd) w = ((a, d), w') -> open_fds w' = open_fds w /\
    if a =? MAP_FAILED then maps w' = maps w
    else 0 < n /\ 0 < a /\ maps w !! a = None /\ maps w' = <[a := n]> (maps w) /\ (maps_ok (maps w) -> maps_ok (maps w'));
  munmap_maps a n w : a <> MAP_FAILED -> maps w !! a = Some n ->
    open_fds (kernel (MUNMAP a n) w).2 = open_fds w /\ maps (kernel (MUNMAP a n) w).2 = delete a (maps w);
  munmap_failed n w : open_fds (kernel (MUNMAP MAP_FAILED n) w).2 = open_fds w /\ maps (kernel (MUNMAP MAP_FAILED n) w).2 = maps w;
  close_fds fd w : open_fds (kernel (CLOSE fd) w).2 = open_fds w ∖ {[fd]} /\ maps (kernel (CLOSE fd) w).2 = maps w;
  calloc_quiet w : open_fds (kernel CALLOC w).2 = open_fds w /\ maps (kernel CALLOC w).2 = maps w
}.

(** ** State *)

(** [struct rpc_info]; [aligned_buf] is [buf]. *)
Record rpc_info := RpcInfo { ri_buf : Z; ri_size : Z; ri_fd : Z }.
Record rpcmem (K W : Type) := Rpcmem { dmafd : Z; rpcfd : Z; rpclst : list rpc_info; rmem : mem K; kern : W }.
Arguments Rpcmem {_ _}. Arguments dmafd {_ _}. Arguments rpcfd {_ _}. Arguments rpclst {_ _}. Arguments rmem {_ _}. Arguments kern {_ _}.

Section rpcmem.
Context {K W : Type} `{HO : SessionOps K} `{HK : Kernel W}.
Variable sys_ioctl : Z -> ioctl_req -> K -> io * K.
Abbreviation st := (rpcmem K W).
Implicit Types (s : st).

Definition set_heap (d : Z) s : st := Rpcmem d (rpcfd s) (rpclst s) (rmem s) (kern s).
Definition set_node (d : Z) s : st := Rpcmem (dmafd s) d (rpclst s) (rmem s) (kern s).
Definition set_rpclst (l : list rpc_info) s : st := Rpcmem (dmafd s) (rpcfd s) l (rmem s) (kern s).
Definition set_rmem (m : mem K) s : st := Rpcmem (dmafd s) (rpcfd s) (rpclst s) m (kern s).
Definition set_kern (w : W) s : st := Rpcmem (dmafd s) (rpcfd s) (rpclst s) (rmem s) w.

Definition sys (c : kcall) : M st (Z * Z) := fun s => let '(r, w) := kernel c (kern s) in (Go r, set_kern w s).
Definition on_mem {A} (m : M (mem K) A) : M st A := fun s => let '(r, t) := m (rmem s) in (r, set_rmem t s).

(** ** Operations *)
Definition rpcmem_init : M st unit :=
  _ ← modify (set_rpclst []);
  h ← sys OPEN_HEAP;
  _ ← modify (set_heap h.1);
  if h.1 <? 0 then (n ← sys (OPEN_NODE DEFAULT_DOMAIN_ID); modify (set_node n.1)) else mret tt.

(** The list is left as it is, and so are the two descriptors. *)
Definition rpcmem_deinit : M st unit :=
  s ← get;
  _ ← (if negb (dmafd s =? -1) then (_ ← sys (CLOSE (dmafd s)); mret tt) else mret tt);
  if negb (rpcfd s =? -1) then (_ ← sys (CLOSE (rpcfd s)); mret tt) else mret tt.

Fixpoint find_buf (po : Z) (l : list rpc_info) : option (nat * rpc_info) :=
  match l with
  | [] => None
  | rinfo :: l => if ri_buf rinfo =? po then Some (O, rinfo) else (fun r => (S r.1, r.2)) <$> find_buf po l
  end.
Definition rpcmem_to_fd_internal (po : Z) : M st Z :=
  l ← gets rpclst; mret match find_buf po l with Some (_, rinfo) => ri_fd rinfo | None => -1 end.
Definition rpcmem_to_fd (po : Z) : M st Z := rpcmem_to_fd_internal po.

(** The address or NULL; [free] of a node has no effect on the model. *)
Definition rpcmem_alloc_internal (heapid flags size : Z) : M st Z :=
  s ← get;
  if ((dmafd s =? -1) && (rpcfd s =? -1)) || (size =? 0) then mret 0
  else
    r ← with_locals 0 (
      rinfo ← lift (sys CALLOC);
      _ ← VERIFY 0 (negb (rinfo.1 =? 0));
      r ← lift (if negb (dmafd s =? -1) then sys (DMA_HEAP_IOCTL_ALLOC (dmafd s) size)
                else sys (FASTRPC_IOCTL_ALLOC_DMA_BUFF (rpcfd s) (u64 (size + PAGE_SIZE))));
      let '(nErr, fd) := r : Z * Z in
      _ ← (if negb (nErr =? 0) then bail nErr else mret tt);
      b ← lift (sys (MMAP size fd));
      let buf := b.1 in
      _ ← VERIFY 0 (negb (buf =? 0));
      let rinfo := RpcInfo buf (s32 size) fd in
      _ ← lift (modify (fun s => set_rpclst (rpclst s ++ [rinfo]) s));
      _ ← lift (on_mem (remote_register_buf sys_ioctl buf (ri_size rinfo) fd));
      setl (fun _ => buf));
    mret (if r.1 =? 0 then r.2 else 0).
Definition rpcmem_alloc (heapid flags size : Z) : M st Z := rpcmem_alloc_internal heapid flags (u64 size).
Definition rpcmem_alloc2 (heapid flags size : Z) : M st Z := rpcmem_alloc_internal heapid flags size.

Definition rpcmem_free_internal (po : Z) : M st unit :=
  l ← gets rpclst;
  match find_buf po l with
  | None => mret tt
  | Some (i, rfree) =>
    _ ← modify (set_rpclst (delete i l));
    _ ← on_mem (remote_register_buf sys_ioctl (ri_buf rfree) (ri_size rfree) (-1));
    _ ← sys (MUNMAP (ri_buf rfree) (u64 (ri_size rfree)));
    _ ← sys (CLOSE (ri_fd rfree)); mret tt
  end.
Definition rpcmem_free (po : Z) : M st unit := rpcmem_free_internal po.

(** What a process does with the allocator, and what it gets: the addresses. *)
Inductive rpc_op := Alloc (heapid flags size : Z) | Free (po : Z) | ToFd (po : Z).
Definition rpc_step (o : rpc_op) : M st Z :=
  match o with
  | Alloc heapid flags size => rpcmem_alloc_internal heapid flags size
  | Free po => _ ← rpcmem_free_internal po; mret po
  | ToFd po => _ ← rpcmem_to_fd_internal po; mret po
  end.
Fixpoint rpc_run (os : list rpc_op) : M st (list Z) :=
  match os with [] => mret [] | o :: os => r ← rpc_step o; rs ← rpc_run os; mret (r :: rs) end.

(** ** Registration *)
Definition reg (i : rpc_info) : mem_to_fd := MemToFd (ri_buf i) (ri_size i) (ri_fd i) 0 0 1 ∅.

(** The library is initialised. *)
Definition up (k : K) : Prop := fastrpc_init_once k = (Go AEE_SUCCESS, k).
Lemma mem_init (m : mem K) : up (mses m) -> Mem.init m = (Go AEE_SUCCESS, m).
Proof. intros Hk. unfold Mem.init, on_ses. cbn. rewrite Hk. by destruct m. Qed.
Lemma register_one (m : mem K) i : up (mses m) -> 0 < ri_buf i -> 0 < ri_size i < 2147483648 -> 0 <= ri_fd i ->
  Forall (fun t => tf_fd t <> ri_fd i) (fdlist m) ->
  remote_register_buf sys_ioctl (ri_buf i) (ri_size i) (ri_fd i) m = (Go AEE_SUCCESS, set_fdlist (fdlist m ++ [reg i]) m).
Proof.
  intros Hk Hb Hs Hf Hnew. unfold remote_register_buf, remote_register_buf_common. rewrite u64_small by lia.
  unfold to_bail, VERIFY_CALL. unfold mbind, M_bind. rewrite mem_init by done. cbn [Z.eqb]. munfold.
  change (AEE_SUCCESS =? AEE_SUCCESS) with true. rewrite (proj2 (Z.eqb_neq (ri_buf i) 0)), (proj2 (Z.eqb_neq (ri_size i) 0)), (proj2 (Z.eqb_neq (ri_fd i) (-1))) by lia. cbn [negb].
  unfold register_buf. munfold. rewrite find_pos_none_iff; [done|]. eapply Forall_impl; [exact Hnew|].
  intros t Ht. cbv beta. by rewrite (proj2 (Z.eqb_neq _ _) Ht), andb_false_r.
Qed.
Lemma deregister_one_at (m : mem K) i l1 l2 : up (mses m) -> 0 < ri_buf i -> 0 < ri_size i < 2147483648 ->
  fdlist m = l1 ++ reg i :: l2 -> Forall (fun t => tf_buf t <> ri_buf i) l1 ->
  remote_register_buf sys_ioctl (ri_buf i) (ri_size i) (-1) m = (Go AEE_SUCCESS, set_fdlist (l1 ++ l2) m).
Proof.
  intros Hk Hb Hs Hl Hl1. unfold remote_register_buf, remote_register_buf_common. rewrite u64_small by lia.
  unfold to_bail, VERIFY_CALL. unfold mbind, M_bind. rewrite mem_init by done. munfold.
  change (AEE_SUCCESS =? AEE_SUCCESS) with true. rewrite (proj2 (Z.eqb_neq (ri_buf i) 0)), (proj2 (Z.eqb_neq (ri_size i) 0)) by lia. cbn [negb]. change (-1 =? -1) with true. cbv iota.
  unfold deregister_buf. munfold. rewrite Hl.
  assert (E : find_pos (fun t => (tf_buf t =? ri_buf i) && (tf_size t =? ri_size i)) (l1 ++ reg i :: l2) = Some (length l1)).
  { rewrite find_pos_app_None by by apply find_pos_none_iff, other_buf_false. cbn. rewrite !Z.eqb_refl. cbn. f_equal. lia. }
  rewrite E. rewrite alter_app_r_alt, lookup_app_r, Nat.sub_diag by lia. cbn. unfold remove_at.
  rewrite take_app_length, drop_app_ge by lia. replace (S (length l1) - length l1)%nat with 1%nat by lia. cbn. unfold release_buf. munfold. cbn. done.
Qed.

(** ** What is held *)
Definition rpc_fds s : list Z := ri_fd <$> rpclst s.
(** A buffer whose [mmap] failed stays in the list with the value of the failure for its address:
    it has a descriptor and no mapping. *)
Definition rpc_maps s : list (Z * Z) := (fun i => (ri_buf i, ri_size i)) <$> filter (fun i => ri_buf i <> MAP_FAILED) (rpclst s).
(** The descriptors and mappings of others are [fds0] and [maps0], the session state is [ready]. *)
Record rpc_ok (ready : K -> Prop) (fds0 : gset Z) (maps0 : gmap Z Z) s : Prop := RpcOk {
  ok_mses : ready (mses (rmem s));
  ok_registered : fdlist (rmem s) = reg <$> rpclst s;
  ok_fds_nodup : NoDup (rpc_fds s);
  ok_fds_disjoint : list_to_set (rpc_fds s) ## fds0;
  ok_fds : open_fds (kern s) = fds0 ∪ list_to_set (rpc_fds s);
  ok_maps_nodup : NoDup (rpc_maps s).*1;
  ok_maps_other : Forall (fun x => maps0 !! x.1 = None) (rpc_maps s);
  ok_maps : maps (kern s) = list_to_map (rpc_maps s) ∪ maps0;
  ok_ranges : maps_ok (maps (kern s));
  ok_sizes : Forall (fun i => 0 < ri_buf i /\ 0 < ri_size i < 2147483648 /\ 0 <= ri_fd i) (rpclst s)
}.
Lemma find_buf_split po l i x : find_buf po l = Some (i, x) ->
  ri_buf x = po /\ l = take i l ++ x :: drop (S i) l /\ Forall (fun y => ri_buf y <> po) (take i l).
Proof.
  revert i. induction l as [|y l IH]; intros i; cbn; [done|]. destruct (Z.eqb_spec (ri_buf y) po) as [Hy|Hy].
  - intros [= <- <-]. cbn. by rewrite drop_0.
  - destruct (find_buf po l) as [[j z]|]; [|done]. cbn. intros [= <- <-]. destruct (IH j eq_refl) as (Hz & Hl & Hf).
    split_and!; [done|cbn; f_equal; exact Hl|cbn; by constructor].
Qed.
Lemma find_buf_None po l : find_buf po l = None -> Forall (fun y => ri_buf y <> po) l.
Proof. induction l as [|y l IH]; cbn; [done|]. destruct (Z.eqb_spec (ri_buf y) po); [done|]. destruct (find_buf po l); [done|]. intros _. constructor; auto. Qed.

Section invariant.
Context `{HKL : !KernelLaws W}.
Context (ready : K -> Prop) (Hready : forall k, ready k -> up k).
Context (fds0 : gset Z) (maps0 : gmap Z Z).
Abbreviation ok := (rpc_ok ready fds0 maps0).

(** Only the kernel's part of the state matters. *)
Lemma rpc_ok_kern s w : ok s -> open_fds w = open_fds (kern s) -> maps w = maps (kern s) -> ok (set_kern w s).
Proof. intros [] Hf Hm. split; cbn in *; rewrite ?Hf, ?Hm; done. Qed.
Lemma maps_other s a n : ok s -> (a, n) ∈ rpc_maps s -> maps (kern s) !! a = Some n.
Proof.
  intros Hs Hin. rewrite (ok_maps _ _ _ _ Hs). apply lookup_union_Some_l, elem_of_list_to_map; [apply Hs|done].
Qed.
Lemma maps_new s a : ok s -> maps (kern s) !! a = None -> (a ∉ (rpc_maps s).*1) /\ maps0 !! a = None.
Proof. intros Hs Ha. rewrite (ok_maps _ _ _ _ Hs) in Ha. apply lookup_union_None in Ha as [H1 H2]. split; [by apply not_elem_of_list_to_map_2|done]. Qed.
Lemma rpc_maps_bufs s : (rpc_maps s).*1 = ri_buf <$> filter (fun i => ri_buf i <> MAP_FAILED) (rpclst s).
Proof. unfold rpc_maps. by rewrite <- list_fmap_compose. Qed.
Lemma rpc_maps_cons s s' i : rpclst s ≡ₚ i :: rpclst s' ->
  rpc_maps s ≡ₚ (if ri_buf i =? MAP_FAILED then [] else [(ri_buf i, ri_size i)]) ++ rpc_maps s'.
Proof. intros Hp. unfold rpc_maps. rewrite Hp, filter_cons. destruct (Z.eqb_spec (ri_buf i) MAP_FAILED); [rewrite decide_False by tauto|rewrite decide_True by done]; done. Qed.
Lemma rpc_maps_in s i : i ∈ rpclst s -> ri_buf i <> MAP_FAILED -> (ri_buf i, ri_size i) ∈ rpc_maps s.
Proof. intros Hi Hn. apply (list_elem_of_fmap_2 (fun i => (ri_buf i, ri_size i))), list_elem_of_filter. by split. Qed.

(** A new buffer at the end of the list. *)
Definition added (i : rpc_info) (w : W) (m : mem K) s : st := set_rmem (set_fdlist (Mem.fdlist m ++ [reg i]) m) (set_rpclst (rpclst s ++ [i]) (set_kern w s)).
Lemma rpc_ok_add s i w : ok s -> 0 < ri_buf i -> 0 < ri_size i < 2147483648 -> 0 <= ri_fd i ->
  (ri_fd i ∉ open_fds (kern s)) -> open_fds w = {[ri_fd i]} ∪ open_fds (kern s) ->
  (if ri_buf i =? MAP_FAILED then maps w = maps (kern s)
   else maps (kern s) !! ri_buf i = None /\ maps w = <[ri_buf i := ri_size i]> (maps (kern s)) /\ maps_ok (maps w)) ->
  ok (added i w (rmem s) s).
Proof.
  intros Hs Hb Hz Hf Hfn Hfd Hmw.
  assert (Hfl : ri_fd i ∉ rpc_fds s) by (rewrite (ok_fds _ _ _ _ Hs) in Hfn; intros Hin; apply Hfn, elem_of_union_r; by apply elem_of_list_to_set).
  assert (Hf0 : ri_fd i ∉ fds0) by (rewrite (ok_fds _ _ _ _ Hs) in Hfn; set_solver).
  assert (Hp : rpclst (added i w (rmem s) s) ≡ₚ i :: rpclst s) by (cbn; by rewrite Permutation_app_comm).
  assert (Hfds : rpc_fds (added i w (rmem s) s) ≡ₚ ri_fd i :: rpc_fds s) by (unfold rpc_fds; by rewrite Hp).
  pose proof (rpc_maps_cons _ _ _ Hp) as Hmaps. set (s' := added i w (rmem s) s) in *.
  assert (Hrest : NoDup (rpc_maps s').*1 /\ Forall (fun x => maps0 !! x.1 = None) (rpc_maps s') /\
    maps w = list_to_map (rpc_maps s') ∪ maps0 /\ maps_ok (maps w)).
  { destruct (ri_buf i =? MAP_FAILED); cbn [app] in Hmaps.
    - assert (Hnd : NoDup (rpc_maps s').*1) by (rewrite Hmaps; apply Hs).
      rewrite Hmw, (list_to_map_proper _ _ Hnd Hmaps), Hmaps. split_and!; apply Hs.
    - destruct Hmw as (Hmn & Hm & Hr). destruct (maps_new _ _ Hs Hmn) as [Hbn Hb0].
      assert (Hnd : NoDup (rpc_maps s').*1) by (rewrite Hmaps; cbn; constructor; [done|apply Hs]).
      split_and!; [done|rewrite Hmaps; constructor; [done|apply Hs]| |done].
      rewrite (list_to_map_proper _ _ Hnd Hmaps). cbn. by rewrite Hm, (ok_maps _ _ _ _ Hs), insert_union_l. }
  destruct Hrest as (Hr1 & Hr2 & Hr3 & Hr4). split; try done.
  - apply Hs.
  - cbn. by rewrite fmap_app, (ok_registered _ _ _ _ Hs).
  - rewrite Hfds. constructor; [done|apply Hs].
  - rewrite Hfds. pose proof (ok_fds_disjoint _ _ _ _ Hs). set_solver.
  - rewrite Hfds. cbn. rewrite Hfd, (ok_fds _ _ _ _ Hs). set_solver.
  - cbn. apply Forall_app. split; [apply Hs|by apply Forall_singleton].
Qed.
Lemma wp_sys c (Q : Z * Z -> st -> Prop) R s : Q (kernel c (kern s)).1 (set_kern (kernel c (kern s)).2 s) -> wp (sys c) Q R s.
Proof. unfold wp, sys. by destruct (kernel c (kern s)). Qed.
Lemma wp_on_rmem {A} (m : M (mem K) A) (Q : A -> st -> Prop) R s : Total m -> (forall a s', Q a s') -> wp (on_mem m) Q R s.
Proof. intros Hm HQ. unfold wp, on_mem. destruct (Hm (rmem s)) as (a & t & ->). apply HQ. Qed.
Lemma alloc_ok heapid flags size s : 0 <= size < 2147483648 -> ok s ->
  wp (rpcmem_alloc_internal heapid flags size)
    (fun r s' => ok s' /\ if r =? 0 then rpclst s' = rpclst s else exists size' fd, rpclst s' = rpclst s ++ [RpcInfo r size' fd])
    (fun _ _ => False) s.
Proof.
  intros Hsz Hs. unfold rpcmem_alloc_internal. do 2 wp_step. wp_step; [by apply wp_ret; split|]. apply orb_false_iff in H as [_ H]. apply Z.eqb_neq in H.
  repeat wp_step. apply wp_sys. destruct (calloc_quiet (kern s)) as [Hc1 Hc2].
  pose proof (rpc_ok_kern _ _ Hs Hc1 Hc2) as Hs1. set (s1 := set_kern _ s) in *. do 2 wp_step; [|by repeat wp_step; split]. do 2 wp_step.
  assert (Halloc : forall c, match c with DMA_HEAP_IOCTL_ALLOC _ _ | FASTRPC_IOCTL_ALLOC_DMA_BUFF _ _ => True | _ => False end ->
    wp (sys c) (fun r s2 => maps (kern s2) = maps (kern s1) /\ s2 = set_kern (kern s2) s1 /\ (if r.1 =? 0 then 0 <= r.2 /\ (r.2 ∉ open_fds (kern s1)) /\ open_fds (kern s2) = {[r.2]} ∪ open_fds (kern s1) else open_fds (kern s2) = open_fds (kern s1))) (fun _ _ => False) s1).
  { intros c Hc. apply wp_sys. destruct (kernel c (kern s1)) as [[r d] w] eqn:E. destruct (alloc_fds _ _ _ _ _ Hc E) as [Hm Hf]. split_and!; [done|done|]. done. }
  eapply wp_mono with (R := fun _ _ => False); [by destruct (negb (dmafd s =? -1)); apply Halloc| |done].
  intros [nErr fd] s2 (Hm & Hs2 & Hf). cbn [fst snd] in Hf. repeat wp_step.
  { cbn [fst snd]. replace (if nErr =? 0 then 0 else 0) with 0 by (by destruct (nErr =? 0)).
    rewrite Hs2. split; [|done]. destruct (nErr =? 0); [done|]. by apply rpc_ok_kern. }
  destruct (nErr =? 0); [|done]. destruct Hf as (Hfd & Hfn & Hfo).
  apply wp_sys. destruct (kernel (MMAP size fd) (kern s2)) as [[buf d] w] eqn:E. cbn [fst snd].
  destruct (mmap_maps _ _ _ _ _ _ E) as [Hop Hmm].
  assert (Hbp : 0 < buf) by (destruct (Z.eqb_spec buf MAP_FAILED) as [->|_]; [done|apply Hmm]).
  repeat wp_step; [|by destruct (Z.eqb_spec buf 0); [lia|]].
  assert (Hadd : ok (added (RpcInfo buf size fd) w (rmem s1) s1)).
  { apply rpc_ok_add; cbn [ri_buf ri_size ri_fd]; try done; [lia|by rewrite Hop|].
    rewrite <- Hm. destruct (buf =? MAP_FAILED); [done|]. destruct Hmm as (_ & _ & Hbn & Hbm & Hbo). split_and!; [done|done|]. apply Hbo. rewrite Hm. apply Hs1. }
  rewrite s32_small by lia. cbn [ri_size].
  set (s3 := set_rpclst _ _). unfold on_mem. unfold wp.
  pose proof (register_one (rmem s3) (RpcInfo buf size fd)) as Hr. cbn [ri_buf ri_size ri_fd] in Hr.
  assert (Hrm : rmem s3 = rmem s1) by (subst s3; cbn; by rewrite Hs2).
  rewrite Hr.
  - cbn. split.
    + replace (set_rmem _ s3) with (added (RpcInfo buf size fd) w (rmem s1) s1); [done|]. subst s3. rewrite Hs2. done.
    + rewrite (proj2 (Z.eqb_neq buf 0)) by lia. exists size, fd. by rewrite Hs2.
  - rewrite Hrm. apply Hready, Hs1.
  - done.
  - lia.
  - done.
  - rewrite Hrm, (ok_registered _ _ _ _ Hs1). apply Forall_fmap, Forall_forall. intros x Hx. cbn. intros <-. apply Hfn.
    rewrite (ok_fds _ _ _ _ Hs1). apply elem_of_union_r, elem_of_list_to_set. by apply list_elem_of_fmap_2.
Qed.
Lemma rpc_ok_remove s i x w : ok s -> rpclst s = take i (rpclst s) ++ x :: drop (S i) (rpclst s) ->
  open_fds w = open_fds (kern s) ∖ {[ri_fd x]} ->
  maps w = (if ri_buf x =? MAP_FAILED then maps (kern s) else delete (ri_buf x) (maps (kern s))) ->
  ok (set_kern w (set_rmem (set_fdlist (reg <$> delete i (rpclst s)) (rmem s)) (set_rpclst (delete i (rpclst s)) s))).
Proof.
  intros Hs Hl Hfd Hm. set (s' := set_kern _ _).
  assert (Hp : rpclst s ≡ₚ x :: rpclst s').
  { rewrite Hl at 1. cbn. rewrite delete_take_drop. by rewrite <- Permutation_middle. }
  assert (Hfds : rpc_fds s ≡ₚ ri_fd x :: rpc_fds s') by (unfold rpc_fds; by rewrite Hp).
  pose proof (rpc_maps_cons _ _ _ Hp) as Hmaps.
  pose proof (ok_fds_nodup _ _ _ _ Hs) as Hn1. rewrite Hfds in Hn1. apply NoDup_cons in Hn1 as [Hx1 Hn1].
  pose proof (ok_fds_disjoint _ _ _ _ Hs) as Hd. rewrite Hfds in Hd.
  assert (Hrest : NoDup (rpc_maps s').*1 /\ Forall (fun x => maps0 !! x.1 = None) (rpc_maps s') /\ maps w = list_to_map (rpc_maps s') ∪ maps0 /\ maps_ok (maps w)).
  { pose proof (ok_maps_nodup _ _ _ _ Hs) as Hn2. pose proof Hn2 as Hn3. pose proof (ok_maps_other _ _ _ _ Hs) as Ho. rewrite Hmaps in Hn2, Ho.
    rewrite Hm, (ok_maps _ _ _ _ Hs), (list_to_map_proper _ _ Hn3 Hmaps). pose proof (ok_ranges _ _ _ _ Hs) as Hr.
    rewrite (ok_maps _ _ _ _ Hs), (list_to_map_proper _ _ Hn3 Hmaps) in Hr. destruct (ri_buf x =? MAP_FAILED); [done|]. cbn in Hn2, Ho, Hr |- *.
    apply NoDup_cons in Hn2 as [Hx2 Hn2]. apply Forall_cons in Ho as [Hx0 Ho]. split_and!; [done|done| |].
    - rewrite delete_union, delete_insert_id by by apply not_elem_of_list_to_map_1. by rewrite (delete_id maps0).
    - intros a n Ha. apply lookup_delete_Some in Ha as [_ Ha]. destruct (Hr a n Ha) as (H1 & H2 & H3 & H4).
      split_and!; [done..|]. intros b k Hb. apply lookup_delete_Some in Hb as [_ Hb]. by apply H4. }
  destruct Hrest as (Hr1 & Hr2 & Hr3 & Hr4). split; try done.
  - apply Hs.
  - set_solver.
  - change (kern s') with w. rewrite Hfd, (ok_fds _ _ _ _ Hs), Hfds.
    assert (ri_fd x ∉ (list_to_set (rpc_fds s') : gset Z)) by (by rewrite elem_of_list_to_set). set_solver.
  - pose proof (ok_sizes _ _ _ _ Hs) as Hz. rewrite Hp in Hz. by apply Forall_cons in Hz as [_ Hz].
Qed.
Lemma free_ok po s : ok s -> wp (rpcmem_free_internal po)
    (fun _ s' => ok s' /\ (po ∈ ri_buf <$> rpclst s -> ri_buf <$> rpclst s ≡ₚ po :: (ri_buf <$> rpclst s'))) (fun _ _ => False) s.
Proof.
  intros Hs. unfold rpcmem_free_internal. repeat wp_step. destruct (find_buf po (rpclst s)) as [[i x]|] eqn:E.
  2:{ apply wp_ret. split; [done|]. apply find_buf_None in E. intros (x & -> & Hx)%list_elem_of_fmap. rewrite Forall_forall in E. by destruct (E x Hx). }
  apply find_buf_split in E as (Hpo & Hl & Hne). repeat wp_step. set (s1 := set_rpclst _ s).
  assert (Hx : x ∈ rpclst s) by (rewrite Hl; apply elem_of_app; right; apply elem_of_cons; by left).
  pose proof (ok_sizes _ _ _ _ Hs) as Hz. rewrite Forall_forall in Hz. destruct (Hz x Hx) as (Hb & Hsz & Hf).
  unfold wp, on_mem. change (rmem s1) with (rmem s).
  rewrite (deregister_one_at (rmem s) x (reg <$> take i (rpclst s)) (reg <$> drop (S i) (rpclst s))); [|apply Hready, Hs|done|done| |].
  2:{ rewrite (ok_registered _ _ _ _ Hs). rewrite Hl at 1. by rewrite fmap_app. }
  2:{ apply Forall_fmap. eapply Forall_impl; [exact Hne|]. intros y Hy. cbn. congruence. }
  rewrite <- fmap_app, <- delete_take_drop. set (s2 := set_rmem _ s1).
  change (wp (_ ← sys (MUNMAP (ri_buf x) (u64 (ri_size x))); _ ← sys (CLOSE (ri_fd x)); mret tt)
    (fun _ s' => ok s' /\ (po ∈ ri_buf <$> rpclst s -> ri_buf <$> rpclst s ≡ₚ po :: (ri_buf <$> rpclst s'))) (fun _ _ => False) s2).
  rewrite u64_small by lia. repeat wp_step. apply wp_sys. repeat wp_step. apply wp_sys. apply wp_ret.
  change (kern (set_kern ?w _)) with w. set (w1 := (kernel (MUNMAP _ _) _).2).
  assert (Hw1 : open_fds w1 = open_fds (kern s) /\ maps w1 = if ri_buf x =? MAP_FAILED then maps (kern s) else delete (ri_buf x) (maps (kern s))).
  { subst w1. change (kern s2) with (kern s). destruct (Z.eqb_spec (ri_buf x) MAP_FAILED) as [->|Hn]; [apply munmap_failed|].
    apply munmap_maps; [done|]. apply maps_other; [done|]. by apply rpc_maps_in. }
  destruct Hw1 as [Hf1 Hm1]. destruct (close_fds (ri_fd x) w1) as [Hf2 Hm2].
  split; [apply (rpc_ok_remove s i x _ Hs Hl); [by rewrite Hf2, Hf1|by rewrite Hm2, Hm1]|].
  intros _. change (rpclst (set_kern _ _)) with (delete i (rpclst s)). rewrite Hl at 1. rewrite delete_take_drop, !fmap_app. cbn. by rewrite Hpo, <- Permutation_middle.
Qed.

#[local] Instance sys_total c : Total (sys c).
Proof. intros s. unfold sys. destruct (kernel c (kern s)). by eexists _, _. Qed.
#[local] Instance on_mem_total {A} (m : M (mem K) A) : Total m -> Total (on_mem m).
Proof. intros Hm s. unfold on_mem. destruct (Hm (rmem s)) as (a & t & ->). by eexists _, _. Qed.
#[local] Instance rpcmem_free_total po : Total (rpcmem_free_internal po).
Proof. unfold rpcmem_free_internal. apply Total_bind; [apply _|]. intros l. destruct (find_buf po l) as [[i x]|]; apply _. Qed.
#[local] Instance rpc_step_total o : Total (rpc_step o).
Proof. destruct o as [heapid flags size|po|po]; cbn [rpc_step]; [unfold rpcmem_alloc_internal; apply _|apply _|unfold rpcmem_to_fd_internal; apply _]. Qed.
Lemma run_ok os s : Forall (fun o => match o with Alloc _ _ size => 0 <= size < 2147483648 | _ => True end) os -> ok s ->
  wp (rpc_run os) (fun _ => ok) (fun _ _ => False) s.
Proof.
  intros Hos. revert s. induction Hos as [|o os Ho _ IH]; intros s Hs; [by apply wp_ret|]. cbn [rpc_run]. wp_step.
  assert (Hstep : wp (rpc_step o) (fun _ => ok) (fun _ _ => False) s).
  { destruct o as [heapid flags size|po|po]; cbn [rpc_step]; [eapply wp_mono; [by apply alloc_ok|by intros r s' [Hs' _]|done]| |].
    - wp_step. eapply wp_mono; [by apply free_ok| |done]. intros a t [Ht _]. by apply wp_ret.
    - wp_step. unfold rpcmem_to_fd_internal. by repeat wp_step. }
  eapply wp_mono; [exact Hstep| |done]. intros r s' Hs'. wp_step. eapply wp_mono; [by apply IH| |done]. intros rs s2 Hs2. by apply wp_ret.
Qed.

Lemma between b buf size : 0 < buf -> 0 < size -> buf + size < MAP_FAILED -> 0 <= b < MAP_FAILED ->
  STD_BETWEEN b buf (u64 (buf + size)) = (buf <=? b) && (b <? buf + size).
Proof.
  intros Hb Hs Ht Hr. unfold STD_BETWEEN, MAP_FAILED in *. rewrite !(u64_small (buf + size)), (u64_small b), (u64_small buf) by lia.
  destruct (Z.leb_spec buf b) as [Hl|Hl]; cbn; [|done]. rewrite (u64_small (buf + size - buf)), (u64_small (b - buf)) by lia.
  apply eq_true_iff_eq. rewrite !Z.ltb_lt. lia.
Qed.
Lemma all_real (l : list rpc_info) : MAP_FAILED ∉ ri_buf <$> l -> filter (fun i => ri_buf i <> MAP_FAILED) l = l.
Proof.
  induction l as [|x l IH]; [done|]. intros Hn. apply not_elem_of_cons in Hn as [Hx Hn]. rewrite filter_cons, decide_True by congruence. by rewrite IH.
Qed.
(** Ranges inside a buffer are found in the list of registered buffers. *)
Lemma lookup_ok s i b len : ok s -> MAP_FAILED ∉ ri_buf <$> rpclst s -> i ∈ rpclst s -> ri_buf i <= b -> 0 < len -> b + len <= ri_buf i + ri_size i ->
  fdlist_fd_from_buf b len (rmem s) = (0, Some (ri_fd i, 0, ri_buf i, 0)).
Proof.
  intros Hs Hnf Hi Hlo Hlen Hhi. unfold fdlist_fd_from_buf. rewrite (ok_registered _ _ _ _ Hs).
  pose proof (ok_ranges _ _ _ _ Hs) as Hr.
  assert (Hm : forall x, x ∈ rpclst s -> maps (kern s) !! ri_buf x = Some (ri_size x)).
  { intros x Hx. apply maps_other; [done|]. apply rpc_maps_in; [done|]. intros E. apply Hnf. rewrite <- E. by apply list_elem_of_fmap_2. }
  pose proof (ok_maps_nodup _ _ _ _ Hs) as Hnd. rewrite rpc_maps_bufs, all_real in Hnd by done.
  pose proof (ok_sizes _ _ _ _ Hs) as Hz. clear Hs Hnf. unfold MAP_FAILED in *.
  destruct (Hr _ _ (Hm i Hi)) as (Hi1 & Hi2 & Hi3 & Hi4).
  induction (rpclst s) as [|x l IH]; [by apply not_elem_of_nil in Hi|]. cbn [fmap list_fmap] in *. apply NoDup_cons in Hnd as [Hx Hnd].
  apply Forall_cons in Hz as [Hzx Hz]. cbn [fd_from_buf]. change (tf_buf (reg x)) with (ri_buf x). change (tf_size (reg x)) with (ri_size x).
  destruct (Hr _ _ (Hm x ltac:(by left))) as (Hx1 & Hx2 & Hx3 & Hx4).
  unfold MAP_FAILED in *. rewrite (between b (ri_buf x) (ri_size x)) by (unfold MAP_FAILED; lia). apply elem_of_cons in Hi as [->|Hi].
  - rewrite (proj2 (Z.leb_le (ri_buf x) b)), (proj2 (Z.ltb_lt b (ri_buf x + ri_size x))) by lia. cbn [andb].
    rewrite (u64_small (b + len - 1)), between by (unfold MAP_FAILED in *; lia). rewrite (proj2 (Z.leb_le (ri_buf x) (b + len - 1))), (proj2 (Z.ltb_lt (b + len - 1) (ri_buf x + ri_size x))) by lia. cbn [andb]. change (tf_fd (reg x)) with (ri_fd x). change (tf_nova (reg x)) with 0. change (tf_attr (reg x)) with 0.
    by rewrite (proj2 (Z.eqb_neq _ _)) by lia.
  - assert (Hne : ri_buf i <> ri_buf x) by (intros E; apply Hx; rewrite <- E; by apply list_elem_of_fmap_2).
    destruct (Hi4 (ri_buf x) (ri_size x)) as [Hc|Hc]; [apply Hm; by left|done| |].
    + rewrite (proj2 (Z.leb_gt _ _)) by lia. cbn [andb]. apply IH; [done|intros y Hy; apply Hm; by right|done|done].
    + rewrite (proj2 (Z.ltb_ge b _)) by lia. rewrite andb_false_r. apply IH; [done|intros y Hy; apply Hm; by right|done|done].
Qed.
Lemma to_fd_ok s i : ok s -> i ∈ rpclst s -> ri_buf i <> MAP_FAILED -> rpcmem_to_fd (ri_buf i) s = (Go (ri_fd i), s).
Proof.
  intros Hs Hi Hn. unfold rpcmem_to_fd, rpcmem_to_fd_internal. munfold. pose proof (ok_maps_nodup _ _ _ _ Hs) as Hnd. rewrite rpc_maps_bufs in Hnd. clear Hs.
  assert (E : exists j, find_buf (ri_buf i) (rpclst s) = Some (j, i)); [|by destruct E as [j ->]].
  induction (rpclst s) as [|x l IH]; [by apply not_elem_of_nil in Hi|]. rewrite filter_cons in Hnd. cbn [find_buf].
  apply elem_of_cons in Hi as [->|Hi]; [exists O; by rewrite Z.eqb_refl|].
  destruct (Z.eqb_spec (ri_buf x) (ri_buf i)) as [E|_].
  - rewrite decide_True in Hnd by congruence. cbn in Hnd. apply NoDup_cons in Hnd as [Hx _]. destruct Hx. rewrite E. apply list_elem_of_fmap_2, list_elem_of_filter. by split.
  - destruct (IH Hi) as [j ->]; [|by exists (S j)]. case_decide; [|done]. by apply NoDup_cons in Hnd as [_ Hnd].
Qed.
End invariant.

(** C12: The buffers shared with the DSP. After any allocations and releases of sizes below 2 GiB,
    whatever allocations and mappings the kernel refuses, the descriptors of the process are those
    it had before and one for each buffer that is still in use, and its mappings are those it had
    before and one for each of these buffers whose [mmap] succeeded: nothing is lost by a refused
    allocation, a release or a second release. (The code does not recognise a failing [mmap]: the
    value of the failure is returned as the address of a buffer, which has a descriptor only and
    is given back like the others.) Every buffer with a mapping leads to its descriptor; and as
    long as no failed one is in use, each range inside a buffer is found with the buffer's own
    descriptor, so that an invocation passes the descriptor instead of copying. The library was
    initialised, and no buffer was in use at the start. *)
Theorem rpcmem_accounted `{HKL : !KernelLaws W} os s0 rs s :
  fastrpc_init_once (mses (rmem s0)) = (Go AEE_SUCCESS, mses (rmem s0)) ->
  rpclst s0 = [] -> fdlist (rmem s0) = [] -> maps_ok (maps (kern s0)) ->
  Forall (fun o => match o with Alloc _ _ size => 0 <= size < 2147483648 | _ => True end) os ->
  rpc_run os s0 = (Go rs, s) ->
  NoDup (rpc_fds s) /\ (list_to_set (rpc_fds s) ## open_fds (kern s0)) /\ open_fds (kern s) = open_fds (kern s0) ∪ list_to_set (rpc_fds s) /\
  NoDup (rpc_maps s).*1 /\ maps (kern s) = list_to_map (rpc_maps s) ∪ maps (kern s0) /\
  (forall i, i ∈ rpclst s -> ri_buf i <> MAP_FAILED -> rpcmem_to_fd (ri_buf i) s = (Go (ri_fd i), s)) /\
  (MAP_FAILED ∉ ri_buf <$> rpclst s -> forall i b len, i ∈ rpclst s -> ri_buf i <= b -> 0 < len -> b + len <= ri_buf i + ri_size i ->
      fdlist_fd_from_buf b len (rmem s) = (0, Some (ri_fd i, 0, ri_buf i, 0))).
Proof.
  intros Hinit Hl Hf Hmo Hos Hrun.
  assert (Hs0 : rpc_ok (eq (mses (rmem s0))) (open_fds (kern s0)) (maps (kern s0)) s0).
  { split; unfold rpc_fds, rpc_maps; rewrite ?Hl; cbn; try done; [apply NoDup_nil_2|by rewrite (right_id_L ∅ (∪))|apply NoDup_nil_2|by rewrite (left_id_L ∅ (∪))]. }
  pose proof (run_ok (eq (mses (rmem s0))) ltac:(by intros k <-) _ _ os s0 Hos Hs0) as Hs. unfold wp in Hs. rewrite Hrun in Hs.
  split_and!; [apply Hs|apply Hs|apply Hs|apply Hs|apply Hs| |]; intros; [by eapply to_fd_ok|by eapply lookup_ok].
Qed.
End rpcmem.

(** * The allocator on a concrete kernel *)
Module RpcmemEx.
#[local] Instance ex_pl : PlResult := 0.
Record kw := Kw { k_fds : gset Z; k_maps : gmap Z Z; k_next : Z; k_fd : Z }.
(** Addresses and descriptors are handed out in order. *)
Definition above (a : Z) (m : gmap Z Z) : bool := bool_decide (map_Forall (fun b k => b + k <= a /\ b < a) m).
Definition ex_call (c : kcall) (w : kw) : (Z * Z) * kw :=
  match c with
  | CALLOC => ((64, 0), w)
  | OPEN_HEAP => ((7, 0), w) | OPEN_NODE _ => ((-1, 0), w)
  | DMA_HEAP_IOCTL_ALLOC _ _ | FASTRPC_IOCTL_ALLOC_DMA_BUFF _ _ =>
    let d := k_fd w in
    if (0 <=? d) && bool_decide (d ∉ k_fds w) then ((0, d), Kw ({[d]} ∪ k_fds w) (k_maps w) (k_next w) (d + 1)) else ((-1, 0), w)
  | MMAP n _ =>
    let a := k_next w in
    if (0 <? a) && (0 <? n) && (a + n <? MAP_FAILED) && above a (k_maps w) then ((a, 0), Kw (k_fds w) (<[a := n]> (k_maps w)) (a + n) (k_fd w))
    else ((MAP_FAILED, 0), w)
  | MUNMAP a _ => if a =? MAP_FAILED then ((-1, 0), w) else ((0, 0), Kw (k_fds w) (delete a (k_maps w)) (k_next w) (k_fd w))
  | CLOSE d => ((0, 0), Kw (k_fds w ∖ {[d]}) (k_maps w) (k_next w) (k_fd w))
  end.
#[local] Instance ex_kernel : Kernel kw := {| kernel := ex_call; open_fds := k_fds; maps := k_maps |}.
#[local] Instance ex_laws : KernelLaws kw.
Proof.
  split.
  - intros c w r d w' Hc. destruct c; try done; cbn; destruct (Z.leb_spec 0 (k_fd w)); cbn; try (by intros [= <- <- <-]);
      case_bool_decide; intros [= <- <- <-]; done.
  - intros n fd w a d w'. cbn. destruct (_ && _) eqn:E; [|intros [= <- <- <-]; done].
    apply andb_true_iff in E as [E Ha]. apply andb_true_iff in E as [E Ht]. apply andb_true_iff in E as [Hp Hn].
    apply Z.ltb_lt in Hp, Hn, Ht. apply bool_decide_eq_true in Ha. intros [= <- <- <-]. split; [done|].
    destruct (Z.eqb_spec (k_next w) MAP_FAILED) as [E|_]; [lia|]. split; [done|]. split; [done|]. split.
    { destruct (k_maps w !! k_next w) as [k|] eqn:E; [|done]. destruct (Ha _ _ E). lia. }
    split; [done|]. cbn. intros Hok b k. rewrite lookup_insert_Some. intros [[<- <-]|[Hb Hk]].
    + split_and!; [done|done|done|]. intros c j. rewrite lookup_insert_Some. intros [[<- _]|[_ Hj]]; [done|]. intros _. right. by destruct (Ha _ _ Hj).
    + destruct (Hok b k Hk) as (H1 & H2 & H3 & H4). split_and!; [done..|]. intros c j. rewrite lookup_insert_Some. intros [[<- <-]|[_ Hj]] Hne; [|by apply H4].
      left. by destruct (Ha _ _ Hk).
  - intros a n w Ha. cbn. by rewrite (proj2 (Z.eqb_neq _ _) Ha).
  - done.
  - done.
  - done.
Qed.
Definition start : rpcmem (proc * unit) kw :=
  Rpcmem 7 (-1) [] (MemEx.state0 MemEx.ex_proc) (Kw {[0; 7]} {[ 4096 := 4096 ]} 65536 20).
Definition ops : list rpc_op := [Alloc 0 0 64; Alloc 0 0 4096; Free 65536; Free 65536; Alloc 0 0 0; Alloc 0 0 100].
Definition final : rpcmem (proc * unit) kw := (rpc_run MemEx.no_kernel ops start).2.
Lemma rpcmem_accounted_witness : rpc_fds final = [21; 22] /\
  fdlist_fd_from_buf 65700 10 (rmem final) = (0, Some (21, 0, 65600, 0)).
Proof.
  split; [vm_compute; reflexivity|].
  destruct (rpcmem_accounted MemEx.no_kernel ops start [65536; 65600; 65536; 65536; 0; 69696] final) as (_ & _ & _ & _ & _ & _ & Hall).
  - vm_compute. reflexivity.
  - reflexivity.
  - reflexivity.
  - change (maps (kern start)) with ({[ 4096 := 4096 ]} : gmap Z Z). intros a n Ha. apply lookup_singleton_Some in Ha as [<- <-]. unfold MAP_FAILED. split_and!; [lia..|].
    intros b k Hb. by apply lookup_singleton_Some in Hb as [<- <-].
  - repeat (apply Forall_cons; split; [try lia; done|]). by apply Forall_nil.
  - vm_compute. reflexivity.
  - apply (Hall ltac:(apply (bool_decide_unpack _); vm_compute; exact I) (RpcInfo 65600 4096 21)); cbn; [|lia..]. vm_compute. left.
Defined.

(** A failing [mmap] is not recognised: the buffer that is returned is at the address -1. *)
Definition no_room : rpcmem (proc * unit) kw := Rpcmem 7 (-1) [] (MemEx.state0 MemEx.ex_proc) (Kw {[0; 7]} ∅ (-4) 20).
Lemma mmap_failure_returned : (rpcmem_alloc MemEx.no_kernel 0 0 64 no_room).1 = Go MAP_FAILED.
Proof. vm_compute. reflexivity. Qed.
(** Tearing the allocator down closes the heap and leaves the list and the heap's descriptor as
    they are: the buffers stay mapped, and a second time closes a descriptor that may be another's. *)
Lemma deinit_keeps_buffers :
  let s := ((_ ← rpcmem_alloc MemEx.no_kernel 0 0 64; rpcmem_deinit) start).2 in
  length (rpclst s) = 1%nat /\ dmafd s = 7 /\ k_fds (kern s) = {[0; 20]} /\ k_maps (kern s) !! 65536 = Some 64.
Proof. vm_compute. done. Qed.
End RpcmemEx.
