(* ===== verification/DmaHandles.v ===== *)
(** The table of DMA handles of [src/fastrpc_mem.c]: registration with reference
    counts in a fixed array, and the window between its two critical sections.

    Each critical section under [fdlist.mut] is one definition. *)
From S2P Require Import Prelude Errors Mem.

(** ** Data *)
Record dma_handle_info := DmaHandle { dh_fd : Z; dh_len : Z; dh_used : Z; dh_attr : Z }.
Definition MAX_DMA_HANDLES : nat := 256.

Record dma := Dma { dhandles : list dma_handle_info; dma_handle_count : nat }.
Definition dma0 : dma := Dma (replicate MAX_DMA_HANDLES (DmaHandle 0 0 0 0)) 0.

Definition is_used (e : dma_handle_info) : bool := negb (dh_used e =? 0).
(** The entries the loops visit. *)
Definition in_scope (s : dma) : list dma_handle_info := take (dma_handle_count s) (dhandles s).

(** ** Operations *)

(** The first critical section: [fd_found]. *)
Definition reg_find (fd attr : Z) (s : dma) : bool * dma :=
  match find_pos (fun e => is_used e && (dh_fd e =? fd)) (in_scope s) with
  | Some i => (true, Dma (alter (fun e => DmaHandle (dh_fd e) (dh_len e) (s32 (dh_used e + 1))
                                            (if dh_attr e =? 0 then attr else dh_attr e)) i (dhandles s))
                         (dma_handle_count s))
  | None => (false, s)
  end.

(** The second one: the first free entry, or one more; and [nErr]. *)
Definition reg_add (fd len attr : Z) (s : dma) : Z * dma :=
  match find_pos (fun e => negb (is_used e)) (in_scope s) with
  | Some i => (AEE_SUCCESS, Dma (<[i := DmaHandle fd (s32 len) 1 attr]> (dhandles s)) (dma_handle_count s))
  | None =>
    if (MAX_DMA_HANDLES <=? dma_handle_count s)%nat then (AEE_EINVHANDLE, s)
    else (AEE_SUCCESS, Dma (<[dma_handle_count s := DmaHandle fd (s32 len) 1 attr]> (dhandles s)) (S (dma_handle_count s)))
  end.

(** [init]: what [fastrpc_init_once] returns. *)
Definition remote_register_dma_handle_attr (init fd len attr : Z) (s : dma) : Z * dma :=
  if negb (init =? AEE_SUCCESS) then (init, s)
  else if negb (attr =? 0) && negb (attr =? FASTRPC_ATTR_NOMAP) then (AEE_EBADPARM, s)
  else if negb (0 <=? fd) then (AEE_EBADPARM, s)
  else
    let '(fd_found, s) := reg_find fd attr s in
    if fd_found then (AEE_SUCCESS, s) else reg_add fd len attr s.

Definition remote_register_dma_handle (init fd len : Z) (s : dma) : Z * dma :=
  remote_register_dma_handle_attr init fd len 0 s.

(** The last used entry before entry [i], or 0. *)
Fixpoint last_used (i k : nat) (l : list dma_handle_info) (acc : nat) : nat :=
  match l with
  | [] => acc
  | e :: l => if (k =? i)%nat then acc else last_used i (S k) l (if is_used e then k else acc)
  end.

(** Result: [*len] and [*attr]. *)
Definition unregister_dma_handle (fd : Z) (s : dma) : (Z * Z) * dma :=
  match find_pos (fun e => is_used e && (dh_fd e =? fd)) (in_scope s) with
  | Some i =>
    let e := nth i (dhandles s) (DmaHandle 0 0 0 0) in
    let used := dh_used e - 1 in
    let l := alter (fun e => DmaHandle (dh_fd e) (dh_len e) used (dh_attr e)) i (dhandles s) in
    let n := if (S i =? dma_handle_count s)%nat && (used =? 0) then S (last_used i 0 (dhandles s) 0)
             else dma_handle_count s in
    ((u32 (dh_len e), dh_attr e), Dma l n)
  | None => ((0, 0), s)
  end.

(** ** The table as a map from descriptors *)

(** [fd] is registered, with entry [e]. *)
Definition registered (s : dma) (fd : Z) (e : dma_handle_info) : Prop :=
  exists i : nat, dhandles s !! i = Some e /\ is_used e = true /\ dh_fd e = fd.

Record dma_wf (s : dma) : Prop := {
  wf_length : length (dhandles s) = MAX_DMA_HANDLES;
  wf_count : (dma_handle_count s <= MAX_DMA_HANDLES)%nat;
  wf_used : forall i e, dhandles s !! i = Some e -> 0 <= dh_used e;
  wf_tail : forall i e, dhandles s !! i = Some e -> is_used e = true -> (i < dma_handle_count s)%nat;
  wf_unique : forall i j e e', dhandles s !! i = Some e -> dhandles s !! j = Some e' ->
    is_used e = true -> is_used e' = true -> dh_fd e = dh_fd e' -> i = j
}.

Lemma find_pos_before {A} (p : A -> bool) l i j x :
  find_pos p l = Some i -> (j < i)%nat -> l !! j = Some x -> p x = false.
Proof.
  revert i j; induction l as [|y l IH]; intros i j; cbn; [done|]. destruct (p y) eqn:E.
  - intros [= <-]. lia.
  - destruct (find_pos p l) as [k|]; [|done]. intros [= <-] Hj. destruct j as [|j]; cbn; [congruence|].
    apply IH with (i := k); [done|lia].
Qed.

Lemma in_scope_lookup s i e : in_scope s !! i = Some e -> dhandles s !! i = Some e /\ (i < dma_handle_count s)%nat.
Proof. unfold in_scope. by intros [? ?]%lookup_take_Some. Qed.

(** What the search of both functions finds. *)
Lemma find_fd s fd : dma_wf s ->
  match find_pos (fun e => is_used e && (dh_fd e =? fd)) (in_scope s) with
  | Some i => exists e, dhandles s !! i = Some e /\ (i < dma_handle_count s)%nat /\ is_used e = true /\ dh_fd e = fd
  | None => forall e, ~ registered s fd e
  end.
Proof.
  intros Hw. destruct (find_pos _ _) as [i|] eqn:E.
  - apply find_pos_Some in E as (e & He & [Hu Hf%Z.eqb_eq]%andb_true_iff). apply in_scope_lookup in He as [He Hi]. eauto 6.
  - apply find_pos_None in E. intros e (i & He & Hu & Hf). rewrite Forall_lookup in E.
    assert (Hi := wf_tail s Hw i e He Hu). specialize (E i e). rewrite Hu, (proj2 (Z.eqb_eq _ _) Hf) in E.
    discriminate E. unfold in_scope. by rewrite lookup_take_lt.
Qed.

Lemma alter_as_insert {A} (f : A -> A) (l : list A) i x : l !! i = Some x -> alter f i l = <[i := f x]> l.
Proof. revert i; induction l as [|y l IH]; intros [|i]; cbn; [done|done|by intros [= ->]|]. intros H. by rewrite <- IH. Qed.

Lemma insert_lookup_iff {A} (l : list A) i e e' j x :
  l !! i = Some e ->
  <[i := e']> l !! j = Some x <-> (j = i /\ x = e') \/ (j <> i /\ l !! j = Some x).
Proof.
  intros He. destruct (decide (j = i)) as [->|Hne].
  - rewrite list_lookup_insert_eq by by eapply lookup_lt_Some. split; [intros [= ->]; auto|].
    by intros [[_ ->]|[? _]].
  - rewrite list_lookup_insert_ne by done. split; [auto|]. by intros [[? _]|[_ ?]].
Qed.

(** Replacing the entry of a descriptor, or a free entry. *)
Section replace.
Context (s : dma) (i : nat) (e e' : dma_handle_info) (fd : Z) (n : nat).
Context (Hw : dma_wf s) (He : dhandles s !! i = Some e).
Context (Hfd : is_used e = true -> dh_fd e = fd) (Hfd' : is_used e' = true -> dh_fd e' = fd) (Hu : 0 <= dh_used e').
Context (Hother : forall j x, dhandles s !! j = Some x -> is_used x = true -> dh_fd x = fd -> j = i).
Context (Hn : (n <= MAX_DMA_HANDLES)%nat).
Context (Htail : forall j x, <[i := e']> (dhandles s) !! j = Some x -> is_used x = true -> (j < n)%nat).

Let s' := Dma (<[i := e']> (dhandles s)) n.

Lemma replace_wf : dma_wf s'.
Proof.
  destruct Hw as [H1 H2 H3 H4 H5]. split; cbn [s' dhandles dma_handle_count]; [by rewrite length_insert|done| |exact Htail|].
  - intros j x [[_ ->]|[_ Hj]]%(insert_lookup_iff _ _ _ _ _ _ He); [done|by eapply H3].
  - intros j k x y Hx%(insert_lookup_iff _ _ _ _ _ _ He) Hy%(insert_lookup_iff _ _ _ _ _ _ He) Ux Uy Hf.
    destruct Hx as [[-> ->]|[Nj Hx]], Hy as [[-> ->]|[Nk Hy]]; [done| | |by eapply H5].
    + destruct Nk. apply (Hother k y); [done|done|]. by rewrite <- Hf, Hfd'.
    + destruct Nj. apply (Hother j x); [done|done|]. by rewrite Hf, Hfd'.
Qed.

Lemma replace_registered f y :
  registered s' f y <-> (f = fd /\ y = e' /\ is_used e' = true) \/ (f <> fd /\ registered s f y).
Proof.
  unfold registered. cbn [s' dhandles]. split.
  - intros (j & [[-> ->]|[Nj Hj]]%(insert_lookup_iff _ _ _ _ _ _ He) & Uy & <-); [left; auto|].
    right. split; [|eauto]. intros E. destruct Nj. by apply (Hother j y).
  - intros [(-> & -> & Uy)|(Nf & j & Hj & Uy & <-)].
    + exists i. rewrite (insert_lookup_iff _ _ _ _ _ _ He). auto.
    + exists j. split; [|done]. rewrite (insert_lookup_iff _ _ _ _ _ _ He). right. split; [|done]. intros ->.
      destruct Nf. rewrite He in Hj. injection Hj as <-. by apply Hfd.
Qed.
End replace.

Lemma find_free s : dma_wf s ->
  match find_pos (fun e => negb (is_used e)) (in_scope s) with
  | Some i => exists e, dhandles s !! i = Some e /\ (i < dma_handle_count s)%nat /\ is_used e = false
  | None => forall i e, (i < dma_handle_count s)%nat -> dhandles s !! i = Some e -> is_used e = true
  end.
Proof.
  intros Hw. destruct (find_pos _ _) as [i|] eqn:E.
  - apply find_pos_Some in E as (e & He & Hu). apply in_scope_lookup in He as [He Hi]. apply negb_true_iff in Hu. eauto.
  - apply find_pos_None in E. rewrite Forall_lookup in E. intros i e Hi He. apply negb_false_iff, (E i).
    unfold in_scope. by rewrite lookup_take_lt.
Qed.

Definition bump (attr : Z) (e : dma_handle_info) : dma_handle_info :=
  DmaHandle (dh_fd e) (dh_len e) (dh_used e + 1) (if dh_attr e =? 0 then attr else dh_attr e).
Definition drop1 (e : dma_handle_info) : dma_handle_info :=
  DmaHandle (dh_fd e) (dh_len e) (dh_used e - 1) (dh_attr e).

Lemma reg_find_new s fd attr : dma_wf s -> (forall e, ~ registered s fd e) -> reg_find fd attr s = (false, s).
Proof.
  intros Hw Hn. unfold reg_find. pose proof (find_fd s fd Hw) as Hf. destruct (find_pos _ _) as [i|]; [|done].
  destruct Hf as (e & He & _ & Hu & Hfd). destruct (Hn e). by exists i.
Qed.

Lemma reg_find_known s fd attr e :
  dma_wf s -> registered s fd e -> dh_used e < INT_MAX ->
  exists s', reg_find fd attr s = (true, s') /\ dma_wf s' /\
  forall f y, registered s' f y <-> (f = fd /\ y = bump attr e) \/ (f <> fd /\ registered s f y).
Proof.
  intros Hw (k & Hk & Uk & Fk) Hmax. unfold INT_MAX in Hmax. unfold reg_find. pose proof (find_fd s fd Hw) as Hf.
  destruct (find_pos _ _) as [i|]; [|by destruct (Hf e); exists k].
  destruct Hf as (x & Hx & Hi & Ux & Fx). assert (i = k) as -> by (eapply (wf_unique s Hw); eauto; congruence).
  assert (x = e) as -> by congruence. assert (Hpos := wf_used s Hw k e Hk).
  rewrite (alter_as_insert _ _ _ _ Hk), s32_small by lia. fold (bump attr e).
  assert (Ub : is_used (bump attr e) = true) by (unfold is_used, bump; cbn; apply negb_true_iff, Z.eqb_neq; lia).
  eexists. split; [reflexivity|]. split.
  - eapply (replace_wf s k e _ fd); try done; cbn; [lia|intros j x Hj Uj Fj; eapply (wf_unique s Hw); eauto; congruence|apply Hw|].
    intros j x [[-> ->]|[Nj Hj]]%(insert_lookup_iff _ _ _ _ _ _ Hk) Uj; [done|]. by apply (wf_tail s Hw j x).
  - intros f y. rewrite (replace_registered s k e _ fd); try done; [tauto|].
    intros j x Hj Uj Fj; eapply (wf_unique s Hw); eauto; congruence.
Qed.

(** Adding a descriptor that is not registered. *)
Lemma reg_add_spec s fd len attr :
  dma_wf s -> (forall e, ~ registered s fd e) ->
  let e' := DmaHandle fd (s32 len) 1 attr in
  (exists s', reg_add fd len attr s = (AEE_SUCCESS, s') /\ dma_wf s' /\
     forall f y, registered s' f y <-> (f = fd /\ y = e') \/ (f <> fd /\ registered s f y)) \/
  (reg_add fd len attr s = (AEE_EINVHANDLE, s) /\ dma_handle_count s = MAX_DMA_HANDLES /\
     forall i e, dhandles s !! i = Some e -> is_used e = true).
Proof.
  intros Hw Hn e'. assert (Hother : forall i j x, dhandles s !! j = Some x -> is_used x = true -> dh_fd x = fd -> j = i).
  { intros i j x Hj Uj Fj. destruct (Hn x). by exists j. }
  unfold reg_add. pose proof (find_free s Hw) as Hf. destruct (find_pos _ _) as [i|].
  - left. destruct Hf as (e & He & Hi & Ue). eexists. split; [reflexivity|]. split.
    + eapply (replace_wf s i e e' fd); try done; [by apply Hother|apply Hw|].
      intros j x [[-> ->]|[Nj Hj]]%(insert_lookup_iff _ _ _ _ _ _ He) Uj; [done|]. by apply (wf_tail s Hw j x).
    + intros f y. etransitivity; [apply (replace_registered s i e e' fd); try done; [congruence|by apply Hother]|].
      change (is_used e' = true) with (true = true). tauto.
  - destruct (Nat.leb_spec MAX_DMA_HANDLES (dma_handle_count s)) as [Hc|Hc].
    + right. pose proof (wf_count s Hw). split; [done|]. split; [lia|]. intros i e He. apply (Hf i); [|done].
      apply lookup_lt_Some in He. rewrite (wf_length s Hw) in He. lia.
    + left. destruct (lookup_lt_is_Some_2 (dhandles s) (dma_handle_count s)) as [e He]; [by rewrite (wf_length s Hw)|].
      assert (Ue : is_used e = false).
      { apply not_true_is_false. intros Ue. pose proof (wf_tail s Hw _ _ He Ue). lia. }
      eexists. split; [reflexivity|]. split.
      * eapply (replace_wf s _ e e' fd); try done; [by apply Hother|].
        intros j x [[-> ->]|[Nj Hj]]%(insert_lookup_iff _ _ _ _ _ _ He) Uj; [lia|]. pose proof (wf_tail s Hw j x Hj Uj). lia.
      * intros f y. etransitivity; [eapply (replace_registered s _ e e' fd); try done; [congruence|by apply Hother]|].
        change (is_used e' = true) with (true = true). tauto.
Qed.

Lemma last_used_acc i l k acc : (acc <= k)%nat -> (acc <= last_used i k l acc)%nat.
Proof.
  revert k acc. induction l as [|x l IH]; intros k acc Ha; cbn [last_used]; [done|].
  destruct (k =? i)%nat; [done|]. specialize (IH (S k) (if is_used x then k else acc)). destruct (is_used x); lia.
Qed.
Lemma last_used_ge i l k acc j e :
  l !! j = Some e -> is_used e = true -> (j + k < i)%nat -> (j + k <= last_used i k l acc)%nat.
Proof.
  revert k acc j. induction l as [|x l IH]; intros k acc [|j]; cbn [last_used lookup list_lookup]; [done|done| |].
  - intros [= ->] Ue Hk. destruct (Nat.eqb_spec k i); [lia|]. rewrite Ue. by apply last_used_acc; lia.
  - intros Hj Ue Hk. destruct (Nat.eqb_spec k i); [lia|]. rewrite Nat.add_succ_comm in *. by apply IH.
Qed.
Lemma last_used_le i l k acc : (k <= i)%nat -> (acc <= i)%nat -> (last_used i k l acc <= i)%nat.
Proof.
  revert k acc. induction l as [|x l IH]; intros k acc Hk Ha; cbn [last_used]; [done|].
  destruct (Nat.eqb_spec k i); [done|]. apply IH; [lia|]. destruct (is_used x); lia.
Qed.

Definition attr_ok (attr : Z) : bool := (attr =? 0) || (attr =? FASTRPC_ATTR_NOMAP).

(** C36: Registration of DMA handles refines a reference-counted map: in every reachable
    table, registering a known descriptor adds one reference (and sets the attribute if
    it was 0) and touches nothing else, registering a new one adds exactly that entry
    with one reference, and it is refused only when the descriptor is new and all 256
    entries are in use; the table stays well-formed (one entry per descriptor). *)
Theorem register_refines_map s fd len attr :
  dma_wf s -> 0 <= fd -> attr_ok attr = true -> (forall e, registered s fd e -> dh_used e < INT_MAX) ->
  let r := remote_register_dma_handle_attr AEE_SUCCESS fd len attr s in
  dma_wf r.2 /\
  (forall e, registered s fd e -> r.1 = AEE_SUCCESS /\
     forall f y, registered r.2 f y <-> (f = fd /\ y = bump attr e) \/ (f <> fd /\ registered s f y)) /\
  ((forall e, ~ registered s fd e) ->
     (r.1 = AEE_SUCCESS /\ forall f y, registered r.2 f y <-> (f = fd /\ y = DmaHandle fd (s32 len) 1 attr) \/ (f <> fd /\ registered s f y)) \/
     (r.1 = AEE_EINVHANDLE /\ r.2 = s /\ forall i e, dhandles s !! i = Some e -> is_used e = true)).
Proof.
  intros Hw Hfd Hattr Hmax r.
  assert (E : r = let '(b, s') := reg_find fd attr s in if b then (AEE_SUCCESS, s') else reg_add fd len attr s').
  { unfold r, remote_register_dma_handle_attr. change (negb (AEE_SUCCESS =? AEE_SUCCESS)) with false.
    replace (negb (attr =? 0) && negb (attr =? FASTRPC_ATTR_NOMAP)) with (negb (attr_ok attr)) by (unfold attr_ok; by destruct (attr =? 0)).
    rewrite Hattr, (proj2 (Z.leb_le _ _) Hfd). done. }
  pose proof (find_fd s fd Hw) as Hf. destruct (find_pos _ _) as [i|].
  - destruct Hf as (e & He & _ & Ue & Fe). assert (Re : registered s fd e) by by exists i.
    destruct (reg_find_known s fd attr e Hw Re (Hmax e Re)) as (s' & E1 & Hw' & Hr). rewrite E1 in E. rewrite E. cbn [fst snd].
    split_and!; [done| |intros Hn; by destruct (Hn e)]. intros x (j & Hj & Uj & Fj). split; [done|].
    assert (j = i) as -> by (eapply (wf_unique s Hw); eauto; congruence). by assert (x = e) as -> by congruence.
  - rewrite (reg_find_new s fd attr Hw Hf) in E. rewrite E.
    destruct (reg_add_spec s fd len attr Hw Hf) as [(s' & E1 & Hw' & Hr)|(E1 & _ & Hall)]; rewrite E1; cbn [fst snd].
    + split_and!; [done|intros e He; by destruct (Hf e)|]. intros _. left. done.
    + split_and!; [done|intros e He; by destruct (Hf e)|]. intros _. right. done.
Qed.

(** Unregistering refines the same map: it reports the registered length and
    attribute, takes one reference, and the descriptor disappears exactly with the last
    one; no other descriptor changes, and the shrinking of the used part of the array
    never cuts off an entry in use. *)
Theorem unregister_refines_map s fd :
  dma_wf s ->
  let r := unregister_dma_handle fd s in
  dma_wf r.2 /\
  (forall e, registered s fd e -> r.1 = (u32 (dh_len e), dh_attr e) /\
     forall f y, registered r.2 f y <-> (f = fd /\ y = drop1 e /\ 1 < dh_used e) \/ (f <> fd /\ registered s f y)) /\
  ((forall e, ~ registered s fd e) -> r = ((0, 0), s)).
Proof.
  intros Hw r. unfold r, unregister_dma_handle. pose proof (find_fd s fd Hw) as Hf. destruct (find_pos _ _) as [i|].
  2: { split_and!; [done|intros e He; by destruct (Hf e)|done]. }
  destruct Hf as (e & He & Hi & Ue & Fe). assert (Hpos := wf_used s Hw i e He).
  assert (Hnz : dh_used e <> 0) by (by apply Z.eqb_neq, negb_true_iff).
  assert (Hother : forall j x, dhandles s !! j = Some x -> is_used x = true -> dh_fd x = fd -> j = i).
  { intros j x Hj Uj Fj. eapply (wf_unique s Hw); eauto. congruence. }
  rewrite (nth_lookup_Some _ _ _ _ He). rewrite (alter_as_insert _ _ _ _ He). fold (drop1 e).
  set (n := if (S i =? dma_handle_count s)%nat && (dh_used e - 1 =? 0) then _ else _).
  pose proof (wf_count s Hw) as Hc.
  assert (Hn : (n <= MAX_DMA_HANDLES)%nat).
  { unfold n. destruct (Nat.eqb_spec (S i) (dma_handle_count s)); cbn [andb]; [|done]. destruct (_ =? 0); [|done].
    pose proof (last_used_le i (dhandles s) 0 0). lia. }
  assert (Hu1 : is_used (drop1 e) = true <-> 1 < dh_used e).
  { unfold is_used, drop1. cbn. rewrite negb_true_iff, Z.eqb_neq. lia. }
  assert (Ht : forall j x, <[i := drop1 e]> (dhandles s) !! j = Some x -> is_used x = true -> (j < n)%nat).
  { intros j x Hj Uj. assert (Hjc : (j < dma_handle_count s)%nat /\ ((j < i)%nat -> dhandles s !! j = Some x) /\ (j = i -> 1 < dh_used e)).
    { apply (insert_lookup_iff _ _ _ _ _ _ He) in Hj as [[-> ->]|[Nj Hj]].
      - split_and!; [done|lia|]. intros _. by apply Hu1.
      - split_and!; [by apply (wf_tail s Hw j x)|done|lia]. }
    destruct Hjc as (H1 & H2 & H3). unfold n. destruct (Nat.eqb_spec (S i) (dma_handle_count s)); cbn [andb]; [|done].
    destruct (Z.eqb_spec (dh_used e - 1) 0); [|done]. assert (j < i)%nat by (destruct (decide (j = i)); [specialize (H3 ltac:(done)); lia|lia]).
    pose proof (last_used_ge i (dhandles s) 0 0 j x (H2 ltac:(done)) Uj). lia. }
  cbn [snd fst]. split_and!.
  - eapply (replace_wf s i e (drop1 e) fd); try done; [cbn; lia].
  - intros x (j & Hj & Uj & Fj). assert (j = i) as -> by by apply (Hother j x). assert (x = e) as -> by congruence.
    split; [done|]. intros f y. etransitivity; [eapply (replace_registered s i e (drop1 e) fd); done|].
    rewrite <- Hu1. tauto.
  - intros Hnone. destruct (Hnone e). by exists i.
Qed.

(** The entry an addition writes, when there is room. *)
Lemma reg_add_slot s fd len attr :
  length (dhandles s) = MAX_DMA_HANDLES -> (dma_handle_count s < MAX_DMA_HANDLES)%nat -> exists i x s',
  reg_add fd len attr s = (AEE_SUCCESS, s') /\ dhandles s !! i = Some x /\
  dhandles s' = <[i := DmaHandle fd (s32 len) 1 attr]> (dhandles s) /\
  (dma_handle_count s' <= S (dma_handle_count s))%nat /\ (i < dma_handle_count s')%nat /\
  ((i < dma_handle_count s)%nat -> is_used x = false).
Proof.
  intros Hl Hc. unfold reg_add. destruct (find_pos _ _) as [i|] eqn:E.
  - apply find_pos_Some in E as (e & He & Hu). apply in_scope_lookup in He as [He Hi]. apply negb_true_iff in Hu.
    eexists i, e, _. split_and!; [reflexivity|done|done|cbn; lia|done|done].
  - rewrite (proj2 (Nat.leb_gt _ _) Hc). destruct (lookup_lt_is_Some_2 (dhandles s) (dma_handle_count s)) as [e He]; [lia|].
    eexists _, e, _. split_and!; [reflexivity|done|done|done|cbn; lia|lia].
Qed.

(** The two critical sections of a registration are not atomic together: when two
    threads register the same new descriptor and both search before either adds, both
    succeed and the table holds the descriptor twice, so it is no longer a map from
    descriptors to reference counts. *)
Theorem register_race s fd len attr :
  dma_wf s -> (forall e, ~ registered s fd e) -> (S (dma_handle_count s) < MAX_DMA_HANDLES)%nat ->
  let a := reg_find fd attr s in
  let b := reg_find fd attr a.2 in
  let a' := reg_add fd len attr b.2 in
  let b' := reg_add fd len attr a'.2 in
  a.1 = false /\ b.1 = false /\ a'.1 = AEE_SUCCESS /\ b'.1 = AEE_SUCCESS /\
  exists i j e e', i <> j /\ dhandles b'.2 !! i = Some e /\ dhandles b'.2 !! j = Some e' /\
    is_used e = true /\ is_used e' = true /\ dh_fd e = fd /\ dh_fd e' = fd.
Proof.
  intros Hw Hn Hc a b a' b'. pose proof (reg_find_new s fd attr Hw Hn : a = (false, s)) as Ea.
  assert (Eb : b = (false, s)) by (unfold b; rewrite Ea; exact (reg_find_new s fd attr Hw Hn)).
  unfold b', a'. rewrite Ea, Eb. cbn [fst snd].
  destruct (reg_add_slot s fd len attr) as (i & x & s1 & E1 & _ & H1 & Hc1 & Hi & _); [apply Hw|lia|].
  rewrite E1. cbn [fst snd].
  destruct (reg_add_slot s1 fd len attr) as (j & y & s2 & E2 & Hy & H2 & _ & _ & Hu);
    [by rewrite H1, length_insert, (wf_length s Hw)|lia|].
  rewrite E2. cbn [fst snd]. assert (Hlen : (i < length (dhandles s))%nat) by (rewrite (wf_length s Hw); lia).
  assert (Hne : j <> i).
  { intros ->. specialize (Hu Hi). rewrite H1, list_lookup_insert_eq in Hy by done. injection Hy as <-. done. }
  split_and!; [done..|]. exists i, j, (DmaHandle fd (s32 len) 1 attr), (DmaHandle fd (s32 len) 1 attr).
  rewrite H2. split_and!; [done| | |done..].
  - by rewrite list_lookup_insert_ne, H1, list_lookup_insert_eq by done.
  - apply list_lookup_insert_eq. by eapply lookup_lt_Some.
Qed.

(** ** Concrete inputs *)
Module DmaEx.
Lemma dma0_unused i e : dhandles dma0 !! i = Some e -> is_used e = false.
Proof. intros H. apply lookup_replicate in H as [-> _]. done. Qed.
Lemma dma0_wf : dma_wf dma0.
Proof.
  split; [done|cbn; lia|intros i e [-> _]%lookup_replicate; done| |]; intros; by rewrite (dma0_unused i e) in *.
Qed.
Lemma dma0_none fd e : ~ registered dma0 fd e.
Proof. intros (i & H & U & _). by rewrite (dma0_unused i e) in U. Qed.

Lemma register_refines_map_witness : dma_wf (remote_register_dma_handle_attr AEE_SUCCESS 9 64 0 dma0).2.
Proof. apply (register_refines_map dma0 9 64 0 dma0_wf); [done|done|]. intros e H. by apply dma0_none in H. Defined.
Lemma unregister_refines_map_witness : unregister_dma_handle 9 dma0 = ((0, 0), dma0).
Proof. apply (unregister_refines_map dma0 9 dma0_wf). apply dma0_none. Defined.
Lemma register_race_witness : (reg_find 9 0 dma0).1 = false.
Proof. apply (register_race dma0 9 64 0 dma0_wf); [apply dma0_none|by apply Nat.ltb_lt]. Defined.
End DmaEx.
