(* ===== verification/Context.v ===== *)
(** Multi-domain contexts, [src/fastrpc_context.c]: the table of contexts, the
    validation of a context's domains, and creation and destruction over the session
    layer of [Session].

    The table is a [uthash] hash table keyed by the context id (a library vendored in
    [inc/uthash.h]); it is a list here, the last added first. Context ids come from the
    kernel, which does not give the same id to two live contexts. *)
From S2P Require Import Prelude Errors Domain Ioctl Session.

(** ** Data *)
Record fastrpc_context := FastrpcContext {
  cx_addr : Z;                       (* the address of the structure *)
  effec_domain_ids : list Z;         (* arrays of [num_domain_ids] entries *)
  domains : list Z;
  devs : list Z;
  ctxid : Z
}.
Definition num_domain_ids (c : fastrpc_context) : nat := length (effec_domain_ids c).

(** [fastrpc_context_table] over the process, and the contexts passed to [free]. *)
Record gctx := Gctx {
  cx_init : bool;
  table : list fastrpc_context;
  cx_freed : list Z;
  cx_proc : proc
}.

Record fastrpc_context_create := ContextCreate {
  cr_ids : option (list Z);          (* NULL, or an array *)
  cr_num : Z;                        (* [num_domain_ids] *)
  cr_flags : Z
}.

Definition set_table (l : list fastrpc_context) (s : gctx) : gctx := Gctx (cx_init s) l (cx_freed s) (cx_proc s).
Definition set_cxinit (b : bool) (s : gctx) : gctx := Gctx b (table s) (cx_freed s) (cx_proc s).
Definition set_cxfreed (l : list Z) (s : gctx) : gctx := Gctx (cx_init s) (table s) l (cx_proc s).
Definition set_cxproc (p : proc) (s : gctx) : gctx := Gctx (cx_init s) (table s) (cx_freed s) p.
Definition on_proc {A} (m : M proc A) : M gctx A := fun s => let '(r, p) := m (cx_proc s) in (r, set_cxproc p s).

(** ** The table *)
Definition fastrpc_context_add_to_table (c : fastrpc_context) : M gctx unit :=
  modify (fun s => set_table (c :: table s) s).

(** [HASH_DELETE] takes out the element itself. *)
Definition fastrpc_context_remove_from_table (c : fastrpc_context) : M gctx unit :=
  modify (fun s => set_table (filter (fun x => cx_addr x <> cx_addr c) (table s)) s).

Definition find_ctx (id : Z) (l : list fastrpc_context) : option fastrpc_context :=
  head (filter (fun c => ctxid c = id) l).
Definition fastrpc_context_validate (id : Z) (s : gctx) : option fastrpc_context := find_ctx id (table s).

(** ** Domains *)

(** The first loop: the ids stored before the first invalid one, and [multisess]. *)
Fixpoint store_domains (first : option Z) (ids : list Z) : Z * list Z * list Z * bool :=
  match ids with
  | [] => (AEE_SUCCESS, [], [], true)
  | id :: ids =>
    if negb (IS_VALID_EFFECTIVE_DOMAIN_ID id) then (AEE_EBADDOMAIN, [], [], true)
    else
      let d := GET_DOMAIN_FROM_EFFEC_DOMAIN_ID id in
      let f := default d first in
      let '(e, es, ds, multisess) := store_domains (Some f) ids in
      (e, id :: es, d :: ds, (d =? f) && multisess)
  end.

(** The second loop: [multidom]. *)
Fixpoint all_distinct (ds : list Z) : bool :=
  match ds with
  | [] => true
  | d :: ds => negb (existsb (fun x => x =? d) ds) && all_distinct ds
  end.

Definition pad (n : nat) (l : list Z) : list Z := l ++ replicate (n - length l) 0.

(** The code, and the context with its arrays filled (zero from [calloc] where unset). *)
Definition fastrpc_context_init_domains (ids : list Z) (c : fastrpc_context) : Z * fastrpc_context :=
  let '(e, es, ds, multisess) := store_domains None ids in
  let c := FastrpcContext (cx_addr c) (pad (length ids) es) (pad (length ids) ds) (devs c) (ctxid c) in
  if negb (e =? AEE_SUCCESS) then (e, c)
  else if multisess then (AEE_SUCCESS, c)
  else if all_distinct ds then (AEE_SUCCESS, c)
  else (AEE_EBADPARM, c).

(** ** Contexts *)
Fixpoint close_sessions (ids dvs : list Z) : M proc unit :=
  match ids, dvs with
  | id :: ids, dv :: dvs =>
    _ ← (if dv =? 0 then mret tt else fastrpc_session_close id INVALID_DEVICE);
    close_sessions ids dvs
  | _, _ => mret tt
  end.

Definition fastrpc_context_deinit (c : option fastrpc_context) : M gctx Z :=
  match c with
  | None => mret AEE_EBADCONTEXT
  | Some c =>
    _ ← on_proc (close_sessions (effec_domain_ids c) (devs c));
    _ ← modify (fun s => set_cxfreed (cx_addr c :: cx_freed s) s);
    mret 0
  end.

(** [addr]: the structure's [calloc]; [arrays]: whether those of its arrays succeed. On
    failure the structure has [num_domain_ids] 0, so [fastrpc_context_deinit] only
    frees it. *)
Definition fastrpc_context_init (addr : Z) (arrays : bool) (num : nat) : M gctx (option fastrpc_context) :=
  if addr =? 0 then (_ ← fastrpc_context_deinit None; mret None)
  else if negb arrays
  then (_ ← fastrpc_context_deinit (Some (FastrpcContext addr [] [] [] 0)); mret None)
  else mret (Some (FastrpcContext addr (replicate num 0) (replicate num 0) (replicate num 0) 0)).

Inductive mdctx_req := FASTRPC_MDCTX_SETUP (ctx_addr : Z) (domain_ids : list Z) | FASTRPC_MDCTX_REMOVE (ctxid : Z).

(** [ioctl_mdctx_manage] of [src/fastrpc_ioctl.c]: the code and [*ctx]. *)
Definition ioctl_mdctx_manage (dv : Z) (req : mdctx_req) : Z * Z := (AEE_EUNSUPPORTED, 0).

Section context.
(** The kernel's context manager; the descriptor [open_device_node] gives a domain. *)
Variable mdctx_manage : Z -> mdctx_req -> Z * Z.
Variable open_device_node : Z -> Z.

Definition set_devs (l : list Z) (c : fastrpc_context) : fastrpc_context :=
  FastrpcContext (cx_addr c) (effec_domain_ids c) (domains c) l (ctxid c).
Definition set_ctxid (id : Z) (c : fastrpc_context) : fastrpc_context :=
  FastrpcContext (cx_addr c) (effec_domain_ids c) (domains c) (devs c) id.

(** The session loop of [fastrpc_create_context], from entry [i]; the local is [ctx]. *)
Fixpoint open_sessions (i : nat) (ids : list Z) : M (gctx * option fastrpc_context) unit :=
  match ids with
  | [] => mret tt
  | id :: ids =>
    r ← lift (on_proc (fastrpc_session_open (open_device_node id) id));
    let '(e, dv) := r : Z * option Z in
    _ ← setl (fun c => (fun c => set_devs (from_option (fun v => <[i := v]> (devs c)) (devs c) dv) c) <$> c);
    _ ← VERIFY e (e =? AEE_SUCCESS);
    open_sessions (S i) ids
  end.

(** Result: the code and [create->ctx] when written. *)
Definition fastrpc_create_context (addr : Z) (arrays : bool) (create : fastrpc_context_create) : M gctx (Z * option Z) :=
  r ← with_locals None (
    i ← lift (gets cx_init);
    _ ← VERIFYC i AEE_ENOTINITIALIZED;
    match cr_ids create with
    | None => bail AEE_EBADPARM
    | Some ids =>
      _ ← VERIFYC (cr_flags create =? 0) AEE_EBADPARM;
      _ ← VERIFYC (negb (cr_num create =? 0) && (cr_num create <? NUM_DOMAINS_EXTEND)) AEE_EBADPARM;
      c ← lift (fastrpc_context_init addr arrays (Z.to_nat (cr_num create)));
      _ ← setl (fun _ => c);
      match c with
      | None => bail AEE_EBADCONTEXT
      | Some c =>
        let '(e, c) := fastrpc_context_init_domains (take (Z.to_nat (cr_num create)) ids) c in
        _ ← setl (fun _ => Some c);
        _ ← VERIFYC (e =? AEE_SUCCESS) AEE_EBADPARM;
        _ ← open_sessions 0 (effec_domain_ids c);
        p ← lift (gets cx_proc);
        let dv := get_device_fd (nth 0 (effec_domain_ids c) 0) p in
        _ ← VERIFYC (negb (dv =? -1)) AEE_EINVALIDDEVICE;
        let '(e, id) := mdctx_manage dv (FASTRPC_MDCTX_SETUP (cx_addr c) (domains c)) in
        _ ← VERIFY e (e =? AEE_SUCCESS);
        _ ← setl (fun c => set_ctxid id <$> c);
        c ← getl (fun c => c);
        from_option (fun c => lift (fastrpc_context_add_to_table c)) (mret tt) c
      end
    end);
  let '(nErr, c) := r : Z * option fastrpc_context in
  if negb (nErr =? 0) then (_ ← fastrpc_context_deinit c; mret (nErr, None))
  else mret (nErr, ctxid <$> c).

Definition fastrpc_destroy_context (id : Z) : M gctx Z :=
  to_bail (
    i ← gets cx_init;
    _ ← VERIFYC i AEE_ENOTINITIALIZED;
    c ← gets (fastrpc_context_validate id);
    match c with
    | None => bail AEE_EBADCONTEXT
    | Some c =>
      _ ← fastrpc_context_remove_from_table c;
      p ← gets cx_proc;
      let dv := get_device_fd (nth 0 (effec_domain_ids c) 0) p in
      _ ← VERIFYC (negb (dv =? -1)) AEE_EINVALIDDEVICE;
      let e := (mdctx_manage dv (FASTRPC_MDCTX_REMOVE (ctxid c))).1 in
      _ ← VERIFY e (e =? AEE_SUCCESS);
      VERIFY_CALL (fastrpc_context_deinit (Some c))
    end).

(** [ptrs]: whether the two output pointers are not NULL. *)
Definition fastrpc_context_get_domains (id : Z) (ptrs : bool) (s : gctx) : Z * option (list Z * nat) :=
  match fastrpc_context_validate id s with
  | None => (AEE_EBADCONTEXT, None)
  | Some c => if ptrs then (AEE_SUCCESS, Some (effec_domain_ids c, num_domain_ids c)) else (AEE_EMEMPTR, None)
  end.

Definition fastrpc_context_table_init : M gctx Z := _ ← modify (set_cxinit true); mret AEE_SUCCESS.

(** The contexts leave the list whose head is the local [table]; [gctx.table] is not
    written. *)
Definition fastrpc_context_table_deinit : M gctx Z :=
  i ← gets cx_init;
  if negb i then mret AEE_ENOTINITIALIZED
  else
    _ ← modify (set_cxinit false);
    l ← gets table;
    _ ← foldr (fun c k => _ ← fastrpc_context_deinit (Some c); k) (mret tt) (reverse l);
    mret AEE_SUCCESS.
End context.

(** ** Which sets of domains a context can have *)
Definition dom_of (id : Z) : Z := GET_DOMAIN_FROM_EFFEC_DOMAIN_ID id.

Lemma store_domains_valid first ids :
  Forall (fun id => IS_VALID_EFFECTIVE_DOMAIN_ID id = true) ids ->
  store_domains first ids =
    (AEE_SUCCESS, ids, dom_of <$> ids, forallb (fun d => d =? default (default 0 (head (dom_of <$> ids))) first) (dom_of <$> ids)).
Proof.
  intros H. revert first. induction H as [|id ids Hv _ IH]; intros first; [done|].
  cbn [store_domains]. rewrite Hv. cbn [negb]. rewrite IH. by destruct first.
Qed.
Lemma store_domains_invalid first ids :
  Exists (fun id => IS_VALID_EFFECTIVE_DOMAIN_ID id = false) ids -> (store_domains first ids).1.1.1 = AEE_EBADDOMAIN.
Proof.
  intros H. revert first. induction H as [id ids Hv|id ids _ IH]; intros first; cbn [store_domains]; [by rewrite Hv|].
  destruct (negb _); [done|]. specialize (IH (Some (default (GET_DOMAIN_FROM_EFFEC_DOMAIN_ID id) first))).
  by destruct (store_domains _ ids) as [[[e es] ds] b].
Qed.

Lemma all_distinct_NoDup ds : all_distinct ds = true <-> NoDup ds.
Proof.
  induction ds as [|d ds IH]; cbn; [split; [constructor|done]|].
  rewrite andb_true_iff, negb_true_iff, NoDup_cons, IH. f_equiv.
  rewrite <- not_true_iff_false, existsb_exists. apply not_iff_compat. split.
  - intros (x & Hx & ->%Z.eqb_eq). by apply list_elem_of_In.
  - intros Hd. exists d. by rewrite Z.eqb_refl, <- list_elem_of_In.
Qed.

Lemma same_domain_iff ds : forallb (fun d => d =? default 0 (head ds)) ds = true <-> forall x y, x ∈ ds -> y ∈ ds -> x = y.
Proof.
  rewrite forallb_forall. split.
  - intros H x y Hx%list_elem_of_In Hy%list_elem_of_In. apply H, Z.eqb_eq in Hx. apply H, Z.eqb_eq in Hy. congruence.
  - intros H x Hx. apply Z.eqb_eq. destruct ds as [|d ds]; [done|]. apply H; [by apply list_elem_of_In|left].
Qed.

Lemma pad_full n l : length l = n -> pad n l = l.
Proof. intros <-. unfold pad. by rewrite Nat.sub_diag, app_nil_r. Qed.

(** What a list of effective domain ids must be. *)
Definition good_ids (ids : list Z) : Prop :=
  Forall (fun id => IS_VALID_EFFECTIVE_DOMAIN_ID id = true) ids /\
  ((forall x y, x ∈ dom_of <$> ids -> y ∈ dom_of <$> ids -> x = y) \/ NoDup (dom_of <$> ids)).

Definition fill (ids : list Z) (c : fastrpc_context) : fastrpc_context :=
  FastrpcContext (cx_addr c) ids (dom_of <$> ids) (devs c) (ctxid c).

Lemma init_domains_good ids c : good_ids ids -> fastrpc_context_init_domains ids c = (AEE_SUCCESS, fill ids c).
Proof.
  intros [Hv Hd]. unfold fastrpc_context_init_domains. rewrite store_domains_valid by done.
  change (negb (AEE_SUCCESS =? AEE_SUCCESS)) with false. cbv iota.
  rewrite !pad_full by by rewrite ?length_fmap. cbn [default from_option].
  destruct (forallb _ _) eqn:E; [done|]. destruct Hd as [Hd|Hd]; [by rewrite (proj2 (same_domain_iff _) Hd) in E|].
  by rewrite (proj2 (all_distinct_NoDup _) Hd).
Qed.

(** The domains of a context: the request is accepted exactly when every effective
    id is valid and the ids are either sessions of one domain or on pairwise distinct
    domains; the context then holds the ids and their domains. An invalid id is reported
    as [AEE_EBADDOMAIN], a mixture of both kinds as [AEE_EBADPARM]. *)
Theorem context_domains ids c :
  ((fastrpc_context_init_domains ids c).1 = AEE_SUCCESS <-> good_ids ids) /\
  (good_ids ids -> (fastrpc_context_init_domains ids c).2 = fill ids c) /\
  ((fastrpc_context_init_domains ids c).1 = AEE_EBADDOMAIN <-> Exists (fun id => IS_VALID_EFFECTIVE_DOMAIN_ID id = false) ids) /\
  (fastrpc_context_init_domains ids c).1 ∈ [AEE_SUCCESS; AEE_EBADDOMAIN; AEE_EBADPARM].
Proof.
  destruct (decide (Forall (fun id => IS_VALID_EFFECTIVE_DOMAIN_ID id = true) ids)) as [Hv|Hv].
  - assert (Hx : ~ Exists (fun id => IS_VALID_EFFECTIVE_DOMAIN_ID id = false) ids).
    { rewrite Exists_exists, Forall_forall in *. intros (x & Hx & E). by rewrite Hv in E. }
    destruct (decide (all_distinct (dom_of <$> ids) = true \/
      forallb (fun d => d =? default 0 (head (dom_of <$> ids))) (dom_of <$> ids) = true)) as [Hd|Hd].
    + assert (Hg : good_ids ids).
      { split; [done|]. rewrite <- all_distinct_NoDup, <- same_domain_iff. tauto. }
      rewrite init_domains_good by done. cbn. split_and!; [done|done| |by rewrite !elem_of_cons; auto]. split; [done|tauto].
    + assert (Hg : ~ good_ids ids) by (intros [_ Hg]; rewrite <- all_distinct_NoDup, <- same_domain_iff in Hg; tauto).
      unfold fastrpc_context_init_domains. rewrite store_domains_valid by done. cbn [default from_option].
      change (negb (AEE_SUCCESS =? AEE_SUCCESS)) with false. cbv iota.
      destruct (forallb _ _); [tauto|]. destruct (all_distinct _); [tauto|]. cbn. split_and!; [|done| |by rewrite !elem_of_cons; auto]; split; done || tauto.
  - assert (Hx : Exists (fun id => IS_VALID_EFFECTIVE_DOMAIN_ID id = false) ids).
    { apply not_Forall_Exists in Hv; [|apply _]. eapply Exists_impl; [exact Hv|]. intros x Hx. by apply not_true_is_false. }
    assert (Hg : ~ good_ids ids) by (intros [Hg _]; done).
    pose proof (store_domains_invalid None ids Hx) as E. unfold fastrpc_context_init_domains.
    destruct (store_domains None ids) as [[[e es] ds] b]. cbn in E. subst e. cbn. split_and!; [|done| |by rewrite !elem_of_cons; auto]; split; done.
Qed.

(** ** Creation and destruction *)
Section lifecycle.
Context (mdctx_manage : Z -> mdctx_req -> Z * Z) (open_device_node : Z -> Z).

(** The descriptor [fastrpc_session_open] gives for a domain. *)
Definition dev_of (p : proc) (id : Z) : Z :=
  if IS_SESSION_OPEN_ALREADY id p then dev (hl p id) else open_device_node id.
Definition can_open (p : proc) (id : Z) : Prop := IS_SESSION_OPEN_ALREADY id p = true \/ 0 <= open_device_node id.

Lemma session_open_can p id : can_open p id -> fastrpc_session_open (open_device_node id) id p = (Go (0, Some (dev_of p id)), p).
Proof.
  unfold fastrpc_session_open, dev_of. munfold. destruct (IS_SESSION_OPEN_ALREADY id p) eqn:E; [done|].
  intros [?|H]; [congruence|]. by rewrite (proj2 (Z.leb_le _ _) H).
Qed.

Lemma open_sessions_can ids s c d0 :
  Forall (can_open (cx_proc s)) ids -> devs c = d0 ++ replicate (length ids) 0 ->
  open_sessions open_device_node (length d0) ids (s, Some c) =
    (Go tt, (s, Some (set_devs (d0 ++ (dev_of (cx_proc s) <$> ids)) c))).
Proof.
  intros H. revert c d0. induction H as [|id ids Hid _ IH]; intros c d0 Hc; cbn [open_sessions].
  - cbn in Hc. munfold. by destruct c; cbn in *; subst.
  - munfold. unfold on_proc. cbn [fst snd]. rewrite session_open_can by done. cbn [fst snd fmap option_fmap option_map from_option].
    change (0 =? AEE_SUCCESS) with true. cbv iota. replace (set_cxproc (cx_proc s) s) with s by by destruct s.
    specialize (IH (set_devs (<[length d0 := dev_of (cx_proc s) id]> (devs c)) c) (d0 ++ [dev_of (cx_proc s) id])).
    rewrite length_app, Nat.add_1_r in IH. unfold mbind, M_bind in IH. rewrite IH.
    + by rewrite <- app_assoc.
    + cbn. rewrite Hc, insert_app_r_alt, Nat.sub_diag by lia. by rewrite <- app_assoc.
Qed.

Lemma close_sessions_all ids dvs p :
  is_Some (hlist p) -> length dvs = length ids -> Forall (fun v => v <> 0) dvs -> exists p',
  close_sessions ids dvs p = (Go tt, p') /\ is_Some (hlist p') /\
  forall x, dev (hl p' x) = if decide (x ∈ ids) then -1 else dev (hl p x).
Proof.
  revert dvs p. induction ids as [|id ids IH]; intros [|v dvs] p Hs Hl Hnz; try done.
  { exists p. split_and!; [done|done|]. intros x. rewrite decide_False; [done|apply not_elem_of_nil]. }
  apply Forall_cons in Hnz as [Hv Hnz]. cbn [close_sessions]. rewrite (proj2 (Z.eqb_neq _ _) Hv).
  assert (H1 : exists p1, fastrpc_session_close id INVALID_DEVICE p = (Go tt, p1) /\ is_Some (hlist p1) /\
    forall x, dev (hl p1 x) = if decide (x = id) then -1 else dev (hl p x)).
  { unfold fastrpc_session_close. munfold. pose proof Hs as [h Hh]. rewrite Hh.
    change (negb (INVALID_DEVICE =? INVALID_DEVICE)) with false. rewrite andb_false_r.
    change (INVALID_DEVICE =? INVALID_DEVICE) with true. rewrite andb_true_r.
    destruct (Z.eqb_spec (dev (hl p id)) INVALID_DEVICE) as [E|E]; cbn [negb].
    - exists p. split_and!; [done|done|]. intros x. by destruct (decide (x = id)) as [->|].
    - eexists. split_and!; [reflexivity|by apply hlist_set|]. intros x. rewrite hl_set by done.
      change (hl (set_closed ?l p)) with (hl p). by destruct (decide (x = id)). }
  destruct H1 as (p1 & E1 & Hs1 & Hd1). destruct (IH dvs p1) as (p' & E & Hs' & Hd); [done|by injection Hl|done|].
  exists p'. unfold mbind, M_bind. rewrite E1. split_and!; [done|done|].
  intros x. rewrite Hd, Hd1. destruct (decide (x = id)) as [->|].
  - rewrite (decide_True _ _ (list_elem_of_here id ids)). by destruct (decide (id ∈ ids)).
  - destruct (decide (x ∈ ids)) as [Hx|Hx].
    + by rewrite decide_True by by apply list_elem_of_further.
    + by rewrite decide_False by by intros [?|?]%elem_of_cons.
Qed.

(** A well-formed request and a process in which it can be served. *)
Record request_ok (s : gctx) (addr : Z) (ids : list Z) : Prop := {
  rq_init : cx_init s = true;
  rq_addr : addr <> 0;
  rq_ids : good_ids ids;
  rq_num : (0 < length ids < 32)%nat;
  rq_hlist : is_Some (hlist (cx_proc s));
  rq_open : Forall (can_open (cx_proc s)) ids;
  rq_first : dev (hl (cx_proc s) (nth 0 ids 0)) <> -1
}.

Definition request (ids : list Z) : fastrpc_context_create := ContextCreate (Some ids) (Z.of_nat (length ids)) 0.
Definition built (p : proc) (addr : Z) (ids : list Z) : fastrpc_context :=
  FastrpcContext addr ids (dom_of <$> ids) (dev_of p <$> ids) 0.

Lemma device_first p id : is_Some (hlist p) -> dev (hl p id) <> -1 -> get_device_fd id p = dev (hl p id).
Proof. intros [h Hh] Hd. unfold get_device_fd. by rewrite Hh, (proj2 (Z.eqb_neq _ _) Hd). Qed.

(** Up to the kernel's answer. *)
Lemma create_to_setup s addr ids :
  request_ok s addr ids ->
  let c := built (cx_proc s) addr ids in
  let ans := mdctx_manage (dev (hl (cx_proc s) (nth 0 ids 0))) (FASTRPC_MDCTX_SETUP addr (dom_of <$> ids)) in
  fastrpc_create_context mdctx_manage open_device_node addr true (request ids) s =
    if ans.1 =? AEE_SUCCESS then (Go (0, Some ans.2), set_table (set_ctxid ans.2 c :: table s) s)
    else (_ ← fastrpc_context_deinit (Some c); mret (if ans.1 =? 0 then -1 else ans.1, None)) s.
Proof.
  intros [Hi Ha Hg Hn Hs Ho Hf] c ans. unfold fastrpc_create_context, request. cbn [cr_ids cr_flags cr_num].
  set (n := length ids) in *. munfold. cbn [fst snd]. rewrite Hi. change (0 =? 0) with true. cbv iota.
  rewrite (proj2 (Z.eqb_neq (Z.of_nat n) 0)) by lia. unfold NUM_DOMAINS_EXTEND, NUM_DOMAINS, NUM_SESSIONS.
  rewrite (proj2 (Z.ltb_lt (Z.of_nat n) _)) by lia. cbn [negb andb]. rewrite Nat2Z.id.
  unfold fastrpc_context_init. rewrite (proj2 (Z.eqb_neq addr 0)) by done. munfold. cbn [negb fst snd].
  rewrite take_ge by done. rewrite init_domains_good by done. change (AEE_SUCCESS =? AEE_SUCCESS) with true. cbv iota.
  unfold fill. cbn [cx_addr devs ctxid effec_domain_ids domains fst snd].
  pose proof (open_sessions_can ids s (FastrpcContext addr ids (dom_of <$> ids) (replicate n 0) 0) [] Ho eq_refl) as E.
  cbn [length] in E. rewrite E. cbn [app fst snd]. unfold set_devs. cbn [cx_addr effec_domain_ids domains ctxid].
  rewrite device_first by done. rewrite (proj2 (Z.eqb_neq _ _) Hf). cbn [negb]. fold ans.
  destruct ans as [e id]. cbn [fst snd]. destruct (Z.eqb_spec e AEE_SUCCESS) as [->|He]; cbn [fst snd].
  - done.
  - cbn [fst snd]. unfold AEE_SUCCESS in He. rewrite (proj2 (Z.eqb_neq _ _) He). cbv iota beta. by rewrite (proj2 (Z.eqb_neq _ _) He).
Qed.
Lemma find_ctx_other c l id : ctxid c <> id -> find_ctx id (c :: l) = find_ctx id l.
Proof. intros H. unfold find_ctx. by rewrite filter_cons_False. Qed.
Lemma find_ctx_none l id : Forall (fun c => ctxid c <> id) l -> find_ctx id l = None.
Proof.
  intros H. unfold find_ctx. induction H as [|c l Hc _ IH]; [done|]. by rewrite filter_cons_False.
Qed.
Lemma remove_new c l :
  Forall (fun x => cx_addr x <> cx_addr c) l -> filter (fun x => cx_addr x <> cx_addr c) (c :: l) = l.
Proof.
  intros H. rewrite filter_cons_False by tauto. induction H as [|x l Hx _ IH]; [done|].
  by rewrite filter_cons_True, IH.
Qed.

(** The context is in the table, and the kernel's id for it is new. *)
Definition fresh_ctx (s : gctx) (addr id : Z) : Prop :=
  Forall (fun c => ctxid c <> id /\ cx_addr c <> addr) (table s).

(** The life of a context: when the kernel accepts it, creation returns the
    kernel's id, from then on [fastrpc_context_get_domains] of that id gives the ids of
    the request, every other context is found as before, and the process (its
    sessions) is untouched; when the kernel accepts the removal, destruction succeeds,
    frees the structure once, and restores the table exactly, so the id is unknown
    again. *)
Theorem context_lifecycle s addr ids id :
  let first := dev (hl (cx_proc s) (nth 0 ids 0)) in
  request_ok s addr ids -> fresh_ctx s addr id ->
  Forall (fun i => dev_of (cx_proc s) i <> 0) ids ->
  mdctx_manage first (FASTRPC_MDCTX_SETUP addr (dom_of <$> ids)) = (AEE_SUCCESS, id) ->
  (mdctx_manage first (FASTRPC_MDCTX_REMOVE id)).1 = AEE_SUCCESS ->
  exists s1, fastrpc_create_context mdctx_manage open_device_node addr true (request ids) s = (Go (0, Some id), s1) /\
  fastrpc_context_get_domains id true s1 = (AEE_SUCCESS, Some (ids, length ids)) /\
  (forall x, x <> id -> fastrpc_context_validate x s1 = fastrpc_context_validate x s) /\
  cx_proc s1 = cx_proc s /\
  exists s2, fastrpc_destroy_context mdctx_manage id s1 = (Go AEE_SUCCESS, s2) /\
  table s2 = table s /\ cx_freed s2 = addr :: cx_freed s /\
  fastrpc_context_get_domains id true s2 = (AEE_EBADCONTEXT, None).
Proof.
  intros first Hr Hnew Hnz Hset Hrem. pose proof (create_to_setup s addr ids Hr) as E.
  destruct Hr as [Hi Ha Hg Hn Hs Ho Hf]. fold first in E. rewrite Hset in E.
  change ((AEE_SUCCESS, id).1 =? AEE_SUCCESS) with true in E. cbn [snd] in E.
  set (c := set_ctxid id (built (cx_proc s) addr ids)) in *.
  assert (Hfind : find_ctx id (c :: table s) = Some c).
  { unfold find_ctx. by rewrite filter_cons_True. }
  eexists. split; [exact E|]. split_and!.
  - unfold fastrpc_context_get_domains, fastrpc_context_validate. cbn [table set_table]. by rewrite Hfind.
  - intros x Hx. unfold fastrpc_context_validate. cbn [table set_table]. apply find_ctx_other. cbn. congruence.
  - done.
  - destruct (close_sessions_all ids (dev_of (cx_proc s) <$> ids) (cx_proc s)) as (p' & Ec & _); [done|by rewrite length_fmap|by apply Forall_fmap|].
    eexists. split.
    + unfold fastrpc_destroy_context, fastrpc_context_validate, fastrpc_context_remove_from_table. munfold.
      cbn [cx_init table set_table cx_proc fst snd]. rewrite Hi. cbn [table set_table]. rewrite Hfind. cbn [table set_table].
      rewrite remove_new by (eapply Forall_impl; [exact Hnew|]; by intros y [_ ?]).
      change (effec_domain_ids c) with ids. rewrite device_first by done. change (dev (hl (cx_proc (set_table (c :: table s) s)) (nth 0 ids 0))) with first. rewrite (proj2 (Z.eqb_neq first (-1)) Hf).
      change (ctxid c) with id. rewrite Hrem. cbn [negb]. change (AEE_SUCCESS =? AEE_SUCCESS) with true. cbv iota.
      unfold fastrpc_context_deinit. munfold. unfold on_proc. change (devs c) with (dev_of (cx_proc s) <$> ids).
      change (effec_domain_ids c) with ids. cbn [cx_proc set_table]. rewrite Ec. cbv iota beta. change (0 =? AEE_SUCCESS) with true. reflexivity.
    + split_and!; [done|done|]. unfold fastrpc_context_get_domains, fastrpc_context_validate. cbn [table set_table set_cxfreed set_cxproc].
      rewrite find_ctx_none; [done|]. eapply Forall_impl; [exact Hnew|]. by intros y [? _].
Qed.

(** A context closes sessions it does not own: when the kernel refuses the context
    (as [ioctl_mdctx_manage] of this repository always does), creation reports the
    kernel's error and adds nothing to the table, but the clean-up closes the device of
    every domain of the request, of sessions that were open before the call too, and
    marks those sessions closed. *)
Theorem refused_context_closes_sessions s addr ids :
  let ans := mdctx_manage (dev (hl (cx_proc s) (nth 0 ids 0))) (FASTRPC_MDCTX_SETUP addr (dom_of <$> ids)) in
  request_ok s addr ids -> Forall (fun i => 0 < dev (hl (cx_proc s) i)) ids -> ans.1 <> AEE_SUCCESS ->
  exists s1, fastrpc_create_context mdctx_manage open_device_node addr true (request ids) s = (Go (ans.1, None), s1) /\
  table s1 = table s /\ cx_freed s1 = addr :: cx_freed s /\
  forall x, dev (hl (cx_proc s1) x) = if decide (x ∈ ids) then INVALID_DEVICE else dev (hl (cx_proc s) x).
Proof.
  intros ans Hr Hpos Hno. pose proof (create_to_setup s addr ids Hr) as E.
  destruct Hr as [Hi Ha Hg Hn Hs Ho Hf]. cbv zeta in E. fold ans in E. rewrite (proj2 (Z.eqb_neq _ _) Hno) in E.
  destruct (close_sessions_all ids (dev_of (cx_proc s) <$> ids) (cx_proc s)) as (p' & Ec & _ & Hd); [done|by rewrite length_fmap| |].
  { apply Forall_fmap. eapply Forall_impl; [exact Hpos|]. intros i Hp. unfold compose, dev_of, IS_SESSION_OPEN_ALREADY.
    cbv beta in Hp. destruct (hlist (cx_proc s)); [|by destruct Hs].
    rewrite (proj2 (Z.eqb_neq (dev (hl (cx_proc s) i)) (-1))) by lia. cbn. lia. }
  unfold fastrpc_context_deinit in E. munfold. unfold on_proc in E. cbn [built devs effec_domain_ids] in E. rewrite Ec in E.
  unfold AEE_SUCCESS in Hno. rewrite (proj2 (Z.eqb_neq _ _) Hno) in E.
  eexists. split; [exact E|]. split_and!; [done|done|]. intros x. cbn [cx_proc set_cxfreed set_cxproc]. apply Hd.
Qed.
End lifecycle.

(** Tearing the table down twice frees every context twice: [table_deinit] frees all
    the contexts but leaves the table's head as it was (it empties a local copy), so
    after another [table_init] the freed contexts are still found, and the next
    [table_deinit] frees each of them again. *)
Theorem table_deinit_dangles s :
  cx_init s = true ->
  let s1 := (fastrpc_context_table_deinit s).2 in
  let s2 := (fastrpc_context_table_init s1).2 in
  (fastrpc_context_table_deinit s).1 = Go AEE_SUCCESS /\
  cx_freed s1 = (cx_addr <$> table s) ++ cx_freed s /\
  (forall id, fastrpc_context_validate id s2 = fastrpc_context_validate id s) /\
  cx_freed (fastrpc_context_table_deinit s2).2 = (cx_addr <$> table s) ++ (cx_addr <$> table s) ++ cx_freed s.
Proof.
  assert (Hc : forall ids dvs p, exists p', close_sessions ids dvs p = (Go tt, p')).
  { induction ids as [|id ids IH]; intros [|v dvs] p; try (by exists p). cbn [close_sessions].
    assert (Hp : exists p1, (if v =? 0 then mret tt else fastrpc_session_close id INVALID_DEVICE) p = (Go tt, p1)).
    { destruct (v =? 0); [by eexists|]. unfold fastrpc_session_close. munfold. destruct (hlist p); [|by eexists].
      repeat case_match; by eexists. }
    destruct Hp as [p1 E]. unfold mbind, M_bind. rewrite E. apply IH. }
  assert (Hl : forall l s, exists p', foldr (fun c k => _ ← fastrpc_context_deinit (Some c); k) (mret tt) l s =
      (Go tt, set_cxfreed (reverse (cx_addr <$> l) ++ cx_freed s) (set_cxproc p' s))).
  { induction l as [|c l IH]; intros s0; [exists (cx_proc s0); by destruct s0|]. cbn [foldr].
    destruct (Hc (effec_domain_ids c) (devs c) (cx_proc s0)) as [p1 E].
    assert (E1 : fastrpc_context_deinit (Some c) s0 = (Go 0, set_cxfreed (cx_addr c :: cx_freed s0) (set_cxproc p1 s0))).
    { unfold fastrpc_context_deinit, on_proc. munfold. by rewrite E. }
    unfold mbind at 1, M_bind at 1. rewrite E1. destruct (IH (set_cxfreed (cx_addr c :: cx_freed s0) (set_cxproc p1 s0))) as [p2 E2].
    exists p2. rewrite E2. rewrite fmap_cons, reverse_cons, <- app_assoc. done. }
  assert (Hd : forall s, cx_init s = true -> exists p', fastrpc_context_table_deinit s =
      (Go AEE_SUCCESS, Gctx false (table s) ((cx_addr <$> table s) ++ cx_freed s) p')).
  { intros s0 Hi. unfold fastrpc_context_table_deinit. destruct (Hl (reverse (table s0)) (set_cxinit false s0)) as [p' E].
    exists p'. munfold. rewrite Hi. cbn [negb table set_cxinit]. rewrite E. unfold set_cxfreed, set_cxproc. cbn.
    by rewrite fmap_reverse, reverse_involutive. }
  intros Hi s1 s2. destruct (Hd s Hi) as [p' E]. unfold s2, s1. rewrite E. split_and!; [done|done|done|].
  cbn [snd]. match goal with |- context [fastrpc_context_table_init ?x] => destruct (Hd (fastrpc_context_table_init x).2) as [p2 E2]; [done|] end.
  rewrite E2. done.
Qed.

(** ** Concrete inputs: domain 3 open on device 5, two of its sessions in a context *)
Module ContextEx.
Definition entry : handle_list := HandleList [] [] [] 0 0 0 0 FASTRPC_DOMAIN_STATE_INIT 0 5 0 0.
Definition ex_proc : proc := Proc (Some (<[3 := entry]> {[ 11 := entry ]})) true None [].
Definition other : fastrpc_context := FastrpcContext 50 [0] [0] [6] 900.
Definition state0 : gctx := Gctx true [other] [] ex_proc.
Definition accepts (_ : Z) (r : mdctx_req) : Z * Z := match r with FASTRPC_MDCTX_SETUP _ _ => (0, 901) | _ => (0, 0) end.

Lemma state0_request : request_ok (fun _ => -1) state0 60 [3; 11].
Proof.
  split; [done|done| |cbn; lia|by eexists|by repeat constructor|done].
  split; [by repeat constructor|]. left. intros x y. change (dom_of <$> [3; 11]) with [3; 3].
  rewrite !elem_of_cons, !elem_of_nil. intuition congruence.
Qed.

Lemma context_lifecycle_witness :
  exists s1, fastrpc_create_context accepts (fun _ => -1) 60 true (request [3; 11]) state0 = (Go (0, Some 901), s1) /\
    fastrpc_context_get_domains 901 true s1 = (AEE_SUCCESS, Some ([3; 11], 2%nat)).
Proof.
  destruct (context_lifecycle accepts (fun _ => -1) state0 60 [3; 11] 901) as (s1 & H1 & H2 & _);
    [exact state0_request|by repeat constructor|by repeat constructor|done|done|].
  exists s1. split; [exact H1|exact H2].
Defined.

Lemma refused_context_closes_sessions_witness :
  exists s1, fastrpc_create_context ioctl_mdctx_manage (fun _ => -1) 60 true (request [3; 11]) state0 = (Go (AEE_EUNSUPPORTED, None), s1) /\
    dev (hl (cx_proc s1) 3) = INVALID_DEVICE.
Proof.
  destruct (refused_context_closes_sessions ioctl_mdctx_manage (fun _ => -1) state0 60 [3; 11]) as (s1 & H1 & _ & _ & H2);
    [exact state0_request|by repeat constructor|done|].
  exists s1. split; [exact H1|exact (H2 3)].
Defined.

Lemma table_deinit_dangles_witness :
  cx_freed (fastrpc_context_table_deinit (fastrpc_context_table_init (fastrpc_context_table_deinit state0).2).2).2 = [50; 50].
Proof. apply (table_deinit_dangles state0). reflexivity. Defined.
End ContextEx.
