(* ===== verification/Cap.v ===== *)
(** Capabilities of a DSP, [src/fastrpc_cap.c]: the query of one attribute
    ([fastrpc_get_cap]), the presence of a DSP in the file system, the answers that are
    cached for the process, and [check_rpc_error] of [src/fastrpc_apps_user.c], which
    depends on one of them.

    The files are parameters: whether a path can be [stat]ed, and what opening it gives.
    The calls that open and close descriptors are the second result of the search. *)
From S2P Require Import Prelude Errors Domain Ioctl Session.
From stdpp Require Import pretty.
#[local] Open Scope Z_scope.

Definition DOMAIN_SUPPORT : Z := 0.
Definition ARCH_VER : Z := 6.
Definition STATUS_NOTIFICATION_SUPPORT : Z := 10.
Definition MAP_DMA_HANDLE_REVERSERPC : Z := 129.
Definition PROC_SHARED_BUFFER_SUPPORT : Z := 131.
Definition DRIVER_ERROR_CODE_CHANGE : Z := 257.
Definition USERSPACE_ALLOCATION_SUPPORT : Z := 258.
Definition STATUS_NOTIF_V2 : Z := 3.
Definition BUF_SIZE : nat := 50.

(** ** Data *)

(** The four [static] variables that cache an answer; -1 before the first. *)
Record caps := Caps { cap_notif : Z; cap_ualloc : Z; cap_sharedbuf : Z; cap_errcode : Z }.
Definition caps0 : caps := Caps (-1) (-1) (-1) (-1).

Record capst (W : Type) := CapSt { cp_caps : caps; cp_proc : proc; cp_world : W }.
Arguments CapSt {_}. Arguments cp_caps {_}. Arguments cp_proc {_}. Arguments cp_world {_}.

(** A file that opens: whether [fdopen] gives a stream, and its bytes. *)
Record sysfile := SysFile { sf_stream : bool; sf_bytes : list Z }.
Inductive fd_call := FD_OPEN (path : list Z) | FD_FCLOSE (path : list Z) | FD_CLOSE (path : list Z).

(** ** The presence of a DSP *)
Definition SUBSYSTEM_DEV_NAME (d : Z) : list Z :=
  nth (Z.to_nat d) [str "/dev/subsys_adsp"; []; str "/dev/subsys_slpi"; str "/dev/subsys_cdsp"; str "/dev/subsys_cdsp1";
    str "/dev/subsys_gdsp0"; str "/dev/subsys_gdsp1"] (str "reserved").
Definition RPROC_SUBSYSTEM_NAME (d : Z) : list Z :=
  nth (Z.to_nat d) [str "adsp"; str "mss"; str "spss"; str "cdsp"; str "cdsp1"; str "gdsp0"; str "gdsp1"; str "reserved"] [].

Definition dec (n : nat) : list Z := str (pretty (N.of_nat n)).

(** The name in a buffer of [BUF_SIZE] bytes. *)
Definition rproc_path (dir_index : nat) : list Z :=
  take (BUF_SIZE - 1) (take (BUF_SIZE - 1) (str "/sys/class/remoteproc/remoteproc" ++ dec dir_index) ++ str "/name").

(** [fgets] into the buffer, and the C string it leaves there. *)
Fixpoint first_line (n : nat) (s : list Z) : list Z :=
  match n, s with
  | S n, c :: s => if c =? 10 then [c] else c :: first_line n s
  | _, _ => []
  end.
Fixpoint c_string (s : list Z) : list Z :=
  match s with c :: s => if c =? 0 then [] else c :: c_string s | [] => [] end.
Definition fgets (s : list Z) : option (list Z) :=
  match s with [] => None | _ => Some (first_line (BUF_SIZE - 1) s) end.

Section cap.
Context {W : Type}.
Variable sys_ioctl : Z -> ioctl_req -> W -> io * W.
(** What opening the device node of a domain gives. *)
Variable open_device_node : Z -> Z.
Variables (stat_ok : list Z -> bool) (open_file : list Z -> option sysfile) (malloc_ok : bool).

Definition fastrpc_check_if_dsp_present_pil (domain : Z) : Z := if stat_ok (SUBSYSTEM_DEV_NAME domain) then 1 else 0.

(** Whether the stream's first line has the name. *)
Definition matches (search_string : list Z) (f : sysfile) : bool :=
  sf_stream f && match fgets (sf_bytes f) with
                 | None => false
                 | Some l => is_found (strstr (c_string l) search_string)
                 end.

(** The loop, from an index; [None] when the fuel ends before the first missing file. *)
Fixpoint rproc_loop (fuel : nat) (search_string : list Z) (dir_index : nat) : option Z * list fd_call :=
  match fuel with
  | O => (None, [])
  | S fuel =>
    let path := rproc_path dir_index in
    match open_file path with
    | None => (Some 0, [])
    | Some f =>
      if matches search_string f then (Some 1, [FD_OPEN path; FD_FCLOSE path])
      else
        let '(r, l) := rproc_loop fuel search_string (S dir_index) in
        (r, FD_OPEN path :: (if sf_stream f then [FD_FCLOSE path] else []) ++ FD_CLOSE path :: l)
    end
  end.

Definition fastrpc_check_if_dsp_present_rproc (fuel : nat) (domain : Z) : option Z * list fd_call :=
  if (domain <? ADSP_DOMAIN_ID) || (GDSP1_DOMAIN_ID <? domain) then (Some 0, [])
  else if negb malloc_ok then (Some 0, [])
  else rproc_loop fuel (RPROC_SUBSYSTEM_NAME domain) 0.

(** ** One attribute *)
Definition on_proc {A} (m : M proc A) : M (capst W) A := fun s =>
  let '(r, p) := m (cp_proc s) in (r, CapSt (cp_caps s) p (cp_world s)).
Definition on_kernel (c : W -> io * W) : M (capst W) io := fun s =>
  let '(r, w) := c (cp_world s) in (Go r, CapSt (cp_caps s) (cp_proc s) w).

(** The number of files [remoteproc0], [remoteproc1], ... that open, and one more. *)
Variable rproc_fuel : nat.

Definition domain_support (dom : Z) : Z :=
  let c := fastrpc_check_if_dsp_present_pil dom in
  if c =? 0 then default 0 (fastrpc_check_if_dsp_present_rproc rproc_fuel dom).1 else c.

(** The code and [*capability] when written. The locals are [dev] and [*capability]. *)
Definition fastrpc_get_cap (domain attributeID : Z) (ptr : bool) : M (capst W) (Z * option Z) :=
  let dom := GET_DOMAIN_FROM_EFFEC_DOMAIN_ID domain in
  r ← with_locals (-1, None) (
    _ ← VERIFYC (IS_VALID_EFFECTIVE_DOMAIN_ID domain) AEE_EBADPARM;
    _ ← VERIFYC ptr AEE_EBADPARM;
    _ ← VERIFYC (attributeID <? FASTRPC_MAX_ATTRIBUTES) AEE_EBADPARM;
    _ ← setl (fun l => (l.1, Some 0));
    if attributeID =? DOMAIN_SUPPORT then setl (fun l => (l.1, Some (domain_support dom)))
    else
      o ← lift (on_proc (fastrpc_session_open (open_device_node dom) dom));
      let '(nErr, dv) := o : Z * option Z in
      _ ← setl (fun l => (default l.1 dv, l.2));
      _ ← VERIFY nErr (nErr =? AEE_SUCCESS);
      dv ← getl (fun l => l.1);
      c ← lift (on_kernel (ioctl_getdspinfo sys_ioctl dv dom attributeID));
      _ ← setl (fun l => (l.1, Some (io_out c)));
      _ ← (if negb (io_ret c =? 0) then bail (io_ret c) else mret tt);
      if attributeID =? STATUS_NOTIFICATION_SUPPORT
      then setl (fun l => (l.1, (fun c => if c =? STATUS_NOTIF_V2 then 1 else 0) <$> l.2)) else mret tt);
  let '(nErr, (dv, capability)) := r : Z * (Z * option Z) in
  _ ← (if negb (dv =? -1) then on_proc (fastrpc_session_close dom dv) else mret tt);
  mret (nErr, capability).

(** ** Cached answers *)
Definition capability_or_0 (domain attribute : Z) : M (capst W) Z :=
  r ← fastrpc_get_cap domain attribute true;
  mret (if r.1 =? 0 then default 0 r.2 else 0).

Definition get_dsp_dma_reverse_rpc_map_capability (domain : Z) : M (capst W) Z := capability_or_0 (u32 domain) MAP_DMA_HANDLE_REVERSERPC.

Definition check_status_notif_version2_capability (domain : Z) : M (capst W) Z :=
  c ← capability_or_0 (GET_DOMAIN_FROM_EFFEC_DOMAIN_ID domain) STATUS_NOTIFICATION_SUPPORT; mret (s32 c).
Definition check_userspace_allocation_capability : M (capst W) Z :=
  c ← capability_or_0 DEFAULT_DOMAIN_ID USERSPACE_ALLOCATION_SUPPORT; mret (s32 c).

Definition set_caps (f : caps -> caps) : M (capst W) unit := modify (fun s => CapSt (f (cp_caps s)) (cp_proc s) (cp_world s)).
Definition set_notif (v : Z) (c : caps) : caps := Caps v (cap_ualloc c) (cap_sharedbuf c) (cap_errcode c).
Definition set_ualloc (v : Z) (c : caps) : caps := Caps (cap_notif c) v (cap_sharedbuf c) (cap_errcode c).
Definition set_sharedbuf (v : Z) (c : caps) : caps := Caps (cap_notif c) (cap_ualloc c) v (cap_errcode c).
Definition set_errcode (v : Z) (c : caps) : caps := Caps (cap_notif c) (cap_ualloc c) (cap_sharedbuf c) v.

Definition is_status_notif_version2_supported (domain : Z) : M (capst W) Z :=
  v ← gets (fun s => cap_notif (cp_caps s));
  _ ← (if v =? -1 then (c ← check_status_notif_version2_capability domain; set_caps (set_notif c)) else mret tt);
  gets (fun s => cap_notif (cp_caps s)).

Definition is_userspace_allocation_supported : M (capst W) Z :=
  v ← gets (fun s => cap_ualloc (cp_caps s));
  _ ← (if v =? -1 then (c ← check_userspace_allocation_capability; set_caps (set_ualloc c)) else mret tt);
  gets (fun s => cap_ualloc (cp_caps s)).

Definition is_proc_sharedbuf_supported_dsp (domain : Z) : M (capst W) Z :=
  v ← gets (fun s => cap_sharedbuf (cp_caps s));
  _ ← (if v =? -1 then
         r ← fastrpc_get_cap (u32 domain) PROC_SHARED_BUFFER_SUPPORT true;
         set_caps (set_sharedbuf (if r.1 =? AEE_SUCCESS then s32 (default 0 r.2) else 0))
       else mret tt);
  gets (fun s => cap_sharedbuf (cp_caps s)).

Definition check_error_code_change_present : M (capst W) Z :=
  v ← gets (fun s => cap_errcode (cp_caps s));
  _ ← (if v =? -1 then
         r ← fastrpc_get_cap DEFAULT_DOMAIN_ID DRIVER_ERROR_CODE_CHANGE true;
         if r.1 =? 0 then set_caps (set_errcode (s32 (default 0 r.2))) else mret tt
       else mret tt);
  gets (fun s => cap_errcode (cp_caps s)).

(** [check_rpc_error] with the query it makes. *)
Definition rpc_error_class (err : Z) : M (capst W) Z :=
  c ← check_error_code_change_present;
  mret (check_rpc_error (c =? 1) err).

(** ** What a query does to the sessions *)

(** The device a query opens: none for a session that is open, whose device is used. *)
Definition opened (domain attributeID : Z) (ptr : bool) (p : proc) : list Z :=
  let dom := GET_DOMAIN_FROM_EFFEC_DOMAIN_ID domain in
  if IS_VALID_EFFECTIVE_DOMAIN_ID domain && ptr && (attributeID <? FASTRPC_MAX_ATTRIBUTES) && negb (attributeID =? DOMAIN_SUPPORT)
     && negb (IS_SESSION_OPEN_ALREADY dom p) && (0 <=? open_device_node dom)
  then [open_device_node dom] else [].

Lemma session_open_cases nd d p :
  fastrpc_session_open nd d p = (Go (if IS_SESSION_OPEN_ALREADY d p then (0, Some (dev (hl p d)))
                                     else if 0 <=? nd then (0, Some nd) else (AEE_ECONNREFUSED, None)), p).
Proof. unfold fastrpc_session_open. munfold. destruct (IS_SESSION_OPEN_ALREADY d p); [done|]. by destruct (0 <=? nd). Qed.

(** Closing gives back a device that was opened for the query and no other. *)
Lemma session_close_temp d dv p : is_Some (hlist p) -> dv <> -1 ->
  fastrpc_session_close d dv p = (Go tt, if IS_SESSION_OPEN_ALREADY d p then p else set_closed (dv :: closed p) p).
Proof.
  intros [h Hh] Hdv. unfold fastrpc_session_close, IS_SESSION_OPEN_ALREADY, INVALID_DEVICE. munfold. rewrite Hh.
  rewrite (proj2 (Z.eqb_neq dv (-1))) by done. cbn [negb andb]. rewrite andb_false_r, andb_true_r.
  by destruct (dev (hl p d) =? -1).
Qed.

Lemma wp_on_proc {A} (m : M proc A) (Q : A -> capst W -> Prop) R s a p :
  m (cp_proc s) = (Go a, p) -> Q a (CapSt (cp_caps s) p (cp_world s)) -> wp (on_proc m) Q R s.
Proof. intros E HQ. eapply wp_call; [|exact HQ]. unfold on_proc. by rewrite E. Qed.

Lemma wp_on_kernel (c : W -> io * W) (Q : io -> capst W -> Prop) R s :
  (forall r w, Q r (CapSt (cp_caps s) (cp_proc s) w)) -> wp (on_kernel c) Q R s.
Proof. intros H. unfold wp, on_kernel. by destruct (c (cp_world s)). Qed.

Lemma get_cap_effect domain attributeID ptr s :
  is_Some (hlist (cp_proc s)) ->
  exists e c w, fastrpc_get_cap domain attributeID ptr s =
    (Go (e, c), CapSt (cp_caps s) (set_closed (opened domain attributeID ptr (cp_proc s) ++ closed (cp_proc s)) (cp_proc s)) w).
Proof.
  intros Hs. set (p := cp_proc s).
  assert (Hid : set_closed (closed p) p = p) by by destruct p.
  assert (Hw : wp (fastrpc_get_cap domain attributeID ptr) (fun _ t => cp_caps t = cp_caps s /\
    cp_proc t = set_closed (opened domain attributeID ptr p ++ closed p) p) (fun _ _ => False) s).
  { unfold fastrpc_get_cap. repeat wp_step; fold p; unfold opened.
    all: try match goal with H : _ = false |- _ => rewrite H; cbn [andb app]; by rewrite ?andb_false_r, ?Hid end.
    { rewrite H, H0, H1, H2. cbn. by rewrite Hid. }
    rewrite H, H0, H1, H2. cbn [andb negb].
    set (dom := GET_DOMAIN_FROM_EFFEC_DOMAIN_ID domain). eapply wp_on_proc; [apply session_open_cases|]. fold p.
    assert (Hclose : forall dv, dv <> -1 -> forall e c w, wp (_ ← (if negb (dv =? -1) then on_proc (fastrpc_session_close dom dv) else mret tt); mret (e, c))
      (fun (_ : Z * option Z) t => cp_caps t = cp_caps s /\ cp_proc t = if IS_SESSION_OPEN_ALREADY dom p then p else set_closed (dv :: closed p) p)
      (fun _ _ => False) (CapSt (cp_caps s) p w)).
    { intros dv Hdv e c w. rewrite (proj2 (Z.eqb_neq dv (-1))) by done. apply wp_bind. eapply wp_on_proc; [by apply session_close_temp|]. done. }
    destruct (IS_SESSION_OPEN_ALREADY dom p) eqn:Eo.
    - assert (Hdv : dev (hl p dom) <> -1).
      { unfold IS_SESSION_OPEN_ALREADY in Eo. destruct (hlist p); [|done]. by apply negb_true_iff, Z.eqb_neq in Eo. }
      cbn [negb andb app]. rewrite Hid. repeat wp_step; try done. apply wp_on_kernel. intros r w.
      repeat wp_step; by apply Hclose.
    - destruct (0 <=? open_device_node dom) eqn:En; cbn [negb andb app]; [|rewrite Hid; repeat wp_step; done].
      apply Z.leb_le in En. repeat wp_step; try done. apply wp_on_kernel. intros r w. repeat wp_step; apply Hclose; cbn; lia. }
  unfold wp in Hw. destruct (fastrpc_get_cap _ _ _ s) as [[[e c]|] [cc pp w]]; [|done]. cbn in Hw. destruct Hw as [-> ->]. by exists e, c, w.
Qed.

Lemma wp_on_kernel_eq (c : W -> io * W) (Q : io -> capst W -> Prop) R s r w :
  c (cp_world s) = (r, w) -> Q r (CapSt (cp_caps s) (cp_proc s) w) -> wp (on_kernel c) Q R s.
Proof. intros E HQ. unfold wp, on_kernel. by rewrite E. Qed.

(** The driver's own attributes are not asked of the kernel: their value is 0. *)
Lemma get_cap_driver domain attributeID ptr s e c s' :
  PERF_V2_DRIVER_SUPPORT <= attributeID < FASTRPC_MAX_ATTRIBUTES ->
  fastrpc_get_cap domain attributeID ptr s = (Go (e, c), s') -> e = 0 -> c = Some 0.
Proof.
  intros [Ha1 Ha2] E. unfold FASTRPC_MAX_ATTRIBUTES, PERF_V2_DRIVER_SUPPORT in *.
  enough (Hw : wp (fastrpc_get_cap domain attributeID ptr) (fun r _ => r.1 = 0 -> r.2 = Some 0) (fun _ _ => True) s).
  { unfold wp in Hw. rewrite E in Hw. exact Hw. }
  assert (Hclose : forall (e : Z) (c : option Z) dom dv s0, (e = 0 -> c = Some 0) ->
    wp (_ ← (if negb (dv =? -1) then on_proc (fastrpc_session_close dom dv) else mret tt); mret (e, c))
      (fun r _ => r.1 = 0 -> r.2 = Some 0) (fun _ _ => True) s0).
  { intros e0 c0 dom dv s0 H. apply wp_bind, wp_if; intros _; [|done].
    eapply (wp_mono _ (fun _ _ => True) _ (fun _ _ => True)); [unfold wp; by destruct (on_proc _ s0) as [[]]|done|done]. }
  unfold fastrpc_get_cap. repeat wp_step; try (by apply Hclose).
  { match goal with H : (attributeID =? _) = true |- _ => apply Z.eqb_eq in H; unfold DOMAIN_SUPPORT in H; lia end. }
  eapply wp_on_proc; [apply session_open_cases|].
  destruct (if IS_SESSION_OPEN_ALREADY _ _ then _ else _) as [e0 o]. cbn iota beta.
  repeat wp_step; try (by apply Hclose).
  all: try (apply Hclose; cbn; intros ->; done).
  eapply wp_on_kernel_eq.
  { unfold ioctl_getdspinfo. rewrite (proj2 (Z.leb_le _ _)), (proj2 (Z.ltb_lt _ _)) by (unfold FASTRPC_MAX_ATTRIBUTES, PERF_V2_DRIVER_SUPPORT; lia). reflexivity. }
  cbn [io_out io_ret]. repeat wp_step; try (by apply Hclose).
Qed.

(** The classes of error codes are never looked at: whether the kernel reports the new error
    codes is an attribute of the driver, and the query for it never reaches the driver. *)
Lemma error_class_0 err s :
  is_Some (hlist (cp_proc s)) -> cap_errcode (cp_caps s) = -1 \/ cap_errcode (cp_caps s) = 0 ->
  exists s', rpc_error_class err s = (Go 0, s') /\ (cap_errcode (cp_caps s') = -1 \/ cap_errcode (cp_caps s') = 0) /\
    hlist (cp_proc s') = hlist (cp_proc s).
Proof.
  intros Hs Hc.
  enough (Hw : wp (rpc_error_class err) (fun r t => r = 0 /\ (cap_errcode (cp_caps t) = -1 \/ cap_errcode (cp_caps t) = 0) /\
    hlist (cp_proc t) = hlist (cp_proc s)) (fun _ _ => False) s).
  { unfold wp in Hw. destruct (rpc_error_class err s) as [[r|] t]; [|done]. destruct Hw as [-> Hw]. by exists t. }
  destruct (get_cap_effect DEFAULT_DOMAIN_ID DRIVER_ERROR_CODE_CHANGE true s Hs) as (e & c & w & E).
  pose proof (get_cap_driver _ DRIVER_ERROR_CODE_CHANGE _ _ _ _ _
    ltac:(unfold PERF_V2_DRIVER_SUPPORT, FASTRPC_MAX_ATTRIBUTES, DRIVER_ERROR_CODE_CHANGE; lia) E) as Hv.
  unfold rpc_error_class, check_error_code_change_present. do 4 wp_step.
  destruct Hc as [Hc|Hc]; rewrite Hc.
  - change (-1 =? -1) with true. cbv iota. apply wp_bind. eapply wp_call; [exact E|]. cbn [fst snd]. destruct (Z.eqb_spec e 0) as [He|He].
    + rewrite (Hv He). unfold set_caps. do 3 wp_step. split_and!; [done|by right|done].
    + do 3 wp_step. cbn [cp_caps]. rewrite Hc. split_and!; [done|by left|done].
  - change (0 =? -1) with false. cbv iota. repeat wp_step. rewrite Hc. split_and!; [done|by right|done].
Qed.

(** A capability query leaves every session as it was: it uses the device of a session
    that is open, and closes the device it opens for a session that is not, on every path. The
    attributes of the driver are answered with 0 without asking it. Therefore the new error
    codes are never found to be supported and [check_rpc_error] accepts every code. *)
Theorem capability_queries domain attributeID ptr err s :
  is_Some (hlist (cp_proc s)) -> cap_errcode (cp_caps s) = -1 \/ cap_errcode (cp_caps s) = 0 ->
  (exists e c w, fastrpc_get_cap domain attributeID ptr s =
    (Go (e, c), CapSt (cp_caps s) (set_closed (opened domain attributeID ptr (cp_proc s) ++ closed (cp_proc s)) (cp_proc s)) w) /\
    (PERF_V2_DRIVER_SUPPORT <= attributeID < FASTRPC_MAX_ATTRIBUTES -> e = 0 -> c = Some 0)) /\
  exists s', rpc_error_class err s = (Go 0, s') /\ (cap_errcode (cp_caps s') = -1 \/ cap_errcode (cp_caps s') = 0).
Proof.
  intros Hs Hc. split.
  - destruct (get_cap_effect domain attributeID ptr s Hs) as (e & c & w & E). exists e, c, w. split; [done|].
    intros Ha. by eapply get_cap_driver.
  - destruct (error_class_0 err s Hs Hc) as (s' & E & Hc' & _). by exists s'.
Qed.
End cap.

Section presence.
Variables (open_file : list Z -> option sysfile) (malloc_ok : bool).

(** ** The search for a DSP *)

(** The first [i] files open and do not have the name. *)
Definition passed_over (search_string : list Z) (from i : nat) : Prop :=
  forall j, (from <= j < i)%nat -> exists f, open_file (rproc_path j) = Some f /\ matches search_string f = false.

Lemma rproc_loop_spec n search_string from fuel :
  (from <= n)%nat -> (n - from < fuel)%nat -> open_file (rproc_path n) = None ->
  exists r l, rproc_loop open_file fuel search_string from = (Some r, l) /\ (r = 0 \/ r = 1) /\
    (r = 1 <-> exists i f, (from <= i)%nat /\ passed_over search_string from i /\ open_file (rproc_path i) = Some f /\ matches search_string f = true).
Proof.
  intros Hn Hfuel Hno. revert from Hn Hfuel. induction fuel as [|fuel IH]; intros from Hn Hfuel; [lia|].
  cbn [rproc_loop]. destruct (open_file (rproc_path from)) as [f|] eqn:Ef.
  - destruct (matches search_string f) eqn:Em.
    + eexists _, _. split; [done|]. split; [by right|]. split; [intros _|done].
      exists from, f. split; [lia|]. split; [|done]. intros j Hj. lia.
    + assert (Hne : from <> n) by congruence. destruct (IH (S from)) as (r & l & E & Hr & Hi); [lia..|].
      rewrite E. eexists _, _. split; [done|]. split; [done|]. rewrite Hi. split.
      * intros (i & g & Hle & Hp & Hg). exists i, g. split; [lia|]. split; [|done]. intros j Hj.
        destruct (decide (j = from)) as [->|]; [by exists f|]. apply Hp. lia.
      * intros (i & g & Hle & Hp & Hg & Hm). exists i, g. assert (i <> from) by (intros ->; congruence).
        split; [lia|]. split; [|done]. intros j Hj. apply Hp. lia.
  - eexists _, _. split; [done|]. split; [by left|]. split; [done|]. intros (i & g & Hle & Hp & Hg & _).
    destruct (decide (i = from)) as [->|]; [congruence|]. destruct (Hp from) as (g' & Hg' & _); [lia|]. congruence.
Qed.

(** Every file that is opened and read without a match is closed twice: [fclose] has closed
    its descriptor when [close] is called. *)
Lemma rproc_closes fuel search_string from path f :
  open_file path = Some f -> FD_CLOSE path ∈ (rproc_loop open_file fuel search_string from).2 -> sf_stream f = true ->
  FD_FCLOSE path ∈ (rproc_loop open_file fuel search_string from).2.
Proof.
  intros Hf Hin Hst. revert from Hin. induction fuel as [|fuel IH]; intros from; cbn [rproc_loop]; [by intros ?%elem_of_nil|].
  destruct (open_file (rproc_path from)) as [g|] eqn:Eg; [|by intros ?%elem_of_nil]. destruct (matches search_string g).
  { cbn. intros [?|[?|?%elem_of_nil]%elem_of_cons]%elem_of_cons; done. }
  destruct (rproc_loop open_file fuel search_string (S from)) as [r l] eqn:E. cbn [snd].
  rewrite !elem_of_cons, !elem_of_app, !elem_of_cons. intros [H|[H|[[= ->]|H]]]; [done| | |].
  - destruct (sf_stream g); [by apply list_elem_of_singleton in H|by apply elem_of_nil in H].
  - assert (g = f) as -> by congruence. rewrite Hst. set_solver.
  - right. right. right. specialize (IH (S from)). rewrite E in IH. by apply IH.
Qed.

(** The search for a DSP among the remote processors ends at the first missing file and
    finds the first file whose first line contains the name of the DSP; more fuel changes
    nothing. Each file that it read in vain has its descriptor closed by [fclose] and again by
    [close]. *)
Theorem dsp_present n domain :
  open_file (rproc_path n) = None -> ADSP_DOMAIN_ID <= domain <= GDSP1_DOMAIN_ID -> malloc_ok = true ->
  exists r, (forall fuel, (n < fuel)%nat -> exists l, fastrpc_check_if_dsp_present_rproc open_file malloc_ok fuel domain = (Some r, l) /\
      forall path f, open_file path = Some f -> FD_CLOSE path ∈ l -> sf_stream f = true -> FD_FCLOSE path ∈ l) /\
    (r = 0 \/ r = 1) /\
    (r = 1 <-> exists i f, passed_over (RPROC_SUBSYSTEM_NAME domain) 0 i /\ open_file (rproc_path i) = Some f /\
       matches (RPROC_SUBSYSTEM_NAME domain) f = true).
Proof.
  intros Hno [Hd1 Hd2] Hm.
  assert (Hf : forall fuel, fastrpc_check_if_dsp_present_rproc open_file malloc_ok fuel domain = rproc_loop open_file fuel (RPROC_SUBSYSTEM_NAME domain) 0).
  { intros fuel. unfold fastrpc_check_if_dsp_present_rproc. rewrite Hm.
    by rewrite (proj2 (Z.ltb_ge domain ADSP_DOMAIN_ID)), (proj2 (Z.ltb_ge GDSP1_DOMAIN_ID domain)) by lia. }
  destruct (rproc_loop_spec n (RPROC_SUBSYSTEM_NAME domain) 0 (S n)) as (r & l0 & _ & Hr & Hi); [lia..|done|].
  exists r. split; [|split; [done|]].
  - intros fuel Hfuel. rewrite Hf. destruct (rproc_loop_spec n (RPROC_SUBSYSTEM_NAME domain) 0 fuel) as (r' & l & E & Hr' & Hi'); [lia..|done|].
    assert (r' = r) as ->. { destruct Hi, Hi'. destruct Hr as [->| ->], Hr' as [->| ->]; tauto || (exfalso; intuition lia). }
    exists l. split; [done|]. intros path f Hp Hin Hst. change l with (Some r, l).2. rewrite <- E. eapply rproc_closes; [done|by rewrite E|done].
  - rewrite Hi. split; intros (i & f & H); exists i, f; tauto || (split; [lia|done]).
Qed.
End presence.


(** ** A concrete system *)
Module CapEx.

(** [remoteproc0] is the audio DSP, [remoteproc1] the second compute DSP, and there is no
    other; the kernel answers 7. *)
Definition sys_ioctl (dv : Z) (r : ioctl_req) (w : nat) : io * nat := ({| io_ret := 0; io_out := 7; io_errno := 0 |}, S w).
Definition files (path : list Z) : option sysfile :=
  if decide (path = str "/sys/class/remoteproc/remoteproc0/name") then Some (SysFile true (str "adsp" ++ [10]))
  else if decide (path = str "/sys/class/remoteproc/remoteproc1/name") then Some (SysFile true (str "cdsp1" ++ [10]))
  else None.
Definition s0 : capst nat := CapSt caps0 (Proc (Some ∅) true None []) 0%nat.
Definition nodev (path : list Z) : bool := false.

(** Without a session the query opens device 30 and closes it. *)
Lemma capability_queries_witness :
  (exists e c w, fastrpc_get_cap sys_ioctl (fun _ => 30) nodev files true 2 3 ARCH_VER true s0 =
    (Go (e, c), CapSt caps0 (Proc (Some ∅) true None [30]) w)) /\
  exists s', rpc_error_class sys_ioctl (fun _ => 30) nodev files true 2 1234567 s0 = (Go 0, s').
Proof.
  destruct (capability_queries sys_ioctl (fun _ => 30) nodev files true 2 3 ARCH_VER true 1234567 s0) as [(e & c & w & E & _) (s' & E' & _)];
    [by eexists|by left|].
  split; [exists e, c, w; exact E|by exists s'].
Defined.

(** The name of [cdsp] is part of the name of [cdsp1]: it is found on a system without it. *)
Lemma dsp_present_witness :
  exists r, (forall fuel, (2 < fuel)%nat -> exists l, fastrpc_check_if_dsp_present_rproc files true fuel CDSP_DOMAIN_ID = (Some r, l)) /\ r = 1.
Proof.
  destruct (dsp_present files true 2 CDSP_DOMAIN_ID) as (r & Hf & _ & Hr); [by vm_compute|by vm_compute|done|].
  exists r. split; [intros fuel H; destruct (Hf fuel H) as (l & E & _); by exists l|].
  apply Hr. exists 1%nat, (SysFile true (str "cdsp1" ++ [10])). split; [|split; by vm_compute].
  intros j Hj. exists (SysFile true (str "adsp" ++ [10])). assert (j = 0%nat) as -> by lia. split; by vm_compute.
Defined.
End CapEx.
