(* ===== verification/Notif.v ===== *)
(** Status notifications, [src/fastrpc_notif.c]: the list of registered clients, the call
    of their functions, and the worker thread of each domain.

    The table of [inc/fastrpc_hash_table.h] is a map from the domain. What threads do is a
    trace: a thread is started, killed (by a signal) and joined; the results of
    [pthread_create], [sigaction] and [calloc] are parameters. *)
From S2P Require Import Prelude Errors Domain Session Ioctl.

(** ** Data *)
Record notif_config := NotifConfig { nc_thread : option Z; init_done : bool; deinit_started : bool }.
Definition config0 : notif_config := NotifConfig None false false.

Record notif_register := NotifRegister { nr_context : Z; nr_domain : Z; notifier_fn : Z }.

Inductive notif_event :=
  | STARTED (thread : Z) | KILLED (thread : Z) | JOINED (thread : Z)
  | NOTIFIED (fn context domain session status : Z).

(** [nt_freed]: the nodes of the list have been freed (and still are in it). *)
Record notif := Notif {
  nt_tbl : gmap Z notif_config;
  notif_list : list notif_register;
  nt_freed : bool;
  nt_events : list notif_event
}.
Definition notif0 : notif := Notif ∅ [] false [].

Definition set_config (domain : Z) (c : notif_config) (s : notif) : notif := Notif (<[domain := c]> (nt_tbl s)) (notif_list s) (nt_freed s) (nt_events s).
Definition set_list (l : list notif_register) (s : notif) : notif := Notif (nt_tbl s) l (nt_freed s) (nt_events s).
Definition add_event (e : notif_event) (s : notif) : notif := Notif (nt_tbl s) (notif_list s) (nt_freed s) (e :: nt_events s).

(** ** Registered clients *)
Definition fastrpc_notif_register (calloc : bool) (domain : Z) (r : notif_register) : M notif Z :=
  to_bail (
    _ ← VERIFYC (IS_VALID_EFFECTIVE_DOMAIN_ID domain) AEE_EBADPARM;
    _ ← VERIFYC calloc AEE_ENOMEMORY;
    modify (fun s => set_list (notif_list s ++ [r]) s)).

Fixpoint notify_each (l : list notif_register) (domain session status : Z) : M notif unit :=
  match l with
  | [] => mret tt
  | r :: l =>
    _ ← (if nr_domain r =? domain then modify (add_event (NOTIFIED (notifier_fn r) (nr_context r) domain session status)) else mret tt);
    notify_each l domain session status
  end.
Definition fastrpc_notify_status (domain session status : Z) : M notif Z :=
  l ← gets notif_list; _ ← notify_each l domain session status; mret AEE_SUCCESS.

Definition fastrpc_cleanup_notif_list : M notif unit :=
  modify (fun s => Notif (nt_tbl s) (notif_list s) (match notif_list s with [] => nt_freed s | _ => true end) (nt_events s)).

(** ** The worker thread *)
Definition ioctl_invoke2_notif (dv : Z) : Z * option (Z * Z * Z) := (AEE_EUNSUPPORTED, None).
Definition ioctl_control (dv req : Z) : Z := AEE_EUNSUPPORTED.
Definition DSPRPC_NOTIF_WAKE : Z := 12.

(** One turn; the second state component is the process, [en] is [errno]. The values [dom],
    [session] and [status] are -1 when the driver does not write them. *)
Definition get_remote_notif_response (en domain : Z) : M (notif * proc) Z :=
  to_bail (
    d ← getl (fastrpc_session_dev domain);
    _ ← VERIFY d.1 (d.1 =? AEE_SUCCESS);
    let '(nErr, out) := ioctl_invoke2_notif d.2 in
    _ ← (if negb (nErr =? 0) then bail (convert_kernel_to_user_error nErr en) else mret tt);
    let '(dom, session, status) := default (-1, -1, -1) out in
    _ ← lift (fastrpc_notify_status dom session status);
    mret tt).

(** [notif_fastrpc_thread]: turns until one fails, at most [fuel] of them. *)
Fixpoint notif_fastrpc_thread (fuel : nat) (en domain : Z) : M (notif * proc) (option Z) :=
  match fuel with
  | O => mret None
  | S fuel =>
    nErr ← get_remote_notif_response en domain;
    if negb (nErr =? 0) then mret (Some nErr) else notif_fastrpc_thread fuel en domain
  end.

Definition fastrpc_exit_notif_thread (domain : Z) (p : proc) : Z :=
  let d := fastrpc_session_dev domain p in
  if d.1 =? AEE_SUCCESS then ioctl_control d.2 DSPRPC_NOTIF_WAKE else d.1.

Definition fastrpc_notif_domain_deinit (domain : Z) : M (notif * proc) unit :=
  s ← get;
  match nt_tbl s.1 !! domain with
  | None => mret tt
  | Some me =>
    _ ← (match nc_thread me with
         | None => mret tt
         | Some t =>
           _ ← lift (modify (set_config domain (NotifConfig (Some t) (init_done me) true)));
           err ← getl (fastrpc_exit_notif_thread domain);
           _ ← (if negb (err =? 0) then lift (modify (add_event (KILLED t))) else mret tt);
           lift (modify (add_event (JOINED t)))
         end);
    lift (modify (set_config domain (NotifConfig None false (match nc_thread me with Some _ => true | None => deinit_started me end))))
  end.

Section init.
Variable pthread_create : notif -> Z + Z.   (* an error, or the new thread *)
Variables (sigaction : Z) (calloc : bool).

(** A domain with a node in the table. *)
Definition start_thread (domain : Z) : M (notif * proc) unit :=
  me ← lift (gets (fun s => default config0 (nt_tbl s !! domain)));
  if init_done me then mret tt
  else
    c ← lift (gets pthread_create);
    match c with
    | inl e =>
      _ ← lift (modify (set_config domain (NotifConfig None false (deinit_started me))));
      VERIFY e false
    | inr t =>
      _ ← lift (modify (fun s => add_event (STARTED t) (set_config domain (NotifConfig (Some t) false (deinit_started me)) s)));
      _ ← VERIFY sigaction (sigaction =? AEE_SUCCESS);
      lift (modify (set_config domain (NotifConfig (Some t) true false)))
    end.

Definition init_body (domain : Z) : M (notif * proc) unit :=
  s ← get;
  _ ← (match nt_tbl s.1 !! domain with
       | Some _ => mret tt
       | None => if calloc then lift (modify (set_config domain config0)) else bail AEE_ENOMEMORY
       end);
  start_thread domain.

Definition fastrpc_notif_domain_init (domain : Z) : M (notif * proc) Z :=
  nErr ← to_bail (init_body domain);
  _ ← (if negb (nErr =? AEE_SUCCESS) then fastrpc_notif_domain_deinit domain else mret tt);
  mret nErr.
End init.

Definition fastrpc_notif_init (s : notif) : notif := set_list [] s.
(** The table loses its nodes, with threads that were not joined. *)
Definition fastrpc_notif_deinit : M notif unit :=
  _ ← modify (fun s => Notif ∅ (notif_list s) (nt_freed s) (nt_events s));
  fastrpc_cleanup_notif_list.

(** ** Threads are joined once *)
Definition runs (c : notif_config) : bool := is_found (nc_thread c).
Definition running (s : notif) : nat := size (filter (fun kc : Z * notif_config => runs kc.2 = true) (nt_tbl s)).
Definition is_started (e : notif_event) : bool := match e with STARTED _ => true | _ => false end.
Definition is_joined (e : notif_event) : bool := match e with JOINED _ => true | _ => false end.
Definition started (s : notif) : nat := length (filter is_started (nt_events s)).
Definition joined (s : notif) : nat := length (filter is_joined (nt_events s)).

(** Every thread that was started has been joined, is in the table, or is one of the [lost]
    that were in a table that has been emptied; a domain is initialised exactly when it has a
    thread. *)
Section lost.
Context (lost : nat).
Record notif_ok (s : notif) : Prop := {
  no_count : started s = (joined s + running s + lost)%nat;
  no_done d c : nt_tbl s !! d = Some c -> init_done c = runs c
}.

Lemma running_set d c s :
  (running (set_config d c s) + from_option (fun c => Nat.b2n (runs c)) 0%nat (nt_tbl s !! d) = running s + Nat.b2n (runs c))%nat.
Proof.
  unfold running, set_config. cbn [nt_tbl].
  set (P := fun kc : Z * notif_config => runs kc.2 = true).
  assert (Hd : filter P (nt_tbl s) = from_option (fun c => if decide (P (d, c)) then <[d := c]> (filter P (delete d (nt_tbl s))) else filter P (delete d (nt_tbl s)))
      (filter P (nt_tbl s)) (nt_tbl s !! d)).
  { destruct (nt_tbl s !! d) as [c'|] eqn:E; [|done]. cbn [from_option]. rewrite <- (insert_delete_id (nt_tbl s) d c') at 1 by done.
    rewrite map_filter_insert. destruct (decide (P (d, c'))); [done|]. f_equal. apply delete_delete_eq. }
  assert (Hn : filter P (delete d (nt_tbl s)) !! d = None).
  { apply map_lookup_filter_None. left. apply lookup_delete_eq. }
  rewrite <- (insert_delete_eq (nt_tbl s) d c), map_filter_insert, delete_delete_eq.
  assert (Hsame : nt_tbl s !! d = None -> filter P (nt_tbl s) = filter P (delete d (nt_tbl s))).
  { intros E. by rewrite delete_id. }
  rewrite Hd. unfold P in *. cbn [snd] in *. destruct (nt_tbl s !! d) as [c'|] eqn:E; cbn [from_option].
  - destruct (decide (runs c = true)) as [Hc|Hc], (decide (runs c' = true)) as [Hc'|Hc'];
      rewrite ?map_size_insert_None by done; destruct (runs c), (runs c'); try done; cbn; lia.
  - rewrite Hsame by done. destruct (decide (runs c = true)) as [Hc|Hc]; rewrite ?map_size_insert_None by done; destruct (runs c); try done; cbn; lia.
Qed.

(** The same but for the flag of one domain. *)
Record notif_ok_but (d : Z) (s : notif) : Prop := {
  nb_count : started s = (joined s + running s + lost)%nat;
  nb_done d' c : d' <> d -> nt_tbl s !! d' = Some c -> init_done c = runs c
}.
Lemma ok_but d s : notif_ok s -> notif_ok_but d s.
Proof. intros [Hc Hd]. split; [done|]. intros. by eapply Hd. Qed.

(** A step that writes the configuration of one domain: threads started and joined on the
    way make up for the thread it had and the thread it has. *)
Lemma notif_but_move d c ev s t :
  notif_ok_but d s -> nt_tbl t = <[d := c]> (nt_tbl s) -> nt_events t = ev ++ nt_events s ->
  (length (filter is_started ev) + from_option (fun c => Nat.b2n (runs c)) 0 (nt_tbl s !! d) = length (filter is_joined ev) + Nat.b2n (runs c))%nat ->
  notif_ok_but d t.
Proof.
  intros [Hc Hd] Et Ee Hn. split.
  - assert (Er : running t = running (set_config d c s)) by (unfold running; by rewrite Et).
    pose proof (running_set d c s) as Hs. unfold started, joined in *. rewrite Ee, !filter_app, !length_app. lia.
  - intros d' c' Hne. rewrite Et. rewrite lookup_insert_ne by done. by apply Hd.
Qed.
Lemma notif_ok_move d c ev s t :
  notif_ok_but d s -> nt_tbl t = <[d := c]> (nt_tbl s) -> nt_events t = ev ++ nt_events s -> init_done c = runs c ->
  (length (filter is_started ev) + from_option (fun c => Nat.b2n (runs c)) 0 (nt_tbl s !! d) = length (filter is_joined ev) + Nat.b2n (runs c))%nat ->
  notif_ok t.
Proof.
  intros Hs Et Ee Hr Hn. destruct (notif_but_move d c ev s t Hs Et Ee Hn) as [Hc Hd]. split; [done|].
  intros d' c' E. destruct (decide (d' = d)) as [->|]; [|by eapply Hd]. rewrite Et, lookup_insert_eq in E. congruence.
Qed.

Definition stopped (d : Z) (s : notif) : Prop := from_option runs false (nt_tbl s !! d) = false.

(** [fastrpc_notif_domain_deinit] ends the thread of the domain. *)
Lemma notif_deinit_ok d s p : notif_ok_but d s ->
  wp (fastrpc_notif_domain_deinit d) (fun _ t => notif_ok t.1 /\ t.2 = p /\ stopped d t.1) (fun _ _ => False) (s, p).
Proof.
  intros Hok. unfold fastrpc_notif_domain_deinit. do 2 wp_step. cbn [fst]. destruct (nt_tbl s !! d) as [me|] eqn:E.
  2: { wp_step. split_and!; [|done|unfold stopped; cbn; by rewrite E]. destruct Hok as [Hc Hd]. split; [done|].
       intros d' c' E'. destruct (decide (d' = d)) as [->|]; [cbn in E'; congruence|by eapply Hd]. }
  assert (Hstop : forall c s, nc_thread c = None -> stopped d (set_config d c s)).
  { intros c s' Hc. unfold stopped, set_config. cbn. rewrite lookup_insert_eq. cbn. unfold runs. by rewrite Hc. }
  destruct (nc_thread me) as [t|] eqn:Et.
  - assert (Hme : runs me = true) by (unfold runs; by rewrite Et). repeat wp_step; (split_and!; [|done|by apply Hstop]).
    + eapply (notif_ok_move d _ [JOINED t; KILLED t]); [exact Hok|cbn; by rewrite insert_insert_eq|done|done|]. rewrite E. cbn. by rewrite Hme.
    + eapply (notif_ok_move d _ [JOINED t]); [exact Hok|cbn; by rewrite insert_insert_eq|done|done|]. rewrite E. cbn. by rewrite Hme.
  - repeat wp_step; (split_and!; [|done|by apply Hstop]). eapply (notif_ok_move d _ []); [exact Hok|done|done|done|].
    rewrite E. cbn. unfold runs. by rewrite Et.
Qed.

Section init.
Variable pthread_create : notif -> Z + Z.
Variables (sigaction : Z) (calloc : bool).

Definition init_post (d : Z) (p : proc) (e : Z) (t : notif * proc) : Prop :=
  notif_ok t.1 /\ t.2 = p /\ if e =? 0 then from_option runs false (nt_tbl t.1 !! d) = true else stopped d t.1.

Lemma init_failed d p e s : e <> 0 -> notif_ok_but d s ->
  wp (_ ← (if negb (e =? AEE_SUCCESS) then fastrpc_notif_domain_deinit d else mret tt); mret e) (init_post d p) (fun _ _ => False) (s, p).
Proof.
  intros He Hok. unfold AEE_SUCCESS, init_post. apply wp_bind. rewrite (proj2 (Z.eqb_neq e 0)) by done. cbn [negb].
  eapply wp_mono; [by apply notif_deinit_ok| |done]. intros u t Ht. apply wp_ret. cbn beta. by rewrite (proj2 (Z.eqb_neq e 0)).
Qed.

Lemma init_succeeded d p s : notif_ok s -> from_option runs false (nt_tbl s !! d) = true ->
  wp (_ ← (if negb (AEE_SUCCESS =? AEE_SUCCESS) then fastrpc_notif_domain_deinit d else mret tt); mret AEE_SUCCESS) (init_post d p) (fun _ _ => False) (s, p).
Proof. intros Hok Hr. done. Qed.

(** A thread that has been started is in the table although [sigaction] fails. *)
Lemma notif_init_ok d s p : notif_ok s ->
  wp (fastrpc_notif_domain_init pthread_create sigaction calloc d) (init_post d p) (fun _ _ => False) (s, p).
Proof.
  intros Hok. unfold fastrpc_notif_domain_init. do 2 wp_step. unfold init_body. do 2 wp_step. cbn [fst].
  assert (Hstart : forall s1, notif_ok s1 -> is_Some (nt_tbl s1 !! d) ->
     wp (start_thread pthread_create sigaction d) (fun _ t => wp (_ ← (if negb (AEE_SUCCESS =? AEE_SUCCESS) then fastrpc_notif_domain_deinit d else mret tt); mret AEE_SUCCESS) (init_post d p) (fun _ _ => False) t)
      (fun e t => wp (_ ← (if negb (e =? AEE_SUCCESS) then fastrpc_notif_domain_deinit d else mret tt); mret e) (init_post d p) (fun _ _ => False) t) (s1, p)).
  { intros s1 Hok1 [me E]. unfold start_thread. do 3 wp_step. rewrite E. cbn [default from_option]. pose proof (no_done _ Hok1 _ _ E) as Hme.
    apply wp_if; intros Hi; [|].
    { apply wp_ret, init_succeeded; [done|]. rewrite E. cbn. by rewrite <- Hme. }
    do 3 wp_step. assert (Hn : runs me = false) by by rewrite <- Hme. destruct (pthread_create s1) as [e|t].
    - do 4 wp_step; [done|]. apply init_failed; [destruct (Z.eqb_spec e 0); lia|].
      eapply (notif_but_move d _ []); [apply ok_but, Hok1|done|done|]. rewrite E. cbn. by rewrite Hn.
    - do 5 wp_step.
      + do 2 wp_step. apply init_succeeded; [|cbn; by rewrite lookup_insert_eq].
        eapply (notif_ok_move d _ [STARTED t]); [apply ok_but, Hok1|cbn; by rewrite insert_insert_eq|done|done|]. rewrite E. cbn. by rewrite Hn.
      + apply init_failed; [destruct (Z.eqb_spec sigaction 0); lia|].
        eapply (notif_but_move d _ [STARTED t]); [apply ok_but, Hok1|done|done|]. rewrite E. cbn. by rewrite Hn. }
  destruct (nt_tbl s !! d) as [me|] eqn:E; [apply Hstart; [done|by rewrite E]|]. destruct calloc.
  - do 3 wp_step. apply Hstart; [|cbn; by rewrite lookup_insert_eq]. eapply (notif_ok_move d _ []); [apply ok_but, Hok|done|done|done|]. by rewrite E.
  - apply wp_bail, init_failed; [done|by apply ok_but].
Qed.
End init.

End lost.

(** ** Sequences of operations

    [OpStart] and [OpExit] are the start of the library and its end. A client is only notified
    by a worker. *)
Inductive notif_op :=
  | OpStart
  | OpInit (domain : Z) (created : Z + Z) (sigaction : Z) (calloc : bool)
  | OpDeinit (domain : Z)
  | OpRegister (calloc : bool) (domain : Z) (r : notif_register)
  | OpWorker (fuel : nat) (en domain : Z)
  | OpExit.

(** The result is the number of threads whose node is dropped. *)
Definition notif_step (op : notif_op) : M (notif * proc) nat :=
  match op with
  | OpStart => _ ← lift (modify fastrpc_notif_init); mret 0%nat
  | OpInit d c sg al => _ ← fastrpc_notif_domain_init (fun _ => c) sg al d; mret 0%nat
  | OpDeinit d => _ ← fastrpc_notif_domain_deinit d; mret 0%nat
  | OpRegister al d r => _ ← lift (fastrpc_notif_register al d r); mret 0%nat
  | OpWorker fuel en d => _ ← notif_fastrpc_thread fuel en d; mret 0%nat
  | OpExit => n ← lift (gets running); _ ← lift fastrpc_notif_deinit; mret n
  end.
Fixpoint notif_run (ops : list notif_op) : M (notif * proc) nat :=
  match ops with [] => mret 0%nat | op :: ops => n ← notif_step op; m ← notif_run ops; mret (n + m)%nat end.

Lemma response_fails en d sp : exists e, e <> 0 /\ get_remote_notif_response en d sp = (Go e, sp).
Proof.
  unfold get_remote_notif_response, ioctl_invoke2_notif. munfold. destruct (Z.eqb_spec (fastrpc_session_dev d sp.2).1 AEE_SUCCESS) as [E|E].
  - by exists AEE_EUNSUPPORTED.
  - unfold AEE_SUCCESS in E. rewrite (proj2 (Z.eqb_neq _ 0)) by done. by eexists.
Qed.

(** The first turn of the worker is its last. *)
Lemma worker_gives_up fuel en d sp : exists e, e <> 0 /\ notif_fastrpc_thread (S fuel) en d sp = (Go (Some e), sp).
Proof.
  destruct (response_fails en d sp) as (e & He & E). exists e. split; [done|]. cbn [notif_fastrpc_thread]. unfold mbind, M_bind. rewrite E.
  by rewrite (proj2 (Z.eqb_neq e 0)).
Qed.

Lemma ok_same n s t : notif_ok n s -> nt_tbl t = nt_tbl s -> started t = started s -> joined t = joined s -> notif_ok n t.
Proof. intros [Hc Hd] Et Es Ej. split; [unfold running in *; by rewrite Es, Ej, Et|by rewrite Et]. Qed.

Lemma exit_ok n s : notif_ok n s -> notif_ok (running s + n) (fastrpc_notif_deinit s).2.
Proof.
  intros [Hc Hd]. split; [|by intros d c E].
  change (started s = (joined s + running (Notif ∅ [] false []) + (running s + n))%nat). unfold running at 1. cbn [nt_tbl].
  rewrite map_filter_empty, map_size_empty. lia.
Qed.

Lemma notif_step_ok op n s p : notif_ok n s -> wp (notif_step op) (fun m t => notif_ok (m + n) t.1) (fun _ _ => False) (s, p).
Proof.
  intros Hok. destruct op as [|d c sg al|d|al d r|fuel en d|]; cbn [notif_step].
  - repeat wp_step. by eapply ok_same.
  - apply wp_bind. eapply wp_mono; [by apply notif_init_ok| |done]. intros e t Ht. apply wp_ret, Ht.
  - apply wp_bind. eapply wp_mono; [by apply notif_deinit_ok, ok_but| |done]. intros e t Ht. apply wp_ret, Ht.
  - unfold fastrpc_notif_register. repeat wp_step; by eapply ok_same.
  - apply wp_bind. destruct fuel as [|fuel]; [done|]. destruct (worker_gives_up fuel en d (s, p)) as (e & _ & E). eapply wp_call; [exact E|]. done.
  - do 4 wp_step. eapply wp_call; [unfold lift; cbn [fst snd]; reflexivity|]. apply wp_ret. by apply exit_ok.
Qed.

Lemma notif_run_ok ops n s p : notif_ok n s -> wp (notif_run ops) (fun m t => notif_ok (m + n) t.1) (fun _ _ => False) (s, p).
Proof.
  revert n s p. induction ops as [|op ops IH]; intros n s p Hok; [done|]. cbn [notif_run]. apply wp_bind.
  eapply wp_mono; [by apply notif_step_ok| |done]. intros m [s1 p1] Hs. apply wp_bind. eapply wp_mono; [by apply IH| |done].
  intros m' t Ht. apply wp_ret. by replace (m + m' + n)%nat with (m' + (m + n))%nat by lia.
Qed.

(** No client has been called. *)
Definition quiet (s : notif) : Prop := Forall (fun e => match e with NOTIFIED _ _ _ _ _ => False | _ => True end) (nt_events s).
Lemma quiet_event e s : match e with NOTIFIED _ _ _ _ _ => False | _ => True end -> quiet s -> quiet (add_event e s).
Proof. intros He Hs. by constructor. Qed.
Lemma quiet_worker fuel en d : preserves (fun sp : notif * proc => quiet sp.1) (notif_fastrpc_thread fuel en d).
Proof. intros sp Hs. destruct fuel as [|fuel]; [done|]. by destruct (worker_gives_up fuel en d sp) as (e & _ & ->). Qed.
Lemma quiet_step op : preserves (fun sp : notif * proc => quiet sp.1) (notif_step op).
Proof.
  destruct op; cbn [notif_step]; unfold fastrpc_notif_domain_init, init_body, start_thread, fastrpc_notif_domain_deinit, fastrpc_notif_register, fastrpc_notif_deinit, fastrpc_cleanup_notif_list.
  all: keep; try apply quiet_worker; apply preserves_modify; intros s Hs; try done; by apply quiet_event.
Qed.
Lemma quiet_run ops : preserves (fun sp : notif * proc => quiet sp.1) (notif_run ops).
Proof. induction ops as [|op ops IH]; cbn [notif_run]; keep; apply quiet_step. Qed.

(** C24: Over every sequence of operations, from the start of the library to its end and with
    any of them failing, the worker threads that were started are exactly those that were
    joined, those in the table, and those that the end of the library found in the table and
    dropped without joining them; a domain is initialised exactly when it has a worker. The
    worker ends at its first request, which the driver does not know, so no registered client
    is ever called. *)
Theorem notif_threads ops p :
  exists n s p', notif_run ops (notif0, p) = (Go n, (s, p')) /\
    started s = (joined s + running s + n)%nat /\ (forall d c, nt_tbl s !! d = Some c -> init_done c = runs c) /\
    (forall fuel en d, exists e, e <> 0 /\ notif_fastrpc_thread (S fuel) en d (s, p') = (Go (Some e), (s, p'))) /\
    quiet s.
Proof.
  pose proof (notif_run_ok ops 0 notif0 p) as H. pose proof (quiet_run ops (notif0, p)) as Hq. unfold wp in H.
  destruct (notif_run ops (notif0, p)) as [[n|e] [s p']].
  - destruct H as [Hc Hd]; [by split|]. exists n, s, p'. split; [done|]. split; [cbn in Hc; lia|]. split; [exact Hd|].
    split; [intros; apply worker_gives_up|]. apply Hq. by constructor.
  - exfalso. apply H. by split.
Qed.

(** Two domains, one of them initialised twice, an initialisation that fails after its thread
    was started, one tear-down, and the end of the library with one thread left. *)
Module NotifEx.
Definition ops : list notif_op :=
  [OpStart; OpInit 0 (inr 70) 0 true; OpRegister true 0 (NotifRegister 5 0 6); OpInit 3 (inr 71) 0 true; OpInit 3 (inr 72) 0 true;
   OpInit 4 (inr 73) 22 true; OpWorker 3 0 0; OpDeinit 0; OpExit].
Definition ended : notif := (notif_run ops (notif0, Proc (Some ∅) true (Some 3) [])).2.1.
Lemma notif_threads_witness : started ended = (joined ended + running ended + 1)%nat.
Proof.
  destruct (notif_threads ops (Proc (Some ∅) true (Some 3) [])) as (n & s & p' & E & H & _).
  assert (En : n = 1%nat) by (pose proof (f_equal fst E) as E1; vm_compute in E1; congruence).
  unfold ended. rewrite E. by rewrite <- En.
Defined.
End NotifEx.
