(* ===== verification/Pls.v ===== *)
(** Process local storage, [inc/pls.h] and [src/gpls.c]: the reference-counted list of
    keyed objects, sequentially and as a lock-free algorithm.

    A node is an address in a heap; [lst] is the address of the first one, 0 for none.
    The data of a node is named by the node's address. Constructors are represented by
    what they return (0 for a NULL constructor), [calloc] by the address it returns. *)
From S2P Require Import Prelude Errors.

(** ** Data *)
Record plskey := PlsKey { k_type : Z; k_key : Z }.
#[export] Instance plskey_eq_dec : EqDecision plskey.
Proof. solve_decision. Defined.

Record PLS := Pls { pls_next : Z; pls_key : plskey; pls_dtor : Z }.

(** The table; [ran] is the log of destructors called (with their data) and [pfreed] of
    the nodes freed, the last first. *)
Record pls_table := PlsTable {
  heap : gmap Z PLS;
  plst : Z;
  uRefs : Z;
  primThread : Z;
  ran : list (Z * Z);
  pfreed : list Z
}.

Definition set_list (h : gmap Z PLS) (l : Z) (me : pls_table) : pls_table :=
  PlsTable h l (uRefs me) (primThread me) (ran me) (pfreed me).
Definition set_refs (r : Z) (me : pls_table) : pls_table :=
  PlsTable (heap me) (plst me) r (primThread me) (ran me) (pfreed me).

(** ** Sequential operations *)

(** [atomic_CompareOrAdd], when no other thread writes [*puDest]: one pass of the loop.
    Result and the new value. *)
Definition atomic_CompareOrAdd (dest uCompare nAdd : Z) : Z * Z :=
  if dest =? uCompare then (dest, dest) else (u32 (dest + nAdd), u32 (dest + nAdd)).

Definition pls_ctor (primThread : Z) (me : pls_table) : pls_table :=
  PlsTable (heap me) (plst me) 1 (u32 primThread) (ran me) (pfreed me).

Definition pls_thread_init (tid : Z) (me : pls_table) : Z * pls_table :=
  if tid =? primThread me then (0, me)
  else if uRefs me =? 0 then (-1, me)
  else (0, set_refs (u32 (uRefs me + 1)) me).

(** The walk of [pls_lookup] from node [p]; the list has at most [fuel] nodes. *)
Fixpoint lookup_from (fuel : nat) (h : gmap Z PLS) (p : Z) (k : plskey) : option Z :=
  match fuel with
  | O => None
  | S fuel =>
    if p =? 0 then None
    else match h !! p with
         | None => None
         | Some n => if decide (pls_key n = k) then Some p else lookup_from fuel h (pls_next n) k
         end
  end.

Definition pls_lookup (type key : Z) (me : pls_table) : Z * option Z :=
  if uRefs me =? 0 then (-1, None)
  else match lookup_from (S (size (heap me))) (heap me) (plst me) (PlsKey type key) with
       | Some p => (0, Some p)
       | None => (-1, None)
       end.

(** Result: the code and [*ppo]. *)
Definition pls_add (type key addr ctor_ret dtor : Z) (me : pls_table) : (Z * option Z) * pls_table :=
  if uRefs me =? 0 then ((-1, None), me)
  else if addr =? 0 then ((-1, None), me)
  else if negb (ctor_ret =? 0) then ((-1, None), me)
  else ((0, Some addr), set_list (<[addr := Pls (plst me) (PlsKey type key) dtor]> (heap me)) addr me).

(** Run without interference: the second lookup, inside the loop, sees the same list. *)
Definition pls_add_lookup_singleton (type key addr ctor_ret dtor : Z) (me : pls_table) : (Z * option Z) * pls_table :=
  match pls_lookup type key me with
  | (0, Some p) => ((0, Some p), me)
  | _ => pls_add type key addr ctor_ret dtor me
  end.

(** The loop that empties the list. *)
Fixpoint free_all (fuel : nat) (h : gmap Z PLS) (p : Z) (me : pls_table) : pls_table :=
  match fuel with
  | O => me
  | S fuel =>
    if p =? 0 then me
    else match h !! p with
         | None => me
         | Some n =>
           free_all fuel h (pls_next n)
             (PlsTable (delete p (heap me)) (plst me) (uRefs me) (primThread me)
                (if pls_dtor n =? 0 then ran me else (pls_dtor n, p) :: ran me) (p :: pfreed me))
         end
  end.

(** Result: whether the table itself is returned (the last reference is gone). *)
Definition pls_thread_deinit (me : pls_table) : bool * pls_table :=
  if negb (uRefs me =? 0) then
    let me1 := set_refs (u32 (uRefs me - 1)) me in
    if uRefs me =? 1 then (true, free_all (S (size (heap me))) (heap me) (plst me) (set_list (heap me) 0 me1))
    else (false, me1)
  else (false, me).

(** *** [src/gpls.c] *)
Definition gpls_init (me : pls_table) : Z * pls_table := (0, pls_ctor 1 me).
Definition gpls_deinit (me : pls_table) : pls_table := (pls_thread_deinit me).2.
Definition HAP_pls_add := pls_add.
Definition HAP_pls_add_lookup := pls_add_lookup_singleton.
Definition HAP_pls_lookup := pls_lookup.
Definition adsp_pls_add := pls_add.
Definition adsp_pls_add_lookup := pls_add_lookup_singleton.
Definition adsp_pls_lookup := pls_lookup.

(** ** Lists in the heap *)
Inductive chain (h : gmap Z PLS) : Z -> list (Z * PLS) -> Prop :=
  | chain_nil : chain h 0 []
  | chain_cons p n l : p <> 0 -> h !! p = Some n -> chain h (pls_next n) l -> chain h p ((p, n) :: l).

Lemma chain_fun h p l l' : chain h p l -> chain h p l' -> l = l'.
Proof.
  intros H. revert l'. induction H as [|p n l Hp Hn _ IH]; intros l' H'; inversion H'; subst; [done|done|done|].
  assert (n0 = n) as -> by congruence. f_equal. by apply IH.
Qed.

(** A node outside the list can be written. *)
Lemma chain_insert h p l a n : chain h p l -> a ∉ l.*1 -> chain (<[a := n]> h) p l.
Proof.
  induction 1 as [|p m l Hp Hm _ IH]; intros Ha; [constructor|]. cbn in Ha. apply not_elem_of_cons in Ha as [Hne Ha].
  constructor; [done|by rewrite lookup_insert_ne|by apply IH].
Qed.

Lemma chain_in h p l q n : chain h p l -> (q, n) ∈ l -> h !! q = Some n /\ q <> 0.
Proof.
  induction 1 as [|p m l Hp Hm _ IH]; [by intros ?%elem_of_nil|]. intros [[= -> ->]|H]%elem_of_cons; [done|by apply IH].
Qed.

(** A chain ends, so no node occurs twice. *)
Lemma chain_suffix h p l l1 q n l2 : chain h p l -> l = l1 ++ (q, n) :: l2 -> chain h q ((q, n) :: l2).
Proof.
  intros H. revert l1. induction H as [|p m l Hp Hm Hc IH]; intros l1 E; [by destruct l1|].
  destruct l1 as [|x l1]; simplify_eq/=; [by constructor|by eapply IH].
Qed.
Lemma chain_NoDup h p l : chain h p l -> NoDup l.*1.
Proof.
  induction 1 as [|p n l Hp Hn Hc IH]; cbn; constructor; [|done].
  intros ([q m] & E & Hin)%list_elem_of_fmap. cbn in E. subst q.
  apply list_elem_of_split in Hin as (l1 & l2 & ->).
  assert (Hs : chain h p ((p, m) :: l2)) by by eapply chain_suffix.
  assert (Hw : chain h p ((p, n) :: l1 ++ (p, m) :: l2)) by by constructor.
  pose proof (chain_fun _ _ _ _ Hs Hw) as E. apply (f_equal length) in E. cbn in E. rewrite length_app in E. cbn in E. lia.
Qed.
Lemma chain_size h p l : chain h p l -> (length l <= size h)%nat.
Proof.
  intros H. pose proof (chain_NoDup _ _ _ H) as Hd. rewrite <- (length_fmap fst l), <- (size_list_to_set (C := gset Z)) by done.
  rewrite <- size_dom. apply subseteq_size. intros q ([q' n] & -> & Hq)%elem_of_list_to_set%list_elem_of_fmap.
  apply elem_of_dom. exists n. by eapply chain_in.
Qed.

Definition find_key (k : plskey) (l : list (Z * PLS)) : option Z :=
  fst <$> head (filter (fun x => pls_key x.2 = k) l).

Lemma lookup_from_chain fuel h p l k : chain h p l -> (length l < fuel)%nat -> lookup_from fuel h p k = find_key k l.
Proof.
  intros H. revert fuel. induction H as [|p n l Hp Hn _ IH]; intros [|fuel] Hf; cbn in Hf; try lia; [done|].
  cbn [lookup_from]. rewrite (proj2 (Z.eqb_neq _ _) Hp), Hn. unfold find_key.
  destruct (decide (pls_key n = k)) as [E|E].
  - by rewrite filter_cons_True.
  - rewrite filter_cons_False by done. apply IH. lia.
Qed.
Lemma find_key_Some k l p : find_key k l = Some p -> exists n, (p, n) ∈ l /\ pls_key n = k.
Proof.
  unfold find_key. intros E. destruct (filter _ l) as [|[q n] l'] eqn:F; [done|]. injection E as <-.
  assert (Hin : (q, n) ∈ filter (fun x : Z * PLS => pls_key x.2 = k) l) by (rewrite F; apply list_elem_of_here).
  apply list_elem_of_filter in Hin as [Hk Hin]. eauto.
Qed.
Lemma find_key_None k l : find_key k l = None <-> Forall (fun x => pls_key x.2 <> k) l.
Proof.
  unfold find_key. induction l as [|[q n] l IH]; [by split|]. destruct (decide (pls_key n = k)) as [E|E].
  - rewrite filter_cons_True by done. split; [done|]. by intros [? _]%Forall_cons.
  - rewrite filter_cons_False by done. rewrite IH, Forall_cons. cbn. tauto.
Qed.

(** ** Sequential behaviour *)
Definition pls_wf (me : pls_table) : Prop := exists l, chain (heap me) (plst me) l.

Lemma lookup_chain me l t k :
  chain (heap me) (plst me) l -> uRefs me <> 0 ->
  pls_lookup t k me = match find_key (PlsKey t k) l with Some p => (0, Some p) | None => (-1, None) end.
Proof.
  intros Hc Hr. unfold pls_lookup. rewrite (proj2 (Z.eqb_neq _ _) Hr). erewrite lookup_from_chain; [done|exact Hc|].
  apply chain_size in Hc. lia.
Qed.

Lemma add_chain me l t k a d :
  chain (heap me) (plst me) l -> uRefs me <> 0 -> a <> 0 -> heap me !! a = None ->
  let me' := set_list (<[a := Pls (plst me) (PlsKey t k) d]> (heap me)) a me in
  pls_add t k a 0 d me = ((0, Some a), me') /\
  chain (heap me') (plst me') ((a, Pls (plst me) (PlsKey t k) d) :: l).
Proof.
  intros Hc Hr Ha Hf me'. unfold pls_add. rewrite (proj2 (Z.eqb_neq _ _) Hr), (proj2 (Z.eqb_neq _ _) Ha).
  split; [done|]. constructor; [done|apply lookup_insert_eq|]. apply chain_insert; [done|].
  intros ([q n] & E & Hq)%list_elem_of_fmap. cbn in E. subst q. apply (chain_in _ _ _ _ _ Hc) in Hq as [? _]. congruence.
Qed.

(** Process local storage is a map in which the last addition wins: [pls_add] makes
    its node the one [pls_lookup] finds for its key and leaves every other key as it was;
    [pls_add_lookup_singleton] returns the object already there, and changes nothing, or
    else adds; a failed constructor or a table without references changes nothing. *)
Theorem pls_last_wins me t k a d :
  pls_wf me -> uRefs me <> 0 -> a <> 0 -> heap me !! a = None ->
  let me' := (pls_add t k a 0 d me).2 in
  (pls_add t k a 0 d me).1 = (0, Some a) /\ pls_wf me' /\
  (forall t' k', pls_lookup t' k' me' = if decide (PlsKey t' k' = PlsKey t k) then (0, Some a) else pls_lookup t' k' me) /\
  (forall p, pls_lookup t k me = (0, Some p) -> pls_add_lookup_singleton t k a 0 d me = ((0, Some p), me)) /\
  (pls_lookup t k me = (-1, None) -> pls_add_lookup_singleton t k a 0 d me = pls_add t k a 0 d me) /\
  (forall c, c <> 0 -> pls_add t k a c d me = ((-1, None), me)).
Proof.
  intros [l Hc] Hr Ha Hf. destruct (add_chain me l t k a d Hc Hr Ha Hf) as [E Hc']. rewrite E. cbn [fst snd].
  split_and!; [done|by eexists| | | |].
  - intros t' k'. erewrite lookup_chain; [|exact Hc'|done]. unfold find_key.
    destruct (decide (PlsKey t' k' = PlsKey t k)) as [->|Hne].
    + by rewrite filter_cons_True.
    + rewrite filter_cons_False by (cbn; congruence). by erewrite (lookup_chain me l).
  - intros p Hp. unfold pls_add_lookup_singleton. by rewrite Hp.
  - intros Hp. unfold pls_add_lookup_singleton. by rewrite Hp.
  - intros c Hcz. unfold pls_add. rewrite (proj2 (Z.eqb_neq _ _) Hr), (proj2 (Z.eqb_neq _ _) Ha). by rewrite (proj2 (Z.eqb_neq _ _) Hcz).
Qed.

Definition dtors (l : list (Z * PLS)) : list (Z * Z) :=
  (fun x => (pls_dtor x.2, x.1)) <$> filter (fun x => pls_dtor x.2 <> 0) l.

Lemma free_all_chain fuel h p l me :
  chain h p l -> (length l < fuel)%nat ->
  let me' := free_all fuel h p me in
  ran me' = reverse (dtors l) ++ ran me /\ pfreed me' = reverse l.*1 ++ pfreed me /\
  plst me' = plst me /\ uRefs me' = uRefs me /\ forall q, heap me' !! q = if decide (q ∈ l.*1) then None else heap me !! q.
Proof.
  intros H. revert fuel me. induction H as [|p n l Hp Hn _ IH]; intros [|fuel] me Hf; cbn in Hf; try lia.
  - cbn. split_and!; [done..|]. intros q. by rewrite decide_False by apply not_elem_of_nil.
  - cbn [free_all]. rewrite (proj2 (Z.eqb_neq _ _) Hp), Hn.
    destruct (IH fuel (PlsTable (delete p (heap me)) (plst me) (uRefs me) (primThread me)
      (if pls_dtor n =? 0 then ran me else (pls_dtor n, p) :: ran me) (p :: pfreed me)) ltac:(lia)) as (E1 & E2 & E3 & E4 & E5).
    cbv zeta. rewrite E1, E2, E3, E4. cbn [ran pfreed plst uRefs heap] in *. split_and!; [| |done|done|].
    + unfold dtors. destruct (Z.eqb_spec (pls_dtor n) 0) as [E|E].
      * by rewrite filter_cons_False by (cbn; tauto).
      * rewrite filter_cons_True by done. by rewrite fmap_cons, reverse_cons, <- app_assoc.
    + by rewrite fmap_cons, reverse_cons, <- app_assoc.
    + intros q. rewrite E5. rewrite fmap_cons. cbn [fst]. destruct (decide (q = p)) as [->|Hne].
      * rewrite (decide_True _ _ (list_elem_of_here p l.*1)). destruct (decide _); [done|apply lookup_delete_eq].
      * rewrite lookup_delete_ne by done. destruct (decide (q ∈ l.*1)) as [Hq|Hq].
        -- by rewrite decide_True by by apply list_elem_of_further.
        -- by rewrite decide_False by by intros [?|?]%elem_of_cons.
Qed.

(** The storage is torn down exactly with its last reference: earlier releases only
    count down; the last one runs the destructor of every object that has one, newest
    first, frees every node exactly once, and leaves an empty list; a release without
    references does nothing; and a thread can register only while references remain. *)
Theorem pls_teardown me l tid :
  chain (heap me) (plst me) l -> 0 <= uRefs me < 4294967295 ->
  let r := pls_thread_deinit me in
  (uRefs me = 1 -> r.1 = true /\ ran r.2 = reverse (dtors l) ++ ran me /\ pfreed r.2 = reverse l.*1 ++ pfreed me /\
     NoDup l.*1 /\ plst r.2 = 0 /\ uRefs r.2 = 0 /\ forall q, q ∈ l.*1 -> heap r.2 !! q = None) /\
  (1 < uRefs me -> r = (false, set_refs (uRefs me - 1) me)) /\
  (uRefs me = 0 -> r = (false, me)) /\
  (tid <> primThread me -> pls_thread_init tid me =
     if uRefs me =? 0 then (-1, me) else (0, set_refs (uRefs me + 1) me)).
Proof.
  intros Hc Hr r. unfold r, pls_thread_deinit. split_and!.
  - intros E. rewrite E. change (negb (1 =? 0)) with true. change (1 =? 1) with true. cbv iota. cbn [fst snd].
    destruct (free_all_chain (S (size (heap me))) (heap me) (plst me) l (set_list (heap me) 0 (set_refs (u32 (1 - 1)) me)) Hc) as (E1 & E2 & E3 & E4 & E5).
    { apply chain_size in Hc. lia. }
    rewrite E1, E2, E3, E4. split_and!; [done|done|done|by eapply chain_NoDup|done|done|]. intros q Hq. by rewrite E5, decide_True.
  - intros H1. rewrite (proj2 (Z.eqb_neq _ 0)), (proj2 (Z.eqb_neq _ 1)) by lia. cbn [negb]. by rewrite u32_small by lia.
  - intros ->. done.
  - intros Ht. unfold pls_thread_init. rewrite (proj2 (Z.eqb_neq _ _) Ht). by rewrite u32_small by lia.
Qed.

(** ** [pls_add_lookup_singleton] as a concurrent algorithm

    Any number of threads run the function on one table that keeps a reference. A step
    is one atomic access: a walk of the list is one, because it reads [lst] once and
    nodes in the list are never written. *)

(** The caller's key and destructor, its position in the function, and its own node. *)
Inductive pc :=
  | Start (k : plskey) (d : Z)             (* before the first lookup *)
  | Missed (k : plskey) (d : Z)            (* it failed; before [calloc] and the constructor *)
  | Built (k : plskey) (d a : Z)           (* at the head of the loop *)
  | Loaded (k : plskey) (d a : Z)          (* [pls->next] is read from [me->lst] *)
  | Checked (k : plskey) (d a : Z)         (* the second lookup failed too; before the CAS *)
  | Done (k : plskey) (r : Z).             (* returned 0 with [*ppo] *)

Record config := Config { cheap : gmap Z PLS; clst : Z; threads : gmap Z pc }.

Definition look (c : config) (k : plskey) : option Z := lookup_from (S (size (cheap c))) (cheap c) (clst c) k.
Definition set_next (p : Z) (n : PLS) : PLS := Pls p (pls_key n) (pls_dtor n).
Definition goto (t : Z) (p : pc) (c : config) : config := Config (cheap c) (clst c) (<[t := p]> (threads c)).
Definition with_heap (h : gmap Z PLS) (c : config) : config := Config h (clst c) (threads c).
Definition with_lst (l : Z) (c : config) : config := Config (cheap c) l (threads c).

Inductive step (t : Z) (c : config) : config -> Prop :=
  | step_call k d : threads c !! t = None -> step t c (goto t (Start k d) c)
  | step_found k d p : threads c !! t = Some (Start k d) -> look c k = Some p -> step t c (goto t (Done k p) c)
  | step_missed k d : threads c !! t = Some (Start k d) -> look c k = None -> step t c (goto t (Missed k d) c)
  | step_build k d a : threads c !! t = Some (Missed k d) -> a <> 0 -> cheap c !! a = None ->
      step t c (goto t (Built k d a) (with_heap (<[a := Pls 0 k d]> (cheap c)) c))
  | step_load k d a n : threads c !! t = Some (Built k d a) -> cheap c !! a = Some n ->
      step t c (goto t (Loaded k d a) (with_heap (<[a := set_next (clst c) n]> (cheap c)) c))
  | step_lost k d a p : threads c !! t = Some (Loaded k d a) -> look c k = Some p ->
      step t c (goto t (Done k p) (with_heap (delete a (cheap c)) c))
  | step_checked k d a : threads c !! t = Some (Loaded k d a) -> look c k = None -> step t c (goto t (Checked k d a) c)
  | step_cas k d a n : threads c !! t = Some (Checked k d a) -> cheap c !! a = Some n -> pls_next n = clst c ->
      step t c (goto t (Done k a) (with_lst a c))
  | step_retry k d a n : threads c !! t = Some (Checked k d a) -> cheap c !! a = Some n -> pls_next n <> clst c ->
      step t c (goto t (Built k d a) c).

Definition any_step (c c' : config) : Prop := exists t, step t c c'.
(** From an empty table that no thread uses. *)
Definition config0 : config := Config ∅ 0 ∅.
Definition reachable (c : config) : Prop := rtc any_step config0 c.

(** *** The invariant *)

(** A node that only its thread knows. *)
Definition node_of (p : pc) : option Z :=
  match p with Built _ _ a | Loaded _ _ a | Checked _ _ a => Some a | _ => None end.
Definition owns (h : gmap Z PLS) (l : list (Z * PLS)) (k : plskey) (a : Z) : Prop :=
  a <> 0 /\ (a ∉ l.*1) /\ exists n, h !! a = Some n /\ pls_key n = k.
(** The node's [next] is where some suffix of the list, that satisfies [P], begins. *)
Definition points_to (h : gmap Z PLS) (l : list (Z * PLS)) (a : Z) (P : list (Z * PLS) -> Prop) : Prop :=
  exists n l1 l2, h !! a = Some n /\ l = l1 ++ l2 /\ chain h (pls_next n) l2 /\ P l2.
Definition without (k : plskey) (l : list (Z * PLS)) : Prop := Forall (fun x => pls_key x.2 <> k) l.

Definition thread_ok (h : gmap Z PLS) (l : list (Z * PLS)) (p : pc) : Prop :=
  match p with
  | Start _ _ | Missed _ _ => True
  | Built k d a => owns h l k a
  | Loaded k d a => owns h l k a /\ points_to h l a (fun _ => True)
  | Checked k d a => owns h l k a /\ points_to h l a (without k)
  | Done k r => find_key k l = Some r
  end.

Record inv (c : config) (l : list (Z * PLS)) : Prop := {
  inv_chain : chain (cheap c) (clst c) l;
  inv_unique : NoDup ((fun x => pls_key x.2) <$> l);
  inv_threads : forall t p, threads c !! t = Some p -> thread_ok (cheap c) l p;
  inv_private : forall t t' p p' a, threads c !! t = Some p -> threads c !! t' = Some p' ->
    node_of p = Some a -> node_of p' = Some a -> t = t'
}.

Lemma look_find c l k : chain (cheap c) (clst c) l -> look c k = find_key k l.
Proof. intros H. unfold look. apply lookup_from_chain; [done|]. apply chain_size in H. lia. Qed.

(** Heaps that agree except at a node outside the list. *)
Lemma chain_agree h h' p l : chain h p l -> (forall q, q ∈ l.*1 -> h' !! q = h !! q) -> chain h' p l.
Proof.
  induction 1 as [|p n l Hp Hn _ IH]; intros Hq; [constructor|]. constructor; [done| |].
  - rewrite Hq; [done|apply list_elem_of_here].
  - apply IH. intros q H. apply Hq. by apply list_elem_of_further.
Qed.

Lemma thread_ok_agree h h' l a p :
  (forall q, q <> a -> h' !! q = h !! q) -> a ∉ l.*1 -> node_of p <> Some a -> thread_ok h l p -> thread_ok h' l p.
Proof.
  intros Hh Ha Hp.
  assert (Ho : forall k b, b <> a -> owns h l k b -> owns h' l k b).
  { intros k b Hb (H1 & H2 & n & H3 & H4). split_and!; [done..|]. exists n. by rewrite Hh. }
  assert (Ht : forall b P, b <> a -> points_to h l b P -> points_to h' l b P).
  { intros b P Hb (n & l1 & l2 & H1 & -> & H3 & H4). exists n, l1, l2. split_and!; [by rewrite Hh|done| |done].
    apply (chain_agree h); [done|]. intros q Hq. apply Hh. intros ->. apply Ha. rewrite fmap_app, elem_of_app. auto. }
  destruct p; cbn in *; try done.
  - apply Ho. congruence.
  - intros [H1 H2]. split; [apply Ho|apply Ht]; congruence.
  - intros [H1 H2]. split; [apply Ho|apply Ht]; congruence.
Qed.

Lemma thread_ok_push h l a n p :
  without (pls_key n) l -> node_of p <> Some a -> thread_ok h l p -> thread_ok h ((a, n) :: l) p.
Proof.
  intros Hn Hp.
  assert (Ho : forall k b, b <> a -> owns h l k b -> owns h ((a, n) :: l) k b).
  { intros k b Hb (H1 & H2 & H3). split_and!; [done| |done]. cbn. rewrite not_elem_of_cons. done. }
  assert (Ht : forall b P, points_to h l b P -> points_to h ((a, n) :: l) b P).
  { intros b P (m & l1 & l2 & H1 & -> & H3). by exists m, ((a, n) :: l1), l2. }
  destruct p as [| | | | |k r]; cbn in *; try done.
  - apply Ho. congruence.
  - intros [H1 H2]. split; [apply Ho; congruence|by apply Ht].
  - intros [H1 H2]. split; [apply Ho; congruence|by apply Ht].
  - intros Hf. unfold find_key. rewrite filter_cons_False; [exact Hf|]. cbn. intros E.
    rewrite E in Hn. apply find_key_None in Hn. congruence.
Qed.

(** One thread moves to [p], and the heap changes at most at its own node. *)
Lemma inv_move c l t p h' :
  inv c l -> chain h' (clst c) l ->
  (forall t' q, t' <> t -> threads c !! t' = Some q -> thread_ok h' l q) ->
  thread_ok h' l p ->
  (forall a t' q, node_of p = Some a -> t' <> t -> threads c !! t' = Some q -> node_of q <> Some a) ->
  inv (goto t p (with_heap h' c)) l.
Proof.
  intros [Hc Hu Ht Hp] Hc' Ho Hok Hpr. split; cbn; [done|done| |].
  - intros t' q. destruct (decide (t' = t)) as [->|Hne].
    + rewrite lookup_insert_eq. by intros [= <-].
    + rewrite lookup_insert_ne by done. by apply Ho.
  - intros t1 t2 q1 q2 a. destruct (decide (t1 = t)) as [->|H1], (decide (t2 = t)) as [->|H2]; [done| | |].
    + rewrite lookup_insert_eq, lookup_insert_ne by done. intros [= <-] E2 N1 N2. by destruct (Hpr a t2 q2).
    + rewrite lookup_insert_eq, lookup_insert_ne by done. intros E1 [= <-] N1 N2. by destruct (Hpr a t1 q1).
    + rewrite !lookup_insert_ne by done. by apply Hp.
Qed.

(** The thread moves on with the node it has; the heap stays. *)
Lemma inv_goto c l t p p' :
  inv c l -> threads c !! t = Some p -> thread_ok (cheap c) l p' ->
  (forall a, node_of p' = Some a -> node_of p = Some a) -> inv (goto t p' c) l.
Proof.
  intros Hi Ep Hok Hn. replace (goto t p' c) with (goto t p' (with_heap (cheap c) c)) by by destruct c.
  apply inv_move; [done|apply Hi|intros t' q _ E; by apply (inv_threads c l Hi t')|done|].
  intros a t' q Ha Hne E Hq. destruct Hne. by eapply (inv_private c l Hi t' t q p a); eauto.
Qed.

(** The thread's own node changes. *)
Lemma inv_own c l t p p' a h' :
  inv c l -> threads c !! t = Some p -> node_of p = Some a -> a ∉ l.*1 -> (forall q, q <> a -> h' !! q = cheap c !! q) ->
  thread_ok h' l p' -> (forall b, node_of p' = Some b -> b = a) -> inv (goto t p' (with_heap h' c)) l.
Proof.
  intros Hi Ep Ha Hal Hh Hok Hn.
  assert (Hother : forall t' q, t' <> t -> threads c !! t' = Some q -> node_of q <> Some a).
  { intros t' q Hne E Hq. destruct Hne. by eapply (inv_private c l Hi t' t q p a). }
  apply inv_move; [done| | |done|].
  - apply (chain_agree (cheap c)); [apply Hi|]. intros q Hq. apply Hh. by intros ->.
  - intros t' q Hne E. apply (thread_ok_agree (cheap c) h' l a); [done|done|by eapply Hother|by apply (inv_threads c l Hi t')].
  - intros b t' q Hb Hne E. rewrite (Hn b Hb). by eapply Hother.
Qed.

Lemma step_inv t c c' l : inv c l -> step t c c' -> exists l', inv c' l' /\ (l' = l \/ exists x, l' = x :: l).
Proof.
  intros Hi Hs. pose proof (inv_threads c l Hi t) as Ht. pose proof (inv_chain c l Hi) as Hc.
  destruct Hs as [k d E|k d p E L|k d E L|k d a E Ha Hf|k d a n E Hn|k d a p E L|k d a E L|k d a n E Hn Hl|k d a n E Hn Hl];
    try specialize (Ht _ E); try rewrite (look_find c l) in L by done.
  - exists l. split; [|by left]. replace c with (with_heap (cheap c) c) by by destruct c.
    apply inv_move; [done|done|intros t' q _ E'; by apply (inv_threads c l Hi t')|done|done].
  - exists l. split; [|by left]. by eapply inv_goto.
  - exists l. split; [|by left]. by eapply inv_goto.
  - exists l. split; [|by left].
    assert (Hal : a ∉ l.*1). { intros ([q n] & Eq & Hq)%list_elem_of_fmap. cbn in Eq. subst q. apply (chain_in _ _ _ _ _ Hc) in Hq as [? _]. congruence. }
    assert (Hno : forall t' q, threads c !! t' = Some q -> node_of q <> Some a).
    { intros t' q E' Hq. pose proof (inv_threads c l Hi t' q E') as Hk.
      assert (exists n, cheap c !! a = Some n) as [n Hn]; [|congruence].
      destruct q; try done; injection Hq as ->; cbn in Hk; [destruct Hk as (_ & _ & n & ? & _)|destruct Hk as [(_ & _ & n & ? & _) _]|destruct Hk as [(_ & _ & n & ? & _) _]]; eauto. }
    apply inv_move; [done|by apply chain_insert| | |].
    + intros t' q _ E'. apply (thread_ok_agree (cheap c) _ l a); [intros; by apply lookup_insert_ne|done|by eapply Hno|by apply (inv_threads c l Hi t')].
    + split_and!; [done|done|]. exists (Pls 0 k d). by rewrite lookup_insert_eq.
    + intros b t' q [= <-] _ E'. by eapply Hno.
  - exists l. split; [|by left]. destruct Ht as (Ha & Hal & m & Hm & Hk). assert (m = n) as -> by congruence.
    eapply (inv_own c l t _ _ a); [done|exact E|done|done|intros; by apply lookup_insert_ne| |by intros b [= <-]].
    split; [split_and!; [done|done|]; exists (set_next (clst c) n); by rewrite lookup_insert_eq|].
    exists (set_next (clst c) n), [], l. split_and!; [by rewrite lookup_insert_eq|done|by apply chain_insert|done].
  - exists l. split; [|by left]. destruct Ht as [(Ha & Hal & _) _].
    eapply (inv_own c l t _ _ a); [done|exact E|done|done|intros; by apply lookup_delete_ne|exact L|done].
  - exists l. split; [|by left]. apply find_key_None in L. destruct Ht as [Ho (n & l1 & l2 & Hn & -> & Hch & _)].
    eapply inv_goto; [done|exact E| |done]. split; [done|]. exists n, l1, l2. split_and!; [done..|].
    by apply Forall_app in L as [_ L].
  - destruct Ht as [(Ha & Hal & m & Hm & Hk) (m' & l1 & l2 & Hm' & El & Hch & Hw)].
    assert (m = n) as -> by congruence. assert (m' = n) as -> by congruence. rewrite Hl in Hch.
    pose proof (chain_fun _ _ _ _ Hc Hch) as Ell. rewrite <- Ell in *. exists ((a, n) :: l). split; [|right; eauto].
    destruct Hi as [_ Hu Hts Hp]. split; cbn.
    + constructor; [done|done|by rewrite Hl].
    + constructor; [|done]. intros ([q x] & Eq & Hq)%list_elem_of_fmap. cbn in Eq. unfold without in Hw. rewrite Forall_forall in Hw.
      apply (Hw (q, x) Hq). cbn. congruence.
    + intros t' q. destruct (decide (t' = t)) as [->|Hne].
      * rewrite lookup_insert_eq. intros [= <-]. cbn. unfold find_key. by rewrite filter_cons_True.
      * rewrite lookup_insert_ne by done. intros E'. apply thread_ok_push; [by rewrite Hk| |by apply (Hts t')].
        intros Hq. destruct Hne. by eapply (Hp t' t).
    + intros t1 t2 q1 q2 b. destruct (decide (t1 = t)) as [->|H1], (decide (t2 = t)) as [->|H2];
        rewrite ?lookup_insert_eq, ?lookup_insert_ne by done; [done| | |by apply Hp].
      * by intros [= <-].
      * by intros ? [= <-].
  - exists l. split; [|by left]. eapply inv_goto; [done|exact E|apply Ht|done].
Qed.

Lemma reachable_inv c : reachable c -> exists l, inv c l.
Proof.
  intros H. refine (rtc_ind_r (fun c => exists l, inv c l) config0 _ _ c H).
  - exists []. split; [apply chain_nil|apply NoDup_nil_2| | ]; intros *; change (threads config0) with (∅ : gmap Z pc); by rewrite lookup_empty.
  - intros c1 c2 _ [t Hs] [l Hi]. destruct (step_inv t c1 c2 l Hi Hs) as (l' & Hi' & _). eauto.
Qed.

(** C35: At most one object per key, under every interleaving: in every reachable state
    of any number of concurrent [pls_add_lookup_singleton] calls, the list has no two
    nodes of one key, and all calls that returned for a key returned the same object,
    the one a lookup finds. *)
Theorem singleton_once c t t' k r r' :
  reachable c -> threads c !! t = Some (Done k r) -> threads c !! t' = Some (Done k r') ->
  r = r' /\ look c k = Some r /\
  exists l, chain (cheap c) (clst c) l /\ NoDup ((fun x => pls_key x.2) <$> l).
Proof.
  intros [l Hi]%reachable_inv E E'. pose proof (inv_threads c l Hi t _ E) as H. pose proof (inv_threads c l Hi t' _ E') as H'.
  cbn in H, H'. rewrite (look_find c l) by apply Hi. split_and!; [congruence|done|]. exists l. split; apply Hi.
Qed.

(** The algorithm is lock-free and leaks nothing: when a thread's compare-and-swap
    fails, another thread has put a node in the list since this one read its head; and a
    node outside the list always belongs to exactly one thread, so a call that finds the
    key taken frees a node nobody else can reach. *)
Theorem cas_failure_is_progress c t k d a n :
  reachable c -> threads c !! t = Some (Checked k d a) -> cheap c !! a = Some n ->
  (exists l1 l2, chain (cheap c) (clst c) (l1 ++ l2) /\ chain (cheap c) (pls_next n) l2 /\
     (pls_next n <> clst c <-> l1 <> []) /\ (a ∉ (l1 ++ l2).*1)) /\
  (forall t' p, threads c !! t' = Some p -> node_of p = Some a -> t' = t).
Proof.
  intros [l Hi]%reachable_inv E Hn. destruct (inv_threads c l Hi t _ E) as [(Ha & Hal & _) (m & l1 & l2 & Hm & -> & Hch & _)].
  assert (m = n) as -> by congruence. split.
  - exists l1, l2. split_and!; [apply Hi|done| |done]. split.
    + intros Hne ->. apply Hne. pose proof (inv_chain c _ Hi) as Hc. cbn in Hc. inversion Hc as [Hz|p x l' Hp Hx Hl Hz]; subst; inversion Hch; done.
    + intros Hne Eq. rewrite Eq in Hch. pose proof (chain_fun _ _ _ _ (inv_chain c _ Hi) Hch) as El.
      apply (f_equal length) in El. rewrite length_app in El. destruct l1; [done|]. cbn in El. lia.
  - intros t' p E' Hp. by eapply (inv_private c _ Hi t' t).
Qed.

(** ** Concrete inputs *)
Module PlsEx.
Definition table1 : pls_table := PlsTable ∅ 0 1 1 [] [].

Lemma pls_last_wins_witness : pls_lookup 7 9 (pls_add 7 9 64 0 5 table1).2 = (0, Some 64).
Proof.
  destruct (pls_last_wins table1 7 9 64 5) as (_ & _ & H & _); [exists []; constructor|done|done|done|].
  rewrite H. by rewrite decide_True.
Defined.

Definition table2 : pls_table := (pls_add 7 9 64 0 5 table1).2.
Lemma pls_teardown_witness : ran (pls_thread_deinit table2).2 = [(5, 64)].
Proof.
  destruct (pls_teardown table2 [(64, Pls 0 (PlsKey 7 9) 5)] 2) as (H & _); [|by vm_compute|].
  - constructor; [done|done|constructor].
  - destruct (H eq_refl) as (_ & E & _). rewrite E. reflexivity.
Defined.

(** One thread adds; a second one calls and finds its object. *)
Definition key : plskey := PlsKey 7 9.
Definition s1 : config := goto 1 (Start key 5) config0.
Definition s2 : config := goto 1 (Missed key 5) s1.
Definition s3 : config := goto 1 (Built key 5 64) (with_heap (<[64 := Pls 0 key 5]> (cheap s2)) s2).
Definition s4 : config := goto 1 (Loaded key 5 64) (with_heap (<[64 := set_next (clst s3) (Pls 0 key 5)]> (cheap s3)) s3).
Definition s5 : config := goto 1 (Checked key 5 64) s4.
Definition s6 : config := goto 1 (Done key 64) (with_lst 64 s5).
Definition s7 : config := goto 2 (Start key 5) s6.
Definition s8 : config := goto 2 (Done key 64) s7.

Lemma reach5 : reachable s5.
Proof.
  apply (rtc_l _ _ s1); [exists 1; by apply step_call|]. apply (rtc_l _ _ s2); [exists 1; by eapply step_missed|].
  apply (rtc_l _ _ s3); [exists 1; by eapply step_build|]. apply (rtc_l _ _ s4); [exists 1; by eapply step_load|].
  apply (rtc_l _ _ s5); [exists 1; by eapply step_checked|]. apply rtc_refl.
Qed.
Lemma reach8 : reachable s8.
Proof.
  unfold reachable. transitivity s5; [exact reach5|]. apply (rtc_l _ _ s6); [exists 1; by eapply step_cas|].
  apply (rtc_l _ _ s7); [exists 2; by apply step_call|]. apply (rtc_l _ _ s8); [exists 2; by eapply step_found|]. apply rtc_refl.
Qed.

Lemma singleton_once_witness : look s8 key = Some 64.
Proof. apply (singleton_once s8 1 2 key 64 64 reach8); reflexivity. Defined.
Lemma cas_failure_is_progress_witness :
  exists l1 l2, chain (cheap s5) (clst s5) (l1 ++ l2) /\ chain (cheap s5) 0 l2 /\
    (0 <> clst s5 <-> l1 <> []) /\ 64 ∉ (l1 ++ l2).*1.
Proof. exact (proj1 (cas_failure_is_progress s5 1 key 5 64 (Pls 0 key 5) reach5 eq_refl eq_refl)). Defined.
End PlsEx.
