(* ===== verification/ProcBuf.v ===== *)
(** The process configuration buffer, [src/fastrpc_procbuf.c]: its allocation, the
    packing of the parameters sent to the DSP, and the list of library names.

    The buffer and the packed data are bytes in a memory; [readdir(3)] and the
    environment are arguments. *)
From S2P Require Import Prelude Errors Domain Ioctl.

(** ** Constants *)
Definition PROC_SHAREDBUF_SIZE : Z := 4 * 1024.
Definition WORD_SIZE : Z := 4.
Definition PROC_ATTR_BUF_ID_POS : Z := 24.
Definition PROC_ATTR_BUF_ID_SIZE_MASK : Z := 16777215.
Definition HLOS_PID_ID : Z := 0.
Definition THREAD_PARAM_ID : Z := 1.
Definition PROC_ATTR_ID : Z := 2.
Definition PANIC_ERR_CODES_ID : Z := 3.
Definition HLOS_PROC_EFFEC_DOM_ID : Z := 4.
Definition CUSTOM_DSP_SEARCH_PATH_LIBS_ID : Z := 5.
Definition HLOS_PROC_SESS_ID : Z := 6.
Definition PROC_ATTR_BUF_MAX_ID : Z := HLOS_PROC_SESS_ID + 1.
Definition MAX_NON_PRELOAD_LIBS_LEN : Z := 2048.
Definition DSP_LIBRARY_PATH : list Z := str "DSP_LIBRARY_PATH".

(** The fields of [hlist[domain]]; 0 is NULL. *)
Record procbuf := ProcBuf {
  proc_sharedbuf : Z;
  proc_sharedbuf_cur_addr : Z;
  pb_mem : memory;
  pb_freed : list Z
}.

(** ** Allocation *)

(** [buf], [fd]: what [rpcmem_alloc_internal] and [rpcmem_to_fd_internal] return; [ioErr]
    and [err_no]: the ioctl's result. *)
Definition proc_sharedbuf_init (buf fd ioErr err_no : Z) (s : procbuf) : Z * procbuf :=
  if buf =? 0 then (AEE_ENORPCMEMORY, s)
  else
    let s := ProcBuf buf (proc_sharedbuf_cur_addr s) (pb_mem s) (pb_freed s) in
    let '(nErr, sharedbuf_kernel_support) :=
      if fd =? -1 then (AEE_ERPC, true)
      else if negb (ioErr =? 0) then
        (* nErr is 0 here, and is what is converted *)
        if err_no =? ENOTTY then (AEE_SUCCESS, false) else (convert_kernel_to_user_error AEE_SUCCESS err_no, true)
      else (AEE_SUCCESS, true) in
    if negb (nErr =? 0) || negb sharedbuf_kernel_support
    then (nErr, ProcBuf 0 (proc_sharedbuf_cur_addr s) (pb_mem s) (buf :: pb_freed s))
    else (nErr, s).

(** ** Packing *)

(** [ALIGN_B(p, 4)] on a [uint32_t]. *)
Definition ALIGN_W (p : Z) : Z := Z.land (u32 (p + 3)) (u32 (Z.lnot 3)).

Definition header (param_id size : Z) : Z :=
  u32 (u32 (Z.shiftl param_id PROC_ATTR_BUF_ID_POS) + Z.land PROC_ATTR_BUF_ID_SIZE_MASK size).

(** [param_addr]: NULL, or the bytes there. [buf_last_addr] is [PROC_SHAREDBUF_SIZE]
    words, not bytes, after the start; the copy takes the smaller of the words left and
    the bytes given. *)
Definition pack_proc_shared_buf_params (param_id : Z) (param_addr : option (list Z)) (param_size : Z) (s : procbuf) : Z * procbuf :=
  match param_addr with
  | None => (AEE_EBADPARM, s)
  | Some data =>
    if (param_size =? 0) || (PROC_ATTR_BUF_MAX_ID <=? param_id) then (AEE_EBADPARM, s)
    else
      let buf_start_addr := proc_sharedbuf s in
      let buf_last_addr := buf_start_addr + WORD_SIZE * PROC_SHAREDBUF_SIZE in
      let buf_write_addr := if proc_sharedbuf_cur_addr s =? 0 then buf_start_addr + WORD_SIZE else proc_sharedbuf_cur_addr s in
      let align_param_size := ALIGN_W param_size in
      if buf_last_addr <? buf_write_addr + align_param_size + 4 then (AEE_ERPC, s)
      else
        let m := store (pb_mem s) buf_write_addr (le32 (header param_id align_param_size)) in
        let buf_write_addr := buf_write_addr + WORD_SIZE in
        let n := Z.min (Z.quot (buf_last_addr - buf_write_addr) WORD_SIZE) param_size in
        let m := store m buf_write_addr (take (Z.to_nat n) data) in
        let count := of_le32 (load m buf_start_addr 4) in
        let m := store m buf_start_addr (le32 (u32 (count + 1))) in
        (AEE_SUCCESS, ProcBuf (proc_sharedbuf s) (buf_write_addr + align_param_size) m (pb_freed s))
  end.

(** Errors of single parameters are logged, and packing goes on. *)
Definition pack_param (param_id : Z) (data : list Z) (s : procbuf) : procbuf :=
  (pack_proc_shared_buf_params param_id (Some data) (Z.of_nat (length data)) s).2.

(** ** Library names *)

(** [strtok_r(s, ";", ..)], all tokens: empty ones are skipped. *)
Fixpoint strtok (cur : list Z) (s : list Z) : list (list Z) :=
  match s with
  | [] => match cur with [] => [] | _ => [cur] end
  | c :: s => if c =? 59 then match cur with [] => strtok [] s | _ => cur :: strtok [] s end
              else strtok (cur ++ [c]) s
  end.

(** [strlcat(dst, src, size)], with [dst] shorter than [size]: the new string and the
    length it tried to make. *)
Definition strlcat (dst src : list Z) (size : Z) : list Z * Z :=
  (take (Z.to_nat (size - 1)) (dst ++ src), Z.of_nat (length dst + length src)).

(** A directory entry: whether it is a regular file, and its name. *)
Definition dirent : Type := bool * list Z.

(** The [readdir] loop over [lib_names] and [concat_len]. *)
Fixpoint add_files (files : list dirent) (lib_names : list Z) (concat_len : Z) : Z * list Z * Z :=
  match files with
  | [] => (AEE_SUCCESS, lib_names, concat_len)
  | (reg, file) :: files =>
    if reg && is_found (strstr file (str ".so")) then
      if MAX_NON_PRELOAD_LIBS_LEN <? concat_len + Z.of_nat (length file) then (AEE_EBUFFERTOOSMALL, lib_names, concat_len)
      else
        let lib_names := (strlcat lib_names file MAX_NON_PRELOAD_LIBS_LEN).1 in
        let '(lib_names, concat_len) := strlcat lib_names [59] MAX_NON_PRELOAD_LIBS_LEN in
        add_files files lib_names concat_len
    else add_files files lib_names concat_len
  end.

Section lib_names.
(** [opendir]: NULL, or the entries. *)
Variable opendir : list Z -> option (list dirent).

Fixpoint add_paths (paths : list (list Z)) (lib_names : list Z) (concat_len : Z) : Z * list Z * Z :=
  match paths with
  | [] => (AEE_SUCCESS, lib_names, concat_len)
  | path :: paths =>
    match opendir path with
    | None => (AEE_EBADPARM, lib_names, concat_len)
    | Some files =>
      let '(e, lib_names, concat_len) := add_files files lib_names concat_len in
      if e =? AEE_SUCCESS then add_paths paths lib_names concat_len else (e, lib_names, concat_len)
    end
  end.

(** [apps_std_getenv(DSP_LIBRARY_PATH, ..)] into a buffer as long as the variable's
    name: [env] is the variable's value, or the error. *)
Definition getenv_path (env : list Z + Z) : Z * list Z :=
  match env with
  | inl v => (AEE_SUCCESS, take (length DSP_LIBRARY_PATH) v)
  | inr e => (e, [])
  end.

(** Result: the code, [*lib_names] (empty before) and [*buffer_size]. *)
Definition get_non_preload_lib_names (env : list Z + Z) : Z * list Z * Z :=
  let '(e, data_paths) := getenv_path env in
  if negb (e =? AEE_SUCCESS) then (AEE_EGETENV, [], 0)
  else
    let '(nErr, lib_names, _) := add_paths (strtok [] data_paths) [] 0 in
    if nErr =? AEE_SUCCESS then (AEE_SUCCESS, lib_names, Z.of_nat (length lib_names) + 1) else (nErr, lib_names, 0).
End lib_names.

(** The parameters of a domain, as bytes. *)
Record proc_params := ProcParams {
  pp_pid : list Z; pp_threads : list Z; pp_attrs : list Z; pp_errcodes : option (list Z);
  pp_domain : Z; pp_malloc : bool
}.

(** [libs]: the result of [get_non_preload_lib_names]. *)
Definition fastrpc_process_pack_params (buf fd ioErr err_no : Z) (libs : Z * list Z * Z) (p : proc_params) (s : procbuf) : procbuf :=
  let sess_id := GET_SESSION_ID_FROM_DOMAIN_ID (pp_domain p) in
  let '(e, s) := proc_sharedbuf_init buf fd ioErr err_no s in
  if negb (e =? AEE_SUCCESS) then s
  else if proc_sharedbuf s =? 0 then s
  else
    let s := pack_param HLOS_PID_ID (pp_pid p) s in
    let s := pack_param THREAD_PARAM_ID (pp_threads p) s in
    let s := pack_param PROC_ATTR_ID (pp_attrs p) s in
    let s := match pp_errcodes p with Some c => pack_param PANIC_ERR_CODES_ID c s | None => s end in
    let s := pack_param HLOS_PROC_EFFEC_DOM_ID (le32 (pp_domain p)) s in
    let s := match libs with
             | (0, lib_names, _) => if pp_malloc p then pack_param CUSTOM_DSP_SEARCH_PATH_LIBS_ID (lib_names ++ [0]) s else s
             | _ => s
             end in
    pack_param HLOS_PROC_SESS_ID (le32 sess_id) s.

(** ** What the DSP reads *)

(** [n] entries from address [a]: the id and the payload of each. *)
Fixpoint unpack (n : nat) (m : memory) (a : Z) : list (Z * list Z) :=
  match n with
  | O => []
  | S n =>
    let w := of_le32 (load m a 4) in
    let size := Z.land w PROC_ATTR_BUF_ID_SIZE_MASK in
    (Z.shiftr w PROC_ATTR_BUF_ID_POS, load m (a + WORD_SIZE) size) :: unpack n m (a + WORD_SIZE + size)
  end.

Definition unpack_buf (s : procbuf) : list (Z * list Z) :=
  unpack (Z.to_nat (of_le32 (load (pb_mem s) (proc_sharedbuf s) 4))) (pb_mem s) (proc_sharedbuf s + WORD_SIZE).

Lemma ALIGN_W_spec p : 0 < p < 16777216 - 4 -> ALIGN_W p = 4 * ((p + 3) / 4).
Proof.
  intros Hp. unfold ALIGN_W. rewrite u32_small by lia.
  change (u32 (Z.lnot 3)) with (Z.land (Z.ones 32) (Z.lnot (2 ^ 2 - 1))). rewrite Z.land_assoc, Z.land_ones by lia.
  rewrite Z.mod_small by (change (2 ^ 32) with 4294967296; lia). rewrite land_lnot_ones by lia.
  change (2 ^ 2) with 4. Z.to_euclidean_division_equations; lia.
Qed.

Lemma header_fields id size :
  0 <= id < PROC_ATTR_BUF_MAX_ID -> 0 <= size < 16777216 ->
  header id size = 16777216 * id + size /\ Z.shiftr (header id size) PROC_ATTR_BUF_ID_POS = id /\
  Z.land (header id size) PROC_ATTR_BUF_ID_SIZE_MASK = size.
Proof.
  unfold PROC_ATTR_BUF_MAX_ID, HLOS_PROC_SESS_ID, PROC_ATTR_BUF_ID_POS, PROC_ATTR_BUF_ID_SIZE_MASK. intros Hi Hs.
  assert (E : header id size = 16777216 * id + size).
  { unfold header, PROC_ATTR_BUF_ID_POS, PROC_ATTR_BUF_ID_SIZE_MASK. rewrite Z.shiftl_mul_pow2 by lia.
    rewrite Z.land_comm. change 16777215 with (Z.ones 24). rewrite Z.land_ones by lia. change (2 ^ 24) with 16777216.
    rewrite Z.mod_small by lia. rewrite (u32_small (id * 16777216)) by lia. rewrite u32_small by lia. lia. }
  rewrite E. split_and!; [done| |].
  - rewrite Z.shiftr_div_pow2 by lia. change (2 ^ 24) with 16777216. Z.to_euclidean_division_equations; lia.
  - change 16777215 with (Z.ones 24). rewrite Z.land_ones by lia. change (2 ^ 24) with 16777216. Z.to_euclidean_division_equations; lia.
Qed.

(** ** The layout of a packed buffer *)
Definition entry : Type := Z * list Z.
Definition payload (x : entry) : Z := ALIGN_W (Z.of_nat (length x.2)).
Definition entry_size (x : entry) : Z := WORD_SIZE + payload x.
Fixpoint total (es : list entry) : Z := match es with [] => 0 | x :: es => entry_size x + total es end.
Definition entry_ok (x : entry) : Prop := 0 <= x.1 < PROC_ATTR_BUF_MAX_ID /\ 0 < Z.of_nat (length x.2) <= PROC_SHAREDBUF_SIZE.

Definition entry_at (m : memory) (a : Z) (x : entry) : Prop :=
  of_le32 (load m a 4) = header x.1 (payload x) /\ load m (a + WORD_SIZE) (Z.of_nat (length x.2)) = x.2.

Inductive packed_at (m : memory) : Z -> list entry -> Z -> Prop :=
  | packed_nil a : packed_at m a [] a
  | packed_cons a x es e : entry_at m a x -> packed_at m (a + entry_size x) es e -> packed_at m a (x :: es) e.

Lemma payload_bounds x : entry_ok x -> Z.of_nat (length x.2) <= payload x < Z.of_nat (length x.2) + 4.
Proof.
  intros [_ H]. unfold PROC_SHAREDBUF_SIZE in H. unfold payload. rewrite ALIGN_W_spec by lia.
  Z.to_euclidean_division_equations; lia.
Qed.

Lemma total_app es es' : total (es ++ es') = total es + total es'.
Proof. induction es as [|x es IH]; cbn; [done|]. rewrite IH. lia. Qed.
Lemma total_pos es : Forall entry_ok es -> 0 <= total es.
Proof.
  induction 1 as [|x es Hx _ IH]; cbn; [done|]. pose proof (payload_bounds x Hx). destruct Hx.
  unfold entry_size, WORD_SIZE. lia.
Qed.

Lemma packed_end m a es e : packed_at m a es e -> e = a + total es.
Proof. induction 1 as [|a x es e _ _ IH]; cbn; [lia|]. lia. Qed.

Lemma packed_agree m m' a es e : Forall entry_ok es -> packed_at m a es e -> agree m m' a (e - a) -> packed_at m' a es e.
Proof.
  intros Ho H. induction H as [|a x es e [H1 H2] Hp IH]; intros Ha; [constructor|].
  apply Forall_cons in Ho as [Hx Ho]. pose proof (packed_end _ _ _ _ Hp) as He. pose proof (total_pos es Ho). pose proof (payload_bounds x Hx).
  destruct Hx as [_ Hx]. unfold entry_size, WORD_SIZE in *. constructor.
  - split; unfold WORD_SIZE in *; rewrite <- (load_agree m m'); try done; intros y Hy; apply Ha; lia.
  - apply IH; [done|]. unfold entry_size, WORD_SIZE. intros y Hy. apply Ha. lia.
Qed.

Lemma packed_snoc m a es e x : packed_at m a es e -> entry_at m e x -> packed_at m a (es ++ [x]) (e + entry_size x).
Proof. induction 1 as [|a y es e Hy _ IH]; intros Hx; cbn; econstructor; eauto using packed_at. Qed.

(** An entry as it is unpacked: the id, the data, and the padding to a whole word. *)
Definition unpacks_to (x : entry) (u : Z * list Z) : Prop :=
  u.1 = x.1 /\ take (length x.2) u.2 = x.2 /\ Z.of_nat (length u.2) = payload x.

Lemma unpack_packed m a es e : Forall entry_ok es -> packed_at m a es e -> Forall2 unpacks_to es (unpack (length es) m a).
Proof.
  intros Ho H. induction H as [|a x es e [H1 H2] _ IH]; [constructor|]. apply Forall_cons in Ho as [Hx Ho].
  pose proof (payload_bounds x Hx) as Hb. destruct Hx as [Hi Hl]. unfold PROC_SHAREDBUF_SIZE in Hl.
  destruct (header_fields x.1 (payload x) Hi ltac:(lia)) as (_ & Hid & Hsz).
  cbn [length unpack]. rewrite H1, Hid, Hsz. constructor; [|by rewrite <- Z.add_assoc; apply IH].
  split_and!; cbn; [done| |by rewrite length_load, Z2Nat.id by lia].
  replace (payload x) with (Z.of_nat (length x.2) + (payload x - Z.of_nat (length x.2))) by lia.
  rewrite load_app, H2 by lia. apply take_app_length.
Qed.

(** ** Packing *)
Record packed (b : Z) (s : procbuf) (es : list entry) : Prop := {
  pk_base : proc_sharedbuf s = b;
  pk_count : of_le32 (load (pb_mem s) b 4) = Z.of_nat (length es);
  pk_at : packed_at (pb_mem s) (b + WORD_SIZE) es (b + WORD_SIZE + total es);
  pk_cur : (if proc_sharedbuf_cur_addr s =? 0 then b + WORD_SIZE else proc_sharedbuf_cur_addr s) = b + WORD_SIZE + total es
}.

Lemma pack_step b s es x :
  0 < b -> Forall entry_ok es -> entry_ok x -> packed b s es -> WORD_SIZE + total (es ++ [x]) <= PROC_SHAREDBUF_SIZE ->
  Z.of_nat (length es) < 4294967295 -> exists s',
  pack_proc_shared_buf_params x.1 (Some x.2) (Z.of_nat (length x.2)) s = (AEE_SUCCESS, s') /\ packed b s' (es ++ [x]) /\
  forall y, y < b \/ b + PROC_SHAREDBUF_SIZE <= y -> rd (pb_mem s') y = rd (pb_mem s) y.
Proof.
  intros Hb Ho Hx [Hbase Hcnt Hat Hcur] Hfit Hn. rewrite total_app in Hfit. cbn in Hfit. pose proof (total_pos es Ho) as Ht.
  pose proof (payload_bounds x Hx) as Hp. destruct Hx as [Hi Hl]. unfold entry_size, WORD_SIZE, PROC_SHAREDBUF_SIZE in *.
  unfold pack_proc_shared_buf_params. rewrite (proj2 (Z.eqb_neq _ 0)) by lia. rewrite (proj2 (Z.leb_gt _ _)) by lia. cbn [orb].
  unfold WORD_SIZE, PROC_SHAREDBUF_SIZE. rewrite Hbase, Hcur. fold (payload x). rewrite (proj2 (Z.ltb_ge _ _)) by lia.
  set (e := b + 4 + total es) in *.
  rewrite Z.min_r by (Z.to_euclidean_division_equations; lia). rewrite Nat2Z.id, take_ge by done.
  set (m1 := store (pb_mem s) e (le32 (header x.1 (payload x)))). set (m2 := store m1 (e + 4) x.2).
  assert (Hout : forall y, y < e \/ e + 4 + Z.of_nat (length x.2) <= y -> rd m2 y = rd (pb_mem s) y).
  { intros y Hy. unfold m2, m1. rewrite rd_store_out by lia. apply rd_store_out. rewrite length_le32. lia. }
  assert (Hc2 : load m2 b 4 = load (pb_mem s) b 4) by (apply load_agree; intros y Hy; apply Hout; lia).
  rewrite Hc2, Hcnt. set (m3 := store m2 b _).
  assert (H3 : forall y, y < b \/ b + 4 <= y -> rd m3 y = rd m2 y).
  { intros y Hy. apply rd_store_out. rewrite length_le32. lia. }
  eexists. split; [reflexivity|]. split.
  - split; cbn [proc_sharedbuf pb_mem proc_sharedbuf_cur_addr]; [done| | |].
    + assert (Hm3 : load m3 b 4 = le32 (u32 (Z.of_nat (length es) + 1))) by apply load_store_same. rewrite Hm3.
      rewrite u32_small, of_le32_le32 by lia. rewrite length_app. cbn. lia.
    + rewrite total_app. cbn. unfold entry_size, WORD_SIZE in *. replace (b + 4 + (total es + (4 + payload x + 0))) with (e + entry_size x) by (unfold entry_size, WORD_SIZE; lia).
      apply packed_snoc.
      * eapply packed_agree; [done|exact Hat|]. intros y Hy. symmetry. rewrite H3 by lia. apply Hout. lia.
      * split; unfold WORD_SIZE.
        -- rewrite (load_agree m3 m1) by (intros y Hy; rewrite H3 by lia; apply rd_store_out; lia).
           assert (Hm1 : load m1 e 4 = le32 (header x.1 (payload x))) by apply load_store_same. rewrite Hm1. apply of_le32_le32.
           destruct (header_fields x.1 (payload x) Hi ltac:(lia)) as (-> & _). unfold PROC_ATTR_BUF_MAX_ID, HLOS_PROC_SESS_ID in Hi. lia.
        -- rewrite (load_agree m3 m2) by (intros y Hy; apply H3; lia). apply load_store_same.
    + rewrite total_app. cbn. unfold entry_size, WORD_SIZE. rewrite (proj2 (Z.eqb_neq _ 0)) by lia. lia.
  - intros y Hy. cbn [pb_mem]. rewrite H3 by lia. apply Hout. lia.
Qed.

(** A fresh, zeroed buffer. *)
Definition fresh_buf (b : Z) (s : procbuf) : Prop :=
  proc_sharedbuf s = b /\ proc_sharedbuf_cur_addr s = 0 /\ load (pb_mem s) b 4 = [0; 0; 0; 0].

Lemma fresh_packed b s : fresh_buf b s -> packed b s [].
Proof.
  intros (H1 & H2 & H3). split; cbn; [done|by rewrite H3| |by rewrite H2, Z.add_0_r].
  rewrite Z.add_0_r. constructor.
Qed.

Lemma total_length es : Forall entry_ok es -> 4 * Z.of_nat (length es) <= total es.
Proof.
  induction 1 as [|x es Hx _ IH]; [done|]. pose proof (payload_bounds x Hx). destruct Hx as [_ Hx].
  cbn [total length]. unfold entry_size, WORD_SIZE. lia.
Qed.

Definition pack_entry (s : procbuf) (x : entry) : procbuf := pack_param x.1 x.2 s.

Lemma pack_all b s es0 es :
  0 < b -> Forall entry_ok (es0 ++ es) -> packed b s es0 -> WORD_SIZE + total (es0 ++ es) <= PROC_SHAREDBUF_SIZE ->
  let s' := foldl pack_entry s es in
  packed b s' (es0 ++ es) /\ forall y, y < b \/ b + PROC_SHAREDBUF_SIZE <= y -> rd (pb_mem s') y = rd (pb_mem s) y.
Proof.
  intros Hb. revert s es0. induction es as [|x es IH]; intros s es0 Ho Hp Hfit; [by rewrite app_nil_r in *|].
  replace (es0 ++ x :: es) with ((es0 ++ [x]) ++ es) in * by by rewrite <- app_assoc.
  apply Forall_app in Ho as H1. destruct H1 as [H1 H2]. apply Forall_app in H1 as [H0 Hx]. apply Forall_cons in Hx as [Hx _].
  pose proof (total_pos es H2). pose proof (total_length es0 H0) as Hl. pose proof (total_pos [x] ltac:(by apply Forall_singleton)) as Hx0.
  rewrite !total_app in Hfit. unfold WORD_SIZE, PROC_SHAREDBUF_SIZE in Hfit.
  destruct (pack_step b s es0 x Hb H0 Hx Hp) as (s1 & E & Hp1 & Hout);
    [rewrite total_app; unfold WORD_SIZE, PROC_SHAREDBUF_SIZE; lia|lia|].
  cbn [foldl]. assert (Es : pack_entry s x = s1) by (unfold pack_entry, pack_param; by rewrite E). rewrite Es.
  destruct (IH s1 (es0 ++ [x])) as [IH1 IH2]; [done|done|rewrite !total_app; unfold WORD_SIZE, PROC_SHAREDBUF_SIZE; lia|].
  split; [done|]. intros y Hy. rewrite IH2 by done. by apply Hout.
Qed.

Lemma packed_unpack b s es : Forall entry_ok es -> packed b s es -> Forall2 unpacks_to es (unpack_buf s).
Proof.
  intros Ho [Hb Hc Ha _]. unfold unpack_buf. rewrite Hb, Hc, Nat2Z.id. by eapply unpack_packed.
Qed.

(** C37: What is packed is what the DSP unpacks: from a zeroed buffer, packing any list of
    parameters that fits in its 4096 bytes succeeds for each of them, writes nothing
    outside the buffer, and reading the buffer in the documented format gives the same
    ids in order, each with its data padded to whole words. *)
Theorem pack_roundtrip b s es :
  0 < b -> fresh_buf b s -> Forall entry_ok es -> WORD_SIZE + total es <= PROC_SHAREDBUF_SIZE ->
  let s' := foldl pack_entry s es in
  Forall2 unpacks_to es (unpack_buf s') /\
  (forall y, y < b \/ b + PROC_SHAREDBUF_SIZE <= y -> rd (pb_mem s') y = rd (pb_mem s) y).
Proof.
  intros Hb Hf Ho Hfit. destruct (pack_all b s [] es Hb Ho (fresh_packed b s Hf) Hfit) as [Hp Hout].
  split; [by eapply packed_unpack|done].
Qed.

(** The parameters in the order they are sent. *)
Definition params_list (libs : Z * list Z * Z) (p : proc_params) : list entry :=
  [(HLOS_PID_ID, pp_pid p); (THREAD_PARAM_ID, pp_threads p); (PROC_ATTR_ID, pp_attrs p)] ++
  match pp_errcodes p with Some c => [(PANIC_ERR_CODES_ID, c)] | None => [] end ++
  [(HLOS_PROC_EFFEC_DOM_ID, le32 (pp_domain p))] ++
  (if (libs.1.1 =? 0) && pp_malloc p then [(CUSTOM_DSP_SEARCH_PATH_LIBS_ID, libs.1.2 ++ [0])] else []) ++
  [(HLOS_PROC_SESS_ID, le32 (GET_SESSION_ID_FROM_DOMAIN_ID (pp_domain p)))].

(** The configuration of a new process reaches the DSP: process id, thread
    parameters, attributes, the optional error codes, the effective domain, the optional
    library names and the session are unpacked in that order; and an ioctl error that
    announced the buffer (other than [ENOTTY]) goes unnoticed, because [nErr], still 0,
    is converted in place of the ioctl's result. *)
Theorem process_params_sent buf fd ioErr err_no libs p s :
  0 < buf -> fd <> -1 -> (ioErr = 0 \/ err_no <> ENOTTY) ->
  proc_sharedbuf_cur_addr s = 0 -> load (pb_mem s) buf 4 = [0; 0; 0; 0] ->
  Forall entry_ok (params_list libs p) -> WORD_SIZE + total (params_list libs p) <= PROC_SHAREDBUF_SIZE ->
  (proc_sharedbuf_init buf fd ioErr err_no s).1 = AEE_SUCCESS /\
  Forall2 unpacks_to (params_list libs p) (unpack_buf (fastrpc_process_pack_params buf fd ioErr err_no libs p s)).
Proof.
  intros Hb Hfd Hio Hcur Hz Ho Hfit. set (s0 := ProcBuf buf (proc_sharedbuf_cur_addr s) (pb_mem s) (pb_freed s)).
  assert (E : proc_sharedbuf_init buf fd ioErr err_no s = (AEE_SUCCESS, s0)).
  { unfold proc_sharedbuf_init. rewrite (proj2 (Z.eqb_neq buf 0)) by lia. rewrite (proj2 (Z.eqb_neq fd (-1))) by done.
    destruct (Z.eqb_spec ioErr 0) as [|Hne]; [done|]. cbn [negb]. by rewrite (proj2 (Z.eqb_neq err_no ENOTTY)) by by destruct Hio. }
  rewrite E. split; [done|].
  assert (Es : fastrpc_process_pack_params buf fd ioErr err_no libs p s = foldl pack_entry s0 (params_list libs p)).
  { unfold fastrpc_process_pack_params. rewrite E. change (negb (AEE_SUCCESS =? AEE_SUCCESS)) with false. cbv iota.
    change (proc_sharedbuf s0) with buf. rewrite (proj2 (Z.eqb_neq buf 0)) by lia.
    unfold params_list, pack_entry. generalize pack_param as f. generalize le32 as g. generalize (GET_SESSION_ID_FROM_DOMAIN_ID (pp_domain p)) as sid. intros sid g f.
    destruct (pp_errcodes p); destruct libs as [[[|e|e] names] sz]; destruct (pp_malloc p); reflexivity. }
  rewrite Es. destruct (pack_all buf s0 [] (params_list libs p) Hb Ho) as [Hp _]; [by apply fresh_packed|done|].
  by eapply packed_unpack.
Qed.

(** The bound on the buffer is four times too large: the end address is computed in
    words, so when the 4096-byte buffer is full, the next parameter (of up to 3000 bytes)
    is still accepted and its header is written just past the end. *)
Theorem pack_past_end b s es x :
  0 < b -> packed b s es -> WORD_SIZE + total es = PROC_SHAREDBUF_SIZE -> entry_ok x -> Z.of_nat (length x.2) <= 3000 ->
  exists s', pack_proc_shared_buf_params x.1 (Some x.2) (Z.of_nat (length x.2)) s = (AEE_SUCCESS, s') /\
  of_le32 (load (pb_mem s') (b + PROC_SHAREDBUF_SIZE) 4) = header x.1 (payload x) /\
  load (pb_mem s') (b + PROC_SHAREDBUF_SIZE + WORD_SIZE) (Z.of_nat (length x.2)) = x.2.
Proof.
  intros Hb [Hbase Hcnt _ Hcur] Hfull Hx Hlen. pose proof (payload_bounds x Hx) as Hp. destruct Hx as [Hi Hl].
  unfold WORD_SIZE, PROC_SHAREDBUF_SIZE in *.
  unfold pack_proc_shared_buf_params. rewrite (proj2 (Z.eqb_neq _ 0)) by lia. rewrite (proj2 (Z.leb_gt _ _)) by lia. cbn [orb].
  unfold WORD_SIZE, PROC_SHAREDBUF_SIZE. rewrite Hbase, Hcur. fold (payload x). rewrite (proj2 (Z.ltb_ge _ _)) by lia.
  replace (b + 4 + total es) with (b + 4 * 1024) by lia. set (e := b + 4 * 1024) in *.
  rewrite Z.min_r by (Z.to_euclidean_division_equations; lia). rewrite Nat2Z.id, take_ge by done.
  set (m1 := store (pb_mem s) e (le32 (header x.1 (payload x)))). set (m2 := store m1 (e + 4) x.2).
  set (m3 := store m2 b _).
  assert (H3 : forall y, y < b \/ b + 4 <= y -> rd m3 y = rd m2 y).
  { intros y Hy. apply rd_store_out. rewrite length_le32. lia. }
  eexists. split; [reflexivity|]. cbn [pb_mem]. split.
  - rewrite (load_agree m3 m1) by (intros y Hy; rewrite H3 by lia; apply rd_store_out; lia).
    assert (Hm1 : load m1 e 4 = le32 (header x.1 (payload x))) by apply load_store_same. rewrite Hm1. apply of_le32_le32.
    destruct (header_fields x.1 (payload x) Hi ltac:(lia)) as (-> & _). unfold PROC_ATTR_BUF_MAX_ID, HLOS_PROC_SESS_ID in Hi. lia.
  - rewrite (load_agree m3 m2) by (intros y Hy; apply H3; lia). apply load_store_same.
Qed.

(** ** Library names *)

(** The names the loops collect, each with its separator. *)
Definition so_names (files : list dirent) : list Z :=
  flat_map (fun f => if f.1 && is_found (strstr f.2 (str ".so")) then f.2 ++ [59] else []) files.

Definition LIMIT : nat := 2047.
(** The state of the loops after the names [j]: truncated, or exact with its length. *)
Definition collected (j lib_names : list Z) (concat_len : Z) : Prop :=
  lib_names = take LIMIT j /\ ((length j <= LIMIT)%nat -> concat_len = Z.of_nat (length j)).

Lemma take_take_app (n : nat) (l l' : list Z) : take n (take n l ++ l') = take n (l ++ l').
Proof.
  destruct (le_lt_dec n (length l)).
  - rewrite !take_app_le, take_take, Nat.min_id; [done|lia|rewrite length_take; lia].
  - by rewrite (take_ge l) by lia.
Qed.

Lemma collected_step j lib c file :
  collected j lib c ->
  let l1 := (strlcat lib file MAX_NON_PRELOAD_LIBS_LEN).1 in
  let r := strlcat l1 [59] MAX_NON_PRELOAD_LIBS_LEN in
  collected (j ++ file ++ [59]) r.1 r.2.
Proof.
  intros [-> Hc] l1 r. unfold r, l1, strlcat. change (Z.to_nat (MAX_NON_PRELOAD_LIBS_LEN - 1)) with LIMIT. cbn [fst snd].
  split.
  - by rewrite take_take_app, <- app_assoc, take_take_app.
  - rewrite !length_app. cbn [length]. intros Hl. rewrite take_take_app, length_take, length_app. lia.
Qed.

Lemma add_files_collected files j lib c :
  collected j lib c ->
  let r := add_files files lib c in
  (r.1.1 = AEE_SUCCESS \/ r.1.1 = AEE_EBUFFERTOOSMALL) /\
  (r.1.1 = AEE_SUCCESS -> collected (j ++ so_names files) r.1.2 r.2) /\
  ((length (j ++ so_names files) <= LIMIT)%nat -> r.1.1 = AEE_SUCCESS).
Proof.
  revert j lib c. induction files as [|[reg f] files IH]; intros j lib c Hc; cbn [add_files so_names flat_map fst snd].
  { rewrite app_nil_r. auto. }
  destruct (reg && is_found (strstr f (str ".so"))); [|by apply IH].
  assert (Hlong : (length (j ++ (f ++ [59%Z]) ++ so_names files) <= LIMIT)%nat ->
      (MAX_NON_PRELOAD_LIBS_LEN <? c + Z.of_nat (length f)) = false).
  { intros Hl. rewrite !length_app in Hl. cbn in Hl. destruct Hc as [_ Hc]. rewrite Hc by lia. apply Z.ltb_ge.
    unfold LIMIT, MAX_NON_PRELOAD_LIBS_LEN in *. lia. }
  fold (so_names files). destruct (MAX_NON_PRELOAD_LIBS_LEN <? c + Z.of_nat (length f)) eqn:E.
  - split_and!; [by right|done|]. intros Hl. by specialize (Hlong Hl).
  - pose proof (collected_step j lib c f Hc) as Hc'. cbv zeta in Hc'. destruct (strlcat _ [59] _) as [l2 c2]. cbn [fst snd] in Hc'.
    specialize (IH _ _ _ Hc'). rewrite <- app_assoc in IH. exact IH.
Qed.

Section collect.
Context (opendir : list Z -> option (list dirent)).
Definition paths_names (paths : list (list Z)) : list Z := flat_map (fun p => so_names (default [] (opendir p))) paths.

Lemma add_paths_collected paths j lib c :
  collected j lib c ->
  let r := add_paths opendir paths lib c in
  (r.1.1 = AEE_SUCCESS -> collected (j ++ paths_names paths) r.1.2 r.2) /\
  (Forall (fun p => is_Some (opendir p)) paths -> (length (j ++ paths_names paths) <= LIMIT)%nat -> r.1.1 = AEE_SUCCESS).
Proof.
  revert j lib c. induction paths as [|p paths IH]; intros j lib c Hc; [|change (paths_names (p :: paths)) with (so_names (default [] (opendir p)) ++ paths_names paths); cbn [add_paths]].
  { cbn. rewrite app_nil_r. auto. }
  destruct (opendir p) as [files|] eqn:Ep; cbn [default from_option].
  2: { split; [done|]. intros [[x Hx] _]%Forall_cons. congruence. }
  destruct (add_files_collected files j lib c Hc) as (H0 & H1 & H2). destruct (add_files files lib c) as [[e l1] c1]. cbn [fst snd] in *.
  destruct (Z.eqb_spec e AEE_SUCCESS) as [->|He].
  - specialize (IH _ _ _ (H1 eq_refl)). rewrite <- app_assoc in IH. destruct IH as [I1 I2]. split; [done|].
    intros [_ Hall]%Forall_cons Hl. by apply I2.
  - split; [done|]. intros _ Hl. apply H2. clear -Hl. cbn [default from_option] in Hl. unfold id in Hl. rewrite !length_app in *. lia.
Qed.

(** The library list: only the first 16 characters of [DSP_LIBRARY_PATH] are ever
    looked at (its buffer is as long as the variable's name, not its value); when every
    directory of that prefix opens and the names with their separators take at most
    2047 bytes, the list is exactly those names; a longer list that is not refused is
    silently cut at 2047 bytes. *)
Theorem lib_names_collected v :
  let paths := strtok [] (take 16 v) in
  let r := get_non_preload_lib_names opendir (inl v) in
  (forall v', take 16 v' = take 16 v -> get_non_preload_lib_names opendir (inl v') = r) /\
  (r.1.1 = AEE_SUCCESS -> r.1.2 = take 2047 (paths_names paths) /\ r.2 = Z.of_nat (length r.1.2) + 1) /\
  (Forall (fun p => is_Some (opendir p)) paths -> (length (paths_names paths) <= 2047)%nat ->
     r = (AEE_SUCCESS, paths_names paths, Z.of_nat (length (paths_names paths)) + 1)).
Proof.
  intros paths r. unfold r, get_non_preload_lib_names, getenv_path. change (length DSP_LIBRARY_PATH) with 16%nat.
  change (negb (AEE_SUCCESS =? AEE_SUCCESS)) with false. cbv iota. fold paths.
  destruct (add_paths_collected paths [] [] 0) as [H1 H2]; [by split|]. cbn [app] in *.
  destruct (add_paths opendir paths [] 0) as [[e lib] c] eqn:E. cbn [fst snd] in *. split_and!.
  - intros v' Hv. rewrite Hv. fold paths. by rewrite E.
  - destruct (Z.eqb_spec e AEE_SUCCESS) as [->|He]; [|done]. cbn [fst snd]. intros _. split; [|done]. by destruct (H1 eq_refl).
  - intros Hall Hl. specialize (H2 Hall Hl). subst e. destruct (H1 eq_refl) as [-> _].
    change (AEE_SUCCESS =? AEE_SUCCESS) with true. cbv iota. by rewrite take_ge by exact Hl.
Qed.
End collect.

(** ** Concrete inputs *)
Module ProcBufEx.
Definition s0 : procbuf := ProcBuf 4096 0 ∅ [].
Definition two : list entry := [(HLOS_PID_ID, le32 77); (PROC_ATTR_ID, [1; 2; 3])].

Ltac entries := repeat (apply Forall_cons; split; [by split; vm_compute; split|]); apply Forall_nil_2.

Lemma pack_roundtrip_witness : Forall2 unpacks_to two (unpack_buf (foldl pack_entry s0 two)).
Proof. apply (pack_roundtrip 4096 s0 two); [done|done|entries|by vm_compute]. Defined.

Definition params : proc_params := ProcParams (le32 77) (le32 0 ++ le32 0) (le32 1) None 11 true.
Lemma process_params_sent_witness :
  Forall2 unpacks_to (params_list (AEE_EGETENV, [], 0) params)
    (unpack_buf (fastrpc_process_pack_params 4096 5 AEE_EUNSUPPORTED 0 (AEE_EGETENV, [], 0) params s0)).
Proof.
  apply (process_params_sent 4096 5 AEE_EUNSUPPORTED 0 (AEE_EGETENV, [], 0) params s0);
    [done|done|by right|done|done|entries|by vm_compute].
Defined.

(** A full buffer: one parameter of 4088 bytes. *)
Definition big : entry := (PROC_ATTR_ID, replicate 4088 0).
Definition full : procbuf := ProcBuf 4096 (4096 + 4096) (store ∅ 4096 (le32 1 ++ le32 (header PROC_ATTR_ID 4088) ++ replicate 4088 0)) [].
Lemma full_packed : packed 4096 full [big].
Proof.
  split; [done|by vm_compute| |by vm_compute].
  apply (packed_cons _ _ big []); [split; by vm_compute|]. replace (4096 + WORD_SIZE + entry_size big) with (4096 + WORD_SIZE + total [big]) by done. constructor.
Qed.
Lemma pack_past_end_witness : exists s',
  pack_proc_shared_buf_params HLOS_PROC_SESS_ID (Some (le32 1)) 4 full = (AEE_SUCCESS, s') /\
  of_le32 (load (pb_mem s') 8192 4) = 100663300.
Proof.
  destruct (pack_past_end 4096 full [big] (HLOS_PROC_SESS_ID, le32 1)) as (s' & H1 & H2 & _);
    [done|exact full_packed|by vm_compute|by split; vm_compute; split|done|].
  exists s'. split; [exact H1|exact H2].
Defined.

Definition dir (p : list Z) : option (list dirent) := Some [(true, str "a.so"); (false, str "b.so"); (true, str "c.txt")].
Lemma lib_names_collected_witness :
  get_non_preload_lib_names dir (inl (str "/usr/lib/a;/x")) = (AEE_SUCCESS, str "a.so;a.so;", 11).
Proof.
  destruct (lib_names_collected dir (str "/usr/lib/a;/x")) as (_ & _ & H). apply H; [|by apply Nat.leb_le].
  apply Forall_forall. intros p _. by eexists.
Defined.
End ProcBufEx.
