(* ===== verification/BufBound.v ===== *)
(** Bounded buffers, [src/BufBound.c]: a writer that goes on counting when the buffer is
    full, with the same result whether it measures or writes.

    Addresses are integers; a pointer difference is converted to [int] where the code
    stores it in one. *)
From S2P Require Import Prelude Errors.

(** ** Data *)
Record BufBound := Bb { pcBuf : Z; pcWrite : Z; pcEnd : Z }.

(** The writer and the memory it writes. *)
Definition bb : Type := BufBound * memory.

Definition PCSAT (me : BufBound) : Z := pcBuf me + INT_MAX.
Definition set_write (p : Z) (me : BufBound) : BufBound := Bb (pcBuf me) p (pcEnd me).

(** ** Operations *)

(** Result: where to write, how many bytes, and the advanced writer. *)
Definition BufBound_ValidateWrite (nLen : Z) (me : BufBound) : Z * Z * BufBound :=
  let pc := pcWrite me in
  let nMaxCopy := s32 (pcEnd me - pc) in
  if nMaxCopy <? nLen then
    let nMaxAdvance := s32 (PCSAT me - pc) in
    let nLen := if nMaxAdvance <? nLen then nMaxAdvance else nLen in
    (pc, if nMaxCopy <? 0 then 0 else nMaxCopy, set_write (pc + nLen) me)
  else (pc, nLen, set_write (pc + nLen) me).

Definition BufBound_Write (pc : list Z) (nLen : Z) (s : bb) : bb :=
  if 0 <? nLen then
    let '(dest, n, me) := BufBound_ValidateWrite nLen s.1 in
    (me, store s.2 dest (take (Z.to_nat n) pc))
  else s.

Definition BufBound_Putnc (c nLen : Z) (s : bb) : bb :=
  if 0 <? nLen then
    let '(dest, n, me) := BufBound_ValidateWrite nLen s.1 in
    (me, store s.2 dest (replicate (Z.to_nat n) c))
  else s.

Definition BufBound_Advance (nLen : Z) (s : bb) : bb :=
  let me := s.1 in
  let uOffset := u32 (pcWrite me - pcBuf me + nLen) in
  let uOffset := if INT_MAX <? uOffset then (if nLen <? 0 then 0 else INT_MAX) else uOffset in
  (set_write (pcBuf me + uOffset) me, s.2).

Definition BufBound_Init (pBuf nLen : Z) : BufBound :=
  let nLen := if nLen <? 0 then 0 else nLen in Bb pBuf pBuf (pBuf + nLen).

Definition BufBound_Putc (c : Z) (s : bb) : bb :=
  let '(me, m) := s in
  if 0 <? pcEnd me - pcWrite me then (set_write (pcWrite me + 1) me, store m (pcWrite me) [c])
  else if negb (pcWrite me =? PCSAT me) then (set_write (pcWrite me + 1) me, m) else (me, m).

Definition BufBound_ForceNullTerm (s : bb) : bb :=
  let '(me, m) := s in
  if 0 <? pcEnd me - pcWrite me then (set_write (pcWrite me + 1) me, store m (pcWrite me) [0])
  else
    let me' := if negb (pcWrite me =? PCSAT me) then set_write (pcWrite me + 1) me else me in
    (me', if negb (pcEnd me =? pcBuf me) then store m (pcEnd me - 1) [0] else m).

Definition BufBound_Puts (cpsz : list Z) (s : bb) : bb := BufBound_Write cpsz (s32 (Z.of_nat (length cpsz))) s.

Definition BufBound_BufSize (me : BufBound) : Z := s32 (pcEnd me - pcBuf me).
Definition BufBound_Left (me : BufBound) : Z := s32 (pcEnd me - pcWrite me).
Definition BufBound_ReallyWrote (me : BufBound) : Z := s32 (Z.min (pcEnd me - pcBuf me) (pcWrite me - pcBuf me)).
Definition BufBound_Wrote (me : BufBound) : Z := s32 (pcWrite me - pcBuf me).

(** ** What a writer has been given

    [out] is everything written so far; the buffer has [size] bytes at [buf]; [m0] is the
    memory before. *)
Record holds (buf size : Z) (m0 : memory) (out : list Z) (s : bb) : Prop := {
  h_buf : pcBuf s.1 = buf;
  h_end : pcEnd s.1 = buf + size;
  h_write : pcWrite s.1 = buf + Z.min INT_MAX (Z.of_nat (length out));
  h_in : load s.2 buf (Z.min size (Z.of_nat (length out))) = take (Z.to_nat size) out;
  h_out : forall y, y < buf \/ buf + size <= y -> rd s.2 y = rd m0 y
}.

Definition size_ok (size : Z) : Prop := 0 <= size <= INT_MAX.

Lemma holds_init buf size m : size_ok size -> holds buf size m [] (BufBound_Init buf size, m).
Proof.
  unfold size_ok, INT_MAX. intros Hs. unfold BufBound_Init. rewrite (proj2 (Z.ltb_ge _ _)) by lia.
  split; cbn; [done|done|unfold INT_MAX; lia| |done]. rewrite Z.min_r, take_nil by lia. by rewrite load_nil.
Qed.

(** Appending [bs], of which [take n bs] is stored. *)
Lemma holds_store buf size m0 out bs me m n p :
  size_ok size -> holds buf size m0 out (me, m) ->
  n = Z.max 0 (Z.min (size - Z.min INT_MAX (Z.of_nat (length out))) (Z.of_nat (length bs))) ->
  p = buf + Z.min INT_MAX (Z.of_nat (length (out ++ bs))) ->
  holds buf size m0 (out ++ bs) (set_write p me, store m (pcWrite me) (take (Z.to_nat n) bs)).
Proof.
  unfold size_ok, INT_MAX. intros Hs [H1 H2 H3 H4 H5] Hn Hp. cbn [fst snd] in *. unfold INT_MAX in *.
  set (lo := Z.of_nat (length out)) in *. set (lb := Z.of_nat (length bs)) in *.
  assert (Hlb : 0 <= lb) by lia. assert (Hlo : 0 <= lo) by lia.
  assert (Hlen : Z.of_nat (length (take (Z.to_nat n) bs)) = n) by (rewrite length_take; lia).
  assert (Happ : Z.of_nat (length (out ++ bs)) = lo + lb) by (rewrite length_app; lia).
  split; cbn [fst snd set_write pcBuf pcEnd pcWrite]; [done|done|by rewrite Hp| |].
  - rewrite Happ. destruct (Z_le_gt_dec size lo) as [Hfull|Hroom].
    + rewrite load_store_out by lia. rewrite Z.min_l in H4 |- * by lia. rewrite H4. by rewrite take_app_le by lia.
    + rewrite (take_ge out) in H4 by lia. rewrite Z.min_r in H4 by lia. rewrite Z.min_r in H3 by lia.
      assert (En : n = Z.min (size - lo) lb) by lia.
      replace (Z.min size (lo + lb)) with (lo + n) by lia. rewrite load_app by lia.
      rewrite load_store_out by lia. rewrite H4. replace (buf + lo) with (pcWrite me) by lia.
      rewrite <- Hlen at 2. rewrite load_store_same. rewrite take_app_ge by lia. f_equal.
      destruct (Z_le_gt_dec lb (size - lo)); [rewrite !take_ge by lia; done|f_equal; lia].
  - intros y Hy. rewrite rd_store_out by lia. by apply H5.
Qed.

Lemma validate_write buf size m0 out me m nLen :
  size_ok size -> holds buf size m0 out (me, m) -> 0 < nLen <= INT_MAX ->
  BufBound_ValidateWrite nLen me =
    (pcWrite me, Z.max 0 (Z.min (size - Z.min INT_MAX (Z.of_nat (length out))) nLen),
     set_write (buf + Z.min INT_MAX (Z.of_nat (length out) + nLen)) me).
Proof.
  unfold size_ok, INT_MAX. intros Hs [H1 H2 H3 _ _] Hn. cbn [fst] in *. unfold BufBound_ValidateWrite, PCSAT, INT_MAX in *.
  rewrite H2, H3, H1. rewrite !s32_small by lia.
  repeat case_ltb; (f_equal; [apply (f_equal2 pair); lia|apply (f_equal (fun p => set_write p me)); lia]).
Qed.

(** ** The operations as appends *)
Lemma holds_write buf size m0 out s bs :
  size_ok size -> holds buf size m0 out s -> Z.of_nat (length bs) <= INT_MAX ->
  holds buf size m0 (out ++ bs) (BufBound_Write bs (Z.of_nat (length bs)) s).
Proof.
  intros Hs Hh Hl. destruct s as [me m]. unfold BufBound_Write. destruct (Z.ltb_spec 0 (Z.of_nat (length bs))) as [Hpos|Hz].
  - cbn [fst snd]. rewrite (validate_write buf size m0 out me m (Z.of_nat (length bs)) Hs Hh) by lia. eapply holds_store; [done|done|done|]. rewrite length_app. lia.
  - destruct bs; [by rewrite app_nil_r|cbn in Hz; lia].
Qed.

Lemma holds_puts buf size m0 out s bs :
  size_ok size -> holds buf size m0 out s -> Z.of_nat (length bs) <= INT_MAX -> holds buf size m0 (out ++ bs) (BufBound_Puts bs s).
Proof.
  intros Hs Hh Hl. unfold BufBound_Puts. rewrite s32_small by (unfold INT_MAX in Hl; lia). by apply holds_write.
Qed.

Lemma holds_putnc buf size m0 out s c n :
  size_ok size -> holds buf size m0 out s -> 0 <= n <= INT_MAX ->
  holds buf size m0 (out ++ replicate (Z.to_nat n) c) (BufBound_Putnc c n s).
Proof.
  intros Hs Hh Hn. destruct s as [me m]. unfold BufBound_Putnc. destruct (Z.ltb_spec 0 n) as [Hpos|Hz].
  - cbn [fst snd]. rewrite (validate_write buf size m0 out me m n Hs Hh) by lia. set (k := Z.max 0 _).
    assert (Hk : replicate (Z.to_nat k) c = take (Z.to_nat k) (replicate (Z.to_nat n) c)).
    { rewrite take_replicate. f_equal. destruct Hs. lia. }
    rewrite Hk. eapply holds_store; [done|done|unfold k; rewrite length_replicate, Z2Nat.id by lia; done|].
    rewrite length_app, length_replicate. f_equal. lia.
  - replace n with 0 by lia. by rewrite app_nil_r.
Qed.

(** One byte more, when the buffer is full: only the count changes. *)
Lemma advance_full buf size m0 out me m :
  size_ok size -> holds buf size m0 out (me, m) -> size <= Z.min INT_MAX (Z.of_nat (length out)) ->
  (if negb (pcWrite me =? PCSAT me) then set_write (pcWrite me + 1) me else me) =
    set_write (buf + Z.min INT_MAX (Z.of_nat (length out) + 1)) me.
Proof.
  intros Hs [H1 H2 H3 _ _] Hf. cbn [fst] in *. unfold PCSAT. rewrite H1, H3.
  destruct (Z.eqb_spec (buf + Z.min INT_MAX (Z.of_nat (length out))) (buf + INT_MAX)) as [E|E]; cbn [negb].
  - destruct me as [b w e]. unfold set_write. cbn in *. f_equal. lia.
  - unfold set_write. f_equal. lia.
Qed.

Lemma holds_putc buf size m0 out s c :
  size_ok size -> holds buf size m0 out s -> holds buf size m0 (out ++ [c]) (BufBound_Putc c s).
Proof.
  intros Hs Hh. destruct s as [me m]. pose proof Hh as [H1 H2 H3 _ _]. cbn [fst] in *.
  assert (Hl : Z.of_nat (length (out ++ [c])) = Z.of_nat (length out) + 1) by (rewrite length_app; cbn; lia).
  cbv beta iota delta [BufBound_Putc]. destruct (Z.ltb_spec 0 (pcEnd me - pcWrite me)) as [Hroom|Hfull].
  - change [c] with (take (Z.to_nat 1) [c]) at 2. unfold size_ok in Hs. eapply holds_store; [done|done|cbn; lia|rewrite Hl; lia].
  - pose proof (advance_full buf size m0 out me m Hs Hh ltac:(lia)) as E.
    assert (Hg : holds buf size m0 (out ++ [c])
        (set_write (buf + Z.min INT_MAX (Z.of_nat (length (out ++ [c])))) me, store m (pcWrite me) (take (Z.to_nat 0) [c]))).
    { unfold size_ok in Hs. eapply holds_store; [done|done|cbn; lia|done]. }
    rewrite Hl, <- E in Hg. by destruct (negb _).
Qed.

Lemma holds_advance buf size m0 out s n :
  size_ok size -> holds buf size m0 out s -> -2147483648 <= n <= INT_MAX ->
  let s' := BufBound_Advance n s in
  pcWrite s'.1 = buf + Z.max 0 (Z.min INT_MAX (Z.min INT_MAX (Z.of_nat (length out)) + n)) /\ s'.2 = s.2.
Proof.
  intros Hs [H1 H2 H3 _ _] Hn. unfold BufBound_Advance. cbn [fst snd set_write pcWrite]. rewrite H1, H3. split; [|done].
  unfold INT_MAX in *. replace (buf + _ - buf + n) with (Z.min 2147483647 (Z.of_nat (length out)) + n) by lia.
  set (o := Z.min 2147483647 (Z.of_nat (length out)) + n) in *.
  assert (Ho : -2147483648 <= o <= 4294967294) by lia. assert (Hneg : o < 0 -> n < 0) by lia.
  assert (Hbig : 2147483647 < o -> 0 <= n) by lia.
  unfold u32. destruct (Z_lt_le_dec o 0).
  - replace (o mod 4294967296) with (o + 4294967296) by (Z.to_euclidean_division_equations; lia). repeat case_ltb; lia.
  - rewrite Z.mod_small by lia. repeat case_ltb; lia.
Qed.

(** After [ForceNullTerm]: one more byte counted, and the buffer, if it has any room, is
    a NUL-terminated string. *)
Lemma force_null buf size m0 out s :
  size_ok size -> holds buf size m0 out s ->
  let s' := BufBound_ForceNullTerm s in
  pcWrite s'.1 = buf + Z.min INT_MAX (Z.of_nat (length out) + 1) /\ pcBuf s'.1 = buf /\ pcEnd s'.1 = buf + size /\
  (0 < size -> let n := Z.min (size - 1) (Z.of_nat (length out)) in
     load s'.2 buf n = take (Z.to_nat n) out /\ rd s'.2 (buf + n) = 0) /\
  (forall y, y < buf \/ buf + size <= y -> rd s'.2 y = rd m0 y).
Proof.
  intros Hs Hh. destruct s as [me m]. pose proof Hh as [H1 H2 H3 H4 H5]. cbn [fst snd] in *. cbv beta iota zeta delta [BufBound_ForceNullTerm].
  destruct (Z.ltb_spec 0 (pcEnd me - pcWrite me)) as [Hroom|Hfull].
  - unfold size_ok in Hs. assert (Hlo : Z.of_nat (length out) < size) by lia. rewrite Z.min_r in H3, H4 by lia.
    cbn [fst snd set_write pcBuf pcWrite pcEnd]. split_and!; [lia|done|done| |].
    + intros _. rewrite Z.min_r by lia. rewrite load_store_out, H4, take_ge, take_ge by lia. split; [done|].
      rewrite rd_store_in by (cbn; lia). by replace (Z.to_nat _) with 0%nat by lia.
    + intros y Hy. rewrite rd_store_out by (cbn; lia). by apply H5.
  - pose proof (advance_full buf size m0 out me m Hs Hh ltac:(lia)) as E. rewrite E.
    cbn [fst snd set_write pcBuf pcWrite pcEnd]. unfold size_ok in Hs. rewrite H1, H2. split_and!; [done|done|done| |].
    + intros Hp. rewrite (proj2 (Z.eqb_neq _ _)) by lia. cbn [negb]. rewrite Z.min_l by lia. split.
      * rewrite load_store_out by lia. rewrite Z.min_l in H4 by lia.
        replace size with ((size - 1) + 1) in H4 at 1 by lia. rewrite load_app in H4 by lia.
        apply (f_equal (take (Z.to_nat (size - 1)))) in H4. rewrite take_app_le, take_ge, take_take in H4; [|rewrite length_load; lia..].
        rewrite H4. f_equal. lia.
      * rewrite rd_store_in by (cbn; lia). by replace (Z.to_nat _) with 0%nat by lia.
    + intros y Hy. destruct (negb (buf + size =? buf)) eqn:Eb; [|by apply H5]. rewrite rd_store_out; [by apply H5|]. cbn.
      apply negb_true_iff, Z.eqb_neq in Eb. lia.
Qed.

(** One call of the interface, and what it appends. *)
Inductive call := CWrite (bs : list Z) | CPutnc (c n : Z) | CPutc (c : Z) | CPuts (bs : list Z).
Definition run_call (s : bb) (c : call) : bb :=
  match c with
  | CWrite bs => BufBound_Write bs (Z.of_nat (length bs)) s
  | CPutnc c n => BufBound_Putnc c n s
  | CPutc c => BufBound_Putc c s
  | CPuts bs => BufBound_Puts bs s
  end.
Definition appends (c : call) : list Z :=
  match c with CWrite bs | CPuts bs => bs | CPutnc c n => replicate (Z.to_nat n) c | CPutc c => [c] end.
Definition call_ok (c : call) : Prop :=
  match c with CWrite bs | CPuts bs => Z.of_nat (length bs) <= INT_MAX | CPutnc _ n => 0 <= n <= INT_MAX | CPutc _ => True end.

Lemma holds_call buf size m0 out s c :
  size_ok size -> holds buf size m0 out s -> call_ok c -> holds buf size m0 (out ++ appends c) (run_call s c).
Proof.
  intros Hs Hh Hc. destruct c; cbn in *; [by apply holds_write|by apply holds_putnc|by apply holds_putc|by apply holds_puts].
Qed.
Lemma holds_calls buf size m0 out s cs :
  size_ok size -> holds buf size m0 out s -> Forall call_ok cs ->
  holds buf size m0 (out ++ flat_map appends cs) (foldl run_call s cs).
Proof.
  intros Hs Hh Hc. revert out s Hh. induction Hc as [|c cs Hc _ IH]; intros out s Hh; cbn; [by rewrite app_nil_r|].
  rewrite app_assoc. apply IH. by apply holds_call.
Qed.

(** C38: A bounded buffer writes a prefix and counts everything: after any sequence of
    writes into a buffer of any size (0 to measure), the buffer holds exactly the first
    [size] bytes of what was written, nothing outside it changes, [BufBound_Wrote] is the
    full length (at most INT_MAX), so it does not depend on the size, and [Left],
    [ReallyWrote] and [BufSize] follow from it; [ForceNullTerm] then leaves a
    NUL-terminated prefix. *)
Theorem bufbound_prefix buf size m cs :
  size_ok size -> Forall call_ok cs ->
  let out := flat_map appends cs in
  let s := foldl run_call (BufBound_Init buf size, m) cs in
  let n := Z.min INT_MAX (Z.of_nat (length out)) in
  load s.2 buf (Z.min size (Z.of_nat (length out))) = take (Z.to_nat size) out /\
  (forall y, y < buf \/ buf + size <= y -> rd s.2 y = rd m y) /\
  BufBound_Wrote s.1 = n /\ BufBound_BufSize s.1 = size /\ BufBound_Left s.1 = size - n /\ BufBound_ReallyWrote s.1 = Z.min size n /\
  (0 < size -> let k := Z.min (size - 1) (Z.of_nat (length out)) in
     let s' := BufBound_ForceNullTerm s in
     load s'.2 buf k = take (Z.to_nat k) out /\ rd s'.2 (buf + k) = 0).
Proof.
  intros Hs Hc out s n. pose proof (holds_calls buf size m [] _ cs Hs (holds_init buf size m Hs) Hc) as Hh. cbn [app] in Hh.
  fold out s in Hh. destruct (force_null buf size m out s Hs Hh) as (_ & _ & _ & Hn & _).
  destruct Hh as [H1 H2 H3 H4 H5]. unfold size_ok in Hs.
  unfold BufBound_Wrote, BufBound_BufSize, BufBound_Left, BufBound_ReallyWrote. rewrite H1, H2, H3. fold n.
  assert (Hnr : 0 <= n <= INT_MAX) by (unfold n, INT_MAX; lia). unfold INT_MAX in *.
  split_and!; [done|done| | | | |exact Hn]; rewrite s32_small; lia.
Qed.

Lemma size3_ok : size_ok 3.
Proof. by split. Qed.

Lemma bufbound_prefix_witness :
  BufBound_Wrote (foldl run_call (BufBound_Init 100 3, ∅) [CPuts (str "ab"); CPutc 47; CPutnc 120 5]).1 = 8.
Proof.
  assert (Hc : Forall call_ok [CPuts (str "ab"); CPutc 47; CPutnc 120 5]).
  { apply Forall_cons; split; [by vm_compute|]. apply Forall_cons; split; [exact I|]. apply Forall_singleton. split; by vm_compute. }
  destruct (bufbound_prefix 100 3 ∅ [CPuts (str "ab"); CPutc 47; CPutnc 120 5] size3_ok Hc) as (_ & _ & H & _).
  rewrite H. by vm_compute.
Defined.

(** Moving the write position never leaves the countable range: [BufBound_Advance] by
    any positive or negative [int] clamps the position between the start and INT_MAX past
    it, and writes nothing. *)
Theorem bufbound_advance_clamps buf size m cs n :
  size_ok size -> Forall call_ok cs -> -2147483648 <= n <= INT_MAX ->
  let s := foldl run_call (BufBound_Init buf size, m) cs in
  let s' := BufBound_Advance n s in
  pcWrite s'.1 - buf = Z.max 0 (Z.min INT_MAX (BufBound_Wrote s.1 + n)) /\ s'.2 = s.2.
Proof.
  intros Hs Hc Hn s s'. pose proof (holds_calls buf size m [] _ cs Hs (holds_init buf size m Hs) Hc) as Hh. cbn [app] in Hh. fold s in Hh.
  destruct (holds_advance buf size m _ s n Hs Hh Hn) as [E1 E2]. unfold s'. rewrite E1, E2. split; [|done].
  destruct Hh as [H1 _ H3 _ _]. unfold BufBound_Wrote. rewrite H1, H3. unfold INT_MAX in *. rewrite s32_small; lia.
Qed.

Lemma bufbound_advance_clamps_witness :
  (BufBound_Advance (-9) (foldl run_call (BufBound_Init 100 3, ∅) [CPuts (str "ab")])).2 =
  (foldl run_call (BufBound_Init 100 3, ∅) [CPuts (str "ab")]).2.
Proof.
  assert (Hc : Forall call_ok [CPuts (str "ab")]) by (apply Forall_singleton; by vm_compute).
  assert (Hn : -2147483648 <= -9 <= INT_MAX) by by split.
  exact (proj2 (bufbound_advance_clamps 100 3 ∅ [CPuts (str "ab")] (-9) size3_ok Hc Hn)).
Defined.
