(* ===== verification/StdPath.v ===== *)
(** Paths, [src/std_path.c]. Strings are byte lists without their NUL. *)
From S2P Require Import Prelude Errors Domain BufBound.

Definition SLASH : Z := 47.
Definition DOT : Z := 46.

(** ** [std_makepath] *)

(** Result: the value returned, and the memory. *)
Definition std_makepath (cpszDir cpszFile : list Z) (pszOut nOutLen : Z) (m : memory) : Z * memory :=
  let s : bb := (BufBound_Init pszOut nOutLen, m) in
  let s := BufBound_Puts cpszDir s in
  let s := if negb (bool_decide (cpszDir = [])) && negb (List.last cpszDir 0 =? SLASH) then BufBound_Putc SLASH s else s in
  let cpszFile := if hd 0 cpszFile =? SLASH then tl cpszFile else cpszFile in
  let s := BufBound_Puts cpszFile s in
  let s := BufBound_ForceNullTerm s in
  (s32 (BufBound_Wrote s.1 - 1), s.2).

(** The path that is meant. *)
Definition strip (file : list Z) : list Z := if hd 0 file =? SLASH then tl file else file.
Definition joined (dir file : list Z) : list Z :=
  dir ++ (if negb (bool_decide (dir = [])) && negb (List.last dir 0 =? SLASH) then [SLASH] else []) ++ strip file.

(** [std_makepath] has the contract of [snprintf]: for every directory, file and
    output size it returns the length of the whole joined path (one slash between the
    two), whatever fits; the output is the longest prefix that leaves room for the NUL,
    NUL-terminated, and nothing outside it is written. *)
Theorem makepath_joins dir file out n m :
  size_ok n -> Z.of_nat (length (joined dir file)) < INT_MAX ->
  let r := std_makepath dir file out n m in
  r.1 = Z.of_nat (length (joined dir file)) /\
  (0 < n -> let k := Z.min (n - 1) (Z.of_nat (length (joined dir file))) in
     load r.2 out k = take (Z.to_nat k) (joined dir file) /\ rd r.2 (out + k) = 0) /\
  (forall y, y < out \/ out + n <= y -> rd r.2 y = rd m y).
Proof.
  intros Hs Hl r.
  assert (Hlen : Z.of_nat (length dir) <= INT_MAX /\ Z.of_nat (length (strip file)) <= INT_MAX).
  { unfold joined in Hl. rewrite !length_app in Hl. lia. }
  destruct Hlen as [Hd Hf]. unfold r, std_makepath. fold (strip file).
  set (c := negb (bool_decide (dir = [])) && negb (List.last dir 0 =? SLASH)).
  set (s0 := BufBound_Puts dir (BufBound_Init out n, m)).
  assert (H0 : holds out n m dir s0) by (apply (holds_puts out n m []); [done|by apply holds_init|done]).
  set (s1 := if c then BufBound_Putc SLASH s0 else s0).
  assert (H1 : holds out n m (dir ++ (if c then [SLASH] else [])) s1).
  { unfold s1. destruct c; [by apply holds_putc|by rewrite app_nil_r]. }
  pose proof (holds_puts out n m _ s1 (strip file) Hs H1 Hf) as H2. rewrite <- app_assoc in H2. fold c in H2.
  change (dir ++ (if c then [SLASH] else []) ++ strip file) with (joined dir file) in H2.
  destruct (force_null out n m _ _ Hs H2) as (Hw & Hb & _ & Hn & Ho). cbn [fst snd]. split_and!; [|exact Hn|exact Ho].
  unfold BufBound_Wrote. rewrite Hw, Hb. unfold INT_MAX in *. rewrite !s32_small; [lia|lia|]. rewrite s32_small; lia.
Qed.

(** ** [std_splitpath] *)
Fixpoint std_splitpath (cpsz cpszDir : list Z) : option (list Z) :=
  match cpszDir with
  | d :: dir =>
    if (d =? SLASH) && bool_decide (dir = []) then (if hd 0 cpsz =? SLASH then Some (tl cpsz) else match cpsz with [] => Some [] | _ => None end)
    else if d =? hd 0 cpsz then std_splitpath (tl cpsz) dir else None
  | [] => if hd 0 cpsz =? SLASH then Some (tl cpsz) else match cpsz with [] => Some [] | _ => None end
  end.

(** Splitting undoes joining: the file part of a joined path, with respect to the
    directory it was joined to, is the file (without one leading slash), for every
    non-empty directory and every file. *)
Theorem split_joined dir file : dir <> [] -> std_splitpath (joined dir file) dir = Some (strip file).
Proof.
  induction dir as [|d dir IH]; [done|]. intros _. destruct dir as [|d' dir].
  - unfold joined. cbn [bool_decide negb andb List.last app std_splitpath hd tl].
    change (bool_decide ([d] = [])) with false. change (bool_decide (([] : list Z) = [])) with true. cbn [negb andb]. rewrite andb_true_r.
    destruct (Z.eqb_spec d SLASH) as [->|Hd]; cbn [negb app hd tl].
    + done.
    + by rewrite Z.eqb_refl.
  - assert (E : joined (d :: d' :: dir) file = d :: joined (d' :: dir) file).
    { unfold joined. change (bool_decide (d :: d' :: dir = [])) with false. by change (bool_decide (d' :: dir = [])) with false. }
    rewrite E. change (std_splitpath (d :: joined (d' :: dir) file) (d :: d' :: dir)) with
      (if (d =? SLASH) && bool_decide (d' :: dir = []) then (if d =? SLASH then Some (joined (d' :: dir) file) else None)
       else if d =? d then std_splitpath (joined (d' :: dir) file) (d' :: dir) else None).
    change (bool_decide (d' :: dir = [])) with false. rewrite andb_false_r, Z.eqb_refl. by apply IH.
Qed.

Lemma split_joined_witness : std_splitpath (str "a/b/c.so") (str "a/b") = Some (str "c.so").
Proof. apply (split_joined (str "a/b") (str "/c.so")). discriminate. Defined.

(** ** [std_basename] *)

(** [strrchr]: the suffix that starts at the last [c]. *)
Fixpoint strrchr (s : list Z) (c : Z) : option (list Z) :=
  match s with
  | [] => None
  | x :: t => match strrchr t c with Some r => Some r | None => if x =? c then Some s else None end
  end.
Definition std_basename (s : list Z) : list Z := match strrchr s SLASH with Some t => tl t | None => s end.

(** ** [std_cleanpath] *)

(** The bytes of [a] before the last slash; all gone when there is none. *)
Definition before_last_slash (a : list Z) : list Z :=
  match strrchr a SLASH with Some t => take (length a - length t) a | None => [] end.

Definition ends_element (u : list Z) : bool := match u with [] => true | c :: _ => c =? SLASH end.

(** The first loop, on the text after a leading slash, from position [p]. The model is the text
    that is left. The [memmove] takes its length from the place of the deletion and not from the
    source, so it also copies the bytes behind the terminating null, as many as were deleted,
    to the place behind the text's new end; these reads are not modelled. *)
Fixpoint clean_dots (fuel : nat) (s : list Z) (p : nat) : option (list Z) :=
  match fuel with
  | O => None
  | S fuel =>
    match strstr (drop p s) [SLASH; DOT] with
    | None => Some s
    | Some t =>
      let i := (length s - length t)%nat in
      let u := drop 2 t in
      if ends_element u then clean_dots fuel (take i s ++ u) i
      else if (hd 0 u =? DOT) && ends_element (tl u)
      then let a := before_last_slash (take i s) in clean_dots fuel (a ++ tl u) (length a)
      else clean_dots fuel s (i + 2)
    end
  end.

(** [while (s == strstr(s, pre)) memmove(s, s + k, ..)]. *)
Fixpoint strip_leading (fuel : nat) (pre : list Z) (k : nat) (s : list Z) : list Z :=
  match fuel with
  | O => s
  | S fuel => if starts_with pre s then strip_leading fuel pre k (drop k s) else s
  end.

(** [while (pc = strstr(path, "//")) memmove(pc, pc + 1, ..)]. *)
Fixpoint whack (fuel : nat) (s : list Z) : list Z :=
  match fuel with
  | O => s
  | S fuel => match strstr s [SLASH; SLASH] with
              | None => s
              | Some t => whack fuel (take (length s - length t) s ++ tl t)
              end
  end.

(** Passes of the first loop for a text of [n] bytes. *)
Definition dots_fuel (n : nat) : nat := S (n * (n + 1) + n).

Definition std_cleanpath (path : list Z) : option (list Z) :=
  let rooted := hd 0 path =? SLASH in
  let s := if rooted then tl path else path in
  match clean_dots (dots_fuel (length s)) s 0 with
  | None => None
  | Some s =>
    let s := strip_leading (S (length s)) (str "../") 2 s in
    let s := strip_leading (S (length s)) (str "./") 1 s in
    let s := if starts_with (str "..") s || starts_with (str ".") s then [] else s in
    let path := if rooted then SLASH :: s else s in
    Some (whack (length path) path)
  end.

(** The examples documented in [inc/AEEstd.h]. *)
Definition cleanpath_examples : list (string * string) :=
  [(""%string, ""%string); ("/", "/"); ("./", "/"); ("/.", "/"); ("/./", "/"); ("..", ""); ("/..", "/"); ("../", "/"); ("/../", "/");
   ("x/.", "x"); ("x/./", "x/"); ("x/..", ""); ("/x/..", "/"); ("x/../", "/"); ("/x/../", "/"); ("/x/../..", "/"); ("x/../..", "");
   ("x/../../", "/"); ("x/./../", "/"); ("x/././", "x/"); ("x/.././", "/"); ("x/../.", ""); ("x/./..", ""); ("../x", "/x"); ("../../x", "/x");
   ("/../x", "/x"); ("./../x", "/x"); ("//", "/"); ("///", "/"); ("////", "/"); ("x//x", "x/x")]%string.

Definition example_holds (e : string * string) : bool := bool_decide (std_cleanpath (str e.1) = Some (str e.2)).

Lemma strstr_split s p t : strstr s p = Some t -> exists a, s = a ++ t /\ starts_with p t = true.
Proof.
  revert t. induction s as [|c s IH]; intros t; cbn [strstr].
  - destruct (starts_with p []) eqn:E; [|done]. intros [= <-]. by exists [].
  - destruct (starts_with p (c :: s)) eqn:E; [intros [= <-]; by exists []|].
    intros H. destruct (IH t H) as (a & -> & Ht). by exists (c :: a).
Qed.

Lemma starts_with_two a b t : starts_with [a; b] t = true -> exists u, t = a :: b :: u.
Proof.
  destruct t as [|x [|y u]]; cbn; [done|by rewrite andb_false_r|]. rewrite andb_true_r.
  intros [->%Z.eqb_eq ->%Z.eqb_eq]%andb_true_iff. by exists u.
Qed.

(** A match of two bytes from position [p] on. *)
Lemma strstr_at s p a b t :
  strstr (drop p s) [a; b] = Some t ->
  exists i u, (p <= i)%nat /\ s = take i s ++ t /\ t = a :: b :: u /\ length (take i s) = i /\ (length s - length t)%nat = i.
Proof.
  intros H. destruct (strstr_split _ _ _ H) as (x & Hx & Ht). destruct (starts_with_two _ _ _ Ht) as (u & Hu).
  assert (Ha : exists a, s = a ++ t /\ (p <= length a)%nat).
  { exists (take p s ++ x). rewrite <- app_assoc, <- Hx, take_drop. split; [done|].
    destruct (le_lt_dec p (length s)); [rewrite length_app, length_take; lia|].
    rewrite drop_ge in Hx by lia. subst t. by destruct x. }
  destruct Ha as (a0 & -> & Hp). exists (length a0), u. rewrite take_app_length, length_app. split_and!; [done..|lia].
Qed.

Lemma length_before a : (length (before_last_slash a) <= length a)%nat.
Proof. unfold before_last_slash. destruct (strrchr a SLASH); [rewrite length_take; lia|cbn; lia]. Qed.

Lemma clean_dots_total n fuel s p :
  (length s <= n)%nat -> (length s * (n + 1) + (length s - p) < fuel)%nat ->
  exists r, clean_dots fuel s p = Some r /\ (length r <= length s)%nat.
Proof.
  revert s p. induction fuel as [|fuel IH]; intros s p Hn Hf; [lia|]. cbn [clean_dots].
  destruct (strstr (drop p s) [SLASH; DOT]) as [t|] eqn:E; [|by exists s].
  destruct (strstr_at _ _ _ _ _ E) as (i & u & Hp & Hs & -> & Hi & Hlen). rewrite Hlen. change (drop 2 (SLASH :: DOT :: u)) with u.
  assert (Hl : length s = (i + S (S (length u)))%nat) by (rewrite Hs at 1; rewrite length_app, Hi; done).
  destruct (ends_element u).
  - assert (Hls : length (take i s ++ u) = (i + length u)%nat) by by rewrite length_app, Hi.
    destruct (IH (take i s ++ u) i) as (r & -> & Hr); [lia|nia|]. exists r. split; [done|lia].
  - destruct ((hd 0 u =? DOT) && ends_element (tl u)) eqn:Eu.
    + destruct u as [|c u]; [by apply andb_true_iff in Eu as [? _]|]. cbn [tl length] in *.
      pose proof (length_before (take i s)) as Hb. set (a := before_last_slash (take i s)) in *.
      assert (Hls : length (a ++ u) = (length a + length u)%nat) by by rewrite length_app.
      destruct (IH (a ++ u) (length a)) as (r & -> & Hr); [lia|nia|]. exists r. split; [done|lia].
    + destruct (IH s (i + 2)%nat) as (r & -> & Hr); [lia|nia|]. by exists r.
Qed.

Lemma strip_leading_length fuel pre k s : (length (strip_leading fuel pre k s) <= length s)%nat.
Proof.
  revert s. induction fuel as [|fuel IH]; intros s; cbn [strip_leading]; [lia|]. destruct (starts_with pre s); [|lia].
  etransitivity; [apply IH|]. rewrite length_drop. lia.
Qed.

Lemma whack_spec fuel s :
  (length s <= fuel)%nat ->
  strstr (whack fuel s) [SLASH; SLASH] = None /\ (length (whack fuel s) <= length s)%nat /\ (hd 0 s = SLASH -> hd 0 (whack fuel s) = SLASH).
Proof.
  revert s. induction fuel as [|fuel IH]; intros s Hf; cbn [whack]; [destruct s; [by split_and!|cbn in Hf; lia]|].
  destruct (strstr s [SLASH; SLASH]) as [t|] eqn:E; [|by split_and!].
  destruct (strstr_at s 0 SLASH SLASH t E) as (i & u & _ & Hs & -> & Hi & Hlen). rewrite Hlen. cbn [tl].
  assert (Hl : length s = (i + S (S (length u)))%nat) by (rewrite Hs at 1; rewrite length_app, Hi; done).
  destruct (IH (take i s ++ SLASH :: u)) as (H1 & H2 & H3); rewrite ?length_app, Hi in *; cbn [length] in *; [lia|].
  split_and!; [done|lia|]. intros Hh. apply H3. rewrite Hs in Hh. revert Hh. by destruct (take i s).
Qed.

Lemma no_slash_strstr s : Forall (fun c => c <> SLASH) s -> strstr s [SLASH; DOT] = None.
Proof.
  induction 1 as [|c s Hc _ IH]; [done|]. cbn [strstr starts_with]. destruct (Z.eqb_spec SLASH c); [congruence|]. exact IH.
Qed.

(** C39: Cleaning a path always ends, in place: for every path the passes terminate, the
    result is no longer than the path, has no double slash, stays rooted when the path
    was, and for every example of the documentation it is the documented result. *)
Theorem cleanpath_total path :
  (exists r, std_cleanpath path = Some r /\ (length r <= length path)%nat /\ strstr r [SLASH; SLASH] = None /\
     (hd 0 path = SLASH -> hd 0 r = SLASH)) /\
  forallb example_holds cleanpath_examples = true.
Proof.
  split; [|by vm_compute]. unfold std_cleanpath. set (rooted := hd 0 path =? SLASH).
  set (s := if rooted then tl path else path).
  destruct (clean_dots_total (length s) (dots_fuel (length s)) s 0) as (r & -> & Hr); [done|unfold dots_fuel; lia|].
  set (s1 := strip_leading _ _ 2 r). set (s2 := strip_leading _ _ 1 s1).
  assert (H2 : (length s2 <= length r)%nat) by (etransitivity; apply strip_leading_length).
  set (s3 := if starts_with _ s2 || _ then [] else s2).
  assert (H3 : (length s3 <= length s2)%nat) by (unfold s3; destruct (_ || _); cbn; lia).
  set (q := if rooted then SLASH :: s3 else s3).
  destruct (whack_spec (length q) q) as (W1 & W2 & W3); [done|].
  assert (Hq : (length q <= length path)%nat).
  { unfold q, s in *. destruct rooted eqn:Er; [|lia]. destruct path as [|c path]; [done|]. cbn in *. lia. }
  exists (whack (length q) q). split_and!; [done|lia|done|]. intros Hh. apply W3. unfold q, rooted. by rewrite (proj2 (Z.eqb_eq _ _) Hh).
Qed.

(** A hidden name is cleaned away: any name that begins with a dot, not only ["."]
    and [".."], becomes the empty path (the last test compares only the first byte). *)
Theorem cleanpath_erases_hidden name : Forall (fun c => c <> SLASH) name -> std_cleanpath (DOT :: name) = Some [].
Proof.
  intros H. assert (Hn : Forall (fun c => c <> SLASH) (DOT :: name)) by by constructor.
  unfold std_cleanpath. change (hd 0 (DOT :: name) =? SLASH) with false. cbv iota.
  assert (Ec : clean_dots (dots_fuel (length (DOT :: name))) (DOT :: name) 0 = Some (DOT :: name)).
  { unfold dots_fuel. cbn [clean_dots drop]. by rewrite no_slash_strstr. }
  rewrite Ec. assert (Hs : forall k, strip_leading k (str "../") 2 (DOT :: name) = DOT :: name).
  { intros [|k]; [done|]. cbn [strip_leading]. change (str "../") with [DOT; DOT; SLASH]. cbn [starts_with].
    destruct name as [|x [|y name]]; [done|by rewrite andb_true_l; destruct (DOT =? x)|].
    apply Forall_cons in H as [_ H]. apply Forall_cons in H as [Hy _]. rewrite (proj2 (Z.eqb_neq SLASH y)) by congruence.
    by rewrite andb_false_r, andb_false_r. }
  rewrite Hs. assert (Hs1 : forall k, strip_leading k (str "./") 1 (DOT :: name) = DOT :: name).
  { intros [|k]; [done|]. cbn [strip_leading]. change (str "./") with [DOT; SLASH]. cbn [starts_with].
    destruct name as [|x name]; [done|]. apply Forall_cons in H as [Hx _]. rewrite (proj2 (Z.eqb_neq SLASH x)) by congruence. done. }
  rewrite Hs1. change (starts_with (str ".") (DOT :: name)) with (starts_with [] name). cbn [starts_with]. by rewrite orb_true_r.
Qed.

Lemma cleanpath_erases_hidden_witness : std_cleanpath (str ".cache") = Some [].
Proof. apply (cleanpath_erases_hidden (str "cache")). repeat (apply Forall_cons; split; [discriminate|]). apply Forall_nil_2. Defined.

(** The base name is what follows the last slash: it has no slash, and the path is
    some prefix, empty or ending in a slash, followed by it. *)
Theorem basename_spec s :
  exists pre, s = pre ++ std_basename s /\ (pre = [] \/ List.last pre 0 = SLASH) /\ Forall (fun c => c <> SLASH) (std_basename s).
Proof.
  assert (H : match strrchr s SLASH with
    | Some t => exists pre u, s = pre ++ t /\ t = SLASH :: u /\ Forall (fun c => c <> SLASH) u
    | None => Forall (fun c => c <> SLASH) s end).
  { induction s as [|x s IH]; cbn; [constructor|]. destruct (strrchr s SLASH) as [r|].
    - destruct IH as (pre & u & E & Hu). exists (x :: pre), u. by rewrite E.
    - destruct (Z.eqb_spec x SLASH) as [->|]; [by exists [], s|by constructor]. }
  unfold std_basename. destruct (strrchr s SLASH) as [t|]; [|by exists []; auto].
  destruct H as (pre & u & -> & -> & Hu). exists (pre ++ [SLASH]). cbn [tl]. rewrite <- app_assoc. split_and!; [done| |done].
  right. apply last_last.
Qed.

Lemma makepath_joins_witness : (std_makepath (str "/usr/lib") (str "/x.so") 100 8 ∅).1 = 13.
Proof.
  assert (Hl : Z.of_nat (length (joined (str "/usr/lib") (str "/x.so"))) < INT_MAX) by by vm_compute.
  assert (Hs : size_ok 8) by by split.
  exact (proj1 (makepath_joins (str "/usr/lib") (str "/x.so") 100 8 ∅ Hs Hl)).
Defined.
