(* ===== verification/Crc.v ===== *)
(** The CRC-32 of [src/fastrpc_apps_user.c], computed over the buffers of
    an invocation: the table generator and the table-driven loop, and the proof
    that they compute the bit-by-bit division by the generator polynomial. *)
From S2P Require Import Prelude.

(** ** The code *)
Definition POLY32 : Z := 79764919. (* 0x04C11DB7 *)

(** One pass of the inner loop of [GenCrc32Tab]. *)
Definition crc_step (GenPoly crc : Z) : Z :=
  Z.lxor (u32 (Z.shiftl crc 1)) (if Z.land crc 2147483648 =? 0 then 0 else GenPoly).

Fixpoint iter_step (n : nat) (GenPoly crc : Z) : Z :=
  match n with O => crc | S n => iter_step n GenPoly (crc_step GenPoly crc) end.

Definition GenCrc32Tab (GenPoly : Z) : list Z :=
  (fun i => iter_step 8 GenPoly (u32 (Z.shiftl i 24))) <$> seqZ 0 256.

(** [data] and [crctab] are not NULL; [nbyte] is the length of [data]. *)
Fixpoint crc32_loop (crc : Z) (data crctab : list Z) : Z :=
  match data with
  | [] => crc
  | b :: data =>
      crc32_loop (Z.lxor (u32 (Z.shiftl crc 8)) (nth (Z.to_nat (Z.lxor (Z.shiftr crc 24) b)) crctab 0)) data crctab
  end.

Definition crc32_lut (data crctab : option (list Z)) : Z :=
  match data, crctab with
  | Some data, Some crctab => crc32_loop 0 data crctab
  | _, _ => 0
  end.

(** ** The reference: division of the bit string, most significant bit first *)
Definition crc_bit (GenPoly crc : Z) (b : bool) : Z :=
  let q := xorb (Z.testbit crc 31) b in
  Z.lxor (u32 (Z.shiftl crc 1)) (if q then GenPoly else 0).

(** The bits of a [k]-bit number, most significant first. *)
Fixpoint bits_msb (k : nat) (z : Z) : list bool :=
  match k with O => [] | S k => Z.testbit z (Z.of_nat k) :: bits_msb k z end.

Definition crc_ref (GenPoly : Z) (data : list Z) : Z :=
  foldl (crc_bit GenPoly) 0 (data ≫= bits_msb 8).

(** ** Bits *)
Lemma u32_bit z n : Z.testbit (u32 z) n = (n <? 32) && Z.testbit z n.
Proof.
  unfold u32. change 4294967296 with (2 ^ 32). destruct (Z.ltb_spec n 32).
  - by rewrite Z.mod_pow2_bits_low.
  - by rewrite Z.mod_pow2_bits_high by lia.
Qed.

Lemma shl_bit z k n : 0 <= n -> Z.testbit (Z.shiftl z k) n = Z.testbit z (n - k).
Proof. intros. by rewrite Z.shiftl_spec. Qed.

Lemma small_bit z k n : 0 <= z < 2 ^ k -> k <= n -> 0 <= k -> Z.testbit z n = false.
Proof.
  intros Hz Hn Hk. destruct (Z.eq_dec z 0) as [->|]; [apply Z.testbit_0_l|].
  apply Z.bits_above_log2; [lia|]. assert (Z.log2 z < k) by (apply Z.log2_lt_pow2; lia). lia.
Qed.

Lemma top_bit crc : (Z.land crc 2147483648 =? 0) = negb (Z.testbit crc 31).
Proof.
  change 2147483648 with (Z.shiftl 1 31).
  destruct (Z.testbit crc 31) eqn:E.
  - apply Z.eqb_neq. intros H. apply (f_equal (fun z => Z.testbit z 31)) in H.
    rewrite Z.land_spec, E, Z.testbit_0_l in H. done.
  - apply Z.eqb_eq, Z.bits_inj'. intros n Hn. rewrite Z.land_spec, Z.testbit_0_l, shl_bit by done.
    destruct (Z.eq_dec n 31) as [->|]; [by rewrite E|].
    destruct (Z.testbit 1 (n - 31)) eqn:E1; [|by rewrite andb_false_r].
    destruct (Z.lt_ge_cases (n - 31) 0); [by rewrite Z.testbit_neg_r in E1|].
    rewrite (small_bit 1 1) in E1 by lia. done.
Qed.

Lemma crc_step_eq p x : crc_step p x = Z.lxor (u32 (Z.shiftl x 1)) (if Z.testbit x 31 then p else 0).
Proof. unfold crc_step. rewrite top_bit. by destruct (Z.testbit x 31). Qed.

(** Equality of 32-bit expressions bit by bit. *)
Ltac bits n :=
  apply Z.bits_inj'; intros n ?; repeat first [rewrite Z.lxor_spec | rewrite u32_bit | rewrite shl_bit by lia].

(** A step is linear over exclusive or. *)
Lemma crc_step_lxor p x y : crc_step p (Z.lxor x y) = Z.lxor (crc_step p x) (crc_step p y).
Proof.
  rewrite !crc_step_eq, Z.lxor_spec. bits n.
  destruct (Z.testbit x 31), (Z.testbit y 31), (n <? 32); cbn; rewrite ?Z.testbit_0_l;
    by destruct (Z.testbit x (n - 1)), (Z.testbit y (n - 1)), (Z.testbit p n).
Qed.

Lemma crc_step_small p y : 0 <= y < 2 ^ 31 -> crc_step p y = Z.shiftl y 1.
Proof.
  intros Hy. rewrite crc_step_eq, (small_bit y 31 31), Z.lxor_0_r by lia.
  apply u32_small. rewrite Z.shiftl_mul_pow2 by lia. lia.
Qed.

Lemma iter_step_lxor p n x y : iter_step n p (Z.lxor x y) = Z.lxor (iter_step n p x) (iter_step n p y).
Proof. revert x y; induction n as [|n IH]; intros x y; cbn; [done|]. by rewrite crc_step_lxor, IH. Qed.

Lemma iter_step_small p n y : (n <= 32)%nat -> 0 <= y < 2 ^ (32 - Z.of_nat n) -> iter_step n p y = Z.shiftl y (Z.of_nat n).
Proof.
  revert y; induction n as [|n IH]; intros y Hn Hy; cbn [iter_step]; [by rewrite Z.shiftl_0_r|].
  assert (2 ^ (32 - Z.of_nat (S n)) <= 2 ^ 31) by (apply Z.pow_le_mono_r; lia).
  rewrite crc_step_small by lia. rewrite IH; [|lia|].
  - rewrite Z.shiftl_shiftl by lia. f_equal. lia.
  - rewrite Z.shiftl_mul_pow2 by lia. replace (32 - Z.of_nat n) with (32 - Z.of_nat (S n) + 1) by lia.
    rewrite Z.pow_add_r by lia. lia.
Qed.

(** One bit is one step on the word with the bit added at the top. *)
Lemma crc_bit_step p x (b : bool) : crc_bit p x b = crc_step p (Z.lxor x (if b then 2147483648 else 0)).
Proof.
  unfold crc_bit. rewrite crc_step_lxor, !crc_step_eq. destruct b.
  - change (Z.testbit 2147483648 31) with true. change (u32 (Z.shiftl 2147483648 1)) with 0.
    rewrite Z.lxor_0_l, xorb_true_r. destruct (Z.testbit x 31); cbn [negb].
    + by rewrite Z.lxor_assoc, Z.lxor_nilpotent.
    + by rewrite Z.lxor_0_r.
  - rewrite Z.testbit_0_l, xorb_false_r. change (u32 (Z.shiftl 0 1)) with 0. by rewrite Z.lxor_0_l, Z.lxor_0_r.
Qed.

(** [k] bits are [k] steps on the word with those bits added at the top. *)
Lemma crc_bits_steps p k : (k <= 32)%nat -> forall x z,
  0 <= z < 2 ^ Z.of_nat k ->
  foldl (crc_bit p) x (bits_msb k z) = iter_step k p (Z.lxor x (Z.shiftl z (32 - Z.of_nat k))).
Proof.
  induction k as [|k IH]; intros Hk x z Hz; cbn [bits_msb foldl iter_step].
  { replace z with 0 by (cbn in Hz; lia). by rewrite Z.shiftl_0_l, Z.lxor_0_r. }
  set (K := Z.of_nat k) in *. assert (HK : Z.of_nat (S k) = K + 1) by lia. rewrite HK in *.
  assert (Hp : 0 < 2 ^ K) by lia. rewrite Z.pow_add_r in Hz by lia.
  assert (Hb : bits_msb k z = bits_msb k (z mod 2 ^ K)).
  { assert (forall j, (j <= k)%nat -> bits_msb j z = bits_msb j (z mod 2 ^ K)) as H; [|by apply H].
    induction j as [|j IHj]; intros Hj; cbn; [done|]. rewrite IHj by lia. by rewrite Z.mod_pow2_bits_low by lia. }
  rewrite Hb, IH by (lia || (pose proof (Z.mod_pos_bound z (2 ^ K)); lia)).
  f_equal. rewrite crc_bit_step.
  set (r := z mod 2 ^ K).
  assert (Hr : 0 <= r < 2 ^ K) by (apply Z.mod_pos_bound; lia).
  assert (Hsr : Z.shiftl r (32 - K) = crc_step p (Z.shiftl r (31 - K))).
  { rewrite crc_step_small.
    - rewrite Z.shiftl_shiftl by lia. f_equal. lia.
    - assert (H31 : 2 ^ 31 = 2 ^ K * 2 ^ (31 - K)) by (rewrite <- Z.pow_add_r by lia; f_equal; lia).
      assert (0 < 2 ^ (31 - K)) by lia. rewrite Z.shiftl_mul_pow2, H31 by lia. nia. }
  rewrite Hsr, <- crc_step_lxor. f_equal. rewrite Z.lxor_assoc. f_equal.
  (* the top bit and the rest *)
  replace (32 - (K + 1)) with (31 - K) by lia.
  apply Z.bits_inj'; intros n Hn. rewrite Z.lxor_spec, !shl_bit by lia.
  assert (H31 : Z.testbit (if Z.testbit z K then 2147483648 else 0) n = (n =? 31) && Z.testbit z K).
  { destruct (Z.testbit z K); rewrite ?Z.testbit_0_l, ?andb_false_r, ?andb_true_r; [|done].
    change 2147483648 with (2 ^ 31). rewrite Z.pow2_bits_eqb by lia. apply Z.eqb_sym. }
  rewrite H31. unfold r. destruct (Z.eqb_spec n 31) as [->|Hne]; cbn [andb].
  - replace (31 - (31 - K)) with K by lia. rewrite Z.mod_pow2_bits_high by lia. by rewrite xorb_false_r.
  - rewrite xorb_false_l. destruct (Z.lt_ge_cases (n - (31 - K)) K).
    + destruct (Z.lt_ge_cases (n - (31 - K)) 0); [by rewrite !Z.testbit_neg_r|by rewrite Z.mod_pow2_bits_low].
    + rewrite Z.mod_pow2_bits_high by lia. symmetry. apply (small_bit z (K + 1)); [|lia|lia]. rewrite Z.pow_add_r by lia. lia.
Qed.

(** One byte through the table is eight bits through the divider. *)
Lemma table_byte p x b :
  0 <= x < 2 ^ 32 -> 0 <= b < 256 ->
  Z.lxor (u32 (Z.shiftl x 8)) (nth (Z.to_nat (Z.lxor (Z.shiftr x 24) b)) (GenCrc32Tab p) 0) =
  foldl (crc_bit p) x (bits_msb 8 b).
Proof.
  change (2 ^ 32) with 4294967296. intros Hx Hb. rewrite crc_bits_steps by (lia || done).
  set (h := Z.shiftr x 24). set (lo := x mod 2 ^ 24). change (32 - Z.of_nat 8) with 24.
  assert (Hh : 0 <= h < 256) by (unfold h; rewrite Z.shiftr_div_pow2 by lia; Z.to_euclidean_division_equations; lia).
  assert (Hi : 0 <= Z.lxor h b < 256).
  { split; [apply Z.lxor_nonneg; lia|]. destruct (Z.eq_dec (Z.lxor h b) 0) as [->|]; [lia|].
    change 256 with (2 ^ 8). apply Z.log2_lt_pow2; [pose proof (Z.lxor_nonneg h b); lia|].
    pose proof (Z.log2_lxor h b). pose proof (Z.log2_le_mono h 255). pose proof (Z.log2_le_mono b 255).
    change (Z.log2 255) with 7 in *. lia. }
  assert (Hsplit : Z.lxor x (Z.shiftl b 24) = Z.lxor (Z.shiftl (Z.lxor h b) 24) lo).
  { apply Z.bits_inj'; intros n Hn. rewrite !Z.lxor_spec, !shl_bit, Z.lxor_spec by lia. unfold h, lo.
    destruct (Z.lt_ge_cases n 24).
    - rewrite Z.mod_pow2_bits_low, !(Z.testbit_neg_r _ (n - 24)) by lia. cbn. by rewrite xorb_false_r.
    - rewrite Z.mod_pow2_bits_high, Z.shiftr_spec by lia. rewrite xorb_false_r.
      by replace (n - 24 + 24) with n by lia. }
  rewrite Hsplit, iter_step_lxor. rewrite (iter_step_small p 8 lo); [|lia|apply Z.mod_pos_bound; lia].
  rewrite Z.lxor_comm. f_equal.
  - unfold GenCrc32Tab. apply nth_lookup_Some.
    rewrite list_lookup_fmap, lookup_seqZ_lt by lia. cbn [fmap option_fmap option_map]. f_equal. f_equal.
    rewrite Z.add_0_l, Z2Nat.id by lia. apply u32_small. rewrite Z.shiftl_mul_pow2 by lia. lia.
  - apply Z.bits_inj'; intros n Hn. rewrite u32_bit, !shl_bit by lia. unfold lo. change (Z.of_nat 8) with 8.
    destruct (Z.ltb_spec n 32); cbn [andb].
    + destruct (Z.lt_ge_cases (n - 8) 0); [by rewrite !Z.testbit_neg_r|by rewrite Z.mod_pow2_bits_low by lia].
    + by rewrite Z.mod_pow2_bits_high by lia.
Qed.

Lemma crc_bit_range p x b : 0 <= p < 2 ^ 32 -> 0 <= crc_bit p x b < 2 ^ 32.
Proof.
  intros Hp. unfold crc_bit. change (2 ^ 32) with 4294967296 in *. set (q := if xorb _ _ then p else 0).
  assert (Hq : 0 <= q < 4294967296) by (unfold q; destruct (xorb _ _); lia). clearbody q.
  pose proof (u32_range (Z.shiftl x 1)). split; [apply Z.lxor_nonneg; lia|].
  destruct (Z.eq_dec (Z.lxor (u32 (Z.shiftl x 1)) q) 0) as [->|]; [lia|].
  change 4294967296 with (2 ^ 32). apply Z.log2_lt_pow2; [pose proof (Z.lxor_nonneg (u32 (Z.shiftl x 1)) q); lia|].
  pose proof (Z.log2_lxor (u32 (Z.shiftl x 1)) q). pose proof (Z.log2_le_mono (u32 (Z.shiftl x 1)) 4294967295).
  pose proof (Z.log2_le_mono q 4294967295). change (Z.log2 4294967295) with 31 in *. lia.
Qed.

Lemma foldl_range p l x : 0 <= p < 2 ^ 32 -> 0 <= x < 2 ^ 32 -> 0 <= foldl (crc_bit p) x l < 2 ^ 32.
Proof. intros Hp. revert x; induction l as [|b l IH]; intros x Hx; cbn; [done|]. by apply IH, crc_bit_range. Qed.

(** C40: The table-driven CRC is the CRC: on every byte string and for every 32-bit
    generator polynomial, [crc32_lut] with the table of [GenCrc32Tab] computes the
    remainder of the bit-by-bit division, most significant bit first, from 0. *)
Theorem crc32_lut_correct p data :
  0 <= p < 2 ^ 32 -> Forall (fun b => 0 <= b < 256) data ->
  crc32_lut (Some data) (Some (GenCrc32Tab p)) = crc_ref p data.
Proof.
  intros Hp Hd. unfold crc32_lut, crc_ref.
  assert (H : forall x, 0 <= x < 2 ^ 32 ->
    crc32_loop x data (GenCrc32Tab p) = foldl (crc_bit p) x (data ≫= bits_msb 8)); [|by apply H].
  induction Hd as [|b data Hb _ IH]; intros x Hx; [done|].
  rewrite bind_cons, foldl_app. cbn [crc32_loop]. rewrite table_byte by done. apply IH. by apply foldl_range.
Qed.

(** The check value of this CRC over ["123456789"]. *)
Lemma crc32_lut_correct_witness :
  crc_ref POLY32 (str "123456789") = 2309065087 /\
  crc32_lut (Some (str "123456789")) (Some (GenCrc32Tab POLY32)) = 2309065087.
Proof.
  split; [by vm_compute|]. rewrite (crc32_lut_correct POLY32 (str "123456789"));
    [by vm_compute|by vm_compute|repeat constructor; by vm_compute].
Defined.
