(* ===== verification/Wake.v ===== *)
(** The wake lock of [src/fastrpc_pm.c]: a counted lock over the two files
    [/sys/power/wake_lock] and [/sys/power/wake_unlock] of the kernel.

    Each function holds [wmut] while it works, so it is one step. What [open(2)],
    [close(2)] and [write(2)] return is an argument; a write that succeeds takes or
    releases the kernel's lock, which the field [kheld] stands for. *)
From S2P Require Import Prelude Errors.

(** ** State *)
Record wake_lock := WakeLock {
  wake_lock_name : list Z;
  lock : Z; unlock : Z;            (* descriptors *)
  count : Z;
  init_done : bool; deinit_started : bool;
  wmut_int : bool;                 (* [wakelock_wmut_int] *)
  wmut : bool;                     (* the mutex is initialised *)
  kheld : bool                     (* the kernel's lock of this name *)
}.
Definition wake0 : wake_lock := WakeLock [] 0 0 0 false false false false false.

Definition WAKELOCK_NAME_LEN : Z := 50.

Definition set_count (c : Z) (k : bool) (s : wake_lock) : wake_lock :=
  WakeLock (wake_lock_name s) (lock s) (unlock s) c (init_done s) (deinit_started s) (wmut_int s) (wmut s) k.
Definition set_fds (l u : Z) (s : wake_lock) : wake_lock :=
  WakeLock (wake_lock_name s) l u (count s) (init_done s) (deinit_started s) (wmut_int s) (wmut s) (kheld s).
Definition set_name (n : list Z) (s : wake_lock) : wake_lock :=
  WakeLock n (lock s) (unlock s) (count s) (init_done s) (deinit_started s) (wmut_int s) (wmut s) (kheld s).
Definition set_flags (i d : bool) (s : wake_lock) : wake_lock :=
  WakeLock (wake_lock_name s) (lock s) (unlock s) (count s) i d (wmut_int s) (wmut s) (kheld s).
Definition set_wmut (f m : bool) (s : wake_lock) : wake_lock :=
  WakeLock (wake_lock_name s) (lock s) (unlock s) (count s) (init_done s) (deinit_started s) f m (kheld s).

(** ** Taking and releasing; [wr] is what [write] returns, if it is called *)
Definition fastrpc_wake_lock (wr : Z) : M wake_lock Z :=
  s ← get;
  if negb (init_done s) then mret AEE_ERPC
  else to_bail (
    _ ← VERIFYC (negb (deinit_started s)) AEE_ERPC;
    if (count s =? 0) && (0 <? lock s)
    then (_ ← VERIFYC (0 <? wr) AEE_ERPC; put (set_count (u32 (count s + 1)) true s))
    else put (set_count (u32 (count s + 1)) (kheld s) s)).

(** A failed write puts the reference back. *)
Definition fastrpc_wake_unlock (wr : Z) : M wake_lock Z :=
  s ← get;
  if negb (init_done s) then mret AEE_ERPC
  else if count s =? 0 then mret AEE_SUCCESS
  else
    let c := u32 (count s - 1) in
    if (c =? 0) && (0 <? unlock s)
    then if 0 <? wr then (_ ← put (set_count c false s); mret AEE_SUCCESS)
         else (_ ← put (set_count (u32 (c + 1)) (kheld s) s); mret AEE_ERPC)
    else (_ ← put (set_count c (kheld s) s); mret AEE_SUCCESS).

(** [while (wakelock.count) VERIFY(fastrpc_wake_unlock())]: one write at most. *)
Fixpoint release_loop (fuel : nat) (wr : Z) : M wake_lock unit :=
  match fuel with
  | O => mret tt
  | S fuel =>
    c ← gets count;
    if c =? 0 then mret tt
    else (e ← fastrpc_wake_unlock wr; if e =? AEE_SUCCESS then release_loop fuel wr else mret tt)
  end.
Definition fastrpc_wake_lock_release (wr : Z) : M wake_lock unit :=
  c ← gets count; release_loop (Z.to_nat c) wr.

(** ** Set-up and tear-down *)

(** The name: the program's and [:pid], each cut to 24 characters, together to 49. *)
Definition lock_name (progname pid : list Z) : list Z :=
  take 49 (take 24 progname ++ take 24 (58 :: pid)).

(** Closing a descriptor that is positive; [cl] is what [close] returns. *)
Definition close_fd (fd cl : Z) : Z := if (0 <? fd) && (cl =? 0) then 0 else fd.

(** [mi]: [pthread_mutex_init]; [lfd], [ufd]: the two [open] calls, [err_no] their
    [errno]; [cl1], [cl2]: the two [close] calls. *)
Definition fastrpc_wake_lock_init (mi : Z) (progname pid : list Z) (lfd ufd err_no cl1 cl2 : Z) : M wake_lock Z :=
  s ← get;
  if init_done s then mret AEE_SUCCESS
  else
    _ ← modify (set_flags false false);
    nErr ← to_bail (
      _ ← (if wmut_int s then mret tt
           else (_ ← modify (set_wmut true (mi =? 0)); VERIFY mi (mi =? 0)));
      _ ← VERIFYC (0 <? Z.of_nat (length progname)) AEE_ERPC;
      _ ← modify (set_name (lock_name progname pid));
      _ ← modify (fun s => set_fds lfd (unlock s) s);
      _ ← VERIFYC (0 <? lfd) AEE_ERPC;
      _ ← modify (fun s => set_fds (lock s) ufd s);
      VERIFYC (0 <? ufd) AEE_ERPC);
    if nErr =? AEE_SUCCESS then (_ ← modify (set_flags true false); mret nErr)
    else
      _ ← modify (fun s => set_fds (close_fd (lock s) cl1) (close_fd (unlock s) cl2) s);
      _ ← modify (fun s => set_wmut (wmut_int s) false s);
      mret (if (nErr =? AEE_ERPC) && (err_no =? 2) then AEE_EUNSUPPORTEDAPI else nErr).

Definition fastrpc_wake_lock_deinit (wr cl1 cl2 : Z) : M wake_lock Z :=
  s ← get;
  if negb (init_done s) then mret AEE_SUCCESS
  else
    _ ← modify (set_flags true true);
    _ ← fastrpc_wake_lock_release wr;
    l ← gets lock; u ← gets unlock;
    _ ← modify (set_fds (close_fd l cl1) (close_fd u cl2));
    _ ← modify (fun s => set_flags false (deinit_started s) s);
    mret (if 0 <? u then cl2 else if 0 <? l then cl1 else 0).

(** ** What it promises *)

(** Set up, with the unlock file open, and the kernel's lock held exactly while there are
    references; and with the lock file open too and no tear-down begun. *)
Record held_ok (s : wake_lock) : Prop := {
  ho_init : init_done s = true;
  ho_unlock : 0 < unlock s;
  ho_count : 0 <= count s;
  ho_held : kheld s = (0 <? count s)
}.
Record wake_ok (s : wake_lock) : Prop := {
  wo_ok : held_ok s;
  wo_live : deinit_started s = false;
  wo_lock : 0 < lock s
}.

(** Calls, each with what its [write] would return; the abstract counter. *)
Inductive call := CLock (wr : Z) | CUnlock (wr : Z).
Definition run_call (c : call) : M wake_lock Z :=
  match c with CLock wr => fastrpc_wake_lock wr | CUnlock wr => fastrpc_wake_unlock wr end.
Definition spec_call (c : call) (n : Z) : Z * Z :=
  match c with
  | CLock wr => if (n =? 0) && (wr <=? 0) then (AEE_ERPC, n) else (AEE_SUCCESS, n + 1)
  | CUnlock wr => if n =? 0 then (AEE_SUCCESS, n)
                  else if (n =? 1) && (wr <=? 0) then (AEE_ERPC, n) else (AEE_SUCCESS, n - 1)
  end.
Fixpoint run_calls (cs : list call) (s : wake_lock) : list Z * wake_lock :=
  match cs with
  | [] => ([], s)
  | c :: cs => let '(r, s) := run AEE_EUNKNOWN (run_call c) s in
               let '(rs, s) := run_calls cs s in (r :: rs, s)
  end.
Fixpoint spec_calls (cs : list call) (n : Z) : list Z * Z :=
  match cs with
  | [] => ([], n)
  | c :: cs => let '(r, n) := spec_call c n in let '(rs, n) := spec_calls cs n in (r :: rs, n)
  end.

Definition at_count (n : Z) (s : wake_lock) : wake_lock := set_count n (0 <? n) s.

Lemma at_count_held n s : held_ok s -> 0 <= n -> held_ok (at_count n s).
Proof. intros []; split; cbn; done. Qed.
Lemma at_count_ok n s : wake_ok s -> 0 <= n -> wake_ok (at_count n s).
Proof. intros []; split; [by apply at_count_held|done|done]. Qed.
Lemma at_count_same s : held_ok s -> at_count (count s) s = s.
Proof. intros []. unfold at_count. rewrite <- ho_held0. by destruct s. Qed.
Lemma at_count_twice n n' s : at_count n (at_count n' s) = at_count n s.
Proof. done. Qed.

(** Every call does what the abstract counter does. *)
Lemma wake_unlock wr s :
  held_ok s -> count s < 4294967296 ->
  fastrpc_wake_unlock wr s = (Go (spec_call (CUnlock wr) (count s)).1, at_count (spec_call (CUnlock wr) (count s)).2 s).
Proof.
  intros Hs Hb. pose proof (at_count_same s Hs) as Hsame. destruct Hs as [Hi Hu Hc Hh].
  unfold fastrpc_wake_unlock, spec_call; munfold. rewrite Hi, (proj2 (Z.ltb_lt 0 _) Hu), Hh, andb_true_r. cbn [negb].
  destruct (Z.eqb_spec (count s) 0) as [E|E]; [cbn; by rewrite Hsame|].
  rewrite (proj2 (Z.ltb_lt 0 (count s))) by lia.
  assert (E1 : u32 (count s - 1) = count s - 1) by (apply u32_small; lia). rewrite E1.
  destruct (Z.eqb_spec (count s) 1) as [E'|E'].
  - rewrite E' in *. cbn. destruct (Z.leb_spec wr 0); [rewrite (proj2 (Z.ltb_ge 0 wr)) by lia|rewrite (proj2 (Z.ltb_lt 0 wr)) by lia]; done.
  - rewrite (proj2 (Z.eqb_neq (count s - 1) 0)) by lia. cbn. unfold at_count. by rewrite (proj2 (Z.ltb_lt 0 (count s - 1))) by lia.
Qed.

Lemma wake_call c s :
  wake_ok s -> count s + 1 < 4294967296 ->
  run_call c s = (Go (spec_call c (count s)).1, at_count (spec_call c (count s)).2 s).
Proof.
  intros [Hs Hl Hk] Hb. destruct c as [wr|wr]; [|apply wake_unlock; [done|lia]].
  pose proof (at_count_same s Hs) as Hsame. destruct Hs as [Hi Hu Hc Hh].
  unfold run_call, fastrpc_wake_lock, spec_call; munfold. rewrite Hi, Hl, (proj2 (Z.ltb_lt 0 _) Hk), Hh, andb_true_r. cbn [negb].
  assert (E1 : u32 (count s + 1) = count s + 1) by (apply u32_small; lia). rewrite E1.
  assert (E2 : (0 <? count s + 1) = true) by (apply Z.ltb_lt; lia).
  destruct (Z.eqb_spec (count s) 0) as [E|E].
  - destruct (Z.leb_spec wr 0); [rewrite (proj2 (Z.ltb_ge 0 wr)) by lia; cbn; by rewrite Hsame|].
    rewrite (proj2 (Z.ltb_lt 0 wr)) by lia. cbn. unfold at_count. by rewrite E2.
  - cbn. unfold at_count. rewrite E2. by rewrite (proj2 (Z.ltb_lt 0 (count s))) by lia.
Qed.

Lemma spec_call_bound c n : 0 <= n -> 0 <= (spec_call c n).2 <= n + 1.
Proof.
  intros Hn. destruct c as [wr|wr]; unfold spec_call; cbn.
  - destruct ((n =? 0) && (wr <=? 0)); cbn; lia.
  - destruct (Z.eqb_spec n 0); cbn; [lia|]. destruct ((n =? 1) && (wr <=? 0)); cbn; lia.
Qed.

Lemma wake_calls_ok cs : forall s,
  wake_ok s -> count s + Z.of_nat (length cs) < 4294967296 ->
  run_calls cs s = ((spec_calls cs (count s)).1, at_count (spec_calls cs (count s)).2 s) /\ 0 <= (spec_calls cs (count s)).2.
Proof.
  induction cs as [|c cs IH]; intros s Hs Hb; cbn [run_calls spec_calls fst snd].
  { rewrite at_count_same by apply Hs. split; [done|apply Hs]. }
  cbn [length] in Hb. pose proof (spec_call_bound c (count s) (ho_count s (wo_ok s Hs))) as Hbd.
  unfold run. rewrite wake_call by (done || lia).
  destruct (spec_call c (count s)) as [r n]. cbn [fst snd] in *.
  destruct (IH (at_count n s)) as [E1 E2]; [by apply at_count_ok; [|lia]|cbn; lia|].
  rewrite E1. cbn [count at_count set_count] in *. destruct (spec_calls cs n). by rewrite at_count_twice.
Qed.

#[export] Instance Total_wake_unlock wr : Total (fastrpc_wake_unlock wr).
Proof. intros w. unfold fastrpc_wake_unlock. munfold. repeat case_match; by eexists _, _. Qed.
#[export] Instance Total_release_loop n wr : Total (release_loop n wr).
Proof. induction n as [|n IH]; cbn [release_loop]; apply _. Qed.
#[export] Instance Total_wake_release wr : Total (fastrpc_wake_lock_release wr).
Proof. apply _. Qed.
(** After the tear-down the lock is down. *)
Lemma wake_deinit_down wr0 cl1 cl2 w :
  init_done w = true -> exists e w', fastrpc_wake_lock_deinit wr0 cl1 cl2 w = (Go e, w') /\ init_done w' = false.
Proof.
  intros Hi. unfold fastrpc_wake_lock_deinit. munfold. rewrite Hi. cbn [negb].
  destruct (total (m := fastrpc_wake_lock_release wr0) (set_flags true true w)) as (u & w1 & ->). by eexists _, _.
Qed.

Lemma release_ok wr n : forall s,
  held_ok s -> count s = Z.of_nat n -> count s < 4294967296 ->
  release_loop n wr s = (Go tt, at_count (if 0 <? wr then 0 else Z.min 1 (count s)) s).
Proof.
  induction n as [|n IH]; intros s Hs Hc Hb; cbn [release_loop]; munfold.
  { assert (E : count s = 0) by lia. rewrite E. pose proof (at_count_same s Hs) as H. rewrite E in H.
    change (Z.min 1 0) with 0. destruct (0 <? wr); by rewrite H. }
  rewrite (proj2 (Z.eqb_neq (count s) 0)) by lia. rewrite (wake_unlock wr s Hs Hb). unfold spec_call.
  rewrite (proj2 (Z.eqb_neq (count s) 0)) by lia.
  destruct (decide (count s = 1)) as [E1|E1].
  - assert (n = 0%nat) as -> by lia. rewrite E1.
    destruct (Z.leb_spec wr 0); [rewrite (proj2 (Z.ltb_ge 0 wr)) by lia|rewrite (proj2 (Z.ltb_lt 0 wr)) by lia]; done.
  - rewrite (proj2 (Z.eqb_neq (count s) 1)) by lia. cbn [andb fst snd].
    rewrite IH; [|by apply at_count_held; [|lia]|cbn; lia|cbn; lia].
    rewrite at_count_twice. cbn [count at_count set_count]. destruct (0 <? wr); [done|]. by rewrite !Z.min_l by lia.
Qed.

(** The wake lock is a counter that the kernel's lock follows: for every sequence of
    lock and unlock calls, whatever each [write] returns, the results and the counter are
    those of the abstract counter (an unlock at 0 is harmless, a failed write changes
    nothing), and after every call the kernel's lock is held exactly while the counter is
    positive; the tear-down then gives the kernel's lock back unless the last write
    fails, in which case it stays held, with its one reference, and later calls are
    refused. *)
Theorem wake_lock_counts cs s wr cl1 cl2 :
  wake_ok s -> count s + Z.of_nat (length cs) + 1 < 4294967296 ->
  let r := run_calls cs s in
  r.1 = (spec_calls cs (count s)).1 /\ count r.2 = (spec_calls cs (count s)).2 /\
  kheld r.2 = (0 <? count r.2) /\
  let d := (fastrpc_wake_lock_deinit wr cl1 cl2 r.2).2 in
  count d = (if 0 <? wr then 0 else Z.min 1 (count r.2)) /\ kheld d = (0 <? count d) /\
  (forall w, fastrpc_wake_lock w d = (Go AEE_ERPC, d) /\ fastrpc_wake_unlock w d = (Go AEE_ERPC, d)).
Proof.
  intros Hs Hb r. unfold r. destruct (wake_calls_ok cs s Hs ltac:(lia)) as [E Hp]. rewrite E. cbn [fst snd].
  set (n := (spec_calls cs (count s)).2) in *. assert (Hn : n <= count s + Z.of_nat (length cs)).
  { clear -Hs. unfold n. pose proof (ho_count s (wo_ok s Hs)) as H0. revert H0. generalize (count s). clear n. induction cs as [|c cs IH]; intros m Hm; cbn [spec_calls length]; [cbn; lia|].
    pose proof (spec_call_bound c m Hm) as Hbd. destruct (spec_call c m) as [r n]. specialize (IH n). cbn in Hbd. destruct (spec_calls cs n). cbn in *. lia. }
  assert (Ho : wake_ok (at_count n s)) by (by apply at_count_ok).
  split; [done|]. split; [done|]. split; [done|].
  set (t := at_count n s) in *. unfold fastrpc_wake_lock_deinit, fastrpc_wake_lock_release. munfold.
  rewrite (ho_init _ (wo_ok _ Ho)). cbn [negb].
  change (set_flags true true (at_count n s)) with (set_flags true true t).
  rewrite (release_ok wr (Z.to_nat (count (set_flags true true t))) (set_flags true true t)); cycle 1.
  { destruct Ho as [[]]. by split. }
  { unfold t. cbn. lia. }
  { unfold t. cbn. lia. }
  unfold t. cbn [fst snd count kheld set_flags set_fds at_count set_count]. split; [done|]. split; [done|]. intros w.
  unfold fastrpc_wake_lock, fastrpc_wake_unlock. by munfold.
Qed.

Definition wake_ready : wake_lock := WakeLock (lock_name (str "app") (str "42")) 5 6 0 true false true true false.

(** A failed write and an unlock at 0 among others; the tear-down gives the lock back. *)
Lemma wake_lock_counts_witness :
  (fastrpc_wake_lock_init 0 (str "app") (str "42") 5 6 0 0 0 wake0) = (Go AEE_SUCCESS, wake_ready) /\
  (run_calls [CUnlock 1; CLock 0; CLock 1; CLock 1; CUnlock 1; CUnlock 0] wake_ready).1 = [0; AEE_ERPC; 0; 0; 0; AEE_ERPC].
Proof.
  split; [reflexivity|].
  exact (proj1 (wake_lock_counts [CUnlock 1; CLock 0; CLock 1; CLock 1; CUnlock 1; CUnlock 0] wake_ready 1 0 0
    ltac:(by repeat split) ltac:(done))).
Defined.

(** A set-up that failed destroys the mutex but leaves [wakelock_wmut_int] set: a second
    one succeeds without a mutex, whatever the first one's error was. *)
Lemma second_init_dead_mutex err_no :
  let s1 := (fastrpc_wake_lock_init 0 (str "app") (str "42") 5 (-1) err_no 0 0 wake0).2 in
  let r := fastrpc_wake_lock_init 0 (str "app") (str "42") 5 6 err_no 0 0 s1 in
  r.1 = Go AEE_SUCCESS /\ init_done r.2 = true /\ wmut r.2 = false.
Proof.
  cbv zeta. unfold fastrpc_wake_lock_init at 2. munfold. cbn.
  destruct (err_no =? 2); vm_compute; done.
Qed.
