(* ===== verification/Invoke.v ===== *)
(** Remote invocation, [src/fastrpc_apps_user.c]: how a call with its scalars and
    arguments becomes a request to the kernel, and what its caller gets back.

    The state joins those of the components an invocation uses: mappings, sessions and
    handles ([Mem], [Session]), DMA handles, the wake lock. The rest of a domain's record
    is only read and is a parameter, as are [ioctl(2)], the bytes of the process's memory,
    and what [write(2)] returns for the wake lock. Tracing, timers and performance
    counters, which only log, are left out. *)
From S2P Require Import Prelude Errors Domain Session SessionIface Ioctl ListenerBuf Remote Crc Mem DmaHandles Wake.

(** ** State *)

(** [rt_revdone]: the domains whose [first_revrpc_done] is set; [rt_oob]: the indices
    beyond its end at which an array was written. *)
Record rt (W : Type) := Rt {
  rt_mem : mem (proc * W);
  rt_dma : dma;
  rt_wake : wake_lock;
  rt_revdone : gset Z;
  rt_oob : list Z;
  rt_entered : list wake_lock   (* the wake lock at each request of an invocation *)
}.
Arguments Rt {_}. Arguments rt_mem {_}. Arguments rt_dma {_}. Arguments rt_wake {_}.
Arguments rt_revdone {_}. Arguments rt_oob {_}. Arguments rt_entered {_}.

Section state.
Context {W : Type}.
Definition set_mem (m : mem (proc * W)) (s : rt W) : rt W := Rt m (rt_dma s) (rt_wake s) (rt_revdone s) (rt_oob s) (rt_entered s).
Definition set_dma (d : dma) (s : rt W) : rt W := Rt (rt_mem s) d (rt_wake s) (rt_revdone s) (rt_oob s) (rt_entered s).
Definition set_wake (w : wake_lock) (s : rt W) : rt W := Rt (rt_mem s) (rt_dma s) w (rt_revdone s) (rt_oob s) (rt_entered s).
Definition set_revdone (r : gset Z) (s : rt W) : rt W := Rt (rt_mem s) (rt_dma s) (rt_wake s) r (rt_oob s) (rt_entered s).
Definition set_oob (l : list Z) (s : rt W) : rt W := Rt (rt_mem s) (rt_dma s) (rt_wake s) (rt_revdone s) l (rt_entered s).
(** The wake lock is noted at the entry into the kernel. *)
Definition note_entry (s : rt W) : rt W := Rt (rt_mem s) (rt_dma s) (rt_wake s) (rt_revdone s) (rt_oob s) (rt_entered s ++ [rt_wake s]).

#[export] Instance rt_session : HasSession (rt W) (proc * W) :=
  { ses s := mses (rt_mem s); set_ses k s := set_mem (set_mses k (rt_mem s)) s; ses_set := fun _ _ => eq_refl }.

Definition on_mem {A} (m : M (mem (proc * W)) A) : M (rt W) A := fun s =>
  let '(r, x) := m (rt_mem s) in (r, set_mem x s).
Definition on_wake {A} (m : M wake_lock A) : M (rt W) A := fun s =>
  let '(r, x) := m (rt_wake s) in (r, set_wake x s).
Definition on_dma {A} (f : dma -> A * dma) : M (rt W) A := fun s =>
  let '(r, x) := f (rt_dma s) in (Go r, set_dma x s).
Definition rt_proc (s : rt W) : proc := (mses (rt_mem s)).1.
End state.

(** ** Constants *)
Definition REVERSE_RPC_SCALAR : Z := 67240448. (* 0x04020200 *)
Definition FASTRPC_STATIC_HANDLE_LISTENER : Z := 3.
Definition FASTRPC_MAX_STATIC_HANDLE : Z := 10.
Definition IS_STATIC_HANDLE (handle : Z) : bool := (0 <=? handle) && (handle <=? FASTRPC_MAX_STATIC_HANDLE).
Definition IS_REVERSE_RPC_CALL (handle sc : Z) : bool :=
  (handle =? FASTRPC_STATIC_HANDLE_LISTENER) && (sc =? REVERSE_RPC_SCALAR).
Definition IS_STATICPD_HANDLE (h : Z) : bool := (255 <? h) && (h <=? 512).
Definition INVOKE_ATTRS : Z := 1.
Definition INVOKE_CRC : Z := 3.
Definition INVOKE_PERF : Z := 4.
Definition FASTRPC_ATTR_NON_COHERENT : Z := 2.
Definition FASTRPC_ATTR_COHERENT : Z := 4.
Definition FASTRPC_ATTR_FORCE_NOFLUSH : Z := 32.
Definition FASTRPC_ATTR_FORCE_NOINVALIDATE : Z := 64.
Definition FASTRPC_ATTR_NOVA : Z := 256.
Definition FASTRPC_MODE_CRC : Z := 4.
Definition FASTRPC_MODE_PERF_KERNEL : Z := 512.
Definition FASTRPC_MODE_PERF_DSP : Z := 1024.
Definition M_CRCLIST : Z := 64.
Definition ECONNRESET : Z := 104.

(** The [dma] member of the union [remote_arg]. *)
Definition dma_fd (a : remote_arg) : Z := s32 (pv a).
Definition dma_offset (a : remote_arg) : Z := u32 (Z.shiftr (pv a) 32).

(** ** The arguments of the request *)

(** Appends the attributes of a registered buffer, one test after the other. *)
Definition append_attrs (nova attr : Z) (req a : Z) : Z * Z :=
  let '(req, a) := if negb (nova =? 0) then (INVOKE_ATTRS, Z.lor a FASTRPC_ATTR_NOVA) else (req, a) in
  foldl (fun '(req, a) bit => if has_attr attr bit then (INVOKE_ATTRS, Z.lor a bit) else (req, a)) (req, a)
    [FASTRPC_ATTR_NON_COHERENT; FASTRPC_ATTR_COHERENT; FASTRPC_ATTR_FORCE_NOFLUSH;
     FASTRPC_ATTR_FORCE_NOINVALIDATE; FASTRPC_ATTR_KEEP_MAP].

Section invoke.
Context {W : Type} `{!PlResult}.
Variable sys_ioctl : Z -> ioctl_req -> proc * W -> io * (proc * W).
Variable umem : W -> memory.
(** The configuration of a domain. *)
Variables (procattrs : Z -> Z) (dma_handle_reverse_rpc_map_capability fastrpc_wake_lock_enable : Z -> bool).
Variables (perf_v2_kernel perf_v2_dsp : bool).
(** Whether the allocations succeed; what the writes of the wake lock return. *)
Variables (args_alloc crc_alloc perf_alloc : bool) (wr : nat -> Z).

(** One buffer argument: the entry and [req], or an error. *)
Definition buf_arg (l : list mem_to_fd) (a : remote_arg) (req : Z) : (Z * Z) * fastrpc_invoke_args :=
  if nLen a =? 0 then ((AEE_SUCCESS, req), InvokeArgs (pv a) (nLen a) (-1) 0)
  else match fd_from_buf (pv a) (s32 (nLen a)) l with
       | (nErr, None) => ((nErr, req), InvokeArgs (pv a) (nLen a) (-1) 0)
       | (nErr, Some (fd, nova, base, attr)) =>
           let req := if fd =? -1 then req else INVOKE_FD in
           let '(req, at_) := append_attrs nova attr req 0 in
           ((nErr, req), InvokeArgs (pv a) (nLen a) fd at_)
       end.

Fixpoint buf_args (l : list mem_to_fd) (pra : list remote_arg) (req : Z) : (Z * Z) * list fastrpc_invoke_args :=
  match pra with
  | [] => ((AEE_SUCCESS, req), [])
  | a :: pra =>
    let '((nErr, req), x) := buf_arg l a req in
    if negb (nErr =? AEE_SUCCESS) then ((nErr, req), [])
    else let '((nErr, req), xs) := buf_args l pra req in ((nErr, req), x :: xs)
  end.

(** One handle argument: its registration is consumed; a handle that must not be mapped
    is registered again for the reverse calls, where the domain supports that. *)
Definition dma_arg (domain : Z) (a : remote_arg) : M (rt W) fastrpc_invoke_args :=
  r ← on_dma (unregister_dma_handle (dma_fd a));
  let '(len, attr) := r : Z * Z in
  _ ← (if dma_handle_reverse_rpc_map_capability domain && has_attr attr FASTRPC_ATTR_NOMAP
       then (e ← on_mem init; _ ← on_dma (remote_register_dma_handle_attr e (dma_fd a) len FASTRPC_ATTR_NOMAP); mret tt)
       else mret tt);
  mret (InvokeArgs (dma_offset a) len (dma_fd a) (Z.lor attr FASTRPC_ATTR_NOVA)).

Fixpoint dma_args (domain : Z) (pra : list remote_arg) : M (rt W) (list fastrpc_invoke_args) :=
  match pra with
  | [] => mret []
  | a :: pra => x ← dma_arg domain a; xs ← dma_args domain pra; mret (x :: xs)
  end.

(** ** Checksums

    [crc_local[i] = crc32_lut(..)] for the arguments from index [i] on. *)
Definition crc_of (m : memory) (a : remote_arg) : Z :=
  crc32_lut (if pv a =? 0 then None else Some (load m (pv a) (s32 (nLen a)))) (Some (GenCrc32Tab POLY32)).
Fixpoint crc_fill (m : memory) (i : Z) (pra : list remote_arg) (crc : list Z * list Z) : list Z * list Z :=
  match pra with
  | [] => crc
  | a :: pra => crc_fill m (i + 1) pra
      (if i <? M_CRCLIST then (<[Z.to_nat i := crc_of m a]> crc.1, crc.2) else (crc.1, crc.2 ++ [i]))
  end.

(** ** The invocation *)
Definition is_first_reverse_rpc_call (domain handle sc : Z) : M (rt W) bool :=
  s ← get;
  if IS_REVERSE_RPC_CALL handle sc && IS_SESSION_OPEN_ALREADY domain (rt_proc s) then
    if bool_decide (domain ∈ rt_revdone s) then mret false
    else (_ ← put (set_revdone ({[ domain ]} ∪ rt_revdone s) s); mret true)
  else mret false.

(** The local [wake_lock] is the second state component. *)
Definition take_wake (i : nat) : M (rt W * bool) unit :=
  e ← lift (on_wake (fastrpc_wake_lock (wr i)));
  if e =? 0 then setl (fun _ => true) else mret tt.

Definition enter_wake (domain handle sc : Z) : M (rt W * bool) unit :=
  if fastrpc_wake_lock_enable domain then
    if negb (IS_REVERSE_RPC_CALL handle sc) then take_wake 0
    else (f ← lift (is_first_reverse_rpc_call domain handle sc);
          if f : bool then take_wake 0 else setl (fun _ => true))
  else mret tt.

(** [if (list->setmode)]. *)
Definition switch_mode (domain dv : Z) : M (rt W) Z :=
  s ← get;
  let h := hl (rt_proc s) domain in
  if setmode h =? 0 then mret AEE_SUCCESS
  else
    _ ← on_ses (on_proc (modify (set_hl domain (set_mode (mode h) 0))));
    let nErr := ioctl_setmode dv (mode h) in
    if nErr =? AEE_SUCCESS then mret AEE_SUCCESS
    else (en ← gets (fun s => errno (rt_mem s)); mret (convert_kernel_to_user_error nErr en)).

Definition crc_enabled (domain handle : Z) : bool := has_attr (procattrs domain) FASTRPC_MODE_CRC && negb (IS_STATIC_HANDLE handle).
Definition perf_enabled (domain handle : Z) : bool :=
  ((has_attr (procattrs domain) FASTRPC_MODE_PERF_KERNEL && perf_v2_kernel)
   || (has_attr (procattrs domain) FASTRPC_MODE_PERF_DSP && perf_v2_dsp)) && negb (IS_STATIC_HANDLE handle).

Definition note_crc (crc : list Z * list Z) : M (rt W) (list Z) :=
  _ ← modify (fun s => set_oob (rt_oob s ++ crc.2) s); mret crc.1.

(** From giving the wake lock back to taking it again, and the checksums of the outputs. *)
Definition call_kernel (domain handle sc dv req : Z) (args : list fastrpc_invoke_args) (crc : list Z)
    (nIn : Z) (bs : list remote_arg) : M (rt W * bool) unit :=
  held ← getl id;
  _ ← (if held : bool then (_ ← lift (on_wake (fastrpc_wake_unlock (wr 1))); setl (fun _ => false)) else mret tt);
  _ ← lift (modify note_entry);
  r ← lift (on_mem (do_ioctl (ioctl_invoke sys_ioctl dv req handle sc args)));
  en ← lift (gets (fun s => errno (rt_mem s)));
  let nErr := if io_ret r =? 0 then io_ret r else convert_kernel_to_user_error (io_ret r) en in
  _ ← (if fastrpc_wake_lock_enable domain then take_wake 2 else mret tt);
  w ← lift (gets (fun s => (mses (rt_mem s)).2));
  _ ← (if crc_enabled domain handle
       then lift (note_crc (crc_fill (umem w) nIn (drop (Z.to_nat nIn) bs) (crc, []))) else mret []);
  if nErr =? AEE_SUCCESS then mret tt else bail nErr.

(** The code up to [bail:]; [args] is NULL when its allocation fails, and then the
    function ends with the code it has, 0. *)
Definition invoke_body (domain handle sc : Z) (pra : option (list remote_arg)) : M (rt W * bool) unit :=
  dd ← lift (gets (fun s => fastrpc_session_dev domain (rt_proc s)));
  let '(e, dv) := dd : Z * Z in
  _ ← VERIFY e (e =? AEE_SUCCESS);
  _ ← lift (on_mem (modify (set_errno 0)));
  _ ← enter_wake domain handle sc;
  e ← lift (switch_mode domain dv);
  if negb (e =? AEE_SUCCESS) then bail e
  else
    let nIn := REMOTE_SCALARS_INBUFS sc in
    let bufs := nIn + REMOTE_SCALARS_OUTBUFS sc in
    let handles := REMOTE_SCALARS_INHANDLES sc + REMOTE_SCALARS_OUTHANDLES sc in
    let total := bufs + handles in
    if negb args_alloc then bail AEE_SUCCESS
    else
      _ ← VERIFYC (negb (negb (is_found pra) && (0 <? total))) AEE_EBADPARM;
      let l := default [] pra in
      let bs := take (Z.to_nat bufs) l in
      let hs := take (Z.to_nat handles) (drop (Z.to_nat bufs) l) in
      fdl ← lift (gets (fun s => fdlist (rt_mem s)));
      let '((e, req), xs) := buf_args fdl bs INVOKE in
      _ ← VERIFY e (e =? AEE_SUCCESS);
      ys ← lift (dma_args domain hs);
      let req := if handles =? 0 then req else INVOKE_ATTRS in
      _ ← VERIFYC (negb (crc_enabled domain handle) || crc_alloc) AEE_ENOMEMORY;
      w ← lift (gets (fun s => (mses (rt_mem s)).2));
      crc ← (if crc_enabled domain handle
             then lift (note_crc (crc_fill (umem w) 0 (take 64 (take (Z.to_nat nIn) l)) (replicate 64 0, [])))
             else mret []);
      let req := if crc_enabled domain handle then INVOKE_CRC else req in
      _ ← VERIFYC (negb (perf_enabled domain handle) || perf_alloc) AEE_ENOMEMORY;
      let req := if perf_enabled domain handle then INVOKE_PERF else req in
      call_kernel domain handle sc dv req (xs ++ ys) crc nIn bs.

Definition remote_handle_invoke_domain (domain handle sc : Z) (pra : option (list remote_arg)) : M (rt W) Z :=
  r ← with_locals false (invoke_body domain handle sc pra);
  let '(nErr, held) := r : Z * bool in
  _ ← (if held && negb (IS_REVERSE_RPC_CALL handle sc)
       then (_ ← on_wake (fastrpc_wake_unlock (wr 3)); mret tt) else mret tt);
  en ← gets (fun s => errno (rt_mem s));
  mret (if (nErr =? -1) && (en =? ECONNRESET) then AEE_ECONNRESET else nErr).

(** At [bail:] of the two entry points: a failure on a domain that is not in the INIT
    state, and on no domain at all, is reported as success. *)
Definition invoke_result (nErr domain : Z) : M (rt W) Z :=
  s ← get;
  if (negb (nErr =? AEE_SUCCESS)) && is_process_exiting domain (rt_proc s) then mret 0 else mret nErr.

(** The local is [domain]. *)
Definition remote_handle_invoke (handle sc : Z) (pra : option (list remote_arg)) : M (rt W) Z :=
  r ← with_locals (-1) (
    _ ← VERIFY_CALL (lift (on_ses fastrpc_init_once));
    _ ← VERIFYC (negb (handle =? 4294967295)) AEE_EINVHANDLE;
    domain ← lift (gets (fun s => get_current_domain (rt_proc s)));
    _ ← setl (fun _ => domain);
    VERIFY_CALL (lift (with_ref domain (VERIFY_CALL (remote_handle_invoke_domain domain handle sc pra)))));
  let '(nErr, domain) := r : Z * Z in
  invoke_result nErr domain.

Definition remote_handle64_invoke (local sc : Z) (pra : option (list remote_arg)) : M (rt W) Z :=
  r ← with_locals (-1) (
    if IS_STATICPD_HANDLE local then bail AEE_EINVHANDLE
    else
      _ ← VERIFY_CALL (lift (on_ses fastrpc_init_once));
      _ ← VERIFYC (negb (local =? 18446744073709551615)) AEE_EINVHANDLE;
      dd ← lift (gets (fun s => get_domain_from_handle local (rt_proc s)));
      _ ← VERIFY dd.1 (dd.1 =? AEE_SUCCESS);
      let domain := default (-1) dd.2 in
      _ ← setl (fun _ => domain);
      VERIFY_CALL (lift (with_ref domain (
        rr ← gets (fun s => get_handle_remote local (rt_proc s));
        _ ← VERIFY rr.1 (rr.1 =? AEE_SUCCESS);
        VERIFY_CALL (remote_handle_invoke_domain domain (u32 (default 0 rr.2)) sc pra)))));
  let '(nErr, domain) := r : Z * Z in
  invoke_result nErr domain.

(** ** Rules for the parts of the state *)
Lemma wp_on_mem {A} (m : M (mem (proc * W)) A) (Q : A -> rt W -> Prop) R s :
  wp m (fun a x => Q a (set_mem x s)) (fun e x => R e (set_mem x s)) (rt_mem s) -> wp (on_mem m) Q R s.
Proof. unfold wp, on_mem. by destruct (m (rt_mem s)) as [[]]. Qed.
Lemma wp_on_wake {A} (m : M wake_lock A) (Q : A -> rt W -> Prop) R s :
  wp m (fun a x => Q a (set_wake x s)) (fun e x => R e (set_wake x s)) (rt_wake s) -> wp (on_wake m) Q R s.
Proof. unfold wp, on_wake. by destruct (m (rt_wake s)) as [[]]. Qed.
Lemma wp_on_dma {A} (f : dma -> A * dma) (Q : A -> rt W -> Prop) R s :
  Q (f (rt_dma s)).1 (set_dma (f (rt_dma s)).2 s) -> wp (on_dma f) Q R s.
Proof. unfold wp, on_dma. by destruct (f (rt_dma s)). Qed.

Ltac rt_step :=
  first [wp_step | lazymatch goal with
  | |- wp (on_mem _) _ _ _ => apply wp_on_mem
  | |- wp (on_wake _) _ _ _ => apply wp_on_wake
  | |- wp (on_dma _) _ _ _ => apply wp_on_dma
  end].

(** Runs to the next test; [rt_ok] passes a test that succeeds. *)
Ltac rt_run :=
  repeat lazymatch goal with
  | |- wp (VERIFY _ _) _ _ _ => fail
  | |- wp (VERIFYC _ _) _ _ _ => fail
  | |- wp (if _ then _ else _) _ _ _ => fail
  | |- _ => rt_step
  end.
Ltac rt_ok := cbn iota; rt_run; first [apply wp_VERIFY | apply wp_VERIFYC]; [intros _|by intros]; rt_run.

(** ** The request the kernel gets *)


(** One test of [append_attrs]: the attribute's bit is added. *)
Lemma append_bit attr x req k :
  0 <= k ->
  exists req', (if has_attr attr (2 ^ k) then (INVOKE_ATTRS, Z.lor x (2 ^ k)) else (req, x)) = (req', Z.lor x (Z.land attr (2 ^ k))) /\
    (req' = req \/ req' = INVOKE_ATTRS).
Proof.
  intros Hk. unfold has_attr. rewrite land_pow2 by done. destruct (Z.testbit attr k).
  - rewrite (proj2 (Z.eqb_neq _ _)) by (apply Z.pow_nonzero; lia). eauto.
  - cbn. rewrite Z.lor_0_r. eauto.
Qed.

(** The attributes the kernel is told: those of the mask, and [NOVA]. *)
Definition SENT_ATTRS : Z := 110. (* NON_COHERENT, COHERENT, KEEP_MAP, FORCE_NOFLUSH, FORCE_NOINVALIDATE *)
Definition sent_attrs (nova attr : Z) : Z :=
  Z.lor (if nova =? 0 then 0 else FASTRPC_ATTR_NOVA) (Z.land attr SENT_ATTRS).

Lemma append_attrs_spec nova attr req :
  exists req', append_attrs nova attr req 0 = (req', sent_attrs nova attr) /\ (req' = req \/ req' = INVOKE_ATTRS).
Proof.
  unfold append_attrs, sent_attrs.
  set (x0 := if nova =? 0 then 0 else FASTRPC_ATTR_NOVA).
  assert (E0 : exists r0, (if negb (nova =? 0) then (INVOKE_ATTRS, Z.lor 0 FASTRPC_ATTR_NOVA) else (req, 0)) = (r0, x0) /\ (r0 = req \/ r0 = INVOKE_ATTRS)).
  { unfold x0. destruct (nova =? 0); cbn; eauto. }
  destruct E0 as (r0 & -> & H0). cbn [foldl].
  change FASTRPC_ATTR_NON_COHERENT with (2 ^ 1). change FASTRPC_ATTR_COHERENT with (2 ^ 2).
  change FASTRPC_ATTR_FORCE_NOFLUSH with (2 ^ 5). change FASTRPC_ATTR_FORCE_NOINVALIDATE with (2 ^ 6).
  change FASTRPC_ATTR_KEEP_MAP with (2 ^ 3).
  do 5 match goal with |- context [if has_attr attr (2 ^ ?k) then (INVOKE_ATTRS, Z.lor ?x _) else (?r, _)] =>
    let E := fresh "E" in let H := fresh "H" in destruct (append_bit attr x r k) as (? & E & H); [lia|]; rewrite E; clear E end.
  match goal with |- exists _, (?r, _) = _ /\ _ => exists r end. split; [|destruct_or!; subst; auto].
  rewrite <- !Z.lor_assoc, <- !Z.land_lor_distr_r. done.
Qed.

Lemma switch_mode_none domain dv s : setmode (hl (rt_proc s) domain) = 0 -> switch_mode domain dv s = (Go AEE_SUCCESS, s).
Proof. intros E. unfold switch_mode. munfold. by rewrite E. Qed.

(** The entry of a buffer: the descriptor and the attributes of the registered buffer
    around it, if there is one. *)
Definition arg_spec (l : list mem_to_fd) (a : remote_arg) : fastrpc_invoke_args :=
  if nLen a =? 0 then InvokeArgs (pv a) 0 (-1) 0
  else match (fd_from_buf (pv a) (s32 (nLen a)) l).2 with
       | Some (fd, nova, base, attr) => InvokeArgs (pv a) (nLen a) fd (sent_attrs nova attr)
       | None => InvokeArgs (pv a) (nLen a) (-1) 0
       end.
Definition arg_ok (l : list mem_to_fd) (a : remote_arg) : Prop :=
  nLen a <> 0 -> is_Some (fd_from_buf (pv a) (s32 (nLen a)) l).2.

Lemma fd_from_buf_ok b n l : is_Some (fd_from_buf b n l).2 -> (fd_from_buf b n l).1 = 0.
Proof.
  induction l as [|t l IH]; cbn [fd_from_buf]; [done|].
  destruct (STD_BETWEEN b _ _); [|done]. destruct (STD_BETWEEN _ _ _); [|by intros []].
  destruct (tf_fd t =? -1); [done|done].
Qed.

Lemma buf_args_spec l pra : forall req,
  Forall (arg_ok l) pra -> 0 <= req <= 2 ->
  exists req', buf_args l pra req = ((AEE_SUCCESS, req'), arg_spec l <$> pra) /\ 0 <= req' <= 2.
Proof.
  induction pra as [|a pra IH]; intros req Ho Hr; cbn [buf_args]; [by eexists|].
  apply Forall_cons in Ho as [Ha Ho]. unfold buf_arg. rewrite fmap_cons. unfold arg_spec at 1.
  destruct (Z.eqb_spec (nLen a) 0) as [E|E].
  - cbn. destruct (IH req Ho Hr) as (req' & -> & Hr'). exists req'. by rewrite E.
  - specialize (Ha E). pose proof (fd_from_buf_ok _ _ _ Ha) as E0.
    destruct (fd_from_buf _ _ _) as [e o]. cbn [fst snd] in *. subst e. destruct Ha as [[[[fd nova] base] attr] ->].
    destruct (append_attrs_spec nova attr (if fd =? -1 then req else INVOKE_FD)) as (r' & -> & Hr'). cbn.
    destruct (IH r' Ho) as (req' & -> & H'); [|by exists req'].
    destruct Hr' as [->| ->]; [destruct (fd =? -1)|]; unfold INVOKE_FD, INVOKE_ATTRS; lia.
Qed.

(** The entries of the handles, and what is left registered. *)
Fixpoint dma_spec (pra : list remote_arg) (d : dma) : list fastrpc_invoke_args * dma :=
  match pra with
  | [] => ([], d)
  | a :: pra =>
    let '((len, attr), d) := unregister_dma_handle (dma_fd a) d in
    let '(xs, d) := dma_spec pra d in
    (InvokeArgs (dma_offset a) len (dma_fd a) (Z.lor attr FASTRPC_ATTR_NOVA) :: xs, d)
  end.

Lemma dma_args_spec domain pra : forall s,
  dma_handle_reverse_rpc_map_capability domain = false ->
  dma_args domain pra s = (Go (dma_spec pra (rt_dma s)).1, set_dma (dma_spec pra (rt_dma s)).2 s).
Proof.
  induction pra as [|a pra IH]; intros s Hc; cbn [dma_args dma_spec]; [by destruct s|].
  unfold dma_arg, on_dma. munfold.
  destruct (unregister_dma_handle (dma_fd a) (rt_dma s)) as [[len attr] d] eqn:E. rewrite Hc. cbn.
  rewrite IH by done. cbn. by destruct (dma_spec pra d) as [xs d'].
Qed.

(** What the caller gets for the kernel's answer. *)
Definition answer (r : io) : Z := if io_ret r =? 0 then 0 else convert_kernel_to_user_error (io_ret r) (io_errno r).

Lemma answer_reset r : ((answer r =? -1) && (io_errno r =? ECONNRESET)) = false.
Proof.
  unfold answer. destruct (Z.eqb_spec (io_ret r) 0); [done|].
  destruct (Z.eqb_spec (io_errno r) ECONNRESET) as [->|]; [|by rewrite andb_false_r].
  destruct (Z.eqb_spec (io_ret r) (-1)) as [->|Hn]; [done|].
  rewrite (proj1 (kernel_errors_converted _ _)) by done. by rewrite (proj2 (Z.eqb_neq _ _) Hn).
Qed.

Lemma scalars_nonneg sc :
  0 <= REMOTE_SCALARS_INBUFS sc /\ 0 <= REMOTE_SCALARS_OUTBUFS sc /\
  0 <= REMOTE_SCALARS_INHANDLES sc /\ 0 <= REMOTE_SCALARS_OUTHANDLES sc.
Proof.
  unfold REMOTE_SCALARS_INBUFS, REMOTE_SCALARS_OUTBUFS, REMOTE_SCALARS_INHANDLES, REMOTE_SCALARS_OUTHANDLES.
  rewrite !Z.land_nonneg. lia.
Qed.

Lemma crc_fill_oob m l : forall i crc, 0 <= i ->
  (crc_fill m i l crc).2 = crc.2 ++ seqZ (Z.max i M_CRCLIST) (i + Z.of_nat (length l) - Z.max i M_CRCLIST).
Proof.
  induction l as [|a l IH]; intros i crc Hi; cbn [crc_fill length].
  - by rewrite seqZ_nil, app_nil_r by lia.
  - rewrite IH by lia. unfold M_CRCLIST. destruct (Z.ltb_spec i 64); cbn [snd].
    + do 2 f_equal; lia.
    + rewrite <- app_assoc. f_equal. rewrite (Z.max_l i 64), (Z.max_l (i + 1) 64) by lia.
      rewrite (seqZ_cons i) by lia. cbn [app]. f_equal. f_equal; lia.
Qed.

(** ** Up to the kernel *)
Section reach.
Context (domain dv handle sc : Z) (l : list remote_arg) (s : rt W).
Let nIn := REMOTE_SCALARS_INBUFS sc.
Let nb := nIn + REMOTE_SCALARS_OUTBUFS sc.
Let bs := take (Z.to_nat nb) l.
Let hs := drop (Z.to_nat nb) l.
Context (Hdev : fastrpc_session_dev domain (rt_proc s) = (AEE_SUCCESS, dv)) (Hsm : setmode (hl (rt_proc s) domain) = 0).
Context (Hwk : fastrpc_wake_lock_enable domain = false) (Hcap : dma_handle_reverse_rpc_map_capability domain = false).
Context (Hal : args_alloc && crc_alloc && perf_alloc = true).
Context (Hlen : Z.of_nat (length l) = REMOTE_SCALARS_LENGTH sc) (Hok : Forall (arg_ok (fdlist (rt_mem s))) bs).

(** The state when the kernel is called: the handles are consumed. *)
Definition reached : rt W := set_dma (dma_spec hs (rt_dma s)).2 (set_mem (set_errno 0 (rt_mem s)) s).

Lemma reach_kernel :
  exists req crc, (if crc_enabled domain handle || perf_enabled domain handle then 2 < req else 0 <= req <= 2) /\
  forall (Q : unit -> rt W * bool -> Prop) R,
    wp (call_kernel domain handle sc dv req ((arg_spec (fdlist (rt_mem s)) <$> bs) ++ (dma_spec hs (rt_dma s)).1) crc nIn bs) Q R (reached, false) ->
    wp (invoke_body domain handle sc (Some l)) Q R (s, false).
Proof.
  destruct (buf_args_spec (fdlist (rt_mem s)) bs INVOKE Hok) as (req & Eb & Hreq); [unfold INVOKE; lia|].
  apply andb_true_iff in Hal as [[Ha Hc]%andb_true_iff Hp].
  assert (Hh : take (Z.to_nat (REMOTE_SCALARS_INHANDLES sc + REMOTE_SCALARS_OUTHANDLES sc)) hs = hs).
  { apply take_ge. unfold hs. rewrite length_drop. pose proof (scalars_nonneg sc). unfold REMOTE_SCALARS_LENGTH in Hlen.
    unfold nb, nIn. lia. }
  set (req1 := if REMOTE_SCALARS_INHANDLES sc + REMOTE_SCALARS_OUTHANDLES sc =? 0 then req else INVOKE_ATTRS).
  assert (Hreq1 : 0 <= req1 <= 2) by (unfold req1, INVOKE_ATTRS; destruct (_ =? 0); lia).
  set (req2 := if perf_enabled domain handle then INVOKE_PERF else if crc_enabled domain handle then INVOKE_CRC else req1).
  set (crc := if crc_enabled domain handle then
    (crc_fill (umem (mses (rt_mem s)).2) 0 (take 64 (take (Z.to_nat nIn) l)) (replicate 64 0, [])).1 else []).
  exists req2, crc. split.
  { unfold req2, INVOKE_PERF, INVOKE_CRC. destruct (crc_enabled _ _), (perf_enabled _ _); cbn; lia. }
  intros Q R Hk. unfold invoke_body, enter_wake. rt_run. rewrite Hdev. cbn beta iota. rt_ok. rewrite Hwk. cbn iota. rt_run.
  eapply wp_call; [by apply switch_mode_none|]. cbn [negb AEE_SUCCESS Z.eqb]. rewrite Ha. cbn [negb is_found andb]. rt_ok.
  cbn [from_option id]. fold nIn nb bs hs. rewrite Hh. change (fdlist _) with (fdlist (rt_mem s)). rewrite Eb. rt_ok.
  eapply wp_call; [by apply dma_args_spec|]. rewrite Hc, Hp, !orb_true_r. rt_ok.
  change (rt_dma (set_mem _ s)) with (rt_dma s). change (set_dma _ _) with reached.
  fold req1 req2. unfold crc in Hk. destruct (crc_enabled domain handle); rt_run; try (unfold note_crc; rt_run); rt_ok; [|exact Hk].
  match goal with |- wp _ _ _ (set_oob ?o reached, _) => assert (Eo : o = rt_oob s) end.
  { rewrite crc_fill_oob by lia. cbn [snd app]. rewrite seqZ_nil, app_nil_r; [done|]. rewrite length_take. unfold M_CRCLIST. lia. }
  rewrite Eo. exact Hk.
Qed.
End reach.

(** C15: An invocation is exactly one request: on a usable session the kernel gets the
    handle, the scalars and one entry per argument, buffers first. A buffer's entry
    carries its address and length with the descriptor and the attributes of the
    registered buffer around it (descriptor -1 when there is none), a handle's entry the
    handle, its offset, and the length and attributes it was registered with, and its
    registration is consumed. The caller gets 0 or the converted error; nothing else
    changes ([note_entry] notes the request). This is the normal mode: the wake lock, the reverse
    registration, checksums and performance counters are off for the domain (see [crc_refused]
    and [invoke_wake_balanced] for the others), no mode switch is pending, and the allocations
    succeed. *)
Theorem invoke_request domain dv handle sc l s :
  let nb := REMOTE_SCALARS_INBUFS sc + REMOTE_SCALARS_OUTBUFS sc in
  let bs := take (Z.to_nat nb) l in
  let hs := drop (Z.to_nat nb) l in
  fastrpc_session_dev domain (rt_proc s) = (AEE_SUCCESS, dv) -> setmode (hl (rt_proc s) domain) = 0 ->
  fastrpc_wake_lock_enable domain = false -> dma_handle_reverse_rpc_map_capability domain = false ->
  crc_enabled domain handle || perf_enabled domain handle = false -> args_alloc && crc_alloc && perf_alloc = true ->
  Z.of_nat (length l) = REMOTE_SCALARS_LENGTH sc -> Forall (arg_ok (fdlist (rt_mem s))) bs ->
  let '(ys, d) := dma_spec hs (rt_dma s) in
  let '(r, k) := sys_ioctl dv (IOCTL_INVOKE handle sc ((arg_spec (fdlist (rt_mem s)) <$> bs) ++ ys)) (mses (rt_mem s)) in
  remote_handle_invoke_domain domain handle sc (Some l) s =
    (Go (answer r), note_entry (set_dma d (set_mem (set_mses k (set_errno (if io_ret r =? 0 then 0 else io_errno r) (rt_mem s))) s))).
Proof.
  intros nb bs hs Hdev Hsm Hwk Hcap Hoff Hal Hlen Hok.
  destruct (reach_kernel domain dv handle sc l s Hdev Hsm Hwk Hcap Hal Hlen Hok) as (req & crc & Hreq & Hk).
  rewrite Hoff in Hreq. apply orb_false_iff in Hoff as [Hc _].
  destruct (dma_spec hs (rt_dma s)) as [ys d] eqn:Ed. destruct (sys_ioctl dv _ _) as [r k] eqn:Ek.
  apply wp_result. unfold remote_handle_invoke_domain. apply wp_bind, wp_with_locals. apply Hk. clear Hk.
  fold nb bs hs. unfold reached. fold nb hs. rewrite Ed. cbn [fst snd]. unfold call_kernel. rewrite Hwk, Hc. rt_run. cbn [id]. cbn iota. rt_run.
  eapply wp_call.
  { unfold do_ioctl, ioctl_invoke. replace ((INVOKE <=? req) && _) with true by (unfold INVOKE, INVOKE_FD; lia).
    cbn [rt_mem set_mem set_dma note_entry mses set_errno]. rewrite Ek. reflexivity. }
  rt_run. pose proof (answer_reset r) as Har. unfold answer in *. destruct (Z.eqb_spec (io_ret r) 0) as [E0|E0].
  - rewrite E0. cbn iota. cbn [AEE_SUCCESS Z.eqb]. rt_run. cbn [snd andb]. rt_run. split; [done|]. by destruct s as [[] ? ? ? ?].
  - pose proof (convert_nonzero (io_ret r) (io_errno r) E0) as Hnz. cbn [errno rt_mem set_mem note_entry set_mses set_errno] in *.
    rewrite (proj2 (Z.eqb_neq _ _) Hnz). rt_run. cbn [snd andb fst]. rt_run. cbn [errno rt_mem set_mem note_entry set_mses set_errno].
    by rewrite Har.
Qed.

(** ** Session references

    The kernel does not touch the session references. *)
Section balance.
Hypothesis ioctl_sref : forall dv r (k : proc * W), sess_ok k ->
  sess_ok (sys_ioctl dv r k).2 /\ forall x, sref (sys_ioctl dv r k).2 x = sref k x.

Lemma balanced_on_mem {A} n (m : M (mem (proc * W)) A) : balanced n m -> balanced n (on_mem m).
Proof. intros Hm s Ho Hs. specialize (Hm (rt_mem s) Ho Hs). unfold on_mem. cbn in *. by destruct (m (rt_mem s)). Qed.
Lemma balanced_on_wake {A} n (m : M wake_lock A) : balanced n (on_wake m : M (rt W) A).
Proof. intros s Ho Hs. unfold on_wake. by destruct (m (rt_wake s)). Qed.
Lemma balanced_on_dma {A} n (f : dma -> A * dma) : balanced n (on_dma f : M (rt W) A).
Proof. intros s Ho Hs. unfold on_dma. by destruct (f (rt_dma s)). Qed.
Lemma balanced_mem_init n : balanced n (on_mem init : M (rt W) Z).
Proof. apply balanced_on_mem. apply balanced_init. Qed.
Lemma balanced_ioctl_invoke n dv req handle sc xs : balanced n (on_mem (do_ioctl (ioctl_invoke sys_ioctl dv req handle sc xs)) : M (rt W) io).
Proof.
  apply balanced_on_mem, balanced_do_ioctl. intros k Hk. unfold ioctl_invoke.
  destruct (_ && _); [by apply ioctl_sref|done].
Qed.
Hint Resolve balanced_on_wake balanced_on_dma balanced_mem_init balanced_ioctl_invoke balanced_init : balanced.

Lemma balanced_dma_args n domain pra : balanced n (dma_args domain pra).
Proof. induction pra; cbn [dma_args]; unfold dma_arg; bal; done. Qed.
Lemma balanced_errno n e : balanced n (on_mem (modify (set_errno e)) : M (rt W) unit).
Proof. apply balanced_on_mem. bal. Qed.
Lemma balanced_first n domain handle sc : balanced n (is_first_reverse_rpc_call domain handle sc).
Proof.
  intros s Ho Hs. unfold is_first_reverse_rpc_call. munfold. destruct (_ && _); [|done].
  by destruct (bool_decide _).
Qed.
Lemma balanced_take i n : balanced n (take_wake i).
Proof. unfold take_wake. bal. Qed.
Lemma balanced_setmode n domain m : balanced n (on_ses (on_proc (modify (set_hl domain (set_mode m 0)))) : M (rt W) unit).
Proof.
  intros s Ho Hs. unfold on_ses, on_proc. munfold. cbn [fst snd]. rewrite ses_set.
  assert (E : forall x, ref (hl (set_hl domain (set_mode m 0) (ses s).1) x) = ref (hl (ses s).1 x)).
  { intros x. destruct (hlist (ses s).1) as [h|] eqn:Hh.
    - rewrite hl_set by (by eexists). destruct (decide (x = domain)) as [->|]; [|done]. by destruct (hl _ domain).
    - unfold hl, set_hl. by rewrite Hh. }
  split; [intros x; specialize (E x); specialize (Ho x); cbn in *; lia|]. intros x. apply E.
Qed.
Hint Resolve balanced_dma_args balanced_errno balanced_first balanced_take balanced_setmode : balanced.

Lemma balanced_note n : balanced n (modify note_entry : M (rt W) unit).
Proof. by intros s Ho Hs. Qed.
Hint Resolve balanced_note : balanced.

Lemma balanced_body domain handle sc pra : balanced 0 (invoke_body domain handle sc pra).
Proof. unfold invoke_body, call_kernel, enter_wake, switch_mode, note_crc. bal. Qed.
Lemma balanced_invoke_domain domain handle sc pra : balanced 0 (remote_handle_invoke_domain domain handle sc pra).
Proof. unfold remote_handle_invoke_domain. bal. apply balanced_body. Qed.
Hint Resolve balanced_invoke_domain : balanced.

Lemma balanced_result n nErr domain : balanced n (invoke_result nErr domain).
Proof. intros s Ho Hs. unfold invoke_result. munfold. by destruct (_ && _). Qed.
Hint Resolve balanced_result : balanced.

(** C16: Every invocation gives its session reference back: whatever the handle, the
    scalars and the arguments, on every path and with any kernel that leaves the session
    table alone, the reference count of every domain is the same after the call. *)
Theorem invoke_balanced s handle sc pra :
  sess_ok (ses s) -> (forall x, sref (ses s) x < REF_MAX - 1) ->
  let same (m : M (rt W) Z) := forall x, sref (ses (m s).2) x = sref (ses s) x in
  same (remote_handle_invoke handle sc pra) /\ same (remote_handle64_invoke handle sc pra).
Proof.
  intros Ho Hs same.
  assert (Hb : forall m, balanced 1 m -> same m) by (intros m Hm; exact (proj2 (Hm s Ho Hs))).
  split; apply Hb.
  - unfold remote_handle_invoke. bal. apply balanced_ref_0. bal.
  - unfold remote_handle64_invoke. bal. apply balanced_ref_0. bal.
Qed.
End balance.

(** ** The wake lock

    Computations that leave it alone. *)
Definition seen (s : rt W) : wake_lock * list wake_lock := (rt_wake s, rt_entered s).
Definition keeps_wake {A} (m : M (rt W) A) : Prop := forall s, seen (m s).2 = seen s.

Lemma keeps_on_mem {A} (m : M (mem (proc * W)) A) : keeps_wake (on_mem m).
Proof. intros s. unfold on_mem. by destruct (m (rt_mem s)). Qed.
Lemma keeps_on_dma {A} (f : dma -> A * dma) : keeps_wake (on_dma f).
Proof. intros s. unfold on_dma. by destruct (f (rt_dma s)). Qed.
Lemma keeps_wake_bind {A B} (m : M (rt W) A) (f : A -> M (rt W) B) :
  keeps_wake m -> (forall a, keeps_wake (f a)) -> keeps_wake (m ≫= f).
Proof.
  intros Hm Hf s. unfold mbind, M_bind. specialize (Hm s). destruct (m s) as [[a|e] s']; cbn in *; [by rewrite Hf|done].
Qed.
Lemma keeps_wake_ret {A} (a : A) : keeps_wake (mret a).
Proof. done. Qed.
Lemma keeps_wake_if {A} (c : bool) (m m' : M (rt W) A) : keeps_wake m -> keeps_wake m' -> keeps_wake (if c then m else m').
Proof. by destruct c. Qed.
Lemma keeps_switch domain dv : keeps_wake (switch_mode domain dv).
Proof. intros s. unfold switch_mode. munfold. destruct (_ =? 0); [done|]. cbn. by destruct (ioctl_setmode _ _ =? AEE_SUCCESS). Qed.
Lemma keeps_dma_args domain pra : keeps_wake (dma_args domain pra).
Proof.
  induction pra; cbn [dma_args]; [done|]. apply keeps_wake_bind; [|intros; by apply keeps_wake_bind].
  unfold dma_arg. apply keeps_wake_bind; [apply keeps_on_dma|]. intros []. apply keeps_wake_bind; [|done].
  apply keeps_wake_if; [|done]. apply keeps_wake_bind; [apply keeps_on_mem|]. intros. apply keeps_wake_bind; [apply keeps_on_dma|done].
Qed.
Lemma keeps_note crc : keeps_wake (note_crc crc).
Proof. done. Qed.

Lemma wp_keeps {A} (m : M (rt W) A) (Q : A -> rt W -> Prop) R s :
  keeps_wake m -> (forall a s', seen s' = seen s -> Q a s') -> (forall e s', seen s' = seen s -> R e s') -> wp m Q R s.
Proof. intros Hm HQ HR. specialize (Hm s). unfold wp. destruct (m s) as [[]]; auto. Qed.

Definition first_reverse (domain handle sc : Z) (s : rt W) : bool :=
  IS_REVERSE_RPC_CALL handle sc && IS_SESSION_OPEN_ALREADY domain (rt_proc s) && bool_decide (domain ∉ rt_revdone s).

Section wake.
Context (w0 : wake_lock) (Hw0 : wake_ok w0).
Context (Hwr : forall i, 0 < wr i).

Lemma lock_step i n : 0 <= n -> n + 1 < 4294967296 -> fastrpc_wake_lock (wr i) (at_count n w0) = (Go 0, at_count (n + 1) w0).
Proof.
  intros Hn Hb. pose proof (wake_call (CLock (wr i)) (at_count n w0) (at_count_ok n w0 Hw0 Hn) Hb) as E.
  cbn [run_call] in E. rewrite E. cbn [spec_call count at_count set_count]. specialize (Hwr i).
  rewrite (proj2 (Z.leb_gt _ _)), andb_false_r by lia. done.
Qed.
Lemma unlock_step i n : 0 < n -> n < 4294967296 -> fastrpc_wake_unlock (wr i) (at_count n w0) = (Go 0, at_count (n - 1) w0).
Proof.
  intros Hn Hb. rewrite wake_unlock; [|by apply at_count_held; [apply Hw0|lia]|done]. specialize (Hwr i).
  cbn [spec_call count at_count set_count]. rewrite (proj2 (Z.eqb_neq n 0)), (proj2 (Z.leb_gt _ _)), andb_false_r by lia. done.
Qed.

Lemma wp_take i n (s : rt W) h (Q : unit -> rt W * bool -> Prop) R :
  rt_wake s = at_count n w0 -> 0 <= n -> n + 1 < 4294967296 -> Q tt (set_wake (at_count (n + 1) w0) s, true) -> wp (take_wake i) Q R (s, h).
Proof.
  intros Hs Hn Hb HQ. unfold take_wake. rt_run. rewrite Hs.
  eapply wp_call; [by apply lock_step|]. cbn. done.
Qed.
Lemma wp_drop i n (s : rt W) (Q : Z -> wake_lock -> Prop) R :
  rt_wake s = at_count n w0 -> 0 < n -> n < 4294967296 -> Q 0 (at_count (n - 1) w0) -> wp (fastrpc_wake_unlock (wr i)) Q R (rt_wake s).
Proof. intros Hs Hn Hb HQ. rewrite Hs. eapply wp_call; [by apply unlock_step|]. done. Qed.

Section body.
Context (domain handle sc : Z) (pra : option (list remote_arg)).
Let rev : bool := IS_REVERSE_RPC_CALL handle sc.
Context (n : Z) (Hn : 0 <= n) (Hb : n + 2 < 4294967296).
Context (Hen : fastrpc_wake_lock_enable domain = true).

(** While the call works: [n] for others, and its own when it holds one. *)
Definition owes (e : list wake_lock) (sl : rt W * bool) : Prop := seen sl.1 = (at_count (n + if sl.2 && negb rev then 1 else 0) w0, e).
(** The kernel was not entered, or entered once, without the reference of this call. *)
Context (e0 : list wake_lock).
Definition entered (e : list wake_lock) : Prop := e = e0 \/ e = e0 ++ [at_count (n - if rev then 1 else 0) w0].
Definition ends (sl : rt W * bool) : Prop := exists e, entered e /\ owes e sl.
Lemma owes_ends sl : owes e0 sl -> ends sl.
Proof. intros Ho. exists e0. split; [by left|done]. Qed.

Lemma body_wake_tail dv req xs (crc : list Z) nIn bs :
  (rev = true -> 0 < n) ->
  forall s, owes e0 (s, true) ->
  wp (call_kernel domain handle sc dv req xs crc nIn bs)
    (fun _ => ends) (fun _ => ends) (s, true).
Proof.
  intros Hr s Hs. unfold owes, seen in Hs. cbn [fst snd andb] in Hs. injection Hs as Hs He. unfold call_kernel. rt_run. cbn [id]. cbn iota. rt_run.
  eapply wp_drop; [exact Hs|destruct rev; cbn; lia|destruct rev; cbn; lia|]. rt_run.
  unfold wp at 1, do_ioctl. destruct (ioctl_invoke _ _ _ _ _ _ _) as [r k]. rt_run. rewrite Hen.
  eapply (wp_take 2 (n + (if negb rev then 1 else 0) - 1)); [done|destruct rev; cbn; lia..|].
  rt_run. apply wp_if; intros _; rt_run; apply wp_if; intros _; rt_run; exists (e0 ++ [at_count (n - if rev then 1 else 0) w0]);
    (split; [by right|]); unfold owes, seen; cbn; rewrite He; (apply f_equal2; [f_equal; destruct rev; cbn; lia|do 3 f_equal; destruct rev; cbn; lia]).
Qed.

Lemma enter_ok (s : rt W) :
  let f := if first_reverse domain handle sc s then 1 else 0 in
  0 <= n - f -> rt_wake s = at_count (n - f) w0 -> rt_entered s = e0 ->
  wp (enter_wake domain handle sc) (fun _ sl => owes e0 sl /\ sl.2 = true) (fun _ _ => False) (s, false).
Proof.
  unfold first_reverse, enter_wake. fold rev. intros Hf Hs He. rewrite Hen. destruct (decide (rev = true)) as [Er|Er%not_true_is_false].
  2: { rewrite Er in *. cbn [negb andb] in *. eapply (wp_take 0 n); [rewrite Hs; f_equal|..]; [lia..|].
       unfold owes, seen. rewrite Er. cbn. by rewrite He. }
  rewrite Er in *. cbn [negb]. unfold is_first_reverse_rpc_call. fold rev. rewrite Er.
  cbn [andb] in *. rt_run. destruct (IS_SESSION_OPEN_ALREADY domain (rt_proc s)); cbn [andb] in *.
  2: { rt_run. cbn iota. rt_run. split; [|done]. unfold owes, seen. rewrite Er. cbn. rewrite He, ?Hs. apply f_equal2; [f_equal; lia|done]. }
  apply wp_if; intros E.
  - rewrite bool_decide_eq_false_2 in Hs by (intros Hx; apply Hx; by apply bool_decide_eq_true in E).
    rt_run. cbn iota. rt_run. split; [|done]. unfold owes, seen. rewrite Er. cbn. rewrite He, ?Hs. apply f_equal2; [f_equal; lia|done].
  - rewrite bool_decide_eq_true_2 in * by (by apply bool_decide_eq_false in E). rt_run. cbn iota.
    eapply (wp_take 0 (n - 1)); [done|lia..|]. split; [|done]. unfold owes, seen. rewrite Er. cbn. rewrite He, ?Hs. apply f_equal2; [f_equal; lia|done].
Qed.

Lemma body_wake (s : rt W) dv (Hdev : fastrpc_session_dev domain (rt_proc s) = (AEE_SUCCESS, dv)) :
  let f := if first_reverse domain handle sc s then 1 else 0 in
  (rev = true -> 0 < n) -> 0 <= n - f -> rt_wake s = at_count (n - f) w0 -> rt_entered s = e0 ->
  wp (invoke_body domain handle sc pra) (fun _ => ends) (fun _ => ends) (s, false).
Proof.
  intros f Hr Hf Hs He. unfold invoke_body. rt_run. rewrite Hdev. cbn beta iota. rt_ok.
  eapply wp_mono; [by apply enter_ok| |done]. intros _ [s1 h] [Ho [= ->]]. cbn [fst snd] in *. rt_run.
  apply wp_keeps; [apply keeps_switch| |]; [|intros e s2 E; apply owes_ends; unfold owes in *; cbn in *; congruence].
  intros e s2 E. assert (Ho2 : owes e0 (s2, true)) by (unfold owes in *; cbn in *; congruence). clear Ho E. pose proof (owes_ends _ Ho2) as Hends.
  apply wp_if; intros _; rt_run; [done|]. apply wp_if; intros _; rt_run; [done|]. apply wp_VERIFYC; intros _; [|done].
  rt_run. destruct (buf_args _ _ _) as [[e' req] xs]. rt_run. apply wp_VERIFY; intros _; [|done]. rt_run.
  apply wp_keeps; [apply keeps_dma_args| |]; [|intros e2 s3 E; apply owes_ends; unfold owes in *; cbn in *; congruence].
  intros ys s3 E. assert (Ho3 : owes e0 (s3, true)) by (unfold owes in *; cbn in *; congruence). pose proof (owes_ends _ Ho3) as Hends3.
  rt_run. apply wp_VERIFYC; intros _; [|done]. rt_run. 
  apply wp_if; intros _; rt_run; try (unfold note_crc; rt_run); (apply wp_VERIFYC; intros _; [|exact Hends3]); rt_run; (apply body_wake_tail; [done|exact Ho3]).
Qed.

Lemma invoke_wake (s : rt W) dv (Hdev : fastrpc_session_dev domain (rt_proc s) = (AEE_SUCCESS, dv)) :
  let f := if first_reverse domain handle sc s then 1 else 0 in
  (rev = true -> 0 < n) -> 0 <= n - f -> rt_wake s = at_count (n - f) w0 -> rt_entered s = e0 ->
  let s' := (remote_handle_invoke_domain domain handle sc pra s).2 in
  rt_wake s' = at_count n w0 /\ entered (rt_entered s').
Proof.
  intros f Hr Hf Hs He. apply (wp_run_state _ (fun s => rt_wake s = at_count n w0 /\ entered (rt_entered s))).
  unfold remote_handle_invoke_domain. apply wp_bind, wp_with_locals.
  assert (Hend : forall e sl, ends sl -> wp (let '(nErr, held) := (e, sl.2) in
    _ ← (if held && negb (IS_REVERSE_RPC_CALL handle sc)
         then (_ ← on_wake (fastrpc_wake_unlock (wr 3)); mret tt) else mret tt);
    en ← gets (fun s => errno (rt_mem s));
    mret (if (nErr =? -1) && (en =? ECONNRESET) then AEE_ECONNRESET else nErr))
    (fun _ (s : rt W) => rt_wake s = at_count n w0 /\ entered (rt_entered s)) (fun _ s => rt_wake s = at_count n w0 /\ entered (rt_entered s)) sl.1).
  { intros e [s1 h] (es & Hes & Ho). unfold owes, seen in Ho. cbn [fst snd] in *. injection Ho as Ho He1. fold rev. rt_run. apply wp_if; intros E; rewrite E in Ho.
    - rt_run. eapply wp_drop; [exact Ho|lia..|]. rt_run. cbn. rewrite He1. split; [|done]. f_equal; lia.
    - rt_run. rewrite Ho, He1. split; [|done]. f_equal; lia. }
  eapply wp_mono; [by eapply body_wake| |]; intros; by apply Hend.
Qed.
End body.
End wake.

(** C17: The wake lock around an invocation, for a domain that uses it, when the writes of the lock
    succeed and the session is usable. The kernel is entered at most once, and then without the
    reference that the call took: the lock's counter is what it was before the call; a reverse
    call after the first of its domain also gives back the reference that the first one kept.
    At the end, on every path and whatever the arguments and the kernel's answer, the counter is
    what it was before. The one exception is deliberate: the first reverse call of a domain keeps
    one reference. *)
Theorem invoke_wake_balanced domain handle sc pra s :
  (forall i, 0 < wr i) -> wake_ok (rt_wake s) -> count (rt_wake s) + 3 < 4294967296 ->
  fastrpc_wake_lock_enable domain = true -> (fastrpc_session_dev domain (rt_proc s)).1 = AEE_SUCCESS ->
  let first := first_reverse domain handle sc s in
  let rev := IS_REVERSE_RPC_CALL handle sc in
  (rev = true -> first = false -> 0 < count (rt_wake s)) ->
  let s' := (remote_handle_invoke_domain domain handle sc pra s).2 in
  rt_wake s' = at_count (count (rt_wake s) + if first then 1 else 0) (rt_wake s) /\
  (rt_entered s' = rt_entered s \/
   rt_entered s' = rt_entered s ++ [at_count (count (rt_wake s) - if rev && negb first then 1 else 0) (rt_wake s)]).
Proof.
  intros Hwr Hw Hb Hen Hdev first rev Hrev. pose proof (ho_count _ (wo_ok _ Hw)) as Hc.
  destruct (fastrpc_session_dev domain (rt_proc s)) as [e dv] eqn:E. cbn in Hdev. subst e.
  assert (Hf : first = true -> rev = true) by (unfold first, first_reverse, rev; destruct (IS_REVERSE_RPC_CALL handle sc); done).
  assert (Heq : count (rt_wake s) + (if first then 1 else 0) - (if rev then 1 else 0) = count (rt_wake s) - if rev && negb first then 1 else 0).
  { destruct first; [rewrite Hf by done; cbn; lia|]. rewrite andb_true_r. lia. }
  rewrite <- Heq. apply (invoke_wake (rt_wake s) Hw Hwr) with (dv := dv); try done.
  - destruct first; lia.
  - destruct first; lia.
  - intros Hr. specialize (Hrev Hr). destruct first; [lia|]. specialize (Hrev eq_refl). lia.
  - fold first. destruct first; lia.
  - fold first. rewrite Z.add_simpl_r. by rewrite at_count_same by apply Hw.
Qed.

(** ** What does not work *)

(** Checksums and the performance counters cannot be used: with either enabled for a
    domain, a call to a non-static handle is refused with [AEE_EUNSUPPORTED] before any
    request is made (the kernel interface has no such request), after the handles were
    already consumed. The checksums themselves are written beyond the 64 entries of their
    array: one write for every output buffer past the 64th argument. *)
Theorem crc_refused domain dv handle sc l s :
  let nIn := REMOTE_SCALARS_INBUFS sc in
  let nb := nIn + REMOTE_SCALARS_OUTBUFS sc in
  fastrpc_session_dev domain (rt_proc s) = (AEE_SUCCESS, dv) -> setmode (hl (rt_proc s) domain) = 0 ->
  fastrpc_wake_lock_enable domain = false -> dma_handle_reverse_rpc_map_capability domain = false ->
  crc_enabled domain handle || perf_enabled domain handle = true -> args_alloc && crc_alloc && perf_alloc = true ->
  Z.of_nat (length l) = REMOTE_SCALARS_LENGTH sc -> Forall (arg_ok (fdlist (rt_mem s))) (take (Z.to_nat nb) l) ->
  let r := remote_handle_invoke_domain domain handle sc (Some l) s in
  r.1 = Go AEE_EUNSUPPORTED /\ mses (rt_mem r.2) = mses (rt_mem s) /\
  rt_dma r.2 = (dma_spec (drop (Z.to_nat nb) l) (rt_dma s)).2 /\
  rt_oob r.2 = rt_oob s ++ (if crc_enabled domain handle then seqZ (Z.max nIn 64) (nb - Z.max nIn 64) else []).
Proof.
  intros nIn nb Hdev Hsm Hwk Hcap Hon Hal Hlen Hok r.
  destruct (reach_kernel domain dv handle sc l s Hdev Hsm Hwk Hcap Hal Hlen Hok) as (req & crc & Hreq & Hk).
  rewrite Hon in Hreq.
  assert (Hw : wp (remote_handle_invoke_domain domain handle sc (Some l)) (fun a t => a = AEE_EUNSUPPORTED /\
     mses (rt_mem t) = mses (rt_mem s) /\ rt_dma t = (dma_spec (drop (Z.to_nat nb) l) (rt_dma s)).2 /\
     rt_oob t = rt_oob s ++ (if crc_enabled domain handle then seqZ (Z.max nIn 64) (nb - Z.max nIn 64) else [])) (fun _ _ => False) s).
  2: { unfold r, wp in *. destruct (remote_handle_invoke_domain _ _ _ _ s) as [[a|] t]; [|done]. cbn. destruct Hw as (-> & ?). done. }
  unfold remote_handle_invoke_domain. apply wp_bind, wp_with_locals. apply Hk. clear Hk. unfold call_kernel. rewrite Hwk.
  rt_run. cbn [id]. cbn iota. rt_run.
  eapply wp_call.
  { unfold do_ioctl, ioctl_invoke. replace (req <=? INVOKE_FD) with false by (unfold INVOKE_FD; lia). rewrite andb_false_r. reflexivity. }
  rt_run. fold nIn nb. pose proof (scalars_nonneg sc) as Hnn. unfold REMOTE_SCALARS_LENGTH in Hlen.
  destruct (crc_enabled domain handle); rt_run; try (unfold note_crc; rt_run); cbn -[crc_fill]; split_and!; try done.
  - rewrite crc_fill_oob by lia. rewrite length_drop, length_take. cbn [snd app]. unfold M_CRCLIST. subst nb nIn. cbn [rt_oob set_oob]. do 2 f_equal. lia.
  - by rewrite app_nil_r.
Qed.

(** A call on a handle that is not open is reported as a success: after the library is
    initialised, invoking a static-PD handle, the handle -1, or any handle that is in no
    domain's list returns 0 without a request to the kernel and without any change,
    because no domain was found and "no domain" counts as a process that is exiting. *)
Theorem invoke_bad_handle local sc pra s :
  is_Some (hlist (rt_proc s)) -> pl_err = 0 ->
  (IS_STATICPD_HANDLE local = true \/ local = 18446744073709551615 \/
   (get_domain_from_handle local (rt_proc s)).1 <> AEE_SUCCESS) ->
  remote_handle64_invoke local sc pra s = (Go 0, s) /\ remote_handle_invoke 4294967295 sc pra s = (Go 0, s).
Proof.
  intros [h Hh] Hp Hbad.
  assert (Hi : on_ses fastrpc_init_once s = (Go 0, s)).
  { unfold on_ses. change fastrpc_init_once with (init_once (W := W)). unfold init_once, on_proc, rt_proc in *. cbn. munfold.
    rewrite Hh, Hp. destruct s as [m ? ? ? ?]. by destruct m as [? ? ? ? ? ? [p w]]. }
  assert (Hend : forall e, e <> 0 -> invoke_result e (-1) s = (Go 0, s)).
  { intros e He. unfold invoke_result. munfold. by rewrite (proj2 (Z.eqb_neq e AEE_SUCCESS)). }
  split.
  - unfold remote_handle64_invoke. munfold. destruct (IS_STATICPD_HANDLE local); [by apply Hend|]. cbn [fst snd]. rewrite Hi. cbn [AEE_SUCCESS Z.eqb].
    destruct (Z.eqb_spec local 18446744073709551615) as [|Hl]; cbn [negb]; [by apply Hend|].
    destruct Hbad as [|[|Hbad]]; [done..|]. unfold rt_proc in *. cbn [fst snd].
    rewrite (proj2 (Z.eqb_neq _ AEE_SUCCESS) Hbad), (proj2 (Z.eqb_neq _ 0) Hbad). by apply Hend.
  - unfold remote_handle_invoke. munfold. cbn [fst snd]. rewrite Hi. cbn [AEE_SUCCESS Z.eqb negb Pos.eqb]. by apply Hend.
Qed.
End invoke.

Module InvokeEx.
Import MemEx.
#[local] Instance pl : PlResult := 0.
Definition off (_ : Z) : bool := false.
Definition on (_ : Z) : bool := true.
Definition s0 : rt unit := Rt (state0 ex_proc) dma0 wake0 ∅ [] [].
Definition s_wake : rt unit := Rt (state0 ex_proc) dma0 wake_ready ∅ [] [].
(** One input buffer and one handle; method 2. *)
Definition sc1 : Z := REMOTE_SCALARS_MAKEX 0 2 1 0 1 0.
Definition args1 : list remote_arg := [RemoteArg 4096 16; RemoteArg (8 * 4294967296 + 9) 0].
Definition invoke1 (attrs : Z -> Z) (wake : Z -> bool) := remote_handle_invoke_domain no_kernel (fun _ => ∅) attrs off wake false false true true true (fun _ => 1).

(** The kernel refuses with [EINVAL]; the request carried the offset of the handle. *)
Lemma invoke_request_witness :
  (invoke1 (fun _ => 0) off 3 70000 sc1 (Some args1) s0).1 = Go (answer (Io (-1) 0 22)).
Proof.
  unfold invoke1.
  pose proof (invoke_request no_kernel (fun _ => ∅) (fun _ => 0) off off false false true true true (fun _ => 1)
    3 5 70000 sc1 args1 s0 eq_refl eq_refl eq_refl eq_refl eq_refl eq_refl eq_refl ltac:(repeat constructor; by eexists)) as E.
  vm_compute (dma_spec _ _) in E. exact (f_equal fst E).
Defined.

Lemma invoke_balanced_witness :
  sref (ses (remote_handle_invoke no_kernel (fun _ => ∅) (fun _ => 0) off off false false true true true (fun _ => 1) 70000 sc1 (Some args1) s0).2) 3 = 0.
Proof.
  refine (proj1 (invoke_balanced no_kernel (fun _ => ∅) (fun _ => 0) off off false false true true true (fun _ => 1) _ s0 70000 sc1 (Some args1) _ _) 3).
  - by intros.
  - intros d. change (0 <= ref (hl ex_proc d) <= REF_MAX). by rewrite ex_proc_ref.
  - intros d. change (ref (hl ex_proc d) < REF_MAX - 1). by rewrite ex_proc_ref.
Defined.

(** The reverse call that comes first keeps a reference; a call that is not reversed enters the kernel
    without one. *)
Lemma invoke_wake_balanced_witness :
  let r := invoke1 (fun _ => 0) on 3 70000 sc1 (Some args1) s_wake in
  (count (rt_wake r.2) = 0 /\ count <$> rt_entered r.2 = [0]) /\
  count (rt_wake (invoke1 (fun _ => 0) on 3 FASTRPC_STATIC_HANDLE_LISTENER REVERSE_RPC_SCALAR None s_wake).2) = 1.
Proof.
  assert (Hw : wake_ok (rt_wake s_wake)) by (by repeat split).
  split; [split; [|vm_compute; reflexivity]|]; unfold invoke1.
  - by rewrite (proj1 (invoke_wake_balanced no_kernel (fun _ => ∅) (fun _ => 0) off on false false true true true (fun _ => 1)
      3 70000 sc1 (Some args1) s_wake (fun _ => eq_refl) Hw eq_refl eq_refl eq_refl ltac:(done))).
  - by rewrite (proj1 (invoke_wake_balanced no_kernel (fun _ => ∅) (fun _ => 0) off on false false true true true (fun _ => 1)
      3 FASTRPC_STATIC_HANDLE_LISTENER REVERSE_RPC_SCALAR None s_wake (fun _ => eq_refl) Hw eq_refl eq_refl eq_refl ltac:(done))).
Defined.

(** 33 buffers each way: two writes past the array. *)
Definition sc66 : Z := REMOTE_SCALARS_MAKEX 0 2 33 33 0 0.
Definition args66 : list remote_arg := replicate 66 (RemoteArg 4096 16).
Lemma crc_refused_witness :
  (invoke1 (fun _ => FASTRPC_MODE_CRC) off 3 70000 sc66 (Some args66) s0).1 = Go AEE_EUNSUPPORTED /\
  rt_oob (invoke1 (fun _ => FASTRPC_MODE_CRC) off 3 70000 sc66 (Some args66) s0).2 = [64; 65].
Proof.
  destruct (crc_refused no_kernel (fun _ => ∅) (fun _ => FASTRPC_MODE_CRC) off off false false true true true (fun _ => 1)
    3 5 70000 sc66 args66 s0 eq_refl eq_refl eq_refl eq_refl eq_refl eq_refl eq_refl) as (E & _ & _ & Eo).
  - apply Forall_take, Forall_replicate. intros _. by eexists.
  - split; [exact E|exact Eo].
Defined.

Lemma invoke_bad_handle_witness :
  remote_handle64_invoke no_kernel (fun _ => ∅) (fun _ => 0) off off false false true true true (fun _ => 1) 300 sc1 None s0 = (Go 0, s0).
Proof.
  apply (invoke_bad_handle no_kernel (fun _ => ∅) (fun _ => 0) off off false false true true true (fun _ => 1) 300 sc1 None s0);
    [by eexists|done|by left].
Defined.
End InvokeEx.
