(* ===== verification/Handles.v ===== *)
(** Opening and closing handles, [src/fastrpc_apps_user.c]: how a session with a domain
    comes up with the first handle ([domain_init], [remote_init]), what an open and a
    close do, and how the session goes down again ([domain_deinit]).

    The functions work on the state of an invocation ([Invoke]) and on the rest of a
    domain's record. The remote procedures (the generated stubs of [remotectl],
    [remotectl1], [adsp_current_process]) are parameters over the world beyond the
    process; so are [calloc], the device node that [open(2)] gives, and the shell that is
    read for a user process. The listener, notifications, signals, logging, performance
    counters and the file watcher only appear by the results their initialisers return. *)
From S2P Require Import Prelude Errors Domain Session SessionIface Ioctl ListenerBuf Remote Mem DmaHandles Wake Invoke.

(** ** State *)

(** The rest of [struct handle_list]. *)
Record hx := Hx {
  cphandle : Z; msghandle : Z; listenerhandle : Z; remotectlhandle : Z; adspperfhandle : Z;
  dsppd : Z; dsppdname : list Z;
  hx_info : Z; disable_exit_logs : Z; is_session_reserved : bool
}.

Definition DEFAULT_UNUSED : Z := 0.
Definition ROOT_PD : Z := 1.
Definition AUDIO_STATICPD : Z := 2.
Definition SENSORS_STATICPD : Z := 3.
Definition SECURE_STATICPD : Z := 4.
Definition OIS_STATICPD : Z := 5.
Definition USERPD : Z := 7.
Definition GUEST_OS_SHARED : Z := 8.
Definition MAX_PD_TYPE : Z := 9.
Definition OISPD_HANDLE : Z := 256.
Definition AUDIOPD_HANDLE : Z := 257.
Definition SENSORPD_HANDLE : Z := 258.
Definition ATTACHGUESTOS_HANDLE : Z := 259.
Definition ROOTPD_HANDLE : Z := 260.
Definition SECUREPD_HANDLE : Z := 261.
Definition INVALID_HANDLE : Z := 18446744073709551615.
Definition MAX_DSPPD_NAMELEN : Z := 30.
Definition const_adsp_current_process1_handle : Z := 4.
Definition const_adspmsgd_adsp1_handle : Z := 5.
Definition const_adsp_listener1_handle : Z := 7.
Definition const_remotectl1_handle : Z := 8.
Definition const_adsp_perf1_handle : Z := 9.
Definition AEE_EBADITEM : Z := 16.
Definition ENXIO : Z := 6.
Definition ECONNREFUSED : Z := 111.
(** The requests of [fastrpc_update_module_list]. *)
Definition REQ_NON_DOMAIN_PREPEND : Z := 0.
Definition REQ_NON_DOMAIN_DEQUEUE : Z := 1.
Definition REQ_DOMAIN_PREPEND : Z := 4.
Definition REQ_DOMAIN_DEQUEUE : Z := 5.

Definition attach_guestos (domain : Z) : Z :=
  if one_of (GET_DOMAIN_FROM_EFFEC_DOMAIN_ID domain) [MDSP_DOMAIN_ID; ADSP_DOMAIN_ID; CDSP_DOMAIN_ID; SDSP_DOMAIN_ID; CDSP1_DOMAIN_ID; GDSP0_DOMAIN_ID; GDSP1_DOMAIN_ID]
  then USERPD else ROOT_PD.

(** After [fastrpc_apps_user_init]. *)
Definition hx0 (domain : Z) : hx := Hx 0 0 0 0 0 (attach_guestos domain) [] (-1) 0 false.

(** [ap_wl]: the domains with [fastrpc_wake_lock_enable] set. *)
Record app (W : Type) := App { ap_rt : rt W; ap_hx : gmap Z hx; ap_wl : gset Z }.
Arguments App {_}. Arguments ap_rt {_}. Arguments ap_hx {_}. Arguments ap_wl {_}.

Section state.
Context {W : Type}.
Definition set_rt (r : rt W) (s : app W) : app W := App r (ap_hx s) (ap_wl s).
Definition hxof (s : app W) (d : Z) : hx := default (hx0 d) (ap_hx s !! d).
Definition set_hx (d : Z) (f : hx -> hx) (s : app W) : app W := App (ap_rt s) (<[d := f (hxof s d)]> (ap_hx s)) (ap_wl s).
Definition set_wl (l : gset Z) (s : app W) : app W := App (ap_rt s) (ap_hx s) l.
Definition aproc (s : app W) : proc := rt_proc (ap_rt s).
Definition ahl (s : app W) (d : Z) : handle_list := hl (aproc s) d.

#[export] Instance app_session : HasSession (app W) (proc * W) :=
  { ses s := ses (ap_rt s); set_ses k s := set_rt (set_ses k (ap_rt s)) s; ses_set := fun _ _ => eq_refl }.

Definition on_rt {A} (m : M (rt W) A) : M (app W) A := fun s =>
  let '(r, x) := m (ap_rt s) in (r, set_rt x s).
(** A call of the handle table, and one into the world. *)
Definition on_table {A} (m : M proc A) : M (app W) A := on_ses (on_proc m).
Definition on_world {A} (f : W -> A * W) : M (app W) A := on_ses (fun pw : proc * W => let '(r, w) := f pw.2 in (Go r, (pw.1, w))).
Definition upd_hl (d : Z) (f : handle_list -> handle_list) : M (app W) unit := on_table (modify (set_hl d f)).
Definition upd_hx (d : Z) (f : hx -> hx) : M (app W) unit := modify (set_hx d f).
End state.

(** The five handles a domain's record caches. *)
Inductive cached := CP | MSG | LISTENER | REMOTECTL | PERF.
Definition cached_handle (c : cached) (x : hx) : Z :=
  match c with CP => cphandle x | MSG => msghandle x | LISTENER => listenerhandle x | REMOTECTL => remotectlhandle x | PERF => adspperfhandle x end.
Definition set_cached (c : cached) (h : Z) (x : hx) : hx :=
  match c with
  | CP => Hx h (msghandle x) (listenerhandle x) (remotectlhandle x) (adspperfhandle x) (dsppd x) (dsppdname x) (hx_info x) (disable_exit_logs x) (is_session_reserved x)
  | MSG => Hx (cphandle x) h (listenerhandle x) (remotectlhandle x) (adspperfhandle x) (dsppd x) (dsppdname x) (hx_info x) (disable_exit_logs x) (is_session_reserved x)
  | LISTENER => Hx (cphandle x) (msghandle x) h (remotectlhandle x) (adspperfhandle x) (dsppd x) (dsppdname x) (hx_info x) (disable_exit_logs x) (is_session_reserved x)
  | REMOTECTL => Hx (cphandle x) (msghandle x) (listenerhandle x) h (adspperfhandle x) (dsppd x) (dsppdname x) (hx_info x) (disable_exit_logs x) (is_session_reserved x)
  | PERF => Hx (cphandle x) (msghandle x) (listenerhandle x) (remotectlhandle x) h (dsppd x) (dsppdname x) (hx_info x) (disable_exit_logs x) (is_session_reserved x)
  end.
Definition cached_const (c : cached) : Z :=
  match c with
  | CP => const_adsp_current_process1_handle | MSG => const_adspmsgd_adsp1_handle | LISTENER => const_adsp_listener1_handle
  | REMOTECTL => const_remotectl1_handle | PERF => const_adsp_perf1_handle
  end.
Definition set_pd (pd : Z) (name : list Z) (x : hx) : hx :=
  Hx (cphandle x) (msghandle x) (listenerhandle x) (remotectlhandle x) (adspperfhandle x) pd name (hx_info x) (disable_exit_logs x) (is_session_reserved x).
Definition set_info (i : Z) (x : hx) : hx :=
  Hx (cphandle x) (msghandle x) (listenerhandle x) (remotectlhandle x) (adspperfhandle x) (dsppd x) (dsppdname x) i (disable_exit_logs x) (is_session_reserved x).
Definition set_exit_logs (b : Z) (x : hx) : hx :=
  Hx (cphandle x) (msghandle x) (listenerhandle x) (remotectlhandle x) (adspperfhandle x) (dsppd x) (dsppdname x) (hx_info x) b (is_session_reserved x).
Definition set_reserved (b : bool) (x : hx) : hx :=
  Hx (cphandle x) (msghandle x) (listenerhandle x) (remotectlhandle x) (adspperfhandle x) (dsppd x) (dsppdname x) (hx_info x) (disable_exit_logs x) b.
Definition set_state (st : Z) (h : handle_list) : handle_list :=
  HandleList (ql h) (nql h) (rql h) (constCount h) (domainsCount h) (nondomainsCount h) (reverseCount h) st (ref h) (dev h) (mode h) (setmode h).

Section handles.
Context {W : Type} `{!PlResult}.
Variable sys_ioctl : Z -> ioctl_req -> proc * W -> io * (proc * W).
(** The address the next [calloc] gives (0 when it fails). *)
Variable calloc : proc -> Z.
(** The remote procedures; [ph] is written only when the call succeeds, and [dlerr] too. *)
Variables (adsp_current_process1_exit : Z -> W -> Z * W) (adsp_current_process_exit : W -> Z * W).
Variables (remotectl1_open1 : Z -> list Z -> W -> (Z * option Z * Z) * W) (remotectl_open : list Z -> W -> (Z * option Z * Z) * W).
Variables (remotectl1_close1 : Z -> Z -> W -> (Z * Z) * W) (remotectl_close : Z -> W -> (Z * Z) * W).
(** Its code, and the event descriptor it stores through [ph]. *)
Variable listener_android_geteventfd : Z -> Z * option Z.
(** What opening the device node of a domain gives. *)
Variable open_device_node : Z -> Z.
(** A user process: an error, or the attributes, shell, its length and descriptor, the
    memory size and the signature length that [ioctl_init] gets. *)
Record user_pd_args := UserPd { up_attrs : Z; up_file : Z; up_filelen : Z; up_filefd : Z; up_memlen : Z; up_siglen : Z }.
Variable user_pd : Z -> Z + user_pd_args.
(** Whether the buffer with the name of a static process can be allocated; its address. *)
Variable name_buf : Z -> option Z.
(** What the other initialisers return, and whether notifications are on. *)
Variables (apps_mem_init listener_android_domain_init enable_notifications : Z -> Z) (fastrpc_notif_flag : bool).
(** Whether the copy of a name can be allocated; what the writes of the wake lock return. *)
Variables (uri_alloc : bool) (wr : nat -> Z).

Definition on_mem_a {A} (m : M (mem (proc * W)) A) : M (app W) A := on_rt (on_mem m).
Definition errno_a : M (app W) Z := gets (fun s => errno (rt_mem (ap_rt s))).

(** ** The cached handles: allocated on first use *)
Definition get_const_handle (c : cached) (domain : Z) : M (app W) Z :=
  x ← gets (fun s => cached_handle c (hxof s domain));
  if negb (x =? 0) then mret x
  else
    a ← gets (fun s => calloc (aproc s));
    r ← on_table (fastrpc_update_module_list REQ_DOMAIN_PREPEND domain (cached_const c) a None);
    let '(nErr, lcl) := r : Z * option Z in
    if nErr =? AEE_SUCCESS then (_ ← upd_hx domain (set_cached c (default 0 lcl)); gets (fun s => cached_handle c (hxof s domain)))
    else mret INVALID_HANDLE.
Definition get_adsp_current_process1_handle : Z -> M (app W) Z := get_const_handle CP.
Definition get_adspmsgd_adsp1_handle : Z -> M (app W) Z := get_const_handle MSG.
Definition get_adsp_listener1_handle : Z -> M (app W) Z := get_const_handle LISTENER.
Definition get_remotectl1_handle : Z -> M (app W) Z := get_const_handle REMOTECTL.
Definition get_adsp_perf1_handle : Z -> M (app W) Z := get_const_handle PERF.

(** ** The device of a session *)
Definition close_device_node (dv : Z) : M (app W) unit :=
  on_table (modify (fun p => set_closed (dv :: closed p) p)).

Definition is_attach_error (e : Z) : bool := one_of e [ENOTTY; ENXIO; EINVAL].

(** [ioctl_init] for the kind of process of the domain. *)
Definition start_process (domain dv pd_type : Z) (name : list Z) : M (app W) unit :=
  let filelen := Z.of_nat (length name) + 1 in
  if one_of pd_type [ROOT_PD; GUEST_OS_SHARED; SECURE_STATICPD] then
    _ ← VERIFYC (negb (pd_type =? SECURE_STATICPD) || is_found (name_buf domain)) AEE_ENOMEMORY;
    let '(file, len) := if pd_type =? SECURE_STATICPD then (default 0 (name_buf domain), filelen) else (0, 0) in
    r ← on_mem_a (do_ioctl (ioctl_init sys_ioctl dv FASTRPC_INIT_ATTACH 0 file len (-1) 0 0));
    en ← errno_a;
    VERIFYC ((io_ret r =? 0) || is_attach_error en) AEE_ERPC
  else if one_of pd_type [AUDIO_STATICPD; OIS_STATICPD] then
    _ ← VERIFYC (is_found (name_buf domain)) AEE_ENORPCMEMORY;
    let memlen := if pd_type =? AUDIO_STATICPD then 3 * 1024 * 1024 else 0 in
    r ← on_mem_a (do_ioctl (ioctl_init sys_ioctl dv FASTRPC_INIT_CREATE_STATIC 0 (default 0 (name_buf domain)) filelen (-1) memlen 0));
    en ← errno_a;
    if io_ret r =? 0 then mret tt else bail (convert_kernel_to_user_error (io_ret r) en)
  else if pd_type =? SENSORS_STATICPD then
    r ← on_mem_a (do_ioctl (ioctl_init sys_ioctl dv FASTRPC_INIT_ATTACH_SENSORS 0 0 0 (-1) 0 0));
    en ← errno_a;
    VERIFYC ((io_ret r =? 0) || is_attach_error en) AEE_ERPC
  else if pd_type =? USERPD then
    match user_pd domain with
    | inl e => bail (if e =? 0 then -1 else e)
    | inr u =>
      _ ← on_mem_a (modify (set_errno 0));
      r ← on_mem_a (do_ioctl (ioctl_init sys_ioctl dv FASTRPC_INIT_CREATE (up_attrs u) (up_file u) (up_filelen u) (up_filefd u) (up_memlen u) (up_siglen u)));
      en ← errno_a;
      if io_ret r =? 0 then mret tt else bail (if en =? ECONNREFUSED then AEE_ECONNREFUSED else io_ret r)
    end
  else mret tt.

(** The local is [dev], the new device while it is not stored. The session information
    request is never supported and [ioctl_getinfo] always gives 1. *)
Definition remote_init (domain : Z) : M (app W) Z :=
  _ ← on_table (set_thread_context domain);
  x ← gets (fun s => hxof s domain);
  let pd_type := dsppd x in
  r ← with_locals (-1) (
    _ ← VERIFYC ((DEFAULT_UNUSED <? pd_type) && (pd_type <? MAX_PD_TYPE)) AEE_EBADITEM;
    h ← lift (gets (fun s => ahl s domain));
    if negb (dev h =? -1) then mret tt
    else
      let dv := open_device_node domain in
      _ ← setl (fun _ => dv);
      _ ← VERIFYC (0 <=? dv) AEE_ECONNREFUSED;
      _ ← lift (upd_hx domain (set_info 1));
      _ ← (if IS_EXTENDED_DOMAIN_ID domain
           then (let e := ioctl_setmode dv FASTRPC_SESSION_ID1 in VERIFY e (e =? AEE_SUCCESS)) else mret tt);
      _ ← lift (start_process domain dv pd_type (dsppdname x));
      _ ← lift (upd_hl domain (set_dev dv));
      _ ← setl (fun _ => -1);
      lift (upd_hx domain (set_exit_logs 0)));
  let '(nErr, dv) := r : Z * Z in
  _ ← (if 0 <=? dv then close_device_node dv else mret tt);
  en ← errno_a;
  mret (if (nErr =? -1) && (en =? ECONNRESET) then AEE_ECONNRESET else nErr).

(** ** Tear-down of a session *)

(** What [domain_deinit] writes into the record once the components are down. It also clears the
    name of the session, which no function reads: the name is not part of this record, it is
    with the parameters that Control stores. *)
Definition reset_hx (domain : Z) (x : hx) : hx :=
  Hx 0 0 0 0 (adspperfhandle x) (attach_guestos domain) [] (-1) (disable_exit_logs x) (is_session_reserved x).

Definition domain_deinit (domain : Z) : M (app W) unit :=
  p ← gets aproc;
  match hlist p with
  | None => mret tt
  | Some _ =>
    let olddev := dev (hl p domain) in
    _ ← (if olddev =? -1 then mret tt
         else
           handle ← get_adsp_current_process1_handle domain;
           _ ← (if negb (handle =? INVALID_HANDLE) then on_world (adsp_current_process1_exit handle) else on_world adsp_current_process_exit);
           _ ← upd_hl domain (set_state FASTRPC_DOMAIN_STATE_DEINIT);
           _ ← on_rt (modify (fun s => set_revdone (rt_revdone s ∖ {[ domain ]}) s));
           _ ← on_table (fastrpc_clear_handle_list MULTI_DOMAIN_HANDLE_LIST_ID domain);
           _ ← on_table (fastrpc_clear_handle_list REVERSE_HANDLE_LIST_ID domain);
           _ ← (if domain =? DEFAULT_DOMAIN_ID
                then (_ ← on_table (fastrpc_clear_handle_list NON_DOMAIN_HANDLE_LIST_ID domain); mret tt) else mret tt);
           _ ← on_mem_a (fastrpc_mem_close domain);
           _ ← upd_hl domain (fun h => set_ref 0 (set_state 0 h));
           _ ← upd_hx domain (reset_hx domain);
           _ ← upd_hl domain (set_dev (-1));
           close_device_node olddev);
    _ ← upd_hx domain (set_reserved false);
    upd_hl domain (set_state FASTRPC_DOMAIN_STATE_CLEAN)
  end.

(** ** Bringing a session up *)

(** The control request for the wake lock is never supported: the lock goes down. *)
Definition update_kernel_wakelock_status (domain : Z) : M (app W) Z :=
  _ ← modify (fun s => set_wl (ap_wl s ∖ {[ domain ]}) s);
  _ ← on_rt (on_wake (fastrpc_wake_lock_deinit (wr 0) 0 0));
  mret AEE_SUCCESS.

(** The local says that the record is locked, which the code after [bail:] only uses to
    unlock it: it is left out. *)
Definition domain_init_body (domain : Z) : M (app W) unit :=
  let dom := GET_DOMAIN_FROM_EFFEC_DOMAIN_ID domain in
  _ ← upd_hl domain (fun h => set_lst RQL [] (set_lst NQL [] (set_lst QL [] h)));
  _ ← upd_hx domain (set_reserved true);
  _ ← VERIFY_CALL (remote_init domain);
  wl ← gets (fun s => bool_decide (domain ∈ ap_wl s));
  _ ← (if wl : bool then VERIFY_CALL (update_kernel_wakelock_status domain) else mret tt);
  _ ← VERIFY_CALL (on_mem_a (fastrpc_mem_open sys_ioctl domain));
  _ ← VERIFY (apps_mem_init domain) (apps_mem_init domain =? AEE_SUCCESS);
  _ ← (if one_of dom [CDSP_DOMAIN_ID; CDSP1_DOMAIN_ID; GDSP0_DOMAIN_ID; GDSP1_DOMAIN_ID]
       then (_ ← get_adsp_current_process1_handle domain; mret tt) else mret tt);
  _ ← (if fastrpc_notif_flag then
         _ ← get_adsp_current_process1_handle domain;
         let ret := enable_notifications domain in
         VERIFYC ((ret =? AEE_SUCCESS) || (ret =? s32 (DSP_AEE_EOFFSET + AEE_EUNSUPPORTED))) ret
       else mret tt);
  _ ← upd_hl domain (fun h => set_ref 0 (set_state FASTRPC_DOMAIN_STATE_INIT h));
  _ ← VERIFY (listener_android_domain_init domain) (listener_android_domain_init domain =? AEE_SUCCESS);
  x ← gets (fun s => hxof s domain);
  if negb (dom =? SDSP_DOMAIN_ID) && (dsppd x =? ROOT_PD)
  then (_ ← get_adspmsgd_adsp1_handle domain; mret tt) else mret tt.

(** The code and [*dev]. *)
Definition domain_init (domain : Z) : M (app W) (Z * Z) :=
  h ← gets (fun s => ahl s domain);
  if negb (state h =? FASTRPC_DOMAIN_STATE_CLEAN) then mret (AEE_SUCCESS, dev h)
  else
    nErr ← to_bail (domain_init_body domain);
    if negb (nErr =? AEE_SUCCESS) then (_ ← domain_deinit domain; mret (nErr, -1))
    else (h ← gets (fun s => ahl s domain); mret (nErr, dev h)).

(** ** Opening *)
Definition ITRANSPORT_PREFIX : list Z := [39; 34; 58; 59; 46; 47; 92].

(** The name of a static process: the domain and session suffixes are cut off. An index
    before the start writes over the colon in front of the name. *)
Definition cut_at (s : list Z) (i : Z) : list Z := if 0 <=? i then take (Z.to_nat i) s else s.
Definition static_pd_name (domain : Z) (pdName : list Z) : list Z :=
  let n := Z.of_nat (length pdName) in
  let uri := get_domain_from_id (GET_DOMAIN_FROM_EFFEC_DOMAIN_ID domain) in
  let uri' := get_domain_from_id domain in
  if is_found (strstr pdName uri) && is_found (strstr pdName FASTRPC_SESSION_URI)
  then cut_at pdName (n - Z.of_nat (length uri) - Z.of_nat (length (str "&_session=1")))
  else if is_found (strstr pdName uri') then cut_at pdName (n - Z.of_nat (length uri')) else pdName.

(** The kind of process and the handle a name stands for. *)
Definition static_pds : list (list Z * (Z * Z)) :=
  [(str "audiopd", (AUDIOPD_HANDLE, AUDIO_STATICPD)); (str "securepd", (SECUREPD_HANDLE, SECURE_STATICPD));
   (str "sensorspd", (SENSORPD_HANDLE, SENSORS_STATICPD)); (str "rootpd", (ROOTPD_HANDLE, GUEST_OS_SHARED));
   (str "oispd", (OISPD_HANDLE, OIS_STATICPD))].
Fixpoint find_pd (name : list Z) (l : list (list Z * (Z * Z))) : option (Z * Z) :=
  match l with
  | [] => None
  | (p, r) :: l => if starts_with p name then Some r else find_pd name l
  end.

Definition create_static_pd (domain : Z) (name : list Z) : M (app W * option Z) unit :=
  let pdName := static_pd_name domain (drop (length (ITRANSPORT_PREFIX ++ str "createstaticpd:")) name) in
  _ ← VERIFYC uri_alloc AEE_ENOMEMORY;
  _ ← VERIFYC (Z.of_nat (length pdName) <? MAX_DSPPD_NAMELEN) AEE_EBADPARM;
  _ ← lift (upd_hx domain (fun x => set_pd (dsppd x) pdName x));
  match find_pd pdName static_pds with
  | Some (h, pd) => _ ← setl (fun _ => Some h); lift (upd_hx domain (fun x => set_pd pd (dsppdname x) x))
  | None => mret tt
  end.

(** The remote side: by the session's [remotectl1] handle, or without one. The local is
    [*ph]. *)
Definition non_domain_calls (domain : Z) : M (app W) unit :=
  _ ← on_table (fastrpc_update_module_list REQ_DOMAIN_DEQUEUE domain const_remotectl1_handle 0 None);
  upd_hx domain (set_cached REMOTECTL INVALID_HANDLE).

Definition store_ph (o : option Z) : M (app W * option Z) unit :=
  match o with Some h => setl (fun _ => Some h) | None => mret tt end.

Definition open_remote (domain : Z) (name : list Z) : M (app W * option Z) unit :=
  handle ← lift (get_remotectl1_handle domain);
  dlerr ← (if negb (handle =? INVALID_HANDLE) then
      r ← lift (on_world (remotectl1_open1 handle name));
      let '(nErr, ph, dlerr) := r : Z * option Z * Z in
      _ ← store_ph ph;
      if nErr =? AEE_SUCCESS then mret dlerr
      else
        _ ← lift (non_domain_calls domain);
        r ← lift (on_world (remotectl_open name));
        let '(nErr, ph, dlerr) := r : Z * option Z * Z in
        _ ← store_ph ph; _ ← VERIFY nErr (nErr =? AEE_SUCCESS); mret dlerr
    else
      r ← lift (on_world (remotectl_open name));
      let '(nErr, ph, dlerr) := r : Z * option Z * Z in
      _ ← store_ph ph; _ ← VERIFY nErr (nErr =? AEE_SUCCESS); mret dlerr);
  VERIFY dlerr (dlerr =? AEE_SUCCESS).

(** With one instance of the library loaded. *)
Definition is_request (req : string) (name : list Z) : bool := starts_with (ITRANSPORT_PREFIX ++ str req) name.

(** The code and [*ph], which is [ph] before the call. *)
Definition remote_handle_open_domain (domain : Z) (name : list Z) (ph : option Z) : M (app W) (Z * option Z) :=
  if is_request "geteventfd" name then mret ((listener_android_geteventfd domain).1, match (listener_android_geteventfd domain).2 with Some fd => Some (u32 fd) | None => ph end)
  else if is_request "attachguestos" name then
    _ ← upd_hx domain (fun x => set_pd ROOT_PD (dsppdname x) x);
    mret (AEE_SUCCESS, Some ATTACHGUESTOS_HANDLE)
  else if is_request "attachuserpd" name then
    _ ← upd_hx domain (fun x => set_pd USERPD (dsppdname x) x);
    mret (AEE_SUCCESS, ph)
  else
    r ← with_locals ph (
      if is_request "createstaticpd" name then create_static_pd domain name
      else
        dd ← lift (domain_init domain);
        let '(nErr, dv) := dd : Z * Z in
        _ ← VERIFY nErr (nErr =? AEE_SUCCESS);
        _ ← VERIFYC (negb (dv =? -1)) AEE_ERPC;
        open_remote domain name);
    let '(nErr, ph) := r : Z * option Z in
    h ← gets (fun s => ahl s domain);
    _ ← (if (nErr =? AEE_ECONNRESET) && (domainsCount h =? 0) && (nondomainsCount h =? 0)
         then (_ ← upd_hx domain (set_exit_logs 1); domain_deinit domain) else mret tt);
    mret (nErr, ph).

(** ** Closing *)
Definition close_remote (domain h : Z) : M (app W) unit :=
  handle ← get_remotectl1_handle domain;
  dlerr ← (if negb (handle =? INVALID_HANDLE) then
      r ← on_world (remotectl1_close1 handle h);
      let '(nErr, dlerr) := r : Z * Z in
      if nErr =? AEE_SUCCESS then mret dlerr
      else
        _ ← non_domain_calls domain;
        r ← on_world (remotectl_close h);
        mret r.2
    else
      r ← on_world (remotectl_close h);
      let '(nErr, dlerr) := r : Z * Z in
      _ ← VERIFY nErr (nErr =? AEE_SUCCESS); mret dlerr);
  VERIFY dlerr (dlerr =? AEE_SUCCESS).

Definition remote_handle_close_domain (domain h : Z) : M (app W) Z :=
  to_bail (
    _ ← VERIFYC (negb (h =? 4294967295)) AEE_EINVHANDLE;
    _ ← VERIFYC uri_alloc AEE_ENOMEMORY;
    close_remote domain h).

(** At the end of the closes: a failure while the process exits is no failure. *)
Definition close_result (nErr domain : Z) : M (app W) Z :=
  p ← gets aproc;
  mret (if negb (nErr =? AEE_SUCCESS) && is_process_exiting domain p then 0 else nErr).

Definition put_ref (domain : Z) : M (app W) unit := _ ← on_ses (session_put domain); mret tt.

Definition remote_handle_close (h : Z) : M (app W) Z :=
  domain ← gets (fun s => get_current_domain (aproc s));
  nErr ← to_bail (
    _ ← VERIFY_CALL (remote_handle_close_domain domain h);
    _ ← put_ref domain;
    _ ← on_table (fastrpc_update_module_list REQ_NON_DOMAIN_DEQUEUE domain h 0 None);
    mret tt);
  close_result nErr domain.

(** The locals are [domain] and [start_deinit]. *)
Definition remote_handle64_close (handle : Z) : M (app W) Z :=
  if IS_STATICPD_HANDLE handle then mret AEE_SUCCESS
  else
    r ← with_locals (-1, false) (
      _ ← VERIFYC (negb (handle =? INVALID_HANDLE)) AEE_EINVHANDLE;
      dd ← lift (gets (fun s => get_domain_from_handle handle (aproc s)));
      _ ← VERIFY dd.1 (dd.1 =? AEE_SUCCESS);
      let domain := default (-1) dd.2 in
      _ ← setl (fun l => (domain, l.2));
      rr ← lift (gets (fun s => get_handle_remote handle (aproc s)));
      _ ← VERIFY rr.1 (rr.1 =? AEE_SUCCESS);
      let remote := default 0 rr.2 in
      _ ← lift (on_table (set_thread_context domain));
      h ← lift (gets (fun s => ahl s domain));
      let start_deinit := (domainsCount h <=? 1) && (nondomainsCount h =? 0) in
      _ ← setl (fun l => (l.1, start_deinit));
      _ ← (if negb start_deinit && negb (remote =? 0)
           then VERIFY_CALL (lift (remote_handle_close_domain domain (u32 remote))) else mret tt);
      _ ← lift (on_table (fastrpc_update_module_list REQ_DOMAIN_DEQUEUE domain handle 0 None));
      lift (put_ref domain));
    let '(nErr, (domain, start_deinit)) := r : Z * (Z * bool) in
    if negb (nErr =? AEE_EINVHANDLE) && IS_VALID_EFFECTIVE_DOMAIN_ID domain then
      _ ← (if start_deinit then (_ ← upd_hx domain (set_exit_logs 1); domain_deinit domain) else mret tt);
      close_result nErr domain
    else mret nErr.

(** ** Opening: the entry points *)

(** The locals are [domain], [ref] and [*ph], which is [ph0] before the call. The code
    and [*ph]. *)
Definition remote_handle_open (name : option (list Z)) (ph0 : option Z) : M (app W) (Z * option Z) :=
  match name, ph0 with
  | Some name, Some p0 =>
    r ← with_locals (-1, false, p0) (
      _ ← VERIFY_CALL (lift (on_ses fastrpc_init_once));
      domain ← lift (gets (fun s => get_current_domain (aproc s)));
      _ ← setl (fun l => (domain, l.1.2, l.2));
      _ ← VERIFY_CALL (lift (on_ses (session_get domain)));
      _ ← setl (fun l => (l.1.1, true, l.2));
      oo ← lift (remote_handle_open_domain domain name (Some p0));
      let '(nErr, ph) := oo : Z * option Z in
      _ ← setl (fun l => (l.1, default 0 ph));
      _ ← VERIFY nErr (nErr =? AEE_SUCCESS);
      _ ← lift (a ← gets (fun s => calloc (aproc s));
                on_table (fastrpc_update_module_list REQ_NON_DOMAIN_PREPEND domain (default 0 ph) a (Some name)));
      mret tt);
    let '(nErr, (domain, ref, ph)) := r : Z * (Z * bool * Z) in
    _ ← (if negb (nErr =? AEE_SUCCESS) then
           if negb (ph =? 0) then (_ ← remote_handle64_close ph; mret tt)
           else if ref : bool then put_ref domain else mret tt
         else mret tt);
    mret (nErr, Some ph)
  | _, _ =>
    (* [init_once] comes before the test of the arguments; with a failed one the code after [bail:] reads [*ph] *)
    e ← on_ses fastrpc_init_once; mret (if e =? AEE_SUCCESS then AEE_EBADPARM else e, None)
  end.

(** The locals are [domain], [ref] and [h]; [*ph] is undetermined ([None]) when it is not
    written, or written from the local handle of an allocation that failed. *)
Definition remote_handle64_open (name : option (list Z)) (has_ph : bool) : M (app W) (Z * option Z) :=
  match name with
  | Some name =>
    r ← with_locals (-1, false, 0, None) (
      _ ← VERIFY_CALL (lift (on_ses fastrpc_init_once));
      if negb has_ph then bail AEE_EBADPARM
      else
        let domain := get_domain_from_name (Some name) DOMAIN_NAME_IN_URI in
        _ ← setl (fun l => (domain, l.1.1.2, l.1.2, l.2));
        _ ← VERIFYC (0 <=? domain) AEE_EBADPARM;
        _ ← VERIFY_CALL (lift (on_ses (session_get domain)));
        _ ← setl (fun l => (l.1.1.1, true, l.1.2, l.2));
        oo ← lift (remote_handle_open_domain domain name (Some 0));
        let '(nErr, ph) := oo : Z * option Z in
        let h := default 0 ph in
        _ ← setl (fun l => (l.1.1, h, l.2));
        _ ← VERIFY nErr (nErr =? AEE_SUCCESS);
        if is_request "geteventfd" name || IS_STATICPD_HANDLE h then setl (fun l => (l.1, Some h))
        else
          r ← lift (a ← gets (fun s => calloc (aproc s));
                    on_table (fastrpc_update_module_list REQ_DOMAIN_PREPEND domain h a (Some name)));
          setl (fun l => (l.1, r.2)));
    let '(nErr, (domain, ref, h, ph)) := r : Z * (Z * bool * Z * option Z) in
    _ ← (if negb (nErr =? AEE_SUCCESS) then
           if negb (h =? 0) then (_ ← remote_handle_close h; mret tt)
           else if ref : bool then put_ref domain else mret tt
         else mret tt);
    mret (nErr, ph)
  | None => e ← on_ses fastrpc_init_once; mret (if e =? AEE_SUCCESS then AEE_EBADPARM else e, None)
  end.

(** ** Steps *)
Definition set_aproc (p : proc) (s : app W) : app W :=
  set_rt (set_mem (set_mses (p, (mses (rt_mem (ap_rt s))).2) (rt_mem (ap_rt s))) (ap_rt s)) s.
Definition world (s : app W) : W := (mses (rt_mem (ap_rt s))).2.
Definition set_world (w : W) (s : app W) : app W :=
  set_rt (set_mem (set_mses (aproc s, w) (rt_mem (ap_rt s))) (ap_rt s)) s.

Lemma on_table_eq {A} (m : M proc A) s a p : m (aproc s) = (Go a, p) -> on_table m s = (Go a, set_aproc p s).
Proof.
  intros E. unfold on_table, on_ses, on_proc. unfold aproc, rt_proc in E. cbn. rewrite E. done.
Qed.
Lemma upd_hl_eq d f s : upd_hl d f s = (Go tt, set_aproc (set_hl d f (aproc s)) s).
Proof. by apply on_table_eq. Qed.

Lemma wp_table {A} (m : M proc A) (Q : A -> app W -> Prop) R s a p :
  m (aproc s) = (Go a, p) -> Q a (set_aproc p s) -> wp (on_table m) Q R s.
Proof. intros E. eapply wp_call. by apply on_table_eq. Qed.
Lemma wp_upd_hl d f (Q : unit -> app W -> Prop) R s : Q tt (set_aproc (set_hl d f (aproc s)) s) -> wp (upd_hl d f) Q R s.
Proof. eapply wp_call, upd_hl_eq. Qed.
Lemma wp_upd_hx d f (Q : unit -> app W -> Prop) R s : Q tt (set_hx d f s) -> wp (upd_hx d f) Q R s.
Proof. done. Qed.
Lemma wp_world {A} (f : W -> A * W) (Q : A -> app W -> Prop) R s :
  Q (f (world s)).1 (set_world (f (world s)).2 s) -> wp (on_world f) Q R s.
Proof. unfold wp, on_world, on_ses, world, set_world, aproc, rt_proc. cbn. by destruct (f _). Qed.
Lemma wp_on_rt {A} (m : M (rt W) A) (Q : A -> app W -> Prop) R s :
  wp m (fun a x => Q a (set_rt x s)) (fun e x => R e (set_rt x s)) (ap_rt s) -> wp (on_rt m) Q R s.
Proof. unfold wp, on_rt. by destruct (m (ap_rt s)) as [[]]. Qed.

Lemma hxof_set d f (s : app W) x : hxof (set_hx d f s) x = if decide (x = d) then f (hxof s d) else hxof s x.
Proof.
  unfold hxof at 1. cbn. destruct (decide (x = d)) as [->|]; [by rewrite lookup_insert_eq|by rewrite lookup_insert_ne].
Qed.

Ltac app_step :=
  first [wp_step | lazymatch goal with
  | |- wp (upd_hl _ _) _ _ _ => apply wp_upd_hl
  | |- wp (upd_hx _ _) _ _ _ => apply wp_upd_hx
  | |- wp (on_world _) _ _ _ => apply wp_world
  | |- wp (on_rt _) _ _ _ => apply wp_on_rt
  | |- wp (on_mem_a _) _ _ _ => unfold on_mem_a; apply wp_on_rt, wp_on_mem
  end].
Ltac app_run :=
  repeat lazymatch goal with
  | |- wp (VERIFY _ _) _ _ _ => fail
  | |- wp (VERIFYC _ _) _ _ _ => fail
  | |- wp (if _ then _ else _) _ _ _ => fail
  | |- _ => app_step
  end.

(** ** The cached handles *)
Lemma get_const_cached c d (s : app W) : cached_handle c (hxof s d) <> 0 -> get_const_handle c d s = (Go (cached_handle c (hxof s d)), s).
Proof. intros Hn. unfold get_const_handle. munfold. by rewrite (proj2 (Z.eqb_neq _ 0) Hn). Qed.

Definition const_node (c : cached) (d a : Z) : handle_info := HandleInfo a d (cached_const c) (get_lib_name None).
Definition const_opened (c : cached) (d a : Z) (s : app W) : app W :=
  set_hx d (set_cached c a) (set_aproc (set_hl d (count_step QL (cached_const c) 1)
    (set_hl d (fun h => set_lst QL (const_node c d a :: lst QL h) h) (aproc s))) s).

Lemma cached_set c h x : cached_handle c (set_cached c h x) = h.
Proof. by destruct c. Qed.

Lemma get_const_new c d (s : app W) :
  cached_handle c (hxof s d) = 0 -> calloc (aproc s) <> 0 ->
  get_const_handle c d s = (Go (calloc (aproc s)), const_opened c d (calloc (aproc s)) s).
Proof.
  intros H0 Ha. apply wp_result. unfold get_const_handle. app_run. rewrite H0. cbn [Z.eqb negb]. cbn iota. app_run.
  eapply wp_table; [by apply (update_prepend REQ_DOMAIN_PREPEND DOMAIN_LIST_PREPEND)|].
  cbn beta iota. unfold AEE_SUCCESS. cbn [Z.eqb]. app_run. cbn [default from_option].
  rewrite hxof_set, decide_True, cached_set by done. split; done.
Qed.
Lemma get_const_failed c d (s : app W) :
  cached_handle c (hxof s d) = 0 -> calloc (aproc s) = 0 -> get_const_handle c d s = (Go INVALID_HANDLE, set_aproc (aproc s) s).
Proof.
  intros H0 Ha. apply wp_result. unfold get_const_handle. app_run. rewrite H0. cbn [Z.eqb negb]. cbn iota. app_run.
  eapply wp_table.
  { unfold fastrpc_update_module_list, fastrpc_alloc_handle. munfold. cbn. rewrite Ha. done. }
  done.
Qed.

(** What getting a cached handle may change: one constant handle more on its domain, and
    the record that caches it. *)
Record const_step (c : cached) (d : Z) (s s1 : app W) : Prop := {
  cs_hlist : is_Some (hlist (aproc s1));
  cs_closed : closed (aproc s1) = closed (aproc s);
  cs_tls : tls (aproc s1) = tls (aproc s);
  cs_other x : x <> d -> ahl s1 x = ahl s x /\ hxof s1 x = hxof s x;
  cs_same : exists l n, ahl s1 d = HandleList l (nql (ahl s d)) (rql (ahl s d)) n (domainsCount (ahl s d))
      (nondomainsCount (ahl s d)) (reverseCount (ahl s d)) (state (ahl s d)) (ref (ahl s d)) (dev (ahl s d)) (mode (ahl s d)) (setmode (ahl s d));
  cs_hx : hxof s1 d = hxof s d \/ exists h, hxof s1 d = set_cached c h (hxof s d);
  cs_mem : smaps (rt_mem (ap_rt s1)) = smaps (rt_mem (ap_rt s));
  cs_wl : ap_wl s1 = ap_wl s;
  cs_rt : rt_dma (ap_rt s1) = rt_dma (ap_rt s) /\ rt_wake (ap_rt s1) = rt_wake (ap_rt s) /\ rt_revdone (ap_rt s1) = rt_revdone (ap_rt s)
}.

Lemma hl_u32 d (s : app W) : ahl s d = HandleList (ql (ahl s d)) (nql (ahl s d)) (rql (ahl s d)) (constCount (ahl s d)) (domainsCount (ahl s d))
      (nondomainsCount (ahl s d)) (reverseCount (ahl s d)) (state (ahl s d)) (ref (ahl s d)) (dev (ahl s d)) (mode (ahl s d)) (setmode (ahl s d)).
Proof. by destruct (ahl s d). Qed.

Lemma const_step_refl c d s : is_Some (hlist (aproc s)) -> const_step c d s s.
Proof. intros Hs. split; try done; [|by left]. eexists _, _. apply hl_u32. Qed.
Lemma set_aproc_id (s : app W) : set_aproc (aproc s) s = s.
Proof. destruct s as [[[? ? ? ? ? ? [p w]] ? ? ? ?] ? ?]. done. Qed.

Lemma count_const c h : exists n, count_step QL (cached_const c) 1 h =
  HandleList (ql h) (nql h) (rql h) n (u32 (domainsCount h + 0)) (u32 (nondomainsCount h + 0)) (u32 (reverseCount h + 0)) (state h) (ref h) (dev h) (mode h) (setmode h).
Proof. eexists. by destruct c. Qed.

Definition counts_u32 (h : handle_list) : Prop :=
  domainsCount h = u32 (domainsCount h) /\ nondomainsCount h = u32 (nondomainsCount h) /\ reverseCount h = u32 (reverseCount h).

Lemma const_step_new c d a s : is_Some (hlist (aproc s)) -> counts_u32 (ahl s d) -> const_step c d s (const_opened c d a s).
Proof.
  intros Hs (H1 & H2 & H3). unfold const_opened.
  set (p := set_hl d _ (set_hl d _ _)).
  assert (Ep : forall x, hl p x = if decide (x = d) then count_step QL (cached_const c) 1 (set_lst QL (const_node c d a :: lst QL (ahl s d)) (ahl s d)) else ahl s x).
  { intros x. unfold p. rewrite set_hl_hl, hl_set by done. done. }
  split.
  - change (is_Some (hlist p)). unfold p. by repeat apply hlist_set.
  - change (closed p = closed (aproc s)). done.
  - done.
  - intros x Hx. rewrite hxof_set, decide_False by done. refine (conj _ eq_refl). transitivity (hl p x); [reflexivity|]. by rewrite Ep, decide_False.
  - match goal with |- exists _ _, ?h = _ => change h with (hl p d) end. rewrite Ep, decide_True by done.
    destruct (count_const c (set_lst QL (const_node c d a :: lst QL (ahl s d)) (ahl s d))) as [n ->]. eexists _, n.
    cbn [domainsCount nondomainsCount reverseCount set_lst]. rewrite !Z.add_0_r, <- H1, <- H2, <- H3. reflexivity.
  - right. exists a. by rewrite hxof_set, decide_True.
  - done.
  - done.
  - done.
Qed.

Lemma wp_const c d (Q : Z -> app W -> Prop) R s :
  is_Some (hlist (aproc s)) -> counts_u32 (ahl s d) -> (forall h s1, const_step c d s s1 -> Q h s1) -> wp (get_const_handle c d) Q R s.
Proof.
  intros Hs Hc HQ. destruct (decide (cached_handle c (hxof s d) = 0)) as [E|E].
  - destruct (decide (calloc (aproc s) = 0)) as [Ea|Ea].
    + eapply wp_call; [by apply get_const_failed|]. rewrite set_aproc_id. by apply HQ, const_step_refl.
    + eapply wp_call; [by apply get_const_new|]. by apply HQ, const_step_new.
  - eapply wp_call; [by apply get_const_cached|]. by apply HQ, const_step_refl.
Qed.

(** ** Tear-down *)
Lemma set_hl_closed d f l p : set_hl d f (set_closed l p) = set_closed l (set_hl d f p).
Proof. done. Qed.

(** After the tear-down of an open session of [d]: its list of handles and its list of reverse
    handles are empty, the list of handles of no domain only for the default domain; it has no
    device, no reference and no cached handle but that of the performance module; its kind of
    process is that of start-up and its reservation is gone; its device is closed and its maps
    are gone. The counters of its handles and the flag for exit logs are not reset. The other
    domains are as they were. *)
Record session_down (d : Z) (s s' : app W) : Prop := {
  sd_lists : ql (ahl s' d) = [] /\ rql (ahl s' d) = [] /\ nql (ahl s' d) = if d =? DEFAULT_DOMAIN_ID then [] else nql (ahl s d);
  sd_state : state (ahl s' d) = FASTRPC_DOMAIN_STATE_CLEAN /\ ref (ahl s' d) = 0 /\ dev (ahl s' d) = -1;
  sd_hx : hxof s' d = Hx 0 0 0 0 (adspperfhandle (hxof s d)) (attach_guestos d) [] (-1) (disable_exit_logs (hxof s d)) false;
  sd_closed : closed (aproc s') = dev (ahl s d) :: closed (aproc s);
  sd_maps : smaps (rt_mem (ap_rt s')) d = [];
  sd_revdone : d ∉ rt_revdone (ap_rt s');
  sd_other x : x <> d -> ahl s' x = ahl s x /\ hxof s' x = hxof s x /\ smaps (rt_mem (ap_rt s')) x = smaps (rt_mem (ap_rt s)) x;
  sd_hlist : is_Some (hlist (aproc s'))
}.

Lemma deinit_down d (s : app W) :
  is_Some (hlist (aproc s)) -> dev (ahl s d) <> -1 -> IS_VALID_EFFECTIVE_DOMAIN_ID d = true -> counts_u32 (ahl s d) ->
  exists s', domain_deinit d s = (Go tt, s') /\ session_down d s s'.
Proof.
  intros Hs Hdev Hd Hc.
  enough (Hw : wp (domain_deinit d) (fun _ => session_down d s) (fun _ _ => False) s).
  { unfold wp in Hw. destruct (domain_deinit d s) as [[[]|] s'] eqn:E; [|done]. by exists s'. }
  unfold domain_deinit. app_run. destruct Hs as [hh Hh]. rewrite Hh. rewrite (proj2 (Z.eqb_neq _ _)) by done. app_run.
  apply wp_const; [by eexists|done|]. intros h s1 [C1 C2 C3 C4 C5 C6 C7 C8 C9]. cbn beta.
  apply wp_bind. eapply (wp_mono _ (fun _ t => exists w, t = set_world w s1) _ (fun _ _ => False)); [apply wp_if; intros _; apply wp_world; by eexists| |done].
  intros _ t [w ->]. unfold fastrpc_mem_close. rewrite Hd.
  set (g := fun h => if d =? DEFAULT_DOMAIN_ID then set_lst NQL [] h else h).
  set (F := fun h => set_state FASTRPC_DOMAIN_STATE_CLEAN (set_dev (-1) (set_ref 0 (set_state 0 (g (set_lst RQL [] (set_lst QL [] (set_state FASTRPC_DOMAIN_STATE_DEINIT h)))))))).
  enough (Hfin : forall t, aproc t = set_closed (dev (ahl s d) :: closed (aproc s1)) (set_hl d F (aproc s1)) ->
    (forall x, hxof t x = if decide (x = d) then set_reserved false (reset_hx d (hxof s1 d)) else hxof s1 x) ->
    rt_revdone (ap_rt t) = rt_revdone (ap_rt s1) ∖ {[ d ]} ->
    (forall x, smaps (rt_mem (ap_rt t)) x = if decide (x = d) then [] else smaps (rt_mem (ap_rt s1)) x) -> session_down d s t).
  { destruct s1 as [[[fl sm ml en fv ab [p w1]] dma wk rv oob et] hxm wl]. cbn in C1. unfold g in F.
    destruct (d =? DEFAULT_DOMAIN_ID) eqn:Edd.
    - app_run. repeat (eapply wp_table; [reflexivity|]; app_run). apply Hfin.
      + unfold aproc at 1. cbn -[set_hl]. unfold F. by rewrite !set_hl_closed, !set_hl_hl by (by repeat apply hlist_set).
      + intros x. set (s1 := App (Rt (Mem fl sm ml en fv ab (p, w1)) dma wk rv oob et) hxm wl).
        transitivity (hxof (set_hx d (set_reserved false) (set_hx d (reset_hx d) s1)) x); [done|]. rewrite hxof_set. destruct (decide (x = d)) as [->|Hne]; rewrite hxof_set; [by rewrite decide_True|by rewrite decide_False].
      + done.
      + intros x. change (smaps (set_smaps d [] (Mem fl sm ml en fv ab (p, w1))) x = if decide (x = d) then [] else smaps (Mem fl sm ml en fv ab (p, w1)) x). apply smaps_set.
    - app_run. repeat (eapply wp_table; [reflexivity|]; app_run). apply Hfin.
      + unfold aproc at 1. cbn -[set_hl]. unfold F. by rewrite !set_hl_closed, !set_hl_hl by (by repeat apply hlist_set).
      + intros x. set (s1 := App (Rt (Mem fl sm ml en fv ab (p, w1)) dma wk rv oob et) hxm wl).
        transitivity (hxof (set_hx d (set_reserved false) (set_hx d (reset_hx d) s1)) x); [done|]. rewrite hxof_set. destruct (decide (x = d)) as [->|Hne]; rewrite hxof_set; [by rewrite decide_True|by rewrite decide_False].
      + done.
      + intros x. change (smaps (set_smaps d [] (Mem fl sm ml en fv ab (p, w1))) x = if decide (x = d) then [] else smaps (Mem fl sm ml en fv ab (p, w1)) x). apply smaps_set.
  }
  intros t Ep Eh Er Em.
  assert (El : forall x, ahl t x = if decide (x = d) then F (ahl s1 d) else ahl s1 x).
  { intros x. unfold ahl at 1. rewrite Ep. change (hl (set_closed _ ?q) x) with (hl q x). by rewrite hl_set. }
  destruct C5 as (l & n & C5). split.
  - rewrite El, decide_True by done. unfold F, g. rewrite C5. by destruct (d =? DEFAULT_DOMAIN_ID).
  - rewrite El, decide_True by done. unfold F, g. by destruct (d =? DEFAULT_DOMAIN_ID).
  - rewrite Eh, decide_True by done. destruct C6 as [->|[h' ->]]; [done|]. by destruct (hxof s d).
  - rewrite Ep. cbn [closed set_closed]. by rewrite C2.
  - rewrite Em. by rewrite decide_True.
  - rewrite Er. intros [_ Hn]%elem_of_difference. by apply Hn, elem_of_singleton.
  - intros x Hx. rewrite El, Eh, Em, !decide_False by done. destruct (C4 x Hx) as [-> ->]. by rewrite C7.
  - rewrite Ep. by apply hlist_set.
Qed.

(** ** The device of a new session

    The kernel does not touch the handle table. *)
Section kernel.
Hypothesis kernel_frame : forall dv r k, (sys_ioctl dv r k).2.1 = k.1.

(** Everything but the world, [errno] and the fields named. *)
Record same_app (s s' : app W) : Prop := {
  sa_proc : aproc s' = aproc s;
  sa_hx : ap_hx s' = ap_hx s;
  sa_wl : ap_wl s' = ap_wl s;
  sa_maps : smaplst (rt_mem (ap_rt s')) = smaplst (rt_mem (ap_rt s));
  sa_revdone : rt_revdone (ap_rt s') = rt_revdone (ap_rt s)
}.
Lemma same_refl s : same_app s s.
Proof. done. Qed.
Lemma same_trans s1 s2 s3 : same_app s1 s2 -> same_app s2 s3 -> same_app s1 s3.
Proof. intros [] []. split; congruence. Qed.
Lemma same_hl s s' d : same_app s s' -> ahl s' d = ahl s d.
Proof. intros []. unfold ahl. congruence. Qed.
Lemma same_hxof s s' d : same_app s s' -> hxof s' d = hxof s d.
Proof. intros []. unfold hxof. congruence. Qed.

Lemma wp_ioctl (c : proc * W -> io * (proc * W)) (Q : io -> app W -> Prop) R s :
  (forall k, (c k).2.1 = k.1) -> (forall r s', same_app s s' -> Q r s') -> wp (on_mem_a (do_ioctl c)) Q R s.
Proof.
  intros Hc HQ. unfold on_mem_a. apply wp_on_rt, wp_on_mem. unfold wp, do_ioctl.
  specialize (Hc (mses (rt_mem (ap_rt s)))). destruct (c _) as [r k]. apply HQ. cbn in Hc.
  split; try done; destruct (io_ret r =? 0); done.
Qed.
Lemma init_frame dv flags attr shell len fd mlen sig k : (ioctl_init sys_ioctl dv flags attr shell len fd mlen sig k).2.1 = k.1.
Proof. unfold ioctl_init. repeat (destruct (_ =? _); [apply kernel_frame|]). done. Qed.

Lemma start_process_frame d dv pd name s :
  wp (start_process d dv pd name) (fun _ => same_app s) (fun e s' => e <> 0 /\ same_app s s') s.
Proof.
  unfold start_process. apply wp_if; intros _.
  { apply wp_bind, wp_VERIFYC; intros _; [|done]. destruct (if pd =? SECURE_STATICPD then _ else _). apply wp_bind.
    apply wp_ioctl; [apply init_frame|]. intros r s' Hs. app_run. apply wp_VERIFYC; by intros _. }
  apply wp_if; intros _.
  { apply wp_bind, wp_VERIFYC; intros _; [|done]. apply wp_bind. apply wp_ioctl; [apply init_frame|]. intros r s' Hs.
    app_run. apply wp_if; intros E; [done|]. split; [|done]. apply convert_nonzero. by apply Z.eqb_neq. }
  apply wp_if; intros _.
  { apply wp_bind. apply wp_ioctl; [apply init_frame|]. intros r s' Hs. app_run. apply wp_VERIFYC; by intros _. }
  apply wp_if; intros _; [|done]. destruct (user_pd d) as [e|u].
  { apply wp_bail. split; [|done]. destruct (Z.eqb_spec e 0); lia. }
  apply wp_bind. unfold on_mem_a at 1. apply wp_on_rt, wp_on_mem, wp_modify, wp_bind, wp_ioctl; [apply init_frame|]. intros r s' Hs. apply (same_trans s) in Hs; [|by destruct s as [[[]]]].
  app_run. apply wp_if; intros E; [done|]. split; [|done]. apply Z.eqb_neq in E. by destruct (_ =? ECONNREFUSED).
Qed.


Definition pd_ok (pd : Z) : bool := (DEFAULT_UNUSED <? pd) && (pd <? MAX_PD_TYPE).

(** The outcome [e] of bringing up the device: stored or closed. *)
Definition device_owned (d : Z) (s : app W) (e : Z) (s' : app W) : Prop :=
  is_Some (hlist (aproc s')) /\ (forall x, x <> d -> ahl s' x = ahl s x) /\
  if dev (ahl s d) =? -1 then
    if e =? 0 then (pd_ok (dsppd (hxof s d)) = true /\ 0 <= open_device_node d) /\ ahl s' d = set_dev (open_device_node d) (ahl s d) /\ closed (aproc s') = closed (aproc s)
    else ahl s' d = ahl s d /\
      closed (aproc s') = if pd_ok (dsppd (hxof s d)) && (0 <=? open_device_node d) then open_device_node d :: closed (aproc s) else closed (aproc s)
  else ahl s' d = ahl s d /\ closed (aproc s') = closed (aproc s).

(** The code after [bail:]. *)
Lemma remote_init_end d (s : app W) e l (s1 : app W) :
  (if 0 <=? l then device_owned d s e (set_aproc (set_closed (l :: closed (aproc s1)) (aproc s1)) s1) else device_owned d s e s1) ->
  wp (_ ← (if 0 <=? l then close_device_node l else mret tt); en ← errno_a;
    mret (if (e =? -1) && (en =? ECONNRESET) then AEE_ECONNRESET else e)) (device_owned d s) (fun _ _ => False) s1.
Proof.
  intros HP. apply wp_bind.
  assert (Hpe : forall en s2, device_owned d s e s2 -> device_owned d s (if (e =? -1) && (en =? ECONNRESET) then AEE_ECONNRESET else e) s2).
  { intros en s2. destruct (Z.eqb_spec e (-1)) as [->|]; [|done]. cbn [andb]. by destruct (en =? ECONNRESET). }
  destruct (0 <=? l).
  - eapply wp_table; [reflexivity|]. app_run. by apply Hpe.
  - app_run. by apply Hpe.
Qed.

(** A new device is stored or closed, never both and never neither: when the session
    has no device, [remote_init] succeeds with the opened device as the domain's and
    closes nothing, or fails with no device stored and the opened one, if any, closed
    exactly once; with a device there already it opens none. Nothing else of the handle
    table changes, on every path and for every answer of the kernel. *)
Lemma remote_init_owns_device d (s : app W) :
  is_Some (hlist (aproc s)) -> exists e s', remote_init d s = (Go e, s') /\ device_owned d s e s'.
Proof.
  intros Hs. enough (Hw : wp (remote_init d) (device_owned d s) (fun _ _ => False) s).
  { unfold wp in Hw. destruct (remote_init d s) as [[e|] s'] eqn:E; [|done]. by exists e, s'. }
  unfold remote_init. apply wp_bind.   eapply (wp_table _ _ _ _ tt (if tlsKey (aproc s) then set_tls (Some d) (aproc s) else aproc s)); [done|].
  set (s1 := set_aproc _ s). assert (Hl : forall x, ahl s1 x = ahl s x) by (intros x; unfold s1; by destruct (tlsKey (aproc s))).
  assert (Hc : closed (aproc s1) = closed (aproc s)) by (unfold s1; by destruct (tlsKey (aproc s))).
  assert (Hs1 : is_Some (hlist (aproc s1))) by (unfold s1; by destruct (tlsKey (aproc s))).
  assert (Hx : hxof s1 d = hxof s d) by done. clearbody s1.
  apply wp_bind, wp_gets, wp_bind, wp_with_locals. 
  rewrite Hx. fold (pd_ok (dsppd (hxof s d))). apply wp_bind, wp_VERIFYC; intros Hpd.
  2: { apply remote_init_end. split; [done|]. split; [by intros|]. rewrite Hpd. destruct (dev (ahl s d) =? -1); done. }
  apply wp_bind, wp_lift, wp_gets. rewrite Hl. apply wp_if; intros Hdv.
  { apply wp_ret, remote_init_end. split; [done|]. split; [by intros|]. apply negb_true_iff in Hdv. rewrite Hdv. done. }
  apply negb_false_iff in Hdv. app_run. apply wp_VERIFYC; intros Ho.
  2: { apply remote_init_end. cbn [snd]. rewrite Ho. split; [done|]. split; [by intros|]. rewrite Hdv, Hpd, Ho. done. }
  app_run.
  assert (Hfail : forall e s2, e <> 0 -> same_app (set_hx d (set_info 1) s1) s2 -> device_owned d s e (set_aproc (set_closed (open_device_node d :: closed (aproc s2)) (aproc s2)) s2)).
  { intros e s2 He Hs2. assert (E : forall x, ahl (set_aproc (set_closed (open_device_node d :: closed (aproc s2)) (aproc s2)) s2) x = ahl s x).
    { intros x. rewrite <- Hl. transitivity (ahl s2 x); [done|]. by rewrite (same_hl _ _ _ Hs2). }
    split; [change (is_Some (hlist (aproc s2))); by rewrite (sa_proc _ _ Hs2)|]. split; [by intros|]. rewrite Hdv, (proj2 (Z.eqb_neq e 0) He), Hpd, Ho. split; [done|]. cbn. f_equal.
    rewrite (sa_proc _ _ Hs2). done. }
  assert (Hsetmode : wp (if IS_EXTENDED_DOMAIN_ID d then VERIFY (ioctl_setmode (open_device_node d) FASTRPC_SESSION_ID1) (ioctl_setmode (open_device_node d) FASTRPC_SESSION_ID1 =? AEE_SUCCESS) else mret tt)
    (fun _ t => t = (set_hx d (set_info 1) s1, open_device_node d)) (fun _ _ => False) (set_hx d (set_info 1) s1, open_device_node d)).
  { by destruct (IS_EXTENDED_DOMAIN_ID d). }
  eapply wp_mono; [exact Hsetmode| |done]. intros _ t ->. apply wp_bind, wp_lift.
  eapply wp_mono; [apply start_process_frame| |].
  - intros [] s2 Hs2. apply wp_bind, wp_lift, wp_upd_hl, wp_bind, wp_setl, wp_lift, wp_upd_hx, remote_init_end. cbn [snd]. change (0 <=? -1) with false.
    assert (E : forall x, ahl (set_hx d (set_exit_logs 0) (set_aproc (set_hl d (set_dev (open_device_node d)) (aproc s2)) s2)) x =
      if decide (x = d) then set_dev (open_device_node d) (ahl s d) else ahl s x).
    { intros x. transitivity (hl (set_hl d (set_dev (open_device_node d)) (aproc s1)) x).
      - assert (Ep : aproc s2 = aproc s1) by exact (sa_proc _ _ Hs2). by rewrite <- Ep.
      - rewrite hl_set by done. rewrite <- !Hl. done. }
    split.
    { change (is_Some (hlist (set_hl d (set_dev (open_device_node d)) (aproc s2)))). apply hlist_set. by rewrite (sa_proc _ _ Hs2). }
    split; [intros x Hne; by rewrite E, decide_False|]. rewrite Hdv. cbn [AEE_SUCCESS Z.eqb]. rewrite E, decide_True by done.
    split; [split; [done|by apply Z.leb_le]|]. split; [done|]. cbn. rewrite (sa_proc _ _ Hs2). done.
  - intros e s2 [He Hs2]. apply remote_init_end. cbn [snd]. rewrite Ho. by apply Hfail.
Qed.
End kernel.

(** ** A new session *)

(** Properties of the handle table that taking and giving back references keep, and the
    computations that keep them. *)
Definition ref_stable (J : proc -> Prop) : Prop :=
  forall p d, J p -> J (fastrpc_session_get d p).2 /\ J (fastrpc_session_put d p).2 /\ forall w, J (init_once (W := W) (p, w)).2.1.
Definition keeps {S A} `{HasSession S (proc * W)} (J : proc -> Prop) (m : M S A) : Prop := preserves (fun s => J (ses s).1) m.

Section keeps.
Context (J : proc -> Prop) (HJ : ref_stable J) {S : Type} `{HS : HasSession S (proc * W)}.
Implicit Types (A B : Type).

Lemma keeps_ret {A} (a : A) : keeps J (mret a : M S A).
Proof. by intros s. Qed.
Lemma keeps_bail {A} e : keeps J (bail e : M S A).
Proof. by intros s. Qed.
Lemma keeps_gets {A} (f : S -> A) : keeps J (gets f).
Proof. by intros s. Qed.
Lemma keeps_bind {A B} (m : M S A) (f : A -> M S B) : keeps J m -> (forall a, keeps J (f a)) -> keeps J (m ≫= f).
Proof. apply preserves_bind. Qed.
Lemma keeps_if {A} (c : bool) (m m' : M S A) : keeps J m -> keeps J m' -> keeps J (if c then m else m').
Proof. by destruct c. Qed.
Lemma keeps_VERIFYC b e : keeps J (VERIFYC b e : M S unit).
Proof. intros s. by destruct b. Qed.
Lemma keeps_VERIFY n b : keeps J (VERIFY n b : M S unit).
Proof. intros s. by destruct b. Qed.
Lemma keeps_VERIFY_CALL (m : M S Z) : keeps J m -> keeps J (VERIFY_CALL m).
Proof. apply preserves_VERIFY_CALL. Qed.
Lemma keeps_to_bail (m : M S unit) : keeps J m -> keeps J (to_bail m).
Proof. apply preserves_to_bail. Qed.
Lemma keeps_modify (f : S -> S) : (forall s, ses (f s) = ses s) -> keeps J (modify f).
Proof. intros Hf s Hs. cbn. by rewrite Hf. Qed.
Lemma keeps_lift {L A} (m : M S A) : keeps J m -> keeps (S := S * L) J (lift m).
Proof. intros Hm [s l] Hs. specialize (Hm s Hs). unfold lift. cbn in *. by destruct (m s). Qed.
Lemma keeps_getl {L A} (f : L -> A) : keeps (S := S * L) J (getl f).
Proof. by intros []. Qed.
Lemma keeps_setl {L} (f : L -> L) : keeps (S := S * L) J (setl f).
Proof. by intros []. Qed.
Lemma keeps_with_locals {L} (l0 : L) (b : M (S * L) unit) : keeps J b -> keeps J (with_locals l0 b).
Proof. intros Hb s Hs. specialize (Hb (s, l0) Hs). unfold with_locals. by destruct (b (s, l0)) as [[|] []]. Qed.
Lemma keeps_on_ses {A} (m : M (proc * W) A) : (forall k, J k.1 -> J (m k).2.1) -> keeps J (on_ses m : M S A).
Proof. intros Hm s Hs. unfold on_ses. specialize (Hm (ses s) Hs). destruct (m (ses s)) as [r k]. cbn in *. by rewrite ses_set. Qed.
Lemma keeps_get d : keeps J (on_ses (session_get d) : M S Z).
Proof. apply keeps_on_ses. intros [p w] Hp. destruct (HJ p d Hp) as (Hg & _). change (session_get d) with (on_proc (W := W) (fastrpc_session_get d)). unfold on_proc. cbn in *. by destruct (fastrpc_session_get d p). Qed.
Lemma keeps_put d : keeps J (on_ses (session_put d) : M S Z).
Proof. apply keeps_on_ses. intros [p w] Hp. destruct (HJ p d Hp) as (_ & Hg & _). change (session_put d) with (on_proc (W := W) (fastrpc_session_put d)). unfold on_proc. cbn in *. by destruct (fastrpc_session_put d p). Qed.
Lemma keeps_init : keeps J (on_ses fastrpc_init_once : M S Z).
Proof. apply keeps_on_ses. intros [p w] Hp. destruct (HJ p 0 Hp) as (_ & _ & Hg). exact (Hg w). Qed.
Lemma keeps_bracket {A B} d (fail : Z -> M S B) (body : M S A) (post : A -> M S B) :
  (forall e, keeps J (fail e)) -> keeps J body -> (forall a, keeps J (post a)) -> keeps J (bracket d fail body post).
Proof.
  intros Hf Hb Hp. unfold bracket. apply keeps_bind; [apply keeps_get|]. intros e. apply keeps_if; [apply Hf|].
  apply keeps_bind; [done|]. intros a. apply keeps_bind; [apply keeps_put|done].
Qed.
End keeps.

Ltac keep :=
  repeat lazymatch goal with
  | |- forall _, _ => intro
  | |- keeps _ (mbind _ _) => apply keeps_bind
  | |- keeps _ (if _ then _ else _) => apply keeps_if
  | |- keeps _ (match ?x with _ => _ end) => destruct x
  | |- keeps _ (mret _) => apply keeps_ret
  | |- keeps _ (bail _) => apply keeps_bail
  | |- keeps _ (gets _) => apply keeps_gets
  | |- keeps _ (VERIFYC _ _) => apply keeps_VERIFYC
  | |- keeps _ (VERIFY _ _) => apply keeps_VERIFY
  | |- keeps _ (VERIFY_CALL _) => apply keeps_VERIFY_CALL
  | |- keeps _ (to_bail _) => apply keeps_to_bail
  | |- keeps _ (lift _) => apply keeps_lift
  | |- keeps _ (getl _) => apply keeps_getl
  | |- keeps _ (setl _) => apply keeps_setl
  | |- keeps _ (with_locals _ _) => apply keeps_with_locals
  | |- keeps _ (bracket _ _ _ _) => apply keeps_bracket
  | |- keeps _ (modify _) => apply keeps_modify; intros; reflexivity
  | |- keeps _ (on_ses fastrpc_init_once) => apply keeps_init
  end; try done.

Section new_session.
Hypothesis kernel_frame : forall dv r k, (sys_ioctl dv r k).2.1 = k.1.
Context (J : proc -> Prop) (HJ : ref_stable J).

Lemma keeps_do_ioctl c : (forall k, (c k).2.1 = k.1) -> keeps J (do_ioctl c).
Proof.
  intros Hc s Hs. unfold do_ioctl. specialize (Hc (mses s)). destruct (c (mses s)) as [r k]. cbn in *. rewrite Hc.
  by destruct (io_ret r =? 0).
Qed.
Lemma keeps_mmap d fd va off len flags : keeps J (fastrpc_mmap sys_ioctl d fd va off len flags).
Proof.
  unfold fastrpc_mmap, fastrpc_mmap_helper, init, pick_domain, get_dev, do_mmap. keep.
  apply keeps_do_ioctl. intros k. unfold ioctl_mmap. destruct (_ =? MEM_MAP); [apply kernel_frame|].
  destruct (_ || _); [apply kernel_frame|done].
Qed.
Lemma keeps_mem_open d : keeps J (fastrpc_mem_open sys_ioctl d).
Proof.
  unfold fastrpc_mem_open. keep. generalize (@nil mem_to_fd). induction a as [|t l IH]; intros done; cbn [mem_open_loop]; keep.
  apply keeps_mmap.
Qed.
End new_session.

(** A session that is coming up: its device, nothing closed, no non-domain and no reverse
    handles. *)
Definition coming_up (C : list Z) (d dv : Z) (p : proc) : Prop :=
  is_Some (hlist p) /\ closed p = C /\ dev (hl p d) = dv /\ counts_u32 (hl p d) /\ nql (hl p d) = [] /\ rql (hl p d) = [].

Lemma coming_up_set C d dv x f p :
  (forall h, dev (f h) = dev h /\ (counts_u32 h -> counts_u32 (f h)) /\ nql (f h) = nql h /\ rql (f h) = rql h) ->
  coming_up C d dv p -> coming_up C d dv (set_hl x f p).
Proof.
  intros Hf (Hs & Hc & Hd & Hu & Hn & Hr). split; [by apply hlist_set|]. split; [done|].
  rewrite hl_set by done. destruct (decide (d = x)) as [<-|]; [|done]. destruct (Hf (hl p d)) as (-> & Hu' & -> & ->). auto.
Qed.
Lemma coming_up_stable C d dv : ref_stable (coming_up C d dv).
Proof.
  intros p x Hp. pose proof Hp as (Hs & Hc & Hd & Hu & Hn & Hr).
  split; [|split].
  - destruct (decide (state (hl p x) = FASTRPC_DOMAIN_STATE_DEINIT)) as [E|E].
    + destruct Hs as [h Hh]. unfold fastrpc_session_get. munfold. rewrite Hh. by rewrite (proj2 (Z.eqb_eq _ _) E).
    + rewrite session_get_ok by done. cbn [snd]. assert (Hp' : coming_up C d dv (set_hl x (fun h => set_ref (u32 (ref h + 1)) h) p)) by by apply coming_up_set.
      by destruct (tlsKey p).
  - rewrite session_put_ok by done. cbn [snd]. destruct (0 <? ref (hl p x)); [by apply coming_up_set|done].
  - intros w. unfold init_once, on_proc. destruct Hs as [h Hh]. munfold. cbn. by rewrite Hh.
Qed.

Lemma domain_deinit_closed d (s : app W) : is_Some (hlist (aproc s)) -> dev (ahl s d) = -1 ->
  domain_deinit d s = (Go tt, set_aproc (set_hl d (set_state FASTRPC_DOMAIN_STATE_CLEAN) (aproc s)) (set_hx d (set_reserved false) s)).
Proof.
  intros [h Hh] Hd. unfold ahl in Hd. apply wp_result. unfold domain_deinit. app_run. rewrite Hh. rewrite (proj2 (Z.eqb_eq _ _) Hd). app_run. cbn iota. app_run. done.
Qed.

Lemma const_step_up C d dv c s s1 : const_step c d s s1 -> coming_up C d dv (aproc s) -> coming_up C d dv (aproc s1).
Proof.
  intros [C1 C2 C3 C4 (l & n & C5) C6 C7 C8 C9] (Hs & Hc & Hd & Hu & Hn & Hr). unfold ahl in *. unfold coming_up.
  rewrite C5. split; [done|]. split; [congruence|]. done.
Qed.

Section init_body.
Context (d : Z) (s : app W) (Hk : forall dv r k, (sys_ioctl dv r k).2.1 = k.1).
Context (Hs : is_Some (hlist (aproc s))) (Hdv : dev (ahl s d) = -1) (Hu : counts_u32 (ahl s d)).
Let dv := open_device_node d.
Let C := closed (aproc s).

Definition init_done (s2 : app W) : Prop :=
  coming_up C d dv (aproc s2) /\ 0 <= dv /\ state (ahl s2 d) = FASTRPC_DOMAIN_STATE_INIT /\ ref (ahl s2 d) = 0.
Definition init_failed (e : Z) (s2 : app W) : Prop :=
  e <> 0 /\
  (coming_up C d dv (aproc s2) /\ 0 <= dv /\ pd_ok (dsppd (hxof s d)) = true \/
   is_Some (hlist (aproc s2)) /\ dev (ahl s2 d) = -1 /\ (ql (ahl s2 d) = [] /\ nql (ahl s2 d) = [] /\ rql (ahl s2 d) = []) /\
   closed (aproc s2) = if pd_ok (dsppd (hxof s d)) && (0 <=? dv) then dv :: C else C).

Lemma wp_up (m : M (app W) Z) (Q : unit -> app W -> Prop) (R : Z -> app W -> Prop) (s1 : app W) :
  Total m -> keeps (coming_up C d dv) m -> coming_up C d dv (aproc s1) ->
  (forall s2, coming_up C d dv (aproc s2) -> Q tt s2) -> (forall e s2, e <> 0 -> coming_up C d dv (aproc s2) -> R e s2) ->
  wp (VERIFY_CALL m) Q R s1.
Proof.
  intros Ht Hm Hj HQ HR. apply wp_VERIFY_CALL. destruct (Ht s1) as (a & s2 & E). specialize (Hm s1 Hj).
  rewrite E in Hm. eapply wp_call; [exact E|]. split; intros; [by apply HQ|by apply HR].
Qed.
Lemma total_mem_open x : Total (on_mem_a (fastrpc_mem_open sys_ioctl x)).
Proof.
  assert (Hl : forall l a, Total (mem_open_loop (K := proc * W) sys_ioctl x l a)).
  { induction l as [|t l IH]; intros a; cbn [mem_open_loop]; [apply _|].
    apply Total_if; [apply Total_bind; [apply Total_to_bail|]; intros; apply IH|apply IH]. }
  assert (Hm : Total (fastrpc_mem_open (K := proc * W) sys_ioctl x)).
  { unfold fastrpc_mem_open. apply Total_if; [|apply _]. apply Total_bind; [apply _|]. intros. apply Total_bind; [apply Hl|].
    intros. apply Total_bind; apply _. }
  intros s1. destruct (Hm (rt_mem (ap_rt s1))) as (a & k & E). unfold on_mem_a, on_rt, on_mem. rewrite E. by eexists _, _.
Qed.
Lemma total_wakelock x : Total (update_kernel_wakelock_status x).
Proof.
  intros s1. unfold update_kernel_wakelock_status, on_rt, on_wake, fastrpc_wake_lock_deinit. munfold. cbn.
  destruct (negb _); [by eexists _, _|].
  match goal with |- context [fastrpc_wake_lock_release ?z ?w] => destruct (total (m := fastrpc_wake_lock_release z) w) as (u & w1 & ->) end.
  by eexists _, _.
Qed.
Lemma keeps_wakelock J x : keeps J (update_kernel_wakelock_status x).
Proof.
  intros s1 H1. unfold update_kernel_wakelock_status, on_rt, on_wake. munfold. cbn in *.
  by destruct (fastrpc_wake_lock_deinit _ _ _ _) as [[]].
Qed.

Lemma keeps_on_rt_mem {A} J (m : M (mem (proc * W)) A) : keeps J m -> keeps J (on_mem_a m).
Proof.
  intros Hm s1 H1. specialize (Hm (rt_mem (ap_rt s1)) H1). unfold on_mem_a, on_rt, on_mem. by destruct (m _).
Qed.
Lemma wp_const_up c (Q : Z -> app W -> Prop) R s1 :
  coming_up C d dv (aproc s1) -> (forall h s2, coming_up C d dv (aproc s2) -> Q h s2) -> wp (get_const_handle c d) Q R s1.
Proof.
  intros HJ HQ. pose proof HJ as (Hs1 & _ & _ & Hu1 & _). apply wp_const; [done..|]. intros h s2 Hst. apply HQ.
  by eapply const_step_up.
Qed.

Lemma init_body_outcome :
  wp (domain_init_body d) (fun _ => init_done) init_failed s.
Proof.
  unfold domain_init_body. app_run.
  set (s1 := set_hx d (set_reserved true) _).
  assert (Hl1 : ahl s1 d = set_lst RQL [] (set_lst NQL [] (set_lst QL [] (ahl s d)))).
  { transitivity (hl (set_hl d (fun h => set_lst RQL [] (set_lst NQL [] (set_lst QL [] h))) (aproc s)) d); [done|by rewrite hl_set_same]. }
  assert (Hs1 : is_Some (hlist (aproc s1))) by (change (is_Some (hlist (set_hl d (fun h => set_lst RQL [] (set_lst NQL [] (set_lst QL [] h))) (aproc s)))); by apply hlist_set).
  assert (Hx1 : dsppd (hxof s1 d) = dsppd (hxof s d)).
  { unfold s1. rewrite hxof_set, decide_True by done. done. }
  assert (Hc1 : closed (aproc s1) = C) by done. clearbody s1.
  destruct (remote_init_owns_device Hk d s1 Hs1) as (e & s2 & E & Hs2 & _ & Hown). eapply wp_call; [exact E|].
  rewrite Hl1, Hx1, Hc1 in Hown. replace (dev _) with (-1) in Hown by (by destruct (ahl s d)). cbn [Z.eqb Pos.eqb] in Hown.
  split; intros He.
  2: { rewrite (proj2 (Z.eqb_neq e 0) He) in Hown. destruct Hown as [Ha Hc]. split; [done|]. right. rewrite Ha.
       split; [done|]. by destruct (ahl s d). }
  subst e. cbn [Z.eqb] in Hown. destruct Hown as ([Hpd Hdv0] & Ha & Hc).
  assert (HJ : coming_up C d dv (aproc s2)).
  { pose proof Hu as Hu'. unfold ahl in Ha, Hu'. split; [done|]. split; [done|]. rewrite Ha.
    clear -Hu'. destruct (hl (aproc s) d). by split_and!. }
  assert (Hbail : forall e t, e <> 0 -> coming_up C d dv (aproc t) -> init_failed e t) by (intros ????; split; auto).
  clearbody C. clear Ha Hc Hs2 E s1 Hl1 Hs1 Hx1 Hc1.
  apply wp_bind, wp_gets, wp_bind.
  eapply (wp_mono _ (fun _ t => coming_up C d dv (aproc t)) _ init_failed); [|clear s2 HJ; intros [] s2 HJ|done].
  { apply wp_if; intros _; [|done]. apply wp_up; [apply total_wakelock|apply keeps_wakelock|done..]. }
  apply wp_bind, wp_up; [apply total_mem_open| |done| |done].
  { apply keeps_on_rt_mem, keeps_mem_open; [done|apply coming_up_stable]. }
  clear s2 HJ. intros s2 HJ. apply wp_bind, wp_VERIFY; intros Ea; [|apply Hbail; [by destruct (Z.eqb_spec (apps_mem_init d) 0)|done]].
  apply wp_bind. eapply (wp_mono _ (fun _ t => coming_up C d dv (aproc t)) _ init_failed); [|clear s2 HJ; intros [] s2 HJ|done].
  { apply wp_if; intros _; [|done]. by apply wp_bind, wp_const_up. }
  apply wp_bind. eapply (wp_mono _ (fun _ t => coming_up C d dv (aproc t)) _ init_failed); [|clear s2 HJ; intros [] s2 HJ|done].
  { apply wp_if; intros _; [|done]. apply wp_bind, wp_const_up; [done|]. intros h t Ht. apply wp_VERIFYC; intros En; [done|].
    apply Hbail; [|done]. intros En'. by rewrite En' in En. }
  apply wp_bind, wp_upd_hl. set (s3 := set_aproc _ s2).
  assert (Hl3 : ahl s3 d = set_ref 0 (set_state FASTRPC_DOMAIN_STATE_INIT (ahl s2 d))).
  { destruct HJ as [? _]. transitivity (hl (set_hl d (fun h => set_ref 0 (set_state FASTRPC_DOMAIN_STATE_INIT h)) (aproc s2)) d); [done|by rewrite hl_set_same]. }
  assert (HJ3 : coming_up C d dv (aproc s3)).
  { by apply (coming_up_set C d dv d (fun h => set_ref 0 (set_state FASTRPC_DOMAIN_STATE_INIT h)) (aproc s2)). }
  clearbody s3. apply wp_bind, wp_VERIFY; intros El; [|apply Hbail; [by destruct (Z.eqb_spec (listener_android_domain_init d) 0)|done]].
  apply wp_bind, wp_gets, wp_if; intros _; [|apply wp_ret; unfold init_done; rewrite Hl3; by split_and!].
  apply wp_bind. destruct HJ3 as (Hs3 & HJ3). apply wp_const; [done|apply HJ3|]. intros h s4 Hst4.
  apply wp_ret. pose proof (const_step_up C d dv _ _ _ Hst4 (conj Hs3 HJ3)) as HJ4.
  destruct Hst4 as [_ _ _ _ (l4 & n4 & E4) _ _ _ _]. unfold init_done. rewrite E4, Hl3. by split_and!.
Qed.
End init_body.
(** C18: Bringing a session up is all or nothing: on a clean domain [domain_init] ends either
    with the opened device as the domain's, in the INIT state, with no reference (whatever
    references were taken before), or with an error, the domain clean again, no device,
    no handles, and the device that was opened, if any, closed exactly once; for every
    kernel and every result of the other components. *)
Theorem domain_init_outcome d (s : app W) :
  (forall dv r k, (sys_ioctl dv r k).2.1 = k.1) ->
  is_Some (hlist (aproc s)) -> IS_VALID_EFFECTIVE_DOMAIN_ID d = true ->
  state (ahl s d) = FASTRPC_DOMAIN_STATE_CLEAN -> dev (ahl s d) = -1 -> counts_u32 (ahl s d) ->
  exists e dv s', domain_init d s = (Go (e, dv), s') /\
  if e =? 0 then
    dv = open_device_node d /\ dev (ahl s' d) = dv /\ 0 <= dv /\ state (ahl s' d) = FASTRPC_DOMAIN_STATE_INIT /\
    ref (ahl s' d) = 0 /\ closed (aproc s') = closed (aproc s)
  else
    dv = -1 /\ dev (ahl s' d) = -1 /\ state (ahl s' d) = FASTRPC_DOMAIN_STATE_CLEAN /\
    (ql (ahl s' d) = [] /\ nql (ahl s' d) = [] /\ rql (ahl s' d) = []) /\
    closed (aproc s') = if pd_ok (dsppd (hxof s d)) && (0 <=? open_device_node d) then open_device_node d :: closed (aproc s) else closed (aproc s).
Proof.
  intros Hk Hs Hd Hst Hdv Hu. pose proof (init_body_outcome d s Hk Hs Hdv Hu) as Hw.
  assert (E : domain_init d s = (nErr ← to_bail (domain_init_body d);
    if negb (nErr =? AEE_SUCCESS) then (_ ← domain_deinit d; mret (nErr, -1))
    else (h ← gets (fun s => ahl s d); mret (nErr, dev h))) s).
  { unfold domain_init. unfold mbind at 1, M_bind at 1. cbn [gets]. unfold gets at 1. by rewrite Hst. }
  rewrite E. clear E. unfold to_bail. unfold wp in Hw. munfold.
  destruct (domain_init_body d s) as [[[]|e] s2].
  - destruct Hw as ((Hs2 & Hc2 & Hd2 & _) & H0 & Hst2 & Hr2). cbn [AEE_SUCCESS Z.eqb negb]. cbn iota.
    unfold ahl in *. exists 0, (dev (hl (aproc s2) d)), s2. split; [done|]. cbn [Z.eqb]. rewrite Hd2. by split_and!.
  - destruct Hw as [He Hw]. unfold AEE_SUCCESS. rewrite (proj2 (Z.eqb_neq e 0) He). cbn [negb].
    destruct Hw as [((Hs2 & Hc2 & Hd2 & Hu2 & Hn2 & Hr2) & H0 & Hpd)|(Hs2 & Hd2 & Hl2 & Hc2)].
    + destruct (deinit_down d s2) as (s3 & E3 & [(Hq & Hr & Hn) (Hst3 & Hr3 & Hd3) _ Hc3 _ _ _ _]); [done|unfold ahl; lia|done..|].
      exists e, (-1), s3. rewrite E3. split; [done|]. rewrite (proj2 (Z.eqb_neq e 0) He), Hpd, (proj2 (Z.leb_le 0 _) H0). split_and!; try done.
      * rewrite Hn. destruct (d =? DEFAULT_DOMAIN_ID); done.
      * rewrite Hc3. unfold ahl. by rewrite Hd2, Hc2.
    + rewrite domain_deinit_closed by done. eexists e, (-1), _. split; [done|]. rewrite (proj2 (Z.eqb_neq e 0) He).
      assert (El : ahl (set_aproc (set_hl d (set_state FASTRPC_DOMAIN_STATE_CLEAN) (aproc s2)) (set_hx d (set_reserved false) s2)) d = set_state FASTRPC_DOMAIN_STATE_CLEAN (ahl s2 d)).
      { by apply hl_set_same. }
      rewrite El. destruct Hl2 as (?&?&?). split_and!; [done|exact Hd2|done|done..|exact Hc2].
Qed.

(** C19: Tearing a session down is total and can be repeated. A domain with a device has it
    closed once and is left without device, references and maps, with empty lists of handles
    and reverse handles and without cached handles ([session_down]); kept are the list of
    handles of no domain unless it is the default domain, the cached handle of the performance
    module, the counters of the handles and the flag for exit logs. A domain without a device
    only has its state and its reservation reset. The second call changes nothing and closes
    nothing. *)
Theorem domain_deinit_resets d (s : app W) :
  is_Some (hlist (aproc s)) -> IS_VALID_EFFECTIVE_DOMAIN_ID d = true -> counts_u32 (ahl s d) ->
  exists s' s'', domain_deinit d s = (Go tt, s') /\
  (if dev (ahl s d) =? -1 then
     s' = set_aproc (set_hl d (set_state FASTRPC_DOMAIN_STATE_CLEAN) (aproc s)) (set_hx d (set_reserved false) s)
   else session_down d s s') /\
  domain_deinit d s' = (Go tt, s'') /\ (forall x, ahl s'' x = ahl s' x /\ hxof s'' x = hxof s' x) /\
  closed (aproc s'') = closed (aproc s') /\ world s'' = world s'.
Proof.
  intros Hs Hd Hu.
  assert (Hagain : forall t, is_Some (hlist (aproc t)) -> dev (ahl t d) = -1 -> state (ahl t d) = FASTRPC_DOMAIN_STATE_CLEAN ->
    is_session_reserved (hxof t d) = false ->
    exists t', domain_deinit d t = (Go tt, t') /\ (forall x, ahl t' x = ahl t x /\ hxof t' x = hxof t x) /\
    closed (aproc t') = closed (aproc t) /\ world t' = world t).
  { intros t Ht Hdv Hst Hrs. rewrite domain_deinit_closed by done. eexists. split; [done|]. split; [|done]. intros x. split.
    - transitivity (hl (set_hl d (set_state FASTRPC_DOMAIN_STATE_CLEAN) (aproc t)) x); [done|]. rewrite hl_set by done.
      destruct (decide (x = d)) as [->|]; [|done]. rewrite <- Hst. unfold ahl. by destruct (hl (aproc t) d).
    - transitivity (hxof (set_hx d (set_reserved false) t) x); [done|]. rewrite hxof_set.
      destruct (decide (x = d)) as [->|]; [|done]. rewrite <- Hrs. by destruct (hxof t d). }
  destruct (Z.eqb_spec (dev (ahl s d)) (-1)) as [Hdv|Hdv].
  - set (s' := set_aproc (set_hl d (set_state FASTRPC_DOMAIN_STATE_CLEAN) (aproc s)) (set_hx d (set_reserved false) s)).
    assert (El : ahl s' d = set_state FASTRPC_DOMAIN_STATE_CLEAN (ahl s d)) by (by apply hl_set_same).
    destruct (Hagain s') as (s'' & E & Hx); [by apply (hlist_set d _ (aproc s))|by rewrite El|by rewrite El| |].
    { transitivity (is_session_reserved (hxof (set_hx d (set_reserved false) s) d)); [done|]. by rewrite hxof_set, decide_True. }
    exists s', s''. split; [by apply domain_deinit_closed|]. split; [done|]. by split.
  - destruct (deinit_down d s) as (s' & E & D); [done..|]. pose proof D as [_ (Hst & _ & Hdv') Hx _ _ _ _ _].
    destruct (Hagain s') as (s'' & E2 & Hx2); [apply D|done|done|by rewrite Hx|by exists s', s''].
Qed.
(** ** Opening and closing a handle *)
Lemma table_id (s : app W) (m : M proc unit) : m (aproc s) = (Go tt, aproc s) -> on_table m s = (Go tt, s).
Proof. intros E. rewrite (on_table_eq m s tt (aproc s) E). by rewrite set_aproc_id. Qed.

Lemma init_eq (s : app W) : is_Some (hlist (aproc s)) -> pl_err = 0 -> on_ses fastrpc_init_once s = (Go 0, s).
Proof.
  intros [x Hx] Hp. unfold on_ses. change fastrpc_init_once with (init_once (W := W)). unfold init_once, on_proc. munfold.
  unfold aproc, rt_proc in Hx. cbn. rewrite Hx, Hp. destruct s as [[[? ? ? ? ? ? [p w]] ? ? ? ?] ? ?]. done.
Qed.
Lemma get_eq d (s : app W) p : fastrpc_session_get d (aproc s) = (Go 0, p) -> on_ses (session_get d) s = (Go 0, set_aproc p s).
Proof. apply on_table_eq. Qed.
Lemma world_eq {A} (f : W -> A * W) (s : app W) a w : f (world s) = (a, w) -> on_world f s = (Go a, set_world w s).
Proof. intros E. unfold on_world, on_ses. unfold world in E. cbn. by rewrite E. Qed.

Section one_handle.
Context (d : Z) (name : list Z) (a h rc : Z) (w' : W).
Context (Hd : get_domain_from_name (Some name) DOMAIN_NAME_IN_URI = d) (Hv : IS_VALID_EFFECTIVE_DOMAIN_ID d = true).
Context (Hreq : is_request "geteventfd" name = false /\ is_request "attachguestos" name = false /\
  is_request "attachuserpd" name = false /\ is_request "createstaticpd" name = false).

(** The call to the DSP. *)
Lemma open_domain_up (s : app W) :
  state (ahl s d) <> FASTRPC_DOMAIN_STATE_CLEAN -> dev (ahl s d) <> -1 ->
  cached_handle REMOTECTL (hxof s d) = rc -> rc <> 0 -> rc <> INVALID_HANDLE ->
  remotectl1_open1 rc name (world s) = (0, Some h, 0, w') ->
  remote_handle_open_domain d name (Some 0) s = (Go (AEE_SUCCESS, Some h), set_world w' s).
Proof.
  intros Hst Hdev Hrc Hrc0 Hrc1 Hopen. destruct Hreq as (R1 & R2 & R3 & R4). apply wp_result.
  unfold remote_handle_open_domain. rewrite R1, R2, R3, R4. apply wp_bind, wp_with_locals.
  apply wp_bind, wp_lift. eapply wp_call.
  { unfold domain_init. munfold. rewrite (proj2 (Z.eqb_neq (state (ahl s d)) _) Hst). reflexivity. }
  cbn beta iota. apply wp_bind, wp_VERIFY; intros Hx; [|done]. clear Hx. apply wp_bind, wp_VERIFYC; intros Hx.
  2: { apply negb_false_iff, Z.eqb_eq in Hx. done. }
  unfold open_remote. apply wp_bind, wp_lift. eapply wp_call; [apply get_const_cached; cbn in *; congruence|].
  rewrite Hrc, (proj2 (Z.eqb_neq rc _) Hrc1). cbn [negb]. apply wp_bind, wp_bind, wp_lift. eapply wp_call; [by apply world_eq|].
  cbn beta iota. apply wp_bind. cbn [store_ph]. apply wp_setl. cbn [AEE_SUCCESS Z.eqb]. apply wp_ret, wp_VERIFY; intros Hy; [|done].
  cbn [fst snd]. app_run. cbn [AEE_SUCCESS AEE_ECONNRESET Z.eqb andb]. app_run. done.
Qed.

(** C20: Opening a handle on a session that is up: one call to the DSP with the name, one
    reference and one handle more on the domain; the local handle is valid and leads
    back to the domain and to the handle the DSP gave. *)
Theorem open_handle (s : app W) :
  is_Some (hlist (aproc s)) -> pl_err = 0 -> state (ahl s d) = FASTRPC_DOMAIN_STATE_INIT -> dev (ahl s d) <> -1 ->
  cached_handle REMOTECTL (hxof s d) = rc -> rc <> 0 -> rc <> INVALID_HANDLE ->
  remotectl1_open1 rc name (world s) = (0, Some h, 0, w') -> 0 <= h -> IS_STATICPD_HANDLE h = false -> IS_CONST_HANDLE h = false ->
  (forall p, calloc p = a) -> fresh a (aproc s) -> counts_in_range (ahl s d) -> 0 <= ref (ahl s d) < 4294967295 ->
  exists s', remote_handle64_open (Some name) true s = (Go (AEE_SUCCESS, Some a), s') /\
    get_domain_from_handle a (aproc s') = (AEE_SUCCESS, Some d) /\ get_handle_remote a (aproc s') = (AEE_SUCCESS, Some h) /\
    ref (ahl s' d) = ref (ahl s d) + 1 /\ domainsCount (ahl s' d) = domainsCount (ahl s d) + 1 /\ world s' = w'.
Proof.
  intros Hs Hp Hst Hdev Hrc Hrc0 Hrc1 Hopen H0h Hsp Hch Hal Hfr Hcr Href.
  destruct Hreq as (R1 & R2 & R3 & R4).
  set (p1 := let q := set_hl d (fun h => set_ref (u32 (ref h + 1)) h) (aproc s) in if tlsKey (aproc s) then set_tls (Some d) q else q).
  assert (E1 : fastrpc_session_get d (aproc s) = (Go 0, p1)) by (apply session_get_ok; [done|by unfold ahl in Hst; rewrite Hst]).
  assert (Hl1 : forall x, hl p1 x = if decide (x = d) then set_ref (u32 (ref (ahl s d) + 1)) (ahl s d) else ahl s x).
  { intros x. unfold p1. transitivity (hl (set_hl d (fun h => set_ref (u32 (ref h + 1)) h) (aproc s)) x); [by destruct (tlsKey (aproc s))|]. by rewrite hl_set. }
  match goal with |- exists s', _ /\ @?P s' => set (Q := P) end.
  enough (Hw : wp (remote_handle64_open (Some name) true) (fun r t => r = (AEE_SUCCESS, Some a) /\ Q t) (fun _ _ => False) s).
  { unfold wp in Hw. destruct (remote_handle64_open (Some name) true s) as [[r|] t]; [|done]. destruct Hw as [-> HQ]. by exists t. }
  unfold remote_handle64_open. apply wp_bind, wp_with_locals.
  apply wp_bind, wp_VERIFY_CALL, wp_lift. eapply wp_call; [by apply init_eq|]. split; [intros _|done]. cbn [negb]. cbn iota.
  apply wp_bind, wp_setl, wp_bind, wp_VERIFYC; rewrite Hd; intros Hd0.
  2: { unfold IS_VALID_EFFECTIVE_DOMAIN_ID in Hv. apply andb_true_iff in Hv as [Hv _]. congruence. }
  apply wp_bind, wp_VERIFY_CALL, wp_lift. eapply wp_call; [by apply get_eq|]. split; [intros _|done].
  set (s1 := set_aproc p1 s). apply wp_bind, wp_setl, wp_bind, wp_lift.
  assert (Hl1' : ahl s1 d = set_ref (u32 (ref (ahl s d) + 1)) (ahl s d)) by (transitivity (hl p1 d); [done|by rewrite Hl1, decide_True]).
  eapply wp_call; [apply open_domain_up; try done; rewrite Hl1'; [cbn [state set_ref]; by rewrite Hst|done]|].
  cbn beta iota. apply wp_bind, wp_setl, wp_bind, wp_VERIFY; intros Hx; [|done]. cbn [from_option id]. rewrite R1, Hsp. cbn [orb]. cbn iota.
  apply wp_bind, wp_lift, wp_bind, wp_gets. rewrite Hal. destruct Hfr as (Ha & Ha' & Hfr).
  assert (Hs1 : is_Some (hlist p1)) by (unfold p1; destruct (tlsKey (aproc s)); by apply (hlist_set d _ (aproc s))).
  assert (Hf1 : fresh a p1).
  { split; [done|]. split; [done|]. intros x Hxe. rewrite Hl1. destruct (decide (x = d)) as [->|]; [|by apply Hfr]. by apply (Hfr d). }
  pose proof (s1_verify p1 d h a (Some name) Hs1 Hv Hf1) as Hver. unfold after in Hver.
  pose proof (update_prepend 4 DOMAIN_LIST_PREPEND d h a (Some name) p1 eq_refl ltac:(done) eq_refl Ha) as Eup.
  rewrite Eup in Hver. cbn [snd] in Hver. eapply wp_table; [exact Eup|].
  match type of Hver with verify_local_handle _ _ ?q = _ => set (p2 := q) in * end.
  apply wp_setl. cbn [AEE_SUCCESS Z.eqb negb]. cbn beta iota. apply wp_bind, wp_ret, wp_ret. split; [done|].
  assert (Hl2 : ahl (set_aproc p2 (set_world w' s1)) d = count_step QL h 1 (set_lst QL (HandleInfo a d h (get_lib_name (Some name)) :: ql (hl p1 d)) (hl p1 d))).
  { transitivity (hl p2 d); [done|]. unfold p2. cbn [req_list]. by rewrite set_hl_hl, hl_set_same. }
  unfold Q. cbn [fst snd]. change (aproc (set_aproc p2 _)) with p2. rewrite Hl2, Hl1, decide_True by done.
  destruct Hcr as (_ & Hcd & _).
  split_and!.
  - unfold get_domain_from_handle. rewrite Hver. cbn [hi_hlist]. by rewrite Hv.
  - unfold get_handle_remote. by rewrite Hver.
  - unfold count_step. rewrite Hch. cbn [ref add_counts set_lst set_ref]. apply u32_small. unfold REF_MAX. lia.
  - unfold count_step. rewrite Hch. cbn [domainsCount add_counts set_lst set_ref]. apply u32_small. lia.
  - done.
Qed.
End one_handle.

(** *** Closing *)
Section close_handle.
Context (d a h rc : Z) (n : handle_info).
Context (Hv : IS_VALID_EFFECTIVE_DOMAIN_ID d = true) (Hn : hi_hlist n = d) (Hh : hi_remote n = h).
Context (Ha : IS_STATICPD_HANDLE a = false /\ a <> INVALID_HANDLE /\ IS_CONST_HANDLE a = false).

(** Closing a handle takes the node whose *remote* handle is the local one: none. *)
Definition no_such_remote (s : app W) : Prop := Forall (fun x => hi_remote x <> a) (ql (ahl s d)).
Lemma remove_remote_none l : Forall (fun x => hi_remote x <> a) l -> remove_remote a l = l.
Proof. induction 1 as [|x l Hx _ IH]; cbn [remove_remote]; [done|]. by rewrite (proj2 (Z.eqb_neq _ _) Hx), IH. Qed.

Definition dequeued (p : proc) : proc :=
  set_hl d (count_step QL a (-1)) (set_hl d (fun x => set_lst QL (remove_remote a (lst QL x)) x) p).
Definition put_proc (p : proc) : proc := if 0 <? ref (hl p d) then set_hl d (fun h => set_ref (ref h - 1) h) p else p.
Definition ctx_proc (p : proc) : proc := if tlsKey p then set_tls (Some d) p else p.

(** The state after the record of a close is made. *)
Definition close_recorded (s : app W) : app W := set_aproc (put_proc (dequeued (aproc s))) s.

Lemma close_recorded_hl s : is_Some (hlist (aproc s)) -> no_such_remote s -> 0 <= ref (ahl s d) ->
  is_Some (hlist (aproc (close_recorded s))) /\
  (forall x, ahl (close_recorded s) x = if decide (x = d)
     then set_ref (if 0 <? ref (ahl s d) then ref (ahl s d) - 1 else ref (ahl s d)) (count_step QL a (-1) (ahl s d)) else ahl s x).
Proof.
  intros Hs Hr Hr0. destruct Ha as (_ & _ & Hca).
  assert (Hq : forall x, hl (dequeued (aproc s)) x = if decide (x = d) then count_step QL a (-1) (ahl s d) else ahl s x).
  { intros x. unfold dequeued. rewrite set_hl_hl, hl_set by done. destruct (decide (x = d)) as [->|]; [|done].
    cbn [lst]. rewrite remove_remote_none by done. f_equal. apply (set_lst_id QL). }
  assert (Hsd : is_Some (hlist (dequeued (aproc s)))) by (unfold dequeued; by repeat apply hlist_set).
  assert (Hrd : ref (hl (dequeued (aproc s)) d) = ref (ahl s d)) by (rewrite Hq, decide_True by done; unfold count_step; by rewrite Hca).
  unfold close_recorded, put_proc. split.
  - change (is_Some (hlist (if 0 <? ref (hl (dequeued (aproc s)) d) then set_hl d (fun h => set_ref (ref h - 1) h) (dequeued (aproc s)) else dequeued (aproc s)))).
    destruct (0 <? _); [by apply hlist_set|done].
  - intros x. transitivity (hl (if 0 <? ref (hl (dequeued (aproc s)) d) then set_hl d (fun h => set_ref (ref h - 1) h) (dequeued (aproc s)) else dequeued (aproc s)) x); [done|].
    rewrite Hrd. destruct (0 <? ref (ahl s d)).
    + rewrite hl_set, !Hq by done. rewrite (decide_True (P := d = d)) by done. destruct (decide (x = d)); [|done].
      unfold count_step. by rewrite Hca.
    + rewrite Hq. destruct (decide (x = d)); [|done]. unfold count_step. rewrite Hca. by destruct (ahl s d).
Qed.

Definition in_ctx (s : app W) : app W := set_aproc (ctx_proc (aproc s)) s.
Lemma in_ctx_hl s x : ahl (in_ctx s) x = ahl s x.
Proof. unfold in_ctx, ctx_proc. by destruct (tlsKey (aproc s)). Qed.
Lemma in_ctx_hlist s : hlist (aproc (in_ctx s)) = hlist (aproc s).
Proof. unfold in_ctx, ctx_proc. by destruct (tlsKey (aproc s)). Qed.
Lemma verify_hl p p' : (forall x, ql (hl p' x) = ql (hl p x)) -> verify_local_handle (-1) a p' = verify_local_handle (-1) a p.
Proof. intros Hx. apply verify_ext. intros x. by rewrite Hx. Qed.

Lemma closed_set_hl x f p : closed (set_hl x f p) = closed p.
Proof. unfold set_hl. by destruct (hlist p). Qed.

Lemma closed_put_dequeued p : closed (put_proc (dequeued p)) = closed p.
Proof. unfold put_proc, dequeued. destruct (0 <? _); by rewrite !closed_set_hl. Qed.

Lemma closed_ctx p : closed (ctx_proc p) = closed p.
Proof. unfold ctx_proc. by destruct (tlsKey p). Qed.

Definition last_handle (s : app W) : bool := (domainsCount (ahl s d) <=? 1) && (nondomainsCount (ahl s d) =? 0).

(** The remote close, which is skipped for the last handle; what is recorded after it; and
    the end. *)
Definition close_dsp (s : app W) : M (app W) Z :=
  if negb (last_handle s) && negb (h =? 0) then remote_handle_close_domain d (u32 h) else mret 0.
Definition close_end (e : Z) (sd : bool) : M (app W) Z :=
  _ ← (if sd then (_ ← upd_hx d (set_exit_logs 1); domain_deinit d) else mret tt); close_result e d.

Lemma close_start (s : app W) (Q : Z -> app W -> Prop) :
  is_Some (hlist (aproc s)) -> verify_local_handle (-1) a (aproc s) = (AEE_SUCCESS, Some n) ->
  wp (close_dsp s) (fun r t => r = 0 /\ is_Some (hlist (aproc t)) /\ wp (close_end 0 (last_handle s)) Q (fun _ _ => False) (close_recorded t))
    (fun _ _ => False) (in_ctx s) ->
  wp (remote_handle64_close a) Q (fun _ _ => False) s.
Proof.
  intros Hs Hver Hw. destruct Ha as (Hsp & Hne & _). unfold remote_handle64_close. rewrite Hsp. apply wp_bind, wp_with_locals.
  rewrite (proj2 (Z.eqb_neq _ _) Hne). cbn [negb]. apply wp_bind, wp_VERIFYC; intros Hx; [|done]. clear Hx.
  unfold get_domain_from_handle, get_handle_remote.
  apply wp_bind, wp_lift, wp_gets. rewrite Hver, Hn, Hv. apply wp_bind, wp_VERIFY; intros Hx; [|done]. clear Hx.
  cbn [snd from_option id]. apply wp_bind, wp_setl, wp_bind, wp_lift, wp_gets. rewrite Hver. apply wp_bind, wp_VERIFY; intros Hx; [|done]. clear Hx.
  rewrite Hh. cbn [snd fst from_option id]. apply wp_bind, wp_lift. eapply (wp_table _ _ _ _ tt (ctx_proc (aproc s))); [done|]. fold (in_ctx s).
  apply wp_bind, wp_lift, wp_gets. rewrite in_ctx_hl. fold (last_handle s). apply wp_bind, wp_setl. cbn [fst snd].
  apply wp_bind. eapply (wp_mono _ (fun _ sl => is_Some (hlist (aproc sl.1)) /\ wp (close_end 0 (last_handle s)) Q (fun _ _ => False) (close_recorded sl.1) /\ sl.2 = (d, last_handle s)) _ (fun _ _ => False)); [| |done].
  - unfold close_dsp in Hw. destruct (negb (last_handle s) && negb (h =? 0)).
    + apply wp_VERIFY_CALL, wp_lift. eapply wp_mono; [exact Hw| |done]. intros r t (-> & Ht & Hq). by split.
    + apply wp_ret. destruct Hw as (_ & Ht & Hq). done.
  - intros _ [t l] (Ht & Hq & Hl). cbn [fst snd] in *. subst l. apply wp_bind, wp_lift.
    eapply wp_table; [by apply (update_dequeue 5 DOMAIN_LIST_DEQUEUE)|]. apply wp_lift. unfold put_ref. apply wp_bind.
    change (on_ses (session_put d)) with (on_table (W := W) (fastrpc_session_put d)).
    eapply wp_table; [apply session_put_ok; by repeat apply hlist_set|]. apply wp_ret. cbn [fst snd]. rewrite Hv. exact Hq.
Qed.

Lemma close_domain_up (s : app W) w' :
  uri_alloc = true -> u32 h <> 4294967295 -> cached_handle REMOTECTL (hxof s d) = rc -> rc <> 0 -> rc <> INVALID_HANDLE ->
  remotectl1_close1 rc (u32 h) (world s) = (0, 0, w') ->
  remote_handle_close_domain d (u32 h) s = (Go 0, set_world w' s).
Proof.
  intros Hal Hh1 Hrc Hrc0 Hrc1 Hcl. apply wp_result. unfold remote_handle_close_domain. apply wp_to_bail.
  apply wp_bind, wp_VERIFYC; intros Hx; [|apply negb_false_iff, Z.eqb_eq in Hx; done]. rewrite Hal.
  apply wp_bind, wp_VERIFYC; intros Hy; [|done]. unfold close_remote.
  apply wp_bind. eapply wp_call; [apply get_const_cached; cbn in *; congruence|]. rewrite Hrc, (proj2 (Z.eqb_neq rc _) Hrc1). cbn [negb].
  apply wp_bind, wp_bind. eapply wp_call; [by apply world_eq|]. cbn beta iota. cbn [AEE_SUCCESS Z.eqb]. apply wp_ret, wp_VERIFY; intros Hz; [by split|done].
Qed.

(** A closed handle stays open: after a close that the DSP accepted the handle is still
    valid, because the record removes a node by its remote handle and is given the local
    one. With two handles open, closing the first one twice is accepted both times, and
    the second close takes the whole session down, the other handle included, without
    closing anything on the DSP. *)
Theorem close_twice (s : app W) w' :
  is_Some (hlist (aproc s)) -> verify_local_handle (-1) a (aproc s) = (AEE_SUCCESS, Some n) ->
  no_such_remote s -> domainsCount (ahl s d) = 2 -> nondomainsCount (ahl s d) = 0 -> 0 <= ref (ahl s d) -> dev (ahl s d) <> -1 ->
  uri_alloc = true -> u32 h <> 4294967295 -> h <> 0 -> cached_handle REMOTECTL (hxof s d) = rc -> rc <> 0 -> rc <> INVALID_HANDLE ->
  remotectl1_close1 rc (u32 h) (world s) = (0, 0, w') ->
  exists s1 s2,
    remote_handle64_close a s = (Go AEE_SUCCESS, s1) /\
    get_domain_from_handle a (aproc s1) = (AEE_SUCCESS, Some d) /\ domainsCount (ahl s1 d) = 1 /\ world s1 = w' /\
    remote_handle64_close a s1 = (Go AEE_SUCCESS, s2) /\
    ql (ahl s2 d) = [] /\ state (ahl s2 d) = FASTRPC_DOMAIN_STATE_CLEAN /\ closed (aproc s2) = dev (ahl s d) :: closed (aproc s).
Proof.
  intros Hs Hver Hnr Hdc Hnd Hr Hdev Hal Hh1 Hh0 Hrc Hrc0 Hrc1 Hcl.
  assert (El : last_handle s = false) by (unfold last_handle; by rewrite Hdc).
  set (t0 := set_world w' (in_ctx s)). set (s1 := close_recorded t0).
  assert (Ht0 : forall x, ahl t0 x = ahl s x) by (intros x; transitivity (ahl (in_ctx s) x); [done|apply in_ctx_hl]).
  assert (Hst0 : is_Some (hlist (aproc t0))) by (change (is_Some (hlist (aproc (in_ctx s)))); by rewrite in_ctx_hlist).
  destruct (close_recorded_hl t0) as [Hs1 Hl1]; [done|unfold no_such_remote; by rewrite Ht0|by rewrite Ht0|]. fold s1 in Hs1, Hl1.
  assert (E1 : remote_handle64_close a s = (Go AEE_SUCCESS, s1)).
  { apply wp_result, close_start; [done..|]. rewrite El. unfold close_dsp. rewrite El, (proj2 (Z.eqb_neq h 0) Hh0). cbn [negb andb].
    eapply wp_call; [by apply close_domain_up|]. split; [done|]. split; [done|]. unfold close_end. apply wp_bind, wp_ret.
    unfold close_result. by apply wp_bind, wp_gets, wp_ret. }
  assert (Hl0 : ahl s1 d = set_ref (if 0 <? ref (ahl s d) then ref (ahl s d) - 1 else ref (ahl s d)) (add_counts 0 (-1) 0 0 (ahl s d))).
  { rewrite Hl1, decide_True by done. rewrite !Ht0. unfold count_step. by rewrite (proj2 (proj2 Ha)). }
  assert (Hq1 : forall x, ql (ahl s1 x) = ql (ahl s x)).
  { intros x. rewrite Hl1. destruct (decide (x = d)) as [->|]; rewrite Ht0; [|done]. unfold count_step. by rewrite (proj2 (proj2 Ha)). }
  assert (Hv1 : verify_local_handle (-1) a (aproc s1) = (AEE_SUCCESS, Some n)) by (rewrite <- Hver; by apply verify_hl).
  assert (El1 : last_handle s1 = true) by (unfold last_handle; rewrite Hl0; cbn; by rewrite Hdc, Hnd).
  assert (Hw1 : world s1 = w') by done.
  assert (Hc1 : closed (aproc s1) = closed (aproc s)).
  { transitivity (closed (ctx_proc (aproc s))); [apply closed_put_dequeued|apply closed_ctx]. }
  set (t1 := in_ctx s1). set (s2 := close_recorded t1).
  assert (Ht1 : forall x, ahl t1 x = ahl s1 x) by (intros x; apply in_ctx_hl).
  assert (Hst1 : is_Some (hlist (aproc t1))) by (unfold t1; by rewrite in_ctx_hlist).
  destruct (close_recorded_hl t1) as [Hs2 Hl2]; [done|unfold no_such_remote; rewrite Ht1; by rewrite Hq1| |].
  { rewrite Ht1, Hl0. cbn [ref set_ref]. destruct (Z.ltb_spec 0 (ref (ahl s d))); lia. }
  fold s2 in Hs2, Hl2.
  assert (Hd2 : dev (ahl s2 d) = dev (ahl s d) /\ counts_u32 (ahl s2 d)).
  { rewrite Hl2, decide_True, Ht1, Hl0 by done. unfold count_step. rewrite (proj2 (proj2 Ha)).
    split; [done|]. unfold counts_u32. cbn. by rewrite !u32_u32. }
  assert (Hc2 : closed (aproc s2) = closed (aproc s)).
  { rewrite <- Hc1. transitivity (closed (ctx_proc (aproc s1))); [apply closed_put_dequeued|apply closed_ctx]. }
  destruct Hd2 as [Hd2 Hu2].
  destruct (deinit_down d (set_hx d (set_exit_logs 1) s2)) as (s3 & E3 & [(Hq3 & _) (Hst3 & _) _ Hc3 _ _ _ _]); [done|by rewrite <- Hd2 in Hdev|done..|].
  exists s1, s3. split; [done|]. split; [unfold get_domain_from_handle; by rewrite Hv1, Hn, Hv|].
  split; [rewrite Hl0; cbn; by rewrite Hdc|]. split; [done|]. split.
  - apply wp_result, close_start; [done..|]. rewrite El1. unfold close_dsp. rewrite El1. cbn [negb andb]. apply wp_ret.
    split; [done|]. split; [done|]. fold s2. unfold close_end. apply wp_bind, wp_bind, wp_upd_hx.
    eapply wp_call; [exact E3|]. unfold close_result. by apply wp_bind, wp_gets, wp_ret.
  - split; [done|]. split; [done|]. change (closed (aproc (set_hx d (set_exit_logs 1) s2))) with (closed (aproc s2)) in Hc3.
    change (dev (ahl (set_hx d (set_exit_logs 1) s2) d)) with (dev (ahl s2 d)) in Hc3. by rewrite Hc3, Hd2, Hc2.
Qed.
End close_handle.
End handles.

Module HandlesEx.
Import MemEx.
#[local] Instance pl : PlResult := 0.
(** The remote procedures count the calls made; a handle opened is 70000. *)
Definition exit1 (d : Z) (w : nat) : Z * nat := (0, S w).
Definition exit0 (w : nat) : Z * nat := (0, S w).
Definition open1 (h : Z) (n : list Z) (w : nat) : (Z * option Z * Z) * nat := ((0, Some 70000, 0), S w).
Definition open0 (n : list Z) (w : nat) : (Z * option Z * Z) * nat := ((0, Some 70000, 0), S w).
Definition close1 (h g : Z) (w : nat) : (Z * Z) * nat := ((0, 0), S w).
Definition close0 (g : Z) (w : nat) : (Z * Z) * nat := ((0, 0), S w).
(** A kernel that accepts, one that refuses. *)
Definition accepts (_ : Z) (_ : ioctl_req) (k : proc * nat) : io * (proc * nat) := (Io 0 0 0, k).
Definition refuses (_ : Z) (_ : ioctl_req) (k : proc * nat) : io * (proc * nat) := (Io (-1) 0 22, k).
(** The library is initialised; the session of [d] is [h], its record [x]. *)
Definition st (d : Z) (h : handle_list) (x : hx) : app nat :=
  App (Rt (Mem [] ∅ ∅ 0 [] false (Proc (Some {[ d := h ]}) true None [], 0%nat)) dma0 wake0 ∅ [] []) {[ d := x ]} ∅.

Definition rctl (d : Z) : hx := set_cached REMOTECTL 5000 (hx0 d).
Definition up1 : handle_list := HandleList [] [] [] 1 0 0 0 FASTRPC_DOMAIN_STATE_INIT 0 5 0 0.
Definition node : handle_info := HandleInfo 90000 3 70000 None.
Definition up2 : handle_list := HandleList [node; HandleInfo 90008 3 70001 None] [] [] 1 2 0 0 FASTRPC_DOMAIN_STATE_INIT 2 5 0 0.
(** "file:///libfoo.so?foo&_dom=cdsp" *)
Definition uri : list Z := str "file:///libfoo.so?foo&_dom=cdsp".

Lemma hl_st d h x e : hl (aproc (st d h x)) e = if decide (e = d) then h else hl0.
Proof.
  unfold hl. cbn. destruct (decide (e = d)) as [->|]; [by rewrite lookup_singleton_eq|by rewrite lookup_singleton_ne].
Qed.

Lemma domain_deinit_resets_witness : session_down 3 (st 3 up2 (rctl 3)) (domain_deinit (fun _ => 90000) exit1 exit0 3 (st 3 up2 (rctl 3))).2.
Proof.
  destruct (domain_deinit_resets (fun _ => 90000) exit1 exit0 3 (st 3 up2 (rctl 3))) as (s' & s'' & E & H & _);
    [by eexists|done|by repeat split|]. rewrite E. exact H.
Defined.

Lemma domain_init_outcome_witness :
  exists s', domain_init accepts (fun _ => 90000) exit1 exit0 (fun _ => 7) (fun _ => inr (UserPd 0 0 0 0 0 0)) (fun _ => Some 0)
    (fun _ => 0) (fun _ => 22) (fun _ => 0) true (fun _ => 1) 3 (st 3 hl0 (hx0 3)) = (Go (22, -1), s') /\ closed (aproc s') = [7].
Proof.
  destruct (domain_init_outcome accepts (fun _ => 90000) exit1 exit0 (fun _ => 7) (fun _ => inr (UserPd 0 0 0 0 0 0)) (fun _ => Some 0)
    (fun _ => 0) (fun _ => 22) (fun _ => 0) true (fun _ => 1) 3 (st 3 hl0 (hx0 3))) as (e & dv & s' & E & H);
    [done|by eexists|done|done|done|by repeat split|].
  exists s'. rewrite E. pose proof (f_equal fst E) as E1. vm_compute in E1. injection E1 as <- <-. split; [done|]. apply H.
Defined.

Lemma open_handle_witness :
  exists s', remote_handle64_open accepts (fun _ => 90000) exit1 exit0 open1 open0 close1 close0 (fun _ => (0, None)) (fun _ => 7)
    (fun _ => inr (UserPd 0 0 0 0 0 0)) (fun _ => Some 0) (fun _ => 0) (fun _ => 0) (fun _ => 0) true true (fun _ => 1) (Some uri) true (st 3 up1 (rctl 3))
    = (Go (AEE_SUCCESS, Some 90000), s') /\ get_domain_from_handle 90000 (aproc s') = (AEE_SUCCESS, Some 3) /\ ref (ahl s' 3) = 1.
Proof.
  destruct (open_handle accepts (fun _ => 90000) exit1 exit0 open1 open0 close1 close0 (fun _ => (0, None)) (fun _ => 7)
    (fun _ => inr (UserPd 0 0 0 0 0 0)) (fun _ => Some 0) (fun _ => 0) (fun _ => 0) (fun _ => 0) true true (fun _ => 1) 3 uri 90000 70000 5000 1%nat)
    with (s := st 3 up1 (rctl 3)) as (s' & E & E1 & _ & E2 & _); try done; try (by vm_compute).
  - split; [done|]. split; [done|]. intros e He. change (find_hinfo 90000 (ql (hl (aproc (st 3 up1 (rctl 3))) e)) = None).
    rewrite hl_st. by destruct (decide (e = 3)).
  - by exists s'.
Defined.

Lemma close_twice_witness :
  exists s1 s2, remote_handle64_close (fun _ => 90000) exit1 exit0 close1 close0 true 90000 (st 3 up2 (rctl 3)) = (Go 0, s1) /\
    remote_handle64_close (fun _ => 90000) exit1 exit0 close1 close0 true 90000 s1 = (Go 0, s2) /\ ql (ahl s2 3) = [] /\ closed (aproc s2) = [5].
Proof.
  destruct (close_twice (fun _ => 90000) exit1 exit0 close1 close0 true 3 90000 70000 5000 node)
    with (s := st 3 up2 (rctl 3)) (w' := 1%nat) as (s1 & s2 & E1 & _ & _ & _ & E2 & Q & _ & C).
  1-4: by repeat split.
  15: by exists s1, s2.
  3: by unfold no_such_remote; change (ahl _ 3) with up2; repeat constructor.
  1: by eexists.
  all: by vm_compute.
Defined.
End HandlesEx.
