(* ===== verification/Control.v ===== *)
(** Control requests, [src/fastrpc_apps_user.c]: [remote_session_control] with the
    parameters of a domain it stores, and [remote_handle_control] with its quality-of-service,
    wake lock and capability requests.

    The state joins the session state of [Handles] with those of [Cap], [Notif] and
    [Context], which all work on the same handle table, and with the fields of
    [struct handle_list] that only these requests write. A request is a constructor with the
    structure [data] points to ([None] for NULL); what is written to it is the second result.
    The remote procedures are parameters. *)
From S2P Require Import Prelude Errors Domain Session SessionIface Ioctl ListenerBuf Remote Mem DmaHandles Wake Invoke Handles Context Cap Notif.
#[local] Open Scope Z_scope.

(** ** Constants *)
Definition DEFAULT_UTHREAD_PRIORITY : Z := 192.
Definition DEFAULT_UTHREAD_STACK_SIZE : Z := 16 * 1024.
Definition DEFAULT_PD_INITMEM_SIZE : Z := 3 * 1024 * 1024.
Definition MIN_THREAD_PRIORITY : Z := 1.
Definition MAX_THREAD_PRIORITY : Z := 255.
Definition MIN_UTHREAD_STACK_SIZE : Z := 16 * 1024.
Definition MAX_UTHREAD_STACK_SIZE : Z := 8 * 1024 * 1024.
Definition MIN_PD_INITMEM_SIZE : Z := 3 * 1024 * 1024.
Definition MAX_PD_INITMEM_SIZE : Z := 200 * 1024 * 1024.
Definition FASTRPC_QOS_MAX_LATENCY_USEC : Z := 10000.
Definition MAX_POLL_TIMEOUT : Z := 10000.
Definition RPC_DISABLE_QOS : Z := 0.
Definition RPC_PM_QOS : Z := 1.
Definition RPC_ADAPTIVE_QOS : Z := 2.
Definition RPC_POLL_QOS : Z := 3.
Definition DSPRPC_CONTROL_WAKELOCK : Z := 3.
Definition DSPRPC_RPC_POLL : Z := 10.
Definition DSPRPC_REMOTE_PROCESS_KILL : Z := 13.
Definition PROCESS_TYPE_SIGNED : Z := 0.
Definition PROCESS_TYPE_UNSIGNED : Z := 1.
Definition FASTRPC_THREAD_PARAMS : Z := 1.
Definition REQ_REVERSE_DEQUEUE : Z := 3.
Definition AEE_EALREADYLOADED : Z := 5.
Definition AEE_ENOSESSION : Z := 138.

(** ** State *)

(** [wake_value]: [fastrpc_wake_lock_enable] where it is not 0. *)
Record hparams := HParams {
  adaptive_qos : Z; unsigned_module : Z;
  thread_priority : Z; stack_size : Z; th_reqID : Z; update_requested : Z;
  pd_dump : bool; pd_initmem_size : Z; sessionname : list Z; wake_value : Z
}.
(** After [fastrpc_apps_user_init]. *)
Definition hparams0 : hparams := HParams 0 0 DEFAULT_UTHREAD_PRIORITY DEFAULT_UTHREAD_STACK_SIZE 0 0 false DEFAULT_PD_INITMEM_SIZE [] 0.

Definition set_adaptive (v : Z) (h : hparams) : hparams := HParams v (unsigned_module h) (thread_priority h) (stack_size h) (th_reqID h) (update_requested h) (pd_dump h) (pd_initmem_size h) (sessionname h) (wake_value h).
Definition set_unsigned (v : Z) (h : hparams) : hparams := HParams (adaptive_qos h) v (thread_priority h) (stack_size h) (th_reqID h) (update_requested h) (pd_dump h) (pd_initmem_size h) (sessionname h) (wake_value h).
Definition set_priority (v : Z) (h : hparams) : hparams := HParams (adaptive_qos h) (unsigned_module h) v (stack_size h) (th_reqID h) (update_requested h) (pd_dump h) (pd_initmem_size h) (sessionname h) (wake_value h).
Definition set_stack (v : Z) (h : hparams) : hparams := HParams (adaptive_qos h) (unsigned_module h) (thread_priority h) v (th_reqID h) (update_requested h) (pd_dump h) (pd_initmem_size h) (sessionname h) (wake_value h).
Definition set_request (id upd : Z) (h : hparams) : hparams := HParams (adaptive_qos h) (unsigned_module h) (thread_priority h) (stack_size h) id upd (pd_dump h) (pd_initmem_size h) (sessionname h) (wake_value h).
Definition set_dump (b : bool) (h : hparams) : hparams := HParams (adaptive_qos h) (unsigned_module h) (thread_priority h) (stack_size h) (th_reqID h) (update_requested h) b (pd_initmem_size h) (sessionname h) (wake_value h).
Definition set_initmem (v : Z) (h : hparams) : hparams := HParams (adaptive_qos h) (unsigned_module h) (thread_priority h) (stack_size h) (th_reqID h) (update_requested h) (pd_dump h) v (sessionname h) (wake_value h).
Definition set_sessionname (v : list Z) (h : hparams) : hparams := HParams (adaptive_qos h) (unsigned_module h) (thread_priority h) (stack_size h) (th_reqID h) (update_requested h) (pd_dump h) (pd_initmem_size h) v (wake_value h).
Definition set_wake_value (v : Z) (h : hparams) : hparams := HParams (adaptive_qos h) (unsigned_module h) (thread_priority h) (stack_size h) (th_reqID h) (update_requested h) (pd_dump h) (pd_initmem_size h) (sessionname h) v.

(** [ct_cx]: the table of contexts ([gctx] without its process). [ct_freed]: a node of a
    handle list has been read after it was freed. [ct_oob]: domains outside the table whose
    record was accessed; it reads as a record of the start-up state. *)
Record ctl (W : Type) := Ctl {
  ct_app : app W;
  ct_hp : gmap Z hparams;
  ct_caps : caps;
  ct_notif : notif;
  ct_cx : bool * list fastrpc_context * list Z;
  ct_freed : bool;
  ct_oob : list Z
}.
Arguments Ctl {_}. Arguments ct_app {_}. Arguments ct_hp {_}. Arguments ct_caps {_}. Arguments ct_notif {_}. Arguments ct_cx {_}.
Arguments ct_freed {_}. Arguments ct_oob {_}.

Section state.
Context {W : Type}.
Definition set_app (a : app W) (s : ctl W) : ctl W := Ctl a (ct_hp s) (ct_caps s) (ct_notif s) (ct_cx s) (ct_freed s) (ct_oob s).
Definition set_notifs (n : notif) (s : ctl W) : ctl W := Ctl (ct_app s) (ct_hp s) (ct_caps s) n (ct_cx s) (ct_freed s) (ct_oob s).
Definition set_freed (s : ctl W) : ctl W := Ctl (ct_app s) (ct_hp s) (ct_caps s) (ct_notif s) (ct_cx s) true (ct_oob s).
Definition add_oob (d : Z) (s : ctl W) : ctl W := Ctl (ct_app s) (ct_hp s) (ct_caps s) (ct_notif s) (ct_cx s) (ct_freed s) (d :: ct_oob s).
Definition hpof (s : ctl W) (d : Z) : hparams := default hparams0 (ct_hp s !! d).
Definition set_hp (d : Z) (f : hparams -> hparams) (s : ctl W) : ctl W :=
  Ctl (ct_app s) (<[d := f (hpof s d)]> (ct_hp s)) (ct_caps s) (ct_notif s) (ct_cx s) (ct_freed s) (ct_oob s).
Definition cproc (s : ctl W) : proc := aproc (ct_app s).
Definition chl (s : ctl W) (d : Z) : handle_list := ahl (ct_app s) d.

#[export] Instance ctl_session : HasSession (ctl W) (proc * W) :=
  { ses s := ses (ct_app s); set_ses k s := set_app (set_ses k (ct_app s)) s; ses_set := fun _ _ => eq_refl }.

Definition on_app {A} (m : M (app W) A) : M (ctl W) A := fun s => let '(r, x) := m (ct_app s) in (r, set_app x s).
Definition on_w {A} (f : W -> A * W) : M (ctl W) A := on_app (on_world f).
Definition on_cap {A} (m : M (capst W) A) : M (ctl W) A := fun s =>
  let '(r, x) := m (CapSt (ct_caps s) (cproc s) (world (ct_app s))) in
  (r, Ctl (set_world (cp_world x) (set_aproc (cp_proc x) (ct_app s))) (ct_hp s) (cp_caps x) (ct_notif s) (ct_cx s) (ct_freed s) (ct_oob s)).
Definition on_notif {A} (m : M notif A) : M (ctl W) A := fun s => let '(r, x) := m (ct_notif s) in (r, set_notifs x s).
Definition on_context {A} (m : M gctx A) : M (ctl W) A := fun s =>
  let '(i, t, f) := ct_cx s in
  let '(r, x) := m (Gctx i t f (cproc s)) in
  (r, Ctl (set_aproc (cx_proc x) (ct_app s)) (ct_hp s) (ct_caps s) (ct_notif s) (cx_init x, table x, cx_freed x) (ct_freed s) (ct_oob s)).
Definition upd_hp (d : Z) (f : hparams -> hparams) : M (ctl W) unit := modify (set_hp d f).
Definition session_open (d : Z) (s : ctl W) : bool := IS_SESSION_OPEN_ALREADY d (cproc s).
(** Access to the record of a domain that was not checked. *)
Definition touch (d : Z) : M (ctl W) unit := if IS_VALID_EFFECTIVE_DOMAIN_ID d then mret tt else modify (add_oob d).
End state.

(** ** Requests *)
Inductive control_req :=
  | CONTROL_LATENCY (p : option (Z * Z))                (* [enable], [latency] *)
  | GET_DSP_INFO (p : option (Z * Z))                   (* [domain], [attribute_ID] *)
  | CONTROL_WAKELOCK (p : option Z)                     (* [enable] *)
  | GET_DOMAIN (p : bool)                               (* not NULL *)
  | CONTROL_OTHER (req : Z).

Record reserve_new_session := Reserve { rs_domain : option (list Z); rs_domain_len : Z; rs_session : option (list Z); rs_session_len : Z }.
Record effective_domain_id := Effective { ed_domain : option (list Z); ed_domain_len : Z; ed_session_id : Z }.
Record get_uri := GetUri {
  gu_domain : option (list Z); gu_domain_len : Z; gu_session_id : Z;
  gu_module_uri : option (list Z); gu_module_uri_len : Z; gu_uri : bool; gu_uri_len : Z
}.

Inductive session_req :=
  | THREAD_PARAMS (p : option (Z * Z * Z))              (* [domain], [prio], [stack_size] *)
  | UNSIGNED_MODULE (p : option (Z * Z))                (* [domain], [enable] *)
  | RELATIVE_THREAD_PRIORITY (p : option (Z * Z))       (* [domain], [relative_thread_priority] *)
  | REMOTE_PROCESS_KILL (p : option Z)                  (* [domain] *)
  | SESSION_CLOSE (p : option Z)                        (* [domain] *)
  | PD_DUMP (p : option (Z * Z))                        (* [domain], [enable] *)
  | REMOTE_PROCESS_EXCEPTION (p : option Z)             (* [domain] *)
  | REMOTE_PROCESS_TYPE (p : option Z)                  (* [domain] *)
  | REGISTER_STATUS_NOTIFICATIONS (p : option notif_register)
  | PD_INITMEM_SIZE (p : option (Z * Z))                (* [domain], [pd_initmem_size] *)
  | RESERVE_NEW_SESSION (p : option reserve_new_session)
  | GET_EFFECTIVE (p : option effective_domain_id)
  | GET_URI (p : option get_uri)
  | CONTEXT_CREATE (p : option fastrpc_context_create)
  | CONTEXT_DESTROY (p : option (Z * Z))                (* [ctx], [flags] *)
  | SESSION_OTHER (req : Z).

(** The sizes of the structures on a 64-bit processor. *)
Definition sizeof_session_req (r : session_req) : Z :=
  match r with
  | THREAD_PARAMS _ => 12
  | UNSIGNED_MODULE _ | RELATIVE_THREAD_PRIORITY _ | PD_DUMP _ | REMOTE_PROCESS_TYPE _ | PD_INITMEM_SIZE _ => 8
  | REMOTE_PROCESS_KILL _ | SESSION_CLOSE _ | REMOTE_PROCESS_EXCEPTION _ => 4
  | REGISTER_STATUS_NOTIFICATIONS _ => 24
  | RESERVE_NEW_SESSION _ => 40
  | GET_EFFECTIVE _ => 24
  | GET_URI _ => 48
  | CONTEXT_CREATE _ => 32
  | CONTEXT_DESTROY _ => 16
  | SESSION_OTHER _ => 0
  end.

(** What a request writes to the structure. *)
Inductive session_out :=
  | NOTHING
  | PROCESS_TYPE (process_type : Z)
  | RESERVED (effective_domain_id session_id : Z)
  | EFFECTIVE (effective_domain_id : Z)
  | URI (uri : list Z)
  | CTX (ctx : Z).

(** [strlcpy] with a buffer of [n] bytes: the string stored. *)
Definition strlcpy (n : Z) (s : list Z) : list Z := take (Z.to_nat (n - 1)) (c_string s).

Section control.
Context {W : Type} `{!PlResult}.
Variable sys_ioctl : Z -> ioctl_req -> proc * W -> io * (proc * W).
Variable calloc : proc -> Z.
Variables (adsp_current_process1_exit : Z -> W -> Z * W) (adsp_current_process_exit : W -> Z * W).
Variables (remotectl1_close1 : Z -> Z -> W -> (Z * Z) * W) (remotectl_close : Z -> W -> (Z * Z) * W).
Variables (remotectl1_set_param : Z -> Z -> list Z -> W -> Z * W) (remotectl_set_param : Z -> list Z -> W -> Z * W).
Variables (adsp_current_process_poll_mode : Z -> Z -> W -> Z * W) (adsp_current_process1_poll_mode : Z -> Z -> Z -> W -> Z * W).
Variables (adsp_current_process_setQoS : Z -> W -> Z * W) (adsp_current_process1_setQoS : Z -> Z -> W -> Z * W).
Variables (adsp_current_process_exception : W -> Z * W) (adsp_current_process1_exception : Z -> W -> Z * W).
(** [ModTable.mod_table_close]: the module table is part of the world here. *)
Variable mod_table_close : Z -> W -> Z * W.
Variables (open_device_node : Z -> Z) (user_pd : Z -> Z + user_pd_args) (name_buf : Z -> option Z).
Variables (apps_mem_init listener_android_domain_init enable_notifications : Z -> Z) (fastrpc_notif_flag uri_alloc : bool) (wr : nat -> Z).
(** The set-up of the wake lock, see [Wake.fastrpc_wake_lock_init]. *)
Variable wake_lock_init : M wake_lock Z.
(** The kernel as [Cap] sees it, and the files it looks at. *)
Variable cap_ioctl : Z -> ioctl_req -> W -> io * W.
Variables (stat_ok : list Z -> bool) (open_file : list Z -> option sysfile) (malloc_ok : bool) (rproc_fuel : nat).
(** [Context]: the kernel's context manager and the allocations. *)
Variables (mdctx_manage : Z -> mdctx_req -> Z * Z) (ctx_addr : Z) (ctx_arrays notif_alloc : bool).

Abbreviation get_handle c d := (on_app (get_const_handle calloc c d)).

(** ** Parameters of the remote process *)

(** [set_param] by the session's [remotectl1] handle, or without one. *)
Definition remote_set_param (domain reqID : Z) (params : list Z) : M (ctl W) Z :=
  handle ← get_handle REMOTECTL domain;
  if negb (handle =? INVALID_HANDLE) then
    nErr ← on_w (remotectl1_set_param handle reqID params);
    if negb (nErr =? 0) then (_ ← on_app (non_domain_calls domain); on_w (remotectl_set_param reqID params)) else mret nErr
  else on_w (remotectl_set_param reqID params).

Definition fastrpc_set_remote_uthread_params (domain : Z) : M (ctl W) Z :=
  to_bail (
    h ← gets (fun s => hpof s domain);
    VERIFY_CALL (remote_set_param domain (th_reqID h) [thread_priority h; stack_size h])).

Definition store_domain_thread_params (domain priority stack : Z) : M (ctl W) Z :=
  to_bail (
    p ← gets cproc;
    _ ← VERIFYC (is_found (hlist p)) AEE_EBADPARM;
    _ ← VERIFYC (IS_VALID_EFFECTIVE_DOMAIN_ID domain) AEE_EBADPARM;
    _ ← (if negb (priority =? -1) then
           if (priority <? MIN_THREAD_PRIORITY) || (MAX_THREAD_PRIORITY <? priority) then bail AEE_EBADPARM
           else upd_hp domain (set_priority (u32 priority))
         else mret tt);
    _ ← (if negb (stack =? -1) then
           if (stack <? MIN_UTHREAD_STACK_SIZE) || (MAX_UTHREAD_STACK_SIZE <? stack) then bail AEE_EBADPARM
           else upd_hp domain (set_stack (u32 stack))
         else mret tt);
    _ ← upd_hp domain (set_request FASTRPC_THREAD_PARAMS 1);
    h ← gets (fun s => chl s domain);
    if negb (dev h =? -1) then VERIFY_CALL (fastrpc_set_remote_uthread_params domain) else mret tt).

Definition get_unsigned_pd_attribute (domain : Z) (ptr : bool) (s : ctl W) : Z * option Z :=
  if negb (is_found (hlist (cproc s))) || negb ptr || negb (IS_VALID_EFFECTIVE_DOMAIN_ID domain) then (AEE_EBADPARM, None)
  else (AEE_SUCCESS, Some (unsigned_module (hpof s domain))).

Definition set_unsigned_pd_attribute (domain enable : Z) : M (ctl W) Z :=
  to_bail (
    p ← gets cproc;
    _ ← VERIFYC (is_found (hlist p)) AEE_EBADPARM;
    _ ← VERIFYC (IS_VALID_EFFECTIVE_DOMAIN_ID domain) AEE_EBADPARM;
    h ← gets (fun s => chl s domain);
    x ← gets (fun s => hpof s domain);
    if negb (dev h =? -1) then (if unsigned_module x =? enable then mret tt else bail AEE_EALREADYLOADED)
    else upd_hp domain (set_unsigned (if enable =? 0 then 0 else 1))).

Definition set_pd_dump_attribute (domain enable : Z) : M (ctl W) Z :=
  to_bail (
    p ← gets cproc;
    _ ← VERIFYC (is_found (hlist p)) AEE_ERPC;
    _ ← VERIFYC (IS_VALID_EFFECTIVE_DOMAIN_ID domain) AEE_EBADPARM;
    h ← gets (fun s => chl s domain);
    if negb (dev h =? -1) then bail AEE_ERPC else upd_hp domain (set_dump (negb (enable =? 0)))).

Definition store_domain_pd_initmem_size (domain size : Z) : M (ctl W) Z :=
  if (size <? MIN_PD_INITMEM_SIZE) || (MAX_PD_INITMEM_SIZE <? size) then mret AEE_EBADPARM
  else (_ ← upd_hp domain (set_initmem size); mret AEE_SUCCESS).

(** A handler for one domain, or for all of them in order up to the first that fails. *)
Fixpoint each_domain (f : Z -> M (ctl W) Z) (ds : list Z) : M (ctl W) unit :=
  match ds with
  | [] => mret tt
  | d :: ds => _ ← VERIFY_CALL (f d); each_domain f ds
  end.
Definition one_or_all (domain : Z) (f : Z -> M (ctl W) Z) : M (ctl W) unit :=
  if negb (domain =? -1) then VERIFY_CALL (f domain) else each_domain f EFFECTIVE_DOMAIN_IDS.
Definition one_valid_or_all (domain : Z) (f : Z -> M (ctl W) Z) : M (ctl W) unit :=
  if negb (domain =? -1) then (_ ← VERIFYC (IS_VALID_EFFECTIVE_DOMAIN_ID domain) AEE_EBADPARM; VERIFY_CALL (f domain))
  else each_domain f EFFECTIVE_DOMAIN_IDS.

Definition relative_priority (rel : Z) : Z :=
  if rel <? 0 then (if DEFAULT_UTHREAD_PRIORITY - 1 <=? Z.lnot rel then MIN_THREAD_PRIORITY else DEFAULT_UTHREAD_PRIORITY + rel)
  else if MAX_THREAD_PRIORITY - DEFAULT_UTHREAD_PRIORITY <? rel then MAX_THREAD_PRIORITY else DEFAULT_UTHREAD_PRIORITY + rel.

Definition pd_initmem_size_of (size domain : Z) : M (ctl W) Z :=
  h ← gets (fun s => hpof s domain);
  if negb (unsigned_module h =? 0) then mret AEE_SUCCESS else store_domain_pd_initmem_size domain size.

(** ** Quality of service and the wake lock *)
Definition store_adaptive (domain enable : Z) : M (ctl W) unit :=
  upd_hp domain (set_adaptive (if enable =? RPC_ADAPTIVE_QOS then 1 else 0)).

Definition manage_adaptive_qos (domain enable : Z) : M (ctl W) Z :=
  x ← gets (fun s => hpof s domain);
  if Bool.eqb (negb (enable =? 0)) (negb (adaptive_qos x =? 0)) then mret AEE_SUCCESS
  else
    h ← gets (fun s => chl s domain);
    if negb (dev h =? -1) then
      nErr ← remote_set_param domain RPC_ADAPTIVE_QOS [enable];
      if negb (nErr =? 0) then mret nErr else (_ ← store_adaptive domain enable; mret AEE_SUCCESS)
    else (_ ← store_adaptive domain enable; mret AEE_SUCCESS).

Definition manage_poll_qos (domain h enable latency : Z) : M (ctl W) Z :=
  to_bail (
    p ← gets cproc;
    _ ← (if (h =? INVALID_HANDLE) && negb (is_found (hlist p) && negb (dev (hl p domain) =? -1)) then
           dd ← on_app (domain_init sys_ioctl calloc adsp_current_process1_exit adsp_current_process_exit open_device_node user_pd name_buf
                          apps_mem_init listener_android_domain_init enable_notifications fastrpc_notif_flag wr domain);
           let '(nErr, dv) := dd : Z * Z in
           _ ← VERIFY nErr (nErr =? AEE_SUCCESS);
           VERIFYC (negb (dv =? -1)) AEE_ERPC
         else mret tt);
    p ← gets cproc;
    _ ← VERIFYC (is_found (hlist p) && negb (dev (hl p domain) =? -1)) AEE_ERPC;
    _ ← VERIFYC (latency <? MAX_POLL_TIMEOUT) AEE_EBADPARM;
    en ← on_app errno_a;
    let nErr := ioctl_control (dev (hl p domain)) DSPRPC_RPC_POLL in
    _ ← (if negb (nErr =? 0) then bail (convert_kernel_to_user_error nErr en) else mret tt);
    if h =? INVALID_HANDLE then VERIFY_CALL (on_w (adsp_current_process_poll_mode enable latency))
    else (handle ← get_handle CP domain; VERIFY_CALL (on_w (adsp_current_process1_poll_mode handle enable latency)))).

Definition fastrpc_set_qos_latency (domain h latency : Z) : M (ctl W) Z :=
  if h =? INVALID_HANDLE then on_w (adsp_current_process_setQoS latency)
  else (handle ← get_handle CP domain; on_w (adsp_current_process1_setQoS handle latency)).

(** The value of the array [fastrpc_wake_lock_enable]. *)
Definition wake_enabled (domain : Z) (s : ctl W) : Z :=
  if bool_decide (domain ∈ ap_wl (ct_app s)) then wake_value (hpof s domain) else 0.
Definition set_wake_enabled (domain v : Z) : M (ctl W) unit :=
  _ ← upd_hp domain (set_wake_value v);
  on_app (modify (fun a => set_wl (if v =? 0 then ap_wl a ∖ {[ domain ]} else {[ domain ]} ∪ ap_wl a) a)).

Definition wakelock_control (domain wl_enable : Z) : M (ctl W) Z :=
  to_bail (
    v ← gets (wake_enabled domain);
    if v =? wl_enable then mret tt
    else
      _ ← VERIFY_CALL (on_app (on_rt (on_wake (if negb (wl_enable =? 0) then wake_lock_init else fastrpc_wake_lock_deinit (wr 0) 0 0))));
      o ← gets (session_open domain);
      _ ← (if o : bool then VERIFY_CALL (on_app (update_kernel_wakelock_status wr domain)) else mret tt);
      set_wake_enabled domain wl_enable).

(** ** Requests on a handle *)

(** The code and the field written: [capability] or [domain]. *)
Definition remote_handle_control_domain (domain h : Z) (req : control_req) (len : Z) : M (ctl W) (Z * option Z) :=
  r ← with_locals None (
    match req with
    | CONTROL_LATENCY None | CONTROL_WAKELOCK None | GET_DSP_INFO None | GET_DOMAIN false => bail AEE_EBADPARM
    | CONTROL_LATENCY (Some (enable, latency)) =>
      _ ← VERIFYC (len =? 8) AEE_EBADPARM;
      if enable =? RPC_DISABLE_QOS then
        _ ← VERIFY_CALL (lift (manage_adaptive_qos domain RPC_DISABLE_QOS));
        _ ← VERIFY_CALL (lift (manage_poll_qos domain h RPC_DISABLE_QOS latency));
        _ ← lift (fastrpc_set_qos_latency domain h FASTRPC_QOS_MAX_LATENCY_USEC); mret tt
      else if enable =? RPC_PM_QOS then mret tt
      else if enable =? RPC_ADAPTIVE_QOS then
        _ ← VERIFY_CALL (lift (manage_adaptive_qos domain RPC_ADAPTIVE_QOS));
        _ ← lift (fastrpc_set_qos_latency domain h latency); mret tt
      else if enable =? RPC_POLL_QOS then VERIFY_CALL (lift (manage_poll_qos domain h RPC_POLL_QOS latency))
      else bail AEE_EBADPARM
    | GET_DSP_INFO (Some (d, attribute)) =>
      _ ← VERIFYC (IS_VALID_EFFECTIVE_DOMAIN_ID d) AEE_EBADPARM;
      c ← lift (on_cap (fastrpc_get_cap cap_ioctl open_device_node stat_ok open_file malloc_ok rproc_fuel d attribute true));
      _ ← setl (fun _ => c.2);
      VERIFY c.1 (c.1 =? AEE_SUCCESS)
    | CONTROL_WAKELOCK (Some enable) =>
      _ ← VERIFYC (len =? 4) AEE_EBADPARM;
      VERIFY_CALL (lift (wakelock_control domain enable))
    | GET_DOMAIN true =>
      _ ← VERIFYC (len =? 4) AEE_EBADPARM;
      setl (fun _ => Some domain)
    | CONTROL_OTHER _ => bail AEE_EUNSUPPORTED
    end);
  mret r.

(** At the end of the entry points, for the log. *)
Definition report {A} (nErr : Z) (out : A) : M (ctl W) (Z * A) :=
  _ ← (if negb (nErr =? AEE_SUCCESS) then on_cap (rpc_error_class cap_ioctl open_device_node stat_ok open_file malloc_ok rproc_fuel nErr) else mret 0);
  mret (nErr, out).

Definition remote_handle_control (req : control_req) (len : Z) : M (ctl W) (Z * option Z) :=
  e ← on_ses fastrpc_init_once;
  if negb (e =? AEE_SUCCESS) then report e None
  else
    domain ← gets (fun s => get_current_domain (cproc s));
    bracket domain (fun e => report e None) (remote_handle_control_domain domain INVALID_HANDLE req len) (fun r => report r.1 r.2).

Definition remote_handle64_control (handle : Z) (req : control_req) (len : Z) : M (ctl W) (Z * option Z) :=
  e ← on_ses fastrpc_init_once;
  if negb (e =? AEE_SUCCESS) then report e None
  else
    d ← gets (fun s => get_domain_from_handle handle (cproc s));
    if negb (d.1 =? AEE_SUCCESS) then report d.1 None
    else
      let domain := default (-1) d.2 in
      bracket domain (fun e => report e None) (remote_handle_control_domain domain handle req len) (fun r => report r.1 r.2).

(** ** Closing a session

    [QLIST_NEXTSAFE_FOR_ALL]: the node after the current one is read before the body and its
    own successor after it, when the body may have freed it. The walk is by address; [body]
    gets the node. It ends when it reads a freed node, which is noted. *)
Definition addr_after (a : Z) (l : list handle_info) : option Z :=
  match list_find (fun n => hi_addr n = a) l with
  | Some (i, _) => hi_addr <$> l !! S i
  | None => None
  end.
Definition node_at (a : Z) (l : list handle_info) : option handle_info := snd <$> list_find (fun n => hi_addr n = a) l.

Fixpoint walk (fuel : nat) (w : which) (domain : Z) (body : handle_info -> M (ctl W) unit) (pn : Z) (pnn : option Z) : M (ctl W) unit :=
  match fuel with
  | O => mret tt
  | S fuel =>
    l ← gets (fun s => lst w (chl s domain));
    match node_at pn l with
    | None => modify set_freed
    | Some hi =>
      _ ← body hi;
      match pnn with
      | None => mret tt                                 (* the head of the list *)
      | Some a =>
        l ← gets (fun s => lst w (chl s domain));
        if is_found (node_at a l) then walk fuel w domain body a (addr_after a l) else modify set_freed
      end
    end
  end.
Definition walk_list (w : which) (domain : Z) (body : handle_info -> M (ctl W) unit) : M (ctl W) unit :=
  l ← gets (fun s => lst w (chl s domain));
  match l with
  | [] => mret tt
  | n :: t => walk (length l) w domain body (hi_addr n) (hi_addr <$> head t)
  end.

Abbreviation close_handle h := (on_app (remote_handle_close calloc remotectl1_close1 remotectl_close uri_alloc h)).
Abbreviation close_handle64 h :=
  (on_app (remote_handle64_close calloc adsp_current_process1_exit adsp_current_process_exit remotectl1_close1 remotectl_close uri_alloc h)).

(** [apps_remotectl_close] of [src/listener_android.c], on the 32 low bits of what it is given. *)
Definition close_reverse_handle (h : Z) : M (ctl W) Z :=
  domain ← gets (fun s => get_current_domain (cproc s));
  to_bail (
    nErr ← on_w (mod_table_close (u32 h));
    _ ← (if nErr =? AEE_SUCCESS then mret tt else bail nErr);
    r ← on_app (on_table (fastrpc_update_module_list REQ_REVERSE_DEQUEUE domain (u32 h) 0 None));
    let '(nErr, _) := r : Z * option Z in
    VERIFY nErr (nErr =? AEE_SUCCESS)).

Definition close_domain_session (domain : Z) : M (ctl W) Z :=
  to_bail (
    h ← gets (fun s => chl s domain);
    _ ← VERIFY 0 (negb (dev h =? -1));
    proc_handle ← get_handle CP domain;
    _ ← (if negb (proc_handle =? INVALID_HANDLE) then on_w (adsp_current_process1_exit proc_handle) else on_w adsp_current_process_exit);
    _ ← walk_list NQL domain (fun hi => _ ← close_handle (hi_remote hi); mret tt);
    _ ← walk_list RQL domain (fun hi => _ ← close_reverse_handle (hi_addr hi); mret tt);
    walk_list QL domain (fun hi => _ ← close_handle64 (hi_addr hi); mret tt)).

(** ** Requests on a session *)
Definition fastrpc_dsp_process_clean (domain : Z) : M (ctl W) Z :=
  to_bail (
    _ ← touch domain;
    o ← gets (session_open domain);
    _ ← VERIFYC o AEE_ERPC;
    p ← gets cproc;
    let nErr := ioctl_control (dev (hl p domain)) DSPRPC_REMOTE_PROCESS_KILL in
    if nErr =? 0 then mret tt else bail nErr).

(** The loop of the reservation: session [jj] of the domain and the ones after it. *)
Fixpoint reserve_loop (fuel : nat) (ii jj : Z) (name : list Z) (name_len : Z) : M (ctl W) (option (Z * Z)) :=
  match fuel with
  | O => mret None
  | S fuel =>
    x ← gets (fun s => hxof (ct_app s) ii);
    if negb (is_session_reserved x) then
      _ ← on_app (upd_hx ii (set_reserved true));
      _ ← upd_hp ii (set_sessionname (strlcpy (Z.min name_len (MAX_DSPPD_NAMELEN - 1)) name));
      mret (Some (ii, jj))
    else if IS_VALID_EFFECTIVE_DOMAIN_ID (ii + NUM_DOMAINS) then reserve_loop fuel (ii + NUM_DOMAINS) (jj + 1) name name_len
    else mret None
  end.

Definition session_uri (domain session_id : Z) (module_uri : list Z) : list Z :=
  module_uri ++ DOMAIN_URI domain ++ FASTRPC_SESSION_URI ++ dec (Z.to_nat session_id).

(** The locals are [domain] and what was written. *)
Definition L : Type := Z * session_out.
Definition set_domain (d : Z) : M (ctl W * L) unit := setl (fun l => (d, l.2)).
Definition out (o : session_out) : M (ctl W * L) unit := setl (fun l => (l.1, o)).
(** The domain of a name, which must be one of the eight. *)
Definition named_domain (name : option (list Z)) : M (ctl W * L) Z :=
  let domain := get_domain_from_name name DOMAIN_NAME_STAND_ALONE in
  _ ← set_domain domain;
  _ ← VERIFYC (IS_VALID_DOMAIN_ID domain) AEE_EBADPARM;
  mret domain.

(** The longer handlers, on the structure of the request. *)
(** An exception in the process: the call itself fails with [AEE_EBADSTATE] of the DSP. *)
Definition process_exception_request (d : Z) : M (ctl W * L) unit :=
  _ ← set_domain d;
  _ ← VERIFYC (IS_VALID_EFFECTIVE_DOMAIN_ID d) AEE_EBADPARM;
  handle ← lift (get_handle CP d);
  ret ← lift (if negb (handle =? INVALID_HANDLE) then on_w (adsp_current_process1_exception handle) else on_w adsp_current_process_exception);
  let ret := if ret =? AEE_SUCCESS then AEE_ERPC else ret in
  VERIFYC (ret =? s32 (DSP_AEE_EOFFSET + AEE_EBADSTATE)) ret.

Definition process_type_request (d : Z) : M (ctl W * L) unit :=
  _ ← set_domain d;
  _ ← VERIFYC (IS_VALID_EFFECTIVE_DOMAIN_ID d) AEE_EBADPARM;
  x ← lift (gets (fun s => hpof s d));
  if (unsigned_module x =? PROCESS_TYPE_UNSIGNED) || (unsigned_module x =? PROCESS_TYPE_SIGNED) then out (PROCESS_TYPE (unsigned_module x))
  else (_ ← out (PROCESS_TYPE (-1)); bail AEE_EBADPARM).

(** The loop over all domains is behind a check that admits one domain only. *)
Definition register_status_request (notif : notif_register) : M (ctl W * L) unit :=
  let d := nr_domain notif in
  let register d : M (ctl W) unit :=
    v ← on_cap (is_status_notif_version2_supported cap_ioctl open_device_node stat_ok open_file malloc_ok rproc_fuel d);
    _ ← VERIFYC (negb (v =? 0)) AEE_EUNSUPPORTED;
    VERIFY_CALL (on_notif (fastrpc_notif_register notif_alloc d notif)) in
  _ ← set_domain d;
  _ ← VERIFYC (IS_VALID_EFFECTIVE_DOMAIN_ID d) AEE_EBADPARM;
  if negb (d =? -1) then lift (register d)
  else lift (foldr (fun d k => _ ← register d; k) (mret tt) EFFECTIVE_DOMAIN_IDS).

Definition pd_initmem_request (d size : Z) : M (ctl W * L) unit :=
  if negb (d =? -1) then
    _ ← VERIFYC (IS_VALID_EFFECTIVE_DOMAIN_ID d) AEE_EBADPARM;
    x ← lift (gets (fun s => hpof s d));
    _ ← VERIFYC (unsigned_module x =? 0) AEE_EUNSUPPORTED;
    VERIFY_CALL (lift (store_domain_pd_initmem_size d size))
  else lift (each_domain (pd_initmem_size_of size) EFFECTIVE_DOMAIN_IDS).

Definition reserve_request (r : reserve_new_session) : M (ctl W * L) unit :=
  match rs_domain r, rs_session r with
  | Some name, Some session_name =>
    _ ← VERIFYC ((0 <? rs_domain_len r) && (0 <? rs_session_len r)) AEE_EBADPARM;
    domain ← named_domain (Some name);
    _ ← out (RESERVED NUM_DOMAINS_EXTEND NUM_SESSIONS);
    o ← lift (reserve_loop (Z.to_nat NUM_SESSIONS) (domain + NUM_DOMAINS) 1 session_name (rs_session_len r));
    match o with
    | Some (ii, jj) => _ ← out (RESERVED ii jj); VERIFYC (IS_VALID_EFFECTIVE_DOMAIN_ID ii) AEE_ENOSESSION
    | None => bail AEE_ENOSESSION
    end
  | _, _ => bail AEE_EBADPARM
  end.

Definition get_effective_request (e : effective_domain_id) : M (ctl W * L) unit :=
  _ ← VERIFYC (is_found (ed_domain e) && (0 <? ed_domain_len e) && (ed_session_id e <? NUM_SESSIONS)) AEE_EBADPARM;
  domain ← named_domain (ed_domain e);
  let id := GET_EFFECTIVE_DOMAIN_ID domain (ed_session_id e) in
  _ ← out (EFFECTIVE id);
  VERIFYC (IS_VALID_EFFECTIVE_DOMAIN_ID id) AEE_ENOSESSION.

(** A URI that does not fit is written as far as it fits. *)
Definition get_session_uri_request (g : get_uri) : M (ctl W * L) unit :=
  _ ← VERIFYC (is_found (gu_domain g) && (0 <? gu_domain_len g) && (gu_session_id g <? NUM_SESSIONS)) AEE_EBADPARM;
  domain ← named_domain (gu_domain g);
  match gu_module_uri g with
  | None => bail AEE_EBADPARM
  | Some module_uri =>
    _ ← VERIFYC (0 <? gu_module_uri_len g) AEE_EBADPARM;
    _ ← VERIFYC (gu_uri g && (gu_module_uri_len g <? gu_uri_len g)) AEE_EBADPARM;
    let uri := session_uri domain (gu_session_id g) module_uri in
    _ ← out (URI (take (Z.to_nat (gu_uri_len g - 1)) uri));
    if gu_uri_len g <=? Z.of_nat (length uri) then bail AEE_EBADSIZE else mret tt
  end.

Definition session_request (req : session_req) (datalen : Z) : M (ctl W * L) unit :=
  let check {A} (p : option A) (f : A -> M (ctl W * L) unit) :=
    _ ← VERIFYC (datalen =? sizeof_session_req req) AEE_EBADPARM;
    match p with None => bail AEE_EBADPARM | Some a => f a end in
  match req with
  | THREAD_PARAMS p => check p (fun '(d, prio, stack) => lift (one_valid_or_all d (fun d => store_domain_thread_params d prio stack)))
  | UNSIGNED_MODULE p => check p (fun '(d, enable) => lift (one_valid_or_all d (fun d => set_unsigned_pd_attribute d enable)))
  | RELATIVE_THREAD_PRIORITY p =>
    check p (fun '(d, rel) => lift (one_valid_or_all d (fun d => store_domain_thread_params d (relative_priority rel) (-1))))
  | REMOTE_PROCESS_KILL p => check p (fun d => _ ← set_domain d; VERIFY_CALL (lift (fastrpc_dsp_process_clean d)))
  | SESSION_CLOSE p => check p (fun d => lift (one_valid_or_all d close_domain_session))
  | PD_DUMP p => check p (fun '(d, enable) => lift (one_or_all d (fun d => set_pd_dump_attribute d enable)))
  | REMOTE_PROCESS_EXCEPTION p => check p process_exception_request
  | REMOTE_PROCESS_TYPE p => check p process_type_request
  | REGISTER_STATUS_NOTIFICATIONS p => check p register_status_request
  | PD_INITMEM_SIZE p => check p (fun '(d, size) => pd_initmem_request d size)
  | RESERVE_NEW_SESSION p => check p reserve_request
  | GET_EFFECTIVE p => check p get_effective_request
  | GET_URI p => check p get_session_uri_request
  | CONTEXT_CREATE p =>
    check p (fun c =>
      r ← lift (on_context (fastrpc_create_context mdctx_manage open_device_node ctx_addr ctx_arrays c));
      let '(nErr, ctx) := r : Z * option Z in
      _ ← (match ctx with Some id => out (CTX id) | None => mret tt end);
      VERIFY nErr (nErr =? AEE_SUCCESS))
  | CONTEXT_DESTROY p =>
    check p (fun '(ctx, flags) =>
      _ ← VERIFYC (flags =? 0) AEE_EBADPARM;
      VERIFY_CALL (lift (on_context (fastrpc_destroy_context mdctx_manage ctx))))
  | SESSION_OTHER _ => bail AEE_EUNSUPPORTED
  end.

(** The reference is taken on [DEFAULT_DOMAIN_ID] and given back on the local [domain],
    which some requests have changed by then. *)
Definition remote_session_control (req : session_req) (datalen : Z) : M (ctl W) (Z * session_out) :=
  e ← on_ses fastrpc_init_once;
  if negb (e =? AEE_SUCCESS) then report e NOTHING
  else
    e ← on_ses (session_get DEFAULT_DOMAIN_ID);
    if negb (e =? AEE_SUCCESS) then report e NOTHING
    else
      r ← with_locals (DEFAULT_DOMAIN_ID, NOTHING) (session_request req datalen);
      let '(nErr, (domain, o)) := r : Z * L in
      _ ← touch domain;
      _ ← on_ses (session_put domain);
      report nErr o.

Definition fastrpc_get_pd_type (domain : Z) (s : ctl W) : Z :=
  match hlist (cproc s) with
  | Some _ => if negb (dev (chl s domain) =? -1) then dsppd (hxof (ct_app s) domain) else -1
  | None => -1
  end.

Ltac open_handlers := unfold process_exception_request, process_type_request, register_status_request, pd_initmem_request, reserve_request, get_effective_request, get_session_uri_request; cbv beta.

(** ** The stored parameters *)

Lemma relative_priority_clamps rel : relative_priority rel = Z.max MIN_THREAD_PRIORITY (Z.min MAX_THREAD_PRIORITY (DEFAULT_UTHREAD_PRIORITY + rel)).
Proof.
  unfold relative_priority, MIN_THREAD_PRIORITY, MAX_THREAD_PRIORITY, DEFAULT_UTHREAD_PRIORITY, Z.lnot.
  repeat case_ltb; lia.
Qed.

Record hp_ok (h : hparams) : Prop := {
  ok_adaptive : adaptive_qos h = 0 \/ adaptive_qos h = 1;
  ok_unsigned : unsigned_module h = PROCESS_TYPE_SIGNED \/ unsigned_module h = PROCESS_TYPE_UNSIGNED;
  ok_priority : MIN_THREAD_PRIORITY <= thread_priority h <= MAX_THREAD_PRIORITY;
  ok_stack : MIN_UTHREAD_STACK_SIZE <= stack_size h <= MAX_UTHREAD_STACK_SIZE;
  ok_initmem : MIN_PD_INITMEM_SIZE <= pd_initmem_size h <= MAX_PD_INITMEM_SIZE;
  ok_name : Z.of_nat (length (sessionname h)) < MAX_DSPPD_NAMELEN
}.
Definition params_ok (s : ctl W) : Prop := forall d, hp_ok (hpof s d).

Lemma hp0_ok : hp_ok hparams0.
Proof. split; try (by left); vm_compute; done || (split; congruence). Qed.

Lemma hpof_set d f (s : ctl W) x : hpof (set_hp d f s) x = if decide (x = d) then f (hpof s d) else hpof s x.
Proof. unfold hpof at 1. cbn. destruct (decide (x = d)) as [->|]; [by rewrite lookup_insert_eq|by rewrite lookup_insert_ne]. Qed.

Lemma params_upd d f : (forall h, hp_ok h -> hp_ok (f h)) -> preserves params_ok (upd_hp d f).
Proof. intros Hf s Hs x. cbn. rewrite hpof_set. destruct (decide (x = d)); [by apply Hf|done]. Qed.
Lemma params_app {A} (m : M (app W) A) : preserves params_ok (on_app m).
Proof. intros s Hs. unfold on_app. by destruct (m (ct_app s)). Qed.
Lemma params_cap {A} (m : M (capst W) A) : preserves params_ok (on_cap m).
Proof. intros s Hs. unfold on_cap. by destruct (m _). Qed.
Lemma params_notif {A} (m : M notif A) : preserves params_ok (on_notif m).
Proof. intros s Hs. unfold on_notif. by destruct (m _). Qed.
Lemma params_context {A} (m : M gctx A) : preserves params_ok (on_context m).
Proof. intros s Hs. unfold on_context. destruct (ct_cx s) as [[i t] f]. by destruct (m _). Qed.
Lemma params_ses {A} (m : M (proc * W) A) : preserves params_ok (on_ses m).
Proof. intros s Hs. unfold on_ses. by destruct (m _). Qed.
Lemma params_modify (f : ctl W -> ctl W) : (forall s, ct_hp (f s) = ct_hp s) -> preserves params_ok (modify f).
Proof. intros Hf. apply preserves_modify. intros s Hs d. unfold hpof. rewrite Hf. apply Hs. Qed.
Lemma params_app_let {A} (m : M (app W) A) s : params_ok s -> params_ok (on_app m s).2.
Proof. apply params_app. Qed.

Create HintDb params.
Hint Resolve params_app params_cap params_notif params_context params_ses params_modify : params.

Ltac params :=
  repeat first
    [ progress (intros; cbv beta)
    | solve [eauto with params nocore]
    | apply preserves_bind | apply preserves_to_bail | apply preserves_VERIFYC | apply preserves_VERIFY | apply preserves_VERIFY_CALL
    | apply preserves_ret | apply preserves_bail | apply preserves_gets | apply preserves_get
    | match goal with |- preserves _ (if ?c then _ else _) => destruct c eqn:? end
    | apply preserves_with_locals | apply preserves_lift | apply preserves_getl | apply preserves_setl
    | match goal with |- preserves _ (match ?x with _ => _ end) => destruct x end ].

Lemma params_remote_set_param d id l : preserves params_ok (remote_set_param d id l).
Proof. unfold remote_set_param, on_w. params. Qed.
Hint Resolve params_remote_set_param : params.
Lemma params_thread d p st : preserves params_ok (store_domain_thread_params d p st).
Proof.
  unfold store_domain_thread_params, fastrpc_set_remote_uthread_params.
  params; apply params_upd; intros h []; split; try done; cbn;
    match goal with H : (_ <? _) || (_ <? _) = false |- _ => apply orb_false_iff in H as [?%Z.ltb_ge ?%Z.ltb_ge] end;
    unfold MIN_THREAD_PRIORITY, MAX_THREAD_PRIORITY, MIN_UTHREAD_STACK_SIZE, MAX_UTHREAD_STACK_SIZE in *; rewrite u32_small; lia.
Qed.
Lemma params_unsigned d e : preserves params_ok (set_unsigned_pd_attribute d e).
Proof.
  unfold set_unsigned_pd_attribute. params. apply params_upd. intros h []; split; try done; cbn. destruct (e =? 0); [by left|by right].
Qed.
Lemma params_dump d e : preserves params_ok (set_pd_dump_attribute d e).
Proof. unfold set_pd_dump_attribute. params. apply params_upd. by intros h []; split. Qed.
Lemma params_initmem d e : preserves params_ok (store_domain_pd_initmem_size d e).
Proof.
  unfold store_domain_pd_initmem_size. params. apply params_upd. intros h []; split; try done; cbn.
  match goal with H : (_ <? _) || (_ <? _) = false |- _ => apply orb_false_iff in H as [?%Z.ltb_ge ?%Z.ltb_ge] end. lia.
Qed.
Hint Resolve params_thread params_unsigned params_dump params_initmem : params.
Lemma params_each f ds : (forall d, preserves params_ok (f d)) -> preserves params_ok (each_domain f ds).
Proof. intros Hf. induction ds as [|d ds IH]; cbn [each_domain]; params; done. Qed.
Lemma params_one_valid d f : (forall d, preserves params_ok (f d)) -> preserves params_ok (one_valid_or_all d f).
Proof. intros Hf. unfold one_valid_or_all. params; auto using params_each. Qed.
Lemma params_one d f : (forall d, preserves params_ok (f d)) -> preserves params_ok (one_or_all d f).
Proof. intros Hf. unfold one_or_all. params; auto using params_each. Qed.
Lemma params_walk fuel w d body pn pnn : (forall hi, preserves params_ok (body hi)) -> preserves params_ok (walk fuel w d body pn pnn).
Proof. intros Hb. revert pn pnn. induction fuel as [|fuel IH]; intros pn pnn; cbn [walk]; params; done. Qed.
Lemma params_close d : preserves params_ok (close_domain_session d).
Proof. unfold close_domain_session, walk_list, on_w, close_reverse_handle. params; apply params_walk; unfold on_w; params. Qed.
Lemma params_reserve fuel ii jj name n : preserves params_ok (reserve_loop fuel ii jj name n).
Proof.
  revert ii jj. induction fuel as [|fuel IH]; intros ii jj; cbn [reserve_loop]; params. apply params_upd.
  intros h []; split; try done. cbn. unfold strlcpy. rewrite length_take. unfold MAX_DSPPD_NAMELEN. lia.
Qed.
Lemma params_qos d h l : preserves params_ok (fastrpc_set_qos_latency d h l).
Proof. unfold fastrpc_set_qos_latency, on_w. params. Qed.
Lemma params_adaptive d e : preserves params_ok (manage_adaptive_qos d e).
Proof.
  assert (Hs : preserves params_ok (store_adaptive d e)).
  { apply params_upd. intros h []; split; try done; cbn. destruct (e =? RPC_ADAPTIVE_QOS); [by right|by left]. }
  unfold manage_adaptive_qos. params; done.
Qed.
Lemma params_poll d h e l : preserves params_ok (manage_poll_qos d h e l).
Proof. unfold manage_poll_qos, on_w. params. Qed.
Lemma params_wakelock d e : preserves params_ok (wakelock_control d e).
Proof. unfold wakelock_control, set_wake_enabled. params. apply params_upd. by intros h []; split. Qed.
Lemma params_kill d : preserves params_ok (fastrpc_dsp_process_clean d).
Proof. unfold fastrpc_dsp_process_clean, touch. params. Qed.
Hint Resolve params_close params_reserve params_qos params_adaptive params_poll params_wakelock params_kill params_each params_one params_one_valid : params.
Lemma params_pd_size size d : preserves params_ok (pd_initmem_size_of size d).
Proof. unfold pd_initmem_size_of. params. Qed.
Lemma params_foldr (f : Z -> M (ctl W) unit) ds : (forall d, preserves params_ok (f d)) ->
  preserves params_ok (foldr (fun d k => _ ← f d; k) (mret tt) ds).
Proof. intros Hf. induction ds as [|d ds IH]; cbn [foldr]; params; done. Qed.
Hint Resolve params_pd_size : params.

Lemma params_request req len : preserves (fun sl : ctl W * L => params_ok sl.1) (session_request req len).
Proof.
  destruct req; cbn [session_request]; open_handlers; unfold named_domain, set_domain, out, on_w.
  all: params.
  all: first [apply params_one_valid | apply params_one | apply params_foldr | idtac]; params.
Qed.

Lemma params_report {A} e (o : A) : preserves params_ok (report e o).
Proof. unfold report. params. Qed.

Lemma params_handle d h req len : preserves params_ok (remote_handle_control_domain d h req len).
Proof. unfold remote_handle_control_domain. params. Qed.

(** C23: The parameters that requests store for a domain stay in range: whatever requests are
    made on sessions and handles, and whatever the remote side, the kernel and the session
    table answer, the priority of the remote threads stays between 1 and 255, their stack
    between 16 KiB and 8 MiB, the initial memory between 3 and 200 MiB, the kind of process is
    signed or unsigned, and a session name fits its field. A relative priority is added to the
    default one and clamped, for every 32-bit value. *)
Theorem params_in_range s :
  params_ok s ->
  (forall req len, params_ok (remote_session_control req len s).2) /\
  (forall req len, params_ok (remote_handle_control req len s).2) /\
  (forall h req len, params_ok (remote_handle64_control h req len s).2) /\
  (forall rel, -2147483648 <= rel < 2147483648 ->
     relative_priority rel = Z.max MIN_THREAD_PRIORITY (Z.min MAX_THREAD_PRIORITY (DEFAULT_UTHREAD_PRIORITY + rel))).
Proof.
  intros Hs. split_and!.
  - intros req len. revert s Hs. change (preserves params_ok (remote_session_control req len)). unfold remote_session_control, touch.
    params; try apply params_report; try apply params_request.
  - intros req len. revert s Hs. change (preserves params_ok (remote_handle_control req len)). unfold remote_handle_control.
    params; first [apply params_report | apply params_handle].
  - intros h req len. revert s Hs. change (preserves params_ok (remote_handle64_control h req len)). unfold remote_handle64_control.
    params; first [apply params_report | apply params_handle].
  - intros rel _. apply relative_priority_clamps.
Qed.

(** ** References *)

Lemma balanced_on_app {A} n (m : M (app W) A) : balanced n m -> balanced (S := ctl W) n (on_app m).
Proof. intros Hm s Ho Hs. specialize (Hm (ct_app s) Ho Hs). unfold on_app. by destruct (m (ct_app s)). Qed.

(** A computation on the handle table that writes no reference count. *)
Definition same_refs (p q : proc) : Prop := forall d, ref (hl q d) = ref (hl p d).
Lemma balanced_on_table {A} n (m : M proc A) : (forall p, same_refs p (m p).2) -> balanced (S := app W) n (on_table m).
Proof.
  intros Hm s Ho Hs. unfold on_table, on_ses, SessionIface.on_proc.
  change (ses s) with (mses (rt_mem (ap_rt s))) in *. destruct (mses (rt_mem (ap_rt s))) as [p w] eqn:E. cbn [fst snd] in *.
  pose proof (Hm p) as Hp. destruct (m p) as [r p']. cbn in Hp |- *.
  split; [intros d; unfold same_refs in Hp; rewrite Hp; apply Ho|done].
Qed.
Lemma same_refs_set d f p : (forall h, ref (f h) = ref h) -> same_refs p (set_hl d f p).
Proof.
  intros Hf x. destruct (hlist p) as [h|] eqn:E.
  - rewrite hl_set by (by eexists). destruct (decide (x = d)) as [->|]; [by rewrite Hf|done].
  - unfold set_hl, hl. cbn. by rewrite E.
Qed.
Lemma same_refs_trans p q r : same_refs p q -> same_refs q r -> same_refs p r.
Proof. intros H1 H2 d. by rewrite H2. Qed.
Lemma update_same_refs req d h a name p : same_refs p (fastrpc_update_module_list req d h a name p).2.
Proof.
  unfold fastrpc_update_module_list. destruct (if req <? 0 then None else list_req_of req) as [r|]; [|done].
  assert (Hc : forall w z p, same_refs p (set_hl d (count_step w h z) p)).
  { intros. apply same_refs_set. intros []; destruct w; cbn; by destruct (IS_CONST_HANDLE h). }
  destruct (is_prepend r).
  - unfold fastrpc_alloc_handle. munfold. destruct (a =? 0); [done|]. cbn -[set_hl].
    eapply same_refs_trans; [|apply Hc]. apply same_refs_set. intros []. by destruct (req_list r).
  - unfold fastrpc_free_handle. munfold. cbn -[set_hl].
    eapply same_refs_trans; [|apply Hc]. apply same_refs_set. intros []. by destruct (req_list r).
Qed.
Lemma balanced_update n req d h a name : balanced (S := app W) n (on_table (fastrpc_update_module_list req d h a name)).
Proof. apply balanced_on_table. intros. apply update_same_refs. Qed.
Lemma balanced_world {A} n (f : W -> A * W) : balanced (S := app W) n (on_world f).
Proof.
  intros s Ho Hs. unfold on_world, on_ses. change (ses s) with (mses (rt_mem (ap_rt s))) in *.
  destruct (mses (rt_mem (ap_rt s))) as [p w] eqn:E. cbn. destruct (f w). cbn. done.
Qed.
Lemma balanced_upd_hx n d f : balanced (S := app W) n (upd_hx d f).
Proof. intros s Ho Hs. done. Qed.
Hint Resolve balanced_on_app balanced_update balanced_world balanced_upd_hx : balanced.

Lemma balanced_get_const n c d : balanced (S := app W) n (get_const_handle calloc c d).
Proof. unfold get_const_handle. bal. Qed.
Lemma balanced_non_domain n d : balanced (S := app W) n (non_domain_calls d).
Proof. unfold non_domain_calls. bal. Qed.
Lemma balanced_w {A} n (f : W -> A * W) : balanced (S := ctl W) n (on_w f).
Proof. unfold on_w. apply balanced_on_app, balanced_world. Qed.
Lemma balanced_upd_hp n d f : balanced (S := ctl W) n (upd_hp d f).
Proof. intros s Ho Hs. done. Qed.
Lemma balanced_notif {A} n (m : M notif A) : balanced (S := ctl W) n (on_notif m).
Proof. intros s Ho Hs. unfold on_notif. by destruct (m _). Qed.
Lemma balanced_cap {A} n (m : M (capst W) A) : (forall h, preserves (fun t => hlist (cp_proc t) = h) m) -> balanced (S := ctl W) n (on_cap m).
Proof.
  intros Hm s Ho Hs. unfold on_cap. set (t := CapSt _ _ _). pose proof (Hm (hlist (cproc s)) t eq_refl) as Ht.
  destruct (m t) as [r x]. cbn [snd] in *.
  assert (Hr : forall d, ref (hl (cp_proc x) d) = ref (hl (cproc s) d)) by (intros d; unfold hl; by rewrite Ht).
  split; [intros d; change (0 <= ref (hl (cp_proc x) d) <= REF_MAX); rewrite Hr; apply Ho|exact Hr].
Qed.

(** Capability queries change at most the descriptors that were closed. *)
Definition has_hlist (h : option (gmap Z handle_list)) (t : capst W) : Prop := hlist (cp_proc t) = h.
Section cap_frame.
Context (h : option (gmap Z handle_list)).
Abbreviation keeps m := (preserves (has_hlist h) m).

Lemma keeps_open nd d : keeps (Cap.on_proc (fastrpc_session_open nd d)).
Proof. intros t Ht. unfold Cap.on_proc. by rewrite session_open_cases. Qed.
Lemma keeps_close d dv : dv <> -1 -> keeps (Cap.on_proc (fastrpc_session_close d dv)).
Proof.
  intros Hdv t Ht. unfold Cap.on_proc, has_hlist in *. destruct (hlist (cp_proc t)) as [hh|] eqn:E.
  - rewrite session_close_temp by (done || by eexists). cbn. by destruct (IS_SESSION_OPEN_ALREADY d (cp_proc t)); cbn; congruence.
  - unfold fastrpc_session_close. munfold. rewrite E. cbn. congruence.
Qed.
Lemma keeps_kernel (c : W -> io * W) : keeps (on_kernel c).
Proof. intros t Ht. unfold on_kernel. by destruct (c (cp_world t)). Qed.
Lemma keeps_caps f : keeps (set_caps f).
Proof. by intros t Ht. Qed.
Hint Resolve keeps_open keeps_kernel keeps_caps : keeps.
Lemma keeps_get_cap d a ptr : keeps (fastrpc_get_cap cap_ioctl open_device_node stat_ok open_file malloc_ok rproc_fuel d a ptr).
Proof.
  unfold fastrpc_get_cap. keep. apply keeps_close. match goal with H : negb (_ =? _) = true |- _ => apply negb_true_iff, Z.eqb_neq in H end. done.
Qed.
Hint Resolve keeps_get_cap : keeps.
Lemma keeps_class e : keeps (rpc_error_class cap_ioctl open_device_node stat_ok open_file malloc_ok rproc_fuel e).
Proof. unfold rpc_error_class, check_error_code_change_present. keep. Qed.
Lemma keeps_notif d : keeps (is_status_notif_version2_supported cap_ioctl open_device_node stat_ok open_file malloc_ok rproc_fuel d).
Proof. unfold is_status_notif_version2_supported, check_status_notif_version2_capability, capability_or_0. keep. Qed.
End cap_frame.

Lemma balanced_report {A} n e (o : A) : balanced n (report e o).
Proof. unfold report. bal. apply balanced_cap. intros h. apply keeps_class. Qed.
Hint Resolve balanced_get_const balanced_non_domain balanced_w balanced_upd_hp balanced_notif balanced_report : balanced.

Lemma balanced_set_param n d id l : balanced n (remote_set_param d id l).
Proof. unfold remote_set_param. bal. Qed.
Hint Resolve balanced_set_param : balanced.
Lemma balanced_thread n d p st : balanced n (store_domain_thread_params d p st).
Proof. unfold store_domain_thread_params, fastrpc_set_remote_uthread_params. bal. Qed.
Lemma balanced_unsigned n d e : balanced n (set_unsigned_pd_attribute d e).
Proof. unfold set_unsigned_pd_attribute. bal. Qed.
Lemma balanced_dump n d e : balanced n (set_pd_dump_attribute d e).
Proof. unfold set_pd_dump_attribute. bal. Qed.
Lemma balanced_initmem n d e : balanced n (store_domain_pd_initmem_size d e).
Proof. unfold store_domain_pd_initmem_size. bal. Qed.
Hint Resolve balanced_thread balanced_unsigned balanced_dump balanced_initmem : balanced.
Lemma balanced_pd_size n size d : balanced n (pd_initmem_size_of size d).
Proof. unfold pd_initmem_size_of. bal. Qed.
Lemma balanced_each n f ds : (forall d, balanced n (f d)) -> balanced n (each_domain f ds).
Proof. intros Hf. induction ds as [|d ds IH]; cbn [each_domain]; bal; done. Qed.
Lemma balanced_one_valid n d f : (forall d, balanced n (f d)) -> balanced n (one_valid_or_all d f).
Proof. intros Hf. unfold one_valid_or_all. bal; auto using balanced_each. Qed.
Lemma balanced_one n d f : (forall d, balanced n (f d)) -> balanced n (one_or_all d f).
Proof. intros Hf. unfold one_or_all. bal; auto using balanced_each. Qed.
Lemma balanced_touch n d : balanced (S := ctl W) n (touch d).
Proof. unfold touch. bal. Qed.
Hint Resolve balanced_touch : balanced.
Lemma balanced_kill n d : balanced n (fastrpc_dsp_process_clean d).
Proof. unfold fastrpc_dsp_process_clean. bal. Qed.
Lemma balanced_reserve n fuel ii jj name len : balanced n (reserve_loop fuel ii jj name len).
Proof. revert ii jj. induction fuel as [|fuel IH]; intros ii jj; cbn [reserve_loop]; bal. Qed.
Hint Resolve balanced_pd_size balanced_kill balanced_reserve : balanced.

(** Contexts open and close device nodes: they count no references. *)
Definition ctx_refs (p : proc) (g : gctx) : Prop := same_refs p (cx_proc g).
Section context_refs.
Context (p0 : proc).
Abbreviation same m := (preserves (ctx_refs p0) m).
Lemma same_on_proc {A} (m : M proc A) : (forall p, same_refs p (m p).2) -> same (Context.on_proc m).
Proof. intros Hm g Hg. unfold Context.on_proc. specialize (Hm (cx_proc g)). destruct (m _). eapply same_refs_trans; [exact Hg|exact Hm]. Qed.
Lemma same_open nd d p : same_refs p (fastrpc_session_open nd d p).2.
Proof. by rewrite session_open_cases. Qed.
Lemma same_close_session d dv p : same_refs p (fastrpc_session_close d dv p).2.
Proof.
  unfold fastrpc_session_close. munfold. destruct (hlist p); [|done]. destruct (_ && _); [done|]. destruct (_ && _); [|done].
  eapply (same_refs_trans p (set_closed _ p)); [done|]. apply same_refs_set. by intros [].
Qed.
Lemma same_close_sessions ids : forall dvs p, same_refs p (close_sessions ids dvs p).2.
Proof.
  induction ids as [|id ids IH]; intros dvs p; [done|]. destruct dvs as [|dv dvs]; [done|]. cbn [close_sessions]. munfold.
  destruct (dv =? 0); [apply IH|]. pose proof (same_close_session id INVALID_DEVICE p) as Hc.
  destruct (fastrpc_session_close id INVALID_DEVICE p) as [[[]|] p1]; [|done]. eapply same_refs_trans; [exact Hc|apply IH].
Qed.
Lemma same_deinit c : same (fastrpc_context_deinit c).
Proof. unfold fastrpc_context_deinit. keep; apply same_on_proc, same_close_sessions. Qed.
Lemma same_init addr arrays num : same (fastrpc_context_init addr arrays num).
Proof. unfold fastrpc_context_init. keep; apply same_deinit. Qed.
Lemma same_open_sessions ids : forall i,
  preserves (fun sl : gctx * option fastrpc_context => ctx_refs p0 sl.1) (open_sessions open_device_node i ids).
Proof.
  induction ids as [|id ids IH]; intros i; cbn [open_sessions]; [keep|]. keep. apply same_on_proc. intros; apply same_open.
Qed.
Hint Resolve same_deinit same_init same_open_sessions : keeps.
Lemma same_create addr arrays c : same (fastrpc_create_context mdctx_manage open_device_node addr arrays c).
Proof. unfold fastrpc_create_context. keep. match goal with |- preserves _ (from_option _ _ ?o) => destruct o end; keep. Qed.
Lemma same_destroy id : same (fastrpc_destroy_context mdctx_manage id).
Proof. unfold fastrpc_destroy_context. keep. Qed.
End context_refs.
Lemma balanced_on_context {A} n (m : M gctx A) :
  (forall p, preserves (ctx_refs p) m) -> balanced (S := ctl W) n (on_context m).
Proof.
  intros Hm s Ho Hs. unfold on_context. destruct (ct_cx s) as [[i t] f].
  pose proof (Hm (cproc s) (Gctx i t f (cproc s)) (fun _ => eq_refl)) as Ht. destruct (m _) as [r x]. cbn [snd] in *.
  split; [intros d; change (0 <= ref (hl (cx_proc x) d) <= REF_MAX); rewrite Ht; apply Ho|exact Ht].
Qed.
Lemma balanced_create n addr arrays c : balanced (S := ctl W) n (on_context (fastrpc_create_context mdctx_manage open_device_node addr arrays c)).
Proof. apply balanced_on_context. intros p. apply same_create. Qed.
Lemma balanced_destroy n id : balanced (S := ctl W) n (on_context (fastrpc_destroy_context mdctx_manage id)).
Proof. apply balanced_on_context. intros p. apply same_destroy. Qed.
Hint Resolve balanced_create balanced_destroy : balanced.

(** The requests that take down no session. *)
Definition plain (req : session_req) : bool := match req with SESSION_CLOSE _ => false | _ => true end.

Lemma balanced_foldr n (f : Z -> M (ctl W) unit) ds : (forall d, balanced n (f d)) ->
  balanced n (foldr (fun d k => _ ← f d; k) (mret tt) ds).
Proof. intros Hf. induction ds as [|d ds IH]; cbn [foldr]; bal; done. Qed.

Lemma balanced_request n req len : plain req = true -> balanced (S := ctl W * L) n (session_request req len).
Proof.
  destruct req; try done; intros _; cbn [session_request]; open_handlers; unfold named_domain, set_domain, out; cbv zeta beta; bal.
  all: lazymatch goal with
       | |- balanced _ (one_valid_or_all _ _) => apply balanced_one_valid; bal
       | |- balanced _ (one_or_all _ _) => apply balanced_one; bal
       | |- balanced _ (each_domain _ _) => apply balanced_each; bal
       | |- balanced _ (foldr _ _ _) => apply balanced_foldr; bal
       | _ => idtac
       end.
  all: apply balanced_cap; intros h; apply keeps_notif.
Qed.

(** The domain on which the reference is given back. *)
Definition put_domain (req : session_req) (len : Z) : Z :=
  let fits := len =? sizeof_session_req req in
  match req with
  | REMOTE_PROCESS_KILL (Some d) | REMOTE_PROCESS_EXCEPTION (Some d) | REMOTE_PROCESS_TYPE (Some d) => if fits then d else DEFAULT_DOMAIN_ID
  | REGISTER_STATUS_NOTIFICATIONS (Some r) => if fits then nr_domain r else DEFAULT_DOMAIN_ID
  | RESERVE_NEW_SESSION (Some r) =>
    if fits && is_found (rs_domain r) && is_found (rs_session r) && (0 <? rs_domain_len r) && (0 <? rs_session_len r)
    then get_domain_from_name (rs_domain r) DOMAIN_NAME_STAND_ALONE else DEFAULT_DOMAIN_ID
  | GET_EFFECTIVE (Some e) =>
    if fits && is_found (ed_domain e) && (0 <? ed_domain_len e) && (ed_session_id e <? NUM_SESSIONS)
    then get_domain_from_name (ed_domain e) DOMAIN_NAME_STAND_ALONE else DEFAULT_DOMAIN_ID
  | GET_URI (Some g) =>
    if fits && is_found (gu_domain g) && (0 <? gu_domain_len g) && (gu_session_id g <? NUM_SESSIONS)
    then get_domain_from_name (gu_domain g) DOMAIN_NAME_STAND_ALONE else DEFAULT_DOMAIN_ID
  | _ => DEFAULT_DOMAIN_ID
  end.

Definition ends_at (y : Z) (sl : ctl W * L) : Prop := sl.2.1 = y.
Lemma ends_lift {A} y (m : M (ctl W) A) : preserves (ends_at y) (lift m).
Proof. intros [s l] Hs. unfold lift. cbn. by destruct (m s). Qed.
Lemma ends_out y o : preserves (ends_at y) (out o).
Proof. by intros [s l] Hs. Qed.
Hint Resolve ends_lift ends_out : keeps.

Lemma wp_ends {A} y (m : M (ctl W * L) A) sl : preserves (ends_at y) m -> ends_at y sl -> wp m (fun _ => ends_at y) (fun _ => ends_at y) sl.
Proof. intros Hm Hs. specialize (Hm sl Hs). unfold wp. by destruct (m sl) as [[]]. Qed.
Lemma wp_named name (Q : Z -> ctl W * L -> Prop) R s l :
  (forall o, Q (get_domain_from_name name DOMAIN_NAME_STAND_ALONE) (s, (get_domain_from_name name DOMAIN_NAME_STAND_ALONE, o))) ->
  (forall e o, R e (s, (get_domain_from_name name DOMAIN_NAME_STAND_ALONE, o))) -> wp (named_domain name) Q R (s, l).
Proof. intros HQ HR. unfold named_domain, set_domain. repeat wp_step; auto. Qed.

Lemma request_put_domain req len s : ends_at (put_domain req len) (session_request req len (s, (DEFAULT_DOMAIN_ID, NOTHING))).2.
Proof.
  assert (Hstart : ends_at DEFAULT_DOMAIN_ID (s, (DEFAULT_DOMAIN_ID, NOTHING))) by done.
  assert (Hkeep : forall m : M (ctl W * L) unit, preserves (ends_at DEFAULT_DOMAIN_ID) m -> ends_at DEFAULT_DOMAIN_ID (m (s, (DEFAULT_DOMAIN_ID, NOTHING))).2) by auto.
  destruct req as [p|p|p|p|p|p|p|p|p|p|p|p|p|p|p|req]; cbn [session_request put_domain]; open_handlers; try (apply Hkeep; keep; fail); clear Hkeep.
  all: apply wp_run_state; apply wp_bind, wp_VERIFYC; intros E; rewrite E; [|by destruct p]; (destruct p as [p|]; [|done]).
  - unfold set_domain. do 2 wp_step. apply wp_ends; [keep|done].
  - unfold set_domain. do 2 wp_step. apply wp_ends; [keep|done].
  - unfold set_domain. do 2 wp_step. apply wp_ends; [keep|done].
  - unfold set_domain. do 2 wp_step. apply wp_ends; [keep|done].
  - destruct (rs_domain p) as [name|]; [|done]. destruct (rs_session p) as [sn|]; [|done]. cbn [is_found andb].
    apply wp_bind, wp_VERIFYC; intros E2; rewrite E2; [|done]. apply wp_bind, wp_named; [|done]. intros o. apply wp_ends; [keep|done].
  - apply wp_bind, wp_VERIFYC; intros E2; cbn [andb]; rewrite E2; [|done]. apply wp_bind, wp_named; [|done]. intros o. apply wp_ends; [keep|done].
  - apply wp_bind, wp_VERIFYC; intros E2; cbn [andb]; rewrite E2; [|done]. apply wp_bind, wp_named; [|done]. intros o. apply wp_ends; [keep|done].
Qed.

Lemma ctl_ses' (s : ctl W) : set_ses (cproc s, (ses s).2) s = s.
Proof. destruct s as [[[[? ? ? ? ? ? [p w]] ? ? ? ?] ? ?] ? ? ? ? ? ?]. done. Qed.
Lemma sref_ref (s : ctl W) x : sref (ses s) x = ref (chl s x).
Proof. done. Qed.

(** One more or one less. *)
Definition got (d : Z) (f : Z -> Z) (x : Z) : Z := if decide (x = d) then f x + 1 else f x.
Definition given_back (d : Z) (f : Z -> Z) (x : Z) : Z := if decide (x = d) then Z.max 0 (f x - 1) else f x.

Lemma ctl_get (s : ctl W) d :
  sess_ok (ses s) -> sref (ses s) d < REF_MAX -> is_Some (hlist (cproc s)) -> state (chl s d) <> FASTRPC_DOMAIN_STATE_DEINIT ->
  exists s1, on_ses (session_get d) s = (Go 0, s1) /\ sess_ok (ses s1) /\ (forall x, sref (ses s1) x = got d (sref (ses s)) x) /\ ct_oob s1 = ct_oob s /\
    is_Some (hlist (cproc s1)) /\ ct_hp s1 = ct_hp s /\ ap_hx (ct_app s1) = ap_hx (ct_app s).
Proof.
  intros Ho Hlt Hs Hst. destruct (get_sref d (ses s) Ho Hlt) as (e & k & E & Hok & Hk).
  assert (He : e = 0 /\ is_Some (hlist k.1)).
  { change (session_get d (ses s)) with (SessionIface.on_proc (fastrpc_session_get d) (ses s)) in E. unfold SessionIface.on_proc in E.
    change (ses s).1 with (cproc s) in E. rewrite session_get_ok in E by done. injection E as <- <-. split; [done|]. cbn.
    destruct (tlsKey (cproc s)); apply (hlist_set d _ _ Hs). }
  destruct He as [-> Hh]. exists (set_ses k s). unfold on_ses. rewrite E. split; [done|]. split; [done|]. split; [|split; [done|split; [exact Hh|done]]].
  intros x. change (sref k x = got d (sref (ses s)) x). rewrite Hk. unfold got.
  destruct (decide (x = d)) as [->|]; [by rewrite decide_True|by rewrite decide_False by tauto].
Qed.

Lemma ctl_put (s : ctl W) d : sess_ok (ses s) -> is_Some (hlist (cproc s)) ->
  exists r s1, on_ses (session_put d) s = (Go r, s1) /\ sess_ok (ses s1) /\ (forall x, sref (ses s1) x = given_back d (sref (ses s)) x) /\ ct_oob s1 = ct_oob s /\
    ct_hp s1 = ct_hp s /\ ap_hx (ct_app s1) = ap_hx (ct_app s) /\ is_Some (hlist (cproc s1)).
Proof.
  intros Ho Hs. destruct (decide (sref (ses s) d = 0)) as [Hz|Hz].
  - eexists _, s. split; [|split; [done|split; [|done]]].
    + unfold on_ses. change (session_put d (ses s)) with (SessionIface.on_proc (fastrpc_session_put d) (ses s)). unfold SessionIface.on_proc.
      change (ses s).1 with (cproc s). rewrite session_put_ok by done. change (sref (ses s) d) with (ref (hl (cproc s) d)) in Hz. rewrite Hz. cbn [Z.ltb Z.compare].
      by rewrite ctl_ses'.
    + intros x. unfold given_back. destruct (decide (x = d)) as [->|]; [lia|done].
  - destruct (put_sref d (ses s) Ho Hz) as (r & k & E & Hok & Hk). exists r, (set_ses k s). unfold on_ses. rewrite E.
    assert (Hh : is_Some (hlist k.1)).
    { change (session_put d (ses s)) with (SessionIface.on_proc (fastrpc_session_put d) (ses s)) in E. unfold SessionIface.on_proc in E.
      change (ses s).1 with (cproc s) in E. rewrite session_put_ok in E by done. injection E as _ <-. cbn. destruct (0 <? _); [by apply hlist_set|done]. }
    split; [done|]. split; [done|]. split; [|split_and!; done]. intros x. change (sref k x = given_back d (sref (ses s)) x). rewrite Hk. unfold given_back.
    destruct (decide (x = d)) as [->|]; [|done]. pose proof (sref_range (ses s) d Ho). lia.
Qed.

(** Also when there is no table: then there are no counts. *)
Lemma ctl_put_any (s : ctl W) d : sess_ok (ses s) ->
  exists r s1, on_ses (session_put d) s = (Go r, s1) /\ sess_ok (ses s1) /\ (forall x, sref (ses s1) x = given_back d (sref (ses s)) x) /\ ct_oob s1 = ct_oob s.
Proof.
  intros Ho. destruct (hlist (cproc s)) as [h|] eqn:E.
  - destruct (ctl_put s d Ho) as (r & s1 & Ep & Ho1 & Hr & Hb & _); [by eexists|]. by exists r, s1.
  - exists AEE_ENOTINITIALIZED, s. split_and!; [|done| |done].
    + unfold on_ses. change (session_put d (ses s)) with (SessionIface.on_proc (fastrpc_session_put d) (ses s)). unfold SessionIface.on_proc.
      change (ses s).1 with (cproc s). unfold fastrpc_session_put. munfold. rewrite E. by rewrite ctl_ses'.
    + assert (Hz : forall x, sref (ses s) x = 0) by (intros x; change (ref (hl (cproc s) x) = 0); by rewrite hl_none).
      intros x. unfold given_back. rewrite Hz. by destruct (decide (x = d)).
Qed.

(** A session table that is in place: the initialiser has run. *)
Lemma ctl_init (s : ctl W) : is_Some (hlist (cproc s)) -> pl_err = AEE_SUCCESS -> on_ses fastrpc_init_once s = (Go 0, s).
Proof.
  intros [h Hh] Hpl. unfold on_ses. change (fastrpc_init_once (ses s)) with (init_once (ses s)). unfold init_once, SessionIface.on_proc. munfold.
  change (ses s).1 with (cproc s). rewrite Hh. cbn. rewrite Hpl. exact (f_equal (pair (Go 0)) (ctl_ses' s)).
Qed.

(** Closing sessions never takes a reference: every count stays in range and at most what it was. *)
Definition low {T K} `{HasSession T K} `{SessionLaws K} (f : Z -> Z) (s : T) : Prop :=
  sess_ok (ses s) /\ forall x, sref (ses s) x <= f x /\ sref (ses s) x < REF_MAX.
Definition lowers (p q : proc) : Prop :=
  (forall x, 0 <= ref (hl p x) <= REF_MAX) -> forall x, 0 <= ref (hl q x) <= ref (hl p x).
Lemma lowers_same p q : same_refs p q -> lowers p q.
Proof. intros Hs Hp x. rewrite Hs. specialize (Hp x). lia. Qed.
Lemma lowers_set d h p : (0 <= ref (hl p d) -> 0 <= ref (h (hl p d)) <= ref (hl p d)) -> lowers p (set_hl d h p).
Proof.
  intros Hh Hp x. destruct (hlist p) as [t|] eqn:E.
  - rewrite hl_set by (by eexists). destruct (decide (x = d)) as [->|]; [apply Hh, Hp|specialize (Hp x); lia].
  - unfold set_hl, hl. cbn. rewrite E. cbn. lia.
Qed.
Section closing_refs.
Context (f : Z -> Z).
Abbreviation lowering m := (preserves (low f) m).

Lemma low_balanced {T K A} `{HasSession T K} `{SessionLaws K} (m : M T A) : balanced 0 m -> lowering m.
Proof.
  intros Hm s [Ho Hs]. destruct (Hm s Ho) as [Ho' Hr]; [intros x; specialize (Hs x); lia|].
  split; [done|]. intros x. rewrite Hr. apply Hs.
Qed.
Lemma low_on_app {A} (m : M (app W) A) : lowering m -> lowering (on_app m).
Proof. intros Hm s Hs. specialize (Hm (ct_app s) Hs). unfold on_app. by destruct (m (ct_app s)). Qed.
Lemma low_table {A} (m : M proc A) : (forall p, lowers p (m p).2) -> lowering (on_table m : M (app W) A).
Proof.
  intros Hm s [Ho Hs]. unfold on_table, on_ses, SessionIface.on_proc. unfold low in *.
  change (ses s) with (mses (rt_mem (ap_rt s))) in *. destruct (mses (rt_mem (ap_rt s))) as [p w] eqn:E. cbn [fst snd] in *.
  pose proof (Hm p Ho) as Hp. destruct (m p) as [r p']. cbn [snd] in Hp.
  split; intros d; specialize (Hs d); specialize (Hp d); specialize (Ho d); cbn in *; lia.
Qed.
Lemma low_put d : lowering (put_ref d : M (app W) unit).
Proof.
  unfold put_ref. apply preserves_bind; [|intros; apply preserves_ret]. apply (low_table (fastrpc_session_put d)).
  intros p. unfold fastrpc_session_put. munfold. destruct (hlist p); [|by apply lowers_same]. destruct (0 <? ref (hl p d)) eqn:E; [|by apply lowers_same].
  apply lowers_set. apply Z.ltb_lt in E. cbn. lia.
Qed.
Lemma low_upd_hl d h : (forall x, 0 <= ref x -> 0 <= ref (h x) <= ref x) -> lowering (upd_hl d h : M (app W) unit).
Proof. intros Hh. unfold upd_hl. apply low_table. intros p. apply lowers_set. auto. Qed.
Lemma low_clear req d : lowering (on_table (fastrpc_clear_handle_list req d) : M (app W) _).
Proof.
  apply low_table. intros p. unfold fastrpc_clear_handle_list. munfold.
  destruct (req =? _); [|destruct (req =? _); [|destruct (req =? _)]]; first [apply lowers_set; cbn; lia | by apply lowers_same].
Qed.
Lemma low_close_node dv : lowering (close_device_node dv : M (app W) unit).
Proof. unfold close_device_node. apply low_table. intros p. by apply lowers_same. Qed.
Lemma low_revdone d : lowering (on_rt (modify (fun s => set_revdone (rt_revdone s ∖ {[ d ]}) s)) : M (app W) unit).
Proof. by intros s Hs. Qed.
Lemma low_mem_close d : lowering (on_mem_a (fastrpc_mem_close d) : M (app W) Z).
Proof. intros s Hs. unfold on_mem_a, on_rt, on_mem, fastrpc_mem_close. munfold. by destruct (IS_VALID_EFFECTIVE_DOMAIN_ID d). Qed.
Lemma low_bal {A} (m : M (app W) A) : balanced 0 m -> lowering m.
Proof. apply low_balanced. Qed.
Lemma low_context d : lowering (on_table (set_thread_context d) : M (app W) unit).
Proof. apply low_table. intros p. unfold set_thread_context. munfold. destruct (tlsKey p); by apply lowers_same. Qed.
Hint Resolve low_put low_clear low_close_node low_revdone low_mem_close low_context : keeps.
Hint Extern 1 (preserves _ (on_world _)) => apply low_bal, balanced_world : keeps.
Hint Extern 1 (preserves _ (get_const_handle _ _ _)) => apply low_bal, balanced_get_const : keeps.
Hint Extern 1 (preserves _ (non_domain_calls _ _)) => apply low_bal, balanced_non_domain : keeps.
Hint Extern 1 (preserves _ (upd_hx _ _)) => apply low_bal, balanced_upd_hx : keeps.
Hint Extern 1 (preserves _ (on_table (fastrpc_update_module_list _ _ _ _ _))) => apply low_bal, balanced_update : keeps.
Lemma low_domain_deinit d : lowering (domain_deinit calloc adsp_current_process1_exit adsp_current_process_exit d).
Proof. unfold domain_deinit, get_adsp_current_process1_handle. keep; apply low_upd_hl; intros []; cbn; lia. Qed.
Lemma low_close_result e d : lowering (close_result e d : M (app W) Z).
Proof. unfold close_result. keep. Qed.
Lemma low_close_remote d h : lowering (close_remote calloc remotectl1_close1 remotectl_close d h).
Proof. unfold close_remote, get_remotectl1_handle. keep. Qed.
Hint Resolve low_domain_deinit low_close_result low_close_remote : keeps.
Lemma low_close_domain d h : lowering (remote_handle_close_domain calloc remotectl1_close1 remotectl_close uri_alloc d h).
Proof. unfold remote_handle_close_domain. keep. Qed.
Hint Resolve low_close_domain : keeps.
Lemma low_close h : lowering (remote_handle_close calloc remotectl1_close1 remotectl_close uri_alloc h).
Proof. unfold remote_handle_close. keep. Qed.
Lemma low_close64 h : lowering (remote_handle64_close calloc adsp_current_process1_exit adsp_current_process_exit remotectl1_close1 remotectl_close uri_alloc h).
Proof. unfold remote_handle64_close. keep. Qed.
Hint Resolve low_close low_close64 low_on_app : keeps.
Lemma low_walk fuel w d body pn pnn : (forall hi, lowering (body hi)) -> lowering (walk fuel w d body pn pnn).
Proof. intros Hb. revert pn pnn. induction fuel as [|fuel IH]; intros pn pnn; cbn [walk]; keep; try apply Hb; try apply IH; done. Qed.
Lemma low_close_session d : lowering (close_domain_session d).
Proof. unfold close_domain_session, walk_list, on_w, close_reverse_handle. keep; apply low_walk; intros; keep. Qed.
Lemma low_each g ds : (forall d, lowering (g d)) -> lowering (each_domain g ds).
Proof. intros Hg. induction ds as [|d ds IH]; cbn [each_domain]; keep; done. Qed.
Lemma low_one_valid d g : (forall d, lowering (g d)) -> lowering (one_valid_or_all d g).
Proof. intros Hg. unfold one_valid_or_all. keep; auto using low_each. Qed.
Hint Resolve low_close_session low_each low_one_valid : keeps.
Lemma low_session_close p len : preserves (fun sl : ctl W * L => low f sl.1) (session_request (SESSION_CLOSE p) len).
Proof. cbn [session_request]. keep. Qed.
End closing_refs.

(** After the request: the reference goes back on [y]. *)
Lemma references_tail y nErr (o : session_out) (s : ctl W) f :
  sess_ok (ses s) -> (forall x, sref (ses s) x = f x) -> (forall x, f x < REF_MAX) ->
  let s' := ((_ ← touch y; _ ← on_ses (session_put y); report nErr o) s).2 in
  (forall x, sref (ses s') x = given_back y f x) /\ (IS_VALID_EFFECTIVE_DOMAIN_ID y = false -> y ∈ ct_oob s').
Proof.
  intros Ho Hf Hmax s'.
  assert (Ht : exists s2, touch y s = (Go tt, s2) /\ ses s2 = ses s /\ cproc s2 = cproc s /\ (IS_VALID_EFFECTIVE_DOMAIN_ID y = false -> y ∈ ct_oob s2)).
  { unfold touch. destruct (IS_VALID_EFFECTIVE_DOMAIN_ID y) eqn:Ey; (eexists; split; [reflexivity|]); [done|]. split_and!; try done. intros _. cbn. by left. }
  destruct Ht as (s2 & Et & Es & Ec & Hoob). destruct (ctl_put_any s2 y) as (r & s3 & Ep & Ho3 & Hr3 & Eo3); [by rewrite Es|].
  assert (Hr : forall x, sref (ses s3) x = given_back y f x) by (intros x; rewrite Hr3, Es; unfold given_back; by rewrite !Hf).
  destruct (balanced_report 0 nErr o s3 Ho3) as [_ Hrep].
  { intros x. rewrite Hr. unfold given_back, REF_MAX in *. specialize (Hmax x). destruct (decide (x = y)); lia. }
  assert (Es' : s' = (report nErr o s3).2).
  { unfold s', mbind, M_bind. rewrite Et, Ep. done. }
  rewrite Es'. split; [intros x; by rewrite Hrep|].
  intros Hy. assert (Hb : ct_oob (report nErr o s3).2 = ct_oob s3); [|rewrite Hb, Eo3; by apply Hoob].
  unfold report. munfold. destruct (negb (nErr =? AEE_SUCCESS)); [|done]. unfold on_cap. by destruct (rpc_error_class _ _ _ _ _ _ _ _) as [[|]].
Qed.

(** C21: Where a request gives its reference back. [remote_session_control] takes a reference
    on the default domain and gives one back on the domain that the request names: for
    requests about another domain the default domain keeps a reference and the other one loses
    one that it may need; a name that is unknown makes it write before the table of domains.
    Every other reference, and every reference in the requests that name no domain, is as
    before the call. Closing sessions gives back what the closed handles held and puts the
    count of a domain that is taken down to zero: it leaves no count above what it was. *)
Theorem session_references s req len :
  sess_ok (ses s) -> (forall x, sref (ses s) x < REF_MAX - 1) -> is_Some (hlist (cproc s)) -> pl_err = AEE_SUCCESS ->
  state (chl s DEFAULT_DOMAIN_ID) <> FASTRPC_DOMAIN_STATE_DEINIT ->
  let s' := (remote_session_control req len s).2 in
  let y := put_domain req len in
  match req with
  | SESSION_CLOSE _ => forall x, sref (ses s') x <= sref (ses s) x
  | _ => forall x, sref (ses s') x = given_back y (got DEFAULT_DOMAIN_ID (sref (ses s))) x
  end /\
  (y = DEFAULT_DOMAIN_ID -> plain req = true -> forall x, sref (ses s') x = sref (ses s) x) /\
  (IS_VALID_EFFECTIVE_DOMAIN_ID y = false -> y ∈ ct_oob s').
Proof.
  intros Ho Hlt Hs Hpl Hst s' y. set (f := got DEFAULT_DOMAIN_ID (sref (ses s))).
  assert (Hback : forall x, given_back DEFAULT_DOMAIN_ID f x = sref (ses s) x).
  { intros x. unfold given_back, f, got. pose proof (sref_range (ses s) x Ho). destruct (decide (x = DEFAULT_DOMAIN_ID)); lia. }
  enough (Hw : exists g, (forall x, g x <= f x /\ (plain req = true -> g x = f x)) /\ (forall x, sref (ses s') x = given_back y g x) /\
    (IS_VALID_EFFECTIVE_DOMAIN_ID y = false -> y ∈ ct_oob s')).
  { destruct Hw as (g & Hg & Hr & Hoob).
    assert (Hp : plain req = true -> forall x, sref (ses s') x = given_back y f x).
    { intros Hp x. rewrite Hr. unfold given_back. by rewrite !(proj2 (Hg _) Hp). }
    split; [|split; [intros Ey Hpl' x; by rewrite Hp, Ey, Hback|done]].
    destruct req; try (by apply Hp). intros x. rewrite Hr, <- Hback. change y with DEFAULT_DOMAIN_ID. unfold given_back. destruct (Hg x). destruct (decide _); lia. }
  destruct (ctl_get s DEFAULT_DOMAIN_ID) as (s1 & Eg & Ho1 & Hr1 & _ & _); [done|specialize (Hlt DEFAULT_DOMAIN_ID); lia|done..|].
  assert (Hmax : forall x, sref (ses s1) x < REF_MAX) by (intros x; rewrite Hr1; unfold got; specialize (Hlt x); destruct (decide _); lia).
  pose proof (request_put_domain req len s1) as Hy.
  assert (Hreq : sess_ok (ses (session_request req len (s1, (DEFAULT_DOMAIN_ID, NOTHING))).2.1) /\
    forall x, sref (ses (session_request req len (s1, (DEFAULT_DOMAIN_ID, NOTHING))).2.1) x <= sref (ses s1) x /\
      (plain req = true -> sref (ses (session_request req len (s1, (DEFAULT_DOMAIN_ID, NOTHING))).2.1) x = sref (ses s1) x)).
  { destruct (plain req) eqn:Hp.
    - destruct (balanced_request 0 req len Hp (s1, (DEFAULT_DOMAIN_ID, NOTHING)) Ho1) as [Ho2 Hr2]; [intros x; specialize (Hmax x); change (sref (ses s1) x < REF_MAX - 0); lia|].
      split; [exact Ho2|]. intros x. specialize (Hr2 x). change (sref (ses (session_request req len (s1, (DEFAULT_DOMAIN_ID, NOTHING))).2.1) x = sref (ses s1) x) in Hr2. by rewrite Hr2.
    - destruct req; try done. destruct (low_session_close (sref (ses s1)) p len (s1, (DEFAULT_DOMAIN_ID, NOTHING))) as [Ho2 Hr2].
      { split; [done|]. intros x. split; [done|apply Hmax]. }
      split; [exact Ho2|]. intros x. split; [apply Hr2|done]. }
  destruct (session_request req len (s1, (DEFAULT_DOMAIN_ID, NOTHING))) as [o [s2 [d l]]] eqn:Er. cbn [snd fst] in *.
  destruct Hreq as [Ho2 Hr2]. change (d = y) in Hy. subst d.
  assert (E : exists nErr, remote_session_control req len s = (_ ← touch y; _ ← on_ses (session_put y); report nErr l) s2).
  { exists (match o with Go _ => AEE_SUCCESS | Bail e => e end). unfold remote_session_control. unfold mbind at 1, M_bind at 1. rewrite (ctl_init s) by done.
    change (negb (0 =? AEE_SUCCESS)) with false. cbv iota. unfold mbind at 1, M_bind at 1. rewrite Eg. change (negb (0 =? AEE_SUCCESS)) with false. cbv iota.
    unfold mbind at 1, M_bind at 1. unfold with_locals at 1. rewrite Er. by destruct o. }
  destruct E as (nErr & E). exists (sref (ses s2)). split.
  { intros x. destruct (Hr2 x) as [H1 H2]. rewrite Hr1 in H1, H2. done. }
  unfold s'. rewrite E. apply references_tail; [done|done|].
  intros x. destruct (Hr2 x) as [H1 _]. specialize (Hmax x). lia.
Qed.

(** What a request returns: its own code and output, in the state it left but for references
    and capabilities. *)
Lemma class_go e (t : capst W) : is_Some (hlist (cp_proc t)) ->
  exists r t', rpc_error_class cap_ioctl open_device_node stat_ok open_file malloc_ok rproc_fuel e t = (Go r, t').
Proof.
  intros Hs. unfold rpc_error_class, check_error_code_change_present. unfold mbind, M_bind, gets, set_caps, modify, mret, M_ret.
  destruct (_ =? -1); [|by eexists _, _].
  destruct (get_cap_effect cap_ioctl open_device_node stat_ok open_file malloc_ok rproc_fuel DEFAULT_DOMAIN_ID DRIVER_ERROR_CODE_CHANGE true t Hs) as (e1 & c & w & E).
  rewrite E. destruct (_ =? 0); by eexists _, _.
Qed.

Definition code_of (o : outcome unit) : Z := match o with Go _ => AEE_SUCCESS | Bail e => e end.

Lemma control_run s req len :
  sess_ok (ses s) -> (forall x, sref (ses s) x < REF_MAX - 1) -> is_Some (hlist (cproc s)) -> pl_err = AEE_SUCCESS ->
  state (chl s DEFAULT_DOMAIN_ID) <> FASTRPC_DOMAIN_STATE_DEINIT ->
  exists s1, ct_hp s1 = ct_hp s /\ ap_hx (ct_app s1) = ap_hx (ct_app s) /\ sess_ok (ses s1) /\ is_Some (hlist (cproc s1)) /\
    forall o s2 d l, session_request req len (s1, (DEFAULT_DOMAIN_ID, NOTHING)) = (o, (s2, (d, l))) -> sess_ok (ses s2) -> is_Some (hlist (cproc s2)) ->
      exists s', remote_session_control req len s = (Go (code_of o, l), s') /\ ct_hp s' = ct_hp s2 /\ ap_hx (ct_app s') = ap_hx (ct_app s2).
Proof.
  intros Ho Hlt Hs Hpl Hst.
  destruct (ctl_get s DEFAULT_DOMAIN_ID) as (s1 & Eg & Ho1 & _ & _ & Hh1 & Ehp & Ehx); [done|specialize (Hlt DEFAULT_DOMAIN_ID); lia|done..|].
  exists s1. split_and!; [done..|]. intros o s2 d l Er Ho2 Hh2.
  set (s3 := (touch d s2).2).
  assert (E3 : touch d s2 = (Go tt, s3) /\ ses s3 = ses s2 /\ ct_hp s3 = ct_hp s2 /\ ct_app s3 = ct_app s2).
  { unfold s3, touch. by destruct (IS_VALID_EFFECTIVE_DOMAIN_ID d). }
  destruct E3 as (E3 & Es3 & Ehp3 & Eapp3).
  destruct (ctl_put s3 d) as (r & s4 & Ep & _ & _ & _ & Ehp4 & Ehx4 & Hh4); [by rewrite Es3|unfold cproc; by rewrite Eapp3|].
  set (s5 := (report (code_of o) l s4).2).
  assert (E5 : report (code_of o) l s4 = (Go (code_of o, l), s5) /\ ct_hp s5 = ct_hp s4 /\ ap_hx (ct_app s5) = ap_hx (ct_app s4)).
  { unfold s5, report. unfold mbind, M_bind, mret, M_ret. destruct (negb (code_of o =? AEE_SUCCESS)); [|done]. unfold on_cap.
    destruct (class_go (code_of o) (CapSt (ct_caps s4) (cproc s4) (world (ct_app s4)))) as (r1 & t1 & ->); [done|]. done. }
  destruct E5 as (E5 & Ehp5 & Ehx5). exists s5. split; [|rewrite Ehp5, Ehp4, Ehp3, Ehx5, Ehx4, Eapp3; done].
  unfold remote_session_control. unfold mbind at 1, M_bind at 1. rewrite (ctl_init s) by done.
  change (negb (0 =? AEE_SUCCESS)) with false. cbv iota. unfold mbind at 1, M_bind at 1. rewrite Eg. change (negb (0 =? AEE_SUCCESS)) with false. cbv iota.
  unfold mbind at 1, M_bind at 1. unfold with_locals at 1. rewrite Er.
  assert (E : (match o with Go _ => (Go (AEE_SUCCESS, (d, l)), s2) | Bail e => (Go (e, (d, l)), s2) end) = (Go (code_of o, (d, l)) : outcome (Z * L), s2)) by by destruct o.
  rewrite E. cbn beta iota. unfold mbind at 1, M_bind at 1. rewrite E3. unfold mbind, M_bind. by rewrite Ep.
Qed.

(** ** Reserving a session *)

(** The first session of a domain, after the default one, that is free. *)
Definition free_session (d : Z) (s : ctl W) : option Z :=
  head (filter (fun j => is_session_reserved (hxof (ct_app s) (d + NUM_DOMAINS * j)) = false) [1; 2; 3]).

Definition reserved_state (ii : Z) (name : list Z) (len : Z) (s : ctl W) : ctl W :=
  set_hp ii (set_sessionname (strlcpy (Z.min len (MAX_DSPPD_NAMELEN - 1)) name)) (set_app (set_hx ii (set_reserved true) (ct_app s)) s).

Lemma reserve_loop_spec d name len s : 0 <= d < NUM_DOMAINS ->
  reserve_loop (Z.to_nat NUM_SESSIONS) (d + NUM_DOMAINS) 1 name len s =
    match free_session d s with
    | Some j => (Go (Some (d + NUM_DOMAINS * j, j)), reserved_state (d + NUM_DOMAINS * j) name len s)
    | None => (Go None, s)
    end.
Proof.
  intros Hd. unfold NUM_DOMAINS in *. change (Z.to_nat NUM_SESSIONS) with 4%nat. unfold free_session, NUM_DOMAINS.
  replace (d + 8) with (d + 8 * 1) by lia.
  assert (Hv : forall z, IS_VALID_EFFECTIVE_DOMAIN_ID z = (0 <=? z) && (z <? 32)) by done.
  cbn [reserve_loop]. unfold NUM_DOMAINS.
  replace (d + 8 * 1 + 8) with (d + 8 * 2) by lia. replace (d + 8 * 2 + 8) with (d + 8 * 3) by lia.
  rewrite !Hv. rewrite !(proj2 (Z.leb_le 0 _)) by lia. rewrite !(proj2 (Z.ltb_lt (_ + 8 * _) 32)) by lia.
  rewrite (proj2 (Z.ltb_ge (d + 8 * 3 + 8) 32)) by lia.
  cbn [andb]. unfold mbind, M_bind, gets, mret, M_ret. rewrite !filter_cons, filter_nil.
  destruct (is_session_reserved (hxof (ct_app s) (d + 8 * 1))) eqn:E1; cbn [negb]; [rewrite decide_False by done|by rewrite decide_True by done].
  destruct (is_session_reserved (hxof (ct_app s) (d + 8 * 2))) eqn:E2; cbn [negb]; [rewrite decide_False by done|by rewrite decide_True by done].
  destruct (is_session_reserved (hxof (ct_app s) (d + 8 * 3))) eqn:E3; cbn [negb]; [by rewrite decide_False by done|by rewrite decide_True by done].
Qed.

Lemma free_session_spec d s j : free_session d s = Some j ->
  1 <= j <= 3 /\ is_session_reserved (hxof (ct_app s) (d + NUM_DOMAINS * j)) = false /\
  forall i, 1 <= i < j -> is_session_reserved (hxof (ct_app s) (d + NUM_DOMAINS * i)) = true.
Proof.
  unfold free_session. rewrite !filter_cons, filter_nil.
  destruct (decide (is_session_reserved (hxof (ct_app s) (d + NUM_DOMAINS * 1)) = false)) as [E1|E1];
    [|destruct (decide (is_session_reserved (hxof (ct_app s) (d + NUM_DOMAINS * 2)) = false)) as [E2|E2];
      [|destruct (decide (is_session_reserved (hxof (ct_app s) (d + NUM_DOMAINS * 3)) = false)) as [E3|E3]]];
    intros [= <-]; (split; [lia|split; [done|]]); intros i Hi.
  - lia.
  - assert (i = 1) as -> by lia. by apply not_false_is_true.
  - assert (i = 1 \/ i = 2) as [-> | ->] by lia; by apply not_false_is_true.
Qed.
Lemma free_session_none d s : free_session d s = None -> forall i, 1 <= i <= 3 -> is_session_reserved (hxof (ct_app s) (d + NUM_DOMAINS * i)) = true.
Proof.
  unfold free_session. rewrite !filter_cons, filter_nil. intros E i Hi.
  repeat (destruct (decide (is_session_reserved _ = false)); [done|]).
  assert (i = 1 \/ i = 2 \/ i = 3) as [-> |[-> | ->]] by lia; by apply not_false_is_true.
Qed.

(** Reserving a session. The request gives the first session of the domain, after the
    default one, that no one has reserved or opened, marks it and stores its name, cut to one
    byte less than its length; no other session changes, and a later request cannot get the
    same one. When all are taken it answers [AEE_ENOSESSION] and ids that are out of range. *)
Theorem reserve_session s name session_name len nlen :
  sess_ok (ses s) -> (forall x, sref (ses s) x < REF_MAX - 1) -> is_Some (hlist (cproc s)) -> pl_err = AEE_SUCCESS ->
  state (chl s DEFAULT_DOMAIN_ID) <> FASTRPC_DOMAIN_STATE_DEINIT -> 0 < len -> 0 < nlen ->
  let d := get_domain_from_name (Some name) DOMAIN_NAME_STAND_ALONE in
  IS_VALID_DOMAIN_ID d = true ->
  exists e o s', remote_session_control (RESERVE_NEW_SESSION (Some (Reserve (Some name) len (Some session_name) nlen))) 40 s = (Go (e, o), s') /\
    match free_session d s with
    | Some j =>
      e = 0 /\ o = RESERVED (d + NUM_DOMAINS * j) j /\ 1 <= j < NUM_SESSIONS /\ free_session d s' <> Some j /\
      (forall x, hxof (ct_app s') x = if decide (x = d + NUM_DOMAINS * j) then set_reserved true (hxof (ct_app s) x) else hxof (ct_app s) x) /\
      sessionname (hpof s' (d + NUM_DOMAINS * j)) = take (Z.to_nat (Z.min nlen (MAX_DSPPD_NAMELEN - 1) - 1)) (c_string session_name)
    | None => e = AEE_ENOSESSION /\ o = RESERVED NUM_DOMAINS_EXTEND NUM_SESSIONS /\ forall x, hxof (ct_app s') x = hxof (ct_app s) x
    end.
Proof.
  intros Ho Hlt Hs Hpl Hst Hlen Hnlen d Hd.
  destruct (control_run s (RESERVE_NEW_SESSION (Some (Reserve (Some name) len (Some session_name) nlen))) 40) as (s1 & Ehp & Ehx & Ho1 & Hh1 & Hrun); [done..|].
  assert (Hdr : 0 <= d < NUM_DOMAINS) by (unfold IS_VALID_DOMAIN_ID in Hd; apply andb_true_iff in Hd as [?%Z.leb_le ?%Z.ltb_lt]; lia).
  assert (Hx : forall s' : ctl W, ap_hx (ct_app s') = ap_hx (ct_app s1) -> forall x, hxof (ct_app s') x = hxof (ct_app s) x).
  { intros s' E x. unfold hxof. by rewrite E, Ehx. }
  assert (Efree : free_session d s1 = free_session d s).
  { unfold free_session. rewrite !filter_cons. by rewrite !(Hx s1). }
  assert (Ereq : session_request (RESERVE_NEW_SESSION (Some (Reserve (Some name) len (Some session_name) nlen))) 40 (s1, (DEFAULT_DOMAIN_ID, NOTHING)) =
    match free_session d s1 with
    | Some j => (Go tt, (reserved_state (d + NUM_DOMAINS * j) session_name nlen s1, (d, RESERVED (d + NUM_DOMAINS * j) j)))
    | None => (Bail AEE_ENOSESSION, (s1, (d, RESERVED NUM_DOMAINS_EXTEND NUM_SESSIONS)))
    end).
  { cbn [session_request]. open_handlers. cbn [rs_domain rs_session rs_domain_len rs_session_len]. unfold named_domain, set_domain, out. munfold.
    change (40 =? sizeof_session_req _) with true. cbv iota beta. rewrite (proj2 (Z.ltb_lt 0 len)), (proj2 (Z.ltb_lt 0 nlen)) by lia. cbn [andb].
    fold d. rewrite Hd. cbn [fst snd]. rewrite reserve_loop_spec by done.
    destruct (free_session d s1) as [j|] eqn:Ej; [|done]. apply free_session_spec in Ej as (Hj & _). cbn [fst snd].
    assert (E : IS_VALID_EFFECTIVE_DOMAIN_ID (d + NUM_DOMAINS * j) = true).
    { unfold IS_VALID_EFFECTIVE_DOMAIN_ID, NUM_DOMAINS_EXTEND, NUM_DOMAINS, NUM_SESSIONS in *. apply andb_true_iff. rewrite Z.leb_le, Z.ltb_lt. lia. }
    by rewrite E. }
  rewrite Efree in Ereq. destruct (free_session d s) as [j|] eqn:Ej.
  - destruct (Hrun _ _ _ _ Ereq) as (s' & E & Ehp' & Ehx'); [done..|]. exists 0, (RESERVED (d + NUM_DOMAINS * j) j), s'.
    split; [exact E|]. destruct (free_session_spec _ _ _ Ej) as (Hj & _).
    assert (Hx' : forall x, hxof (ct_app s') x = if decide (x = d + NUM_DOMAINS * j) then set_reserved true (hxof (ct_app s) x) else hxof (ct_app s) x).
    { intros x. transitivity (hxof (set_hx (d + NUM_DOMAINS * j) (set_reserved true) (ct_app s1)) x); [unfold hxof; by rewrite Ehx'|]. rewrite hxof_set.
      destruct (decide (x = d + NUM_DOMAINS * j)) as [->|]; by rewrite Hx. }
    split; [done|split; [done|split; [unfold NUM_SESSIONS; lia|split; [|split; [done|]]]]].
    + intros Ef. apply free_session_spec in Ef as (_ & Ef & _). rewrite Hx', decide_True in Ef by done. done.
    + unfold hpof. rewrite Ehp'. cbn. by rewrite lookup_insert_eq.
  - destruct (Hrun _ _ _ _ Ereq) as (s' & E & Ehp' & Ehx'); [done..|]. exists AEE_ENOSESSION, (RESERVED NUM_DOMAINS_EXTEND NUM_SESSIONS), s'.
    split; [exact E|]. split_and!; [done|done|by apply Hx; rewrite Ehx'].
Qed.

(** ** The URI of a session *)
Lemma first_domain_range t : let d := first_domain t DOMAIN_ORDER in d = INVALID_DOMAIN_ID \/ 0 <= d <= GDSP1_DOMAIN_ID.
Proof.
  unfold DOMAIN_ORDER, ADSP_DOMAIN_ID, MDSP_DOMAIN_ID, SDSP_DOMAIN_ID, CDSP_DOMAIN_ID, CDSP1_DOMAIN_ID, GDSP0_DOMAIN_ID, GDSP1_DOMAIN_ID.
  cbn [first_domain]. repeat (destruct (t _); [lia|]). by left.
Qed.

Lemma session_uri_parsed d sid u : bare_uri u -> 0 <= d <= GDSP1_DOMAIN_ID -> 0 <= sid < NUM_SESSIONS ->
  get_domain_from_name (Some (session_uri d sid u)) DOMAIN_NAME_IN_URI = GET_EFFECTIVE_DOMAIN_ID d sid.
Proof.
  intros Hu Hd Hs. destruct (domain_uri_roundtrip u d sid Hu Hd Hs) as (_ & E & _). rewrite <- E. unfold session_uri.
  assert (E1 : get_domain_from_id d = DOMAIN_URI d).
  { unfold get_domain_from_id. by rewrite (proj2 (Z.leb_le 0 d)), (proj2 (Z.leb_le d GDSP1_DOMAIN_ID)) by lia. }
  assert (E2 : dec (Z.to_nat sid) = [48 + sid]).
  { unfold NUM_SESSIONS in Hs. assert (sid = 0 \/ sid = 1 \/ sid = 2 \/ sid = 3) as [-> |[-> |[-> | ->]]] by lia; by vm_compute. }
  by rewrite E1, E2.
Qed.

(** C22: The URI that [FASTRPC_GET_URI] builds from a module URI that names no domain and no
    session of its own (other queries such as the [&_modver=1.0] of the generated modules are
    fine) leads back to the session: the library parses it
    to the effective domain id that [FASTRPC_GET_EFFECTIVE_DOMAIN_ID] gives for the same
    domain and session, which is valid. A buffer that is too short gets the part that fits and
    the call fails with [AEE_EBADSIZE]. *)
Theorem session_uri_roundtrip s name dlen sid module_uri mlen ulen :
  sess_ok (ses s) -> (forall x, sref (ses s) x < REF_MAX - 1) -> is_Some (hlist (cproc s)) -> pl_err = AEE_SUCCESS ->
  state (chl s DEFAULT_DOMAIN_ID) <> FASTRPC_DOMAIN_STATE_DEINIT ->
  0 < dlen -> 0 <= sid < NUM_SESSIONS -> 0 < mlen < ulen -> bare_uri module_uri ->
  let d := get_domain_from_name (Some name) DOMAIN_NAME_STAND_ALONE in
  IS_VALID_DOMAIN_ID d = true ->
  let id := GET_EFFECTIVE_DOMAIN_ID d sid in
  let uri := session_uri d sid module_uri in
  (exists s', remote_session_control (GET_EFFECTIVE (Some (Effective (Some name) dlen sid))) 24 s = (Go (0, EFFECTIVE id), s')) /\
  IS_VALID_EFFECTIVE_DOMAIN_ID id = true /\
  exists e o s', remote_session_control (GET_URI (Some (GetUri (Some name) dlen sid (Some module_uri) mlen true ulen))) 48 s = (Go (e, URI o), s') /\
    if decide (Z.of_nat (length uri) < ulen)
    then e = 0 /\ o = uri /\ get_domain_from_name (Some o) DOMAIN_NAME_IN_URI = id
    else e = AEE_EBADSIZE /\ o = take (Z.to_nat (ulen - 1)) uri.
Proof.
  intros Ho Hlt Hs Hpl Hst Hdl Hsid Hml Hamp d Hd id uri.
  assert (Hdr : 0 <= d <= GDSP1_DOMAIN_ID).
  { destruct (first_domain_range (fun d => starts_with (SUBSYSTEM_NAME d) name)) as [E|E]; [|exact E].
    change (d = INVALID_DOMAIN_ID) in E. by rewrite E in Hd. }
  assert (Hid : IS_VALID_EFFECTIVE_DOMAIN_ID id = true).
  { destruct (proj1 effective_domain_bijection d sid Hd Hsid) as (E & _). exact E. }
  split; [|split; [done|]].
  - destruct (control_run s (GET_EFFECTIVE (Some (Effective (Some name) dlen sid))) 24) as (s1 & _ & _ & Ho1 & Hh1 & Hrun); [done..|].
    destruct (Hrun (Go tt) s1 d (EFFECTIVE id)) as (s' & E & _); [|done..|by exists s'].
    cbn [session_request]. open_handlers. cbn [ed_domain ed_domain_len ed_session_id is_found]. unfold named_domain, set_domain, out. munfold.
    change (24 =? sizeof_session_req _) with true. cbv iota beta. rewrite (proj2 (Z.ltb_lt 0 dlen)), (proj2 (Z.ltb_lt sid NUM_SESSIONS)) by lia. cbn [andb].
    fold d. rewrite Hd. cbn [fst snd]. fold id. by rewrite Hid.
  - destruct (control_run s (GET_URI (Some (GetUri (Some name) dlen sid (Some module_uri) mlen true ulen))) 48) as (s1 & _ & _ & Ho1 & Hh1 & Hrun); [done..|].
    destruct (Hrun (if ulen <=? Z.of_nat (length uri) then Bail AEE_EBADSIZE else Go tt) s1 d (URI (take (Z.to_nat (ulen - 1)) uri))) as (s' & E & _); [|done..|].
    { cbn [session_request]. open_handlers. cbn [gu_domain gu_domain_len gu_session_id gu_module_uri gu_module_uri_len gu_uri gu_uri_len is_found]. unfold named_domain, set_domain, out. munfold.
      change (48 =? sizeof_session_req _) with true. cbv iota beta. rewrite (proj2 (Z.ltb_lt 0 dlen)), (proj2 (Z.ltb_lt sid NUM_SESSIONS)) by lia. cbn [andb].
      fold d. rewrite Hd. cbn [fst snd]. rewrite (proj2 (Z.ltb_lt 0 mlen)), (proj2 (Z.ltb_lt mlen ulen)) by lia. cbn [andb]. fold uri.
      by destruct (ulen <=? _). }
    eexists _, _, s'. split; [exact E|]. destruct (decide (Z.of_nat (length uri) < ulen)) as [Hl|Hl].
    + rewrite (proj2 (Z.leb_gt _ _)) by lia. rewrite take_ge by lia. split_and!; [done|done|]. by apply session_uri_parsed.
    + rewrite (proj2 (Z.leb_le _ _)) by lia. done.
Qed.

(** ** Closing a session *)

Abbreviation close64 a := (remote_handle64_close calloc adsp_current_process1_exit adsp_current_process_exit remotectl1_close1 remotectl_close uri_alloc a).

(** Closing the last handle of a session takes the session down and empties its lists. *)
Lemma close_last d a n (s : app W) :
  IS_VALID_EFFECTIVE_DOMAIN_ID d = true -> hi_hlist n = d -> IS_STATICPD_HANDLE a = false /\ a <> INVALID_HANDLE /\ IS_CONST_HANDLE a = false ->
  is_Some (hlist (aproc s)) -> verify_local_handle (-1) a (aproc s) = (AEE_SUCCESS, Some n) -> no_such_remote d a s ->
  0 <= ref (ahl s d) -> dev (ahl s d) <> -1 -> counts_u32 (ahl s d) -> last_handle d s = true ->
  exists e s', close64 a s = (Go e, s') /\ ql (ahl s' d) = [].
Proof.
  intros Hv Hn Ha Hs Hver Hnr Hr Hdev Hu Hlast.
  assert (Hst : is_Some (hlist (aproc (in_ctx d s)))) by by rewrite in_ctx_hlist.
  destruct (close_recorded_hl d a Ha (in_ctx d s)) as [Hs2 Hl2]; [done|unfold no_such_remote; by rewrite in_ctx_hl|by rewrite in_ctx_hl|].
  set (s2 := close_recorded d a (in_ctx d s)) in *.
  assert (Hd2 : dev (ahl s2 d) <> -1 /\ counts_u32 (ahl s2 d)).
  { rewrite Hl2, decide_True, in_ctx_hl by done. unfold count_step. rewrite (proj2 (proj2 Ha)). split; [done|].
    unfold counts_u32 in *. cbn. by rewrite !u32_u32. }
  destruct Hd2 as [Hd2 Hu2].
  destruct (deinit_down calloc adsp_current_process1_exit adsp_current_process_exit d (set_hx d (set_exit_logs 1) s2)) as (s3 & E3 & Hdown); [done..|].
  exists (if negb (0 =? AEE_SUCCESS) && is_process_exiting d (aproc s3) then 0 else 0), s3. split; [|apply (sd_lists _ _ _ Hdown)].
  apply wp_result. eapply (close_start calloc adsp_current_process1_exit adsp_current_process_exit remotectl1_close1 remotectl_close uri_alloc d a (hi_remote n) n); [done..|].
  unfold close_dsp. rewrite Hlast. cbn [negb andb]. apply wp_ret. split; [done|]. split; [done|]. fold s2. unfold close_end.
  apply wp_bind, wp_bind, wp_upd_hx. eapply wp_call; [exact E3|]. unfold close_result. apply wp_bind, wp_gets, wp_ret. done.
Qed.

(** [FASTRPC_SESSION_CLOSE] reads freed memory. Closing the last handle takes the session
    down, which frees every node of the list that the loop is walking; the loop then steps to
    the node after the closed handle. That is so for every session with one open handle whose
    list has a further node, such as the handle of the remote control module that the first
    open puts there. *)
Theorem session_close_reads_freed d n m l (s : ctl W) :
  let a := hi_addr n in
  IS_VALID_EFFECTIVE_DOMAIN_ID d = true -> hi_hlist n = d -> IS_STATICPD_HANDLE a = false /\ a <> INVALID_HANDLE /\ IS_CONST_HANDLE a = false ->
  is_Some (hlist (cproc s)) -> verify_local_handle (-1) a (cproc s) = (AEE_SUCCESS, Some n) ->
  ql (chl s d) = n :: m :: l -> nql (chl s d) = [] -> rql (chl s d) = [] -> no_such_remote d a (ct_app s) ->
  0 <= ref (chl s d) -> dev (chl s d) <> -1 -> counts_u32 (chl s d) -> domainsCount (chl s d) = 1 -> nondomainsCount (chl s d) = 0 ->
  cached_handle CP (hxof (ct_app s) d) <> 0 ->
  ct_freed (close_domain_session d s).2 = true.
Proof.
  intros a Hv Hn Ha Hs Hver Hq Hnq Hrq Hnr Hr Hdev Hu Hdc Hnc Hcp. unfold close_domain_session.
  apply (wp_run_state _ (fun t => ct_freed t = true)), wp_to_bail, wp_bind, wp_gets, wp_bind, wp_VERIFY; intros Hb; [|apply negb_false_iff, Z.eqb_eq in Hb; done]. clear Hb.
  apply wp_bind. eapply wp_call; [unfold on_app; rewrite get_const_cached by done; reflexivity|].
  set (s1 := set_app (ct_app s) s). apply wp_bind.
  eapply (wp_mono _ (fun _ t => exists w, t = set_app (set_world w (ct_app s)) s) _ (fun _ _ => False)); [| |done].
  { assert (Hw : forall A (f : W -> A * W) (Q : A -> ctl W -> Prop), Q (f (world (ct_app s))).1 (set_app (set_world (f (world (ct_app s))).2 (ct_app s)) s) ->
      wp (on_w f) Q (fun _ _ => False) s1).
    { intros A f Q HQ. unfold wp, on_w, on_app, on_world, on_ses. change (ses (ct_app s1)) with (ses (ct_app s)).
      unfold world in HQ. change (ses (ct_app s)) with (mses (rt_mem (ap_rt (ct_app s)))) in *. cbn in *. by destruct (f _). }
    apply wp_if; intros _; apply Hw; by eexists. }
  intros v t [w ->]. set (t := set_app (set_world w (ct_app s)) s). change (ct_freed (set_app (set_world w (ct_app s)) s)) with (ct_freed s).
  assert (Hql : forall k, lst k (chl t d) = lst k (chl s d)) by done.
  unfold walk_list. apply wp_bind, wp_bind, wp_gets. rewrite (Hql NQL : lst NQL (chl _ d) = _). cbn [lst]. rewrite Hnq. apply wp_ret.
  apply wp_bind, wp_bind, wp_gets. cbn [lst]. assert (Er : rql (chl t d) = []) by exact Hrq. rewrite Er. apply wp_ret.
  assert (Eq : ql (chl t d) = n :: m :: l) by exact Hq.
  apply wp_bind, wp_gets. rewrite Eq. cbn [length walk head].
  apply wp_bind, wp_gets. cbn [lst]. rewrite Eq.
  assert (Hnode : node_at (hi_addr n) (n :: m :: l) = Some n).
  { unfold node_at. cbn. by rewrite decide_True. }
  rewrite Hnode. destruct (close_last d a n (ct_app t)) as (e & s' & Ec & Hnil); [done..|unfold last_handle; change (ahl (ct_app t) d) with (chl s d); by rewrite Hdc, Hnc|].
  apply wp_bind, wp_bind. eapply wp_call; [unfold on_app; change (ct_app (set_app _ _)) with (ct_app t); fold a; rewrite Ec; reflexivity|].
  apply wp_ret, wp_bind, wp_gets. cbn [lst]. assert (En : ql (chl (set_app s' t) d) = []) by exact Hnil. rewrite En. done.
Qed.

(** ** Requests the driver does not know *)

Lemma poll_qos_unsupported d h enable latency s :
  is_Some (hlist (cproc s)) -> dev (chl s d) <> -1 -> latency < MAX_POLL_TIMEOUT -> manage_poll_qos d h enable latency s = (Go AEE_EUNSUPPORTED, s).
Proof.
  intros [hh Hh] Hdev Hl. apply wp_result. unfold manage_poll_qos. apply wp_to_bail, wp_bind, wp_gets.
  assert (Hdev' : negb (dev (hl (cproc s) d) =? -1) = true) by (apply negb_true_iff, Z.eqb_neq; exact Hdev).
  rewrite Hh, Hdev'. cbn [is_found andb negb]. rewrite andb_false_r. apply wp_bind, wp_ret, wp_bind, wp_gets. rewrite Hh, Hdev'. cbn [is_found andb].
  apply wp_bind, wp_VERIFYC; intros Hx; [|done]. apply wp_bind, wp_VERIFYC; intros Hy; [|apply Z.ltb_ge in Hy; lia].
  apply wp_bind. eapply (wp_call _ _ _ _ (errno (rt_mem (ap_rt (ct_app s)))) s).
  { unfold on_app, errno_a, gets. by destruct s. }
  unfold ioctl_control. change (negb (AEE_EUNSUPPORTED =? 0)) with true. apply wp_bind, wp_bail. done.
Qed.

(** The driver's wake lock is not known to it: the library's own is put down. *)
Lemma kernel_wakelock_down x (a : app W) :
  Wake.init_done (rt_wake (ap_rt a)) = true ->
  exists a', update_kernel_wakelock_status wr x a = (Go 0, a') /\ Wake.init_done (rt_wake (ap_rt a')) = false.
Proof.
  intros Hi. unfold update_kernel_wakelock_status, Handles.on_rt, on_wake. munfold. cbn.
  destruct (wake_deinit_down (wr 0) 0 0 (rt_wake (ap_rt a)) Hi) as (e & w & -> & Hw). by eexists.
Qed.

Lemma wakelock_on d v w' s :
  session_open d s = true -> wake_enabled d s = 0 -> v <> 0 ->
  wake_lock_init (rt_wake (ap_rt (ct_app s))) = (Go 0, w') -> Wake.init_done w' = true ->
  exists s', wakelock_control d v s = (Go 0, s') /\ wake_enabled d s' = v /\ Wake.init_done (rt_wake (ap_rt (ct_app s'))) = false.
Proof.
  intros Ho Hw Hv Hi Hd. apply Z.eqb_neq in Hv as Hvb.
  set (a1 := set_rt (set_wake w' (ap_rt (ct_app s))) (ct_app s)).
  destruct (kernel_wakelock_down d a1 Hd) as (a2 & E & Hw2).
  eexists. split.
  - unfold wakelock_control, to_bail. munfold. rewrite Hw, (Z.eqb_sym 0 v), Hvb. cbn [negb].
    unfold VERIFY_CALL, on_app, Handles.on_rt, on_wake. munfold. rewrite Hi. cbn.
    fold a1. assert (Eo : session_open d (set_app a1 s) = true) by exact Ho. rewrite Eo. cbn. rewrite E. cbn.
    unfold set_wake_enabled, upd_hp, on_app. munfold. cbn. reflexivity.
  - split; [|exact Hw2]. unfold wake_enabled. cbn. rewrite Hvb. rewrite bool_decide_eq_true_2 by set_solver. unfold hpof at 1. cbn. by rewrite lookup_insert_eq.

Qed.

(** Quality-of-service and wake lock requests without a driver that knows them. On an open
    session, switching polling on fails with [AEE_EUNSUPPORTED], and so does switching
    quality of service off, before the latency on the DSP is reset. Switching the wake lock on
    succeeds and marks the domain, while the lock has been taken down. *)
Theorem control_unsupported d h latency v w' s :
  is_Some (hlist (cproc s)) -> dev (chl s d) <> -1 -> latency < MAX_POLL_TIMEOUT -> adaptive_qos (hpof s d) = 0 ->
  wake_enabled d s = 0 -> v <> 0 -> wake_lock_init (rt_wake (ap_rt (ct_app s))) = (Go 0, w') -> Wake.init_done w' = true ->
  remote_handle_control_domain d h (CONTROL_LATENCY (Some (RPC_POLL_QOS, latency))) 8 s = (Go (AEE_EUNSUPPORTED, None), s) /\
  remote_handle_control_domain d h (CONTROL_LATENCY (Some (RPC_DISABLE_QOS, latency))) 8 s = (Go (AEE_EUNSUPPORTED, None), s) /\
  exists s', remote_handle_control_domain d h (CONTROL_WAKELOCK (Some v)) 4 s = (Go (0, None), s') /\
    wake_enabled d s' = v /\ Wake.init_done (rt_wake (ap_rt (ct_app s'))) = false.
Proof.
  intros Hs Hdev Hl Ha Hw Hv Hi Hid. split_and!.
  - unfold remote_handle_control_domain. apply wp_result, wp_bind, wp_with_locals, wp_bind, wp_VERIFYC; intros Hx; [|done].
    change (RPC_POLL_QOS =? RPC_DISABLE_QOS) with false. change (RPC_POLL_QOS =? RPC_PM_QOS) with false.
    change (RPC_POLL_QOS =? RPC_ADAPTIVE_QOS) with false. change (RPC_POLL_QOS =? RPC_POLL_QOS) with true. cbv iota.
    apply wp_VERIFY_CALL, wp_lift. eapply wp_call; [by apply poll_qos_unsupported|]. done.
  - unfold remote_handle_control_domain. apply wp_result, wp_bind, wp_with_locals, wp_bind, wp_VERIFYC; intros Hx; [|done].
    change (RPC_DISABLE_QOS =? RPC_DISABLE_QOS) with true. cbv iota.
    apply wp_bind, wp_VERIFY_CALL, wp_lift. unfold manage_adaptive_qos. apply wp_bind, wp_gets. rewrite Ha. apply wp_ret. split; [intros _|done].
    apply wp_bind, wp_VERIFY_CALL, wp_lift. eapply wp_call; [by apply poll_qos_unsupported|]. done.
  - destruct (wakelock_on d v w' s) as (s' & E & Hr); [|done..|].
    { unfold session_open, IS_SESSION_OPEN_ALREADY. destruct Hs as [hh Hh]. rewrite Hh. by apply negb_true_iff, Z.eqb_neq. }
    exists s'. split; [|exact Hr]. unfold remote_handle_control_domain. apply wp_result, wp_bind, wp_with_locals, wp_bind, wp_VERIFYC; intros Hx; [|done].
    apply wp_VERIFY_CALL, wp_lift. eapply wp_call; [exact E|]. by split; [intros; apply wp_ret|].
Qed.
End control.

(** ** Concrete runs *)
Module ControlEx.
Import HandlesEx.
#[local] Existing Instance HandlesEx.pl.

(** The remote procedures count the calls. *)
Definition param1 (h r : Z) (ps : list Z) (w : nat) : Z * nat := (0, S w).
Definition param0 (r : Z) (ps : list Z) (w : nat) : Z * nat := (0, S w).
Definition poll0 (e l : Z) (w : nat) : Z * nat := (0, S w).
Definition poll1 (h e l : Z) (w : nat) : Z * nat := (0, S w).
Definition qos0 (l : Z) (w : nat) : Z * nat := (0, S w).
Definition qos1 (h l : Z) (w : nat) : Z * nat := (0, S w).
Definition exc0 (w : nat) : Z * nat := (0, S w).
Definition exc1 (h : Z) (w : nat) : Z * nat := (0, S w).
Definition modclose (h : Z) (w : nat) : Z * nat := (0, S w).
Definition nofile (path : list Z) : option sysfile := None.
(** The wake lock that [fastrpc_wake_lock_init] sets up with descriptors 8 and 9. *)
Definition wake_init : M wake_lock Z := fastrpc_wake_lock_init 0 (str "prog") (str "1") 8 9 0 0 0.

(** A process with an open session on domain 3 that holds one handle, or two. *)
Definition ctl0 (h : handle_list) : ctl nat := Ctl (st 3 h (set_cached CP 5001 (rctl 3))) ∅ caps0 notif0 (true, [], []) false [].

Abbreviation session_call := (remote_session_control (fun _ => 90000) exit1 exit0 close1 close0 param1 param0 exc0 exc1 modclose (fun _ => 7) true
  (fun _ _ w => (Io 0 7 0, w)) (fun _ => false) nofile true 2%nat (fun _ _ => (0, 0)) 40 true true).

Lemma ctl0_ok h : 0 <= ref h < REF_MAX - 1 -> (forall d, 0 <= sref (ses (ctl0 h)) d < REF_MAX - 1).
Proof.
  intros Hr d. change (0 <= ref (hl (aproc (st 3 h (set_cached CP 5001 (rctl 3)))) d) < REF_MAX - 1). rewrite hl_st.
  by destruct (decide (d = 3)).
Qed.
Lemma ctl0_sess h : 0 <= ref h < REF_MAX - 1 -> sess_ok (ses (ctl0 h)).
Proof. intros Hr d. destruct (ctl0_ok h Hr d) as [H1 H2]. change (sref (ses (ctl0 h)) d) with (ref (hl (ses (ctl0 h)).1 d)) in H1, H2. lia. Qed.

(** A priority and a stack size in range are stored. *)
Lemma params_in_range_witness : params_ok (session_call (THREAD_PARAMS (Some (3, 200, 32768))) 12 (ctl0 up1)).2.
Proof.
  refine (proj1 (params_in_range accepts (fun _ => 90000) exit1 exit0 close1 close0 param1 param0 poll0 poll1 qos0 qos1 exc0 exc1 modclose (fun _ => 7) (fun _ => inr (UserPd 0 0 0 0 0 0)) (fun _ => Some 0) (fun _ => 0) (fun _ => 0) (fun _ => 0) true true (fun _ => 1) wake_init (fun _ _ w => (Io 0 7 0, w)) (fun _ => false) nofile true 2%nat (fun _ _ => (0, 0)) 40 true true (ctl0 up1) _) _ _).
  intros d. apply hp0_ok.
Defined.

(** Killing the process of domain 0 leaves the reference that was taken on domain 3. *)
Lemma session_references_witness :
  let s' := (session_call (REMOTE_PROCESS_KILL (Some 0)) 4 (ctl0 up2)).2 in
  sref (ses s') DEFAULT_DOMAIN_ID = sref (ses (ctl0 up2)) DEFAULT_DOMAIN_ID + 1.
Proof.
  destruct (session_references accepts (fun _ => 90000) exit1 exit0 close1 close0 param1 param0 poll0 poll1 qos0 qos1 exc0 exc1 modclose (fun _ => 7) (fun _ => inr (UserPd 0 0 0 0 0 0)) (fun _ => Some 0) (fun _ => 0) (fun _ => 0) (fun _ => 0) true (fun _ => 1) (fun _ _ w => (Io 0 7 0, w)) (fun _ => false) nofile true 2%nat (fun _ _ => (0, 0)) 40 true true (ctl0 up2) (REMOTE_PROCESS_KILL (Some 0)) 4) as [E _].
  - apply ctl0_sess; by vm_compute.
  - intros d. apply ctl0_ok; by vm_compute.
  - by eexists.
  - done.
  - by vm_compute.
  - cbv zeta. rewrite E. by vm_compute.
Defined.

(** The first spare session of domain 3 is 1. *)
Lemma reserve_session_witness :
  exists s', session_call (RESERVE_NEW_SESSION (Some (Reserve (Some (str "cdsp")) 5 (Some (str "mine")) 5))) 40 (ctl0 up1) = (Go (0, RESERVED (3 + NUM_DOMAINS) 1), s') /\
    is_session_reserved (hxof (ct_app s') (3 + NUM_DOMAINS)) = true /\ sessionname (hpof s' (3 + NUM_DOMAINS)) = str "mine".
Proof.
  destruct (reserve_session accepts (fun _ => 90000) exit1 exit0 close1 close0 param1 param0 poll0 poll1 qos0 qos1 exc0 exc1 modclose (fun _ => 7) (fun _ => inr (UserPd 0 0 0 0 0 0)) (fun _ => Some 0) (fun _ => 0) (fun _ => 0) (fun _ => 0) true (fun _ => 1) (fun _ _ w => (Io 0 7 0, w)) (fun _ => false) nofile true 2%nat (fun _ _ => (0, 0)) 40 true true (ctl0 up1) (str "cdsp") (str "mine") 5 5) as (e & o & s' & E & H).
  - apply ctl0_sess; by vm_compute.
  - intros d. apply ctl0_ok; by vm_compute.
  - by eexists.
  - done.
  - by vm_compute.
  - done.
  - done.
  - by vm_compute.
  - assert (Ef : free_session 3 (ctl0 up1) = Some 1) by by vm_compute.
    change (get_domain_from_name (Some (str "cdsp")) DOMAIN_NAME_STAND_ALONE) with 3 in H. rewrite Ef in H.
    destruct H as (-> & -> & _ & _ & Hx & Hn). exists s'. split; [exact E|]. split.
    + rewrite Hx. by vm_compute.
    + etransitivity; [exact Hn|]. by vm_compute.
Defined.

(** The URI of the queue module with session 1 of [cdsp]: it leads to its domain. *)
Definition dspqueue_rpc_URI : list Z := str "file:///libdspqueue_rpc_skel.so?dspqueue_rpc_skel_handle_invoke&_modver=1.0".
Lemma session_uri_roundtrip_witness :
  exists s', session_call (GET_URI (Some (GetUri (Some (str "cdsp")) 5 1 (Some dspqueue_rpc_URI) 76 true 120))) 48 (ctl0 up1) = (Go (0, URI (session_uri 3 1 dspqueue_rpc_URI)), s') /\
    get_domain_from_name (Some (session_uri 3 1 dspqueue_rpc_URI)) DOMAIN_NAME_IN_URI = GET_EFFECTIVE_DOMAIN_ID 3 1.
Proof.
  destruct (session_uri_roundtrip accepts (fun _ => 90000) exit1 exit0 close1 close0 param1 param0 poll0 poll1 qos0 qos1 exc0 exc1 modclose (fun _ => 7) (fun _ => inr (UserPd 0 0 0 0 0 0)) (fun _ => Some 0) (fun _ => 0) (fun _ => 0) (fun _ => 0) true (fun _ => 1) (fun _ _ w => (Io 0 7 0, w)) (fun _ => false) nofile true 2%nat (fun _ _ => (0, 0)) 40 true true (ctl0 up1) (str "cdsp") 5 1 dspqueue_rpc_URI 76 120) as (_ & _ & e & o & s' & E & H).
  - apply ctl0_sess; by vm_compute.
  - intros d. apply ctl0_ok; by vm_compute.
  - by eexists.
  - done.
  - by vm_compute.
  - done.
  - done.
  - done.
  - by split.
  - by vm_compute.
  - rewrite decide_True in H by by vm_compute. destruct H as (-> & -> & Hg). by exists s'.
Defined.

(** A session with one handle and the constant handle of the current process. *)
Definition up3 : handle_list := HandleList [node; HandleInfo 90008 3 5001 None] [] [] 1 1 0 0 FASTRPC_DOMAIN_STATE_INIT 1 5 0 0.

Lemma session_close_reads_freed_witness :
  ct_freed (close_domain_session (fun _ => 90000) exit1 exit0 close1 close0 modclose true 3 (ctl0 up3)).2 = true.
Proof.
  apply (session_close_reads_freed (fun _ => 90000) exit1 exit0 close1 close0 modclose true 3 node (HandleInfo 90008 3 5001 None) [] (ctl0 up3)); try done; try (by vm_compute).
  unfold no_such_remote. change (ahl _ 3) with up3. by repeat constructor.
Defined.

Lemma control_unsupported_witness :
  exists s', remote_handle_control_domain accepts (fun _ => 90000) exit1 exit0 param1 param0 poll0 poll1 qos0 qos1 (fun _ => 7) (fun _ => inr (UserPd 0 0 0 0 0 0)) (fun _ => Some 0)
      (fun _ => 0) (fun _ => 0) (fun _ => 0) true (fun _ => 1) wake_init (fun _ _ w => (Io 0 7 0, w)) (fun _ => false) nofile true 2%nat 3 70000 (CONTROL_WAKELOCK (Some 1)) 4 (ctl0 up1)
    = (Go (0, None), s') /\ Wake.init_done (rt_wake (ap_rt (ct_app s'))) = false.
Proof.
  destruct (control_unsupported accepts (fun _ => 90000) exit1 exit0 close1 close0 param1 param0 poll0 poll1 qos0 qos1 exc1 modclose (fun _ => 7) (fun _ => inr (UserPd 0 0 0 0 0 0)) (fun _ => Some 0) (fun _ => 0) (fun _ => 0) (fun _ => 0) true (fun _ => 1) wake_init (fun _ _ w => (Io 0 7 0, w)) (fun _ => false) nofile true 2%nat (fun _ _ => (0, 0)) 3 70000 100 1
     (snd (wake_init wake0)) (ctl0 up1)) as (_ & _ & s' & E & _ & H); try (by vm_compute).
  - by eexists.
  - by exists s'.
Defined.
End ControlEx.
