(* ===== verification/Ring.v ===== *)
(** The one-way packet queues of a DSP queue, [src/dspqueue/dspqueue_cpu.c] and
    [inc/dspqueue_shared.h]: a circular buffer of packets in memory shared with the DSP,
    with one writer and one reader, each of which publishes its position.

    A packet is a 64-bit header, the buffer references and the message, padded to 8 bytes.
    It does not wrap around: when it does not fit before the end of the buffer, the header
    is written there and once more at the beginning, and the rest follows at the beginning.

    The CPU side writes request queues and reads response queues. The DSP side runs the
    same protocol from its own library; where a theorem has both sides of one queue, both
    are the functions of this file. Cache operations are no-ops in the code and barriers
    order the accesses, so memory is sequentially consistent here. *)
From S2P Require Import Prelude.

(** ** Constants and records *)
Definition DSPQUEUE_MAX_QUEUE_SIZE : Z := 16777216.
Definition DSPQUEUE_MAX_BUFFERS : Z := 64.
Definition DSPQUEUE_MAX_MESSAGE_SIZE : Z := 65536.
Definition DSPQUEUE_PACKET_FLAG_MESSAGE : Z := 1.
Definition DSPQUEUE_PACKET_FLAG_BUFFERS : Z := 2.
Definition DSPQUEUE_PACKET_FLAG_WAKEUP : Z := 4.
Definition DSPQUEUE_PACKET_FLAG_USER_READY : Z := 16.
Definition sizeof_dspqueue_buffer : Z := 24.

(** Where the queue is ([header + queue_offset]) and its length. *)
Record packet_queue := PQ { queue_base : Z; queue_length : Z }.
Record packet_queue_state := PState { position : Z; packet_count : Z; wait_count : Z }.

(** ** Positions *)

(** [(x + 7) & ~7] on 32 bits. *)
Definition align8 (x : Z) : Z := u32 (align_mask x 8).

(** [space_left], the read and the write position. *)
Definition get_queue_state_write (qsize : Z) (read_state write_state : packet_queue_state) : Z * Z * Z :=
  let r := position read_state in
  let w := position write_state in
  let qleft := if r =? w then u32 (qsize - 8) else if r <? w then u32 (qsize - w + r - 8) else u32 (r - w - 8) in
  (qleft, r, w).

Definition get_queue_state_read (qsize : Z) (read_state write_state : packet_queue_state) : Z * Z * Z :=
  let w := position write_state in
  let r := position read_state in
  let qleft := if r =? w then 0 else if r <? w then u32 (w - r) else u32 (qsize - r + w) in
  (qleft, r, w).

(** ** Words and data in the buffer *)
Definition le64 (z : Z) : list Z := le32 (u32 z) ++ le32 (u32 (z / 4294967296)).
Definition of_le64 (bs : list Z) : Z := of_le32 (take 4 bs) + 4294967296 * of_le32 (drop 4 bs).

Definition write_64 (m : memory) (packet_queue write_pos queue_len data : Z) : memory * Z :=
  let w := u32 (write_pos + 8) in
  (store m (packet_queue + write_pos) (le64 data), if queue_len <=? w then 0 else w).

Definition write_data (m : memory) (packet_queue write_pos queue_len : Z) (data : list Z) : memory * Z :=
  let w := u32 (write_pos + align8 (Z.of_nat (length data))) in
  (store m (packet_queue + write_pos) data, if queue_len <=? w then 0 else w).

Definition read_data (m : memory) (packet_queue read_pos queue_len data_len : Z) : list Z * Z :=
  let r := u32 (read_pos + align8 data_len) in
  (load m (packet_queue + read_pos) data_len, if queue_len <=? r then 0 else r).

(** ** The packet header *)
Definition packet_header (len flags num_buffers seq_no : Z) : Z :=
  Z.lor (Z.lor (Z.lor (Z.land len 4294967295) (Z.shiftl (Z.land flags 65535) 32))
    (Z.shiftl (Z.land num_buffers 255) 48)) (Z.shiftl (Z.land seq_no 255) 56).

(** The flags, the number of buffers and the length of the message, or [AEE_EBADITEM]
    ([None]). *)
Definition hdr_len (d : Z) : Z := Z.land d 4294967295.
Definition hdr_flags (d : Z) : Z := Z.land (Z.shiftr d 32) 65535.
Definition hdr_buffers (d : Z) : Z :=
  if Z.land (hdr_flags d) DSPQUEUE_PACKET_FLAG_BUFFERS =? 0 then 0 else Z.land (Z.shiftr d 48) 255.
Definition hdr_message (d : Z) : Z :=
  if Z.land (hdr_flags d) DSPQUEUE_PACKET_FLAG_MESSAGE =? 0 then 0
  else u32 (hdr_len d - 8 - hdr_buffers d * sizeof_dspqueue_buffer).

Definition peek_locked (m : memory) (qp r : Z) : option (Z * Z * Z) :=
  let d := of_le64 (load m (qp + r) 8) in
  if hdr_len d <? 8 + hdr_buffers d * sizeof_dspqueue_buffer then None
  else Some (hdr_flags d, hdr_buffers d, hdr_message d).

(** ** Writing a packet *)

(** The length of a packet in the queue. *)
Definition packet_len (num_buffers message_length : Z) : Z := 8 + num_buffers * sizeof_dspqueue_buffer + message_length.

(** Whether there is space, and whether the packet goes to the beginning. *)
Definition has_space (qsize qleft w alen : Z) : option bool :=
  if qleft <? alen then None
  else if u32 (qsize - w) <? alen then
    if u32 (qleft - u32 (qsize - w)) <? alen then None else Some true
  else Some false.

(** The stores, in their order. [bufs] and [msg] are the bytes of the buffer references
    and of the message. *)
Definition put_packet (m : memory) (qp qsize w : Z) (wrap : bool) (phdr : Z) (bufs msg : list Z) : memory * Z :=
  let '(m, w) := write_64 m qp w qsize phdr in
  let '(m, w) := if wrap then write_64 m qp 0 qsize phdr else (m, w) in
  let '(m, w) := if 0 <? Z.of_nat (length bufs) then write_data m qp w qsize bufs else (m, w) in
  if 0 <? Z.of_nat (length msg) then write_data m qp w qsize msg else (m, w).

(** ** Reading a packet *)

(** Where the data starts; the buffer references and the message, when there is a place
    for them, and the next position. *)
Definition data_start (qsize r num_b msg_l : Z) : Z :=
  if u32 (qsize - r) <? u32 (packet_len num_b msg_l) then 8 else u32 (r + 8).

Definition get_data (m : memory) (qp qsize r num_b msg_l : Z) (want_bufs want_msg : bool) : (list Z * list Z) * Z :=
  let '(bufs, r) :=
    if 0 <? num_b then
      if want_bufs then read_data m qp r qsize (num_b * sizeof_dspqueue_buffer)
      else ([], u32 (r + num_b * sizeof_dspqueue_buffer))
    else ([], r) in
  let '(msg, r) :=
    if 0 <? msg_l then
      if want_msg then read_data m qp r qsize msg_l else ([], u32 (r + align8 msg_l))
    else ([], r) in
  ((bufs, msg), if qsize <=? r then 0 else r).

Definition get_packet (m : memory) (qp qsize r num_b msg_l : Z) (want_bufs want_msg : bool) : (list Z * list Z) * Z :=
  get_data m qp qsize (data_start qsize r num_b msg_l) num_b msg_l want_bufs want_msg.

(** ** Arithmetic of positions *)
Lemma align8_spec x : 0 <= x < 4294967288 -> exists k, align8 x = 8 * k /\ x <= 8 * k < x + 8.
Proof.
  intros Hx. unfold align8. change 8 with (2 ^ 3) at 1. destruct (align_mask_bounds x 3) as [Hb Hm]; [lia|].
  change (2 ^ 3) with 8 in *. rewrite u32_small by lia.
  exists (align_mask x 8 / 8). pose proof (Z.div_mod (align_mask x 8) 8). lia.
Qed.

Lemma mod_shift q x i : 0 < q -> 0 <= x mod q + i < q -> (x + i) mod q = x mod q + i.
Proof.
  intros Hq Hi. pose proof (Z.div_mod x q ltac:(lia)).
  replace ((x + i) mod q) with ((x mod q + i + x / q * q) mod q) by (f_equal; lia).
  rewrite Z.mod_add by lia. by apply Z.mod_small.
Qed.

Lemma mod_up q x : 0 < q -> (x + (q - x mod q)) mod q = 0.
Proof.
  intros Hq. pose proof (Z.div_mod x q ltac:(lia)). replace (x + (q - x mod q)) with ((x / q + 1) * q) by lia.
  apply Z.mod_mul. lia.
Qed.

Lemma mod8_mod q x : 0 < q -> q mod 8 = 0 -> x mod 8 = 0 -> (x mod q) mod 8 = 0.
Proof.
  intros Hq Hq8 Hx. apply Z.mod_divide; [lia|]. rewrite (Z.mod_eq x q) by lia.
  apply Z.divide_sub_r; [by apply Z.mod_divide|apply Z.divide_mul_l; by apply Z.mod_divide].
Qed.

(** Two positions less than a turn apart are in different places. *)
Lemma mod_apart q x y : 0 < q -> x < y < x + q -> x mod q <> y mod q.
Proof.
  intros Hq Hxy E. pose proof (Z.div_mod x q ltac:(lia)). pose proof (Z.div_mod y q ltac:(lia)).
  assert (y - x = q * (y / q - x / q)) by (rewrite Z.mul_sub_distr_l; lia). set (k := y / q - x / q) in *. assert (k <= 0 \/ 1 <= k) by lia. nia.
Qed.

Lemma mod_distance q x y : 0 < q -> x <= y < x + q ->
  y - x = if x mod q <=? y mod q then y mod q - x mod q else q - x mod q + y mod q.
Proof.
  intros Hq Hxy. pose proof (Z.div_mod x q ltac:(lia)). pose proof (Z.div_mod y q ltac:(lia)).
  pose proof (Z.mod_pos_bound x q ltac:(lia)). pose proof (Z.mod_pos_bound y q ltac:(lia)).
  assert (y - x = q * (y / q - x / q) + (y mod q - x mod q)) by (rewrite Z.mul_sub_distr_l; lia).
  set (k := y / q - x / q) in *. assert (k <= -1 \/ k = 0 \/ k = 1 \/ 2 <= k) by lia. case_ltb; nia.
Qed.

(** ** Packets and their contents *)
Record packet := Packet { p_hdr : Z; p_bufs : list Z; p_msg : list Z }.
Definition nbufs (p : packet) : Z := Z.of_nat (length (p_bufs p)) / 24.
Definition mlen (p : packet) : Z := Z.of_nat (length (p_msg p)).
Definition plen (p : packet) : Z := packet_len (nbufs p) (mlen p).
Definition alen (p : packet) : Z := align8 (plen p).

(** A packet as [dspqueue_write_noblock] makes it: the header describes the contents. *)
Record packet_ok (p : packet) : Prop := {
  ok_hdr : 0 <= p_hdr p < 18446744073709551616;
  ok_bufs : Z.of_nat (length (p_bufs p)) = 24 * nbufs p;
  ok_nbufs : nbufs p <= DSPQUEUE_MAX_BUFFERS;
  ok_mlen : mlen p <= DSPQUEUE_MAX_MESSAGE_SIZE;
  ok_len : hdr_len (p_hdr p) = plen p;
  ok_hdr_bufs : hdr_buffers (p_hdr p) = nbufs p;
  ok_hdr_msg : hdr_message (p_hdr p) = mlen p
}.

Lemma packet_sizes p : packet_ok p ->
  0 <= nbufs p <= 64 /\ 0 <= mlen p <= 65536 /\ plen p = 8 + 24 * nbufs p + mlen p /\
  exists k, alen p = 8 * k /\ plen p <= 8 * k < plen p + 8.
Proof.
  intros [_ Hb Hn Hm _ _ _]. unfold DSPQUEUE_MAX_BUFFERS, DSPQUEUE_MAX_MESSAGE_SIZE in *.
  assert (0 <= mlen p) by (unfold mlen; lia). assert (E : plen p = 8 + 24 * nbufs p + mlen p) by (unfold plen, packet_len, sizeof_dspqueue_buffer; lia).
  split; [lia|]. split; [lia|]. split; [done|]. apply align8_spec. lia.
Qed.

Lemma le64_of z : 0 <= z < 18446744073709551616 -> of_le64 (le64 z) = z.
Proof.
  intros Hz. unfold of_le64, le64. rewrite take_app_length' by done. rewrite drop_app_length' by done.
  rewrite !of_le32_le32 by apply u32_range. unfold u32. Z.to_euclidean_division_equations. lia.
Qed.

Section ring.
Context (qp qsize : Z) (Hq8 : qsize mod 8 = 0) (Hmax : 8 < qsize <= DSPQUEUE_MAX_QUEUE_SIZE).

(** A position counts the bytes since the queue was made: its place in the buffer is the
    position modulo the length. The body of a packet that is put at [W] begins at
    [body W p], and the next one at [next W p]. *)
Definition body (W : Z) (p : packet) : Z := if alen p <=? qsize - W mod qsize then W else W + (qsize - W mod qsize).
Definition next (W : Z) (p : packet) : Z := body W p + alen p.

Definition encoded (m : memory) (W : Z) (p : packet) : Prop :=
  load m (qp + W mod qsize) 8 = le64 (p_hdr p) /\
  load m (qp + body W p mod qsize + 8) (24 * nbufs p) = p_bufs p /\
  load m (qp + body W p mod qsize + 8 + 24 * nbufs p) (mlen p) = p_msg p.

Fixpoint holds (m : memory) (R : Z) (l : list packet) (W : Z) : Prop :=
  match l with
  | [] => R = W
  | p :: l => packet_ok p /\ alen p <= qsize - 8 /\ encoded m R p /\ holds m (next R p) l W
  end.

(** [m'] differs from [m] only in the places of the positions from [A] to [B]. *)
Definition changes (A B : Z) (m m' : memory) : Prop :=
  forall a, (forall x, A <= x < B -> a <> qp + x mod qsize) -> rd m' a = rd m a.

Lemma qpos : 0 < qsize.
Proof. lia. Qed.
Hint Resolve qpos : core.

Lemma changes_refl A B m : changes A B m m.
Proof. by intros a _. Qed.
Lemma changes_trans A B C m1 m2 m3 : A <= B <= C -> changes A B m1 m2 -> changes B C m2 m3 -> changes A C m1 m3.
Proof. intros HB H1 H2 a Ha. rewrite H2, H1; [done|intros x Hx; apply Ha; lia..]. Qed.
Lemma changes_weaken A B A' B' m m' : A' <= A -> B <= B' -> changes A B m m' -> changes A' B' m m'.
Proof. intros HA HB H a Ha. apply H. intros x Hx. apply Ha. lia. Qed.

Lemma changes_store X m bs : X mod qsize + Z.of_nat (length bs) <= qsize ->
  changes X (X + Z.of_nat (length bs)) m (store m (qp + X mod qsize) bs).
Proof.
  intros Hb a Ha. apply rd_store_out. pose proof (Z.mod_pos_bound X qsize qpos).
  destruct (decide (a < qp + X mod qsize)); [by left|].
  destruct (decide (qp + X mod qsize + Z.of_nat (length bs) <= a)); [by right|].
  destruct (Ha (X + (a - (qp + X mod qsize)))); [lia|]. rewrite mod_shift by lia. lia.
Qed.

(** The contents between two positions do not depend on the rest. *)
Lemma load_frame A B X n m m' :
  changes A B m m' -> 0 <= n -> X mod qsize + n <= qsize ->
  (X + n <= A /\ B <= X + qsize) \/ (B <= X /\ X + n <= A + qsize) \/ B <= A ->
  load m' (qp + X mod qsize) n = load m (qp + X mod qsize) n.
Proof.
  intros Hc Hn Hfit Hd. apply load_agree. intros a Ha. apply Hc. intros x Hx E.
  pose proof (Z.mod_pos_bound X qsize qpos).
  set (y := X + (a - (qp + X mod qsize))).
  assert (Ey : y mod qsize = a - qp) by (unfold y; rewrite mod_shift by lia; lia).
  destruct (decide (x = y)) as [->|Hne]; [lia|].
  destruct (decide (x < y)); [apply (mod_apart qsize x y)|apply (mod_apart qsize y x)]; lia.
Qed.

(** ** The state of the positions *)
Section positions.
Context (R W : Z) (H8 : W mod 8 = 0) (HRW : R <= W <= R + qsize - 8).
Context (rs ws : packet_queue_state) (Hr : position rs = R mod qsize) (Hw : position ws = W mod qsize).

Lemma positions_equal : (R mod qsize =? W mod qsize) = (R =? W).
Proof.
  pose proof (mod_distance qsize R W ltac:(lia) ltac:(lia)) as E.
  pose proof (Z.mod_pos_bound R qsize ltac:(lia)). pose proof (Z.mod_pos_bound W qsize ltac:(lia)).
  revert E. repeat case_ltb; intros; try lia; done.
Qed.
Lemma queue_state_write : get_queue_state_write qsize rs ws = (qsize - 8 - (W - R), R mod qsize, W mod qsize).
Proof.
  unfold get_queue_state_write. rewrite Hr, Hw, positions_equal. unfold DSPQUEUE_MAX_QUEUE_SIZE in *.
  pose proof (mod_distance qsize R W ltac:(lia) ltac:(lia)) as E.
  pose proof (Z.mod_pos_bound R qsize ltac:(lia)). pose proof (Z.mod_pos_bound W qsize ltac:(lia)).
  pose proof positions_equal as Ep. revert E Ep. repeat case_ltb; intros; try lia; try done; f_equal; f_equal; rewrite u32_small; lia.
Qed.
Lemma queue_state_read : get_queue_state_read qsize rs ws = (W - R, R mod qsize, W mod qsize).
Proof.
  unfold get_queue_state_read. rewrite Hr, Hw, positions_equal. unfold DSPQUEUE_MAX_QUEUE_SIZE in *.
  pose proof (mod_distance qsize R W ltac:(lia) ltac:(lia)) as E.
  pose proof (Z.mod_pos_bound R qsize ltac:(lia)). pose proof (Z.mod_pos_bound W qsize ltac:(lia)).
  pose proof positions_equal as Ep. revert E Ep. repeat case_ltb; intros; try lia; try done; f_equal; f_equal; rewrite ?u32_small; lia.
Qed.
End positions.

(** ** The place of a packet *)
Section place.
Context (W : Z) (p : packet) (H8 : W mod 8 = 0) (Hp : packet_ok p) (Hfit : alen p <= qsize - 8).

Lemma place_room : 8 <= qsize - W mod qsize /\ 8 <= alen p.
Proof.
  destruct (packet_sizes p Hp) as (? & ? & ? & k & -> & ?).
  pose proof (mod8_mod qsize W ltac:(lia) Hq8 H8). pose proof (Z.mod_pos_bound W qsize ltac:(lia)).
  pose proof (Z.div_mod qsize 8 ltac:(lia)). pose proof (Z.div_mod (W mod qsize) 8 ltac:(lia)). lia.
Qed.
Lemma alen_mod8 : alen p mod 8 = 0.
Proof. destruct (packet_sizes p Hp) as (_ & _ & _ & k & -> & _). rewrite Z.mul_comm. apply Z.mod_mul. lia. Qed.
Lemma body_spec : W <= body W p /\ (body W p = W \/ W + 8 <= body W p) /\ body W p mod 8 = 0 /\ body W p mod qsize + alen p <= qsize /\
  (body W p <> W -> body W p mod qsize = 0).
Proof.
  unfold body. destruct place_room. case_ltb.
  - repeat split; try lia; done.
  - rewrite mod_up by lia. repeat split; try lia; try done.
    replace (W + (qsize - W mod qsize)) with (W + qsize - W mod qsize) by lia.
    apply Z.mod_divide; [lia|]. pose proof (mod8_mod qsize W ltac:(lia) Hq8 H8).
    repeat first [apply Z.divide_sub_r | apply Z.divide_add_r]; by apply Z.mod_divide.
Qed.
Lemma next_spec : W + 8 <= next W p <= W + qsize - 8 + alen p /\ next W p mod 8 = 0.
Proof.
  destruct place_room, body_spec as (? & ? & Hb8 & ? & ?). unfold next. split.
  - unfold body in *. case_ltb; lia.
  - apply Z.mod_divide; [lia|]. apply Z.divide_add_r; apply Z.mod_divide; try lia; apply alen_mod8.
Qed.

(** The test of the writer is exact: it finds space just when the packet, with the bytes
    skipped at the end, keeps 8 bytes free. *)
Lemma has_space_spec R : R <= W <= R + qsize - 8 ->
  has_space qsize (qsize - 8 - (W - R)) (W mod qsize) (alen p) =
  if next W p <=? R + qsize - 8 then Some (negb (alen p <=? qsize - W mod qsize)) else None.
Proof.
  intros HRW. destruct place_room. unfold DSPQUEUE_MAX_QUEUE_SIZE in *. pose proof (Z.mod_pos_bound W qsize ltac:(lia)).
  unfold has_space, next, body. rewrite (u32_small (qsize - W mod qsize)) by lia.
  destruct (Z.leb_spec (alen p) (qsize - W mod qsize)); repeat case_ltb; cbn [negb]; try lia; try done;
    repeat match goal with H : context [u32 ?x] |- _ => rewrite (u32_small x) in H by lia end; try lia; done.
Qed.
End place.

(** ** Writing *)

(** A word or data written at a position: the place of the next one. *)
Lemma advance X n : 0 < n -> X mod qsize + n <= qsize ->
  (if qsize <=? u32 (X mod qsize + n) then 0 else u32 (X mod qsize + n)) = (X + n) mod qsize.
Proof.
  intros Hn Hx. unfold DSPQUEUE_MAX_QUEUE_SIZE in *. pose proof (Z.mod_pos_bound X qsize ltac:(lia)). rewrite u32_small by lia.
  case_ltb.
  - replace n with (qsize - X mod qsize) by lia. by rewrite mod_up.
  - by rewrite mod_shift by lia.
Qed.

Lemma write_64_at m X d : X mod qsize + 8 <= qsize ->
  write_64 m qp (X mod qsize) qsize d = (store m (qp + X mod qsize) (le64 d), (X + 8) mod qsize).
Proof. intros Hx. unfold write_64. by rewrite (advance X 8) by lia. Qed.

Lemma write_data_at m X bs : bs <> [] -> Z.of_nat (length bs) < 4294967288 ->
  X mod qsize + align8 (Z.of_nat (length bs)) <= qsize ->
  write_data m qp (X mod qsize) qsize bs = (store m (qp + X mod qsize) bs, (X + align8 (Z.of_nat (length bs))) mod qsize).
Proof.
  intros Hne Hl Hx. unfold write_data. destruct (align8_spec (Z.of_nat (length bs))) as (k & E & Hk); [lia|].
  rewrite advance; [done| |lia]. destruct bs; [done|]. cbn [length] in *. lia.
Qed.

(** Data at a position, with its length; no data is no store. *)
Lemma put_data m X bs : Z.of_nat (length bs) < 4294967288 -> X mod qsize + align8 (Z.of_nat (length bs)) <= qsize ->
  exists m', (if 0 <? Z.of_nat (length bs) then write_data m qp (X mod qsize) qsize bs else (m, X mod qsize))
    = (m', (X + align8 (Z.of_nat (length bs))) mod qsize) /\
  changes X (X + align8 (Z.of_nat (length bs))) m m' /\ load m' (qp + X mod qsize) (Z.of_nat (length bs)) = bs.
Proof.
  intros Hl Hx. destruct (align8_spec (Z.of_nat (length bs))) as (k & E & Hk); [lia|]. destruct bs as [|b bs].
  - exists m. cbn [length] in *. change (Z.of_nat 0) with 0 in *. change (align8 0) with 0 in *. rewrite Z.add_0_r. split; [done|].
    split; [apply changes_refl|by apply load_nil].
  - set (l := b :: bs) in *. assert (0 < Z.of_nat (length l)) by (cbn; lia).
    exists (store m (qp + X mod qsize) l). rewrite (proj2 (Z.ltb_lt 0 _)) by done.
    split; [by apply write_data_at|]. split; [|apply load_store_same].
    eapply changes_weaken; [..|apply changes_store]; lia.
Qed.

Lemma align8_sum n x : 0 <= n -> 0 <= x -> 8 * n + x < 4294967288 -> align8 (8 * n + x) = 8 * n + align8 x.
Proof.
  intros Hn Hx Hb. destruct (align8_spec x) as (k & -> & ?); [lia|]. destruct (align8_spec (8 * n + x)) as (j & -> & ?); lia.
Qed.
Lemma alen_parts p : packet_ok p -> alen p = 8 + 24 * nbufs p + align8 (mlen p).
Proof.
  intros Hp. destruct (packet_sizes p Hp) as (? & ? & E & _). unfold alen. rewrite E.
  replace (8 + 24 * nbufs p + mlen p) with (8 * (1 + 3 * nbufs p) + mlen p) by lia. rewrite align8_sum; lia.
Qed.

(** Inside a packet nothing wraps around. *)
Lemma room_at b i n : 0 <= i -> 0 <= n -> b mod qsize + i + n <= qsize ->
  (b + i) mod qsize + n <= qsize /\ (0 < n -> (b + i) mod qsize = b mod qsize + i).
Proof.
  intros Hi Hn Hb. pose proof (Z.mod_pos_bound b qsize ltac:(lia)). destruct (decide (b mod qsize + i = qsize)).
  - replace (b + i) with (b + (qsize - b mod qsize)) by lia. rewrite mod_up by lia. lia.
  - rewrite mod_shift by lia. lia.
Qed.
Lemma load_at m b i n : 0 <= i -> 0 <= n -> b mod qsize + i + n <= qsize ->
  load m (qp + (b + i) mod qsize) n = load m (qp + b mod qsize + i) n.
Proof.
  intros Hi Hn Hb. destruct (decide (n = 0)) as [->|]; [by rewrite !load_nil|].
  destruct (room_at b i n) as [_ E]; [lia..|]. rewrite E by lia. f_equal. lia.
Qed.

Lemma put_packet_spec m W p : W mod 8 = 0 -> packet_ok p -> alen p <= qsize - 8 -> next W p <= W + qsize ->
  exists m', put_packet m qp qsize (W mod qsize) (negb (alen p <=? qsize - W mod qsize)) (p_hdr p) (p_bufs p) (p_msg p)
      = (m', next W p mod qsize) /\ changes W (next W p) m m' /\ encoded m' W p.
Proof.
  intros H8 Hp Hfit Hturn. destruct (place_room W p H8 Hp) as [Hroom _]. destruct (body_spec W p H8 Hp Hfit) as (Hb & Hb' & Hb8 & Hbq & Hb0).
  destruct (packet_sizes p Hp) as (Hn & Hm & El & _). pose proof (alen_parts p Hp) as Ea. pose proof (next_spec W p H8 Hp Hfit) as [Hnx _].
  pose proof (ok_bufs _ Hp) as Eb. destruct (align8_spec (mlen p)) as (k & Ek & Hk); [lia|].
  pose proof (Z.mod_pos_bound (body W p) qsize ltac:(lia)).
  set (b := body W p) in *.
  (* the header *)
  set (m1 := store m (qp + W mod qsize) (le64 (p_hdr p))).
  assert (C1 : changes W (W + 8) m m1) by (apply (changes_store W m (le64 (p_hdr p))); change (Z.of_nat (length (le64 (p_hdr p)))) with 8; lia).
  assert (L1 : load m1 (qp + W mod qsize) 8 = le64 (p_hdr p)) by exact (load_store_same m _ (le64 (p_hdr p))).
  (* and once more at the beginning *)
  assert (H2 : exists m2, (if negb (alen p <=? qsize - W mod qsize) then write_64 m1 qp 0 qsize (p_hdr p) else (m1, (W + 8) mod qsize))
      = (m2, (b + 8) mod qsize) /\ changes W (b + 8) m m2 /\ load m2 (qp + W mod qsize) 8 = le64 (p_hdr p)).
  { unfold b, body in *. destruct (alen p <=? qsize - W mod qsize) eqn:Ef; cbn [negb]; [by exists m1|].
    set (X := W + (qsize - W mod qsize)) in *. assert (EX : X mod qsize = 0) by (by apply mod_up).
    exists (store m1 (qp + X mod qsize) (le64 (p_hdr p))).
    assert (C2 : changes X (X + 8) m1 (store m1 (qp + X mod qsize) (le64 (p_hdr p)))).
    { apply (changes_store X m1 (le64 (p_hdr p))). change (Z.of_nat (length (le64 (p_hdr p)))) with 8. lia. }
    split; [rewrite <- EX at 1; apply write_64_at; lia|]. split.
    - apply (changes_trans _ X _ _ m1); [lia| |done]. eapply changes_weaken; [..|exact C1]; lia.
    - transitivity (load m1 (qp + W mod qsize) 8); [|done]. eapply load_frame; [exact C2|lia|lia|left]. unfold X. lia. }
  destruct H2 as (m2 & E2 & C2 & L2).
  assert (Eal : align8 (Z.of_nat (length (p_bufs p))) = 24 * nbufs p).
  { rewrite Eb. replace (24 * nbufs p) with (8 * (3 * nbufs p) + 0) by lia. rewrite align8_sum by lia. change (align8 0) with 0. lia. }
  destruct (put_data m2 (b + 8) (p_bufs p)) as (m3 & E3 & C3 & L3); [lia|apply room_at; lia|].
  rewrite Eal in E3, C3. rewrite Eb in L3. fold (mlen p) in *.
  destruct (put_data m3 (b + (8 + 24 * nbufs p)) (p_msg p)) as (m4 & E4 & C4 & L4); fold (mlen p) in *; [lia|apply room_at; lia|].
  exists m4. assert (En : next W p = b + (8 + 24 * nbufs p) + align8 (mlen p)) by (unfold next; fold b; lia).
  replace (b + 8 + 24 * nbufs p) with (b + (8 + 24 * nbufs p)) in * by lia. split; [|split].
  - unfold put_packet. rewrite write_64_at by lia. fold m1. cbn beta iota. rewrite E2. cbn beta iota. rewrite E3. cbn beta iota.
    fold (mlen p). by rewrite E4, En.
  - rewrite En. apply (changes_trans _ (b + (8 + 24 * nbufs p)) _ _ m3); [lia| |done].
    by apply (changes_trans _ (b + 8) _ _ m2); [lia| |].
  - unfold encoded. fold b. split; [|split].
    + rewrite <- L2. transitivity (load m3 (qp + W mod qsize) 8).
      * eapply load_frame; [exact C4|lia..|]. left. lia.
      * eapply load_frame; [exact C3|lia..|]. left. lia.
    + rewrite <- (load_at _ b 8) by lia. rewrite <- L3. eapply load_frame; [exact C4|lia| |lia]. apply room_at; lia.
    + replace (qp + b mod qsize + 8 + 24 * nbufs p) with (qp + b mod qsize + (8 + 24 * nbufs p)) by lia.
      rewrite <- (load_at _ b) by lia. done.
Qed.

(** ** Reading *)
Section read.
Context (m : memory) (R : Z) (p : packet) (H8 : R mod 8 = 0) (Hp : packet_ok p) (Hfit : alen p <= qsize - 8) (He : encoded m R p).

Lemma peek_spec : peek_locked m qp (R mod qsize) = Some (hdr_flags (p_hdr p), nbufs p, mlen p).
Proof.
  destruct He as (Eh & _). destruct (packet_sizes p Hp) as (? & ? & El & _). destruct Hp as [Hh _ _ _ Hl Hb Hm].
  unfold peek_locked. rewrite Eh, le64_of by done. rewrite Hl, Hb, Hm, El. unfold sizeof_dspqueue_buffer.
  rewrite (proj2 (Z.ltb_ge _ _)) by lia. done.
Qed.

(** The reader looks for the data where the writer put it: the two tests, on the padded
    and on the exact length, agree. *)
Lemma data_start_spec : data_start qsize (R mod qsize) (nbufs p) (mlen p) = body R p mod qsize + 8.
Proof.
  destruct (packet_sizes p Hp) as (? & ? & El & k & Ek & Hk). unfold DSPQUEUE_MAX_QUEUE_SIZE in *.
  pose proof (mod8_mod qsize R ltac:(lia) Hq8 H8). pose proof (Z.mod_pos_bound R qsize ltac:(lia)).
  pose proof (Z.div_mod qsize 8 ltac:(lia)). pose proof (Z.div_mod (R mod qsize) 8 ltac:(lia)).
  destruct (body_spec R p H8 Hp Hfit) as (_ & _ & _ & _ & Hb0).
  unfold data_start. fold (plen p). rewrite (u32_small (qsize - _)), (u32_small (plen p)) by lia.
  revert Hb0. unfold body. case_ltb; destruct (Z.leb_spec (alen p) (qsize - R mod qsize)); intros Hb0; try lia.
  rewrite u32_small; lia.
Qed.

Lemma get_packet_spec want_bufs want_msg :
  get_packet m qp qsize (R mod qsize) (nbufs p) (mlen p) want_bufs want_msg =
  ((if want_bufs then p_bufs p else [], if want_msg then p_msg p else []), next R p mod qsize).
Proof.
  destruct (packet_sizes p Hp) as (? & ? & El & _). pose proof (alen_parts p Hp) as Ea. unfold DSPQUEUE_MAX_QUEUE_SIZE in *.
  destruct (body_spec R p H8 Hp Hfit) as (_ & _ & _ & Hbq & _). pose proof (Z.mod_pos_bound (body R p) qsize ltac:(lia)).
  destruct (align8_spec (mlen p)) as (k & Ek & Hk); [lia|].
  assert (Ea24 : align8 (nbufs p * sizeof_dspqueue_buffer) = 24 * nbufs p).
  { unfold sizeof_dspqueue_buffer. replace (nbufs p * 24) with (8 * (3 * nbufs p) + 0) by lia. rewrite align8_sum by lia. change (align8 0) with 0. lia. }
  assert (En : next R p mod qsize = if qsize <=? body R p mod qsize + alen p then 0 else body R p mod qsize + alen p).
  { unfold next. rewrite <- advance by lia. rewrite u32_small by lia. done. }
  destruct He as (_ & Eb & Em). unfold get_packet. rewrite data_start_spec, En. unfold get_data, read_data. rewrite Ea24.
  replace (nbufs p * sizeof_dspqueue_buffer) with (24 * nbufs p) by (unfold sizeof_dspqueue_buffer; lia).
  replace (qp + (body R p mod qsize + 8)) with (qp + body R p mod qsize + 8) by lia. rewrite Eb.
  set (B := body R p mod qsize) in *.
  assert (Z0 : nbufs p = 0 -> p_bufs p = []) by (intros Z; apply nil_length_inv; pose proof (ok_bufs _ Hp); lia).
  assert (Z1 : mlen p = 0 -> p_msg p = []) by (intros Z; apply nil_length_inv; unfold mlen in *; lia).
  assert (Hb : forall wb : bool, exists x, (if 0 <? nbufs p then if wb then (p_bufs p, if qsize <=? u32 (B + 8 + 24 * nbufs p) then 0 else u32 (B + 8 + 24 * nbufs p))
      else ([], u32 (B + 8 + 24 * nbufs p)) else ([], B + 8)) = ((if wb then p_bufs p else []), x) /\
      (x = B + 8 + 24 * nbufs p \/ B + 8 + 24 * nbufs p = qsize /\ x = 0)).
  { intros wb. rewrite u32_small by lia. destruct (Z.ltb_spec 0 (nbufs p)).
    - destruct wb; eexists; (split; [done|]); [case_ltb|]; lia.
    - rewrite Z0 by lia. exists (B + 8). split; [by destruct wb|lia]. }
  destruct (Hb want_bufs) as (x & -> & Hx). clear Hb. cbn beta iota.
  assert (Hb : exists y, (if 0 <? mlen p then if want_msg then (load m (qp + x) (mlen p), if qsize <=? u32 (x + align8 (mlen p)) then 0 else u32 (x + align8 (mlen p)))
      else ([], u32 (x + align8 (mlen p))) else ([], x)) = ((if want_msg then p_msg p else []), y) /\
      (y = B + alen p \/ B + alen p = qsize /\ y = 0)).
  { destruct (Z.ltb_spec 0 (mlen p)).
    - destruct Hx as [->|]; [|lia]. rewrite u32_small by lia. replace (qp + (B + 8 + 24 * nbufs p)) with (qp + B + 8 + 24 * nbufs p) by lia. rewrite Em.
      destruct want_msg; eexists; (split; [done|]); [case_ltb|]; lia.
    - rewrite Z1 by lia. exists x. split; [by destruct want_msg|lia]. }
  destruct Hb as (y & -> & Hy). f_equal. repeat case_ltb; lia.
Qed.
End read.

(** ** The contents under writes *)
Lemma encoded_frame m m' R p A B : R mod 8 = 0 -> packet_ok p -> alen p <= qsize - 8 -> encoded m R p ->
  changes A B m m' -> next R p <= A -> B <= R + qsize -> encoded m' R p.
Proof.
  intros H8 Hp Hfit (Eh & Eb & Em) Hc HA HB. destruct (place_room R p H8 Hp). destruct (body_spec R p H8 Hp Hfit) as (? & ? & _ & ? & _).
  destruct (packet_sizes p Hp) as (? & ? & _). pose proof (alen_parts p Hp). destruct (align8_spec (mlen p)) as (k & ? & ?); [lia|].
  unfold next in *. set (b := body R p) in *.
  assert (Hl : forall i n, 0 <= i -> 0 <= n -> i + n <= alen p -> load m' (qp + b mod qsize + i) n = load m (qp + b mod qsize + i) n).
  { intros i n Hi Hn Hin. rewrite <- !(load_at _ b i n) by lia. eapply load_frame; [exact Hc|lia| |lia]. apply room_at; lia. }
  unfold encoded. fold b. split; [|split].
  - rewrite <- Eh. eapply load_frame; [exact Hc|lia|lia|left]. lia.
  - rewrite Hl by lia. done.
  - replace (qp + b mod qsize + 8 + 24 * nbufs p) with (qp + b mod qsize + (8 + 24 * nbufs p)) in * by lia. rewrite Hl by lia. done.
Qed.

Lemma holds_le m l : forall R W, R mod 8 = 0 -> holds m R l W -> R <= W /\ (l <> [] -> R + 8 <= W).
Proof.
  induction l as [|p l IH]; intros R W H8; cbn [holds]; [intros ->; split; [lia|done]|]. intros (Hp & Hfit & _ & H).
  destruct (next_spec R p H8 Hp Hfit) as [? H8']. destruct (IH _ _ H8' H). lia.
Qed.

Lemma holds_frame m m' A B l : forall R W, R mod 8 = 0 -> holds m R l W -> changes A B m m' -> W <= A -> B <= R + qsize ->
  holds m' R l W.
Proof.
  induction l as [|p l IH]; intros R W H8; cbn [holds]; [done|]. intros (Hp & Hfit & He & H) Hc HA HB.
  destruct (next_spec R p H8 Hp Hfit) as [? H8']. destruct (holds_le _ _ _ _ H8' H).
  split; [done|]. split; [done|]. split; [eapply encoded_frame; try done; lia|]. apply IH; try done; lia.
Qed.

Lemma holds_snoc m l p : forall R W, holds m R l W -> packet_ok p -> alen p <= qsize - 8 -> encoded m W p -> holds m R (l ++ [p]) (next W p).
Proof.
  induction l as [|q l IH]; intros R W; cbn [holds app]; [by intros ->|]. intros (? & ? & ? & H) Hp Hfit He. by auto.
Qed.

(** ** The stores of the writer, one by one *)
Definition apply_stores (st : list (Z * list Z)) (m : memory) : memory := foldl (fun m s => store m s.1 s.2) m st.
Definition put_stores (w : Z) (wrap : bool) (phdr : Z) (bufs msg : list Z) : list (Z * list Z) * Z :=
  let w1 := (write_64 ∅ qp w qsize phdr).2 in
  let '(s2, w2) := if wrap then ([(qp + 0, le64 phdr)], (write_64 ∅ qp 0 qsize phdr).2) else ([], w1) in
  let '(s3, w3) := if 0 <? Z.of_nat (length bufs) then ([(qp + w2, bufs)], (write_data ∅ qp w2 qsize bufs).2) else ([], w2) in
  let '(s4, w4) := if 0 <? Z.of_nat (length msg) then ([(qp + w3, msg)], (write_data ∅ qp w3 qsize msg).2) else ([], w3) in
  ((qp + w, le64 phdr) :: s2 ++ s3 ++ s4, w4).

Lemma put_stores_apply m w wrap phdr bufs msg :
  put_packet m qp qsize w wrap phdr bufs msg =
  (apply_stores (put_stores w wrap phdr bufs msg).1 m, (put_stores w wrap phdr bufs msg).2).
Proof.
  unfold put_packet, put_stores, write_64, write_data.
  by destruct wrap, (0 <? Z.of_nat (length bufs)), (0 <? Z.of_nat (length msg)).
Qed.

(** A store between two positions, inside the buffer. *)
Definition store_in (A B : Z) (s : Z * list Z) : Prop :=
  exists X, A <= X /\ X + Z.of_nat (length s.2) <= B /\ s.1 = qp + X mod qsize /\ X mod qsize + Z.of_nat (length s.2) <= qsize.

Lemma store_in_changes A B s m : store_in A B s -> changes A B m (store m s.1 s.2).
Proof. intros (X & ? & ? & -> & ?). eapply changes_weaken; [..|by apply changes_store]; lia. Qed.

Lemma put_stores_in W p : W mod 8 = 0 -> packet_ok p -> alen p <= qsize - 8 -> next W p <= W + qsize ->
  Forall (store_in W (next W p)) (put_stores (W mod qsize) (negb (alen p <=? qsize - W mod qsize)) (p_hdr p) (p_bufs p) (p_msg p)).1.
Proof.
  intros H8 Hp Hfit Hturn. destruct (place_room W p H8 Hp) as [Hroom _]. destruct (body_spec W p H8 Hp Hfit) as (Hb & Hb' & Hb8 & Hbq & Hb0).
  destruct (packet_sizes p Hp) as (Hn & Hm & El & _). pose proof (alen_parts p Hp) as Ea.
  pose proof (ok_bufs _ Hp) as Eb. destruct (align8_spec (mlen p)) as (k & Ek & Hk); [lia|].
  assert (Eal : align8 (Z.of_nat (length (p_bufs p))) = 24 * nbufs p).
  { rewrite Eb. replace (24 * nbufs p) with (8 * (3 * nbufs p) + 0) by lia. rewrite align8_sum by lia. change (align8 0) with 0. lia. }
  assert (En : next W p = body W p + 8 + 24 * nbufs p + align8 (mlen p)) by (unfold next; lia).
  assert (H0 : store_in W (next W p) (qp + W mod qsize, le64 (p_hdr p))).
  { exists W. change (Z.of_nat (length (qp + W mod qsize, le64 (p_hdr p)).2)) with 8. repeat split; lia. }
  assert (Hw : exists s2, (if negb (alen p <=? qsize - W mod qsize) then ([(qp + 0, le64 (p_hdr p))], (write_64 ∅ qp 0 qsize (p_hdr p)).2)
      else ([], (write_64 ∅ qp (W mod qsize) qsize (p_hdr p)).2)) = (s2, (body W p + 8) mod qsize) /\ Forall (store_in W (next W p)) s2).
  { unfold body in *. destruct (Z.leb_spec (alen p) (qsize - W mod qsize)); cbn [negb].
    - rewrite write_64_at by lia. eexists. split; [done|constructor].
    - set (X := W + (qsize - W mod qsize)) in *. assert (EX : X mod qsize = 0) by (apply Hb0; unfold X; lia).
      replace (write_64 ∅ qp 0 qsize (p_hdr p)) with (write_64 ∅ qp (X mod qsize) qsize (p_hdr p)) by (by rewrite EX). rewrite write_64_at by lia. eexists. split; [done|].
      constructor; [|constructor]. exists X. change (Z.of_nat (length (qp + 0, le64 (p_hdr p)).2)) with 8.
      rewrite EX. cbn [fst]. repeat split; lia. }
  assert (Hd : forall i bs, 8 <= i -> body W p + i + align8 (Z.of_nat (length bs)) <= next W p -> Z.of_nat (length bs) < 4294967288 ->
    exists s, (if 0 <? Z.of_nat (length bs) then ([(qp + (body W p + i) mod qsize, bs)], (write_data ∅ qp ((body W p + i) mod qsize) qsize bs).2)
      else ([], (body W p + i) mod qsize)) = (s, (body W p + (i + align8 (Z.of_nat (length bs)))) mod qsize) /\ Forall (store_in W (next W p)) s).
  { intros i bs Hi Hr Hlt. destruct (align8_spec (Z.of_nat (length bs))) as (j & Ej & Hj); [lia|]. unfold next in Hr.
    destruct (room_at (body W p) i (align8 (Z.of_nat (length bs)))) as [Hroom' _]; [lia..|].
    destruct bs as [|x bs].
    - change (Z.of_nat (length (@nil Z))) with 0. change (align8 0) with 0. change (0 <? 0) with false. rewrite Z.add_0_r. eexists. split; [done|constructor].
    - set (l := x :: bs) in *. assert (0 < Z.of_nat (length l)) by (cbn; lia). rewrite (proj2 (Z.ltb_lt 0 _)) by done.
      rewrite write_data_at by (try lia; done). eexists. split; [by rewrite Z.add_assoc|]. constructor; [|constructor].
      exists (body W p + i). cbn [fst snd]. repeat split; unfold next; lia. }
  destruct Hw as (s2 & E2 & F2). destruct (Hd 8 (p_bufs p)) as (s3 & E3 & F3); [lia..|]. rewrite Eal in E3.
  destruct (Hd (8 + 24 * nbufs p) (p_msg p)) as (s4 & E4 & F4); [fold (mlen p); lia..|].
  unfold put_stores. rewrite E2, E3, E4. cbn [fst]. constructor; [done|]. by repeat apply Forall_app_2.
Qed.

(** ** The writer and the reader, interleaved

    The writer looks at the positions, does its stores one by one and publishes the new
    position; the reader looks at the positions, reads the header, reads the data and
    publishes its position. Each is one step; the steps of the two sides interleave
    freely. A packet with the flag for an early wakeup is taken out without being handed on
    ([RSkip]), and in the same call the reader waits for the next packet ([RWait]), whose
    header it does not test for the flag again. A read that fails leaves the queue alone.
    [sent] is what was published; [got] is what was taken out so far, with whether it was
    handed on. *)
Inductive writer := WIdle | WCopy (st : list (Z * list Z)) (w : Z) (p : packet).
Inductive reader :=
  | RIdle | RPeek (again : bool) (r : Z) | RWake (r : Z) (h : Z * Z * Z) | RData (r : Z) (h : Z * Z * Z)
  | RDone (r : Z) (out : Z * list Z * list Z) | RSkip (r : Z) (out : Z * list Z * list Z) | RWait.
Record sys := Sys {
  mem : memory; read_state : packet_queue_state; write_state : packet_queue_state;
  wpc : writer; rpc : reader; sent : list packet; got : list (bool * (Z * list Z * list Z))
}.
Definition view (p : packet) : Z * list Z * list Z := (hdr_flags (p_hdr p), p_bufs p, p_msg p).
Definition is_wakeup (flags : Z) : bool := negb (Z.land flags DSPQUEUE_PACKET_FLAG_WAKEUP =? 0).
Definition set_position (x c : Z) (s : packet_queue_state) : packet_queue_state := PState x c (wait_count s).
Definition set_rpc (pc : reader) (s : sys) : sys := Sys (mem s) (read_state s) (write_state s) (wpc s) pc (sent s) (got s).
Definition take_out (r : Z) (handed : bool) (out : Z * list Z * list Z) (pc : reader) (s : sys) : sys :=
  Sys (mem s) (set_position r (u32 (packet_count (read_state s) + 1)) (read_state s)) (write_state s) (wpc s) pc (sent s) (got s ++ [(handed, out)]).

(** The time in an early wakeup and the place after it: without a time the place is not
    wrapped around. *)
Definition wakeup_data (m : memory) (r ml : Z) : list Z * Z :=
  let r := data_start qsize r 0 ml in
  if 0 <? ml then read_data m qp r qsize 4 else ([], r).

Inductive step : sys -> sys -> Prop :=
| w_start s p wrap qleft r w st w' : wpc s = WIdle -> packet_ok p -> alen p <= u32 (qsize - 8) ->
    get_queue_state_write qsize (read_state s) (write_state s) = (qleft, r, w) ->
    has_space qsize qleft w (alen p) = Some wrap ->
    put_stores w wrap (p_hdr p) (p_bufs p) (p_msg p) = (st, w') ->
    step s (Sys (mem s) (read_state s) (write_state s) (WCopy st w' p) (rpc s) (sent s) (got s))
| w_store s a bs st w p : wpc s = WCopy ((a, bs) :: st) w p ->
    step s (Sys (store (mem s) a bs) (read_state s) (write_state s) (WCopy st w p) (rpc s) (sent s) (got s))
| w_publish s w p : wpc s = WCopy [] w p ->
    step s (Sys (mem s) (read_state s) (set_position w (u32 (packet_count (write_state s) + 1)) (write_state s)) WIdle (rpc s) (sent s ++ [p]) (got s))
| r_start s (again : bool) qleft r w : rpc s = (if again then RWait else RIdle) ->
    get_queue_state_read qsize (read_state s) (write_state s) = (qleft, r, w) -> 8 <= qleft ->
    step s (set_rpc (RPeek again r) s)
| r_late s : rpc s = RWait -> step s (set_rpc RIdle s)
| r_peek s again r h : rpc s = RPeek again r -> peek_locked (mem s) qp r = Some h ->
    step s (set_rpc (if negb again && is_wakeup h.1.1 then RWake r h else RData r h) s)
| r_bad_header s again r : rpc s = RPeek again r -> peek_locked (mem s) qp r = None -> step s (set_rpc RIdle s)
| r_wakeup s r f nb ml msg r' : rpc s = RWake r (f, nb, ml) -> nb = 0 -> ml = 0 \/ ml = 4 ->
    wakeup_data (mem s) r ml = (msg, r') ->
    step s (set_rpc (RSkip r' (f, [], msg)) s)
| r_bad_wakeup s r f nb ml : rpc s = RWake r (f, nb, ml) -> nb <> 0 \/ (0 < ml /\ ml <> 4) -> step s (set_rpc RIdle s)
| r_skip s r out : rpc s = RSkip r out -> step s (take_out r false out RWait s)
| r_data s r f nb ml bufs msg r' : rpc s = RData r (f, nb, ml) -> Z.land f DSPQUEUE_PACKET_FLAG_USER_READY <> 0 ->
    get_packet (mem s) qp qsize r nb ml true true = ((bufs, msg), r') ->
    step s (set_rpc (RDone r' (f, bufs, msg)) s)
| r_refuse s r h : rpc s = RData r h -> step s (set_rpc RIdle s)
| r_publish s r out : rpc s = RDone r out -> step s (take_out r true out RIdle s).

(** The assumption on what is written: an early wakeup without a time does not end at the end
    of the queue. There the reader would leave its position behind the end. *)
Definition clear (s : sys) : Prop :=
  match wpc s with
  | WCopy _ w p => is_wakeup (hdr_flags (p_hdr p)) = true -> nbufs p = 0 -> mlen p = 0 -> w <> 0
  | WIdle => True
  end.
Inductive reachable : sys -> Prop :=
| reach_init m : reachable (Sys m (PState 0 0 0) (PState 0 0 0) WIdle RIdle [] [])
| reach_step s s' : reachable s -> step s s' -> clear s' -> reachable s'.

(** The invariant: between the positions lie the packets published and not yet read; the
    stores left to the writer complete its packet and stay in the free space; the reader
    is at the first packet. *)
Definition clear_at (W : Z) (p : packet) : Prop :=
  is_wakeup (hdr_flags (p_hdr p)) = true -> nbufs p = 0 -> mlen p = 0 -> next W p mod qsize <> 0.
Fixpoint all_clear (R : Z) (l : list packet) : Prop :=
  match l with [] => True | p :: l => clear_at R p /\ all_clear (next R p) l end.
Definition writer_ok (R W : Z) (m : memory) (pc : writer) : Prop :=
  match pc with
  | WIdle => True
  | WCopy st w p => packet_ok p /\ alen p <= qsize - 8 /\ next W p <= R + qsize - 8 /\ w = next W p mod qsize /\
      Forall (store_in W (next W p)) st /\ encoded (apply_stores st m) W p /\ clear_at W p
  end.
Definition at_first (R : Z) (l : list packet) (P : packet -> Prop) : Prop := exists p l', l = p :: l' /\ P p.
Definition reader_ok (R : Z) (l : list packet) (pc : reader) : Prop :=
  match pc with
  | RIdle | RWait => True
  | RPeek _ r => r = R mod qsize /\ l <> []
  | RWake r h => at_first R l (fun p : packet => r = R mod qsize /\ h = (hdr_flags (p_hdr p), nbufs p, mlen p) /\ is_wakeup (hdr_flags (p_hdr p)) = true)
  | RData r h => at_first R l (fun p : packet => r = R mod qsize /\ h = (hdr_flags (p_hdr p), nbufs p, mlen p))
  | RDone r out => at_first R l (fun p : packet => r = next R p mod qsize /\ out = view p)
  | RSkip r out => at_first R l (fun p : packet => r = next R p mod qsize /\ out = view p /\ is_wakeup (hdr_flags (p_hdr p)) = true)
  end.
Definition skipped_wakeups (l : list (bool * (Z * list Z * list Z))) : Prop :=
  Forall (fun x : bool * (Z * list Z * list Z) => x.1 = false -> is_wakeup x.2.1.1 = true) l.
Record inv_at (R W : Z) (l : list packet) (s : sys) : Prop := {
  inv_R : R mod 8 = 0; inv_W : W mod 8 = 0; inv_le : R <= W <= R + qsize - 8;
  inv_r : position (read_state s) = R mod qsize; inv_w : position (write_state s) = W mod qsize;
  inv_holds : holds (mem s) R l W;
  inv_sent : exists old, sent s = old ++ l /\ (snd <$> got s) = view <$> old;
  inv_skipped : skipped_wakeups (got s);
  inv_wcount : packet_count (write_state s) = u32 (Z.of_nat (length (sent s)));
  inv_rcount : packet_count (read_state s) = u32 (Z.of_nat (length (got s)));
  inv_clear : all_clear R l;
  inv_writer : writer_ok R W (mem s) (wpc s); inv_reader : reader_ok R l (rpc s)
}.
Definition ring_inv (s : sys) : Prop := exists R W l, inv_at R W l s.

Lemma inv_init m : ring_inv (Sys m (PState 0 0 0) (PState 0 0 0) WIdle RIdle [] []).
Proof. exists 0, 0, []. split; cbn; try done; [lia|by exists []|constructor]. Qed.

Lemma count_snoc {A} c (l : list A) x : c = u32 (Z.of_nat (length l)) -> u32 (c + 1) = u32 (Z.of_nat (length (l ++ [x]))).
Proof. intros ->. rewrite length_app. cbn [length]. unfold u32. rewrite Zplus_mod_idemp_l. f_equal. lia. Qed.

Lemma all_clear_snoc m l p : forall R W, holds m R l W -> all_clear R l -> clear_at W p -> all_clear R (l ++ [p]).
Proof. induction l as [|q l IH]; intros R W; cbn [holds all_clear app]; [by intros -> _ ?|]. intros (_ & _ & _ & H) [? ?] Hp. split; [done|by eapply IH]. Qed.
Lemma reader_snoc R l p pc : reader_ok R l pc -> reader_ok R (l ++ [p]) pc.
Proof.
  unfold reader_ok, at_first. destruct pc; try done; [intros [-> ?]; split; [done|by destruct l]|..]; intros (q & l' & -> & H); exists q, (l' ++ [p]); by split.
Qed.

(** A step of the reader that changes nothing but where it is. *)
Lemma inv_set_rpc R W l pc s : inv_at R W l s -> reader_ok R l pc -> ring_inv (set_rpc pc s).
Proof. intros [] Hpc. exists R, W, l. by split. Qed.

(** A packet is taken out. *)
Lemma inv_take_out R W q l r handed pc s : inv_at R W (q :: l) s -> r = next R q mod qsize -> pc = RIdle \/ pc = RWait ->
  (handed = false -> is_wakeup (hdr_flags (p_hdr q)) = true) -> ring_inv (take_out r handed (view q) pc s).
Proof.
  intros [HR HW HRW Er Ew Hl (old & Es & Eg) Hsk Ec Ec' Hcl Hwp Hrp] -> Hpc Hh. destruct Hl as (Hp & Hfit & He & Hl). destruct Hcl as [_ Hcl].
  destruct (next_spec R q HR Hp Hfit) as [Hge H8]. destruct (holds_le _ _ _ _ H8 Hl).
  exists (next R q), W, l. split; cbn [take_out mem read_state write_state wpc rpc sent got position set_position packet_count]; try done; try lia.
  - exists (old ++ [q]). rewrite Es, !fmap_app, Eg, <- app_assoc. done.
  - apply Forall_app. split; [done|]. by repeat constructor.
  - by apply count_snoc.
  - unfold writer_ok in *. destruct (wpc s); [done|]. destruct Hwp as (?&?&?&?). split_and!; first [done | lia | tauto].
  - by destruct Hpc as [-> | ->].
Qed.

(** The place after an early wakeup. *)
Lemma wakeup_data_spec m R p : R mod 8 = 0 -> packet_ok p -> alen p <= qsize - 8 -> encoded m R p -> clear_at R p ->
  is_wakeup (hdr_flags (p_hdr p)) = true -> nbufs p = 0 -> mlen p = 0 \/ mlen p = 4 ->
  wakeup_data m (R mod qsize) (mlen p) = (p_msg p, next R p mod qsize) /\ p_bufs p = [].
Proof.
  intros H8 Hp Hfit He Hcl Hwk Hn Hm. assert (Eb : p_bufs p = []) by (apply nil_length_inv; pose proof (ok_bufs _ Hp); lia).
  split; [|done]. pose proof (get_packet_spec m R p H8 Hp Hfit He true true) as Hg.
  pose proof (data_start_spec R p H8 Hp Hfit) as Hd. unfold get_packet, get_data in Hg. rewrite Hn in Hg, Hd. unfold wakeup_data.
  change (0 <? 0) with false in Hg. cbv iota beta in Hg. destruct Hm as [Em|Em]; rewrite Em in *.
  - change (0 <? 0) with false in *. cbv iota beta in *. rewrite Hd in *.
    assert (Et : p_msg p = []) by (apply nil_length_inv; unfold mlen in Em; lia). rewrite Et. f_equal. rewrite Eb, Et in Hg. injection Hg as Hg.
    specialize (Hcl Hwk Hn Em). revert Hg. case_ltb; intros; lia.
  - change (0 <? 4) with true in *. cbv iota beta in *. unfold read_data in *. injection Hg as _ -> Hg. f_equal. rewrite <- Hg.
    repeat case_ltb; lia.
Qed.
Lemma inv_step s s' : ring_inv s -> step s s' -> clear s' -> ring_inv s'.
Proof.
  intros (R & W & l & Hi) Hst Hclr. pose proof Hi as [HR HW HRW Er Ew Hl Hs Hsk Ec Ec' Hcl Hwp Hrp].
  assert (E8 : u32 (qsize - 8) = qsize - 8) by (unfold DSPQUEUE_MAX_QUEUE_SIZE in *; apply u32_small; lia).
  destruct Hst as [s p wrap qleft r w st w' Hpc Hp Hfit Eq Hsp Est|s a bs st w p Hpc|s w p Hpc|s again qleft r w Hpc Eq H8|s Hpc|s again r h Hpc Hpk|s again r Hpc Hpk
    |s r f nb ml msg r' Hpc Hnb Hml Hg|s r f nb ml Hpc Hbad|s r out Hpc|s r f nb ml bufs msg r' Hpc Hrdy Hg|s r h Hpc|s r out Hpc];
    rewrite Hpc in *.
  - rewrite E8 in Hfit. rewrite (queue_state_write R W) in Eq by done. injection Eq as <- <- <-.
    rewrite has_space_spec in Hsp by done. destruct (Z.leb_spec (next W p) (R + qsize - 8)) as [Hn|]; [|done]. injection Hsp as <-.
    exists R, W, l. split; try done. cbn [writer_ok wpc mem].
    destruct (put_packet_spec (mem s) W p) as (m' & E & _ & Henc); [done..|lia|].
    rewrite put_stores_apply, Est in E. injection E as <- E.
    assert (Hcw : clear_at W p) by (unfold clear_at; rewrite <- E; exact Hclr).
    pose proof (put_stores_in W p HW Hp Hfit ltac:(lia)) as Hin. rewrite Est in Hin. by split_and!.
  - destruct Hwp as (Hp & Hfit & Hn & -> & [Hin Hin']%Forall_cons & Henc & Hcw). exists R, W, l. split; try done.
    cbn [mem]. eapply holds_frame; [done..|by apply (store_in_changes _ _ (a, bs))| |]; lia.
  - destruct Hwp as (Hp & Hfit & Hn & -> & _ & Henc & Hcw). destruct (next_spec W p HW Hp Hfit) as [Hge H8]. destruct Hs as (old & Es & Eg).
    exists R, (next W p), (l ++ [p]). split; cbn [mem read_state write_state wpc rpc sent got writer_ok position set_position packet_count]; try done; try lia.
    + by apply holds_snoc.
    + exists old. by rewrite Es, <- app_assoc.
    + by apply count_snoc.
    + by eapply all_clear_snoc.
    + by apply reader_snoc.
  - rewrite (queue_state_read R W) in Eq by done. injection Eq as <- <- <-. apply (inv_set_rpc R W l); [done|]. cbn. split; [done|].
    intros ->. cbn in Hl. lia.
  - by apply (inv_set_rpc R W l).
  - destruct Hrp as [-> Hne]. destruct l as [|q l]; [done|]. destruct Hl as (Hp & Hfit & He & Hl). rewrite (peek_spec _ _ q) in Hpk by done. injection Hpk as <-.
    apply (inv_set_rpc R W (q :: l)); [done|]. cbn [fst]. destruct (negb again && is_wakeup (hdr_flags (p_hdr q))) eqn:Ew'; exists q, l; [|done].
    apply andb_true_iff in Ew' as [_ Ew']. done.
  - by apply (inv_set_rpc R W l).
  - destruct Hrp as (q & l' & -> & -> & [= -> -> ->] & Hwk). destruct Hl as (Hp & Hfit & He & Hl). destruct Hcl as [Hcl _].
    destruct (wakeup_data_spec (mem s) R q) as [E Eb]; [done..|]. rewrite E in Hg. injection Hg as <- <-.
    apply (inv_set_rpc R W (q :: l')); [done|]. exists q, l'. split; [done|]. split; [done|]. split; [|done]. unfold view. by rewrite Eb.
  - by apply (inv_set_rpc R W l).
  - destruct Hrp as (q & l' & -> & -> & -> & Hwk). apply (inv_take_out R W q l'); auto.
  - destruct Hrp as (q & l' & -> & -> & [= -> -> ->]). destruct Hl as (Hp & Hfit & He & Hl). rewrite get_packet_spec in Hg by done. injection Hg as <- <- <-.
    apply (inv_set_rpc R W (q :: l')); [done|]. by exists q, l'.
  - by apply (inv_set_rpc R W l).
  - destruct Hrp as (q & l' & -> & -> & ->). apply (inv_take_out R W q l'); auto. done.
Qed.

(** C25: The queue is first in, first out under every interleaving of its two sides, for a length
    that is a multiple of 8 and at least 16 bytes (which the code does not check,
    [queue_size_unchecked]) and as long as no early wakeup without a time ends at the end of
    the queue ([clear]; there the reader leaves the queue). What was taken out is always a
    prefix of what was published, packet by packet with flags, buffer references and message,
    and everything that was not handed on was an early wakeup; the reader never meets a header
    that it rejects; every store of the writer is inside the queue; and no step touches a
    packet that was published and not yet taken out. *)
Theorem ring_fifo s : reachable s ->
  (exists rest, view <$> sent s = (snd <$> got s) ++ rest) /\
  (forall handed v, (handed, v) ∈ got s -> handed = false -> is_wakeup v.1.1 = true) /\
  (forall again r, rpc s = RPeek again r -> is_Some (peek_locked (mem s) qp r)) /\
  (forall a bs st w p, wpc s = WCopy ((a, bs) :: st) w p -> qp <= a /\ a + Z.of_nat (length bs) <= qp + qsize) /\
  (forall s', step s s' -> exists R W l, holds (mem s) R l W /\ holds (mem s') R l W /\ view <$> sent s = (snd <$> got s) ++ (view <$> l)).
Proof.
  intros Hr. assert (Hi : ring_inv s) by (induction Hr; [apply inv_init|by eapply inv_step]). clear Hr.
  destruct Hi as (R & W & l & [HR HW HRW Er Ew Hl (old & Es & Eg) Hsk Ec Ec' Hcl Hwp Hrp]).
  assert (Ev : view <$> sent s = (snd <$> got s) ++ (view <$> l)) by (by rewrite Es, Eg, fmap_app).
  split; [by exists (view <$> l)|]. split; [|split; [|split]].
  - intros handed v Hin Hf. exact (proj1 (Forall_forall _ _) Hsk _ Hin Hf).
  - intros again r Hpc. rewrite Hpc in Hrp. destruct Hrp as [-> Hne]. destruct l as [|q l]; [done|]. destruct Hl as (? & ? & ? & ?).
    by rewrite (peek_spec _ _ q).
  - intros a bs st w p Hpc. rewrite Hpc in Hwp. destruct Hwp as (_ & _ & _ & _ & [(X & ? & ? & E & ?) _]%Forall_cons & _).
    cbn [fst snd] in *. pose proof (Z.mod_pos_bound X qsize ltac:(lia)). lia.
  - intros s' Hst. exists R, W, l. split; [done|]. split; [|done]. destruct Hst as [| s a bs st w p Hpc | | | | | | | | | | |]; try done.
    rewrite Hpc in Hwp. destruct Hwp as (Hp & Hfit & Hn & -> & [Hin Hin']%Forall_cons & Henc).
    eapply holds_frame; [done..|by apply (store_in_changes _ _ (a, bs))| |]; lia.
Qed.
End ring.
(** ** The header *)
Lemma lor_disjoint a b k : 0 <= k -> 0 <= a < 2 ^ k -> Z.lor a (Z.shiftl b k) = a + b * 2 ^ k.
Proof.
  intros Hk Ha. rewrite Z.shiftl_mul_pow2 by lia. rewrite <- Z.add_lor_land.
  replace (Z.land a (b * 2 ^ k)) with 0; [lia|]. symmetry. rewrite <- Z.shiftl_mul_pow2 by lia.
  apply Z.bits_inj'. intros n Hn. rewrite Z.land_spec, Z.bits_0.
  destruct (Z.ltb_spec n k); [by rewrite Z.shiftl_spec_low, andb_false_r|].
  rewrite <- (Z.mod_small a (2 ^ k)) by done. rewrite Z.mod_pow2_bits_high; [done|lia].
Qed.
Lemma land_mask_mod a k m : 0 <= k -> m = 2 ^ k - 1 -> Z.land a m = a mod 2 ^ k.
Proof. intros Hk ->. replace (2 ^ k - 1) with (Z.ones k) by (rewrite Z.ones_equiv; lia). by apply Z.land_ones. Qed.

Lemma packet_header_sum len flags nb seq :
  packet_header len flags nb seq = len mod 2 ^ 32 + flags mod 2 ^ 16 * 2 ^ 32 + nb mod 2 ^ 8 * 2 ^ 48 + seq mod 2 ^ 8 * 2 ^ 56.
Proof.
  unfold packet_header. rewrite (land_mask_mod len 32), (land_mask_mod flags 16), (land_mask_mod nb 8), (land_mask_mod seq 8) by (done || lia).
  pose proof (Z.mod_pos_bound len (2 ^ 32) ltac:(lia)). pose proof (Z.mod_pos_bound flags (2 ^ 16) ltac:(lia)). pose proof (Z.mod_pos_bound nb (2 ^ 8) ltac:(lia)).
  rewrite (lor_disjoint (len mod 2 ^ 32)) by lia. rewrite (lor_disjoint _ (nb mod 2 ^ 8)) by lia. by rewrite lor_disjoint by lia.
Qed.

Lemma header_fields_back len flags nb seq : 0 <= len < 2 ^ 32 -> 0 <= nb < 2 ^ 8 ->
  let d := packet_header len flags nb seq in
  0 <= d < 18446744073709551616 /\ hdr_len d = len /\ hdr_flags d = flags mod 2 ^ 16 /\ Z.land (Z.shiftr d 48) 255 = nb.
Proof.
  intros Hl Hn d. unfold d. rewrite packet_header_sum, (Z.mod_small len), (Z.mod_small nb) by lia.
  pose proof (Z.mod_pos_bound flags (2 ^ 16) ltac:(lia)).
  pose proof (Z.mod_pos_bound seq (2 ^ 8) ltac:(lia)). unfold hdr_len, hdr_flags.
  rewrite (land_mask_mod _ 32), (land_mask_mod _ 16), (land_mask_mod _ 8), !Z.shiftr_div_pow2 by (done || lia).
  set (q := seq mod 2 ^ 8) in *. set (g := flags mod 2 ^ 16) in *. clearbody q g. change (2 ^ 32) with 4294967296 in *. change (2 ^ 16) with 65536 in *. change (2 ^ 8) with 256 in *.
  change (2 ^ 48) with 281474976710656. change (2 ^ 56) with 72057594037927936.
  repeat split; Z.to_euclidean_division_equations; lia.
Qed.

(** The packet that [dspqueue_write_noblock] makes from its arguments. *)
Definition ready_flags (flags : Z) (num_buffers message_length : Z) : Z :=
  let f := if 0 <? num_buffers then Z.lor flags DSPQUEUE_PACKET_FLAG_BUFFERS else Z.land flags (u32 (Z.lnot DSPQUEUE_PACKET_FLAG_BUFFERS)) in
  let f := if 0 <? message_length then Z.lor f DSPQUEUE_PACKET_FLAG_MESSAGE else Z.land f (u32 (Z.lnot DSPQUEUE_PACKET_FLAG_MESSAGE)) in
  f.
Definition make_packet (flags seq_no : Z) (bufs msg : list Z) : packet :=
  let nb := Z.of_nat (length bufs) / 24 in
  let ml := Z.of_nat (length msg) in
  Packet (packet_header (packet_len nb ml) (Z.lor (ready_flags flags nb ml) DSPQUEUE_PACKET_FLAG_USER_READY) nb seq_no) bufs msg.

Lemma ready_bits flags nb ml : 0 <= nb -> 0 <= ml ->
  let f := Z.lor (ready_flags flags nb ml) DSPQUEUE_PACKET_FLAG_USER_READY in
  Z.testbit f 0 = (0 <? ml) /\ Z.testbit f 1 = (0 <? nb) /\ Z.testbit f 4 = true.
Proof.
  intros Hn Hm f. unfold f, ready_flags, DSPQUEUE_PACKET_FLAG_USER_READY, DSPQUEUE_PACKET_FLAG_BUFFERS, DSPQUEUE_PACKET_FLAG_MESSAGE.
  change (u32 (Z.lnot 1)) with 4294967294. change (u32 (Z.lnot 2)) with 4294967293.
  destruct (0 <? nb), (0 <? ml); repeat rewrite ?Z.lor_spec, ?Z.land_spec;
    repeat match goal with |- context [Z.testbit (Zpos ?p) ?k] =>
      let v := eval vm_compute in (Z.testbit (Zpos p) k) in change (Z.testbit (Zpos p) k) with v end;
    by rewrite ?orb_true_r, ?orb_false_r, ?andb_true_r, ?andb_false_r.
Qed.

Lemma make_packet_ok flags seq_no bufs msg nb : Z.of_nat (length bufs) = 24 * nb -> nb <= DSPQUEUE_MAX_BUFFERS ->
  Z.of_nat (length msg) <= DSPQUEUE_MAX_MESSAGE_SIZE -> packet_ok (make_packet flags seq_no bufs msg).
Proof.
  intros Hb Hn Hm. unfold DSPQUEUE_MAX_BUFFERS, DSPQUEUE_MAX_MESSAGE_SIZE in *.
  assert (En : Z.of_nat (length bufs) / 24 = nb) by (rewrite Hb, Z.mul_comm; by apply Z.div_mul).
  set (ml := Z.of_nat (length msg)) in *. assert (0 <= ml) by (unfold ml; lia).
  unfold make_packet. rewrite En. fold ml. set (F := Z.lor (ready_flags flags nb ml) DSPQUEUE_PACKET_FLAG_USER_READY).
  destruct (ready_bits flags nb ml) as (B0 & B1 & _); [lia..|]. fold F in B0, B1.
  destruct (header_fields_back (packet_len nb ml) F nb seq_no) as (Hd & Hl & Hf & Hnb); [unfold packet_len, sizeof_dspqueue_buffer; lia..|].
  set (p := Packet _ bufs msg). assert (Enp : nbufs p = nb) by exact En. assert (Emp : mlen p = ml) by done.
  assert (Hbit : forall k, 0 <= k < 16 -> Z.land (F mod 2 ^ 16) (2 ^ k) = if Z.testbit F k then 2 ^ k else 0).
  { intros k Hk. rewrite land_pow2 by lia. by rewrite Z.mod_pow2_bits_low by lia. }
  assert (Hhb : hdr_buffers (p_hdr p) = nb).
  { unfold hdr_buffers, p. cbn [p_hdr]. rewrite Hf. change DSPQUEUE_PACKET_FLAG_BUFFERS with (2 ^ 1). rewrite Hbit, B1 by lia.
    destruct (Z.ltb_spec 0 nb); cbn -[Z.land Z.shiftr]; [done|lia]. }
  split; cbn [p_hdr p_bufs p_msg]; rewrite ?Enp, ?Emp; try done.
  - unfold plen. by rewrite Enp, Emp.
  - unfold hdr_message. rewrite Hhb. unfold p. cbn [p_hdr]. rewrite Hf, Hl. change DSPQUEUE_PACKET_FLAG_MESSAGE with (2 ^ 0). rewrite Hbit, B0 by lia.
    unfold packet_len, sizeof_dspqueue_buffer. destruct (Z.ltb_spec 0 ml); [change (2 ^ 0 =? 0) with false; cbn iota; rewrite u32_small; lia|cbn; lia].
Qed.

(** ** What the sizes allow *)

(** Progress: in an empty queue a packet of length [a] (with its padding) finds space at
    every position exactly when twice its length fits the queue. A larger one,
    up to the [queue_length - 8] that the code admits, is refused at some position although
    nothing is left to be read, so that no reader can ever make room for it. *)
Theorem large_packet_stuck qsize a : qsize mod 8 = 0 -> a mod 8 = 0 -> 8 <= a -> a <= qsize - 8 -> qsize <= DSPQUEUE_MAX_QUEUE_SIZE ->
  (forall w, 0 <= w < qsize -> w mod 8 = 0 -> is_Some (has_space qsize (get_queue_state_write qsize (PState w 0 0) (PState w 0 0)).1.1 w a))
  <-> 2 * a <= qsize.
Proof.
  intros Hq Ha H8 Hfit Hmax. unfold DSPQUEUE_MAX_QUEUE_SIZE in *.
  assert (E : forall w, (get_queue_state_write qsize (PState w 0 0) (PState w 0 0)).1.1 = qsize - 8).
  { intros w. unfold get_queue_state_write. cbn [position]. rewrite Z.eqb_refl. cbn [fst]. apply u32_small. lia. }
  assert (Es : forall w, 0 <= w < qsize -> has_space qsize (qsize - 8) w a =
    if qsize - w <? a then if w - 8 <? a then None else Some true else Some false).
  { intros w Hw. unfold has_space. rewrite (u32_small (qsize - w)) by lia. rewrite (proj2 (Z.ltb_ge _ _)) by lia.
    destruct (Z.ltb_spec (qsize - w) a); [|done]. by rewrite u32_small by lia; replace (qsize - 8 - (qsize - w)) with (w - 8) by lia. }
  split.
  - intros H. destruct (decide (2 * a <= qsize)); [done|].
    assert (Hw : (qsize - a + 8) mod 8 = 0).
    { apply Z.mod_divide; [lia|]. apply Z.divide_add_r; [apply Z.divide_sub_r; by apply Z.mod_divide|apply Z.divide_refl]. }
    specialize (H (qsize - a + 8) ltac:(lia) Hw). rewrite E, Es in H by lia.
    rewrite (proj2 (Z.ltb_lt (qsize - _) a)), (proj2 (Z.ltb_lt (_ - 8) a)) in H by lia. by destruct H.
  - intros H w Hw Hw8. rewrite E, Es by done. pose proof (Z.div_mod w 8). pose proof (Z.div_mod a 8). pose proof (Z.div_mod qsize 8).
    repeat case_ltb; eauto. lia.
Qed.

(** A writer and a reader one after the other, on one buffer. *)
Definition write_then_read (qp qsize w : Z) (p : packet) : option (Z * list Z * list Z) :=
  match has_space qsize (get_queue_state_write qsize (PState w 0 0) (PState w 0 0)).1.1 w (alen p) with
  | None => None
  | Some wrap =>
      let '(m, w') := put_packet ∅ qp qsize w wrap (p_hdr p) (p_bufs p) (p_msg p) in
      match peek_locked m qp w with
      | None => None
      | Some (f, nb, ml) => let '((bufs, msg), _) := get_packet m qp qsize w nb ml true true in Some (f, bufs, msg)
      end
  end.

(** The length of a queue must be a multiple of 8 and at least 16, which
    [dspqueue_create] does not check. With 100 bytes, a packet that is written at position
    88 is read from the wrong place, for the padded length of the writer's test and the
    exact length of the reader's differ; with 4 bytes, the free space is computed as almost
    2^32 and the stores go past the end of the queue. *)
Theorem queue_size_unchecked :
  (let p := make_packet 0 0 [] [1; 2; 3; 4] in
   packet_ok p /\ write_then_read 4096 104 88 p = Some (17, [], [1; 2; 3; 4]) /\ write_then_read 4096 100 88 p = Some (17, [], [0; 0; 0; 0])) /\
  (let p := make_packet 0 0 [] (replicate 1000 7) in
   has_space 4 (get_queue_state_write 4 (PState 0 0 0) (PState 0 0 0)).1.1 0 (alen p) = Some true /\
   exists a, 4096 + 4 <= a /\ rd (put_packet ∅ 4096 4 0 true (p_hdr p) (p_bufs p) (p_msg p)).1 a = 7).
Proof.
  split.
  - split; [by apply (make_packet_ok 0 0 [] [1; 2; 3; 4] 0)|]. split; by vm_compute.
  - split; [by vm_compute|]. exists 4200. split; [lia|by vm_compute].
Qed.
Module RingEx.
(** An early wakeup of 500 microseconds and a packet through a queue of 64 bytes at address
    4096: the reader takes out both and hands on the second. *)
Definition wake : packet := make_packet DSPQUEUE_PACKET_FLAG_WAKEUP 4 [] (le32 500).
Definition p1 : packet := make_packet 0 5 [] [1; 2; 3; 4].
Definition taken : list (bool * (Z * list Z * list Z)) := [(false, (21, [], le32 500)); (true, (17, [], [1; 2; 3; 4]))].

Ltac sys_cbn := cbn [mem read_state write_state wpc rpc sent got set_rpc take_out set_position packet_count wait_count app] in *.
Lemma reachable_two : exists s, reachable 4096 64 s /\ got s = taken /\ rpc s = RIdle.
Proof.
  pose proof (reach_init 4096 64 ∅) as H.
  eapply reach_step in H; [|eapply (w_start 4096 64 _ wake false 56 0 0); [reflexivity|by apply (make_packet_ok _ _ [] (le32 500) 0)|vm_compute; discriminate|vm_compute; reflexivity|vm_compute; reflexivity|vm_compute; reflexivity]|intros _ _ _; discriminate]; sys_cbn.
  do 2 (eapply reach_step in H; [|eapply w_store; reflexivity|intros _ _ _; discriminate]; sys_cbn).
  eapply reach_step in H; [|eapply w_publish; reflexivity|exact I]; sys_cbn.
  eapply reach_step in H; [|eapply (w_start 4096 64 _ p1 false 40 0 16); [reflexivity|by apply (make_packet_ok 0 5 [] [1; 2; 3; 4] 0)|vm_compute; discriminate|vm_compute; reflexivity|vm_compute; reflexivity|vm_compute; reflexivity]|intros _ _ _; discriminate]; sys_cbn.
  do 2 (eapply reach_step in H; [|eapply w_store; reflexivity|intros _ _ _; discriminate]; sys_cbn).
  eapply reach_step in H; [|eapply w_publish; reflexivity|exact I]; sys_cbn.
  eapply reach_step in H; [|eapply (r_start _ _ _ false 32 0 32); [reflexivity|vm_compute; reflexivity|lia]|exact I]; sys_cbn.
  eapply reach_step in H; [|eapply r_peek; [reflexivity|vm_compute; reflexivity]|exact I]; sys_cbn.
  eapply reach_step in H; [|eapply (r_wakeup 4096 64 _ 0 21 0 4 (le32 500) 16); [reflexivity|reflexivity|by right|vm_compute; reflexivity]|exact I]; sys_cbn.
  eapply reach_step in H; [|eapply r_skip; reflexivity|exact I]; sys_cbn.
  eapply reach_step in H; [|eapply (r_start _ _ _ true 16 16 32); [reflexivity|vm_compute; reflexivity|lia]|exact I]; sys_cbn.
  eapply reach_step in H; [|eapply r_peek; [reflexivity|vm_compute; reflexivity]|exact I]; sys_cbn.
  eapply reach_step in H; [|eapply (r_data 4096 64 _ 16 17 0 4 [] [1; 2; 3; 4] 32); [reflexivity|by vm_compute|vm_compute; reflexivity]|exact I]; sys_cbn.
  eapply reach_step in H; [|eapply r_publish; reflexivity|exact I]; sys_cbn.
  eexists. split; [exact H|]. done.
Qed.

Lemma ring_fifo_witness : exists s rest, got s = taken /\ view <$> sent s = (snd <$> taken) ++ rest.
Proof.
  destruct reachable_two as (s & Hr & Hg & _).
  destruct (ring_fifo 4096 64) with (s := s) as [(rest & E) _]; [done|unfold DSPQUEUE_MAX_QUEUE_SIZE; lia|exact Hr|].
  exists s, rest. rewrite Hg in E. by split.
Defined.
(** A packet of 40 bytes in a queue of 64. *)
Lemma large_packet_stuck_witness : ~ (forall w, 0 <= w < 64 -> w mod 8 = 0 ->
  is_Some (has_space 64 (get_queue_state_write 64 (PState w 0 0) (PState w 0 0)).1.1 w 40)).
Proof.
  intros H. apply large_packet_stuck in H; [lia|done|done|lia|lia|unfold DSPQUEUE_MAX_QUEUE_SIZE; lia].
Defined.
End RingEx.
