(* ===== verification/DspSignal.v ===== *)
(** Driver signals, [src/dspsignal.c]: a table of the domains that signals were created
    for, with the device each one had then, and the five requests. The wrappers of
    [src/fastrpc_ioctl.c] for these requests answer [AEE_EUNSUPPORTED] without a call.

    [None] is the access through the null pointer [signals], before the first creation. *)
From S2P Require Import Prelude Errors Domain Session Ioctl.

Definition DSPSIGNAL_DSPQUEUE_MIN : Z := 0.
Definition DSPSIGNAL_DSPQUEUE_MAX : Z := 255.
Definition DSPSIGNAL_NUM_SIGNALS : Z := 1024.
Definition DSPSIGNAL_TIMEOUT_NONE : Z := 4294967295.
Definition ETIMEDOUT : Z := 110.
Definition EINTR : Z := 4.

(** [None]: the process-level structure is not there; the second component of a failed
    initialisation is never used again, for [pthread_once] runs it once. *)
Record signal_table := Signals { sig_once : bool; domain_signals : option (gmap Z Z) }.
Definition signals0 : signal_table := Signals false None.

(** [alloc]: whether [calloc] and [pthread_mutex_init] succeed. *)
Definition init_process_signals_once (alloc : bool) (s : signal_table) : signal_table :=
  if sig_once s then s else Signals true (if alloc then Some ∅ else None).
Definition deinit_process_signals (s : signal_table) : signal_table := Signals (sig_once s) None.

Definition init_domain_signals (alloc ds_alloc : bool) (p : proc) (domain : Z) : M signal_table Z :=
  if negb (IS_VALID_EFFECTIVE_DOMAIN_ID domain) then mret (-1)
  else
    _ ← modify (init_process_signals_once alloc);
    s ← get;
    match domain_signals s with
    | None => mret AEE_ERPC
    | Some t =>
      to_bail (
        if is_found (t !! domain) then mret tt
        else
          _ ← VERIFYC ds_alloc AEE_ENOMEMORY;
          let '(nErr, dv) := fastrpc_session_dev domain p in
          _ ← VERIFY nErr (nErr =? AEE_SUCCESS);
          _ ← VERIFYC (negb (dv =? -1)) AEE_ERPC;
          put (Signals true (Some (<[domain := dv]> t))))
    end.

Definition get_domain (p : proc) (domain : Z) : Z := if domain =? -1 then get_current_domain p else domain.

Definition dspsignal_domain_deinit (domain : Z) (s : signal_table) : signal_table :=
  match domain_signals s with
  | Some t => if IS_VALID_EFFECTIVE_DOMAIN_ID domain then Signals (sig_once s) (Some (delete domain t)) else s
  | None => s
  end.

(** The ioctl wrappers; the converted result. *)
Definition ioctl_signal_create (dv signal flags : Z) : Z := AEE_EUNSUPPORTED.
Definition ioctl_signal_destroy (dv signal : Z) : Z := AEE_EUNSUPPORTED.
Definition ioctl_signal_signal (dv signal : Z) : Z := AEE_EUNSUPPORTED.
Definition ioctl_signal_wait (dv signal timeout_usec : Z) : Z := AEE_EUNSUPPORTED.
Definition ioctl_signal_cancel_wait (dv signal : Z) : Z := AEE_EUNSUPPORTED.

Section signals.
Context (p : proc).

(** [err_no] is [errno], which the callers set to 0 and the wrappers leave alone. *)
Definition dspsignal_create (alloc ds_alloc : bool) (domain id flags : Z) : M signal_table (option Z) :=
  if negb (id <? DSPSIGNAL_NUM_SIGNALS) then mret (Some AEE_EBADPARM)
  else
    let domain := get_domain p domain in
    if negb (flags =? 0) || negb (IS_VALID_EFFECTIVE_DOMAIN_ID domain) then mret (Some AEE_EBADPARM)
    else
      nErr ← init_domain_signals alloc ds_alloc p domain;
      if negb (nErr =? 0) then mret (Some nErr)
      else
        s ← get;
        match domain_signals s with
        | None => mret None
        | Some t =>
          match t !! domain with
          | None => mret (Some AEE_EBADSTATE)
          | Some dv =>
            let nErr := ioctl_signal_create dv id flags in
            let err_no := 0 in
            mret (Some (if nErr =? 0 then 0 else if err_no =? ENOTTY then AEE_EUNSUPPORTED else convert_kernel_to_user_error nErr err_no))
          end
        end.

(** What the other four requests have in common: the checks, and the device. *)
Definition with_signal (domain id : Z) (request : Z -> Z) (s : signal_table) : option Z :=
  if negb (id <? DSPSIGNAL_NUM_SIGNALS) then Some AEE_EBADPARM
  else
    let domain := get_domain p domain in
    if negb (IS_VALID_EFFECTIVE_DOMAIN_ID domain) then Some AEE_EBADPARM
    else
      match domain_signals s with
      | None => None
      | Some t => match t !! domain with None => Some AEE_EBADSTATE | Some dv => Some (request dv) end
      end.
Definition converted (nErr : Z) : Z := if nErr =? 0 then 0 else convert_kernel_to_user_error nErr 0.

Definition dspsignal_destroy (domain id : Z) : signal_table -> option Z :=
  with_signal domain id (fun dv => converted (ioctl_signal_destroy dv id)).
Definition dspsignal_signal (domain id : Z) : signal_table -> option Z :=
  with_signal domain id (fun dv => converted (ioctl_signal_signal dv id)).
Definition dspsignal_wait (domain id timeout_usec : Z) : signal_table -> option Z :=
  with_signal domain id (fun dv =>
    let nErr := ioctl_signal_wait dv id timeout_usec in
    let err_no := 0 in
    if nErr =? 0 then 0 else if err_no =? ETIMEDOUT then AEE_EEXPIRED else if err_no =? EINTR then AEE_EINTERRUPTED
    else convert_kernel_to_user_error nErr err_no).
Definition dspsignal_cancel_wait (domain id : Z) : signal_table -> option Z :=
  with_signal domain id (fun dv => converted (ioctl_signal_cancel_wait dv id)).

(** Driver signals never work here: on an open session the creation fails with
    [AEE_EUNSUPPORTED] and still leaves the domain in the table, so that every later
    request on it fails the same way, until the domain is removed and they fail with
    [AEE_EBADSTATE]; before the first creation the requests go through a null pointer. *)
Theorem signals_unsupported d id dv timeout :
  IS_VALID_EFFECTIVE_DOMAIN_ID d = true -> id < DSPSIGNAL_NUM_SIGNALS -> fastrpc_session_dev d p = (AEE_SUCCESS, dv) -> dv <> -1 ->
  let requests s := [dspsignal_signal d id s; dspsignal_wait d id timeout s; dspsignal_cancel_wait d id s; dspsignal_destroy d id s] in
  requests signals0 = [None; None; None; None] /\
  exists s, dspsignal_create true true d id 0 signals0 = (Go (Some AEE_EUNSUPPORTED), s) /\ domain_signals s = Some {[ d := dv ]} /\
    requests s = replicate 4 (Some AEE_EUNSUPPORTED) /\ requests (dspsignal_domain_deinit d s) = replicate 4 (Some AEE_EBADSTATE).
Proof.
  intros Hd Hid Hdev Hdv requests.
  assert (Eg : get_domain p d = d).
  { unfold get_domain. destruct (Z.eqb_spec d (-1)) as [->|]; [done|done]. }
  assert (Hi : (id <? DSPSIGNAL_NUM_SIGNALS) = true) by (by apply Z.ltb_lt).
  split; [unfold requests, dspsignal_signal, dspsignal_wait, dspsignal_cancel_wait, dspsignal_destroy, with_signal; by rewrite Eg, Hd, Hi|].
  exists (Signals true (Some {[ d := dv ]})). split; [|split; [done|]].
  - assert (Ei : init_domain_signals true true p d signals0 = (Go 0, Signals true (Some {[ d := dv ]}))).
    { unfold init_domain_signals, to_bail. rewrite Hd, Hdev. munfold. cbn -[lookup]. rewrite lookup_empty. cbn.
      by rewrite (proj2 (Z.eqb_neq dv (-1))). }
    unfold dspsignal_create. rewrite Eg, Hd, Hi. cbn [negb orb Z.eqb]. munfold. rewrite Ei. cbn -[lookup]. by rewrite lookup_singleton_eq.
  - unfold requests, dspsignal_signal, dspsignal_wait, dspsignal_cancel_wait, dspsignal_destroy, with_signal, dspsignal_domain_deinit.
    rewrite Eg, Hd, Hi. cbn [domain_signals negb]. rewrite lookup_singleton_eq, delete_singleton_eq, lookup_empty. done.
Qed.
End signals.

Lemma signals_unsupported_witness :
  exists s, dspsignal_create (Proc (Some {[ 3 := HandleList [] [] [] 0 0 0 0 FASTRPC_DOMAIN_STATE_INIT 0 5 0 0 ]}) true None []) true true 3 17 0 signals0
    = (Go (Some AEE_EUNSUPPORTED), s) /\ domain_signals s = Some {[ 3 := 5 ]}.
Proof.
  destruct (signals_unsupported (Proc (Some {[ 3 := HandleList [] [] [] 0 0 0 0 FASTRPC_DOMAIN_STATE_INIT 0 5 0 0 ]}) true None []) 3 17 5 100)
    as (_ & s & E & Es & _); [done|done|by vm_compute|done|by exists s].
Defined.
