(* ===== verification/MapRefs.v ===== *)
(** Reference counts of mapped buffers: what [fastrpc_buffer_ref] of [Mem] does, as an
    addition to the count of one descriptor. Used by [DspQueue], where a packet adds to
    and takes from several counts and has to give everything back when it fails. *)
From S2P Require Import Prelude Errors Domain Mem.

Section refs.
Context {K : Type} (d : Z).
Implicit Types (m : mem K).

(** The count of the map of [fd] on domain [d]. *)
Definition ref_at m (fd : Z) : option Z := i ← find_pos (has_fd fd) (smaps m d); sm_refs <$> (smaps m d !! i).
Definition up (k : Z) (x : static_map) : static_map := set_refs (sm_refs x + k) x.
Definition add_ref (fd k : Z) m : mem K :=
  match find_pos (has_fd fd) (smaps m d) with
  | Some i => set_smaps d (alter (up k) i (smaps m d)) m
  | None => m
  end.

Lemma find_pos_up (p : static_map -> bool) k i l :
  (forall x, p (up k x) = p x) -> find_pos p (alter (up k) i l) = find_pos p l.
Proof.
  intros Hp. revert i. induction l as [|x l IH]; intros i; [done|].
  destruct i as [|i]; cbn; [by rewrite Hp|]. fold (alter (up k) i l). change (list_alter (up k) i l) with (alter (up k) i l). by rewrite IH.
Qed.

Lemma find_pos_add fd fd' k m : find_pos (has_fd fd') (smaps (add_ref fd k m) d) = find_pos (has_fd fd') (smaps m d).
Proof.
  unfold add_ref. destruct (find_pos (has_fd fd) _) as [i|]; [|done].
  rewrite smaps_set, decide_True by done. by apply find_pos_up.
Qed.

Lemma ref_at_add fd fd' k m :
  ref_at (add_ref fd k m) fd' = if decide (fd = fd') then (fun r => r + k) <$> ref_at m fd else ref_at m fd'.
Proof.
  unfold ref_at. rewrite find_pos_add. unfold add_ref.
  destruct (find_pos (has_fd fd) (smaps m d)) as [i|] eqn:Ei; cbn [mbind option_bind].
  2: { destruct (decide (fd = fd')) as [<-|]; [by rewrite Ei|done]. }
  rewrite smaps_set, decide_True by done. destruct (decide (fd = fd')) as [<-|Hne].
  - rewrite Ei. cbn. rewrite list_lookup_alter_eq. by destruct (smaps m d !! i).
  - destruct (find_pos (has_fd fd') (smaps m d)) as [j|] eqn:Ej; [cbn|done].
    rewrite list_lookup_alter_ne; [done|]. intros <-.
    destruct (find_pos_Some _ _ _ Ei) as (x & Ex & Hx). destruct (find_pos_Some _ _ _ Ej) as (y & Ey & Hy).
    unfold has_fd in *. rewrite Ex in Ey. injection Ey as <-. apply Z.eqb_eq in Hx, Hy. congruence.
Qed.

Lemma add_ref_comm fd k fd' k' m : add_ref fd k (add_ref fd' k' m) = add_ref fd' k' (add_ref fd k m).
Proof.
  unfold add_ref at 1 3. rewrite !find_pos_add. unfold add_ref.
  destruct (find_pos (has_fd fd) (smaps m d)) as [i|]; destruct (find_pos (has_fd fd') (smaps m d)) as [j|]; try done.
  rewrite !smaps_set, !decide_True by done. unfold set_smaps. cbn. rewrite !insert_insert_eq. f_equal. f_equal.
  destruct (decide (i = j)) as [->|Hne]; [|by rewrite list_alter_alter_ne].
  rewrite !list_alter_alter_eq. apply list_alter_ext; [|done]. intros x _. unfold up, set_refs. cbn. f_equal. lia.
Qed.

Lemma add_ref_undo fd k m : is_Some (ref_at m fd) -> add_ref fd (- k) (add_ref fd k m) = m.
Proof.
  intros [r Hr]. unfold ref_at in Hr. unfold add_ref at 1. rewrite find_pos_add. unfold add_ref.
  destruct (find_pos (has_fd fd) (smaps m d)) as [i|] eqn:Ei; [|done]. cbn in Hr.
  rewrite smaps_set, decide_True by done. unfold set_smaps. cbn. rewrite insert_insert_eq, list_alter_alter_eq.
  rewrite (list_alter_id _ (smaps m d)) by (intros []; unfold compose, up, set_refs; cbn; f_equal; lia).
  unfold smaps in *. destruct (smaplst m !! d) as [l|] eqn:El; [|done]. cbn. rewrite insert_id by done. by destruct m.
Qed.

Lemma add_ref_zero fd m : is_Some (ref_at m fd) -> add_ref fd 0 m = m.
Proof.
  intros [r Hr]. unfold ref_at in Hr. unfold add_ref. destruct (find_pos (has_fd fd) (smaps m d)) as [i|] eqn:Ei; [|done]. cbn in Hr.
  rewrite list_alter_id by (intros []; unfold up, set_refs; cbn; f_equal; lia).
  unfold set_smaps, smaps in *. destruct (smaplst m !! d) as [l|] eqn:El; [|done]. cbn. rewrite insert_id by done. by destruct m.
Qed.

(** Address and size of the map; they do not depend on the counts. *)
Definition map_at m (fd : Z) : option (Z * Z) :=
  i ← find_pos (has_fd fd) (smaps m d); (fun x => (mm_vaddrin (sm_map x), mm_length (sm_map x))) <$> (smaps m d !! i).
Lemma map_at_add fd fd' k m : map_at (add_ref fd k m) fd' = map_at m fd'.
Proof.
  unfold map_at. rewrite find_pos_add. unfold add_ref. destruct (find_pos (has_fd fd) (smaps m d)) as [i|]; [|done].
  rewrite smaps_set, decide_True by done. destruct (find_pos (has_fd fd') (smaps m d)) as [j|]; [cbn|done].
  destruct (decide (i = j)) as [->|]; [rewrite list_lookup_alter_eq; by destruct (smaps m d !! j)|by rewrite list_lookup_alter_ne].
Qed.

(** What the call does, for the three kinds of reference. *)
Definition ref_error m (fd k : Z) : Z :=
  if negb (IS_VALID_EFFECTIVE_DOMAIN_ID d) then AEE_EBADPARM
  else match ref_at m fd with
       | None => AEE_ENOSUCHMAP
       | Some r => if negb (0 <? r) then AEE_ERPC else if (k =? -1) && (r =? 1) then AEE_EBADPARM else 0
       end.

Lemma buffer_ref_spec fd k m : k = 0 \/ k = 1 \/ k = -1 -> (k = 1 -> forall r, ref_at m fd = Some r -> r < INT_MAX) ->
  exists out, fastrpc_buffer_ref d fd k m = (Go (ref_error m fd k, out), if ref_error m fd k =? 0 then add_ref fd k m else m) /\
    (ref_error m fd k = 0 -> out = map_at m fd).
Proof.
  intros Hk Hmax. unfold fastrpc_buffer_ref, ref_error. destruct (IS_VALID_EFFECTIVE_DOMAIN_ID d); cbn [negb]; [|by eexists].
  pose proof (add_ref_zero fd m) as Hz. unfold ref_at, map_at, add_ref in *. munfold.
  destruct (find_pos (has_fd fd) (smaps m d)) as [i|] eqn:Ei; cbn [mbind option_bind] in *; [|by eexists].
  destruct (find_pos_Some _ _ _ Ei) as (x & Ex & _). rewrite (nth_lookup_Some _ _ _ _ Ex). rewrite Ex in *. cbn in *.
  unfold INT_MAX in *. destruct (Z.ltb_spec 0 (sm_refs x)); cbn [negb]; [|by eexists].
  assert (Ha : forall k r', r' = sm_refs x + k -> alter (set_refs r') i (smaps m d) = alter (up k) i (smaps m d)).
  { intros k' r' ->. apply list_alter_ext; [|done]. intros y Ey. rewrite Ex in Ey. by injection Ey as <-. }
  destruct Hk as [->|[->| ->]]; cbn.
  - eexists. by rewrite Hz.
  - specialize (Hmax eq_refl _ eq_refl). eexists. rewrite (Ha 1) by (by rewrite s32_small by lia). done.
  - destruct (Z.eqb_spec (sm_refs x) 1); [by eexists|]. eexists. by rewrite (Ha (-1)) by lia.
Qed.
End refs.
