(* ===== verification/DspQueue.v ===== *)
(** The data path of a DSP queue, [src/dspqueue/dspqueue_cpu.c]: writing, peeking and
    reading packets without and with blocking, the early wakeup, the statistics.

    [Ring] has the packet queues in the shared memory, [Mem] the references to mapped
    buffers, [DspSignal] the driver signals. What other threads and the DSP do while a
    call waits or polls is given to the model: a list of ticks, one for each reading of
    the clock, and a list of wake-ups, one for each return of a condition variable, each
    with the change that the shared state saw. A section under a mutex is one step. *)
From S2P Require Import Prelude Errors Domain Session SessionIface Ioctl Ring DspSignal Mem MapRefs.

(** ** Constants *)
Definition AEE_EBADITEM : Z := 16.
Definition AEE_EWOULDBLOCK : Z := 516.
Definition DSPQUEUE_BUFFER_FLAG_REF : Z := 4.
Definition DSPQUEUE_BUFFER_FLAG_DEREF : Z := 8.
Definition DSPQUEUE_SIGNAL_REQ_PACKET : Z := 0.
Definition DSPQUEUE_SIGNAL_REQ_SPACE : Z := 1.
Definition DSPQUEUE_SIGNAL_RESP_PACKET : Z := 2.
Definition DSPQUEUE_SIGNAL_RESP_SPACE : Z := 3.
Definition DSPQUEUE_NUM_SIGNALS : Z := 4.
Definition DSPQUEUE_TIMEOUT_NONE : Z := 4294967295.
Definition DEFAULT_EARLY_WAKEUP_WAIT : Z := 1000.
Definition MAX_EARLY_WAKEUP_WAIT : Z := 2500.
Definition SIGNAL_BIT_SIGNAL : Z := 1.
Definition SIGNAL_BIT_CANCEL : Z := 2.
Definition QUEUE_SIGNAL (queue_id signal_no : Z) : Z := DSPQUEUE_NUM_SIGNALS * queue_id + signal_no + DSPSIGNAL_DSPQUEUE_MIN.

Definition DSPQUEUE_STAT_READ_QUEUE_PACKETS : Z := 1.
Definition DSPQUEUE_STAT_READ_QUEUE_BYTES : Z := 2.
Definition DSPQUEUE_STAT_WRITE_QUEUE_PACKETS : Z := 3.
Definition DSPQUEUE_STAT_WRITE_QUEUE_BYTES : Z := 4.
Definition DSPQUEUE_STAT_EARLY_WAKEUP_WAIT_TIME : Z := 5.
Definition DSPQUEUE_STAT_EARLY_WAKEUP_MISSES : Z := 6.
Definition DSPQUEUE_STAT_SIGNALING_PERF : Z := 7.
Definition DSPQUEUE_SIGNALING_PERF_REDUCED_SIGNALING : Z := 100.
Definition DSPQUEUE_SIGNALING_PERF_OPTIMIZED_SIGNALING : Z := 1000.

(** ** Data *)
Record dspqueue_buffer := Buffer { b_fd : Z; b_size : Z; b_offset : Z; b_flags : Z; b_ptr : Z }.

(** The 24 bytes of a buffer reference in a packet. *)
Definition buffer_bytes (b : dspqueue_buffer) : list Z :=
  le32 (b_fd b) ++ le32 (b_size b) ++ le32 (b_offset b) ++ le32 (b_flags b) ++ le64 (b_ptr b).
Fixpoint buffers_bytes (l : list dspqueue_buffer) : list Z :=
  match l with [] => [] | b :: l => buffer_bytes b ++ buffers_bytes l end.
Definition of_buffer (bs : list Z) : dspqueue_buffer :=
  Buffer (of_le32 (take 4 bs)) (of_le32 (take 4 (drop 4 bs))) (of_le32 (take 4 (drop 8 bs)))
    (of_le32 (take 4 (drop 12 bs))) (of_le64 (take 8 (drop 16 bs))).
Fixpoint of_buffers (n : nat) (bs : list Z) : list dspqueue_buffer :=
  match n with O => [] | S n => of_buffer (take 24 bs) :: of_buffers n (drop 24 bs) end.

(** What does not change while the queue is open. *)
Record dspqueue := Queue {
  q_id : Z; q_domain : Z; req_queue : packet_queue; resp_queue : packet_queue;
  queue_count : Z; have_wait_counts : bool; have_driver_signaling : bool
}.

(** What only the functions below change, under [q->mutex]. *)
Record counters := Counters {
  seq_no : Z; read_packet_count : Z; write_packet_count : Z; req_packet_count : Z; resp_space_count : Z;
  early_wakeup_wait : Z; early_wakeup_misses : Z
}.

(** What other threads and the DSP see or change: the packet queues and the states of
    their sides; [header->queue_count]; the queue's entries of the process state; the mask
    of the thread that sends signals; and the counts and masks that waiting looks at. *)
Record shared := Shared {
  ring : memory;
  req_read : packet_queue_state; req_write : packet_queue_state;
  resp_read : packet_queue_state; resp_write : packet_queue_state;
  header_count : Z;
  state_req_packet : Z; state_resp_space : Z;
  send_signal_mask : Z;
  req_space_count : Z; space_mask : Z; resp_packet_count : Z; packet_mask : Z
}.

(** [clock_gettime]: the time as seconds and nanoseconds, or a failure. *)
Definition timespec : Type := Z * Z.
Abbreviation tick := (option timespec * (shared -> shared))%type.
Abbreviation wakeup := (Z * (shared -> shared))%type.

Record dq (K : Type) := DQ {
  sh : shared; ctr : counters; ticks : list tick; sigs : signal_table; maps : Mem.mem K
}.
Arguments DQ {_}. Arguments sh {_}. Arguments ctr {_}. Arguments ticks {_}. Arguments sigs {_}. Arguments maps {_}.

Section update.
Context {K : Type}.
Definition set_sh (x : shared) (s : dq K) : dq K := DQ x (ctr s) (ticks s) (sigs s) (maps s).
Definition set_ctr (c : counters) (s : dq K) : dq K := DQ (sh s) c (ticks s) (sigs s) (maps s).
Definition set_ticks (t : list tick) (s : dq K) : dq K := DQ (sh s) (ctr s) t (sigs s) (maps s).
Definition set_maps (m : Mem.mem K) (s : dq K) : dq K := DQ (sh s) (ctr s) (ticks s) (sigs s) m.
Definition on_maps {A} (m : M (Mem.mem K) A) : M (dq K) A := fun s =>
  let '(r, k) := m (maps s) in (r, set_maps k s).
End update.

Definition set_ring_write (m : memory) (ws : packet_queue_state) (c : Z) (x : shared) : shared :=
  Shared m (req_read x) ws (resp_read x) (resp_write x) (header_count x) c (state_resp_space x) (send_signal_mask x)
    (req_space_count x) (space_mask x) (resp_packet_count x) (packet_mask x).
Definition set_resp_read (rs : packet_queue_state) (c : Z) (x : shared) : shared :=
  Shared (ring x) (req_read x) (req_write x) rs (resp_write x) (header_count x) (state_req_packet x) c (send_signal_mask x)
    (req_space_count x) (space_mask x) (resp_packet_count x) (packet_mask x).
Definition set_send_mask (k : Z) (x : shared) : shared :=
  Shared (ring x) (req_read x) (req_write x) (resp_read x) (resp_write x) (header_count x) (state_req_packet x) (state_resp_space x) k
    (req_space_count x) (space_mask x) (resp_packet_count x) (packet_mask x).

(** The two things that a thread can wait for. *)
Inductive side := Space | Packets.
Definition side_count (d : side) (x : shared) : Z := match d with Space => req_space_count x | Packets => resp_packet_count x end.
Definition side_mask (d : side) (x : shared) : Z := match d with Space => space_mask x | Packets => packet_mask x end.
Definition add_wait (d : side) (k : Z) (x : shared) : shared :=
  let up st := PState (position st) (packet_count st) (u32 (wait_count st + k)) in
  match d with
  | Space => set_ring_write (ring x) (up (req_write x)) (state_req_packet x) x
  | Packets => set_resp_read (up (resp_read x)) (state_resp_space x) x
  end.

(** ** Times *)
Definition timespec_add_us (ts : timespec) (us : Z) : timespec :=
  let ns := ts.2 + 1000 * (us mod 1000000) in
  if 1000000000 <? ns then (ts.1 + us / 1000000 + 1, ns - 1000000000) else (ts.1 + us / 1000000, ns).

Definition timespec_diff_us (a b : timespec) : Z :=
  let diffsec := a.1 - b.1 in
  let diffnsec := a.2 - b.2 in
  if (diffsec <? 0) || ((diffsec =? 0) && (diffnsec <? 0)) then 0
  else if 4294967295 <? diffsec then 4294967295
  else
    let diffusec := diffsec * 1000000 + Z.quot diffnsec 1000 in
    if 4294967295 <? diffusec then 4294967295 else u32 diffusec.

Definition usec (ts : timespec) : Z := u64 (ts.1 * 1000000 + ts.2 / 1000).

Section queue.
Context {K : Type} (p : proc) (q : dspqueue).
Abbreviation qstate := (dq K).

Definition on_sh (f : shared -> shared) : M qstate unit := modify (fun s => set_sh (f (sh s)) s).

(** [clock_gettime]; when no tick is left it fails. *)
Definition clock_gettime : M qstate (option timespec) :=
  s ← get;
  match ticks s with
  | [] => mret None
  | (t, env) :: rest => _ ← put (set_sh (env (sh s)) (set_ticks rest s)); mret t
  end.

(** ** Signals *)

(** A request of [DspSignal]; where it goes through a null pointer the process ends. *)
Definition on_signals (f : signal_table -> option Z) : M qstate Z :=
  s ← get;
  match f (sigs s) with
  | Some e => mret e
  | None => _ ← on_maps (modify set_aborted); mret (-1)
  end.

Definition send_signal (signal_no : Z) : M qstate Z :=
  to_bail (
    if have_driver_signaling q then
      _ ← VERIFYC (signal_no <? DSPQUEUE_NUM_SIGNALS) AEE_EBADPARM;
      VERIFY_CALL (on_signals (dspsignal_signal p (q_domain q) (QUEUE_SIGNAL (q_id q) signal_no)))
    else on_sh (fun x => set_send_mask (Z.lor (send_signal_mask x) SIGNAL_BIT_SIGNAL) x)).

(** Only when the other end is potentially waiting; without wait counts always. *)
Definition signal_other_end (waiters : shared -> Z) (signal_no : Z) : M qstate unit :=
  s ← get;
  if have_wait_counts q && (waiters (sh s) =? 0) then mret tt else VERIFY_CALL (send_signal signal_no).

(** The loops of [wait_signal_locked]: one wake-up for each return of the condition
    variable, which comes with the changes made meanwhile; [None]: still waiting. *)
Fixpoint wait_timed (d : side) (c : Z) (evs : list wakeup) (s : qstate) : option (Z * qstate * list wakeup) :=
  if negb (c =? side_count d (sh s)) then Some (0, s, evs)
  else if negb (Z.land (side_mask d (sh s)) 2 =? 0) then Some (AEE_EINTERRUPTED, s, evs)
  else
    match evs with
    | [] => None
    | (rc, env) :: evs =>
      let s := set_sh (env (sh s)) s in
      if rc =? ETIMEDOUT then Some (AEE_EEXPIRED, s, evs)
      else if negb (rc =? 0) then Some (-1, s, evs)
      else wait_timed d c evs s
    end.
Fixpoint wait_untimed (d : side) (c : Z) (evs : list wakeup) (s : qstate) : option (Z * qstate * list wakeup) :=
  if negb (c =? side_count d (sh s)) then Some (0, s, evs)
  else
    match evs with
    | [] => None
    | (_, env) :: evs =>
      let s := set_sh (env (sh s)) s in
      if negb (Z.land (side_mask d (sh s)) 2 =? 0) then Some (AEE_EINTERRUPTED, s, evs)
      else wait_untimed d c evs s
    end.

Definition side_of (signal_no : Z) : option side :=
  if signal_no =? DSPQUEUE_SIGNAL_REQ_SPACE then Some Space
  else if signal_no =? DSPQUEUE_SIGNAL_RESP_PACKET then Some Packets else None.

(** With driver signals: the time left, and the request. *)
Definition wait_driver (signal_no : Z) (timeout : option timespec) : M qstate Z :=
  to_bail (
    to_now ← (match timeout with
              | None => mret DSPSIGNAL_TIMEOUT_NONE
              | Some t =>
                now ← clock_gettime;
                match now with
                | None => bail AEE_EFAILED
                | Some now =>
                  let to_now := timespec_diff_us t now in
                  if to_now =? 0 then bail AEE_EEXPIRED else mret to_now
                end
              end);
    VERIFY_CALL (on_signals (dspsignal_wait p (q_domain q) (QUEUE_SIGNAL (q_id q) signal_no) to_now))).

Definition wait_signal_locked (signal_no : Z) (timeout : option timespec) (evs : list wakeup) (s : qstate)
  : option (Z * qstate * list wakeup) :=
  if have_driver_signaling q then
    let '(e, s) := run 0 (wait_driver signal_no timeout) s in Some (e, s, evs)
  else
    match side_of signal_no with
    | None => Some (AEE_EBADPARM, s, evs)
    | Some d =>
      let c := side_count d (sh s) in
      match timeout with Some _ => wait_timed d c evs s | None => wait_untimed d c evs s end
    end.

(** ** References to buffers *)
Definition has_bit (x bit : Z) : bool := negb (Z.land x bit =? 0).
Definition fastrpc_ref (fd rf : Z) : M qstate (Z * option (Z * Z)) := on_maps (fastrpc_buffer_ref (q_domain q) (s32 fd) rf).

(** The reference that a packet takes, gives back or only looks at; the size of the map. *)
Definition check_ref (b : dspqueue_buffer) : M qstate (Z * Z) :=
  r ← (if has_bit (b_flags b) DSPQUEUE_BUFFER_FLAG_REF then
         _ ← VERIFYC (negb (has_bit (b_flags b) DSPQUEUE_BUFFER_FLAG_DEREF)) AEE_EBADPARM; fastrpc_ref (b_fd b) 1
       else if has_bit (b_flags b) DSPQUEUE_BUFFER_FLAG_DEREF then fastrpc_ref (b_fd b) (-1)
       else fastrpc_ref (b_fd b) 0);
  let '(nErr, out) := r : Z * option (Z * Z) in
  if nErr =? AEE_ENOSUCHMAP then bail nErr
  else (_ ← VERIFY nErr (nErr =? 0); mret (default (0, 0) out)).

(** [bend <= size], on 64 bits. *)
Definition in_bounds (b : dspqueue_buffer) (size : Z) : bool := u64 (b_offset b + b_size b) <=? size.

(** The loop over the buffers of a packet, of the writer and of the reader: the reference,
    the count of the references taken, and what the loop does with the address and size. *)
Fixpoint ref_loop {L} (set_buf_refs : Z -> L -> L) (use : nat -> dspqueue_buffer -> Z * Z -> M (qstate * L) unit)
  (i : nat) (l : list dspqueue_buffer) : M (qstate * L) unit :=
  match l with
  | [] => mret tt
  | b :: l =>
    r ← lift (check_ref b);
    _ ← setl (set_buf_refs (Z.of_nat i + 1));
    _ ← use i b r;
    ref_loop set_buf_refs use (S i) l
  end.

(** Writing: the local is [buf_refs]. *)
Definition check_bounds (i : nat) (b : dspqueue_buffer) (r : Z * Z) : M (qstate * Z) unit :=
  if negb (b_size b =? 0) then VERIFYC (in_bounds b r.2) AEE_EBADPARM else VERIFYC (b_offset b =? 0) AEE_EBADPARM.
Definition check_buffers : list dspqueue_buffer -> M (qstate * Z) unit := ref_loop (fun n _ => n) check_bounds 0.

(** Undoes the references of the packet, in the order they were taken; the result of the
    last call, when there was one. *)
Fixpoint undo_buffers (nErr : Z) (l : list dspqueue_buffer) : M qstate Z :=
  match l with
  | [] => mret nErr
  | b :: l =>
    nErr ← (if has_bit (b_flags b) DSPQUEUE_BUFFER_FLAG_REF then r ← fastrpc_ref (b_fd b) (-1); mret r.1
            else if has_bit (b_flags b) DSPQUEUE_BUFFER_FLAG_DEREF then r ← fastrpc_ref (b_fd b) 1; mret r.1
            else mret nErr);
    undo_buffers nErr l
  end.

(** ** Writing *)
Definition publish_packet (qsize w : Z) (wrap : bool) (pk : packet) (s : qstate) : qstate :=
  let '(m, w) := put_packet (ring (sh s)) (queue_base (req_queue q)) qsize w wrap (p_hdr pk) (p_bufs pk) (p_msg pk) in
  let c := ctr s in
  let wc := u32 (write_packet_count c + 1) in
  let rc := u32 (req_packet_count c + 1) in
  set_ctr (Counters (seq_no c) (read_packet_count c) wc rc (resp_space_count c) (early_wakeup_wait c) (early_wakeup_misses c))
    (set_sh (set_ring_write m (set_position w wc (req_write (sh s))) rc (sh s)) s).
Definition next_seq (s : qstate) : qstate :=
  let c := ctr s in
  set_ctr (Counters ((seq_no c + 1) mod 65536) (read_packet_count c) (write_packet_count c) (req_packet_count c) (resp_space_count c)
    (early_wakeup_wait c) (early_wakeup_misses c)) s.

(** [buffers] and [message] are [None] for NULL. No reference is taken yet where the code
    returns [AEE_EWOULDBLOCK] without the clean-up. *)
Definition write_body (flags num_buffers : Z) (buffers : option (list dspqueue_buffer)) (message_length : Z) (message : option (list Z))
  : M (qstate * Z) unit :=
  let qsize := queue_length (req_queue q) in
  _ ← VERIFYC (num_buffers <=? DSPQUEUE_MAX_BUFFERS) AEE_EBADPARM;
  _ ← VERIFYC (message_length <=? DSPQUEUE_MAX_MESSAGE_SIZE) AEE_EBADPARM;
  _ ← VERIFYC (negb (0 <? num_buffers) || is_found buffers) AEE_EBADPARM;
  _ ← VERIFYC (negb (0 <? message_length) || is_found message) AEE_EBADPARM;
  let alen := align8 (u32 (packet_len num_buffers message_length)) in
  _ ← VERIFYC (negb (u32 (qsize - 8) <? alen)) AEE_EBADPARM;
  s ← lift get;
  _ ← VERIFYC (header_count (sh s) =? queue_count q) AEE_ERPC;
  let '(qleft, r, w) := get_queue_state_write qsize (req_read (sh s)) (req_write (sh s)) in
  match has_space qsize qleft w alen with
  | None => bail AEE_EWOULDBLOCK
  | Some wrap =>
    let bl := take (Z.to_nat num_buffers) (default [] buffers) in
    _ ← check_buffers bl;
    let pk := make_packet flags (seq_no (ctr s)) (buffers_bytes bl) (take (Z.to_nat message_length) (default [] message)) in
    _ ← lift (modify (publish_packet qsize w wrap pk));
    _ ← lift (signal_other_end (fun x => wait_count (req_read x)) DSPQUEUE_SIGNAL_REQ_PACKET);
    lift (modify next_seq)
  end.

Definition dspqueue_write_noblock (flags num_buffers : Z) (buffers : option (list dspqueue_buffer)) (message_length : Z)
  (message : option (list Z)) : M qstate Z :=
  r ← with_locals 0 (write_body flags num_buffers buffers message_length message);
  let '(nErr, buf_refs) := r : Z * Z in
  if nErr =? 0 then mret 0
  else (_ ← undo_buffers nErr (take (Z.to_nat buf_refs) (default [] buffers)); mret nErr).

Definition dspqueue_write_early_wakeup_noblock (wakeup_delay packet_flags : Z) : M qstate Z :=
  let flags := Z.lor packet_flags DSPQUEUE_PACKET_FLAG_WAKEUP in
  if wakeup_delay =? 0 then dspqueue_write_noblock flags 0 None 0 None
  else dspqueue_write_noblock flags 0 None 4 (Some (le32 wakeup_delay)).

(** ** Peeking *)
Definition packet_info : Type := Z * Z * Z.

Definition dspqueue_peek_noblock : M qstate (Z * option packet_info) :=
  s ← get;
  let '(qleft, r, w) := get_queue_state_read (queue_length (resp_queue q)) (resp_read (sh s)) (resp_write (sh s)) in
  mret (if qleft <? 8 then (AEE_EWOULDBLOCK, None)
        else match peek_locked (ring (sh s)) (queue_base (resp_queue q)) r with
             | None => (AEE_EBADITEM, None)
             | Some h => (AEE_SUCCESS, Some h)
             end).

(** ** Reading *)

(** What a read has written for its caller. *)
Record rout := ROut {
  o_flags : option Z; o_num_buffers : option Z; o_buffers : list dspqueue_buffer; o_message_length : option Z; o_message : list Z
}.
Definition rout0 : rout := ROut None None [] None [].
Definition rlocal : Type := Z * rout.
Definition set_buffers (l : list dspqueue_buffer) (o : rout) : rout :=
  ROut (o_flags o) (o_num_buffers o) l (o_message_length o) (o_message o).

Definition consume_packet (r : Z) (s : qstate) : qstate :=
  let c := ctr s in
  let rc := u32 (read_packet_count c + 1) in
  let sc := u32 (resp_space_count c + 1) in
  set_ctr (Counters (seq_no c) rc (write_packet_count c) (req_packet_count c) sc (early_wakeup_wait c) (early_wakeup_misses c))
    (set_sh (set_resp_read (set_position r rc (resp_read (sh s))) sc (sh s)) s).
Definition signal_space : M qstate unit := signal_other_end (fun x => wait_count (resp_write x)) DSPQUEUE_SIGNAL_RESP_SPACE.
Definition add_wakeup (waited misses : Z) (s : qstate) : qstate :=
  let c := ctr s in
  set_ctr (Counters (seq_no c) (read_packet_count c) (write_packet_count c) (req_packet_count c) (resp_space_count c)
    (u64 (early_wakeup_wait c + waited)) (u32 (early_wakeup_misses c + misses))) s.

Definition resp_state (x : shared) : Z * Z * Z :=
  get_queue_state_read (queue_length (resp_queue q)) (resp_read x) (resp_write x).

(** The polling loop: one tick each time around. *)
Inductive polled := PollFail | PollGot (t2 r : Z) | PollMiss (t2 : Z).
Fixpoint poll (t1 waittime : Z) (tk : list tick) (x : shared) : polled * shared * list tick :=
  match tk with
  | [] => (PollFail, x, [])
  | (None, env) :: tk => (PollFail, env x, tk)
  | (Some ts, env) :: tk =>
    let x := env x in
    let t2 := usec ts in
    let '(qleft, r, _) := resp_state x in
    if 8 <=? qleft then (PollGot t2 r, x, tk)
    else if t2 <? u64 (t1 + waittime) then poll t1 waittime tk x
    else (PollMiss t2, x, tk)
  end.

(** Waits for the packet that the early wakeup announces; its position. *)
Definition await_packet (waittime : Z) : M qstate Z :=
  s ← get;
  let '(qleft, r, _) := resp_state (sh s) in
  if negb (qleft <? 8) then mret r
  else
    t1 ← clock_gettime;
    match t1 with
    | None => bail (-1)
    | Some t1 =>
      let t1 := usec t1 in
      s ← get;
      let '(res, x, tk) := poll t1 waittime (ticks s) (sh s) in
      _ ← put (set_sh x (set_ticks tk s));
      match res with
      | PollFail => bail (-1)
      | PollGot t2 r => _ ← modify (add_wakeup (if t2 =? 0 then 0 else t2 - t1) 0); mret r
      | PollMiss t2 => _ ← modify (add_wakeup (t2 - t1) 1); bail AEE_EWOULDBLOCK
      end
    end.

(** The early wakeup packet at [r]: consumed, then the wait for the next one. *)
Definition wakeup_time (wakeup : Z) : Z :=
  if MAX_EARLY_WAKEUP_WAIT <? wakeup then MAX_EARLY_WAKEUP_WAIT else if wakeup =? 0 then DEFAULT_EARLY_WAKEUP_WAIT else wakeup.
Definition wakeup_packet (r num_b msg_l : Z) : M qstate Z :=
  let qsize := queue_length (resp_queue q) in
  _ ← VERIFYC (num_b =? 0) AEE_ERPC;
  let r := if u32 (qsize - r) <? u32 (8 + msg_l) then 8 else u32 (r + 8) in
  s ← get;
  d ← (if 0 <? msg_l then
         _ ← VERIFYC (msg_l =? 4) AEE_EBADITEM;
         let '(bs, r) := read_data (ring (sh s)) (queue_base (resp_queue q)) r qsize 4 in
         mret (r, wakeup_time (of_le32 bs))
       else mret (r, DEFAULT_EARLY_WAKEUP_WAIT));
  let '(r, waittime) := d : Z * Z in
  _ ← modify (consume_packet r);
  _ ← signal_space;
  await_packet waittime.

(** [peek_locked] at a position. *)
Definition peek_at (r : Z) : M qstate packet_info :=
  s ← get;
  match peek_locked (ring (sh s)) (queue_base (resp_queue q)) r with None => bail AEE_EBADITEM | Some h => mret h end.

(** Takes the references of the packet that was read and fills in the addresses. *)
Definition fill_address (i : nat) (b : dspqueue_buffer) (r : Z * Z) : M (qstate * rlocal) unit :=
  let '(va, size) := r in
  b' ← (if negb (b_size b =? 0) then
          _ ← VERIFYC (in_bounds b size) AEE_EBADITEM;
          mret (Buffer (b_fd b) (b_size b) (b_offset b) (b_flags b) (u64 (va + b_offset b)))
        else
          _ ← VERIFYC (b_offset b =? 0) AEE_EBADITEM;
          mret (Buffer (b_fd b) (u32 size) (b_offset b) (b_flags b) va));
  setl (fun '(n, o) => (n, set_buffers (<[ i := b' ]> (o_buffers o)) o)).
Definition take_buffers : list dspqueue_buffer -> M (qstate * rlocal) unit := ref_loop (fun n '(_, o) => (n, o)) fill_address 0.

Section read.
(** The places for the buffers and the message, [None] for NULL, with their sizes. *)
Context (max_buffers max_message_length : option Z).

Definition fits (limit : option Z) (n : Z) : bool := match limit with None => true | Some m => n <=? m end.

Definition read_body : M (qstate * rlocal) unit :=
  let qsize := queue_length (resp_queue q) in
  s ← lift get;
  _ ← VERIFYC (header_count (sh s) =? queue_count q) AEE_ERPC;
  let '(qleft, r, _) := resp_state (sh s) in
  if qleft <? 8 then bail AEE_EWOULDBLOCK
  else
    h ← lift (peek_at r);
    rh ← (if has_bit h.1.1 DSPQUEUE_PACKET_FLAG_WAKEUP then
            r ← lift (wakeup_packet r h.1.2 h.2);
            h ← lift (peek_at r);
            mret (r, h)
          else mret (r, h));
    let '(r, (f, num_b, msg_l)) := rh : Z * packet_info in
    _ ← VERIFYC (negb (has_bit f DSPQUEUE_PACKET_FLAG_BUFFERS) || fits max_buffers num_b) AEE_EBADPARM;
    _ ← VERIFYC (num_b <=? DSPQUEUE_MAX_BUFFERS) AEE_EBADITEM;
    _ ← VERIFYC (negb (has_bit f DSPQUEUE_PACKET_FLAG_MESSAGE) || fits max_message_length msg_l) AEE_EBADPARM;
    _ ← VERIFYC (has_bit f DSPQUEUE_PACKET_FLAG_USER_READY) AEE_EBADITEM;
    s ← lift get;
    let '((bs, msg), r) := get_packet (ring (sh s)) (queue_base (resp_queue q)) qsize r num_b msg_l (is_found max_buffers) (is_found max_message_length) in
    let bl := if is_found max_buffers then of_buffers (Z.to_nat num_b) bs else [] in
    _ ← setl (fun _ => (0, ROut (Some f) None bl (Some msg_l) msg));
    _ ← lift (modify (consume_packet r));
    _ ← lift signal_space;
    _ ← take_buffers bl;
    setl (fun '(n, o) => (n, ROut (o_flags o) (Some num_b) (o_buffers o) (o_message_length o) (o_message o))).

Definition dspqueue_read_noblock : M qstate (Z * rout) :=
  r ← with_locals (0, rout0) read_body;
  let '(nErr, (buf_refs, o)) := r : Z * rlocal in
  if nErr =? 0 then mret (0, o)
  else (nErr ← undo_buffers nErr (take (Z.to_nat buf_refs) (o_buffers o)); mret (nErr, o)).
End read.

(** ** Blocking *)

(** What [dspqueue_write], [dspqueue_peek] and [dspqueue_read] have in common: one call;
    another one once the wait is announced; then waiting and calling until the call has
    another result than [AEE_EWOULDBLOCK]. [None]: it waits for ever. The loop goes around
    at most once for each wake-up and tick, and once more. *)
Section blocking.
Context {A : Type} (op : M qstate (Z * A)) (d : side) (signal_no : Z) (a0 : A).

Fixpoint block_loop (fuel : nat) (timeout : option timespec) (evs : list wakeup) (a : A) (s : qstate) : option (Z * A * qstate) :=
  match fuel with
  | O => None
  | S fuel =>
    match wait_signal_locked signal_no timeout evs s with
    | None => None
    | Some (e, s, evs) =>
      if negb (e =? 0) then Some (e, a, s)
      else
        let '((e, a), s) := run (0, a0) op s in
        if e =? AEE_EWOULDBLOCK then block_loop fuel timeout evs a s else Some (e, a, s)
    end
  end.

Definition finish_wait (r : option (Z * A * qstate)) : option (Z * A * qstate) :=
  if have_wait_counts q then (fun '(e, a, s) => (e, a, set_sh (add_wait d (-1) (sh s)) s)) <$> r else r.

Definition start_wait (timeout_us : Z) (evs : list wakeup) (a : A) (s : qstate) : option (Z * A * qstate) :=
  if timeout_us =? DSPQUEUE_TIMEOUT_NONE then block_loop (S (length evs)) None evs a s
  else
    match run None clock_gettime s with
    | (None, s) => Some (AEE_EFAILED, a, s)
    | (Some ts, s) => block_loop (S (length evs)) (Some (timespec_add_us ts timeout_us)) evs a s
    end.

Definition blocking_call (timeout_us : Z) (evs : list wakeup) (s : qstate) : option (Z * A * qstate) :=
  let '((e, a), s) := run (0, a0) op s in
  if negb (e =? AEE_EWOULDBLOCK) then Some (e, a, s)
  else if have_wait_counts q then
    let '((e, a), s) := run (0, a0) op (set_sh (add_wait d 1 (sh s)) s) in
    finish_wait (if negb (e =? AEE_EWOULDBLOCK) then Some (e, a, s) else start_wait timeout_us evs a s)
  else start_wait timeout_us evs a s.
End blocking.

Definition dspqueue_write (flags num_buffers : Z) (buffers : option (list dspqueue_buffer)) (message_length : Z) (message : option (list Z))
  (timeout_us : Z) (evs : list wakeup) (s : qstate) : option (Z * unit * qstate) :=
  blocking_call (e ← dspqueue_write_noblock flags num_buffers buffers message_length message; mret (e, tt)) Space DSPQUEUE_SIGNAL_REQ_SPACE tt
    timeout_us evs s.
Definition dspqueue_peek (timeout_us : Z) (evs : list wakeup) (s : qstate) : option (Z * option packet_info * qstate) :=
  blocking_call dspqueue_peek_noblock Packets DSPQUEUE_SIGNAL_RESP_PACKET None timeout_us evs s.
Definition dspqueue_read (max_buffers max_message_length : option Z) (timeout_us : Z) (evs : list wakeup) (s : qstate) : option (Z * rout * qstate) :=
  blocking_call (dspqueue_read_noblock max_buffers max_message_length) Packets DSPQUEUE_SIGNAL_RESP_PACKET rout0 timeout_us evs s.

(** ** Statistics *)
Definition dspqueue_get_stat (stat : Z) : M qstate (Z * option Z) :=
  s ← get;
  let x := sh s in
  let c := ctr s in
  if stat =? DSPQUEUE_STAT_EARLY_WAKEUP_WAIT_TIME then
    _ ← put (set_ctr (Counters (seq_no c) (read_packet_count c) (write_packet_count c) (req_packet_count c) (resp_space_count c) 0 (early_wakeup_misses c)) s);
    mret (0, Some (early_wakeup_wait c))
  else if stat =? DSPQUEUE_STAT_EARLY_WAKEUP_MISSES then
    _ ← put (set_ctr (Counters (seq_no c) (read_packet_count c) (write_packet_count c) (req_packet_count c) (resp_space_count c) (early_wakeup_wait c) 0) s);
    mret (0, Some (early_wakeup_misses c))
  else if stat =? DSPQUEUE_STAT_READ_QUEUE_PACKETS then
    mret (0, Some (u32 (packet_count (resp_write x) - read_packet_count c)))
  else if stat =? DSPQUEUE_STAT_WRITE_QUEUE_PACKETS then
    mret (0, Some (u32 (write_packet_count c - packet_count (req_read x))))
  else if stat =? DSPQUEUE_STAT_READ_QUEUE_BYTES then
    mret (0, Some (resp_state x).1.1)
  else if stat =? DSPQUEUE_STAT_WRITE_QUEUE_BYTES then
    mret (0, Some (u32 (queue_length (req_queue q) - (get_queue_state_write (queue_length (req_queue q)) (req_read x) (req_write x)).1.1 - 8)))
  else if stat =? DSPQUEUE_STAT_SIGNALING_PERF then
    mret (0, Some (if have_driver_signaling q then DSPQUEUE_SIGNALING_PERF_OPTIMIZED_SIGNALING
                   else if have_wait_counts q then DSPQUEUE_SIGNALING_PERF_REDUCED_SIGNALING else 0))
  else mret (AEE_EBADPARM, None).

(** ** References are given back *)
Definition ref_fd (b : dspqueue_buffer) : Z := s32 (b_fd b).
Definition delta (b : dspqueue_buffer) : Z :=
  if has_bit (b_flags b) DSPQUEUE_BUFFER_FLAG_REF then 1 else if has_bit (b_flags b) DSPQUEUE_BUFFER_FLAG_DEREF then -1 else 0.
Fixpoint add_refs (l : list dspqueue_buffer) (m : Mem.mem K) : Mem.mem K :=
  match l with [] => m | b :: l => add_refs l (add_ref (q_domain q) (ref_fd b) (delta b) m) end.
Definition below_max (m : Mem.mem K) (b : dspqueue_buffer) : Prop := forall r, ref_at (q_domain q) m (ref_fd b) = Some r -> r < INT_MAX.
Definition can_undo (m : Mem.mem K) (b : dspqueue_buffer) : Prop :=
  IS_VALID_EFFECTIVE_DOMAIN_ID (q_domain q) = true /\
  exists r, ref_at (q_domain q) m (ref_fd b) = Some r /\ 0 < r < INT_MAX /\ (delta b = -1 -> 1 < r).
Abbreviation distinct l := (NoDup (ref_fd <$> l)).

Lemma set_maps_id (s : qstate) : set_maps (maps s) s = s.
Proof. by destruct s. Qed.

Lemma delta_cases b : delta b = 0 \/ delta b = 1 \/ delta b = -1.
Proof. unfold delta. destruct (has_bit _ _); [tauto|]. destruct (has_bit _ _); tauto. Qed.

Lemma fastrpc_ref_spec fd k s : k = 0 \/ k = 1 \/ k = -1 -> (k = 1 -> forall r, ref_at (q_domain q) (maps s) (s32 fd) = Some r -> r < INT_MAX) ->
  exists out, fastrpc_ref fd k s =
    (Go (ref_error (q_domain q) (maps s) (s32 fd) k, out),
     if ref_error (q_domain q) (maps s) (s32 fd) k =? 0 then set_maps (add_ref (q_domain q) (s32 fd) k (maps s)) s else s) /\
    (ref_error (q_domain q) (maps s) (s32 fd) k = 0 -> out = map_at (q_domain q) (maps s) (s32 fd)).
Proof.
  intros Hk Hm. destruct (buffer_ref_spec (q_domain q) (s32 fd) k (maps s) Hk Hm) as (out & E & Eo).
  exists out. split; [|done]. unfold fastrpc_ref, on_maps. rewrite E. destruct (_ =? 0); [done|by rewrite set_maps_id].
Qed.

Lemma ref_error_cases (m : Mem.mem K) fd k : let e := ref_error (q_domain q) m fd k in e = 0 \/ e = AEE_EBADPARM \/ e = AEE_ENOSUCHMAP \/ e = AEE_ERPC.
Proof. unfold ref_error. destruct (negb _); [tauto|]. destruct (ref_at _ _ _); [|tauto]. destruct (negb _); [tauto|]. destruct (_ && _); tauto. Qed.

Lemma check_ref_spec b s : below_max (maps s) b ->
  (check_ref b s = (Go (default (0, 0) (map_at (q_domain q) (maps s) (ref_fd b))), set_maps (add_ref (q_domain q) (ref_fd b) (delta b) (maps s)) s) /\ can_undo (maps s) b) \/
  (exists e, check_ref b s = (Bail e, s) /\ (e = AEE_EBADPARM \/ e = AEE_ENOSUCHMAP \/ e = AEE_ERPC)).
Proof.
  intros Hb. destruct (fastrpc_ref_spec (b_fd b) (delta b) s (delta_cases b) (fun _ => Hb)) as (out & E & Eo).
  pose proof (ref_error_cases (maps s) (s32 (b_fd b)) (delta b)) as He. fold (ref_fd b) in *.
  set (e := ref_error (q_domain q) (maps s) (ref_fd b) (delta b)) in *.
  assert (Hc : check_ref b s = (if has_bit (b_flags b) DSPQUEUE_BUFFER_FLAG_REF && has_bit (b_flags b) DSPQUEUE_BUFFER_FLAG_DEREF then (Bail AEE_EBADPARM, s)
    else if e =? 0 then (Go (default (0, 0) out), set_maps (add_ref (q_domain q) (ref_fd b) (delta b) (maps s)) s) else (Bail e, s))).
  { unfold check_ref. unfold delta in *. destruct (has_bit (b_flags b) DSPQUEUE_BUFFER_FLAG_REF), (has_bit (b_flags b) DSPQUEUE_BUFFER_FLAG_DEREF);
      munfold; cbn [negb andb] in *; try done; rewrite E; destruct He as [->|[->|[->| ->]]]; done. }
  rewrite Hc. destruct (_ && _); [right; exists AEE_EBADPARM; split; [done|by left]|].
  destruct (Z.eqb_spec e 0) as [E0|Hne]; [left|right; exists e; split; [done|destruct He as [He|He]; [done|exact He]]].
  rewrite Eo by done. split; [done|]. unfold e, ref_error in E0. unfold can_undo. destruct (IS_VALID_EFFECTIVE_DOMAIN_ID _); [|done]. split; [done|].
  cbn [negb] in E0. specialize (Hb). unfold below_max in Hb. destruct (ref_at (q_domain q) (maps s) (ref_fd b)) as [r|]; [|done].
  exists r. split; [done|]. specialize (Hb r eq_refl). destruct (Z.ltb_spec 0 r); [|done]. split; [lia|]. intros Hd. rewrite Hd in E0.
  change (-1 =? -1) with true in E0. cbn [negb andb] in E0. destruct (Z.eqb_spec r 1); [done|lia].
Qed.

(** What the other references of the packet see. *)
Lemma other_ref (P : option Z -> Prop) b k (m : Mem.mem K) l : Forall (fun b' => P (ref_at (q_domain q) m (ref_fd b'))) l -> ref_fd b ∉ ref_fd <$> l ->
  Forall (fun b' => P (ref_at (q_domain q) (add_ref (q_domain q) (ref_fd b) k m) (ref_fd b'))) l.
Proof.
  intros H Hn. rewrite Forall_forall in *. intros b' Hb'. rewrite ref_at_add, decide_False; [by apply H|].
  intros E. apply Hn. rewrite E. by apply list_elem_of_fmap_2.
Qed.

Lemma ref_at_add_refs l fd (m : Mem.mem K) : fd ∉ ref_fd <$> l -> ref_at (q_domain q) (add_refs l m) fd = ref_at (q_domain q) m fd.
Proof.
  revert m. induction l as [|b l IH]; intros m Hn; [done|]. cbn in *. rewrite not_elem_of_cons in Hn. destruct Hn as [Hne Hn].
  rewrite IH, ref_at_add, decide_False by congruence. done.
Qed.
Lemma add_refs_add fd k l (m : Mem.mem K) : add_refs l (add_ref (q_domain q) fd k m) = add_ref (q_domain q) fd k (add_refs l m).
Proof. revert m. induction l as [|b l IH]; intros m; [done|]. cbn. by rewrite add_ref_comm, IH. Qed.

Definition touches (b : dspqueue_buffer) : bool := negb (delta b =? 0).
Lemma undo_spec l : forall nErr m s, distinct l -> Forall (can_undo m) l ->
  undo_buffers nErr l (set_maps (add_refs l m) s) = (Go (if existsb touches l then 0 else nErr), set_maps m s).
Proof.
  induction l as [|b l IH]; intros nErr m s Hd Hu; [done|].
  cbn in Hd. rewrite NoDup_cons in Hd. destruct Hd as [Hn Hd]. rewrite Forall_cons in Hu. destruct Hu as [[Hv (r & Er & Hr & Hr1)] Hu].
  assert (Hx : ref_at (q_domain q) (add_refs (b :: l) m) (ref_fd b) = Some (r + delta b)).
  { cbn. rewrite ref_at_add_refs, ref_at_add, decide_True, Er by done. done. }
  assert (Hstep : (if has_bit (b_flags b) DSPQUEUE_BUFFER_FLAG_REF then r ← fastrpc_ref (b_fd b) (-1); mret r.1
      else if has_bit (b_flags b) DSPQUEUE_BUFFER_FLAG_DEREF then r ← fastrpc_ref (b_fd b) 1; mret r.1
      else mret nErr) (set_maps (add_refs (b :: l) m) s) = (Go (if touches b then 0 else nErr), set_maps (add_refs l m) s)).
  { assert (Hback : add_ref (q_domain q) (ref_fd b) (- delta b) (add_refs (b :: l) m) = add_refs l m).
    { cbn. rewrite add_refs_add, add_ref_undo; [done|]. rewrite ref_at_add_refs by done. by eexists. }
    assert (Hcall : delta b <> 0 -> exists out, fastrpc_ref (b_fd b) (- delta b) (set_maps (add_refs (b :: l) m) s) = (Go (0, out), set_maps (add_refs l m) s)).
    { intros H0. destruct (fastrpc_ref_spec (b_fd b) (- delta b) (set_maps (add_refs (b :: l) m) s)) as (out & E & _).
      { destruct (delta_cases b) as [->|[->| ->]]; lia. }
      { intros Hm r' Hr'. fold (ref_fd b) in Hr'. cbn [maps set_maps] in Hr'. rewrite Hx in Hr'. injection Hr' as <-. lia. }
      fold (ref_fd b) in E. cbn [maps set_maps] in E. exists out. rewrite E, Hback. unfold ref_error. rewrite Hv, Hx. cbn [negb].
      assert (0 < r + delta b) by (destruct (delta_cases b) as [->|[->|Hm]]; [lia..|specialize (Hr1 Hm); lia]).
      rewrite (proj2 (Z.ltb_lt 0 _)) by done. cbn [negb].
      destruct (Z.eqb_spec (- delta b) (-1)); cbn [andb]; [|done].
      rewrite (proj2 (Z.eqb_neq (r + delta b) 1)) by lia. done. }
    unfold touches, delta in *. destruct (has_bit (b_flags b) DSPQUEUE_BUFFER_FLAG_REF); [|destruct (has_bit (b_flags b) DSPQUEUE_BUFFER_FLAG_DEREF)].
    - destruct Hcall as [out E]; [done|]. change (- (1)) with (-1) in E. munfold. by rewrite E.
    - destruct Hcall as [out E]; [done|]. change (- (-1)) with 1 in E. munfold. by rewrite E.
    - change (- 0) with 0 in Hback. rewrite add_ref_zero in Hback by (rewrite Hx; by eexists). by rewrite Hback. }
  cbn [undo_buffers existsb]. munfold. rewrite Hstep, (IH _ m s Hd Hu). by destruct (touches b), (existsb touches l).
Qed.

Lemma map_at_add_refs l fd (m : Mem.mem K) : map_at (q_domain q) (add_refs l m) fd = map_at (q_domain q) m fd.
Proof. revert m. induction l as [|b l IH]; intros m; [done|]. cbn. by rewrite IH, map_at_add. Qed.
Lemma add_refs_snoc l b (m : Mem.mem K) : add_refs (l ++ [b]) m = add_ref (q_domain q) (ref_fd b) (delta b) (add_refs l m).
Proof. revert m. induction l as [|c l IH]; intros m; [done|]. cbn. by rewrite IH. Qed.

(** The loop over the buffers: [I i] holds of the local at its top, [J n] when it fails with
    [n] references taken. *)
Section ref_loop.
Context {L : Type} (set_buf_refs : Z -> L -> L) (use : nat -> dspqueue_buffer -> Z * Z -> M (qstate * L) unit).
Context (I : nat -> L -> Prop) (J : Z -> L -> Prop) (bad : dspqueue_buffer -> Z * Z -> Z).
Definition ref_failed (e : Z) : Prop := e = AEE_EBADPARM \/ e = AEE_ENOSUCHMAP \/ e = AEE_ERPC \/ e = AEE_EBADITEM.
Definition mapped_at (m : Mem.mem K) (b : dspqueue_buffer) : Z * Z := default (0, 0) (map_at (q_domain q) m (ref_fd b)).

Context (bl : list dspqueue_buffer) (m : Mem.mem K) (s : qstate).
Context (HIJ : forall i x, I i x -> J (Z.of_nat i) x).
Context (Huse : forall i b s' x, bl !! i = Some b -> I i x ->
  (bad b (mapped_at m b) = 0 /\ exists y, use i b (mapped_at m b) (s', set_buf_refs (Z.of_nat i + 1) x) = (Go tt, (s', y)) /\ I (S i) y) \/
  (ref_failed (bad b (mapped_at m b)) /\
    use i b (mapped_at m b) (s', set_buf_refs (Z.of_nat i + 1) x) = (Bail (bad b (mapped_at m b)), (s', set_buf_refs (Z.of_nat i + 1) x)) /\
    J (Z.of_nat i + 1) (set_buf_refs (Z.of_nat i + 1) x))).
Context (Hdist : distinct bl) (Hmax : Forall (below_max m) bl).

Lemma ref_loop_spec : forall l i x, bl = take i bl ++ l -> (i <= length bl)%nat -> Forall (can_undo m) (take i bl) -> I i x ->
  exists j : nat, (j <= length bl)%nat /\ Forall (can_undo m) (take j bl) /\
    match ref_loop set_buf_refs use i l (set_maps (add_refs (take i bl) m) s, x) with
    | (Go _, (s', x')) => j = length bl /\ s' = set_maps (add_refs bl m) s /\ I (length bl) x' /\ Forall (fun b => bad b (mapped_at m b) = 0) l
    | (Bail e, (s', x')) => ref_failed e /\ s' = set_maps (add_refs (take j bl) m) s /\ J (Z.of_nat j) x'
    end.
Proof.
  induction l as [|b l IH]; intros i x Ebl Hi Hu HI.
  - assert (i = length bl) as ->. { rewrite app_nil_r in Ebl. apply (f_equal length) in Ebl. rewrite length_take in Ebl. lia. }
    exists (length bl). rewrite take_ge in * by lia. split_and!; done.
  - assert (Hb : bl !! i = Some b). { rewrite Ebl, lookup_app_r; rewrite length_take; [|lia]. by replace (i - _)%nat with O by lia. }
    assert (Hlt : (i < length bl)%nat) by (by eapply lookup_lt_Some).
    assert (ES : take (S i) bl = take i bl ++ [b]) by (by apply take_S_r).
    assert (Hnew : ref_fd b ∉ ref_fd <$> take i bl).
    { pose proof Hdist as Hd. rewrite Ebl, fmap_app, NoDup_app in Hd. destruct Hd as (_ & Hd & _). intros Hin. apply (Hd _ Hin). apply list_elem_of_here. }
    set (m1 := add_refs (take i bl) m). assert (Hat : mapped_at m1 b = mapped_at m b).
    { unfold mapped_at, m1. by rewrite map_at_add_refs. }
    assert (Hmb : below_max m1 b).
    { intros r Hr. unfold m1 in Hr. rewrite ref_at_add_refs in Hr by done. rewrite Forall_lookup in Hmax. by eapply (Hmax i b Hb). }
    cbn [ref_loop]. munfold. cbn [fst snd]. destruct (check_ref_spec b (set_maps m1 s) Hmb) as [(E & Hv & r & Er & Hr)|(e & E & He)].
    2: { exists i. rewrite E. cbn [fst snd]. split; [done|]. split; [done|]. split; [unfold ref_failed; tauto|]. split; [done|]. by apply HIJ. }
    fold (mapped_at (maps (set_maps m1 s)) b) in E. change (maps (set_maps m1 s)) with m1 in E. unfold m1 in E. rewrite <- add_refs_snoc, <- ES in E. fold m1 in E. rewrite Hat in E.
    rewrite E. cbn [fst snd]. change (set_maps (add_refs (take (S i) bl) m) (set_maps m1 s)) with (set_maps (add_refs (take (S i) bl) m) s).
    assert (Hu' : Forall (can_undo m) (take (S i) bl)).
    { rewrite ES. apply Forall_app. split; [done|]. constructor; [|done]. split; [done|]. exists r. split; [|done].
      cbn [maps set_maps] in Er. unfold m1 in Er. by rewrite ref_at_add_refs in Er. }
    destruct (Huse i b (set_maps (add_refs (take (S i) bl) m) s) x Hb HI) as [(Hok & y & -> & HIy)|(Hf & -> & HJ)].
    + destruct (IH (S i) y) as (j & Hj & Huj & Hr'); [|lia|done|done|].
      { rewrite ES, <- app_assoc. exact Ebl. }
      exists j. split; [done|]. split; [done|]. destruct (ref_loop _ _ _ _ _) as [[[]|e] [s' x']]; [|done].
      destruct Hr' as (? & ? & ? & ?). split_and!; [done..|]. by constructor.
    + exists (S i). split; [lia|]. split; [done|]. split; [done|]. split; [done|]. by rewrite Nat2Z.inj_succ.
Qed.

Lemma ref_loop_start x : m = maps s -> I O x ->
  exists j : nat, (j <= length bl)%nat /\ Forall (can_undo m) (take j bl) /\
    match ref_loop set_buf_refs use O bl (s, x) with
    | (Go _, (s', x')) => j = length bl /\ s' = set_maps (add_refs bl m) s /\ I (length bl) x' /\ Forall (fun b => bad b (mapped_at m b) = 0) bl
    | (Bail e, (s', x')) => ref_failed e /\ s' = set_maps (add_refs (take j bl) m) s /\ J (Z.of_nat j) x'
    end.
Proof.
  intros Em HI. destruct (ref_loop_spec bl O x) as (j & Hj & Hu & Hr); [done|lia|by constructor|done|].
  exists j. split; [done|]. split; [done|]. change (add_refs (take 0 bl) m) with m in Hr. rewrite Em, set_maps_id in Hr. by rewrite Em.
Qed.
End ref_loop.

(** The part of the map that a buffer reference names. *)
Definition in_range (m : Mem.mem K) (b : dspqueue_buffer) : bool :=
  if negb (b_size b =? 0) then in_bounds b (mapped_at m b).2 else b_offset b =? 0.
Definition range_error (e : Z) (b : dspqueue_buffer) (r : Z * Z) : Z :=
  if (if negb (b_size b =? 0) then in_bounds b r.2 else b_offset b =? 0) then 0 else e.
Lemma range_error_0 e (m : Mem.mem K) l : e <> 0 -> Forall (fun b => range_error e b (mapped_at m b) = 0) l -> Forall (fun b => in_range m b = true) l.
Proof. intros He H. eapply Forall_impl; [exact H|]. intros b Hb. unfold range_error in Hb. unfold in_range. by destruct (if negb _ then _ else _). Qed.

Lemma check_buffers_spec bl s : distinct bl -> Forall (below_max (maps s)) bl ->
  exists j : nat, (j <= length bl)%nat /\ Forall (can_undo (maps s)) (take j bl) /\
    match check_buffers bl (s, 0) with
    | (Go _, (s', _)) => j = length bl /\ s' = set_maps (add_refs bl (maps s)) s /\ Forall (fun b => in_range (maps s) b = true) bl
    | (Bail e, (s', n)) => ref_failed e /\ s' = set_maps (add_refs (take j bl) (maps s)) s /\ n = Z.of_nat j
    end.
Proof.
  intros Hd Hm. unfold check_buffers.
  destruct (ref_loop_start (fun n (_ : Z) => n) check_bounds (fun i x => x = Z.of_nat i) (fun n x => x = n) (range_error AEE_EBADPARM) bl (maps s) s)
    with (x := 0) as (j & Hj & Hu & Hr); try done.
  - intros i b s' x _ ->. unfold check_bounds, range_error. munfold. rewrite !Z.add_1_r, <- Nat2Z.inj_succ.
    destruct (negb (b_size b =? 0)); [destruct (in_bounds b _)|destruct (b_offset b =? 0)];
      first [left; split; [done|by eexists]|right; split; [by left|done]].
  - exists j. split; [done|]. split; [done|].
    destruct (ref_loop _ _ _ _ _) as [[[]|e] [s' x']]; [|done]. destruct Hr as (? & ? & ? & ?). split_and!; [done..|]. by apply (range_error_0 AEE_EBADPARM).
Qed.

(** What the reader of a packet gets: the address in the map, and the size of the map where
    the packet has none. *)
Definition filled (m : Mem.mem K) (b : dspqueue_buffer) : dspqueue_buffer :=
  let r := mapped_at m b in
  if negb (b_size b =? 0) then Buffer (b_fd b) (b_size b) (b_offset b) (b_flags b) (u64 (r.1 + b_offset b))
  else Buffer (b_fd b) (u32 r.2) (b_offset b) (b_flags b) r.1.
Definition same_refs (l l' : list dspqueue_buffer) : Prop := Forall2 (fun b b' => b_fd b = b_fd b' /\ b_flags b = b_flags b') l l'.

Lemma undo_same nErr l l' s : same_refs l l' -> undo_buffers nErr l s = undo_buffers nErr l' s.
Proof.
  intros H. revert nErr s. induction H as [|b b' l l' [E1 E2] H IH]; intros nErr s; [done|]. cbn [undo_buffers]. rewrite E1, E2. munfold.
  destruct (has_bit _ _); [destruct (fastrpc_ref _ _ _) as [[] ?]; [apply IH|done]|].
  destruct (has_bit _ _); [destruct (fastrpc_ref _ _ _) as [[] ?]; [apply IH|done]|apply IH].
Qed.
Lemma filled_same m l : same_refs (filled m <$> l) l.
Proof. unfold same_refs. rewrite Forall2_fmap_l. apply Forall_Forall2_diag, Forall_true. intros b. unfold compose, filled. destruct (b_size b =? 0); by split. Qed.

Lemma partly_filled m i l : same_refs ((filled m <$> take i l) ++ drop i l) l.
Proof.
  rewrite <- (take_drop i l) at 3. apply Forall2_app; [apply filled_same|]. by apply Forall_Forall2_diag, Forall_true.
Qed.

Lemma take_buffers_spec bl s o : o_buffers o = bl -> distinct bl -> Forall (below_max (maps s)) bl ->
  exists j : nat, (j <= length bl)%nat /\ Forall (can_undo (maps s)) (take j bl) /\
    match take_buffers bl (s, (0, o)) with
    | (Go _, (s', (_, o'))) => j = length bl /\ s' = set_maps (add_refs bl (maps s)) s /\ o' = set_buffers (filled (maps s) <$> bl) o /\
        Forall (fun b => in_range (maps s) b = true) bl
    | (Bail e, (s', (n, o'))) => ref_failed e /\ s' = set_maps (add_refs (take j bl) (maps s)) s /\ n = Z.of_nat j /\
        same_refs (o_buffers o') bl /\ o' = set_buffers (o_buffers o') o
    end.
Proof.
  intros Eo Hd Hm. unfold take_buffers.
  destruct (ref_loop_start (fun n '(_, o) => (n, o)) fill_address
    (fun i x => x = (Z.of_nat i, set_buffers ((filled (maps s) <$> take i bl) ++ drop i bl) o))
    (fun n x => x.1 = n /\ same_refs (o_buffers x.2) bl /\ x.2 = set_buffers (o_buffers x.2) o) (range_error AEE_EBADITEM) bl (maps s) s)
    with (x := (0, o)) as (j & Hj & Hu & Hr); try done; [| |by destruct o; cbn in *; subst|].
  - intros i x ->. split; [done|]. split; [apply partly_filled|done].
  - intros i b s' x Hb ->. unfold fill_address, range_error. destruct (mapped_at (maps s) b) as [va size] eqn:Er.
    assert (Hnew : forall b', b' = filled (maps s) b -> <[ i := b' ]> ((filled (maps s) <$> take i bl) ++ drop i bl) = (filled (maps s) <$> take (S i) bl) ++ drop (S i) bl).
    { intros b' ->. pose proof (lookup_lt_Some _ _ _ Hb) as Hlt. rewrite (drop_S _ _ _ Hb), (take_S_r _ _ _ Hb), fmap_app.
      rewrite insert_app_r_alt; rewrite length_fmap, length_take; [|lia]. replace (i - _)%nat with O by lia. by rewrite <- app_assoc. }
    munfold. cbn [fst snd]. rewrite !Z.add_1_r, <- Nat2Z.inj_succ.
    assert (HJ : (Z.of_nat (S i), set_buffers ((filled (maps s) <$> take i bl) ++ drop i bl) o).1 = Z.of_nat (S i) /\
      same_refs ((filled (maps s) <$> take i bl) ++ drop i bl) bl /\ set_buffers ((filled (maps s) <$> take i bl) ++ drop i bl) o =
      set_buffers ((filled (maps s) <$> take i bl) ++ drop i bl) o).
    { split; [done|]. split; [apply partly_filled|done]. }
    assert (Hf := Hnew). specialize (Hf _ eq_refl). unfold filled at 1 in Hf. rewrite Er in Hf. cbn [fst snd] in Hf.
    destruct (negb (b_size b =? 0)); [destruct (in_bounds b _)|destruct (b_offset b =? 0)]; cbn [fst snd set_buffers o_buffers];
      first [left; split; [done|eexists; split; [done|by rewrite Hf]] | right; split; [unfold ref_failed; tauto|by split]].
  - exists j. split; [done|]. split; [done|]. destruct (ref_loop _ _ _ _ _) as [[[]|e] [s' [n x']]].
    + destruct Hr as (? & ? & Ex & ?). injection Ex as -> ->. rewrite take_ge, drop_ge, app_nil_r by lia. split_and!; [done..|].
      by apply (range_error_0 AEE_EBADITEM).
    + destruct Hr as (? & ? & ? & ? & ?). done.
Qed.

(** ** What a packet queue holds *)
Definition good_length (n : Z) : Prop := n mod 8 = 0 /\ 8 < n <= DSPQUEUE_MAX_QUEUE_SIZE.
Record queue_view (pq : packet_queue) (m : memory) (rs ws : packet_queue_state) (R W : Z) (l : list packet) : Prop := {
  v_len : good_length (queue_length pq); v_R : R mod 8 = 0; v_W : W mod 8 = 0; v_le : R <= W <= R + queue_length pq - 8;
  v_r : position rs = R mod queue_length pq; v_w : position ws = W mod queue_length pq;
  v_holds : holds (queue_base pq) (queue_length pq) m R l W
}.

(** A packet that is written at the end of the queue. *)
Lemma view_append pq m rs ws R W l pk c :
  queue_view pq m rs ws R W l -> packet_ok pk -> alen pk <= queue_length pq - 8 ->
  let n := queue_length pq in
  get_queue_state_write n rs ws = (n - 8 - (W - R), R mod n, W mod n) /\
  if next n W pk <=? R + n - 8 then
    exists wrap m', has_space n (n - 8 - (W - R)) (W mod n) (alen pk) = Some wrap /\
      put_packet m (queue_base pq) n (W mod n) wrap (p_hdr pk) (p_bufs pk) (p_msg pk) = (m', next n W pk mod n) /\
      queue_view pq m' rs (set_position (next n W pk mod n) c ws) R (next n W pk) (l ++ [pk])
  else has_space n (n - 8 - (W - R)) (W mod n) (alen pk) = None.
Proof.
  intros [[H8 Hlen] HR HW Hle Er Ew Hh] Hp Hfit n. fold n in H8, Hlen, Hle, Er, Ew, Hh, Hfit.
  split; [by apply queue_state_write|]. pose proof (has_space_spec n H8 Hlen W pk HW Hp R Hle) as Hs.
  destruct (Z.leb_spec (next n W pk) (R + n - 8)) as [Hn|Hn]; [|done].
  destruct (put_packet_spec (queue_base pq) n H8 Hlen m W pk) as (m' & E & Hc & He); [done..|lia|].
  destruct (next_spec n H8 Hlen W pk HW Hp Hfit) as [Hge Hn8].
  exists (negb (alen pk <=? n - W mod n)), m'. split; [done|]. split; [done|]. split; fold n; try done; [lia|].
  apply holds_snoc; [|done..]. eapply holds_frame; [done..|exact Hc| |]; lia.
Qed.

Lemma length_buffers_bytes l : Z.of_nat (length (buffers_bytes l)) = 24 * Z.of_nat (length l).
Proof. induction l as [|b l IH]; [done|]. cbn [buffers_bytes]. rewrite length_app, Nat2Z.inj_add, IH. cbn. lia. Qed.

Lemma check_sizes flags sq (bl : list dspqueue_buffer) (msg : list Z) :
  Z.of_nat (length bl) <= DSPQUEUE_MAX_BUFFERS -> Z.of_nat (length msg) <= DSPQUEUE_MAX_MESSAGE_SIZE ->
  let pk := make_packet flags sq (buffers_bytes bl) msg in
  packet_ok pk /\ align8 (u32 (packet_len (Z.of_nat (length bl)) (Z.of_nat (length msg)))) = alen pk /\
  0 <= u32 (queue_length (req_queue q) - 8) /\ alen pk < 4294967296.
Proof.
  intros Hb Hm pk. assert (Hp : packet_ok pk) by (eapply make_packet_ok; [apply length_buffers_bytes|done|done]).
  split; [done|]. destruct (packet_sizes pk Hp) as (? & ? & ? & k & Ek & Hk).
  assert (En : nbufs pk = Z.of_nat (length bl)).
  { unfold nbufs, pk, make_packet. cbn [p_bufs]. rewrite length_buffers_bytes, Z.mul_comm. by apply Z.div_mul. }
  assert (Em : mlen pk = Z.of_nat (length msg)) by done.
  unfold DSPQUEUE_MAX_BUFFERS, DSPQUEUE_MAX_MESSAGE_SIZE in *.
  split; [|split; [apply u32_range|lia]]. unfold alen. f_equal. unfold plen. rewrite En, Em. apply u32_small.
  unfold packet_len, sizeof_dspqueue_buffer. lia.
Qed.

(** Without driver signals the other end is always told, by a bit of a mask. *)
Definition after_signal (wait : Z) (x : shared) : shared :=
  if have_wait_counts q && (wait =? 0) then x else set_send_mask (Z.lor (send_signal_mask x) SIGNAL_BIT_SIGNAL) x.
Lemma signal_other_end_spec waiters no s : have_driver_signaling q = false ->
  signal_other_end waiters no s = (Go tt, set_sh (after_signal (waiters (sh s)) (sh s)) s).
Proof.
  intros Hd. unfold signal_other_end, send_signal, on_sh, after_signal. rewrite Hd. munfold.
  destruct (_ && _); [by destruct s|done].
Qed.
(** ** A write that fails *)

(** Only the maps, with their references, may be other ones. *)
Definition but_maps (s0 s : qstate) : Prop := set_maps (maps s0) s = s0.
Lemma but_maps_on {A} s0 (m : M (Mem.mem K) A) : preserves (but_maps s0) (on_maps m).
Proof. intros s <-. unfold on_maps. by destruct (m (maps s)). Qed.
Lemma but_maps_ref s0 fd rf : preserves (but_maps s0) (fastrpc_ref fd rf).
Proof. apply but_maps_on. Qed.
Hint Resolve but_maps_ref : keeps.
Lemma but_maps_check s0 b : preserves (but_maps s0) (check_ref b).
Proof. unfold check_ref. keep. Qed.
Hint Resolve but_maps_check : keeps.
Lemma but_maps_loop s0 : forall l i, preserves (fun sl : qstate * Z => but_maps s0 sl.1) (ref_loop (fun n _ => n) check_bounds i l).
Proof. induction l as [|b l IH]; intros i; cbn [ref_loop]; [keep|]. keep. unfold check_bounds. keep. Qed.
Lemma ref_returns s0 fd rf s : but_maps s0 s -> exists r s', fastrpc_ref fd rf s = (Go r, s') /\ but_maps s0 s'.
Proof.
  intros Hs. pose proof (but_maps_ref s0 fd rf s Hs) as Hk. unfold fastrpc_ref, on_maps in *.
  assert (Hg : exists r m, fastrpc_buffer_ref (q_domain q) (s32 fd) rf (maps s) = (Go r, m)).
  { unfold fastrpc_buffer_ref. munfold. repeat (case_match; try by eexists _, _). }
  destruct Hg as (r & m & E). rewrite E in *. by eexists _, _.
Qed.
Lemma undo_returns s0 l : forall e s, but_maps s0 s -> exists e' s', undo_buffers e l s = (Go e', s') /\ but_maps s0 s'.
Proof.
  induction l as [|b l IH]; intros e s Hs; cbn [undo_buffers]; [by eexists _, _|]. munfold.
  destruct (has_bit _ _); [|destruct (has_bit _ _); [|by apply IH]].
  - destruct (ref_returns s0 (b_fd b) (-1) s Hs) as (r & s1 & -> & H1). by apply IH.
  - destruct (ref_returns s0 (b_fd b) 1 s Hs) as (r & s1 & -> & H1). by apply IH.
Qed.

Lemma but_maps_body s0 flags nb bufs ml msg s : have_driver_signaling q = false -> but_maps s0 s ->
  wp (write_body flags nb bufs ml msg) (fun _ _ => True) (fun _ t => but_maps s0 t.1) (s, 0).
Proof.
  intros Hd Hs. unfold write_body. do 5 (apply wp_bind, wp_VERIFYC; intros _; [|exact Hs]). do 2 wp_step. apply wp_bind, wp_VERIFYC; intros _; [|exact Hs].
  cbn [fst snd]. destruct (get_queue_state_write _ _ _) as [[qleft r] w]. destruct (has_space _ _ _ _) as [wrap|]; [|exact Hs].
  apply wp_bind. pose proof (but_maps_loop s0 (take (Z.to_nat nb) (default [] bufs)) 0 (s, 0) Hs) as Hc. unfold wp. unfold check_buffers.
  destruct (ref_loop _ _ _ _ (s, 0)) as [[[]|e] [s1 n]]; [|exact Hc]. munfold. cbn [fst snd]. by rewrite signal_other_end_spec.
Qed.

(** Whatever the arguments and their descriptors, a write that fails leaves the queue, its
    memory and the counters as they were: without driver signals nothing can fail once the
    packet is published. *)
Lemma failed_write_keeps_queue flags nb bufs ml msg s : have_driver_signaling q = false ->
  exists e s', dspqueue_write_noblock flags nb bufs ml msg s = (Go e, s') /\ (e <> 0 -> but_maps s s').
Proof.
  intros Hd. pose proof (but_maps_body s flags nb bufs ml msg s Hd (set_maps_id s)) as Hb. unfold dspqueue_write_noblock. munfold. unfold with_locals, wp in *.
  destruct (write_body _ _ _ _ _ (s, 0)) as [[[]|e] [s1 n]]; cbv beta iota; [by eexists _, _|].
  destruct (e =? 0); [by eexists _, _|]. destruct (undo_returns s (take (Z.to_nat n) (default [] bufs)) e s1 Hb) as (e' & s' & -> & Hu). by eexists _, _.
Qed.
(** ** Writing *)
Section write.
Context (flags : Z) (bl : list dspqueue_buffer) (msg : list Z) (s : qstate) (R W : Z) (l : list packet).
Context (Hdrv : have_driver_signaling q = false).
Context (Hview : queue_view (req_queue q) (ring (sh s)) (req_read (sh s)) (req_write (sh s)) R W l).
Context (Hdist : distinct bl) (Hmax : Forall (below_max (maps s)) bl).

Definition written : packet := make_packet flags (seq_no (ctr s)) (buffers_bytes bl) msg.
Definition acceptable : Prop :=
  Z.of_nat (length bl) <= DSPQUEUE_MAX_BUFFERS /\ Z.of_nat (length msg) <= DSPQUEUE_MAX_MESSAGE_SIZE /\
  alen written <= queue_length (req_queue q) - 8 /\ header_count (sh s) = queue_count q.
Definition room : Prop := next (queue_length (req_queue q)) W written <= R + queue_length (req_queue q) - 8.

Definition write_call : M qstate Z :=
  dspqueue_write_noblock flags (Z.of_nat (length bl)) (Some bl) (Z.of_nat (length msg)) (Some msg).

Lemma take_all {A} (x : list A) : take (Z.to_nat (Z.of_nat (length x))) x = x.
Proof. rewrite Nat2Z.id. by apply take_ge. Qed.

Lemma write_body_refused : ~ acceptable -> exists e, write_body flags (Z.of_nat (length bl)) (Some bl) (Z.of_nat (length msg)) (Some msg) (s, 0) = (Bail e, (s, 0)) /\ (e = AEE_EBADPARM \/ e = AEE_ERPC).
Proof.
  intros Hna. unfold write_body, acceptable in *. munfold. cbn [is_found].
  destruct (Z.leb_spec (Z.of_nat (length bl)) DSPQUEUE_MAX_BUFFERS) as [Hb|]; [|eexists; split; [done|first [by left|by right]]].
  destruct (Z.leb_spec (Z.of_nat (length msg)) DSPQUEUE_MAX_MESSAGE_SIZE) as [Hm|]; [|eexists; split; [done|first [by left|by right]]].
  rewrite !orb_true_r. destruct (check_sizes flags (seq_no (ctr s)) bl msg Hb Hm) as (Hp & -> & Hq & Ha). fold written in *.
  destruct (v_len _ _ _ _ _ _ _ Hview) as [_ Hlen]. unfold DSPQUEUE_MAX_QUEUE_SIZE in *.
  rewrite u32_small by lia. destruct (Z.ltb_spec (queue_length (req_queue q) - 8) (alen written)); cbn [negb].
  { eexists; split; [done|by left]. }
  cbn [fst snd]. destruct (Z.eqb_spec (header_count (sh s)) (queue_count q)); [lia|].
  eexists. split; [done|by right].
Qed.

Lemma write_body_accepted : acceptable ->
  write_body flags (Z.of_nat (length bl)) (Some bl) (Z.of_nat (length msg)) (Some msg) (s, 0) =
  match has_space (queue_length (req_queue q)) (queue_length (req_queue q) - 8 - (W - R)) (W mod queue_length (req_queue q)) (alen written) with
  | None => (Bail AEE_EWOULDBLOCK, (s, 0))
  | Some wrap =>
    match check_buffers bl (s, 0) with
    | (Bail e, x) => (Bail e, x)
    | (Go _, (s1, n)) =>
      let s2 := publish_packet (queue_length (req_queue q)) (W mod queue_length (req_queue q)) wrap written s1 in
      (Go tt, (next_seq (set_sh (after_signal (wait_count (req_read (sh s2))) (sh s2)) s2), n))
    end
  end.
Proof.
  intros (Hb & Hm & Hfit & Hcount). unfold write_body. munfold. cbn [is_found fst snd default].
  destruct (check_sizes flags (seq_no (ctr s)) bl msg Hb Hm) as (Hp & -> & Hq & Ha). fold written in *.
  pose proof (v_len _ _ _ _ _ _ _ Hview) as [_ Hlen]. unfold DSPQUEUE_MAX_QUEUE_SIZE in *.
  rewrite (proj2 (Z.leb_le _ _) Hb), (proj2 (Z.leb_le _ _) Hm), !orb_true_r, (u32_small (_ - _)) by lia.
  rewrite (proj2 (Z.ltb_ge _ _)) by lia. cbn [negb fst snd]. rewrite (proj2 (Z.eqb_eq _ _) Hcount). cbn [fst snd].
  destruct (view_append _ _ _ _ _ _ _ written 0 Hview Hp Hfit) as [-> _].
  unfold default, from_option, id. rewrite !take_all.
  destruct (has_space _ _ _ _) as [wrap|]; [|done]. destruct (check_buffers bl (s, 0)) as [[[]|e] [s1 n]]; [|done].
  cbn [fst snd]. fold written. by rewrite signal_other_end_spec.
Qed.

(** The state after the packet is written. *)
Definition written_state (wrap : bool) : qstate :=
  let s1 := publish_packet (queue_length (req_queue q)) (W mod queue_length (req_queue q)) wrap written (set_maps (add_refs bl (maps s)) s) in
  next_seq (set_sh (after_signal (wait_count (req_read (sh s))) (sh s1)) s1).
Definition space : option bool :=
  has_space (queue_length (req_queue q)) (queue_length (req_queue q) - 8 - (W - R)) (W mod queue_length (req_queue q)) (alen written).

Lemma written_packet_ok : acceptable -> packet_ok written /\ alen written <= queue_length (req_queue q) - 8.
Proof. intros (Hb & Hm & Hfit & _). split; [|done]. by destruct (check_sizes flags (seq_no (ctr s)) bl msg Hb Hm). Qed.

Lemma written_state_view wrap : acceptable -> space = Some wrap ->
  let s' := written_state wrap in
  room /\ queue_view (req_queue q) (ring (sh s')) (req_read (sh s')) (req_write (sh s')) R (next (queue_length (req_queue q)) W written) (l ++ [written]) /\
  write_packet_count (ctr s') = u32 (write_packet_count (ctr s) + 1) /\ packet_count (req_write (sh s')) = write_packet_count (ctr s') /\
  wait_count (req_write (sh s')) = wait_count (req_write (sh s)) /\
  send_signal_mask (sh s') = (if have_wait_counts q && (wait_count (req_read (sh s)) =? 0) then send_signal_mask (sh s)
                              else Z.lor (send_signal_mask (sh s)) SIGNAL_BIT_SIGNAL).
Proof.
  intros [Hp Hfit]%written_packet_ok Hs s'.
  destruct (view_append _ _ _ _ _ _ _ written (u32 (write_packet_count (ctr s) + 1)) Hview Hp Hfit) as [_ Hv]. fold space in Hv. unfold room.
  destruct (Z.leb_spec (next (queue_length (req_queue q)) W written) (R + queue_length (req_queue q) - 8)) as [Hr|Hr]; [|congruence].
  split; [done|]. destruct Hv as (w & m' & Hs' & Hput & Hq). assert (w = wrap) as -> by congruence.
  unfold s', written_state, publish_packet. cbn [sh set_maps]. rewrite Hput. unfold after_signal. cbn. by destruct (_ && _).
Qed.
Lemma no_room : acceptable -> space = None -> ~ room.
Proof.
  intros [Hp Hfit]%written_packet_ok Hs. destruct (view_append _ _ _ _ _ _ _ written 0 Hview Hp Hfit) as [_ Hv]. fold space in Hv. unfold room.
  destruct (Z.leb_spec (next (queue_length (req_queue q)) W written) (R + queue_length (req_queue q) - 8)) as [Hr|Hr]; [|lia].
  destruct Hv as (w & m' & Hs' & _). congruence.
Qed.

Lemma acceptable_dec : acceptable \/ ~ acceptable.
Proof.
  unfold acceptable. destruct (decide (Z.of_nat (length bl) <= DSPQUEUE_MAX_BUFFERS)); [|tauto].
  destruct (decide (Z.of_nat (length msg) <= DSPQUEUE_MAX_MESSAGE_SIZE)); [|tauto].
  destruct (decide (alen written <= queue_length (req_queue q) - 8)); [|tauto]. destruct (decide (header_count (sh s) = queue_count q)); tauto.
Qed.

(** The three ends of the call. *)
Inductive write_end : Z -> qstate -> Prop :=
| end_written wrap : acceptable -> space = Some wrap -> Forall (can_undo (maps s)) bl ->
    Forall (fun b => in_range (maps s) b = true) bl -> write_end 0 (written_state wrap)
| end_full : acceptable -> space = None -> write_end AEE_EWOULDBLOCK s
| end_failed e : ref_failed e -> (acceptable -> space <> None) -> write_end e s.

Lemma ref_failed_other e : ref_failed e -> e <> 0 /\ e <> AEE_EWOULDBLOCK /\ e <> AEE_EEXPIRED.
Proof. by intros [->|[->|[->| ->]]]. Qed.

Lemma write_call_end : exists e s', write_call s = (Go e, s') /\ write_end e s'.
Proof.
  unfold write_call, dspqueue_write_noblock. munfold. destruct acceptable_dec as [Ha|Hna].
  2: { destruct (write_body_refused Hna) as (e & -> & He). cbn [take undo_buffers Z.to_nat]. munfold.
       assert (Hf : ref_failed e) by (unfold ref_failed; tauto). destruct (ref_failed_other e Hf) as [He1 _].
       rewrite (proj2 (Z.eqb_neq e 0) He1). eexists e, s. split; [done|by apply end_failed]. }
  rewrite (write_body_accepted Ha). fold space. destruct space as [wrap|] eqn:Es.
  2: { eexists AEE_EWOULDBLOCK, s. split; [done|by apply end_full]. }
  destruct (check_buffers_spec bl s) as (j & Hj & Hu & Hc); [done..|]. destruct (check_buffers bl (s, 0)) as [[[]|e] [s1 n]].
  - destruct Hc as (-> & -> & Hin). rewrite take_ge in Hu by lia. cbn [AEE_SUCCESS Z.eqb]. eexists 0, _. split; [done|].
    unfold publish_packet. cbn [sh set_maps]. pose proof (end_written wrap Ha Es Hu Hin) as He. unfold written_state, publish_packet in He.
    cbn [sh set_maps] in He. by destruct (put_packet _ _ _ _ _ _ _ _).
  - destruct Hc as (He & -> & ->). rewrite Nat2Z.id.
    assert (Hd : distinct (take j bl)) by (rewrite fmap_take; eapply sublist_NoDup; [exact Hdist|apply sublist_take]).
    destruct (ref_failed_other e He) as [He1 _].
    rewrite (proj2 (Z.eqb_neq e 0) He1). unfold default, from_option, id. rewrite (undo_spec (take j bl) e (maps s) s Hd Hu).
    eexists e, s. rewrite set_maps_id. split; [done|]. apply end_failed; [done..|]. by rewrite Es.
Qed.

Lemma write_distinct : exists e s', write_call s = (Go e, s') /\
  (e = 0 -> acceptable /\ room /\ Forall (can_undo (maps s)) bl /\ Forall (fun b => in_range (maps s) b = true) bl /\ maps s' = add_refs bl (maps s) /\
    queue_view (req_queue q) (ring (sh s')) (req_read (sh s')) (req_write (sh s')) R (next (queue_length (req_queue q)) W written) (l ++ [written]) /\
    write_packet_count (ctr s') = u32 (write_packet_count (ctr s) + 1) /\ packet_count (req_write (sh s')) = write_packet_count (ctr s') /\
    seq_no (ctr s') = (seq_no (ctr s) + 1) mod 65536 /\
    send_signal_mask (sh s') = (if have_wait_counts q && (wait_count (req_read (sh s)) =? 0) then send_signal_mask (sh s)
                                else Z.lor (send_signal_mask (sh s)) SIGNAL_BIT_SIGNAL)) /\
  (e <> 0 -> s' = s) /\
  (e = AEE_EWOULDBLOCK <-> acceptable /\ ~ room).
Proof.
  destruct write_call_end as (e & s' & E & He). exists e, s'. split; [done|]. destruct He as [wrap Ha Es Hu Hin|Ha Es|e He Hs].
  - destruct (written_state_view wrap Ha Es) as (Hr & Hv & Hc & Hc' & _ & Hm).
    split; [intros _|split; [done|split; [done|tauto]]]. split_and!; try done; unfold written_state, publish_packet; cbn [sh set_maps];
      by destruct (put_packet _ _ _ _ _ _ _ _).
  - split; [done|]. split; [done|]. split; [|done]. intros _. split; [done|by apply no_room].
  - destruct (ref_failed_other e He) as (He1 & He2 & _). split; [done|]. split; [done|]. split; [done|]. intros [Ha Hnr]. destruct space as [wrap|] eqn:Es; [|by destruct (Hs Ha)].
    by destruct (written_state_view wrap Ha Es) as (Hr & _).
Qed.
End write.

(** C26: Writing is all or nothing, for a queue without driver signals, which is the only kind
    that can be created. Whatever the arguments, a write that fails leaves the queue, its
    memory, the counters and the signals as they were. When no two buffers of the packet have
    the same descriptor and no count of references is at its maximum, the references follow: a
    packet is appended, whole, with the references of its buffers, exactly when the call
    returns 0, and then every buffer reference lies inside its map; on every other path the
    state is the one before the call, the references taken on the way included. (With two
    references of one descriptor that is not so: [undo_order_leaks].) The call answers
    [AEE_EWOULDBLOCK] exactly for an acceptable packet that there is no room for. *)
Theorem write_all_or_nothing flags bl msg s R W l :
  have_driver_signaling q = false ->
  queue_view (req_queue q) (ring (sh s)) (req_read (sh s)) (req_write (sh s)) R W l ->
  exists e s', write_call flags bl msg s = (Go e, s') /\ (e <> 0 -> but_maps s s') /\
  (distinct bl -> Forall (below_max (maps s)) bl ->
    (e = 0 -> acceptable flags bl msg s /\ room flags bl msg s R W /\ Forall (can_undo (maps s)) bl /\ Forall (fun b => in_range (maps s) b = true) bl /\ maps s' = add_refs bl (maps s) /\
    queue_view (req_queue q) (ring (sh s')) (req_read (sh s')) (req_write (sh s')) R (next (queue_length (req_queue q)) W (written flags bl msg s)) (l ++ [written flags bl msg s]) /\
    write_packet_count (ctr s') = u32 (write_packet_count (ctr s) + 1) /\ packet_count (req_write (sh s')) = write_packet_count (ctr s') /\
    seq_no (ctr s') = (seq_no (ctr s) + 1) mod 65536 /\
    send_signal_mask (sh s') = (if have_wait_counts q && (wait_count (req_read (sh s)) =? 0) then send_signal_mask (sh s)
                                else Z.lor (send_signal_mask (sh s)) SIGNAL_BIT_SIGNAL)) /\
  (e <> 0 -> s' = s) /\
  (e = AEE_EWOULDBLOCK <-> acceptable flags bl msg s /\ ~ room flags bl msg s R W)).
Proof.
  intros Hdrv Hview. destruct (failed_write_keeps_queue flags (Z.of_nat (length bl)) (Some bl) (Z.of_nat (length msg)) (Some msg) s Hdrv) as (e & s' & E & Hk).
  exists e, s'. split; [exact E|]. split; [exact Hk|]. intros Hdist Hmax.
  destruct (write_distinct flags bl msg s R W l Hdrv Hview Hdist Hmax) as (e1 & s1 & E1 & H). unfold write_call in E1. rewrite E in E1. by injection E1 as <- <-.
Qed.

(** ** Reading *)
Section read_spec.
Context (mb mm : option Z) (s : qstate) (R W : Z) (l : list packet).
Context (Hdrv : have_driver_signaling q = false).
Context (Hview : queue_view (resp_queue q) (ring (sh s)) (resp_read (sh s)) (resp_write (sh s)) R W l).
Context (Hcount : header_count (sh s) = queue_count q).

(** The packet at the front is taken out. *)
Lemma view_take pk rest c : l = pk :: rest ->
  let n := queue_length (resp_queue q) in
  resp_state (sh s) = (W - R, R mod n, W mod n) /\ 8 <= W - R /\
  peek_locked (ring (sh s)) (queue_base (resp_queue q)) (R mod n) = Some (hdr_flags (p_hdr pk), nbufs pk, mlen pk) /\
  (forall wb wm, get_packet (ring (sh s)) (queue_base (resp_queue q)) n (R mod n) (nbufs pk) (mlen pk) wb wm =
     ((if wb then p_bufs pk else [], if wm then p_msg pk else []), next n R pk mod n)) /\
  queue_view (resp_queue q) (ring (sh s)) (set_position (next n R pk mod n) c (resp_read (sh s))) (resp_write (sh s)) (next n R pk) W rest.
Proof.
  intros El n. destruct Hview as [[H8 Hlen] HR HW Hle Er Ew Hh]. fold n in H8, Hlen, Hle, Er, Ew, Hh. rewrite El in Hh.
  cbn [holds] in Hh. destruct Hh as (Hp & Hfit & He & Hh). destruct (next_spec n H8 Hlen R pk HR Hp Hfit) as [Hge Hn8].
  destruct (holds_le _ n H8 Hlen _ _ _ _ Hn8 Hh) as [Hle' _].
  split; [by apply queue_state_read|]. split; [lia|]. split; [by apply peek_spec|]. split; [intros; by apply get_packet_spec|].
  split; fold n; try done. lia.
Qed.

Lemma view_empty : l = [] -> (resp_state (sh s)).1.1 = 0.
Proof.
  intros ->. destruct Hview as [[H8 Hlen] HR HW Hle Er Ew Hh]. cbn in Hh. subst W. unfold resp_state.
  rewrite (queue_state_read _ Hlen R R) by done. cbn. lia.
Qed.

Definition fits_caller (pk : packet) : bool :=
  (negb (has_bit (hdr_flags (p_hdr pk)) DSPQUEUE_PACKET_FLAG_BUFFERS) || fits mb (nbufs pk)) &&
  (negb (has_bit (hdr_flags (p_hdr pk)) DSPQUEUE_PACKET_FLAG_MESSAGE) || fits mm (mlen pk)).
Definition packet_buffers (pk : packet) : list dspqueue_buffer :=
  if is_found mb then of_buffers (Z.to_nat (nbufs pk)) (p_bufs pk) else [].
Definition plain (pk : packet) : Prop :=
  has_bit (hdr_flags (p_hdr pk)) DSPQUEUE_PACKET_FLAG_WAKEUP = false /\ has_bit (hdr_flags (p_hdr pk)) DSPQUEUE_PACKET_FLAG_USER_READY = true.

Lemma read_body_plain pk rest : l = pk :: rest -> plain pk ->
  read_body mb mm (s, (0, rout0)) =
  if negb (fits_caller pk) then (Bail AEE_EBADPARM, (s, (0, rout0)))
  else
    let s1 := consume_packet (next (queue_length (resp_queue q)) R pk mod queue_length (resp_queue q)) s in
    let o := ROut (Some (hdr_flags (p_hdr pk))) None (packet_buffers pk) (Some (mlen pk)) (if is_found mm then p_msg pk else []) in
    match take_buffers (packet_buffers pk) (set_sh (after_signal (wait_count (resp_write (sh s1))) (sh s1)) s1, (0, o)) with
    | (Bail e, x) => (Bail e, x)
    | (Go _, (s2, (n, o))) => (Go tt, (s2, (n, ROut (o_flags o) (Some (nbufs pk)) (o_buffers o) (o_message_length o) (o_message o))))
    end.
Proof.
  intros El [Hw Hready]. destruct (view_take pk rest 0 El) as (Est & H8 & Hpk & Hg & _).
  assert (Hp : packet_ok pk) by (destruct Hview as [_ _ _ _ _ _ Hh]; rewrite El in Hh; apply Hh).
  unfold read_body. munfold. cbn [fst snd]. rewrite (proj2 (Z.eqb_eq _ _) Hcount). cbn [fst snd]. rewrite Est.
  rewrite (proj2 (Z.ltb_ge _ _) H8). unfold peek_at. munfold. cbn [fst snd]. rewrite Hpk. cbn [fst snd]. rewrite Hw.
  pose proof (ok_nbufs _ Hp) as Hn. unfold fits_caller. rewrite (proj2 (Z.leb_le _ _) Hn), Hready.
  destruct (_ || fits mb _); cbn [andb negb]; [|done]. cbn [fst snd]. destruct (_ || fits mm _); cbn [andb negb]; [|done].
  cbn [fst snd]. rewrite Hg. unfold signal_space. rewrite signal_other_end_spec by done. cbn [fst snd].
  replace (if is_found mb then of_buffers (Z.to_nat (nbufs pk)) (if is_found mb then p_bufs pk else []) else []) with (packet_buffers pk)
    by (unfold packet_buffers; by destruct (is_found mb)).
  destruct (take_buffers _ _) as [[[]|e] [s2 [n o]]]; done.
Qed.

(** What the caller is given of the packet itself. *)
Definition delivered (pk : packet) (o : rout) : Prop :=
  o_flags o = Some (hdr_flags (p_hdr pk)) /\ o_message_length o = Some (mlen pk) /\ o_message o = (if is_found mm then p_msg pk else []).

(** C27: Reading takes the first packet of the queue, for a queue without driver signals. An
    empty queue answers [AEE_EWOULDBLOCK]. For a first packet that is ready and not an early
    wakeup ([plain]; for early wakeups see [wakeup_at_end]): one that the caller has no place
    for stays where it is; otherwise the packet is consumed, and the caller is given its
    flags, message and length. When moreover no two of its buffers have the same descriptor
    and no count of references is at its maximum: with 0 and a number of buffers, each buffer
    reference comes with the address and size of its part of a map on the domain, and its
    reference is taken; when a reference fails, for instance because its buffer is not mapped,
    the ones taken are given back, but the packet is lost without its buffers being delivered,
    and if there was one to give back the result is 0 nevertheless. *)
Theorem read_takes_first :
  (l = [] -> dspqueue_read_noblock mb mm s = (Go (AEE_EWOULDBLOCK, rout0), s)) /\
  (forall pk rest, l = pk :: rest -> plain pk -> fits_caller pk = false -> dspqueue_read_noblock mb mm s = (Go (AEE_EBADPARM, rout0), s)) /\
  (forall pk rest, l = pk :: rest -> plain pk -> fits_caller pk = true ->
    distinct (packet_buffers pk) -> Forall (below_max (maps s)) (packet_buffers pk) ->
    exists e o s', dspqueue_read_noblock mb mm s = (Go (e, o), s') /\ delivered pk o /\
      queue_view (resp_queue q) (ring (sh s')) (resp_read (sh s')) (resp_write (sh s')) (next (queue_length (resp_queue q)) R pk) W rest /\
      read_packet_count (ctr s') = u32 (read_packet_count (ctr s) + 1) /\ packet_count (resp_read (sh s')) = read_packet_count (ctr s') /\
      match o_num_buffers o with
      | Some n => e = 0 /\ n = nbufs pk /\ o_buffers o = filled (maps s) <$> packet_buffers pk /\ maps s' = add_refs (packet_buffers pk) (maps s) /\
          Forall (can_undo (maps s)) (packet_buffers pk) /\ Forall (fun b => in_range (maps s) b = true) (packet_buffers pk)
      | None => maps s' = maps s /\ exists j e', e = (if existsb touches (take j (packet_buffers pk)) then 0 else e') /\ ref_failed e'
      end).
Proof.
  unfold dspqueue_read_noblock. split; [|split].
  - intros El. pose proof (view_empty El) as E0. unfold read_body. munfold. cbn [fst snd]. rewrite (proj2 (Z.eqb_eq _ _) Hcount). cbn [fst snd].
    destruct (resp_state (sh s)) as [[qleft r] w]. cbn in E0. by subst qleft.
  - intros pk rest El Hpl Hf. munfold. by rewrite (read_body_plain pk rest El Hpl), Hf.
  - intros pk rest El Hpl Hf Hd Hm. munfold. rewrite (read_body_plain pk rest El Hpl), Hf. cbn [negb].
    set (c := u32 (read_packet_count (ctr s) + 1)). destruct (view_take pk rest c El) as (_ & _ & _ & _ & Hv).
    set (r := next (queue_length (resp_queue q)) R pk mod queue_length (resp_queue q)) in *. cbv zeta.
    set (s1 := set_sh (after_signal _ (sh (consume_packet r s))) (consume_packet r s)).
    set (o := ROut (Some _) None _ _ _).
    assert (Hs1 : forall m, delivered pk o /\ queue_view (resp_queue q) (ring (sh (set_maps m s1))) (resp_read (sh (set_maps m s1))) (resp_write (sh (set_maps m s1)))
        (next (queue_length (resp_queue q)) R pk) W rest /\ read_packet_count (ctr (set_maps m s1)) = c /\
        packet_count (resp_read (sh (set_maps m s1))) = read_packet_count (ctr (set_maps m s1))).
    { intros m. split; [by split|]. unfold s1, after_signal. cbn [sh set_maps set_sh]. by destruct (_ && _). }
    destruct (take_buffers_spec (packet_buffers pk) s1 o) as (j & Hj & Hu & Hr); [done..|].
    destruct (take_buffers _ _) as [[[]|e] [s2 [n o2]]].
    + destruct Hr as (-> & -> & -> & Hin). cbn [AEE_SUCCESS Z.eqb]. destruct (Hs1 (add_refs (packet_buffers pk) (maps s1))) as (Hdel & Hv' & Hc & Hc').
      eexists 0, _, _. split; [done|]. split; [done|]. split; [done|]. split; [done|]. split; [done|]. rewrite take_ge in Hu by done. by split_and!.
    + destruct Hr as (He & -> & -> & Hsame & Ho). rewrite Nat2Z.id.
      assert (e <> 0) as He1 by (by destruct He as [->|[->|[->| ->]]]). rewrite (proj2 (Z.eqb_neq e 0) He1).
      rewrite (undo_same e _ (take j (packet_buffers pk))) by (by apply Forall2_take).
      rewrite (undo_spec (take j (packet_buffers pk)) e (maps s1) s1); [|rewrite fmap_take; eapply sublist_NoDup; [exact Hd|apply sublist_take]|done].
      destruct (Hs1 (maps s1)) as (Hdel & Hv' & Hc & Hc'). eexists _, o2, _. split; [done|]. rewrite Ho. split; [done|]. split; [done|]. split; [done|]. split; [done|].
      cbn. split; [done|]. by exists j, e.
Qed.
End read_spec.

(** ** Blocking *)
Section blocking_spec.
Context {A : Type} (op : M qstate (Z * A)) (d : side) (signal_no : Z) (a0 : A).
Context (Hdrv : have_driver_signaling q = false) (Hside : side_of signal_no = Some d).
(** [P k]: what holds while the call waits, with [k] the announced waits of the side. *)
Context (P : Z -> qstate -> Prop).
Context (Hop : forall k s, P k s -> exists e a s', op s = (Go (e, a), s') /\ (e = AEE_EWOULDBLOCK -> P k s')).
Context (Hadd : forall k j s, P k s -> P (u32 (k + j)) (set_sh (add_wait d j (sh s)) s)).
Definition kept (f : shared -> shared) : Prop := forall k s, P k s -> P k (set_sh (f (sh s)) s).
Context (Hclock : forall k s, P k s -> exists t s', clock_gettime s = (Go t, s') /\ P k s').

Definition wait_failed (timed : bool) (e : Z) : Prop := e = AEE_EINTERRUPTED \/ timed = true /\ (e = AEE_EEXPIRED \/ e = -1).
Definition wait_loop (timed : bool) := if timed then wait_timed else wait_untimed.

Lemma wait_loop_spec timed c evs : forall k s, Forall (fun ev : wakeup => kept ev.2) evs -> P k s ->
  match wait_loop timed d c evs s with
  | None => True
  | Some (e, s', rest) => P k s' /\ Forall (fun ev : wakeup => kept ev.2) rest /\ (length rest <= length evs)%nat /\
      (e = 0 /\ (c = side_count d (sh s) -> (length rest < length evs)%nat) \/ wait_failed timed e)
  end.
Proof.
  induction evs as [|[rc f] evs IH]; intros k s Hk HP.
  - destruct timed; cbn; destruct (Z.eqb_spec c (side_count d (sh s))); cbn [negb]; try destruct (negb _);
      try done; split_and!; try done; first [by left; split; [done|lia] | right; by left].
  - rewrite Forall_cons in Hk. destruct Hk as [Hf Hk]. cbn [snd] in Hf. pose proof (Hf _ _ HP) as HP'. specialize (IH k _ Hk HP').
    assert (Hfin : forall e, wait_failed timed e -> P k (set_sh (f (sh s)) s) /\ Forall (fun ev : wakeup => kept ev.2) evs /\ (length evs <= length ((rc, f) :: evs))%nat /\
      (e = 0 /\ (c = side_count d (sh s) -> (length evs < length ((rc, f) :: evs))%nat) \/ wait_failed timed e)).
    { intros e He. split_and!; [done..|cbn; lia|by right]. }
    assert (Hrec : match wait_loop timed d c evs (set_sh (f (sh s)) s) with
      | None => True
      | Some (e, s', rest) => P k s' /\ Forall (fun ev : wakeup => kept ev.2) rest /\ (length rest <= length ((rc, f) :: evs))%nat /\
          (e = 0 /\ (c = side_count d (sh s) -> (length rest < length ((rc, f) :: evs))%nat) \/ wait_failed timed e) end).
    { destruct (wait_loop _ _ _ _ _) as [[[e s'] rest]|]; [|done]. destruct IH as (? & ? & ? & Hr). split_and!; [done..|cbn; lia|].
      destruct Hr as [[? _]|?]; [left; split; [done|cbn; lia]|by right]. }
    destruct timed; cbn [wait_loop wait_timed wait_untimed] in *.
    + destruct (Z.eqb_spec c (side_count d (sh s))); cbn [negb]; [|by split_and!; [done|by constructor|done|left; split]].
      destruct (negb _); [split_and!; [done|by constructor|done|right; by left]|].
      destruct (rc =? ETIMEDOUT); [apply Hfin; right; split; [done|by left]|].
      destruct (negb (rc =? 0)); [apply Hfin; right; split; [done|by right]|exact Hrec].
    + destruct (Z.eqb_spec c (side_count d (sh s))); cbn [negb]; [|by split_and!; [done|by constructor|done|left; split]].
      destruct (negb _); [apply Hfin; by left|exact Hrec].
Qed.

Definition is_timed (t : option timespec) : bool := is_found t.

Lemma wait_signal_eq t evs s :
  wait_signal_locked signal_no t evs s = wait_loop (is_timed t) d (side_count d (sh s)) evs s.
Proof. unfold wait_signal_locked. rewrite Hdrv, Hside. by destruct t. Qed.



(** The fuel of the loop is enough. *)
Lemma block_loop_fuel t fuel : forall evs a k s, Forall (fun ev : wakeup => kept ev.2) evs -> P k s -> (length evs < fuel)%nat ->
  block_loop op signal_no a0 fuel t evs a s = block_loop op signal_no a0 (S (length evs)) t evs a s.
Proof.
  induction fuel as [fuel IH] using lt_wf_ind. intros evs a k s Hk HP Hf. destruct fuel as [|fuel]; [lia|].
  cbn [block_loop]. rewrite wait_signal_eq.
  pose proof (wait_loop_spec (is_timed t) (side_count d (sh s)) evs k s Hk HP) as Hw.
  destruct (wait_loop _ _ _ _ _) as [[[e s1] rest]|]; [|done]. destruct Hw as (HP1 & Hr & Hl & He).
  destruct (Z.eqb_spec e 0) as [->|Hne]; cbn [negb]; [|done].
  destruct He as [[_ He]|[?|[_ [?|?]]]]; [|done..]. specialize (He eq_refl).
  destruct (Hop k s1 HP1) as (e & a' & s2 & E & HP2). unfold run. rewrite E.
  destruct (Z.eqb_spec e AEE_EWOULDBLOCK) as [->|Hne]; [|done].
  specialize (HP2 eq_refl). rewrite (IH fuel ltac:(lia) rest a' k s2 Hr HP2) by lia.
  destruct (length evs) as [|n] eqn:En; [lia|]. symmetry. apply (IH (S n) ltac:(lia) rest a' k s2 Hr HP2). lia.
Qed.


End blocking_spec.

(** *** The blocking write *)
Section blocking_write.
Context (flags : Z) (bl : list dspqueue_buffer) (msg : list Z) (s : qstate) (W : Z).
Context (Hdrv : have_driver_signaling q = false) (Hdist : distinct bl) (Hmax : Forall (below_max (maps s)) bl).







(** A wake-up that changes nothing for the writer. *)
Definition spurious (ev : wakeup) : Prop :=
  ev.1 = 0 /\ forall x, side_count Space (ev.2 x) = side_count Space x /\ (Z.land (side_mask Space x) 2 = 0 -> Z.land (side_mask Space (ev.2 x)) 2 = 0).
Definition after_wakeups (evs : list wakeup) (x : shared) : shared := foldl (fun x (ev : wakeup) => ev.2 x) x evs.

Lemma set_sh_sh x y (s' : qstate) : set_sh x (set_sh y s') = set_sh x s'.
Proof. done. Qed.

Lemma wait_spurious evs rest : forall s', Forall spurious evs -> Z.land (side_mask Space (sh s')) 2 = 0 ->
  wait_untimed Space (side_count Space (sh s')) (evs ++ rest) s' =
  wait_untimed Space (side_count Space (sh s')) rest (set_sh (after_wakeups evs (sh s')) s') /\
  side_count Space (after_wakeups evs (sh s')) = side_count Space (sh s') /\ Z.land (side_mask Space (after_wakeups evs (sh s'))) 2 = 0.
Proof.
  induction evs as [|[rc g] evs IH]; intros s' Hs Hm; [by destruct s'|]. rewrite Forall_cons in Hs. destruct Hs as [[_ Hg] Hs].
  destruct (Hg (sh s')) as [Hc Hm']. specialize (Hm' Hm). cbn [snd] in Hc, Hm'. destruct (IH (set_sh (g (sh s')) s') Hs Hm') as (E & Ec & Em).
  cbn [sh set_sh] in E, Ec, Em. rewrite Hc in E, Ec. split; [|split; [exact Ec|exact Em]].
  rewrite <- app_comm_cons. cbn [wait_untimed]. rewrite Z.eqb_refl. cbn [negb sh set_sh]. rewrite Hm'. cbn [Z.eqb negb]. exact E.
Qed.

(** C29: A writer that waits for space sleeps through wake-ups that bring nothing, and when
    the count of the space that was freed changes it tries again: if there is room by then
    the write succeeds, whatever else is in store. Without such a wake-up it waits on. *)
Theorem blocked_write_wakes R l evs f rest s3 :
  queue_view (req_queue q) (ring (sh s)) (req_read (sh s)) (req_write (sh s)) R W l ->
  write_call flags bl msg s = (Go AEE_EWOULDBLOCK, s) -> Z.land (space_mask (sh s)) 2 = 0 -> Forall spurious evs ->
  let s1 := if have_wait_counts q then set_sh (add_wait Space 1 (sh s)) s else s in
  let s2 := set_sh (f (after_wakeups evs (sh s1))) s1 in
  (forall x, side_count Space (f x) <> side_count Space x) -> Z.land (space_mask (sh s2)) 2 = 0 ->
  write_call flags bl msg s2 = (Go 0, s3) ->
  let call := dspqueue_write flags (Z.of_nat (length bl)) (Some bl) (Z.of_nat (length msg)) (Some msg) DSPQUEUE_TIMEOUT_NONE in
  call (evs ++ (0, f) :: rest) s = Some (0, tt, if have_wait_counts q then set_sh (add_wait Space (-1) (sh s3)) s3 else s3) /\
  call evs s = None.
Proof.
  intros Hv Hfull Hm Hsp s1 s2 Hf Hm2 Hok call.
  assert (Hs1 : write_call flags bl msg s1 = (Go AEE_EWOULDBLOCK, s1)).
  { unfold s1. destruct (have_wait_counts q); [|done]. destruct (write_call_end flags bl msg s R W l Hdrv Hv Hdist Hmax) as (e & s' & E & He).
    rewrite Hfull in E. injection E as <- <-. set (s1' := set_sh _ s).
    assert (Hv1 : queue_view (req_queue q) (ring (sh s1')) (req_read (sh s1')) (req_write (sh s1')) R W l) by by destruct Hv.
    destruct (write_call_end flags bl msg s1' R W l Hdrv Hv1 Hdist Hmax) as (e & s' & E & He'). rewrite E.
    inversion He as [|Ha Es|? Hr _]; [|by destruct (ref_failed_other _ Hr) as (_ & Hne & _)].
    change (space flags bl msg s R W) with (space flags bl msg s1' R W) in Es. change (acceptable flags bl msg s) with (acceptable flags bl msg s1') in Ha.
    inversion He' as [w Ha' Es'|Ha' Es'|? Hr Hne]; subst; [congruence|done|by destruct (Hne Ha)]. }
  assert (Hm1 : Z.land (side_mask Space (sh s1)) 2 = 0) by (unfold s1; by destruct (have_wait_counts q)).
  destruct (wait_spurious evs ((0, f) :: rest) s1 Hsp Hm1) as (E1 & Ec & _).
  assert (Hl1 : block_loop (e ← write_call flags bl msg; mret (e, tt)) DSPQUEUE_SIGNAL_REQ_SPACE tt (S (length (evs ++ (0, f) :: rest))) None
    (evs ++ (0, f) :: rest) tt s1 = Some (0, tt, s3)).
  { cbn [block_loop]. unfold wait_signal_locked. rewrite Hdrv. change (side_of DSPQUEUE_SIGNAL_REQ_SPACE) with (Some Space). cbn beta iota zeta.
    rewrite E1. cbn [wait_untimed sh set_sh]. rewrite Ec, Z.eqb_refl. cbn [negb]. change (space_mask (sh s2)) with (side_mask Space (f (after_wakeups evs (sh s1)))) in Hm2.
    rewrite Hm2. cbn [Z.eqb negb]. assert (Hne : side_count Space (sh s1) <> side_count Space (f (after_wakeups evs (sh s1)))) by (rewrite <- Ec; intros E; by destruct (Hf (after_wakeups evs (sh s1)))).
    destruct rest as [|ev rest]; cbn [wait_untimed sh set_sh]; rewrite (proj2 (Z.eqb_neq _ _) Hne); cbn [negb Z.eqb];
      rewrite set_sh_sh; fold s2; unfold run; munfold; by rewrite Hok. }
  destruct (wait_spurious evs [] s1 Hsp Hm1) as (E2 & Ec2 & _). rewrite app_nil_r in E2.
  assert (Hl2 : block_loop (e ← write_call flags bl msg; mret (e, tt)) DSPQUEUE_SIGNAL_REQ_SPACE tt (S (length evs)) None evs tt s1 = None).
  { cbn [block_loop]. unfold wait_signal_locked. rewrite Hdrv. change (side_of DSPQUEUE_SIGNAL_REQ_SPACE) with (Some Space). cbn beta iota zeta.
    rewrite E2. cbn [wait_untimed sh set_sh]. by rewrite Ec2, Z.eqb_refl. }
  unfold call, dspqueue_write. fold (write_call flags bl msg). unfold blocking_call, finish_wait, start_wait.
  assert (Hrun : forall x, write_call flags bl msg x = (Go AEE_EWOULDBLOCK, x) -> run (0, tt) (e ← write_call flags bl msg; mret (e, tt)) x = ((AEE_EWOULDBLOCK, tt), x))
    by (intros x E; unfold run; munfold; by rewrite E).
  rewrite (Hrun s Hfull). cbn [Z.eqb AEE_EWOULDBLOCK negb]. unfold s1 in *. destruct (have_wait_counts q); [rewrite (Hrun _ Hs1)|]; cbn [Z.eqb negb]; by rewrite Hl1, Hl2.
Qed.
End blocking_write.

(** ** Statistics *)
Lemma stat_values s R W l R' W' l' :
  queue_view (resp_queue q) (ring (sh s)) (resp_read (sh s)) (resp_write (sh s)) R W l ->
  queue_view (req_queue q) (ring (sh s)) (req_read (sh s)) (req_write (sh s)) R' W' l' ->
  packet_count (resp_write (sh s)) = u32 (read_packet_count (ctr s) + Z.of_nat (length l)) ->
  write_packet_count (ctr s) = u32 (packet_count (req_read (sh s)) + Z.of_nat (length l')) ->
  let stat n := (dspqueue_get_stat n s).1 in
  stat DSPQUEUE_STAT_READ_QUEUE_PACKETS = Go (0, Some (u32 (Z.of_nat (length l)))) /\
  stat DSPQUEUE_STAT_READ_QUEUE_BYTES = Go (0, Some (W - R)) /\
  stat DSPQUEUE_STAT_WRITE_QUEUE_PACKETS = Go (0, Some (u32 (Z.of_nat (length l')))) /\
  stat DSPQUEUE_STAT_WRITE_QUEUE_BYTES = Go (0, Some (W' - R')).
Proof.
  intros [[_ Hl] _ _ Hle Hr Hw _] [[_ Hl'] _ _ Hle' Hr' Hw' _] Hc Hc' stat. unfold stat, dspqueue_get_stat. munfold. cbn [Z.eqb Pos.eqb].
  rewrite Hc, Hc'. unfold resp_state. rewrite (queue_state_read _ Hl R W), (queue_state_write _ Hl' R' W') by done.
  assert (Hs : forall a n, u32 (u32 (a + n) - a) = u32 n) by (intros; unfold u32; rewrite Zminus_mod_idemp_l; f_equal; lia).
  unfold DSPQUEUE_MAX_QUEUE_SIZE in *. split_and!; rewrite ?Hs; try done.
  change (DSPQUEUE_STAT_WRITE_QUEUE_BYTES =? _) with false at 1 2 3 4 5. cbn [fst snd]. rewrite u32_small by lia. cbn. do 3 f_equal. lia.
Qed.

(** ** Times *)

(** The time left of a limit that was just computed is the limit; seconds and nanoseconds
    stay normalised, but that the nanoseconds can reach a whole second. *)
Lemma timeout_roundtrip ts us : 0 <= ts.2 < 1000000000 -> 0 <= us < 4294967296 ->
  timespec_diff_us (timespec_add_us ts us) ts = us /\
  (timespec_add_us ts us).1 * 1000000000 + (timespec_add_us ts us).2 = ts.1 * 1000000000 + ts.2 + us * 1000 /\
  0 <= (timespec_add_us ts us).2 <= 1000000000.
Proof.
  destruct ts as [sec ns]. cbn [fst snd]. intros Hn Hu. pose proof (Z.div_mod us 1000000 ltac:(lia)). pose proof (Z.mod_pos_bound us 1000000 ltac:(lia)).
  set (a := us / 1000000) in *. set (b := us mod 1000000) in *.
  assert (Hd : forall x, 0 <= x <= 5000 -> timespec_diff_us (sec + x, ns + (us - x * 1000000) * 1000) (sec, ns) = us).
  { intros x Hx. unfold timespec_diff_us. cbn [fst snd]. replace (sec + x - sec) with x by lia.
    replace (ns + (us - x * 1000000) * 1000 - ns) with ((us - x * 1000000) * 1000) by lia. rewrite Z.quot_mul by lia.
    replace (x * 1000000 + (us - x * 1000000)) with us by lia. destruct (decide (us = 0)) as [->|].
    - destruct (decide (x = 0)) as [->|]; [done|]. repeat case_ltb; cbn [orb andb]; try lia; try done.
    - repeat case_ltb; cbn [orb andb]; try lia; by apply u32_small. }
  unfold timespec_add_us. cbn [fst snd]. fold a b. case_ltb; cbn [fst snd].
  - split; [|lia]. etransitivity; [|apply (Hd (a + 1)); unfold a; lia]. do 2 f_equal; lia.
  - split; [|lia]. etransitivity; [|apply (Hd a); unfold a; lia]. do 2 f_equal; lia.
Qed.

(** A cancellation announced before an untimed wait is not seen by it; a timed wait sees it. *)
Lemma cancel_lost no d t s : have_driver_signaling q = false -> side_of no = Some d -> Z.land (side_mask d (sh s)) 2 <> 0 ->
  wait_signal_locked no None [] s = None /\ wait_signal_locked no (Some t) [] s = Some (AEE_EINTERRUPTED, s, []).
Proof.
  intros Hd Hs Hm. unfold wait_signal_locked. rewrite Hd, Hs. cbn [wait_timed wait_untimed]. rewrite Z.eqb_refl. cbn [negb].
  by rewrite (proj2 (Z.eqb_neq _ _) Hm).
Qed.
End queue.

Module DspQueueEx.
(** A queue of domain 3 with two rings of 64 bytes; descriptor 9 is mapped there. *)
Definition q0 : dspqueue := Queue 0 3 (PQ 4096 64) (PQ 8192 64) 1 true false.
Definition st (x : Z) : packet_queue_state := PState x 0 0.
Definition proc0 : proc := Proc None false None [].
Definition maps0 : Mem.mem unit := set_smaps 3 [StaticMap (MemMap 9 0 0 0 65536 64 0) 1] (Mem [] ∅ ∅ 0 [] false tt).
Definition shared0 (m : memory) (w : Z) : shared := Shared m (st 0) (st w) (st 0) (st w) 1 0 0 0 0 0 0 0.
Definition state0 (m : memory) (w : Z) : dq unit := DQ (shared0 m w) (Counters 0 0 0 0 0 0 0) [] signals0 maps0.

(** A packet with one buffer reference and a message. *)
Definition buf : dspqueue_buffer := Buffer 9 16 8 DSPQUEUE_BUFFER_FLAG_REF 0.
Definition pk : packet := make_packet 0 0 (buffers_bytes [buf]) [1; 2; 3; 4].
Definition full_ring (base : Z) : memory := (put_packet ∅ base 64 0 false (p_hdr pk) (p_bufs pk) (p_msg pk)).1.

Lemma view_start : queue_view (PQ 4096 64) ∅ (st 0) (st 0) 0 0 [].
Proof. split; try done; by vm_compute. Qed.
Lemma pk_ok : packet_ok pk.
Proof. by apply (make_packet_ok 0 0 _ _ 1). Qed.
Lemma view_full base : base = 4096 \/ base = 8192 -> queue_view (PQ base 64) (full_ring base) (st 0) (st 40) 0 40 [pk].
Proof.
  intros Hb. split; try done; [by vm_compute..|]. split; [exact pk_ok|]. split; [by vm_compute|]. split; [|by vm_compute].
  destruct Hb as [->| ->]; by split_and!; vm_compute.
Qed.
Lemma one_ref : NoDup (ref_fd <$> [buf]).
Proof. apply NoDup_singleton. Qed.
Lemma refs_low : Forall (below_max q0 maps0) [buf].
Proof. constructor; [|constructor]. intros r Hr. vm_compute in Hr. injection Hr as <-. done. Qed.

Lemma write_all_or_nothing_witness : exists s', write_call proc0 q0 0 [buf] [1; 2; 3; 4] (state0 ∅ 0) = (Go 0, s') /\
  queue_view (PQ 4096 64) (ring (sh s')) (req_read (sh s')) (req_write (sh s')) 0 40 [pk] /\ ref_at 3 (maps s') 9 = Some 2.
Proof.
  destruct (write_all_or_nothing proc0 q0 0 [buf] [1; 2; 3; 4] (state0 ∅ 0) 0 0 [] eq_refl view_start) as (e & s' & E & _ & H).
  destruct (H one_ref refs_low) as (H0 & _).
  assert (e = 0) as -> by (apply (f_equal fst) in E; by vm_compute in E; congruence).
  destruct (H0 eq_refl) as (_ & _ & _ & _ & Hm & Hv & _). exists s'. split; [exact E|]. split; [exact Hv|]. rewrite Hm. by vm_compute.
Defined.

Lemma read_takes_first_witness : exists o s', dspqueue_read_noblock proc0 q0 (Some 8) (Some 16) (state0 (full_ring 8192) 40) = (Go (0, o), s') /\
  o_message o = [1; 2; 3; 4] /\ o_buffers o = [Buffer 9 16 8 DSPQUEUE_BUFFER_FLAG_REF 65544].
Proof.
  destruct (read_takes_first proc0 q0 (Some 8) (Some 16) (state0 (full_ring 8192) 40) 0 40 [pk] eq_refl (view_full 8192 (or_intror eq_refl)) eq_refl)
    as (_ & _ & H).
  destruct (H pk [] eq_refl) as (e & o & s' & E & (_ & _ & Hm) & _); [by split; vm_compute|by vm_compute|apply one_ref|apply refs_low|].
  exists o, s'. assert (e = 0 /\ o_buffers o = [Buffer 9 16 8 DSPQUEUE_BUFFER_FLAG_REF 65544]) as [-> Hb]
    by (apply (f_equal fst) in E; vm_compute in E; injection E as <- <-; done).
  split; [exact E|]. split; [exact Hm|exact Hb].
Defined.


(** The DSP reads everything and counts it. *)
Definition read_all (x : shared) : shared :=
  Shared (ring x) (set_position (position (req_write x)) (packet_count (req_write x)) (req_read x)) (req_write x) (resp_read x) (resp_write x) (header_count x)
    (state_req_packet x) (state_resp_space x) (send_signal_mask x) (req_space_count x + 1) (space_mask x) (resp_packet_count x) (packet_mask x).
Definition msg16 : list Z := replicate 16 7.
Lemma blocked_write_wakes_witness : exists s',
  dspqueue_write proc0 q0 0 0 (Some []) 16 (Some msg16) DSPQUEUE_TIMEOUT_NONE [(0, id); (0, read_all)] (state0 (full_ring 4096) 40) = Some (0, tt, s').
Proof.
  eexists. change 0 with (Z.of_nat (@length dspqueue_buffer [])) at 2. change 16 with (Z.of_nat (length msg16)).
  apply (blocked_write_wakes proc0 q0 0 [] msg16 (state0 (full_ring 4096) 40) 40 eq_refl (NoDup_nil_2) (Forall_nil_2 _) 0 [pk] [(0, id)] read_all []
    (write_call proc0 q0 0 [] msg16 (set_sh (read_all (add_wait Space 1 (sh (state0 (full_ring 4096) 40)))) (state0 (full_ring 4096) 40))).2
    (view_full 4096 (or_introl eq_refl))).
  - by vm_compute.
  - done.
  - constructor; [|constructor]. split; [done|]. by intros x.
  - intros x. cbn. lia.
  - done.
  - by vm_compute.
Defined.

(** An early wakeup without delay in the last 8 bytes, and a packet after it. *)
Definition wake : packet := Packet (packet_header 8 (Z.lor DSPQUEUE_PACKET_FLAG_WAKEUP DSPQUEUE_PACKET_FLAG_USER_READY) 0 0) [] [].
Definition small : packet := make_packet 0 1 [] [1; 2; 3; 4].
Definition wake_ring : memory :=
  (put_packet (put_packet ∅ 8192 64 56 false (p_hdr wake) [] []).1 8192 64 0 false (p_hdr small) [] [1; 2; 3; 4]).1.
Definition wake_state : dq unit :=
  DQ (Shared wake_ring (st 0) (st 0) (st 56) (st 16) 1 0 0 0 0 0 0 0) (Counters 0 0 0 0 0 0 0) [] signals0 maps0.

(** The early wakeup does not wrap the read position: when its packet fills the last 8
    bytes of a queue that holds it and a next packet, the read consumes it, leaves the
    position at the end of the queue, looks for the next packet past the end, and fails
    with [AEE_EBADITEM], as does every later read. *)
Theorem wakeup_at_end :
  queue_view (PQ 8192 64) wake_ring (st 56) (st 16) 56 80 [wake; small] /\
  exists s, dspqueue_read_noblock proc0 q0 None (Some 16) wake_state = (Go (AEE_EBADITEM, rout0), s) /\
    position (resp_read (sh s)) = queue_length (resp_queue q0) /\ read_packet_count (ctr s) = 1 /\
    dspqueue_read_noblock proc0 q0 None (Some 16) s = (Go (AEE_EBADITEM, rout0), s).
Proof.
  split.
  - by split.
  - eexists. split; [by vm_compute|]. by vm_compute.
Qed.

(** The references of a failed packet are undone in the order they were taken: a reference
    that was taken and given back within the packet is kept. *)
Lemma undo_order_leaks :
  let b f fd := Buffer fd 0 0 f 0 in
  let q1 := Queue 0 3 (PQ 4096 128) (PQ 8192 64) 1 true false in
  exists s, dspqueue_write_noblock proc0 q1 0 3 (Some [b DSPQUEUE_BUFFER_FLAG_REF 9; b DSPQUEUE_BUFFER_FLAG_DEREF 9; b 0 7]) 0 None (state0 ∅ 0) = (Go AEE_ENOSUCHMAP, s) /\
    ref_at 3 (maps (state0 ∅ 0)) 9 = Some 1 /\ ref_at 3 (maps s) 9 = Some 2.
Proof. eexists. split; [by vm_compute|]. by vm_compute. Qed.
End DspQueueEx.
