(* ===== verification/DspQueueCtl.v ===== *)
(** Creating and closing DSP queues, [src/dspqueue/dspqueue_cpu.c]: the table of domains
    with their queue slots, the layout of a queue in shared memory, error callbacks, the
    threads that carry signals, and multi-domain queues.

    Calls to the DSP, to the kernel and to the C library go to an oracle [ans], which sees
    the calls made so far, and are recorded with their answers in a trace. What a call
    takes or gives back is a [resource], so that what the code holds can be read off the
    trace. Driver signals are those of [DspSignal]. *)
From S2P Require Import Prelude Errors Domain Session Ioctl DspSignal Ring DspQueue.

(** ** Constants *)
Definition AEE_EINVALIDITEM : Z := 42.
Definition AEE_EINVALIDDOMAIN : Z := 57.
Definition EDEADLK : Z := 35.
Definition EINVAL : Z := 22.
Definition ESRCH : Z := 3.
Definition DSPQUEUE_DEFAULT_REQ_SIZE : Z := 65536.
Definition DSPQUEUE_DEFAULT_RESP_SIZE : Z := 16384.
Definition DSPQUEUE_MAX_PROCESS_QUEUES : Z := 64.
Definition DSPQUEUE_HEADER_CURRENT_VERSION : Z := 2.
Definition DSPQUEUE_HEADER_FLAG_WAIT_COUNTS : Z := 1.
Definition DSPQUEUE_HEADER_FLAG_DRIVER_SIGNALING : Z := 2.
Definition QUEUE_CACHE_ALIGN : Z := 256.
Definition DSPSIGNAL_DSP_SUPPORT : Z := 130.
Definition DSPSIGNAL_DRIVER_SUPPORT : Z := 259.
Definition CACHE_ALIGN_SIZE (x : Z) : Z := align_mask x QUEUE_CACHE_ALIGN.
Definition sizeof_dspqueue_header : Z := 48.
Definition sizeof_dspqueue_packet_queue_state : Z := 12.

(** ** The layout of a queue *)
Record area := Area { a_queue : Z; a_length : Z; a_read : Z; a_write : Z }.
Record layout := Layout { req_area : area; resp_area : area; user_queue_size : Z }.

Definition queue_layout (req_queue_size resp_queue_size : Z) : layout :=
  let req := if req_queue_size =? 0 then DSPQUEUE_DEFAULT_REQ_SIZE else req_queue_size in
  let resp := if resp_queue_size =? 0 then DSPQUEUE_DEFAULT_RESP_SIZE else resp_queue_size in
  let st := CACHE_ALIGN_SIZE sizeof_dspqueue_packet_queue_state in
  let size := u32 (CACHE_ALIGN_SIZE sizeof_dspqueue_header + 4 * st + CACHE_ALIGN_SIZE req + CACHE_ALIGN_SIZE resp) in
  let o := CACHE_ALIGN_SIZE sizeof_dspqueue_header in
  let req_queue := o in
  let o := u32 (o + CACHE_ALIGN_SIZE req) in
  let req_read := o in
  let o := u32 (o + st) in
  let req_write := o in
  let o := u32 (o + st) in
  let resp_queue := o in
  let o := u32 (o + CACHE_ALIGN_SIZE resp) in
  let resp_read := o in
  let o := u32 (o + st) in
  let resp_write := o in
  Layout (Area req_queue req req_read req_write) (Area resp_queue resp resp_read resp_write) size.

(** ** Resources and calls *)
Inductive kind :=
  KDq | KUri | KHandle | KState | KStateMap | KSendMutex | KSendCond | KSendThread | KRecvThread
| KQueue | KMutex | KUserQueue | KUserMap | KDspQueue | KPacketMutex | KSpaceMutex | KPacketCond | KSpaceCond | KCallback | KErrorThread.
Record resource := Res { r_kind : kind; r_domain : Z; r_id : Z }.
#[export] Instance kind_eq : EqDecision kind.
Proof. solve_decision. Defined.
#[export] Instance resource_eq : EqDecision resource.
Proof. solve_decision. Defined.

(** Questions that take and give back nothing; the last two are a thread's exit value and
    the joining of a thread. *)
Inductive question := GetUri | RegisterNotifications | StateAligned | StateFd | InitProcessState | Capability (attribute : Z)
| CancelWaitSignal | UserQueueAligned | UserQueueFd | IsImported | Imported | HeaderCount | RpcSignal | ExitValue.
Inductive call := Open (r : resource) (arg : Z) | Close (r : resource) | Ask (w : question) (d id : Z).

(** ** State *)
Record queue_obj := QueueObj {
  o_wait_counts : bool; o_driver : bool; o_packet_callback : bool; o_error_callback : bool;
  o_error_thread : bool; o_count : Z; o_packet_mask : Z; o_space_mask : Z; o_resp_packet_count : Z; o_req_space_count : Z
}.
(** A slot that is not in the map is [UNUSED_QUEUE]. *)
Inductive slot := INVALID_QUEUE | InUse (q : queue_obj).
Record dspqueue_domain_queues := DomainQueues {
  num_queues : Z; max_queue : Z; slots : gmap Z slot; dsp_error : Z; have_dspsignal : bool; send_mask : Z
}.
Record process_queues := ProcessQueues {
  trace : list (call * Z); domain_queues : gmap Z dspqueue_domain_queues; q_count : Z; notif_registered : gset Z; signals : signal_table
}.
Definition domain_queues0 : dspqueue_domain_queues := DomainQueues 0 0 ∅ 0 false 0.

Definition set_trace (t : list (call * Z)) (s : process_queues) : process_queues := ProcessQueues t (domain_queues s) (q_count s) (notif_registered s) (signals s).
Definition set_domains (t : gmap Z dspqueue_domain_queues) (s : process_queues) : process_queues := ProcessQueues (trace s) t (q_count s) (notif_registered s) (signals s).
Definition set_count (c : Z) (s : process_queues) : process_queues := ProcessQueues (trace s) (domain_queues s) c (notif_registered s) (signals s).
Definition set_notif (n : gset Z) (s : process_queues) : process_queues := ProcessQueues (trace s) (domain_queues s) (q_count s) n (signals s).
Definition set_signals (t : signal_table) (s : process_queues) : process_queues := ProcessQueues (trace s) (domain_queues s) (q_count s) (notif_registered s) t.
Definition update_domain (d : Z) (f : dspqueue_domain_queues -> dspqueue_domain_queues) (s : process_queues) : process_queues :=
  set_domains (alter f d (domain_queues s)) s.
Definition set_num (n : Z) (dq : dspqueue_domain_queues) : dspqueue_domain_queues :=
  DomainQueues n (max_queue dq) (slots dq) (dsp_error dq) (have_dspsignal dq) (send_mask dq).
Definition set_slots (m : Z) (sl : gmap Z slot) (dq : dspqueue_domain_queues) : dspqueue_domain_queues :=
  DomainQueues (num_queues dq) m sl (dsp_error dq) (have_dspsignal dq) (send_mask dq).
Definition set_error (e : Z) (dq : dspqueue_domain_queues) : dspqueue_domain_queues :=
  DomainQueues (num_queues dq) (max_queue dq) (slots dq) e (have_dspsignal dq) (send_mask dq).

Section control.
(** [alloc] and [ds_alloc]: the allocations of [DspSignal] succeed. *)
Context (p : proc) (ans : list (call * Z) -> call -> Z) (alloc ds_alloc : bool).
Abbreviation CM := (M process_queues).

Definition ask (c : call) : CM Z := fun s => let z := ans (trace s) c in (Go z, set_trace (trace s ++ [(c, z)]) s).

(** The local is the list of the resources whose flag is set, which the clean-up looks at.
    A failure is the answer itself ([VERIFY]) or [err] ([VERIFYC]). *)
Abbreviation LM := (M (process_queues * list resource)).
Definition take_as (r flag : resource) : LM unit := z ← lift (ask (Open r 0)); _ ← VERIFY z (z =? 0); setl (cons flag).
Definition take (r : resource) : LM unit := take_as r r.
Definition take_or (err : Z) (r : resource) : LM unit := z ← lift (ask (Open r 0)); _ ← VERIFYC (z =? 0) err; setl (cons r).
Definition ask_or (err : Z) (w : question) (d id : Z) : LM unit := z ← lift (ask (Ask w d id)); VERIFYC (z =? 0) err.
Definition call_question (w : question) (d id : Z) : LM unit := z ← lift (ask (Ask w d id)); VERIFY z (z =? 0).

Definition give (b : bool) (r : resource) : CM unit := if b then _ ← ask (Close r); mret tt else mret tt.
(** The resources of [order] whose flag is set, in this order. *)
Fixpoint give_back (held order : list resource) : CM unit :=
  match order with [] => mret tt | r :: order => _ ← give (bool_decide (r ∈ held)) r; give_back held order end.

(** ** Domains *)
Definition is_queue_domain (dom : Z) : bool := (dom =? CDSP_DOMAIN_ID) || (dom =? ADSP_DOMAIN_ID) || (dom =? CDSP1_DOMAIN_ID).
Definition uri (d i : Z) : resource := Res KUri d i.
Definition of_domain (k : kind) (d : Z) : resource := Res k d 0.
Definition reset_or_unsupported (e : Z) : Z := if e =? AEE_ECONNRESET then e else AEE_EUNSUPPORTED.

Definition register_notifications (d : Z) : LM unit :=
  s ← lift get;
  if bool_decide (d ∈ notif_registered s) then mret tt
  else
    e ← lift (ask (Ask RegisterNotifications d 0));
    if e =? AEE_EUNSUPPORTED then mret tt
    else if e =? 0 then lift (modify (fun s => set_notif ({[ d ]} ∪ notif_registered s) s))
    else bail e.

(** Both capabilities; an answer other than 0 is one. *)
Definition check_dspsignal (d : Z) : LM bool :=
  c ← lift (ask (Ask (Capability DSPSIGNAL_DSP_SUPPORT) d 0));
  if c =? 0 then mret false
  else (c ← lift (ask (Ask (Capability DSPSIGNAL_DRIVER_SUPPORT) d 0)); mret (negb (c =? 0))).

Definition init_domain_body (d : Z) : LM unit :=
  _ ← take_or AEE_ENOMEMORY (of_domain KDq d);
  _ ← take_or AEE_ENOMEMORY (uri d 0);
  _ ← VERIFYC (is_queue_domain (Z.land d DOMAIN_ID_MASK)) AEE_EUNSUPPORTED;
  _ ← take_or AEE_ENOMEMORY (uri d 1);
  _ ← take_or AEE_ENOMEMORY (uri d 2);
  e ← lift (ask (Ask GetUri d 0));
  _ ← (if negb (e =? AEE_SUCCESS) then bail (reset_or_unsupported e) else mret tt);
  e ← lift (ask (Open (of_domain KHandle d) 0));
  _ ← (if negb (e =? 0) then bail (reset_or_unsupported e) else setl (cons (of_domain KHandle d)));
  _ ← register_notifications d;
  _ ← take_or AEE_ENORPCMEMORY (of_domain KState d);
  _ ← ask_or AEE_ERPC StateAligned d 0;
  _ ← ask_or AEE_ERPC StateFd d 0;
  _ ← take (of_domain KStateMap d);
  _ ← call_question InitProcessState d 0;
  have_dspsignal ← check_dspsignal d;
  _ ← (if have_dspsignal then mret tt
       else
         _ ← take (of_domain KSendMutex d);
         _ ← take (of_domain KSendCond d);
         _ ← take (of_domain KSendThread d);
         take (of_domain KRecvThread d));
  _ ← lift (give_back [uri d 0; uri d 1; uri d 2] [uri d 0; uri d 1; uri d 2]);
  lift (modify (fun s => set_domains (<[ d := DomainQueues 0 0 ∅ 0 have_dspsignal 0 ]> (domain_queues s)) s)).

(** At [bail:]; the DSP's wait is cancelled before the receiving thread is joined. *)
Definition init_domain_bail (d : Z) (held : list resource) : CM unit :=
  _ ← (if bool_decide (of_domain KRecvThread d ∈ held) then _ ← ask (Ask CancelWaitSignal d 0); mret tt else mret tt);
  give_back held [of_domain KRecvThread d; of_domain KSendThread d; of_domain KSendCond d; of_domain KSendMutex d;
    of_domain KStateMap d; of_domain KHandle d; of_domain KState d; of_domain KDq d; uri d 0; uri d 1; uri d 2].

Definition init_domain_queues_locked (d : Z) : CM Z :=
  s ← get;
  if is_found (domain_queues s !! d) then mret AEE_SUCCESS
  else
    r ← with_locals [] (init_domain_body d);
    let '(nErr, held) := r : Z * list resource in
    if nErr =? AEE_SUCCESS then mret nErr else (_ ← init_domain_bail d held; mret nErr).

(** A call whose result is ignored when the DSP is gone. *)
Definition close_checked (err : Z) (r : resource) : CM unit :=
  z ← ask (Close r); if err =? 0 then VERIFY z (z =? 0) else mret tt.
Definition exit_value (err : Z) (d id : Z) : CM unit :=
  z ← ask (Ask ExitValue d id); if err =? 0 then VERIFY 0 (z =? 0) else mret tt.
Definition join (r : resource) : CM unit := z ← ask (Close r); VERIFY z (z =? 0).

Definition destroy_domain_queues_locked (d : Z) : CM Z :=
  to_bail (
    s ← get;
    match domain_queues s !! d with
    | None => mret tt
    | Some dq =>
      let err := dsp_error dq in
      _ ← (if have_dspsignal dq then mret tt
           else
             z ← ask (Ask CancelWaitSignal d 0);
             _ ← (if err =? 0 then VERIFY z (z =? 0) else mret tt);
             _ ← join (of_domain KRecvThread d);
             _ ← exit_value err d 0;
             _ ← join (of_domain KSendThread d);
             _ ← exit_value err d 1;
             give_back [of_domain KSendCond d; of_domain KSendMutex d] [of_domain KSendCond d; of_domain KSendMutex d]);
      _ ← close_checked err (of_domain KHandle d);
      _ ← close_checked err (of_domain KStateMap d);
      _ ← give_back [of_domain KState d; of_domain KDq d] [of_domain KState d; of_domain KDq d];
      modify (fun s => set_domains (delete d (domain_queues s)) s)
    end).

(** ** Creating a queue *)
Definition slot_of (dq : dspqueue_domain_queues) (id : Z) : option slot := slots dq !! id.
Definition set_slot (d id : Z) (o : option slot) (s : process_queues) : process_queues :=
  update_domain d (fun dq => set_slots (max_queue dq) (partial_alter (fun _ => o) id (slots dq)) dq) s.

(** The loop over the slots: the first free one from [id] on; [n] are left. *)
Fixpoint free_slot (sl : gmap Z slot) (id : Z) (n : nat) : option Z :=
  match n with
  | O => None
  | S n => if is_found (sl !! id) then free_slot sl (id + 1) n else Some id
  end.

Definition signal_ids (id : Z) : list Z := (fun i => QUEUE_SIGNAL id i) <$> seqZ 0 DSPQUEUE_NUM_SIGNALS.
Definition on_table (m : M signal_table (option Z)) : CM Z := fun s =>
  let '(r, t) := m (signals s) in
  (match r with Go o => Go (default (-1) o) | Bail e => Bail e end, set_signals t s).
Definition on_table_value (f : signal_table -> option Z) : CM Z := on_table (fun t => (Go (f t), t)).
Fixpoint create_signals (d : Z) (ids : list Z) : LM unit :=
  match ids with
  | [] => mret tt
  | i :: ids =>
    e ← lift (on_table (dspsignal_create p alloc ds_alloc d i 0));
    _ ← VERIFY e (e =? AEE_SUCCESS);
    create_signals d ids
  end.
Fixpoint destroy_signals (d : Z) (ids : list Z) : LM unit :=
  match ids with
  | [] => mret tt
  | i :: ids => e ← lift (on_table_value (dspsignal_destroy p d i)); _ ← VERIFY e (e =? 0); destroy_signals d ids
  end.

(** The queue on the DSP, first with a version that no DSP has: the features, wait counts
    and driver signals, that both sides have. *)
Definition create_dsp_queue (d id : Z) (driver : bool) : LM (bool * bool) :=
  let r := Res KDspQueue d id in
  e ← lift (ask (Open r 4294967295));
  if (e =? AEE_EUNSUPPORTED) || (e =? s32 (DSP_AEE_EOFFSET + AEE_EUNSUPPORTED)) then
    let flags := if driver then Z.lor DSPQUEUE_HEADER_FLAG_WAIT_COUNTS DSPQUEUE_HEADER_FLAG_DRIVER_SIGNALING else DSPQUEUE_HEADER_FLAG_WAIT_COUNTS in
    e ← lift (ask (Open r flags));
    _ ← VERIFY e (e =? 0);
    _ ← setl (cons r);
    mret (true, driver)
  else if negb (e =? AEE_SUCCESS) then bail e
  else
    _ ← setl (cons r);
    _ ← (if driver then destroy_signals d (signal_ids id) else mret tt);
    mret (false, false).

Section create.
Context (d flags req_queue_size resp_queue_size : Z) (packet_callback error_callback : bool).

(** From the allocation of the queue on; [id] is its slot. The process state's counts of
    the slot and the header, with the areas of [queue_layout], are filled in on the way. *)
Definition create_body (id queue_count : Z) (driver : bool) : LM unit :=
  let r k := Res k d id in
  _ ← VERIFYC (flags =? 0) AEE_EBADPARM;
  _ ← VERIFYC (req_queue_size <=? DSPQUEUE_MAX_QUEUE_SIZE) AEE_EBADPARM;
  _ ← VERIFYC (resp_queue_size <=? DSPQUEUE_MAX_QUEUE_SIZE) AEE_EBADPARM;
  _ ← take_or AEE_ENOMEMORY (r KQueue);
  _ ← take (r KMutex);
  _ ← (z ← lift (ask (Open (r KUserQueue) (user_queue_size (queue_layout req_queue_size resp_queue_size))));
       _ ← VERIFYC (z =? 0) AEE_ENOMEMORY; setl (cons (r KUserQueue)));
  _ ← ask_or AEE_ERPC UserQueueAligned d id;
  _ ← ask_or AEE_ERPC UserQueueFd d id;
  _ ← take (r KUserMap);
  _ ← (if driver then create_signals d (signal_ids id) else mret tt);
  f ← create_dsp_queue d id driver;
  let '(wait_counts, driver) := f : bool * bool in
  _ ← take (r KPacketMutex);
  _ ← take (r KSpaceMutex);
  _ ← (if driver then mret tt else _ ← take (r KPacketCond); take_as (r KSpaceCond) (r KPacketCond));
  _ ← (if packet_callback then take (r KCallback) else mret tt);
  lift (modify (set_slot d id (Some (InUse (QueueObj wait_counts driver packet_callback error_callback false queue_count 0 0 0 0))))).

(** At [bail:]. The callback thread is the last thing that can fail, so it is never there;
    no signal was created when one could not be, see [no_driver_signals]. *)
Definition create_bail (id : option Z) (held : list resource) : CM unit :=
  _ ← (match id with
       | None => mret tt
       | Some id =>
         let r k := Res k d id in
         _ ← give_back held [r KPacketMutex; r KPacketCond; r KSpaceMutex; r KSpaceCond; r KDspQueue; r KUserMap; r KUserQueue; r KMutex; r KQueue];
         modify (set_slot d id None)
       end);
  _ ← modify (update_domain d (fun dq => set_num (u32 (num_queues dq - 1)) dq));
  s ← get;
  match domain_queues s !! d with
  | Some dq => if num_queues dq =? 0 then _ ← destroy_domain_queues_locked d; mret tt else mret tt
  | None => mret tt
  end.

(** The code, and the slot of the queue that was created. *)
Definition create_in_domain : CM (Z * option Z) :=
  nErr ← init_domain_queues_locked d;
  if negb (nErr =? 0) then mret (nErr, None)
  else
    s ← get;
    match domain_queues s !! d with
    | None => mret (AEE_EBADPARM, None)
    | Some dq =>
      if DSPQUEUE_MAX_PROCESS_QUEUES <=? num_queues dq then mret (AEE_EBADPARM, None)
      else
        let queue_count := q_count s in
        _ ← put (set_count (u32 (queue_count + 1)) (update_domain d (set_num (u32 (num_queues dq + 1))) s));
        match free_slot (slots dq) 0 (Z.to_nat DSPQUEUE_MAX_PROCESS_QUEUES) with
        | None => _ ← create_bail None []; mret (AEE_ERPC, None)
        | Some id =>
          _ ← modify (update_domain d (fun dq => set_slots (Z.max (max_queue dq) id) (<[ id := INVALID_QUEUE ]> (slots dq)) dq));
          r ← with_locals [] (create_body id queue_count (have_dspsignal dq));
          let '(nErr, held) := r : Z * list resource in
          if nErr =? AEE_SUCCESS then mret (nErr, Some id) else (_ ← create_bail (Some id) held; mret (nErr, None))
        end
    end.
End create.

Definition dspqueue_create (domain flags req_queue_size resp_queue_size : Z) (packet_callback error_callback : bool) : CM (Z * option Z) :=
  let domain' := get_domain p domain in
  if negb (IS_VALID_EFFECTIVE_DOMAIN_ID domain') then mret ((if domain =? -1 then AEE_ERPC else AEE_EBADPARM), None)
  else create_in_domain domain' flags req_queue_size resp_queue_size packet_callback error_callback.

(** ** Closing a queue *)

(** The local is [nErr]. *)
Abbreviation EM := (M (process_queues * Z)).
Definition checked (c : call) : EM unit := z ← lift (ask c); _ ← setl (fun _ => z); VERIFY z (z =? 0).
Fixpoint each_signal (f : Z -> signal_table -> option Z) (ids : list Z) : EM unit :=
  match ids with
  | [] => mret tt
  | i :: ids =>
    e ← lift (on_table_value (f i));
    _ ← setl (fun _ => e);
    _ ← (if negb (e =? 0) && negb (e =? AEE_EBADSTATE) then bail e else mret tt);
    each_signal f ids
  end.

(** [max_queue] after a slot was freed. *)
Definition last_used (sl : gmap Z slot) : Z :=
  foldl (fun m i => if is_found (sl !! i) then i else m) 0 (seqZ 0 DSPQUEUE_MAX_PROCESS_QUEUES).

Section close.
Context (d id : Z) (q : queue_obj).
Definition cancel_callers (dq : dspqueue_domain_queues) : EM unit :=
  if o_driver q then
    if negb (dsp_error dq =? AEE_ECONNRESET) then each_signal (dspsignal_cancel_wait p d) (signal_ids id) else mret tt
  else mret tt.
Definition join_callback : EM unit :=
  if o_packet_callback q then
    z ← lift (ask (Close (Res KCallback d id)));
    _ ← setl (fun _ => z);
    _ ← (if negb (z =? 0) && negb (z =? ESRCH) then bail z else mret tt);
    ret ← lift (ask (Ask ExitValue d id));
    VERIFY z (ret =? 0)
  else mret tt.

(** The masks that [cancel_callers] sets without driver signals belong to the queue that is
    being freed; the threads that see them are in [DspQueue]. *)
Definition close_body (dq : dspqueue_domain_queues) : EM unit :=
  let r k := Res k d id in
  let err := dsp_error dq in
  _ ← (if err =? 0 then
         _ ← checked (Ask IsImported d id);
         imported ← lift (ask (Ask Imported d id));
         VERIFYC (imported =? 0) AEE_EBADPARM
       else mret tt);
  z ← lift (ask (Ask HeaderCount d id));
  _ ← VERIFYC (z =? 0) AEE_ERPC;
  _ ← lift (modify (set_slot d id (Some INVALID_QUEUE)));
  _ ← (if o_error_thread q then
         z ← lift (ask (Close (r KErrorThread)));
         _ ← VERIFYC (negb ((z =? EDEADLK) || (z =? EINVAL))) AEE_ERPC;
         setl (fun _ => AEE_SUCCESS)
       else mret tt);
  _ ← cancel_callers dq;
  _ ← join_callback;
  _ ← (if negb (err =? 0) then lift (give_back [r KDspQueue; r KUserMap] [r KDspQueue; r KUserMap])
       else _ ← checked (Close (r KDspQueue)); checked (Close (r KUserMap)));
  _ ← lift (give true (r KUserQueue));
  _ ← (if o_driver q && negb (err =? AEE_ECONNRESET) then each_signal (dspsignal_destroy p d) (signal_ids id) else mret tt);
  _ ← (if negb (o_driver q) then lift (give_back [r KPacketCond; r KSpaceCond] [r KPacketCond; r KSpaceCond]) else mret tt);
  _ ← lift (give_back [r KPacketMutex; r KSpaceMutex; r KMutex] [r KPacketMutex; r KSpaceMutex; r KMutex]);
  _ ← lift (modify (set_slot d id None));
  _ ← lift (modify (update_domain d (fun dq => set_slots (last_used (slots dq)) (slots dq) dq)));
  _ ← lift (modify (update_domain d (fun dq => set_num (u32 (num_queues dq - 1)) dq)));
  s ← lift get;
  _ ← (match domain_queues s !! d with
       | Some dq =>
         if num_queues dq =? 0 then
           _ ← lift (destroy_domain_queues_locked d);
           if o_driver q then lift (modify (fun s => set_signals (dspsignal_domain_deinit d (signals s)) s)) else mret tt
         else mret tt
       | None => mret tt
       end);
  lift (give true (r KQueue)).
End close.

(** The queue of a slot; [None] for a queue that is not there. *)
Definition dspqueue_close (d id : Z) : CM (option Z) :=
  s ← get;
  match (dq ← domain_queues s !! d; sl ← slots dq !! id; mret (dq, sl)) with
  | Some (dq, InUse q) =>
    if negb (IS_VALID_EFFECTIVE_DOMAIN_ID d) then mret (Some AEE_EINVALIDDOMAIN)
    else
      r ← with_locals AEE_SUCCESS (close_body d id q dq);
      let '(e, nErr) := r : Z * Z in
      mret (Some (if e =? AEE_SUCCESS then nErr else e))
  | _ => mret None
  end.

(** ** Errors of the DSP *)
Definition cancelled (q : queue_obj) : queue_obj :=
  if o_driver q then q
  else QueueObj (o_wait_counts q) (o_driver q) (o_packet_callback q) (o_error_callback q) (o_error_thread q) (o_count q)
    (Z.lor (o_packet_mask q) SIGNAL_BIT_CANCEL) (Z.lor (o_space_mask q) SIGNAL_BIT_CANCEL) (o_resp_packet_count q) (o_req_space_count q).
Definition with_error_thread (q : queue_obj) : queue_obj :=
  QueueObj (o_wait_counts q) (o_driver q) (o_packet_callback q) (o_error_callback q) true (o_count q) (o_packet_mask q) (o_space_mask q)
    (o_resp_packet_count q) (o_req_space_count q).

(** Cancelled waits of driver signals change nothing here. The [calloc] of the arguments
    and the creation of the thread are one question. *)
Definition fail_queue (d id : Z) : CM unit :=
  s ← get;
  match (dq ← domain_queues s !! d; slots dq !! id) with
  | Some (InUse q) =>
    let q := cancelled q in
    _ ← modify (set_slot d id (Some (InUse q)));
    if o_error_callback q then
      z ← ask (Open (Res KErrorThread d id) 0);
      if z =? 0 then modify (set_slot d id (Some (InUse (with_error_thread q)))) else mret tt
    else mret tt
  | _ => mret tt
  end.
Fixpoint fail_queues (d : Z) (ids : list Z) : CM unit :=
  match ids with [] => mret tt | i :: ids => _ ← fail_queue d i; fail_queues d ids end.

Definition ERROR_DIED : Z := s32 2147484685.
Definition error_callback (d error : Z) : CM unit :=
  s ← get;
  match domain_queues s !! d with
  | None => mret tt
  | Some dq =>
    if negb (dsp_error dq =? 0) then mret tt
    else
      let error := if (error =? ERROR_DIED) || (error =? -1) then AEE_ECONNRESET else error in
      _ ← modify (update_domain d (set_error error));
      fail_queues d (seqZ 0 (max_queue dq + 1))
  end.

Definition FASTRPC_USER_PD_UP : Z := 0.
Definition FASTRPC_DSP_SSR : Z := 4.
Definition dspqueue_notif_callback (domain session status : Z) : CM Z :=
  if status =? FASTRPC_USER_PD_UP then mret 0
  else
    let d := if negb (session =? 0) && (domain <? NUM_DOMAINS) then GET_EFFECTIVE_DOMAIN_ID domain session else domain in
    _ ← error_callback d (if status =? FASTRPC_DSP_SSR then AEE_ECONNRESET else AEE_ENOSUCH);
    mret 0.

(** ** The signal threads *)

(** One signal of the DSP: every queue in use takes over the counts of the process state;
    a change wakes the waiting threads. *)
Definition new_counts (resp_packet req_space : Z -> Z) (id : Z) (q : queue_obj) : queue_obj :=
  QueueObj (o_wait_counts q) (o_driver q) (o_packet_callback q) (o_error_callback q) (o_error_thread q) (o_count q) (o_packet_mask q) (o_space_mask q)
    (resp_packet id) (req_space id).
Definition receive_signal (resp_packet req_space : Z -> Z) (dq : dspqueue_domain_queues) : dspqueue_domain_queues :=
  set_slots (max_queue dq)
    (foldl (fun sl i => alter (fun x => match x with InUse q => InUse (new_counts resp_packet req_space i q) | x => x end) i sl)
      (slots dq) (seqZ 0 (max_queue dq + 1))) dq.

(** One round of the sending thread, with a mask that is not 0: [Some] for its exit value. *)
Definition set_send (k : Z) (dq : dspqueue_domain_queues) : dspqueue_domain_queues :=
  DomainQueues (num_queues dq) (max_queue dq) (slots dq) (dsp_error dq) (have_dspsignal dq) k.
Definition send_signal_round (d : Z) : CM (option Z) :=
  s ← get;
  match domain_queues s !! d with
  | None => mret None
  | Some dq =>
    if has_bit (send_mask dq) SIGNAL_BIT_CANCEL then mret (Some 0)
    else if has_bit (send_mask dq) SIGNAL_BIT_SIGNAL then
      _ ← modify (update_domain d (set_send (Z.land (send_mask dq) (u32 (Z.lnot SIGNAL_BIT_SIGNAL)))));
      z ← ask (Ask RpcSignal d 0);
      if z =? 0 then mret None else (_ ← error_callback d z; mret (Some z))
    else mret None
  end.
End control.

(** ** Multi-domain queues

    A queue for each domain, on a state [S] that they share; [op] is the operation on one
    queue. A queue whose mutex is taken is one step. *)
Section multidomain.
Context {S H A : Type}.

(** [dspqueue_multidomain_write] with the blocking or the non-blocking write. *)
Fixpoint write_each (op : H -> M S Z) (l : list H) : M S unit :=
  match l with [] => mret tt | h :: l => e ← op h; _ ← VERIFY e (e =? AEE_SUCCESS); write_each op l end.
Definition dspqueue_multidomain_write (op : H -> M S Z) (l : list H) : M S Z :=
  nErr ← to_bail (write_each op l);
  mret (if nErr =? 0 then nErr else AEE_EBADSTATE).

(** [dspqueue_multidomain_read] for reading and for peeking: the first queue with a packet. *)
Fixpoint read_each (op : H -> M S (Z * A)) (l : list H) (r : Z * A) : M S (Z * A) :=
  match l with
  | [] => mret r
  | h :: l => r ← op h; if r.1 =? 0 then mret r else if r.1 =? AEE_EWOULDBLOCK then read_each op l r else mret r
  end.
Definition dspqueue_multidomain_read (op : H -> M S (Z * A)) (a0 : A) (block : bool) (l : list H) : M S (Z * A) :=
  if block && (1 <? length l)%nat then mret (AEE_EUNSUPPORTED, a0) else read_each op l (AEE_SUCCESS, a0).

(** A context has at least one domain. *)
Definition dspqueue_multidomain_get_stat (get_stat : H -> M S (Z * option Z)) (first : H) (l : list H) : M S (Z * option Z) :=
  match l with [] => get_stat first | _ => mret (AEE_EUNSUPPORTED, None) end.

(** The first error is returned; a place of the array without a queue is skipped. *)
Fixpoint close_each (close : H -> M S Z) (l : list (option H)) (nErr : Z) : M S Z :=
  match l with
  | [] => mret nErr
  | None :: l => close_each close l nErr
  | Some h :: l => err ← close h; close_each close l (if negb (err =? 0) then if negb (nErr =? 0) then nErr else err else nErr)
  end.
Definition dspqueue_multidomain_close (close : H -> M S Z) (l : list (option H)) : M S Z := close_each close l AEE_SUCCESS.

(** Creation: the queues in order until one fails, then all that there are are closed. The
    answer is the code and the queues. *)
Fixpoint create_each (create : Z -> M S (Z * option H)) (ds : list Z) : M (S * list (option H)) unit :=
  match ds with
  | [] => mret tt
  | d :: ds =>
    r ← lift (create d);
    let '(e, h) := r : Z * option H in
    _ ← setl (fun l => l ++ [h]);
    _ ← VERIFY e (e =? AEE_SUCCESS);
    create_each create ds
  end.
(** What has to succeed before the queues are made: [pthread_once], the queue, its mutex,
    and the arrays of the domains, of the queues and of their ids. The clean-up goes over
    the array of the queues as soon as the number of domains is set. *)
Definition setup_error (i : nat) : Z := match i with O | 2%nat => AEE_ENOTINITIALIZED | _ => AEE_ENOMEMORY end.
Definition setup_faults (i : nat) (domains : Z) : bool := (0 <? domains) && ((i =? 3)%nat || (i =? 4)%nat).

(** [None]: the clean-up reads through a null pointer. [failing] is the step of the set-up
    that fails. *)
Definition dspqueue_multidomain_create (create : Z -> M S (Z * option H)) (close : H -> M S Z) (get_domains : M S (Z * list Z))
  (ids priority flags : bool) (num_ids : Z) (failing : option nat) : M S (option (Z * list (option H))) :=
  r ← get_domains;
  let '(e, ds) := r : Z * list Z in
  if negb (e =? AEE_SUCCESS) then mret (Some (e, []))
  else if negb (ids && negb priority && negb flags) then mret (Some (AEE_EBADPARM, []))
  else if negb (Z.of_nat (length ds) <=? num_ids) then mret (Some (AEE_EBADPARM, []))
  else
    match failing with
    | Some i => if setup_faults i (Z.of_nat (length ds)) then mret None else mret (Some (setup_error i, []))
    | None =>
      r ← with_locals [] (create_each create ds);
      let '(nErr, l) := r : Z * list (option H) in
      if nErr =? AEE_SUCCESS then mret (Some (nErr, l)) else (_ ← dspqueue_multidomain_close close l; mret (Some (nErr, [])))
    end.
End multidomain.

(** [dspqueue_request]: the one request there is. *)
Definition DSPQUEUE_CREATE : Z := 0.
Definition dspqueue_request {S A} (create : M S (option (Z * A))) (a0 : A) (req_id : Z) : M S (option (Z * A)) :=
  if req_id =? DSPQUEUE_CREATE then create else mret (Some (AEE_EUNSUPPORTED, a0)).
Definition dspqueue_export (is_mdq : bool) (dsp_id : Z) : Z * option Z :=
  if is_mdq then (AEE_EUNSUPPORTED, None) else (AEE_SUCCESS, Some dsp_id).
(** ** What the trace holds *)
Definition taken_by (r : resource) (e : call * Z) : Z :=
  match e with
  | (Open r' _, z) => if decide (r = r' /\ z = 0) then 1 else 0
  | (Close r', _) => if decide (r = r') then -1 else 0
  | (Ask _ _ _, _) => 0
  end.
Fixpoint held (r : resource) (t : list (call * Z)) : Z := match t with [] => 0 | e :: t => taken_by r e + held r t end.
Lemma held_app r t t' : held r (t ++ t') = held r t + held r t'.
Proof. induction t as [|e t IH]; cbn; lia. Qed.

(** The resources that are held exactly when they are owned: all but the condition variable for
    space. When the callback thread of a new queue cannot be created that one is never
    destroyed, see [space_cond_kept]; what holds of it is in the section [conds]. *)
Definition counted (r : resource) : Prop := r_kind r <> KSpaceCond.

(** Between [s0] and [s] only the trace, the notifications and the signals changed, and
    what was taken on the way is in [l]. *)
Definition holding (s0 s : process_queues) (l : list resource) : Prop :=
  domain_queues s = domain_queues s0 /\ q_count s = q_count s0 /\
  forall r, counted r -> held r (trace s) = held r (trace s0) + (if decide (r ∈ l) then 1 else 0).

Ltac count := repeat case_decide; try lia; exfalso; set_solver.

Section accounting.
Context (p : proc) (ans : list (call * Z) -> call -> Z) (alloc ds_alloc : bool).

(** Giving back always works; anything else may fail. *)
Definition gives_back (c : call) : Prop :=
  match c with Close _ => True | Ask (CancelWaitSignal | IsImported | Imported | HeaderCount | ExitValue) _ _ => True | _ => False end.
Context (Hgive : forall t c, gives_back c -> ans t c = 0).

Lemma holding_refl s : holding s s [].
Proof. split_and!; [done..|]. intros r _. count. Qed.

Lemma holding_notif s0 s l n : holding s0 s l -> holding s0 (set_notif n s) l.
Proof. done. Qed.
Lemma holding_signals s0 s l n : holding s0 s l -> holding s0 (set_signals n s) l.
Proof. done. Qed.

Lemma holding_ask s0 s l w d id z : holding s0 s l -> holding s0 (set_trace (trace s ++ [(Ask w d id, z)]) s) l.
Proof. intros (? & ? & H). split_and!; [done..|]. intros r Hr. cbn. rewrite held_app, H by done. cbn. lia. Qed.

Lemma holding_open s0 s l r arg z : holding s0 s l -> z <> 0 -> holding s0 (set_trace (trace s ++ [(Open r arg, z)]) s) l.
Proof. intros (? & ? & H) Hz. split_and!; [done..|]. intros r' Hr. cbn. rewrite held_app, H by done. cbn. count. Qed.
Lemma holding_take s0 s l r arg : holding s0 s l -> r ∉ l -> holding s0 (set_trace (trace s ++ [(Open r arg, 0)]) s) (r :: l).
Proof. intros (? & ? & H) Hn. split_and!; [done..|]. intros r' Hr. cbn. rewrite held_app, H by done. cbn. count. Qed.
(** The condition variable, whose flag is another one's. *)
Lemma holding_take_as s0 s l r f arg : holding s0 s l -> ~ counted r -> f ∈ l -> holding s0 (set_trace (trace s ++ [(Open r arg, 0)]) s) (f :: l).
Proof. intros (? & ? & H) Hn Hf. split_and!; [done..|]. intros r' Hr. cbn. rewrite held_app, H by done. cbn. count. Qed.

(** Giving back. *)
Lemma holding_give s0 s l r : holding s0 s l -> r ∈ l -> holding s0 (set_trace (trace s ++ [(Close r, 0)]) s) (filter (fun x => x <> r) l).
Proof.
  intros (? & ? & H) Hin. split_and!; [done..|]. intros r' Hr. cbn. rewrite held_app, H by done. cbn.
  destruct (decide (r' = r)), (decide (r' ∈ l)), (decide (r' ∈ filter (fun x => x <> r) l)) as [Hf|Hf]; rewrite list_elem_of_filter in Hf; try lia; exfalso; naive_solver.
Qed.
Lemma wp_give_back l order : forall s0 s l' (Q : unit -> process_queues -> Prop) R,
  holding s0 s l' -> NoDup order -> (forall r, r ∈ order -> r ∈ l <-> r ∈ l') ->
  (forall s' l'', holding s0 s' l'' -> (forall r, r ∈ l'' <-> r ∈ l' /\ r ∉ order) -> Q tt s') -> wp (give_back ans l order) Q R s.
Proof.
  induction order as [|r order IH]; intros s0 s l' Q R Hh Hnd Hl HQ.
  { apply wp_ret, (HQ s l'); [done|]. intros r. set_solver. }
  apply NoDup_cons in Hnd as [Hr Hnd]. cbn [give_back]. apply wp_bind. unfold give.
  destruct (bool_decide_reflect (r ∈ l)) as [Hin|Hin].
  - apply wp_bind. unfold wp, ask at 1. rewrite Hgive by done. cbn.
    eapply (IH s0 _ (filter (fun x => x <> r) l')); [apply holding_give; [done|by apply Hl, Hin; left]|done| |].
    + intros x Hx. rewrite list_elem_of_filter, Hl by (by right). split; [|tauto]. intros; split; [by intros ->|done].
    + intros s' l'' Hh' Hl''. apply (HQ s' l''); [done|]. intros x. rewrite Hl'', list_elem_of_filter. set_solver.
  - apply wp_ret. eapply (IH s0 s l'); [done|done|by intros; apply Hl; right|].
    intros s' l'' Hh' Hl''. apply (HQ s' l''); [done|]. intros x. rewrite Hl''.
    assert (r ∉ l') by (rewrite <- Hl; [done|left]). set_solver.
Qed.

(** Between the top of a function and its label: what is held is among [order], what the
    label gives back. *)
Definition live (s0 : process_queues) (order : list resource) (s : process_queues) (l : list resource) : Prop :=
  holding s0 s l /\ forall r, r ∈ l -> r ∈ order.
Definition bailed (s0 : process_queues) (order : list resource) (e : Z) (sl : process_queues * list resource) : Prop :=
  e <> 0 /\ live s0 order sl.1 sl.2.

Lemma live_refl order s : live s order s [].
Proof. split; [apply holding_refl|]. intros r H. by apply not_elem_of_nil in H. Qed.
Lemma live_ask s0 order s l w d id z : live s0 order s l -> live s0 order (set_trace (trace s ++ [(Ask w d id, z)]) s) l.
Proof. intros [H ?]. split; [by apply holding_ask|done]. Qed.
Lemma live_open s0 order s l r arg z : live s0 order s l -> z <> 0 -> live s0 order (set_trace (trace s ++ [(Open r arg, z)]) s) l.
Proof. intros [H ?] Hz. split; [by apply holding_open|done]. Qed.
Lemma live_take s0 order s l r arg : live s0 order s l -> r ∉ l -> r ∈ order -> live s0 order (set_trace (trace s ++ [(Open r arg, 0)]) s) (r :: l).
Proof. intros [H Hl] Hn Ho. split; [by apply holding_take|]. intros x [->|Hx]%elem_of_cons; auto. Qed.

Lemma wp_ask c (Q : Z -> process_queues -> Prop) R s :
  (forall z, z = ans (trace s) c -> Q z (set_trace (trace s ++ [(c, z)]) s)) -> wp (ask ans c) Q R s.
Proof. intros H. unfold wp, ask. cbn. by apply H. Qed.
Lemma wp_take_err {B} (mk : Z -> M (process_queues * list resource) unit) s0 order r arg (k : unit -> M (process_queues * list resource) B) (Q : B -> _ -> Prop) s l :
  mk 0 = mret tt -> (forall z, z <> 0 -> exists e, e <> 0 /\ mk z = bail e) ->
  live s0 order s l -> r ∉ l -> r ∈ order ->
  (forall s', live s0 order s' (r :: l) -> wp (k tt) Q (bailed s0 order) (s', r :: l)) ->
  wp (u ← (z ← lift (ask ans (Open r arg)); _ ← mk z; setl (cons r)); k u) Q (bailed s0 order) (s, l).
Proof.
  intros H0 Hz Hl Hn Ho H. do 3 wp_step. apply wp_ask. intros z _. wp_step. destruct (decide (z = 0)) as [->|Hne].
  - rewrite H0. wp_step. wp_step. apply H. by apply live_take.
  - destruct (Hz z Hne) as (e & He & ->). wp_step. split; [done|]. by apply live_open.
Qed.
Lemma wp_take_answer {B} s0 order r (k : unit -> M (process_queues * list resource) B) (Q : B -> _ -> Prop) s l :
  live s0 order s l -> r ∉ l -> r ∈ order ->
  (forall s', live s0 order s' (r :: l) -> wp (k tt) Q (bailed s0 order) (s', r :: l)) ->
  wp (u ← take ans r; k u) Q (bailed s0 order) (s, l).
Proof.
  apply (wp_take_err (fun z => VERIFY z (z =? 0))); [done|]. intros z Hz. exists z. split; [done|].
  unfold VERIFY. by rewrite (proj2 (Z.eqb_neq z 0)).
Qed.
Lemma wp_take_or {B} s0 order err r (k : unit -> M (process_queues * list resource) B) (Q : B -> _ -> Prop) s l :
  err <> 0 -> live s0 order s l -> r ∉ l -> r ∈ order ->
  (forall s', live s0 order s' (r :: l) -> wp (k tt) Q (bailed s0 order) (s', r :: l)) ->
  wp (u ← take_or ans err r; k u) Q (bailed s0 order) (s, l).
Proof.
  intros He. apply (wp_take_err (fun z => VERIFYC (z =? 0) err)); [done|]. intros z Hz. exists err. split; [done|].
  unfold VERIFYC. by rewrite (proj2 (Z.eqb_neq z 0)).
Qed.
Lemma wp_ask_or {B} s0 order err w d id (k : unit -> M (process_queues * list resource) B) (Q : B -> _ -> Prop) s l :
  err <> 0 -> live s0 order s l -> (forall s', live s0 order s' l -> wp (k tt) Q (bailed s0 order) (s', l)) ->
  wp (u ← ask_or ans err w d id; k u) Q (bailed s0 order) (s, l).
Proof.
  intros He Hl H. unfold ask_or. do 3 wp_step. apply wp_ask. intros z _. wp_step; [by apply H, live_ask|]. split; [done|]. by apply live_ask.
Qed.
Lemma wp_call_question {B} s0 order w d id (k : unit -> M (process_queues * list resource) B) (Q : B -> _ -> Prop) s l :
  live s0 order s l -> (forall s', live s0 order s' l -> wp (k tt) Q (bailed s0 order) (s', l)) ->
  wp (u ← call_question ans w d id; k u) Q (bailed s0 order) (s, l).
Proof.
  intros Hl H. unfold call_question. do 3 wp_step. apply wp_ask. intros z _. wp_step; [by apply H, live_ask|]. split; [by case_match; lia|]. by apply live_ask.
Qed.
Lemma wp_check {B} s0 order b err (k : unit -> M (process_queues * list resource) B) (Q : B -> _ -> Prop) s l :
  err <> 0 -> live s0 order s l -> (b = true -> wp (k tt) Q (bailed s0 order) (s, l)) ->
  wp (u ← VERIFYC b err; k u) Q (bailed s0 order) (s, l).
Proof. intros He Hl H. wp_step. wp_step; [by apply H|]. done. Qed.

Ltac not_held := let H := fresh in intros H; repeat (apply elem_of_cons in H as [H|H]; [discriminate H|]); by apply not_elem_of_nil in H.
Ltac listed := cbn; repeat first [apply list_elem_of_here | apply list_elem_of_further].
Ltac taking H :=
  let s' := fresh "s" in let H' := fresh "H" in
  lazymatch goal with
  | |- wp (take_or _ _ _ ≫= _) _ _ _ => apply wp_take_or; [done|exact H|not_held|listed|]
  | |- wp (take _ _ ≫= _) _ _ _ => apply wp_take_answer; [exact H|not_held|listed|]
  | |- wp (ask_or _ _ _ _ _ ≫= _) _ _ _ => apply wp_ask_or; [done|exact H|]
  | |- wp (call_question _ _ _ _ ≫= _) _ _ _ => apply wp_call_question; [exact H|]
  end; intros s' H'; clear H; rename H' into H.

(** What a domain owns, with its own threads or with driver signals. *)
Definition domain_owns (driver : bool) (k : kind) : bool :=
  match k with
  | KDq | KHandle | KState | KStateMap => true
  | KSendMutex | KSendCond | KSendThread | KRecvThread => negb driver
  | _ => false
  end.
Definition init_order (d : Z) : list resource :=
  [of_domain KRecvThread d; of_domain KSendThread d; of_domain KSendCond d; of_domain KSendMutex d;
    of_domain KStateMap d; of_domain KHandle d; of_domain KState d; of_domain KDq d; uri d 0; uri d 1; uri d 2].
Lemma init_order_nodup d : NoDup (init_order d).
Proof. unfold init_order. do 11 (apply NoDup_cons; split; [not_held|]). by apply NoDup_nil. Qed.

(** What stays with the domain. *)
Definition domain_resources (driver : bool) (d : Z) : list resource :=
  (if driver then [] else [of_domain KRecvThread d; of_domain KSendThread d; of_domain KSendCond d; of_domain KSendMutex d]) ++
  [of_domain KStateMap d; of_domain KState d; of_domain KHandle d; of_domain KDq d].
Lemma domain_resources_spec driver r :
  r ∈ domain_resources driver (r_domain r) <-> domain_owns driver (r_kind r) && (r_id r =? 0) = true.
Proof.
  unfold domain_resources, of_domain. rewrite elem_of_app, andb_true_iff, Z.eqb_eq. split.
  - intros [H|H]; [destruct driver; [by apply not_elem_of_nil in H|]|]; repeat (apply elem_of_cons in H as [->|H]; [done|]); by apply not_elem_of_nil in H.
  - destruct r as [k d i]; cbn. intros [Hk ->]. destruct k; try done; try (right; listed; fail); left; destruct driver; try done; listed.
Qed.

Lemma holding_ext s0 s l l' : (forall r, r ∈ l <-> r ∈ l') -> holding s0 s l -> holding s0 s l'.
Proof. intros He (? & ? & H). split_and!; [done..|]. intros r Hr. rewrite H by done. f_equal. apply decide_ext, He. Qed.

Lemma wp_register s0 order d s l {B} (k : unit -> M (process_queues * list resource) B) (Q : B -> _ -> Prop) :
  live s0 order s l -> (forall s', live s0 order s' l -> wp (k tt) Q (bailed s0 order) (s', l)) ->
  wp (u ← register_notifications ans d; k u) Q (bailed s0 order) (s, l).
Proof.
  intros Hl H. unfold register_notifications. do 4 wp_step. wp_step; [by wp_step; apply H|].
  do 2 wp_step. apply wp_ask. intros z _. wp_step; [by wp_step; apply H, live_ask|].
  wp_step; [by wp_step; wp_step; apply H, (live_ask s0 order s l)|]. wp_step. split; [lia|]. by apply live_ask.
Qed.
Lemma wp_capabilities s0 order d s l {B} (k : bool -> M (process_queues * list resource) B) (Q : B -> _ -> Prop) :
  live s0 order s l -> (forall b s', live s0 order s' l -> wp (k b) Q (bailed s0 order) (s', l)) ->
  wp (b ← check_dspsignal ans d; k b) Q (bailed s0 order) (s, l).
Proof.
  intros Hl H. unfold check_dspsignal. do 3 wp_step. apply wp_ask. intros z _. wp_step; [by wp_step; apply H, live_ask|].
  do 2 wp_step. apply wp_ask. intros z' _. wp_step. by apply H, live_ask, live_ask.
Qed.

Lemma reset_nonzero e : e <> 0 -> reset_or_unsupported e <> 0.
Proof. unfold reset_or_unsupported. by case_match. Qed.

Lemma wp_take_end s0 order r (Q : unit -> process_queues * list resource -> Prop) s l :
  live s0 order s l -> r ∉ l -> r ∈ order -> (forall s', live s0 order s' (r :: l) -> Q tt (s', r :: l)) ->
  wp (take ans r) Q (bailed s0 order) (s, l).
Proof.
  intros Hl Hn Ho H. unfold take, take_as. do 2 wp_step. apply wp_ask. intros z _. wp_step. wp_step.
  - apply wp_setl, H. rewrite (proj1 (Z.eqb_eq z 0)) by done. by apply live_take.
  - assert (z <> 0) by by apply Z.eqb_neq. split; [by case_match; lia|]. by apply live_open.
Qed.

Ltac members :=
  let H := fresh in let Hn := fresh in intros ?; split;
  [intros [H Hn]; repeat (apply elem_of_cons in H as [->|H]; [first [solve [listed] | exfalso; apply Hn; solve [listed]]|]); by apply not_elem_of_nil in H
  |intros H; repeat (apply elem_of_cons in H as [->|H]; [split; [listed|not_held]|]); by apply not_elem_of_nil in H].

(** The end of the initialisation. *)
Definition uris (d : Z) : list resource := [uri d 0; uri d 1; uri d 2].
Lemma init_tail d b s0 s l (R : Z -> process_queues * list resource -> Prop) :
  holding s0 s l -> (forall r, r ∈ uris d -> r ∈ l) -> (forall r, r ∈ l /\ r ∉ uris d <-> r ∈ domain_resources b d) ->
  wp (_ ← lift (give_back ans (uris d) (uris d));
      lift (modify (fun s => set_domains (<[ d := DomainQueues 0 0 ∅ 0 b 0 ]> (domain_queues s)) s)))
    (fun _ sl => exists b s', sl.1 = set_domains (<[ d := DomainQueues 0 0 ∅ 0 b 0 ]> (domain_queues s')) s' /\
      holding s0 s' (domain_resources b d)) R (s, l).
Proof.
  intros H Hu Hl. do 2 wp_step. eapply wp_give_back; [exact H| |firstorder|].
  - unfold uris. do 3 (apply NoDup_cons; split; [not_held|]). by apply NoDup_nil.
  - intros s' l'' Hh Hm. do 2 wp_step. exists b, s'. split; [done|]. apply (holding_ext _ _ l''); [|done]. intros r. by rewrite Hm, Hl.
Qed.
Lemma init_body_spec d s0 s :
  live s0 (init_order d) s [] ->
  wp (init_domain_body ans d) (fun _ sl => exists b s', sl.1 = set_domains (<[ d := DomainQueues 0 0 ∅ 0 b 0 ]> (domain_queues s')) s' /\
    holding s0 s' (domain_resources b d)) (bailed s0 (init_order d)) (s, []).
Proof.
  intros H. unfold init_domain_body.
  do 2 taking H. apply wp_check; [done|exact H|intros _]. do 2 taking H.
  do 2 wp_step. apply wp_ask. intros e _. apply (live_ask _ _ _ _ GetUri d 0 e) in H. wp_step.
  wp_step; [wp_step; split; [apply reset_nonzero; by destruct (Z.eqb_spec e AEE_SUCCESS)|done]|]. wp_step.
  do 2 wp_step. apply wp_ask. intros e' _. wp_step.
  wp_step; [wp_step; assert (e' <> 0) by (by destruct (Z.eqb_spec e' 0)); split; [by apply reset_nonzero|by apply live_open]|].
  assert (e' = 0) as -> by (by destruct (Z.eqb_spec e' 0)).
  apply (live_take _ _ _ _ (of_domain KHandle d) 0) in H; [|not_held|listed]. wp_step.
  apply wp_register; [exact H|]. intros s' H'. clear H; rename H' into H.
  do 5 taking H. apply wp_capabilities; [exact H|]. intros b sb H'. clear H; rename H' into H.
  wp_step. apply wp_if; intros ->.
  - wp_step. apply init_tail; [apply H|..].
    + intros r Hr. unfold uris in Hr. repeat (apply elem_of_cons in Hr as [->|Hr]; [listed|]). by apply not_elem_of_nil in Hr.
    + members.
  - do 3 taking H. apply wp_take_end; [exact H|not_held|listed|]. clear H. intros se H. apply init_tail; [apply H|..].
    + intros r Hr. unfold uris in Hr. repeat (apply elem_of_cons in Hr as [->|Hr]; [listed|]). by apply not_elem_of_nil in Hr.
    + members.
Qed.

Lemma holding_give_head s0 s l r : holding s0 s (r :: l) -> r ∉ l -> holding s0 (set_trace (trace s ++ [(Close r, 0)]) s) l.
Proof. intros (? & ? & H) Hin. split_and!; [done..|]. intros r' Hr. cbn. rewrite held_app, H by done. cbn. count. Qed.
(** To count from what is left: [l] is held in [s] over the state after giving it back. *)
Definition given (l : list resource) (s : process_queues) : process_queues := set_trace (trace s ++ ((fun r => (Close r, 0)) <$> l)) s.
Lemma held_given r l s : NoDup l -> held r (trace (given l s)) = held r (trace s) - (if decide (r ∈ l) then 1 else 0).
Proof.
  intros Hnd. unfold given. cbn. rewrite held_app.
  assert (held r ((fun r => (Close r, 0)) <$> l) = - (if decide (r ∈ l) then 1 else 0)) as ->; [|lia].
  induction l as [|x l IH]; cbn; [done|]. apply NoDup_cons in Hnd as [Hx Hnd]. rewrite IH by done. count.
Qed.
Lemma holding_given l s : NoDup l -> holding (given l s) s l.
Proof. intros Hnd. split_and!; [done..|]. intros r _. rewrite held_given by done. lia. Qed.

Lemma wp_close_one {A} (m : Z -> M process_queues A) (Q : A -> process_queues -> Prop) R s0 s r l :
  holding s0 s (r :: l) -> r ∉ l -> (forall s', holding s0 s' l -> wp (m 0) Q R s') -> wp (z ← ask ans (Close r); m z) Q R s.
Proof. intros Hh Hr H. wp_step. apply wp_ask. rewrite Hgive by done. intros z ->. by apply H, holding_give_head. Qed.
Lemma wp_ask_one {A} (m : Z -> M process_queues A) (Q : A -> process_queues -> Prop) R s0 s l w d id :
  holding s0 s l -> gives_back (Ask w d id) -> (forall s', holding s0 s' l -> wp (m 0) Q R s') -> wp (z ← ask ans (Ask w d id); m z) Q R s.
Proof. intros Hh Hr H. wp_step. apply wp_ask. rewrite Hgive by done. intros z ->. by apply H, holding_ask. Qed.

(** [m] gives back the first of what is held. *)
Definition closes (m : M process_queues unit) (r : resource) : Prop :=
  forall s0 s l (Q : unit -> process_queues -> Prop) R, holding s0 s (r :: l) -> r ∉ l -> (forall s', holding s0 s' l -> Q tt s') -> wp m Q R s.
Lemma join_closes r : closes (join ans r) r.
Proof. intros s0 s l Q R Hh Hr H. unfold join. eapply wp_close_one; [done..|]. intros s' Hs. by apply H. Qed.
Lemma close_checked_closes err r : closes (close_checked ans err r) r.
Proof. intros s0 s l Q R Hh Hr H. unfold close_checked. eapply wp_close_one; [done..|]. intros s' Hs. case_match; by apply H. Qed.
Lemma give_closes r : closes (give ans true r) r.
Proof. intros s0 s l Q R Hh Hr H. unfold give. eapply wp_close_one; [done..|]. intros s' Hs. by apply H. Qed.
Lemma wp_exit_value err d id s0 s l (Q : unit -> process_queues -> Prop) R :
  holding s0 s l -> (forall s', holding s0 s' l -> Q tt s') -> wp (exit_value ans err d id) Q R s.
Proof. intros Hh H. unfold exit_value. eapply wp_ask_one; [done..|]. intros s' Hs. case_match; by apply H. Qed.

(** Giving back everything that [order] lists, and it is all there. *)
Lemma wp_give_all order s0 s l (Q : unit -> process_queues -> Prop) R :
  holding s0 s (order ++ l) -> NoDup (order ++ l) -> (forall s', holding s0 s' l -> Q tt s') -> wp (give_back ans order order) Q R s.
Proof.
  intros Hh Hnd HQ. apply NoDup_app in Hnd as (Hnd & Hdis & _).
  eapply (wp_give_back order order); [exact Hh|done| |].
  - intros r Hr. rewrite elem_of_app. tauto.
  - intros s' l'' Hh' Hl. apply HQ, (holding_ext _ _ l''); [|done]. intros r. rewrite Hl, elem_of_app. specialize (Hdis r). tauto.
Qed.

Lemma destroy_spec d s dq (Q : Z -> process_queues -> Prop) R :
  domain_queues s !! d = Some dq ->
  (forall s', q_count s' = q_count s -> domain_queues s' = delete d (domain_queues s) ->
    (forall r, counted r -> held r (trace s') = held r (trace s) - (if decide (r ∈ domain_resources (have_dspsignal dq) d) then 1 else 0)) -> Q 0 s') ->
  wp (destroy_domain_queues_locked ans d) Q R s.
Proof.
  intros Hd HQ. unfold destroy_domain_queues_locked. wp_step. do 2 wp_step. rewrite Hd.
  pose (ord := (if have_dspsignal dq then [] else [of_domain KRecvThread d; of_domain KSendThread d; of_domain KSendCond d; of_domain KSendMutex d]) ++
    [of_domain KHandle d; of_domain KStateMap d; of_domain KState d; of_domain KDq d]).
  assert (Hnd : NoDup ord).
  { unfold ord. destruct (have_dspsignal dq); cbn; repeat (apply NoDup_cons; split; [not_held|]); apply NoDup_nil_2. }
  pose proof (holding_given ord s Hnd) as H.
  set (s0 := given ord s) in *.
  assert (Hend : forall s1, holding s0 s1 [of_domain KHandle d; of_domain KStateMap d; of_domain KState d; of_domain KDq d] ->
    wp (_ ← close_checked ans (dsp_error dq) (of_domain KHandle d); _ ← close_checked ans (dsp_error dq) (of_domain KStateMap d);
        _ ← give_back ans [of_domain KState d; of_domain KDq d] [of_domain KState d; of_domain KDq d];
        modify (fun s => set_domains (delete d (domain_queues s)) s)) (fun _ => Q 0) Q s1).
  { intros s1 H1. wp_step. eapply close_checked_closes; [exact H1|not_held|]. clear H1. intros s2 H2.
    wp_step. eapply close_checked_closes; [exact H2|not_held|]. clear H2. intros s3 H3.
    wp_step. eapply (wp_give_all [_; _] s0 _ []); [exact H3| |].
    { rewrite app_nil_r. do 2 (apply NoDup_cons; split; [not_held|]). apply NoDup_nil_2. }
    intros s4 (E1 & E2 & H4). wp_step. apply HQ; [done|cbn; by rewrite E1|].
    intros r Hr. cbn. rewrite H4, decide_False by (done || apply not_elem_of_nil). unfold s0. rewrite held_given by done.
    rewrite Z.add_0_r. f_equal. apply decide_ext. unfold ord, domain_resources. rewrite !elem_of_app.
    apply or_iff_compat_l. split; intros Hi; repeat (apply elem_of_cons in Hi as [->|Hi]; [listed|]); by apply not_elem_of_nil in Hi. }
  wp_step. destruct (have_dspsignal dq); [wp_step; by apply Hend|].
  eapply wp_ask_one; [exact H|done|]. clear H. intros s1 H. wp_step. assert (E : forall Q', wp (if dsp_error dq =? 0 then VERIFY 0 (0 =? 0) else mret tt) Q' Q s1 <-> Q' tt s1) by (intros; by case_match).
  apply E. wp_step. eapply join_closes; [exact H|not_held|]. clear H E. intros s2 H.
  wp_step. eapply wp_exit_value; [exact H|]. clear H. intros s3 H.
  wp_step. eapply join_closes; [exact H|not_held|]. clear H. intros s4 H.
  wp_step. eapply wp_exit_value; [exact H|]. clear H. intros s5 H.
  eapply (wp_give_all [_; _]); [exact H| |].
  { cbn. repeat (apply NoDup_cons; split; [not_held|]). apply NoDup_nil_2. }
  intros s6 H6. by apply Hend.
Qed.

(** No signal can be created: a queue with driver signals does not come up. *)
Lemma dspsignal_create_refused d id s : exists o s', dspsignal_create p alloc ds_alloc d id 0 s = (Go o, s') /\ default (-1) o <> 0.
Proof.
  unfold dspsignal_create, init_domain_signals.
  destruct (negb (id <? DSPSIGNAL_NUM_SIGNALS)); [by eexists _, _|].
  destruct (negb (0 =? 0) || negb (IS_VALID_EFFECTIVE_DOMAIN_ID (get_domain p d))); [by eexists _, _|].
  destruct (negb (IS_VALID_EFFECTIVE_DOMAIN_ID (get_domain p d))); [by eexists _, _|].
  munfold. destruct (domain_signals _) as [t|]; [|by eexists _, _].
  assert (Hlast : forall s2, exists o s', (match domain_signals s2 with
      | None => fun s => (Go None, s)
      | Some t => match t !! get_domain p d with
        | None => fun s => (Go (Some AEE_EBADSTATE), s)
        | Some dv => fun s => (Go (Some (if ioctl_signal_create dv id 0 =? 0 then 0 else if 0 =? ENOTTY then AEE_EUNSUPPORTED else convert_kernel_to_user_error (ioctl_signal_create dv id 0) 0)), s)
        end end) s2 = (Go o, s') /\ default (-1) o <> 0).
  { intros s2. destruct (domain_signals s2) as [t2|]; [|by eexists _, _]. destruct (t2 !! _); by eexists _, _. }
  destruct (is_found _); [apply Hlast|].
  destruct ds_alloc; [|by eexists _, _]. destruct (fastrpc_session_dev (get_domain p d) p) as [e dv]. cbn.
  destruct (Z.eqb_spec e AEE_SUCCESS) as [->|He]; cbn.
  - destruct (Z.eqb_spec dv (-1)); cbn; [by eexists _, _|]. rewrite lookup_insert_eq. by eexists _, _.
  - destruct (Z.eqb_spec e 0); [done|]. cbn. rewrite (proj2 (Z.eqb_neq e 0)) by done. eexists _, _. split; [done|]. done.
Qed.

Definition queue_kinds (packet_callback : bool) : list kind :=
  (if packet_callback then [KCallback] else []) ++ [KPacketCond; KSpaceMutex; KPacketMutex; KDspQueue; KUserMap; KUserQueue; KMutex; KQueue].
Definition create_order (d id : Z) : list resource :=
  (fun k => Res k d id) <$> [KPacketMutex; KPacketCond; KSpaceMutex; KSpaceCond; KDspQueue; KUserMap; KUserQueue; KMutex; KQueue].

Lemma wp_no_signals d id s0 order s l {B} (k : unit -> M (process_queues * list resource) B) (Q : B -> _ -> Prop) :
  live s0 order s l -> wp (u ← create_signals p alloc ds_alloc d (signal_ids id); k u) Q (bailed s0 order) (s, l).
Proof.
  intros H. unfold signal_ids. change (seqZ 0 DSPQUEUE_NUM_SIGNALS) with [0; 1; 2; 3]. cbn [fmap list_fmap create_signals].
  do 3 wp_step. unfold wp at 1, on_table. destruct (dspsignal_create_refused d (QUEUE_SIGNAL id 0) (signals s)) as (o & t & -> & Ho).
  cbn. wp_step. wp_step; [by destruct (Z.eqb_spec (default (-1) o) AEE_SUCCESS)|]. split; [by rewrite (proj2 (Z.eqb_neq _ 0))|done].
Qed.

Lemma wp_dsp_queue d id s0 order s l {B} (k : bool * bool -> M (process_queues * list resource) B) (Q : B -> _ -> Prop) :
  let r := Res KDspQueue d id in live s0 order s l -> r ∉ l -> r ∈ order ->
  (forall wc s', live s0 order s' (r :: l) -> wp (k (wc, false)) Q (bailed s0 order) (s', r :: l)) ->
  wp (f ← create_dsp_queue p ans d id false; k f) Q (bailed s0 order) (s, l).
Proof.
  intros r H Hn Ho HQ. unfold create_dsp_queue. do 3 wp_step. apply wp_ask. intros e _. fold r. wp_step.
  - assert (Hl : live s0 order (set_trace (trace s ++ [(Open r 4294967295, e)]) s) l) by (apply live_open; [done|intros ->; done]).
    do 2 wp_step. apply wp_ask. intros e' _. wp_step. wp_step.
    + do 2 wp_step. wp_step. apply HQ. rewrite (proj1 (Z.eqb_eq e' 0)) by done. by apply live_take.
    + assert (e' <> 0) by by apply Z.eqb_neq. split; [by case_match; lia|]. by apply live_open.
  - wp_step; [wp_step; assert (e <> 0) by (by destruct (Z.eqb_spec e AEE_SUCCESS)); split; [done|by apply live_open]|].
    assert (e = 0) as -> by (by destruct (Z.eqb_spec e AEE_SUCCESS)).
    do 4 wp_step. wp_step. apply HQ. by apply live_take.
Qed.

Section body.
Context (d flags req resp : Z) (pc ec : bool).
Definition new_queue (queue_count : Z) (wait_counts : bool) : queue_obj := QueueObj wait_counts false pc ec false queue_count 0 0 0 0.
Lemma create_body_spec id qc driver s0 s :
  live s0 (create_order d id) s [] ->
  wp (create_body p ans alloc ds_alloc d flags req resp pc ec id qc driver)
    (fun _ sl => exists wc s' l, driver = false /\ sl.1 = set_slot d id (Some (InUse (new_queue qc wc))) s' /\
      holding s0 s' l /\ forall r, r ∈ l <-> r ∈ (fun k => Res k d id) <$> queue_kinds pc)
    (bailed s0 (create_order d id)) (s, []).
Proof.
  intros H. unfold create_body, new_queue. do 3 (apply wp_check; [done|exact H|intros _]). do 2 taking H.
  apply (wp_take_err (fun z => VERIFYC (z =? 0) AEE_ENOMEMORY));
    [done|intros z Hz; exists AEE_ENOMEMORY; split; [done|unfold VERIFYC; by rewrite (proj2 (Z.eqb_neq z 0))]|exact H|not_held|listed|].
  clear H; intros sz H. do 3 taking H. destruct driver; [by apply wp_no_signals|]. do 2 wp_step.
  apply wp_dsp_queue; [exact H|not_held|listed|]. clear H; intros wc sq H. do 2 taking H.
  cbv iota. wp_step. taking H. unfold take_as. do 2 wp_step. apply wp_ask. intros z _. wp_step.
  wp_step; [|assert (z <> 0) by (by apply Z.eqb_neq); split; [by case_match; lia|by apply live_open]].
  assert (z = 0) as -> by by apply Z.eqb_eq.
  destruct H as [H Hord].
  apply (holding_take_as _ _ _ (Res KSpaceCond d id) (Res KPacketCond d id) 0) in H; [|intros Hc; by apply Hc|listed].
  apply wp_setl. wp_step. apply wp_if; intros ->.
  - unfold take, take_as. do 2 wp_step. apply wp_ask. intros z _. wp_step.
    wp_step; [|assert (z <> 0) by (by apply Z.eqb_neq); split; [by case_match; lia|]; split; [by apply holding_open|]].
    + assert (z = 0) as -> by by apply Z.eqb_eq.
      apply wp_setl. do 2 wp_step. eexists wc, _, _. split; [done|]. cbn [fst]. split; [unfold new_queue; reflexivity|]. split; [apply holding_take; [exact H|not_held]|].
      intros r. cbn. rewrite !elem_of_cons. tauto.
    + cbn. intros r [->|Hr]%elem_of_cons; [listed|by apply Hord].
  - wp_step. do 2 wp_step. eexists wc, _, _. split; [done|]. cbn [fst]. split; [unfold new_queue; reflexivity|]. split; [exact H|].
    intros r. cbn. rewrite !elem_of_cons. tauto.
Qed.
End body.

(** ** The invariant of the table

    Every resource is held once if the table says so and otherwise not at all; slots are
    below 64 and [max_queue], their number is the counter, no queue has driver signals, and
    error threads are there only after an error. *)
Definition queue_owns (q : queue_obj) (k : kind) : bool :=
  match k with
  | KQueue | KMutex | KUserQueue | KUserMap | KDspQueue | KPacketMutex | KSpaceMutex => true
  | KPacketCond | KSpaceCond => negb (o_driver q)
  | KCallback => o_packet_callback q
  | KErrorThread => o_error_thread q
  | _ => false
  end.
Definition owned_by (dq : dspqueue_domain_queues) (r : resource) : bool :=
  (domain_owns (have_dspsignal dq) (r_kind r) && (r_id r =? 0)) ||
  match slots dq !! r_id r with Some (InUse q) => queue_owns q (r_kind r) | _ => false end.
Definition owns (t : gmap Z dspqueue_domain_queues) (r : resource) : bool :=
  match t !! r_domain r with Some dq => owned_by dq r | None => false end.
Definition good_slot (dq : dspqueue_domain_queues) (id : Z) (x : slot) : Prop :=
  0 <= id < DSPQUEUE_MAX_PROCESS_QUEUES /\ id <= max_queue dq /\
  exists q, x = InUse q /\ o_driver q = false /\ (o_error_thread q = true -> dsp_error dq <> 0).
Definition good_domain (dq : dspqueue_domain_queues) : Prop :=
  num_queues dq = Z.of_nat (size (slots dq)) /\ map_Forall (good_slot dq) (slots dq) /\ (have_dspsignal dq = true -> slots dq = ∅).
(** [o]: a domain that may have no queue, between the steps of an operation. *)
Definition accounted_but (o : option Z) (s : process_queues) : Prop :=
  (forall r, counted r -> held r (trace s) = if owns (domain_queues s) r then 1 else 0) /\
  map_Forall (fun d dq => good_domain dq /\ (slots dq <> ∅ \/ o = Some d)) (domain_queues s).
Definition accounted : process_queues -> Prop := accounted_but None.
Definition queue_at (s : process_queues) (d id : Z) : option slot := dq ← domain_queues s !! d; slots dq !! id.

Lemma alter_insert_Some {A} (f : A -> A) (m : gmap Z A) i x : m !! i = Some x -> alter f i m = <[ i := f x ]> m.
Proof.
  intros H. apply map_eq. intros j. destruct (decide (i = j)) as [<-|Hne].
  - by rewrite lookup_alter_eq, H, lookup_insert_eq.
  - by rewrite lookup_alter_ne, lookup_insert_ne.
Qed.

Lemma owns_insert t d dq r : owns (<[ d := dq ]> t) r = if decide (r_domain r = d) then owned_by dq r else owns t r.
Proof. unfold owns. case_decide as H; [subst; by rewrite lookup_insert_eq|by rewrite lookup_insert_ne by done]. Qed.

(** At most 64 slots, and a free one when there are fewer. *)
Lemma slots_small dq : map_Forall (good_slot dq) (slots dq) -> Z.of_nat (size (slots dq)) <= DSPQUEUE_MAX_PROCESS_QUEUES.
Proof.
  intros H. assert (Hs : dom (slots dq) ⊆ (list_to_set (seqZ 0 64) : gset Z)).
  { intros i Hi. apply elem_of_dom in Hi as [x Hx]. apply elem_of_list_to_set, elem_of_seqZ. destruct (H i x Hx) as [? _]. unfold DSPQUEUE_MAX_PROCESS_QUEUES in *. lia. }
  apply subseteq_size in Hs. rewrite size_dom in Hs. change (size (list_to_set (seqZ 0 64) : gset Z)) with 64%nat in Hs.
  unfold DSPQUEUE_MAX_PROCESS_QUEUES. lia.
Qed.
Lemma free_slot_spec sl : forall n id, (exists i, free_slot sl id n = Some i /\ id <= i < id + Z.of_nat n /\ sl !! i = None) \/
  (free_slot sl id n = None /\ forall i, id <= i < id + Z.of_nat n -> is_Some (sl !! i)).
Proof.
  induction n as [|n IH]; intros id; cbn [free_slot]; [right; split; [done|lia]|].
  unfold is_found. destruct (sl !! id) as [x|] eqn:E; [|left; exists id; split_and!; [done|lia|lia|done]].
  destruct (IH (id + 1)) as [(i & H1 & H2 & H3)|[H1 H2]]; [left; exists i; split_and!; [done|lia|lia|done]|right].
  split; [done|]. intros i Hi. destruct (decide (i = id)) as [->|]; [by eexists|apply H2; lia].
Qed.
Lemma free_slot_found sl : Z.of_nat (size sl) < DSPQUEUE_MAX_PROCESS_QUEUES ->
  exists i, free_slot sl 0 (Z.to_nat DSPQUEUE_MAX_PROCESS_QUEUES) = Some i /\ 0 <= i < DSPQUEUE_MAX_PROCESS_QUEUES /\ sl !! i = None.
Proof.
  intros H. destruct (free_slot_spec sl (Z.to_nat DSPQUEUE_MAX_PROCESS_QUEUES) 0) as [(i & H1 & H2 & H3)|[_ H1]]; [by exists i|exfalso].
  assert (Hs : (list_to_set (seqZ 0 64) : gset Z) ⊆ dom sl).
  { intros i Hi. apply elem_of_dom, H1. apply elem_of_list_to_set, elem_of_seqZ in Hi. unfold DSPQUEUE_MAX_PROCESS_QUEUES. lia. }
  apply subseteq_size in Hs. rewrite size_dom in Hs. change (size (list_to_set (seqZ 0 64) : gset Z)) with 64%nat in Hs.
  unfold DSPQUEUE_MAX_PROCESS_QUEUES in *. lia.
Qed.

Lemma owned_empty dq r : slots dq = ∅ -> owned_by dq r = domain_owns (have_dspsignal dq) (r_kind r) && (r_id r =? 0).
Proof. intros H. unfold owned_by. rewrite H, lookup_empty. apply orb_false_r. Qed.

(** The same, while [l] is held besides. *)
Definition accounted_with (o : option Z) (l : list resource) (s : process_queues) : Prop :=
  (forall r, counted r -> held r (trace s) = (if owns (domain_queues s) r then 1 else 0) + (if decide (r ∈ l) then 1 else 0)) /\
  map_Forall (fun d dq => good_domain dq /\ (slots dq <> ∅ \/ o = Some d)) (domain_queues s).
Lemma accounted_with_nil o s : accounted_with o [] s <-> accounted_but o s.
Proof.
  split; intros [Hh Ht]; (split; [|done]); intros r Hr; rewrite Hh by done; (rewrite decide_False by apply not_elem_of_nil); lia.
Qed.

(** The last queue of a domain is gone: destroying the domain restores the invariant. *)
Lemma destroy_accounted_with d s dq l (Q : Z -> process_queues -> Prop) R :
  accounted_with (Some d) l s -> domain_queues s !! d = Some dq -> slots dq = ∅ ->
  (forall s', accounted_with None l s' -> q_count s' = q_count s -> domain_queues s' = delete d (domain_queues s) -> Q 0 s') ->
  wp (destroy_domain_queues_locked ans d) Q R s.
Proof.
  intros [Hh Ht] Hd He HQ. eapply destroy_spec; [done|]. intros s' Hc Hdom Hheld. apply HQ; [|done|done]. split.
  - intros r Hr. rewrite Hheld, Hh, Hdom by done. unfold owns. destruct (decide (r_domain r = d)) as [<-|Hne].
    + rewrite Hd, lookup_delete_eq, owned_empty by done. pose proof (domain_resources_spec (have_dspsignal dq) r) as Hiff.
      destruct (domain_owns (have_dspsignal dq) (r_kind r) && (r_id r =? 0)), (decide (r ∈ domain_resources (have_dspsignal dq) (r_domain r))) as [Hi|Hi];
        try lia; [by destruct Hi; apply Hiff|by apply Hiff in Hi].
    + rewrite lookup_delete_ne by done. rewrite (decide_False (P := r ∈ domain_resources _ _)); [lia|].
      intros Hi. unfold domain_resources, of_domain in Hi. rewrite elem_of_app in Hi. destruct Hi as [Hi|Hi]; [destruct (have_dspsignal dq); [by apply not_elem_of_nil in Hi|]|];
        repeat (apply elem_of_cons in Hi as [->|Hi]; [done|]); by apply not_elem_of_nil in Hi.
  - intros d' dq' Hl. rewrite Hdom in Hl. apply lookup_delete_Some in Hl as [Hne Hl]. destruct (Ht d' dq' Hl) as [Hg [Hn|[=]]]; [by split; [|left]|done].
Qed.
Lemma accounted_destroy d s dq (Q : Z -> process_queues -> Prop) R :
  accounted_but (Some d) s -> domain_queues s !! d = Some dq -> slots dq = ∅ ->
  (forall s', accounted s' -> domain_queues s' = delete d (domain_queues s) -> Q 0 s') ->
  wp (destroy_domain_queues_locked ans d) Q R s.
Proof.
  intros Ha Hd He HQ. eapply destroy_accounted_with; [by apply accounted_with_nil|done|done|].
  intros s' Ha' _ Hd'. apply HQ; [by apply accounted_with_nil|done].
Qed.

(** What was given back leaves the invariant of the start. *)
Lemma accounted_holding o s0 s : accounted_but o s0 -> holding s0 s [] -> accounted_but o s.
Proof.
  intros [Hh Ht] (Hd & _ & Hl). split; [|by rewrite Hd]. intros r Hr. rewrite Hl, Hd, Hh by done.
  rewrite decide_False by apply not_elem_of_nil. lia.
Qed.
Lemma wp_bail_order s0 order s l (Q : unit -> process_queues -> Prop) R :
  live s0 order s l -> NoDup order -> (forall s', holding s0 s' [] -> Q tt s') -> wp (give_back ans l order) Q R s.
Proof.
  intros [Hh Hl] Hnd HQ. eapply wp_give_back; [exact Hh|done|done|]. intros s' l'' Hh' Hl''. apply HQ, (holding_ext _ _ l''); [|done].
  intros r. rewrite Hl''. split; [|by intros H%not_elem_of_nil]. intros [H1 H2]. by apply Hl in H1.
Qed.

Lemma init_accounted d s (Q : Z -> process_queues -> Prop) R :
  accounted s ->
  (forall e s', e <> 0 -> accounted s' -> domain_queues s' = domain_queues s -> Q e s') ->
  (forall s' dq, accounted_but (Some d) s' -> q_count s' = q_count s -> domain_queues s' !! d = Some dq ->
     (forall d' i, queue_at s' d' i = queue_at s d' i) -> Q 0 s') ->
  wp (init_domain_queues_locked ans d) Q R s.
Proof.
  intros Ha Hbad Hgood. unfold init_domain_queues_locked. do 2 wp_step. unfold is_found.
  destruct (domain_queues s !! d) as [dq|] eqn:Ed.
  { wp_step. apply (Hgood _ dq); try done. destruct Ha as [Hh Ht]. split; [done|]. intros d' dq' Hl. destruct (Ht d' dq' Hl) as [? [?|[=]]]. by split; [|left]. }
  wp_step. apply wp_with_locals. eapply wp_mono; [apply (init_body_spec d s), live_refl| |].
  - intros _ [s1 l] (b & s2 & E & Hh). cbn in E. subst s1. cbn -[give_back init_domain_bail].
    destruct Ha as [Hheld Ht]. destruct Hh as (Hd & Hc & Hl).
    apply (Hgood _ (DomainQueues 0 0 ∅ 0 b 0)); [split| | |].
    + intros r Hr. cbn. rewrite Hl, Hheld, Hd, owns_insert by done. destruct (decide (r_domain r = d)) as [Hrd|Hrd].
      * rewrite owned_empty by done. cbn. unfold owns. rewrite Hrd, Ed. subst d. pose proof (domain_resources_spec b r) as Hiff.
        destruct (domain_owns b (r_kind r) && (r_id r =? 0)); case_decide as Hi; try lia; [by destruct Hi; apply Hiff|by apply Hiff in Hi].
      * rewrite decide_False; [lia|]. intros Hi. unfold domain_resources, of_domain in Hi. rewrite elem_of_app in Hi.
        destruct Hi as [Hi|Hi]; [destruct b; [by apply not_elem_of_nil in Hi|]|];
        repeat (apply elem_of_cons in Hi as [->|Hi]; [done|]); by apply not_elem_of_nil in Hi.
    + cbn. rewrite Hd. apply map_Forall_insert; [done|]. split; [split; [split_and!; [done| |done]|by right]|].
      * intros i x Hx. cbn in Hx. by rewrite lookup_empty in Hx.
      * intros d' dq' Hl'. destruct (Ht d' dq' Hl') as [? [?|[=]]]. by split; [|left].
    + done.
    + cbn. by rewrite lookup_insert_eq.
    + intros d' i. unfold queue_at. cbn. rewrite Hd. destruct (decide (d' = d)) as [->|Hne].
      * rewrite lookup_insert_eq, Ed. cbn. by rewrite lookup_empty.
      * by rewrite lookup_insert_ne.
  - intros e [s1 l] [He Hl]. cbn -[give_back init_domain_bail] in *. rewrite (proj2 (Z.eqb_neq e AEE_SUCCESS)) by done.
    wp_step. unfold init_domain_bail. wp_step.
    assert (Hend : forall s2, live s (init_order d) s2 l -> wp (give_back ans l (init_order d)) (fun _ s' => wp (mret e) Q R s') R s2).
    { intros s2 H2. eapply wp_bail_order; [exact H2|apply init_order_nodup|]. intros s3 H3. wp_step. apply Hbad; [done|by eapply accounted_holding|by destruct H3]. }
    wp_step.
    + wp_step. apply wp_ask. intros z _. wp_step. by apply Hend, live_ask.
    + wp_step. by apply Hend.
Qed.

Lemma set_slot_insert d id x s dq : domain_queues s !! d = Some dq ->
  set_slot d id (Some x) s = set_domains (<[ d := set_slots (max_queue dq) (<[ id := x ]> (slots dq)) dq ]> (domain_queues s)) s.
Proof. intros H. unfold set_slot, update_domain. by rewrite (alter_insert_Some _ _ _ dq). Qed.
Lemma set_slot_delete d id s dq : domain_queues s !! d = Some dq ->
  set_slot d id None s = set_domains (<[ d := set_slots (max_queue dq) (delete id (slots dq)) dq ]> (domain_queues s)) s.
Proof. intros H. unfold set_slot, update_domain. by rewrite (alter_insert_Some _ _ _ dq). Qed.
Lemma update_insert d f s dq : domain_queues s !! d = Some dq -> update_domain d f s = set_domains (<[ d := f dq ]> (domain_queues s)) s.
Proof. intros H. unfold update_domain. by rewrite (alter_insert_Some _ _ _ dq). Qed.

(** ** Creating a queue *)

Lemma queue_kinds_owned pc ec qc wc k : k <> KSpaceCond ->
  queue_owns (new_queue pc ec qc wc) k = bool_decide (k ∈ queue_kinds pc).
Proof. intros Hk. destruct pc, k; try done. Qed.

(** The table with one more slot, which was free. *)
Lemma owned_insert dq m id x r : slots dq !! id = None ->
  owned_by (set_slots m (<[ id := InUse x ]> (slots dq)) dq) r =
  owned_by dq r || (bool_decide (r_id r = id) && queue_owns x (r_kind r)).
Proof.
  intros Hf. unfold owned_by. cbn. destruct (bool_decide_reflect (r_id r = id)) as [Hi|Hi]; cbn.
  - rewrite Hi, lookup_insert_eq, Hf. by rewrite orb_false_r.
  - rewrite lookup_insert_ne by done. by rewrite orb_false_r.
Qed.

Lemma create_order_nodup d id : NoDup (create_order d id).
Proof. unfold create_order. cbn. repeat (apply NoDup_cons; split; [not_held|]). apply NoDup_nil_2. Qed.

(** The domain keeps its queues; only [max_queue] may have grown. *)
Lemma accounted_grown o d s dq m t : accounted_but o s -> domain_queues s !! d = Some dq -> max_queue dq <= m ->
  (forall r, counted r -> held r (trace t) = held r (trace s)) -> domain_queues t = <[ d := set_slots m (slots dq) dq ]> (domain_queues s) ->
  accounted_but o t /\ forall d' i, queue_at t d' i = queue_at s d' i.
Proof.
  intros [Hh Ht] Hd Hm Hheld Hdt. split; [split|].
  - intros r Hr. rewrite Hheld, Hh, Hdt, owns_insert by done. case_decide as Hrd; [|done]. unfold owns. by rewrite Hrd, Hd.
  - rewrite Hdt. apply map_Forall_insert_2; [|done]. destruct (Ht d dq Hd) as [(Hn & Hg & He) Hor]. split; [|done]. split_and!; [done| |done].
    intros i x Hx. destruct (Hg i x Hx) as (? & ? & ?). split; [done|]. split; [cbn; lia|done].
  - intros d' i. unfold queue_at. rewrite Hdt. destruct (decide (d' = d)) as [->|Hne]; [by rewrite lookup_insert_eq, Hd|by rewrite lookup_insert_ne].
Qed.

Lemma slots_bounded o s d dq : accounted_but o s -> domain_queues s !! d = Some dq -> 0 <= num_queues dq <= DSPQUEUE_MAX_PROCESS_QUEUES.
Proof. intros [_ Ht] Hd. destruct (Ht d dq Hd) as [(-> & Hg & _) _]. split; [lia|]. by apply slots_small. Qed.
Lemma slots_none dq : num_queues dq = Z.of_nat (size (slots dq)) -> (num_queues dq =? 0) = true <-> slots dq = ∅.
Proof. intros ->. rewrite Z.eqb_eq, <- (map_size_empty_iff (slots dq)). lia. Qed.

(** Nothing is left of a queue that could not be made. *)
Lemma create_bail_accounted d s dq id l m sh sl (Q : unit -> process_queues -> Prop) R :
  let dq' := set_slots m (<[ id := INVALID_QUEUE ]> (slots dq)) (set_num (u32 (num_queues dq + 1)) dq) in
  accounted_but (Some d) s -> domain_queues s !! d = Some dq -> slots dq !! id = None -> max_queue dq <= m ->
  trace sh = trace s -> domain_queues sh = <[ d := dq' ]> (domain_queues s) ->
  live sh (create_order d id) sl l ->
  (forall s', accounted s' -> (forall d' i, queue_at s' d' i = queue_at s d' i) -> Q tt s') ->
  wp (create_bail ans d (Some id) l) Q R sl.
Proof.
  intros dq' Ha Hd Hf Hm Et Ed Hl HQ. unfold create_bail. wp_step. wp_step.
  pose proof (slots_bounded _ _ _ _ Ha Hd) as Hb. unfold DSPQUEUE_MAX_PROCESS_QUEUES in Hb.
  eapply wp_bail_order; [exact Hl|apply create_order_nodup|]. intros s1 (E1 & _ & H1). wp_step. wp_step. wp_step. do 2 wp_step.
  assert (Hl1 : domain_queues s1 !! d = Some dq') by (by rewrite E1, Ed, lookup_insert_eq).
  rewrite (set_slot_delete d id s1 dq') by done. rewrite (update_insert d _ _ (set_slots m (delete id (slots dq')) dq')) by (cbn; by rewrite lookup_insert_eq).
  cbn. rewrite lookup_insert_eq, insert_insert_eq. cbn.
  replace (u32 (u32 (num_queues dq + 1) - 1)) with (num_queues dq) by (rewrite (u32_small (num_queues dq + 1)) by lia; rewrite u32_small by lia; lia).
  set (t := set_domains _ _).
  assert (Hdt : domain_queues t = <[ d := set_slots m (slots dq) dq ]> (domain_queues s)).
  { cbn. rewrite E1, Ed, insert_insert_eq, delete_insert_id by done. by destruct dq. }
  destruct (accounted_grown (Some d) d s dq m t Ha Hd Hm) as [Hat Hqt]; [|done|].
  { intros r Hr. cbn. rewrite H1, Et, decide_False by (done || apply not_elem_of_nil). lia. }
  destruct Ha as [Hh Ht]. destruct (Ht d dq Hd) as [(Hn & Hg & He) _]. pose proof (slots_none dq Hn) as Hz.
  destruct (num_queues dq =? 0) eqn:E0.
  - wp_step. eapply accounted_destroy; [exact Hat|by rewrite Hdt, lookup_insert_eq|by apply Hz|]. intros s' Hs' Hds'. wp_step.
    apply HQ; [done|]. intros d' i. rewrite <- Hqt. unfold queue_at. rewrite Hds', Hdt. destruct (decide (d' = d)) as [->|Hne].
    + rewrite lookup_delete_eq, lookup_insert_eq. cbn. by rewrite (proj1 Hz eq_refl), lookup_empty.
    + by rewrite lookup_delete_ne, lookup_insert_ne.
  - wp_step. apply HQ; [|done]. destruct Hat as [Hath Hatt]. split; [done|]. intros d' dq1 Hl'. destruct (Hatt d' dq1 Hl') as [Hg' [Hs|[= ->]]]; [by split; [|left]|].
    split; [done|]. left. rewrite Hdt, lookup_insert_eq in Hl'. injection Hl' as <-. cbn. intros Hemp. by apply Hz in Hemp.
Qed.

(** What creating a queue comes to: a new queue in a free slot, or an error and every queue
    as it was. *)
Definition created (s s' : process_queues) (d : Z) (pc ec : bool) (r : Z * option Z) : Prop :=
  accounted s' /\
  match r with
  | (e, Some id) => e = AEE_SUCCESS /\ 0 <= id < DSPQUEUE_MAX_PROCESS_QUEUES /\ queue_at s d id = None /\
      (exists wc, queue_at s' d id = Some (InUse (new_queue pc ec (q_count s) wc))) /\
      forall d' i, (d', i) <> (d, id) -> queue_at s' d' i = queue_at s d' i
  | (e, None) => e <> AEE_SUCCESS /\ forall d' i, queue_at s' d' i = queue_at s d' i
  end.

(** The new queue: its resources are those taken. *)
Lemma new_queue_accounted d s dq id pc ec wc (l : list resource) t m : accounted_but (Some d) s -> domain_queues s !! d = Some dq ->
  slots dq !! id = None -> 0 <= id < DSPQUEUE_MAX_PROCESS_QUEUES -> have_dspsignal dq = false -> max_queue dq <= m -> id <= m ->
  (forall r, counted r -> held r (trace t) = held r (trace s) + (if decide (r ∈ l) then 1 else 0)) ->
  (forall r, r ∈ l <-> r ∈ (fun k => Res k d id) <$> queue_kinds pc) ->
  domain_queues t = <[ d := set_slots m (<[ id := InUse (new_queue pc ec (q_count s) wc) ]> (slots dq)) (set_num (u32 (num_queues dq + 1)) dq) ]> (domain_queues s) ->
  accounted t.
Proof.
  intros Ha Hd Hf Hid Hds Hm Him Hheld Hl Hdt. pose proof (slots_bounded _ _ _ _ Ha Hd) as Hb. destruct Ha as [Hh Ht].
  destruct (Ht d dq Hd) as [(Hn & Hg & He) _]. split.
  - intros r Hr. rewrite Hheld, Hh, Hdt, owns_insert by done. destruct (decide (r_domain r = d)) as [Hrd|Hrd].
    + change (owned_by (set_slots m (<[ id := InUse (new_queue pc ec (q_count s) wc) ]> (slots dq)) (set_num (u32 (num_queues dq + 1)) dq)) r)
        with (owned_by (set_slots m (<[ id := InUse (new_queue pc ec (q_count s) wc) ]> (slots dq)) dq) r).
      rewrite owned_insert by done. unfold owns. rewrite Hrd, Hd.
      rewrite (decide_ext _ (r_id r = id /\ r_kind r ∈ queue_kinds pc)).
      2:{ rewrite Hl, list_elem_of_fmap. destruct r as [k d0 i]; cbn in *; subst. split; [intros (k' & [= -> ->] & ?); done|intros [-> ?]; by exists k]. }
      rewrite queue_kinds_owned by done. destruct (decide (r_id r = id /\ r_kind r ∈ queue_kinds pc)) as [[Hi Hk]|Hno].
      * rewrite (bool_decide_eq_true_2 _ Hi), (bool_decide_eq_true_2 _ Hk).
        assert (owned_by dq r = false) as ->; [|done]. unfold owned_by. rewrite Hi, Hf, orb_false_r.
        unfold domain_owns. destruct (r_kind r) eqn:Ek; try done; destruct pc; by apply (bool_decide_eq_true_2 _) in Hk.
      * assert (bool_decide (r_id r = id) && bool_decide (r_kind r ∈ queue_kinds pc) = false) as ->; [|rewrite orb_false_r; lia].
        apply andb_false_iff. destruct (decide (r_id r = id)); [right|left]; apply bool_decide_eq_false_2; tauto.
    + rewrite decide_False; [lia|]. rewrite Hl, list_elem_of_fmap. intros (k & -> & _). done.
  - rewrite Hdt. intros d' dq' Hl'. apply lookup_insert_Some in Hl' as [[<- <-]|[Hne Hl']].
    + split; [|left; cbn; apply insert_non_empty]. split_and!; cbn; [| |by rewrite Hds].
      * rewrite map_size_insert_None by done. unfold DSPQUEUE_MAX_PROCESS_QUEUES in *. rewrite u32_small; lia.
      * apply map_Forall_insert_2; [split; [done|]; split; [done|by eexists]|].
        intros i x Hx. destruct (Hg i x Hx) as (? & ? & ?). split; [done|]. split; [cbn; lia|done].
    + destruct (Ht d' dq' Hl') as [Hg' [Hs|[= ->]]]; [by split; [|left]|done].
Qed.

Lemma create_accounted d flags req resp pc ec s : accounted s ->
  wp (create_in_domain p ans alloc ds_alloc d flags req resp pc ec) (fun r s' => created s s' d pc ec r) (fun _ _ => False) s.
Proof.
  intros Ha. unfold create_in_domain. wp_step. apply init_accounted; [done| |].
  { intros e s1 He Ha1 Hd1. rewrite (proj2 (Z.eqb_neq e 0)) by done. cbn [negb]. wp_step. split; [done|]. split; [done|].
    intros d' i. unfold queue_at. by rewrite Hd1. }
  intros s1 dq Ha1 Hc1 Hd1 Hq1. change (negb (0 =? 0)) with false. cbv iota. do 2 wp_step. rewrite Hd1.
  pose proof (slots_bounded _ _ _ _ Ha1 Hd1) as Hb. pose proof Ha1 as [_ Ht1]. destruct (Ht1 d dq Hd1) as [(Hn & Hg & He) Hs]. 
  wp_step.
  { wp_step. split; [|split; [done|by intros; rewrite Hq1]]. destruct Ha1 as [Hh1 _]. split; [done|].
    intros d' dq' Hl'. destruct (Ht1 d' dq' Hl') as [Hg' [?|[= ->]]]; [by split; [|left]|]. split; [done|]. left.
    rewrite Hd1 in Hl'. injection Hl' as <-. intros Hemp. rewrite Hemp, map_size_empty in Hn.
    unfold DSPQUEUE_MAX_PROCESS_QUEUES in *. lia. }
  do 2 wp_step. apply Z.leb_gt in H. destruct (free_slot_found (slots dq)) as (id & Ef & Hid & Hf); [lia|]. rewrite Ef.
  rewrite Hc1, (update_insert d _ s1 dq) by done. do 2 wp_step. wp_step. apply wp_with_locals.
  rewrite (update_insert d _ _ (set_num (u32 (num_queues dq + 1)) dq)) by (cbn; by rewrite lookup_insert_eq). cbn [domain_queues set_count set_domains].
  rewrite insert_insert_eq. cbn [slots max_queue set_num]. set (sh := set_domains _ _).
  set (dq' := set_slots (max_queue dq `max` id) _ _) in sh.
  eapply wp_mono; [apply (create_body_spec d flags req resp pc ec id (q_count s) (have_dspsignal dq) sh), live_refl| |].
  - intros _ [s3 l] (wc & s4 & l' & Hds & E3 & Hh & Hl). cbn in E3. subst s3. change (AEE_SUCCESS =? AEE_SUCCESS) with true. cbv iota. wp_step. cbn [fst].
    destruct Hh as (E4 & _ & Hh).
    rewrite (set_slot_insert d id _ s4 dq') by (rewrite E4; cbn; by rewrite lookup_insert_eq).
    set (t := set_domains _ _).
    assert (Hdt : domain_queues t = <[ d := set_slots (max_queue dq `max` id) (<[ id := InUse (new_queue pc ec (q_count s1) wc) ]> (slots dq)) (set_num (u32 (num_queues dq + 1)) dq) ]> (domain_queues s1)).
    { cbn. rewrite E4. cbn. rewrite !insert_insert_eq. rewrite Hc1. by destruct dq. }
    assert (Hqt : forall d' i, queue_at t d' i = if decide ((d', i) = (d, id)) then Some (InUse (new_queue pc ec (q_count s1) wc)) else queue_at s d' i).
    { intros d' i. rewrite <- Hq1. unfold queue_at. rewrite Hdt. destruct (decide (d' = d)) as [->|Hne].
      - rewrite lookup_insert_eq, Hd1. cbn. destruct (decide (i = id)) as [->|Hni].
        + rewrite lookup_insert_eq. by rewrite decide_True.
        + rewrite lookup_insert_ne by done. by rewrite decide_False by congruence.
      - rewrite lookup_insert_ne by done. by rewrite decide_False by congruence. }
    split; [|split; [done|split; [done|split; [by rewrite <- Hq1; unfold queue_at; rewrite Hd1|split]]]].
    + eapply (new_queue_accounted d s1 dq id pc ec wc l' t); [done|done|done|done|done|apply Z.le_max_l|apply Z.le_max_r|exact Hh|exact Hl|exact Hdt].
    + exists wc. rewrite Hqt, decide_True by done. by rewrite Hc1.
    + intros d' i Hne. by rewrite Hqt, decide_False.
  - intros e [s3 l] [Hne Hl]. rewrite (proj2 (Z.eqb_neq e AEE_SUCCESS)) by done. wp_step. cbn [fst snd] in *.
    eapply (create_bail_accounted d s1 dq id l (max_queue dq `max` id) sh s3); [done|done|done|apply Z.le_max_l|done|done|done|].
    intros s5 Ha5 Hq5. wp_step. split; [done|]. split; [done|]. intros. by rewrite Hq5, Hq1.
Qed.

(** ** Closing a queue *)
Lemma max_queue_ge sl i x : sl !! i = Some x -> 0 <= i < DSPQUEUE_MAX_PROCESS_QUEUES -> i <= last_used sl.
Proof.
  intros Hx Hi. unfold last_used, DSPQUEUE_MAX_PROCESS_QUEUES in *.
  assert (H : forall n m, i < Z.of_nat n -> i <= foldl (fun m i => if is_found (sl !! i) then i else m) m (seqZ 0 (Z.of_nat n))).
  { induction n as [|n IH]; intros m Hn; [lia|]. rewrite seqZ_S, foldl_app, Z.add_0_l. cbn [foldl].
    destruct (decide (i = Z.of_nat n)) as [->|Hne]; [unfold is_found; rewrite Hx; lia|]. specialize (IH m). destruct (is_found _); lia. }
  apply (H 64%nat). lia.
Qed.

Lemma wp_lift_close {L A} (m : Z -> M (process_queues * L) A) (Q : A -> process_queues * L -> Prop) R s0 s r l n :
  holding s0 s (r :: l) -> r ∉ l -> (forall s', holding s0 s' l -> wp (m 0) Q R (s', n)) -> wp (z ← lift (ask ans (Close r)); m z) Q R (s, n).
Proof. intros Hh Hr H. do 2 wp_step. apply wp_ask. rewrite Hgive by done. intros z ->. by apply H, holding_give_head. Qed.
Lemma wp_lift_ask {L A} (m : Z -> M (process_queues * L) A) (Q : A -> process_queues * L -> Prop) R s0 s l n w d id :
  holding s0 s l -> gives_back (Ask w d id) -> (forall s', holding s0 s' l -> wp (m 0) Q R (s', n)) -> wp (z ← lift (ask ans (Ask w d id)); m z) Q R (s, n).
Proof. intros Hh Hr H. do 2 wp_step. apply wp_ask. rewrite Hgive by done. intros z ->. by apply H, holding_ask. Qed.

Lemma wp_checked_close (Q : unit -> process_queues * Z -> Prop) R s0 s r l n :
  holding s0 s (r :: l) -> r ∉ l -> (forall s', holding s0 s' l -> Q tt (s', 0)) -> wp (checked ans (Close r)) Q R (s, n).
Proof. intros Hh Hr H. unfold checked. eapply wp_lift_close; [done|done|]. intros s' Hs. do 2 wp_step. by apply H. Qed.
Lemma wp_checked_ask (Q : unit -> process_queues * Z -> Prop) R s0 s l n w d id :
  holding s0 s l -> gives_back (Ask w d id) -> (forall s', holding s0 s' l -> Q tt (s', 0)) -> wp (checked ans (Ask w d id)) Q R (s, n).
Proof. intros Hh Hr H. unfold checked. eapply wp_lift_ask; [done|done|]. intros s' Hs. do 2 wp_step. by apply H. Qed.
Lemma wp_lift_give (Q : unit -> process_queues * Z -> Prop) R s0 s r l n :
  holding s0 s (r :: l) -> r ∉ l -> (forall s', holding s0 s' l -> Q tt (s', n)) -> wp (lift (give ans true r)) Q R (s, n).
Proof. intros Hh Hr H. wp_step. eapply give_closes; [done|done|]. intros s' Hs. by apply H. Qed.
Lemma wp_lift_give_all order (Q : unit -> process_queues * Z -> Prop) R s0 s l n :
  holding s0 s (order ++ l) -> NoDup (order ++ l) -> (forall s', holding s0 s' l -> Q tt (s', n)) -> wp (lift (give_back ans order order)) Q R (s, n).
Proof. intros Hh Hr H. wp_step. eapply wp_give_all; [done|done|]. intros s' Hs. by apply H. Qed.
Lemma holding_uncounted s0 s l r z : ~ counted r -> holding s0 s l -> holding s0 (set_trace (trace s ++ [(Close r, z)]) s) l.
Proof. intros Hn (? & ? & H). split_and!; [done..|]. intros r' Hr. cbn. rewrite held_app, H by done. cbn. rewrite (decide_False (P := r' = r)) by (intros ->; by apply Hn). lia. Qed.

(** What a queue owns, in the order of the closing. *)
Definition close_order (d id : Z) (q : queue_obj) : list resource :=
  (if o_error_thread q then [Res KErrorThread d id] else []) ++ (if o_packet_callback q then [Res KCallback d id] else []) ++
  [Res KDspQueue d id; Res KUserMap d id; Res KUserQueue d id; Res KPacketCond d id; Res KPacketMutex d id; Res KSpaceMutex d id; Res KMutex d id; Res KQueue d id].
Lemma close_order_nodup d id q : NoDup (close_order d id q).
Proof. unfold close_order. destruct (o_error_thread q), (o_packet_callback q); cbn; repeat (apply NoDup_cons; split; [not_held|]); apply NoDup_nil_2. Qed.
Lemma close_order_spec d id q r : o_driver q = false -> counted r ->
  r ∈ close_order d id q <-> r_domain r = d /\ r_id r = id /\ queue_owns q (r_kind r) = true.
Proof.
  intros Hd Hr. unfold close_order. rewrite !elem_of_app. split.
  - intros [H|[H|H]]; [destruct (o_error_thread q) eqn:E; [|by apply not_elem_of_nil in H]|destruct (o_packet_callback q) eqn:E; [|by apply not_elem_of_nil in H]|];
      repeat (apply elem_of_cons in H as [->|H]; [cbn; rewrite ?Hd; by split_and!|]); by apply not_elem_of_nil in H.
  - destruct r as [k d' i]; cbn. intros (-> & -> & Hk). unfold counted in Hr. destruct k; cbn in Hk, Hr; try discriminate Hk; try done; try (right; right; listed; fail).
    + rewrite Hk. right; left; listed.
    + rewrite Hk. left; listed.
Qed.

(** The table without a slot that was marked. *)
Lemma owned_delete dq id q m n r : slots dq !! id = Some (InUse q) ->
  owned_by (set_num n (set_slots m (delete id (slots dq)) dq)) r = owned_by dq r && negb (bool_decide (r_id r = id) && queue_owns q (r_kind r)).
Proof.
  intros Hf. unfold owned_by. cbn. destruct (bool_decide_reflect (r_id r = id)) as [Hi|Hi]; cbn.
  - rewrite Hi, lookup_delete_eq, Hf, orb_false_r. destruct (domain_owns (have_dspsignal dq) (r_kind r)) eqn:Ed; cbn; [|by destruct (queue_owns q (r_kind r))].
    assert (queue_owns q (r_kind r) = false) as -> by (by destruct (r_kind r)). cbn. by rewrite orb_false_r, andb_true_r.
  - rewrite lookup_delete_ne by done. by rewrite andb_true_r.
Qed.

(** After the slot was freed: the queue's own memory is still held. *)
Lemma freed_accounted d s dq id q m t l : accounted s -> domain_queues s !! d = Some dq -> slots dq !! id = Some (InUse q) ->
  (forall i x, delete id (slots dq) !! i = Some x -> i <= m) ->
  (forall r, counted r -> held r (trace t) = held r (trace s) - (if decide (r ∈ close_order d id q) then 1 else 0) + (if decide (r ∈ l) then 1 else 0)) ->
  domain_queues t = <[ d := set_num (u32 (num_queues dq - 1)) (set_slots m (delete id (slots dq)) dq) ]> (domain_queues s) ->
  accounted_with (Some d) l t.
Proof.
  intros Ha Hd Hf Hm Hheld Hdt. pose proof Ha as [Hh Ht]. destruct (Ht d dq Hd) as [(Hn & Hg & He) _].
  pose proof (slots_bounded _ _ _ _ Ha Hd) as Hb. destruct (Hg id _ Hf) as (_ & _ & q' & [= <-] & Hq & _). split.
  - intros r Hr. rewrite Hheld, Hh, Hdt, owns_insert by done.
    rewrite (decide_ext (r ∈ close_order d id q) (r_domain r = d /\ r_id r = id /\ queue_owns q (r_kind r) = true)) by (by apply close_order_spec).
    destruct (decide (r_domain r = d)) as [Hrd|Hrd]; [|rewrite (decide_False (P := r_domain r = d /\ _)) by tauto; lia].
    rewrite (owned_delete dq id q m) by done. unfold owns. rewrite Hrd, Hd.
    destruct (decide (d = d /\ r_id r = id /\ queue_owns q (r_kind r) = true)) as [(_ & Hi & Hk)|Hno].
    + rewrite (bool_decide_eq_true_2 _ Hi), Hk, andb_false_r.
      assert (owned_by dq r = true) as ->; [|lia]. unfold owned_by. by rewrite Hi, Hf, Hk, orb_true_r.
    + assert (bool_decide (r_id r = id) && queue_owns q (r_kind r) = false) as ->; [|rewrite andb_true_r; lia].
      apply andb_false_iff. destruct (decide (r_id r = id)); [right; apply not_true_is_false; tauto|left; by apply bool_decide_eq_false_2].
  - rewrite Hdt. intros d' dq' Hl'. apply lookup_insert_Some in Hl' as [[<- <-]|[Hne Hl']].
    + split; [|by right]. split_and!; cbn.
      * unfold DSPQUEUE_MAX_PROCESS_QUEUES in *. rewrite map_size_delete_Some by (by eexists).
        assert (size (slots dq) <> 0%nat) by (intros E; apply map_size_empty_inv in E; rewrite E, lookup_empty in Hf; done).
        rewrite u32_small; lia.
      * intros i x Hx. pose proof (Hm i x Hx) as Him. apply lookup_delete_Some in Hx as [_ Hx]. destruct (Hg i x Hx) as (? & ? & ?). by split.
      * intros Hds. rewrite (He Hds) in Hf. by rewrite lookup_empty in Hf.
    + destruct (Ht d' dq' Hl') as [Hg' [Hs|[=]]]. by split; [|left].
Qed.

(** A step of the closing that gives back [taken]. *)
Definition releases (m : M (process_queues * Z) unit) (taken : list resource) : Prop :=
  forall s0 s l n (Q : unit -> process_queues * Z -> Prop) R, NoDup (taken ++ l) -> holding s0 s (taken ++ l) ->
    (forall s' n', (n = 0 -> n' = 0) -> holding s0 s' l -> Q tt (s', n')) -> wp m Q R (s, n).
Lemma releases_none : releases (mret tt) [].
Proof. intros s0 s l n Q R _ Hh H. wp_step. by apply H. Qed.
Lemma releases_all order : releases (lift (give_back ans order order)) order.
Proof. intros s0 s l n Q R Hnd Hh H. eapply wp_lift_give_all; [exact Hh|done|]. intros s' Hs. by apply H. Qed.
Lemma releases_give r : releases (lift (give ans true r)) [r].
Proof. intros s0 s l n Q R Hnd Hh H. apply NoDup_cons in Hnd as [Hr _]. eapply wp_lift_give; [exact Hh|done|]. intros s' Hs. by apply H. Qed.
Lemma releases_checked r : releases (checked ans (Close r)) [r].
Proof. intros s0 s l n Q R Hnd Hh H. apply NoDup_cons in Hnd as [Hr _]. eapply wp_checked_close; [exact Hh|done|]. intros s' Hs. by apply H. Qed.
Lemma releases_bind m1 m2 t1 t2 : releases m1 t1 -> releases m2 t2 -> releases (_ ← m1; m2) (t1 ++ t2).
Proof.
  intros H1 H2 s0 s l n Q R Hnd Hh H. wp_step. eapply H1; [by rewrite app_assoc|by rewrite app_assoc|]. intros s1 n1 Hn1 Hh1.
  rewrite <- app_assoc in Hnd. apply NoDup_app in Hnd as (_ & _ & Hnd). eapply H2; [exact Hnd|exact Hh1|].
  intros s2 n2 Hn2 Hh2. apply H; [tauto|done].
Qed.
Lemma releases_if (b : bool) m1 m2 t1 t2 : releases m1 t1 -> releases m2 t2 -> releases (if b then m1 else m2) (if b then t1 else t2).
Proof. by destruct b. Qed.

Section close_steps.
Context (d id : Z) (q : queue_obj) (Hq : o_driver q = false).
Lemma releases_error_thread : releases (z ← lift (ask ans (Close (Res KErrorThread d id)));
    _ ← VERIFYC (negb ((z =? EDEADLK) || (z =? EINVAL))) AEE_ERPC; setl (fun _ => AEE_SUCCESS)) [Res KErrorThread d id].
Proof.
  intros s0 s l n Q R Hnd Hh H. apply NoDup_cons in Hnd as [Hr _]. eapply wp_lift_close; [exact Hh|done|]. intros s' Hs. do 2 wp_step; [|done]. wp_step. by apply H.
Qed.
Lemma releases_cancel dq : releases (cancel_callers p d id q dq) [].
Proof. unfold cancel_callers. rewrite Hq. apply releases_none. Qed.
Lemma releases_callback : releases (join_callback ans d id q) (if o_packet_callback q then [Res KCallback d id] else []).
Proof.
  unfold join_callback. apply (releases_if (o_packet_callback q)); [|apply releases_none]. intros s0 s l n Q R Hnd Hh H.
  apply NoDup_cons in Hnd as [Hr _]. eapply wp_lift_close; [exact Hh|done|]. intros s1 Hs. do 2 wp_step. cbn [negb andb Z.eqb].
  do 2 wp_step. eapply wp_lift_ask; [exact Hs|done|]. intros s2 Hs2. wp_step; [by apply H|done].
Qed.
Lemma releases_conds : releases (lift (give_back ans [Res KPacketCond d id; Res KSpaceCond d id] [Res KPacketCond d id; Res KSpaceCond d id])) [Res KPacketCond d id].
Proof.
  intros s0 s l n Q R Hnd Hh H. apply NoDup_cons in Hnd as [Hr _]. wp_step. cbn [give_back]. wp_step.
  rewrite bool_decide_eq_true_2 by listed. eapply give_closes; [exact Hh|done|]. intros s1 Hs1. wp_step.
  rewrite bool_decide_eq_true_2 by listed. unfold give. wp_step. apply wp_ask. intros z _. wp_step. wp_step. apply H; [done|].
  apply holding_uncounted; [by intros Hc; apply Hc|done].
Qed.
End close_steps.

Lemma marked_holding d id q s s1 dq : domain_queues s !! d = Some dq -> slots dq !! id = Some (InUse q) -> q_count s1 = q_count s ->
  (forall r, counted r -> held r (trace s1) = held r (trace s)) -> domain_queues s1 = domain_queues s ->
  let t := set_slot d id (Some INVALID_QUEUE) s1 in
  domain_queues t = <[ d := set_slots (max_queue dq) (<[ id := INVALID_QUEUE ]> (slots dq)) dq ]> (domain_queues s) /\
  holding (given (close_order d id q) t) t (close_order d id q) /\
  forall r, counted r -> held r (trace (given (close_order d id q) t)) = held r (trace s) - (if decide (r ∈ close_order d id q) then 1 else 0).
Proof.
  intros Hd Hf Hc Hheld Hd1 t. split; [|split; [apply holding_given, close_order_nodup|]].
  - unfold t. rewrite (set_slot_insert d id _ s1 dq) by (by rewrite Hd1). cbn. by rewrite Hd1.
  - intros r Hr. rewrite held_given by apply close_order_nodup. cbn. by rewrite Hheld.
Qed.

Lemma NoDup_suffix {A} (l1 l2 : list A) : NoDup (l1 ++ l2) -> NoDup l2.
Proof. intros H. by apply NoDup_app in H as (_ & _ & ?). Qed.

(** Closing a queue frees its slot and gives back what it had; the last one of a domain
    takes the domain down. *)
Definition closed_queue (s s' : process_queues) (d id : Z) : Prop :=
  accounted s' /\ queue_at s' d id = None /\ forall d' i, (d', i) <> (d, id) -> queue_at s' d' i = queue_at s d' i.
Lemma close_accounted d id q s : accounted s -> IS_VALID_EFFECTIVE_DOMAIN_ID d = true -> queue_at s d id = Some (InUse q) ->
  wp (dspqueue_close p ans d id) (fun r s' => r = Some AEE_SUCCESS /\ closed_queue s s' d id) (fun _ _ => False) s.
Proof.
  intros Ha Hv Hqa. unfold dspqueue_close. do 2 wp_step. unfold queue_at in Hqa.
  destruct (domain_queues s !! d) as [dq|] eqn:Hd; [|done]. cbn in Hqa.
  change (Some dq ≫= _) with (slots dq !! id ≫= fun sl => Some (dq, sl)). rewrite Hqa. change (Some (InUse q) ≫= _) with (Some (dq, InUse q)). cbv iota beta. rewrite Hv. cbn [negb].
  pose proof Ha as [_ Ht]. destruct (Ht d dq Hd) as [(Hn & Hg & He) _]. destruct (Hg id _ Hqa) as (Hid & _ & q' & [= <-] & Hq & _).
  wp_step. apply wp_with_locals. unfold close_body.
  wp_step.
  apply (wp_mono _ (fun _ sl => sl.2 = 0 /\ holding s sl.1 []) _ (fun _ _ => False)); [| |done].
  { wp_step; [|wp_step; split; [done|apply holding_refl]].
    wp_step. eapply wp_checked_ask; [apply holding_refl|done|]. intros s1 H1. eapply wp_lift_ask; [exact H1|done|]. intros s2 H2. wp_step; done. }
  intros _ [s1 n1] [Hn1 H1]. cbn in Hn1. subst n1. cbn [fst] in H1. eapply wp_lift_ask; [exact H1|done|]. clear H1 s1. intros s1 H1.
  wp_step. wp_step; [|done]. do 2 wp_step. wp_step.
  destruct H1 as (E1 & Ec1 & Hh1).
  destruct (marked_holding d id q s s1 dq) as (Ht1 & Hh & Hgiven); [done|done|done| |done|].
  { intros r Hr. rewrite Hh1, decide_False by (done || apply not_elem_of_nil). lia. }
  set (t := set_slot d id (Some INVALID_QUEUE) s1) in *. set (s0 := given (close_order d id q) t) in *.
  pose proof (close_order_nodup d id q) as Hnd. unfold close_order in Hnd, Hh. rewrite Hq.
  pose (k0 := [Res KDspQueue d id; Res KUserMap d id; Res KUserQueue d id; Res KPacketCond d id; Res KPacketMutex d id; Res KSpaceMutex d id; Res KMutex d id; Res KQueue d id]).
  wp_step. apply (releases_if (o_error_thread q) _ _ _ _ (releases_error_thread d id) releases_none s0 _ ((if o_packet_callback q then [Res KCallback d id] else []) ++ k0));
    [exact Hnd|exact Hh|]. clear Hh. intros t1 n1 Hn1 Hh. apply NoDup_app in Hnd as (_ & _ & Hnd).
  wp_step. apply (releases_cancel d id q Hq dq s0 _ ((if o_packet_callback q then [Res KCallback d id] else []) ++ k0)); [exact Hnd|exact Hh|].
  clear Hh. intros t2 n2 Hn2 Hh. wp_step. apply (releases_callback d id q s0 _ k0); [exact Hnd|exact Hh|]. clear Hh. intros t3 n3 Hn3 Hh.
  apply NoDup_app in Hnd as (_ & _ & Hnd).
  wp_step. apply (releases_if (negb (dsp_error dq =? 0)) _ _ _ _ (releases_all [Res KDspQueue d id; Res KUserMap d id])
    (releases_bind _ _ _ _ (releases_checked (Res KDspQueue d id)) (releases_checked (Res KUserMap d id))) s0 _ (drop 2 k0)); [by case_match|by case_match|].
  clear Hh. intros t4 n4 Hn4 Hh. assert (Hnd' : NoDup (drop 2 k0)) by exact (NoDup_suffix (firstn 2 k0) (drop 2 k0) Hnd). clear Hnd; rename Hnd' into Hnd.
  wp_step. apply (releases_give (Res KUserQueue d id) s0 _ (drop 3 k0)); [exact Hnd|exact Hh|]. clear Hh. intros t5 n5 Hn5 Hh.
  assert (Hnd' : NoDup (drop 3 k0)) by exact (NoDup_suffix (firstn 1 (drop 2 k0)) (drop 3 k0) Hnd). clear Hnd; rename Hnd' into Hnd. cbn [negb andb].
  wp_step. wp_step. wp_step. apply (releases_conds d id s0 _ (drop 4 k0)); [exact Hnd|exact Hh|]. clear Hh. intros t6 n6 Hn6 Hh.
  assert (Hnd' : NoDup (drop 4 k0)) by exact (NoDup_suffix (firstn 1 (drop 3 k0)) (drop 4 k0) Hnd). clear Hnd; rename Hnd' into Hnd.
  wp_step. apply (releases_all [Res KPacketMutex d id; Res KSpaceMutex d id; Res KMutex d id] s0 _ [Res KQueue d id]); [exact Hnd|exact Hh|]. clear Hh. intros t7 n7 Hn7 Hh.
  assert (n7 = 0) by tauto. subst n7. clear Hn1 Hn2 Hn3 Hn4 Hn5 Hn6 Hn7 t1 t2 t3 t4 t5 t6 n1 n2 n3 n4 n5 n6.
  do 9 wp_step.
  pose (dq1 := set_num (u32 (num_queues dq - 1)) (set_slots (last_used (delete id (slots dq))) (delete id (slots dq)) dq)).
  destruct Hh as (E7 & _ & Hh7). change (domain_queues s0) with (domain_queues t) in E7. rewrite Ht1 in E7.
  rewrite (set_slot_delete d id t7 (set_slots (max_queue dq) (<[ id := INVALID_QUEUE ]> (slots dq)) dq)) by (by rewrite E7, lookup_insert_eq).
  cbn [slots max_queue set_slots]. rewrite delete_insert_eq.
  rewrite (update_insert d (fun dq0 => set_slots (last_used (slots dq0)) (slots dq0) dq0) _ (set_slots (max_queue dq) (delete id (slots dq)) dq)) by (cbn; by rewrite lookup_insert_eq).
  rewrite (update_insert d _ _ (set_slots (last_used (delete id (slots dq))) (delete id (slots dq)) dq)) by (cbn; by rewrite lookup_insert_eq).
  set (t9 := set_domains _ _).
  assert (Hd9 : domain_queues t9 = <[ d := dq1 ]> (domain_queues s)).
  { cbn. rewrite !insert_insert_eq, E7, insert_insert_eq. done. }
  assert (Ha9 : accounted_with (Some d) [Res KQueue d id] t9).
  { apply (freed_accounted d s dq id q (last_used (delete id (slots dq)))); [done|done|done| | |done].
    - intros i x Hx. eapply max_queue_ge; [exact Hx|]. apply lookup_delete_Some in Hx as [_ Hx]. by destruct (Hg i x Hx).
    - intros r Hr. change (trace t9) with (trace t7). by rewrite Hh7, Hgiven. }
  assert (Hq9 : queue_at t9 d id = None /\ forall d' i, (d', i) <> (d, id) -> queue_at t9 d' i = queue_at s d' i).
  { unfold queue_at. rewrite Hd9. split; [rewrite lookup_insert_eq; cbn; by rewrite lookup_delete_eq|]. intros d' i Hne.
    destruct (decide (d' = d)) as [->|Hnd']; [|by rewrite lookup_insert_ne]. rewrite lookup_insert_eq, Hd. cbn.
    rewrite lookup_delete_ne by congruence. done. }
  clearbody t9. clear Hnd Hh7 E7 t7 Hgiven s0 Ht1 t H Hh1 Ec1 E1 s1 k0.
  assert (Hend : forall t, accounted_with None [Res KQueue d id] t -> (forall d' i, queue_at t d' i = queue_at t9 d' i) ->
    wp (lift (give ans true (Res KQueue d id))) (fun (_ : unit) (sl : process_queues * Z) =>
       wp (mret (Some (if AEE_SUCCESS =? AEE_SUCCESS then sl.2 else AEE_SUCCESS)))
         (fun r s' => r = Some AEE_SUCCESS /\ closed_queue s s' d id) (fun _ _ => False) sl.1) (fun (e : Z) (sl : process_queues * Z) =>
       wp (mret (Some (if e =? AEE_SUCCESS then sl.2 else e))) (fun r s' => r = Some AEE_SUCCESS /\ closed_queue s s' d id) (fun _ _ => False) sl.1) (t, 0)).
  { intros t [Hht Htt] Hqt. unfold give. do 2 wp_step. apply wp_ask. rewrite Hgive by done. intros z ->. do 2 wp_step. split; [done|].
    split; [split; [|done]|].
    - intros r Hr. cbn. rewrite held_app, Hht by done. cbn. count.
    - destruct Hq9 as [Hq9 Hq9']. split; [etrans; [apply (Hqt d id)|done]|].
      intros d' i Hne. etrans; [apply (Hqt d' i)|by apply Hq9']. }
  do 3 wp_step. rewrite Hd9, lookup_insert_eq. pose proof Ha9 as [_ Ht9].
  destruct (Ht9 d dq1) as [(Hn9 & _ & _) _]; [by rewrite Hd9, lookup_insert_eq|]. pose proof (slots_none dq1 Hn9) as Hz. wp_step. wp_step.
  - do 2 wp_step. eapply (destroy_accounted_with d t9 dq1); [exact Ha9|by rewrite Hd9, lookup_insert_eq|by apply Hz|].
    intros t Hat _ Hdt. wp_step. apply Hend; [done|]. intros d' i. unfold queue_at. rewrite Hdt. destruct (decide (d' = d)) as [->|Hne]; [|by rewrite lookup_delete_ne].
    rewrite lookup_delete_eq, Hd9, lookup_insert_eq. cbn -[dq1]. by rewrite (proj1 Hz), lookup_empty.
  - wp_step. apply Hend; [|done]. destruct Ha9 as [Hh9 _]. split; [done|]. intros d' dq' Hl'. destruct (Ht9 d' dq' Hl') as [Hg' [Hs|[= ->]]]; [by split; [|left]|].
    split; [done|]. left. rewrite Hd9, lookup_insert_eq in Hl'. injection Hl' as <-. intros Hemp. apply Hz in Hemp. congruence.
Qed.

(** ** Errors *)

(** The slot of a queue in use changes, and with it what the queue owns. *)
Lemma slot_changed d s dq id q q' t : accounted s -> domain_queues s !! d = Some dq -> slots dq !! id = Some (InUse q) ->
  o_driver q' = false -> (o_error_thread q' = true -> dsp_error dq <> 0) ->
  (forall r, counted r -> held r (trace t) = held r (trace s) +
     (if decide (r_domain r = d /\ r_id r = id) then (if queue_owns q' (r_kind r) then 1 else 0) - (if queue_owns q (r_kind r) then 1 else 0) else 0)) ->
  domain_queues t = <[ d := set_slots (max_queue dq) (<[ id := InUse q' ]> (slots dq)) dq ]> (domain_queues s) ->
  accounted t.
Proof.
  intros Ha Hd Hf Hdr Het Hheld Hdt. destruct Ha as [Hh Ht]. destruct (Ht d dq Hd) as [(Hn & Hg & He) Hs]. split.
  - intros r Hr. rewrite Hheld, Hh, Hdt, owns_insert by done. destruct (decide (r_domain r = d)) as [Hrd|Hrd].
    + unfold owns. rewrite Hrd, Hd. unfold owned_by at 1 2. cbn. destruct (decide (r_id r = id)) as [Hi|Hi].
      * rewrite (decide_True (P := d = d /\ r_id r = id)), Hi, Hf, lookup_insert_eq by done.
        destruct (domain_owns (have_dspsignal dq) (r_kind r)) eqn:Ek; cbn; [|lia].
        assert (queue_owns q (r_kind r) = false /\ queue_owns q' (r_kind r) = false) as [-> ->] by (by destruct (r_kind r)). lia.
      * rewrite (decide_False (P := d = d /\ r_id r = id)) by tauto. rewrite lookup_insert_ne by congruence. lia.
    + rewrite decide_False by tauto. lia.
  - rewrite Hdt. apply map_Forall_insert_2; [|done]. split; [|left; cbn; apply insert_non_empty].
    split_and!; cbn; [by rewrite map_size_insert_Some by (by eexists)| |].
    + apply map_Forall_insert_2; [|done]. destruct (Hg id _ Hf) as (? & ? & _). split; [done|]. split; [done|]. by exists q'.
    + intros Hds. rewrite (He Hds) in Hf. by rewrite lookup_empty in Hf.
Qed.

Definition both_cancelled (q : queue_obj) : Prop :=
  has_bit (o_packet_mask q) SIGNAL_BIT_CANCEL = true /\ has_bit (o_space_mask q) SIGNAL_BIT_CANCEL = true.
Lemma cancelled_both q : o_driver q = false -> both_cancelled (cancelled q).
Proof.
  intros Hq. unfold cancelled. rewrite Hq. unfold both_cancelled, has_bit. cbn.
  assert (H : forall x, negb (Z.land (Z.lor x SIGNAL_BIT_CANCEL) SIGNAL_BIT_CANCEL =? 0) = true); [|by rewrite !H].
  intros x. rewrite Z.land_lor_distr_l, Z.land_diag. destruct (Z.eqb_spec (Z.lor (Z.land x SIGNAL_BIT_CANCEL) SIGNAL_BIT_CANCEL) 0) as [E|]; [|done].
  by apply Z.lor_eq_0_iff in E as [_ E].
Qed.

(** One queue of a failed domain: cancelled, with a thread for its callback at most. *)
Definition failed_as (o o' : option slot) : Prop :=
  match o with
  | Some (InUse q) => exists th, (th = true -> o_error_callback q = true) /\ o' = Some (InUse (if th : bool then with_error_thread (cancelled q) else cancelled q))
  | o => o' = o
  end.
Lemma fail_queue_spec d id s dq : accounted s -> domain_queues s !! d = Some dq -> dsp_error dq <> 0 ->
  (forall q, slots dq !! id = Some (InUse q) -> o_error_thread q = false) ->
  wp (fail_queue ans d id) (fun _ s' => accounted s' /\ (exists sl, domain_queues s' = <[ d := set_slots (max_queue dq) sl dq ]> (domain_queues s) /\
    failed_as (slots dq !! id) (sl !! id) /\ forall i, i <> id -> sl !! i = slots dq !! i)) (fun _ _ => False) s.
Proof.
  intros Ha Hd He Hth. unfold fail_queue. do 2 wp_step. rewrite Hd. change (Some dq ≫= _) with (slots dq !! id).
  assert (Hsame : forall m, m = mret tt -> failed_as (slots dq !! id) (slots dq !! id) -> wp m (fun (_ : unit) s' => accounted s' /\ (exists sl, domain_queues s' = <[ d := set_slots (max_queue dq) sl dq ]> (domain_queues s) /\
    failed_as (slots dq !! id) (sl !! id) /\ forall i, i <> id -> sl !! i = slots dq !! i)) (fun _ _ => False) s).
  { intros m -> Hf. wp_step. split; [done|]. exists (slots dq). split; [|done]. rewrite insert_id; [done|]. rewrite Hd. by destruct dq. }
  destruct (slots dq !! id) as [[|q]|] eqn:Hf; [by apply Hsame|clear Hsame|by apply Hsame].
  pose proof Ha as [_ Ht]. destruct (Ht d dq Hd) as [(_ & Hg & _) _]. destruct (Hg id _ Hf) as (_ & _ & q0 & [= <-] & Hq & _). specialize (Hth q eq_refl).
  assert (Hc : o_driver (cancelled q) = false /\ o_error_thread (cancelled q) = false /\ o_error_callback (cancelled q) = o_error_callback q /\
    (forall k, queue_owns (cancelled q) k = queue_owns q k)) by (unfold cancelled; rewrite Hq; cbn; split_and!; [done|done|done|intros []; cbn; by rewrite ?Hq]).
  destruct Hc as (Hc1 & Hc2 & Hc3 & Hc4). do 2 wp_step. rewrite (set_slot_insert d id _ s dq) by done.
  set (t := set_domains _ _).
  assert (Hat : accounted t).
  { apply (slot_changed d s dq id q (cancelled q) t); [done|done|done|done|by rewrite Hc2| |done]. intros r Hr. rewrite Hc4. cbn. case_decide; lia. }
  rewrite Hc3. wp_step.
  - wp_step. apply wp_ask. intros z _. wp_step.
    + wp_step. set (t2 := set_trace _ t). rewrite (set_slot_insert d id _ t2 (set_slots (max_queue dq) (<[ id := InUse (cancelled q) ]> (slots dq)) dq)) by (cbn; by rewrite lookup_insert_eq).
      cbn [slots max_queue set_slots]. rewrite insert_insert_eq. split.
      * eapply (slot_changed d t (set_slots (max_queue dq) (<[ id := InUse (cancelled q) ]> (slots dq)) dq) id (cancelled q) (with_error_thread (cancelled q)));
          [done|cbn; by rewrite lookup_insert_eq|cbn; by rewrite lookup_insert_eq|done|done| |cbn; by rewrite !insert_insert_eq].
        intros r Hr. cbn. rewrite held_app. cbn. assert (z = 0) as -> by by apply Z.eqb_eq. destruct r as [k d' i]; cbn.
        destruct (decide (d' = d /\ i = id)) as [[-> ->]|Hno]; [|rewrite decide_False by (intros [[= -> -> ->] _]; by apply Hno); lia].
        destruct (decide (Res k d id = Res KErrorThread d id /\ 0 = 0)) as [[[= ->] _]|Hk]; [cbn; rewrite Hc2; lia|]. destruct k; try (cbn; lia). by destruct Hk.
      * exists (<[ id := InUse (with_error_thread (cancelled q)) ]> (slots dq)). split; [cbn; by rewrite !insert_insert_eq|].
        rewrite lookup_insert_eq. split; [by exists true|]. intros i Hi. by rewrite lookup_insert_ne.
    + wp_step. split.
      * eapply accounted_holding; [exact Hat|]. apply holding_open; [apply holding_refl|by apply Z.eqb_neq].
      * exists (<[ id := InUse (cancelled q) ]> (slots dq)). rewrite lookup_insert_eq. split; [done|]. split; [by exists false|]. intros i Hi. by rewrite lookup_insert_ne.
  - wp_step. split; [done|]. exists (<[ id := InUse (cancelled q) ]> (slots dq)). rewrite lookup_insert_eq. split; [done|]. split; [by exists false|]. intros i Hi. by rewrite lookup_insert_ne.
Qed.
Lemma fail_queues_spec d ids : forall s dq, NoDup ids -> accounted s -> domain_queues s !! d = Some dq -> dsp_error dq <> 0 ->
  (forall i q, i ∈ ids -> slots dq !! i = Some (InUse q) -> o_error_thread q = false) ->
  wp (fail_queues ans d ids) (fun _ s' => accounted s' /\ (exists sl, domain_queues s' = <[ d := set_slots (max_queue dq) sl dq ]> (domain_queues s) /\
    (forall i, i ∈ ids -> failed_as (slots dq !! i) (sl !! i)) /\ forall i, i ∉ ids -> sl !! i = slots dq !! i)) (fun _ _ => False) s.
Proof.
  induction ids as [|id ids IH]; intros s dq Hnd Ha Hd He Hth; cbn [fail_queues].
  { wp_step. split; [done|]. exists (slots dq). split; [rewrite insert_id; [done|]; rewrite Hd; by destruct dq|]. split; [|done]. by intros i Hi%not_elem_of_nil. }
  apply NoDup_cons in Hnd as [Hid Hnd]. wp_step.
  eapply wp_mono; [apply (fail_queue_spec d id s dq)|..]; [done|done|done|by intros q Hq; eapply Hth; [by left|]| |done].
  intros _ s1 (Ha1 & sl & Hd1 & Hf & Ho).
  eapply wp_mono; [apply (IH s1 (set_slots (max_queue dq) sl dq))|..]; [done|done|by rewrite Hd1, lookup_insert_eq|done| | |done].
  { intros i q Hi Hq. cbn in Hq. rewrite Ho in Hq by (intros ->; done). by eapply Hth; [right|]. }
  intros _ s2 (Ha2 & sl2 & Hd2 & Hf2 & Ho2). split; [done|]. exists sl2. split; [by rewrite Hd2, Hd1, insert_insert_eq|]. cbn in Hf2, Ho2. split.
  - intros i [->|Hi]%elem_of_cons; [by rewrite Ho2|]. rewrite <- Ho by (intros ->; done). by apply Hf2.
  - intros i Hi. apply not_elem_of_cons in Hi as [Hi1 Hi2]. by rewrite Ho2, Ho.
Qed.

Definition noted (error : Z) : Z := if (error =? ERROR_DIED) || (error =? -1) then AEE_ECONNRESET else error.
Lemma accounted_error d s dq e : accounted s -> domain_queues s !! d = Some dq -> e <> 0 -> accounted (update_domain d (set_error e) s).
Proof.
  intros Ha Hd He. rewrite (update_insert d _ s dq) by done. destruct Ha as [Hh Ht]. destruct (Ht d dq Hd) as [(Hn & Hg & Hs) Hor]. split.
  - intros r Hr. cbn. rewrite Hh, owns_insert by done. case_decide as Hrd; [|done]. unfold owns. by rewrite Hrd, Hd.
  - cbn. apply map_Forall_insert_2; [|done]. split; [|done]. split_and!; [done| |done]. intros i x Hx. destruct (Hg i x Hx) as (? & ? & q & -> & ? & ?). split; [done|]. split; [done|]. by exists q.
Qed.

(** The first error of a domain cancels every queue of it; later ones change nothing. *)
Definition domain_failed (s s' : process_queues) (d e : Z) : Prop :=
  (exists dq', domain_queues s' !! d = Some dq' /\ dsp_error dq' = e) /\ (forall i, failed_as (queue_at s d i) (queue_at s' d i)) /\
  forall d', d' <> d -> domain_queues s' !! d' = domain_queues s !! d'.
Lemma error_spec d error s : accounted s -> error <> 0 ->
  wp (error_callback ans d error) (fun _ s' => accounted s' /\
    match domain_queues s !! d with
    | Some dq => if dsp_error dq =? 0 then domain_failed s s' d (noted error) else s' = s
    | None => s' = s
    end) (fun _ _ => False) s.
Proof.
  intros Ha He. unfold error_callback. do 2 wp_step. destruct (domain_queues s !! d) as [dq|] eqn:Hd; [|by wp_step].
  destruct (Z.eqb_spec (dsp_error dq) 0) as [E0|E0]; cbn [negb]; [|by wp_step]. do 2 wp_step.
  fold (noted error). assert (Hn : noted error <> 0) by (unfold noted; case_match; done).
  pose proof (accounted_error d s dq (noted error) Ha Hd Hn) as Ha1. rewrite (update_insert d _ s dq) in Ha1 |- * by done. set (s1 := set_domains _ s) in *.
  pose proof Ha as [_ Ht]. destruct (Ht d dq Hd) as [(_ & Hg & _) _].
  eapply wp_mono; [apply (fail_queues_spec d _ s1 (set_error (noted error) dq))|..]; [apply NoDup_seqZ|done|cbn; by rewrite lookup_insert_eq|done| | |done].
  { intros i q _ Hq. destruct (Hg i _ Hq) as (_ & _ & q0 & [= <-] & _ & Hth). apply not_true_is_false. intros E. by apply Hth in E. }
  intros _ s2 (Ha2 & sl & Hd2 & Hf & Ho). split; [done|]. cbn in Hd2, Hf, Ho. rewrite insert_insert_eq in Hd2. split; [|split].
  - rewrite Hd2, lookup_insert_eq. by eexists.
  - intros i. unfold queue_at. rewrite Hd2, lookup_insert_eq, Hd. cbn. destruct (decide (i ∈ seqZ 0 (max_queue dq + 1))) as [Hi|Hi]; [by apply Hf|].
    rewrite Ho by done. destruct (slots dq !! i) as [x|] eqn:Hx; [|done]. destruct (Hg i x Hx) as (? & ? & _). destruct Hi. apply elem_of_seqZ. lia.
  - intros d' Hne. by rewrite Hd2, lookup_insert_ne.
Qed.

Lemma wp_go {S A} (m : M S A) (Q : A -> S -> Prop) s : wp m Q (fun _ _ => False) s -> exists a s', m s = (Go a, s') /\ Q a s'.
Proof. unfold wp. destruct (m s) as [[a|e] s']; [by exists a, s'|done]. Qed.

(** Closing a queue succeeds, frees its slot and gives back everything the queue had;
    with the last queue of a domain the domain's own resources go too. *)
Theorem close_releases d id q s : accounted s -> IS_VALID_EFFECTIVE_DOMAIN_ID d = true -> queue_at s d id = Some (InUse q) ->
  exists s', dspqueue_close p ans d id s = (Go (Some AEE_SUCCESS), s') /\ closed_queue s s' d id /\
    ((forall i, i <> id -> queue_at s d i = None) -> domain_queues s' !! d = None).
Proof.
  intros Ha Hv Hq. destruct (wp_go _ _ _ (close_accounted d id q s Ha Hv Hq)) as (r & s' & E & -> & Hc). exists s'. split; [done|]. split; [done|].
  intros Hall. destruct Hc as ([_ Ht] & Hn & Ho). destruct (domain_queues s' !! d) as [dq|] eqn:Hd; [exfalso|done].
  destruct (Ht d dq Hd) as [_ [Hs|[=]]]. apply Hs, map_empty. intros i.
  assert (Hi : queue_at s' d i = None) by (destruct (decide (i = id)) as [->|]; [done|rewrite Ho by congruence; by apply Hall]).
  unfold queue_at in Hi. by rewrite Hd in Hi.
Qed.

(** The first error of a domain cancels the waits of every queue in use there and starts
    the error callback of a queue at most once; later errors change nothing. *)
Theorem error_cancels_once d e1 e2 dq s : accounted s -> e1 <> 0 -> e2 <> 0 -> domain_queues s !! d = Some dq -> dsp_error dq = 0 ->
  exists s', error_callback ans d e1 s = (Go tt, s') /\ accounted s' /\ domain_failed s s' d (noted e1) /\
    (forall i q, queue_at s d i = Some (InUse q) -> exists q', queue_at s' d i = Some (InUse q') /\ both_cancelled q') /\
    error_callback ans d e2 s' = (Go tt, s').
Proof.
  intros Ha H1 H2 Hd E0. destruct (wp_go _ _ _ (error_spec d e1 s Ha H1)) as ([] & s' & E & Ha' & Hf). rewrite Hd, E0 in Hf. cbn in Hf.
  exists s'. split; [done|]. split; [done|]. split; [done|]. destruct Hf as ((dq' & Hd' & He') & Hf & _). split.
  - intros i q Hq. specialize (Hf i). rewrite Hq in Hf. destruct Hf as (th & _ & ->). eexists. split; [done|].
    destruct Ha as [_ Ht]. destruct (Ht d dq Hd) as [(_ & Hg & _) _]. unfold queue_at in Hq. rewrite Hd in Hq. destruct (Hg i _ Hq) as (_ & _ & q0 & [= <-] & Hq0 & _).
    pose proof (cancelled_both q Hq0). by destruct th.
  - destruct (wp_go _ _ _ (error_spec d e2 s' Ha' H2)) as ([] & s2 & E2 & _ & Hs). rewrite Hd' in Hs.
    rewrite (proj2 (Z.eqb_neq (dsp_error dq') 0)) in Hs; [by subst s2|]. rewrite He'. unfold noted. by destruct (_ || _).
Qed.
(** ** The condition variable for space

    A failed creation may keep it, so it is held at least when it is owned. It is taken right
    after the condition variable for packets, and a queue gives back both: at any time as many
    are held as of the other one, or more. *)
Section conds.
Context (d0 i0 : Z).
Abbreviation packet_cond := (Res KPacketCond d0 i0).
Abbreviation space_cond := (Res KSpaceCond d0 i0).
Definition gap (s : process_queues) : Z := held space_cond (trace s) - held packet_cond (trace s).
Definition wide (n : Z) (s : process_queues) : Prop := n <= gap s.
Definition no_cond (k : kind) : bool := match k with KPacketCond | KSpaceCond => false | _ => true end.
Definition calm (c : call) : bool := match c with Open r _ | Close r => no_cond (r_kind r) | Ask _ _ _ => true end.

Lemma wide_ask n c : calm c = true -> preserves (wide n) (ask ans c).
Proof.
  intros Hc s Hs. unfold ask, wide, gap in *. cbn [snd trace set_trace]. rewrite !held_app. destruct c as [r a|r|w d i]; cbn in *; [| |lia].
  all: repeat case_decide; try lia; exfalso; naive_solver.
Qed.
Lemma wide_modify n f : (forall s, trace (f s) = trace s) -> preserves (wide n) (modify f).
Proof. intros Hf s Hs. unfold wide, gap. cbn. by rewrite Hf. Qed.
Lemma wide_table n m : preserves (wide n) (on_table m).
Proof. intros s Hs. unfold on_table. by destruct (m (signals s)). Qed.
Hint Resolve wide_table : keeps.
Hint Extern 1 (preserves (wide _) (ask _ _)) => apply wide_ask; reflexivity : keeps.
Hint Extern 1 (preserves (wide _) (modify _)) => apply wide_modify; reflexivity : keeps.
Lemma wide_give_back n l order : forallb (fun r => no_cond (r_kind r)) order = true -> preserves (wide n) (give_back ans l order).
Proof.
  induction order as [|r order IH]; cbn [forallb give_back]; [keep|]. intros [Hr Ho]%andb_true_iff. unfold give. keep; first [by apply wide_ask|by apply IH].
Qed.
Hint Extern 1 (preserves (wide _) (give_back _ _ _)) => apply wide_give_back; reflexivity : keeps.
Lemma wide_join n r : no_cond (r_kind r) = true -> preserves (wide n) (join ans r).
Proof. intros Hr. unfold join. keep. by apply wide_ask. Qed.
Lemma wide_close_checked n e r : no_cond (r_kind r) = true -> preserves (wide n) (close_checked ans e r).
Proof. intros Hr. unfold close_checked. keep. by apply wide_ask. Qed.
Lemma wide_destroy n d : preserves (wide n) (destroy_domain_queues_locked ans d).
Proof. unfold destroy_domain_queues_locked, exit_value. keep; first [by apply wide_join | by apply wide_close_checked]. Qed.
Hint Resolve wide_destroy : keeps.

(** Creating: what a part of the function does, with the list of flags. *)
Definition calm_local (n : Z) (sl : process_queues * list resource) : Prop := wide n sl.1 /\ space_cond ∉ sl.2.
Lemma calm_lift {A} n (m : M process_queues A) : preserves (wide n) m -> preserves (calm_local n) (lift m).
Proof. intros Hm [s l] [Hw Hs]. specialize (Hm s Hw). unfold lift. cbn in *. by destruct (m s). Qed.
Lemma calm_cons n r : no_cond (r_kind r) = true -> preserves (calm_local n) (setl (cons r)).
Proof. intros Hr [s l] [Hw Hs]. split; [done|]. cbn in *. intros [E|?]%elem_of_cons; [by subst r|done]. Qed.
Hint Extern 1 (preserves (calm_local _) (setl (cons _))) => apply calm_cons; reflexivity : keeps.
Hint Extern 1 (preserves (calm_local _) (lift (ask _ _))) => apply calm_lift, wide_ask; reflexivity : keeps.
Hint Extern 1 (preserves (calm_local _) (lift (on_table _))) => apply calm_lift, wide_table : keeps.
Hint Extern 1 (preserves (calm_local _) (lift (on_table_value _))) => apply calm_lift, wide_table : keeps.
Lemma calm_create_signals n d ids : preserves (calm_local n) (create_signals p alloc ds_alloc d ids).
Proof. induction ids as [|i ids IH]; cbn [create_signals]; keep. Qed.
Lemma calm_destroy_signals n d ids : preserves (calm_local n) (destroy_signals p d ids).
Proof. induction ids as [|i ids IH]; cbn [destroy_signals]; keep. Qed.
Hint Resolve calm_create_signals calm_destroy_signals : keeps.
Lemma calm_dsp_queue n d id driver : preserves (calm_local n) (create_dsp_queue p ans d id driver).
Proof. unfold create_dsp_queue. keep. Qed.
Hint Resolve calm_dsp_queue : keeps.

Lemma wide_give n b r : no_cond (r_kind r) = true -> preserves (wide n) (give ans b r).
Proof. intros Hr. unfold give. keep. by apply wide_ask. Qed.
Lemma wide_give_pair n d id : preserves (wide n) (give_back ans [Res KPacketCond d id; Res KSpaceCond d id] [Res KPacketCond d id; Res KSpaceCond d id]).
Proof.
  intros s Hs. cbn [give_back]. rewrite !bool_decide_eq_true_2 by listed. unfold give, ask. munfold. cbn [snd].
  unfold wide, gap in *. cbn [trace set_trace]. rewrite !held_app. cbn. repeat case_decide; try lia; exfalso; naive_solver.
Qed.
Hint Resolve wide_give_pair : keeps.



Lemma wide_each_signal n f ids : preserves (fun sl : process_queues * Z => wide n sl.1) (each_signal f ids).
Proof. induction ids as [|i ids IH]; cbn [each_signal]; unfold on_table_value; keep. Qed.
Hint Resolve wide_each_signal : keeps.
Lemma wide_fail n d ids : preserves (wide n) (fail_queues ans d ids).
Proof. induction ids as [|i ids IH]; cbn [fail_queues]; unfold fail_queue; keep. Qed.
Hint Resolve wide_fail : keeps.
End conds.



(** The calls of a process, one after the other. *)
Inductive queue_op := Create (domain flags req resp : Z) (packet_callback error_callback : bool) | CloseQueue (d id : Z) | DspError (d error : Z).
Definition run_op (o : queue_op) (s : process_queues) : process_queues :=
  match o with
  | Create domain flags req resp pc ec => (dspqueue_create p ans alloc ds_alloc domain flags req resp pc ec s).2
  | CloseQueue d id => (dspqueue_close p ans d id s).2
  | DspError d error => (error_callback ans d error s).2
  end.
Definition op_ok (o : queue_op) : Prop := match o with DspError _ error => error <> 0 | _ => True end.
Definition no_queues (sig : signal_table) : process_queues := ProcessQueues [] ∅ 0 ∅ sig.

Lemma run_op_accounted o t : op_ok o -> accounted t -> accounted (run_op o t).
Proof.
  intros Ho IH. destruct o as [domain flags req resp pc ec|d id|d error]; cbn [run_op].
  - unfold dspqueue_create. destruct (negb _); [done|]. by destruct (wp_go _ _ _ (create_accounted (get_domain p domain) flags req resp pc ec t IH)) as (r & s' & -> & Hc & _).
  - destruct (queue_at t d id) as [[|q]|] eqn:Hq.
    + exfalso. unfold queue_at in Hq. destruct (domain_queues t !! d) as [dq|] eqn:Hd; [|done]. destruct IH as [_ Ht].
      destruct (Ht d dq Hd) as [(_ & Hg & _) _]. by destruct (Hg id _ Hq) as (_ & _ & q & ? & _).
    + destruct (IS_VALID_EFFECTIVE_DOMAIN_ID d) eqn:Hv.
      * destruct (wp_go _ _ _ (close_accounted d id q t IH Hv Hq)) as (r & s' & -> & _ & Hc). by destruct Hc.
      * unfold dspqueue_close. munfold. unfold queue_at in Hq. destruct (domain_queues t !! d) as [dq|]; [|done]. cbn in Hq. cbn. rewrite Hq. cbn. by rewrite Hv.
    + unfold dspqueue_close. munfold. unfold queue_at in Hq. destruct (domain_queues t !! d) as [dq|]; [|done]. cbn in Hq. cbn. by rewrite Hq.
  - by destruct (wp_go _ _ _ (error_spec d error t IH Ho)) as (r & s' & -> & Hc & _).
Qed.
Lemma no_queues_accounted sig : accounted (no_queues sig).
Proof. split; [done|]. intros d dq Hd. cbn in Hd. by rewrite lookup_empty in Hd. Qed.



(** Driver signals are never used: no domain with queues has them. *)
Lemma driver_never_used s d dq : accounted s -> domain_queues s !! d = Some dq ->
  have_dspsignal dq = false /\ forall id q, slots dq !! id = Some (InUse q) -> o_driver q = false.
Proof.
  intros [_ Ht] Hd. destruct (Ht d dq Hd) as [(_ & Hg & He) [Hs|[=]]]. split.
  - apply not_true_is_false. by intros E%He.
  - intros id q Hq. by destruct (Hg id _ Hq) as (_ & _ & q' & [= <-] & ? & _).
Qed.
End accounting.

(** ** The layout *)
Definition areas (l : layout) : list (Z * Z) :=
  let block a := [(a_queue a, a_length a); (a_read a, sizeof_dspqueue_packet_queue_state); (a_write a, sizeof_dspqueue_packet_queue_state)] in
  (0, sizeof_dspqueue_header) :: block (req_area l) ++ block (resp_area l).

Lemma cache_align_bounds x : x <= CACHE_ALIGN_SIZE x < x + 256 /\ CACHE_ALIGN_SIZE x mod 256 = 0.
Proof. unfold CACHE_ALIGN_SIZE, QUEUE_CACHE_ALIGN. exact (align_mask_bounds x 8 ltac:(lia)). Qed.

(** The header, the two queues and their four states lie in the allocated block, one after
    the other without overlap, each on a cache line of its own, for all admitted sizes. *)
Theorem queue_layout_disjoint req resp : 0 <= req <= DSPQUEUE_MAX_QUEUE_SIZE -> 0 <= resp <= DSPQUEUE_MAX_QUEUE_SIZE ->
  let l := queue_layout req resp in
  StronglySorted (fun x y => x.1 + x.2 <= y.1) (areas l) /\
  Forall (fun x => 0 <= x.1 /\ x.1 mod QUEUE_CACHE_ALIGN = 0 /\ x.1 + x.2 <= user_queue_size l) (areas l) /\ user_queue_size l < 4294967296.
Proof.
  intros Hreq Hresp. unfold DSPQUEUE_MAX_QUEUE_SIZE in *. cbv zeta. unfold queue_layout.
  set (q := if req =? 0 then _ else _). set (r := if resp =? 0 then _ else _).
  assert (Hq : 0 < q <= 16777216) by (unfold q, DSPQUEUE_DEFAULT_REQ_SIZE; case_ltb; lia).
  assert (Hr : 0 < r <= 16777216) by (unfold r, DSPQUEUE_DEFAULT_RESP_SIZE; case_ltb; lia). clearbody q r.
  change (CACHE_ALIGN_SIZE sizeof_dspqueue_header) with 256. change (CACHE_ALIGN_SIZE sizeof_dspqueue_packet_queue_state) with 256.
  pose proof (cache_align_bounds q) as [Bq Mq]. pose proof (cache_align_bounds r) as [Br Mr].
  set (x := CACHE_ALIGN_SIZE q) in *. set (y := CACHE_ALIGN_SIZE r) in *. clearbody x y. int_norm.
  unfold areas. cbn -[Z.add Z.mul Z.modulo Z.le Z.lt]. unfold sizeof_dspqueue_header, sizeof_dspqueue_packet_queue_state, QUEUE_CACHE_ALIGN.
  split; [|split; [|lia]].
  - repeat apply SSorted_cons; [apply SSorted_nil|..]; repeat apply Forall_cons_2; try apply Forall_nil_2; cbn -[Z.add]; lia.
  - repeat apply Forall_cons_2; try apply Forall_nil_2; cbn -[Z.add Z.mul Z.modulo]; (split; [lia|]; split; [|lia]); clear Bq Br; Z.to_euclidean_division_equations; lia.
Qed.

(** ** Multi-domain queues *)
Section multidomain_spec.
Context {S H A : Type}.

(** Running the operation on queues one after the other, when each succeeds. *)
Inductive all_succeed (op : H -> M S Z) : list H -> S -> S -> Prop :=
  | succeed_nil s : all_succeed op [] s s
  | succeed_cons h l s s1 s2 : op h s = (Go AEE_SUCCESS, s1) -> all_succeed op l s1 s2 -> all_succeed op (h :: l) s s2.

Lemma write_each_spec (op : H -> M S Z) l : (forall h, Total (op h)) -> forall s,
  (exists s', write_each op l s = (Go tt, s') /\ all_succeed op l s s') \/
  (exists pre h post e s1 s2, l = pre ++ h :: post /\ all_succeed op pre s s1 /\ op h s1 = (Go e, s2) /\ e <> 0 /\ write_each op l s = (Bail e, s2)).
Proof.
  intros Ht. induction l as [|h l IH]; intros s; cbn [write_each]; [left; exists s; split; [done|constructor]|].
  destruct (Ht h s) as (e & s1 & E). munfold. rewrite E. destruct (Z.eqb_spec e AEE_SUCCESS) as [->|He]; cbn.
  - destruct (IH s1) as [(s' & -> & Hs)|(pre & h' & post & e & s2 & s3 & -> & Hp & Eh & He & Ew)].
    + left. exists s'. split; [done|]. by econstructor.
    + right. exists (h :: pre), h', post, e, s2, s3. split; [done|]. split; [by econstructor|]. split; [done|]. split; [done|]. exact Ew.
  - right. exists [], h, l, e, s, s1. split; [done|]. split; [constructor|]. split; [done|]. split; [done|]. by rewrite (proj2 (Z.eqb_neq e 0)).
Qed.

(** Writing to all queues: all of them in order, or up to the first that fails; every
    failure, also of a full queue, becomes [AEE_EBADSTATE] and nothing is taken back. *)
Lemma multidomain_write_prefix (op : H -> M S Z) l s : (forall h, Total (op h)) ->
  (exists s', dspqueue_multidomain_write op l s = (Go AEE_SUCCESS, s') /\ all_succeed op l s s') \/
  (exists pre h post e s1 s2, l = pre ++ h :: post /\ all_succeed op pre s s1 /\ op h s1 = (Go e, s2) /\ e <> 0 /\
     dspqueue_multidomain_write op l s = (Go AEE_EBADSTATE, s2)).
Proof.
  intros Ht. unfold dspqueue_multidomain_write, to_bail, mbind, M_bind, mret, M_ret.
  destruct (write_each_spec op l Ht s) as [(s' & -> & Hs)|(pre & h & post & e & s1 & s2 & -> & Hp & Eh & He & ->)].
  - left. by exists s'.
  - right. exists pre, h, post, e, s1, s2. do 4 (split; [done|]). by rewrite (proj2 (Z.eqb_neq e 0)).
Qed.

(** Reading asks the queues in order until one answers something else than that it is empty. *)
Inductive all_empty (op : H -> M S (Z * A)) : list H -> S -> S -> Prop :=
  | empty_nil s : all_empty op [] s s
  | empty_cons h l a s s1 s2 : op h s = (Go (AEE_EWOULDBLOCK, a), s1) -> all_empty op l s1 s2 -> all_empty op (h :: l) s s2.
Lemma multidomain_read_first (op : H -> M S (Z * A)) l : (forall h, Total (op h)) -> forall r s,
  (exists r' s', read_each op l r s = (Go r', s') /\ all_empty op l s s') \/
  (exists pre h post r' s1 s2, l = pre ++ h :: post /\ all_empty op pre s s1 /\ op h s1 = (Go r', s2) /\ r'.1 <> AEE_EWOULDBLOCK /\
     read_each op l r s = (Go r', s2)).
Proof.
  intros Ht. induction l as [|h l IH]; intros r s; cbn [read_each]; [left; exists r, s; split; [done|constructor]|].
  destruct (Ht h s) as ([e a] & s1 & E). munfold. rewrite E. cbn [fst].
  destruct (Z.eqb_spec e AEE_EWOULDBLOCK) as [->|He].
  - change (AEE_EWOULDBLOCK =? 0) with false. cbv iota.
    destruct (IH (AEE_EWOULDBLOCK, a) s1) as [(r' & s' & -> & Hs)|(pre & h' & post & r' & s2 & s3 & -> & Hp & Eh & He & Ew)].
    + left. exists r', s'. split; [done|]. by econstructor.
    + right. exists (h :: pre), h', post, r', s2, s3. split; [done|]. split; [by econstructor|]. by split.
  - right. exists [], h, l, (e, a), s, s1. split; [done|]. split; [constructor|]. split; [done|]. split; [done|]. by destruct (e =? 0).
Qed.
End multidomain_spec.

(** ** Concrete runs *)
Module DspQueueCtlEx.
Definition p0 : proc := Proc None false None [].
(** A DSP without driver signals where every call works. *)
Definition works (t : list (call * Z)) (c : call) : Z := 0.
Lemma works_gives t c : gives_back c -> works t c = 0.
Proof. done. Qed.
Definition s0 : process_queues := no_queues signals0.
Lemma s0_accounted : accounted s0.
Proof. apply no_queues_accounted. Qed.
Definition s1 : process_queues := run_op p0 works true true (Create 3 0 4096 8192 true true) s0.
Lemma s1_accounted : accounted s1.
Proof. exact (run_op_accounted p0 works true true works_gives (Create 3 0 4096 8192 true true) s0 I s0_accounted). Qed.


Lemma close_releases_witness : exists s', dspqueue_close p0 works 3 0 s1 = (Go (Some AEE_SUCCESS), s') /\ domain_queues s' !! 3 = None.
Proof.
  destruct (close_releases p0 works works_gives 3 0 (new_queue true true 0 false) s1 s1_accounted eq_refl ltac:(by vm_compute)) as (s' & E & _ & H).
  exists s'. split; [exact E|]. apply H. intros i Hi. unfold queue_at.
  change (domain_queues s1 !! 3) with (Some (DomainQueues 1 0 {[ 0 := InUse (new_queue true true 0 false) ]} 0 false 0)). cbn. by apply lookup_singleton_ne.
Defined.

Lemma error_cancels_once_witness : exists s', error_callback works 3 AEE_ENOSUCH s1 = (Go tt, s') /\ error_callback works 3 AEE_ECONNRESET s' = (Go tt, s').
Proof.
  destruct (error_cancels_once works works_gives 3 AEE_ENOSUCH AEE_ECONNRESET (DomainQueues 1 0 {[ 0 := InUse (new_queue true true 0 false) ]} 0 false 0) s1
    s1_accounted ltac:(done) ltac:(done) ltac:(by vm_compute) eq_refl) as (s' & E & _ & _ & _ & E2).
  exists s'. split; [exact E|exact E2].
Defined.


Lemma queue_layout_disjoint_witness : 0 <= 4096 <= DSPQUEUE_MAX_QUEUE_SIZE /\ user_queue_size (queue_layout 4096 0) < 4294967296.
Proof.
  split; [by unfold DSPQUEUE_MAX_QUEUE_SIZE|].
  apply (queue_layout_disjoint 4096 0); unfold DSPQUEUE_MAX_QUEUE_SIZE; lia.
Defined.

(** When only the callback thread of a new queue cannot be created, the condition variable
    for space stays. *)
Definition no_callback (t : list (call * Z)) (c : call) : Z := match c with Open (Res KCallback _ _) _ => 11 | _ => 0 end.
Lemma space_cond_kept :
  let r := dspqueue_create p0 no_callback true true 3 0 4096 4096 true false s0 in
  r.1 = Go (11, None) /\ held (Res KSpaceCond 3 0) (trace r.2) = 1 /\ held (Res KPacketCond 3 0) (trace r.2) = 0.
Proof. by vm_compute. Qed.

(** A full queue in front of an empty one: nothing is written, and the caller is told
    [AEE_EBADSTATE]; behind one, the packet stays in the first. *)
Definition write_to (i : nat) : M (list nat) Z := fun room =>
  match room !! i with Some (S n) => (Go AEE_SUCCESS, <[ i := n ]> room) | _ => (Go AEE_EWOULDBLOCK, room) end.
Lemma multidomain_write_not_atomic :
  dspqueue_multidomain_write write_to [0; 1]%nat [1; 0]%nat = (Go AEE_EBADSTATE, [0; 0]%nat) /\
  dspqueue_multidomain_write write_to [0; 1]%nat [0; 1]%nat = (Go AEE_EBADSTATE, [0; 1]%nat).
Proof. by vm_compute. Qed.

(** An allocation that fails while a multi-domain queue is set up ends in a null pointer. *)
Lemma multidomain_create_faults (create : Z -> M unit (Z * option Z)) close :
  dspqueue_multidomain_create create close (mret (AEE_SUCCESS, [3])) true false false 1 (Some 3%nat) tt = (Go None, tt).
Proof. done. Qed.
End DspQueueCtlEx.

