(* ===== verification/Listener.v ===== *)
(** The listener thread of [src/listener_android.c]: it answers the DSP, waits for its next
    call, unpacks the arguments and invokes a function of the module table.

    The state holds the memory, the blocks that the thread has from [rpcmem] and the world
    [W] that the kernel and the modules act on; the locals of [listener] are a second
    component. The two [next2] stubs, with and without a domain handle, are one parameter
    that gets the handle, and so are the two [get_in_bufs2] stubs. *)
From S2P Require Import Prelude Errors Sbuf ListenerBuf Remote Session SessionIface.
#[local] Open Scope Z_scope.

Definition MIN_BUF_SIZE : Z := 4096.
Definition INVALID_HANDLE : Z := 18446744073709551615.
Definition RETRY_WRITE : nat := 3.
Definition NUM_ARGS : nat := 512.
(** [_SBUF_ALIGN(sz, MIN_BUF_SIZE)] and [ALIGNB(sz)], in [int] arithmetic. *)
Definition ALIGN_BUF (sz : Z) : Z := Z.land (s32 (sz + (MIN_BUF_SIZE - 1))) (Z.lnot (MIN_BUF_SIZE - 1)).
Definition ALIGNB (sz : Z) : Z := if sz =? 0 then MIN_BUF_SIZE else ALIGN_BUF sz.
(** [__builtin_smul_overflow(a, 2, &r)]. *)
Definition smul2_overflow (a : Z) : bool := negb (s32 (a * 2) =? a * 2).

(** ** State *)
Record lst (W : Type) := Lst {
  app : W;
  mem : memory;
  rpcmem : gmap Z Z;    (* the blocks that the thread has: address and size *)
  bad_free : bool       (* something was given back that it does not have *)
}.
Arguments Lst {_}. Arguments app {_}. Arguments mem {_}. Arguments rpcmem {_}. Arguments bad_free {_}.

(** The locals of [listener]. *)
Record loc := Loc {
  ref : Z; ctx : Z; result : Z;
  outBufs : Z; outBufsLen : Z; outBufsCapacity : Z;
  inBufs : Z; inBufsLen : Z; inBufsLenReq : Z;
  handle : Z; sc : Z; args : list remote_arg
}.
Definition loc0 : loc := Loc 0 0 (-1) 0 0 0 0 0 0 4294967295 0 (replicate NUM_ARGS (RemoteArg 0 0)).

(** What [next2] delivers: the result of the call, the outputs, and what was written to the
    input buffer. *)
Record reply := Reply { r_err : Z; r_ctx : Z; r_handle : Z; r_sc : Z; r_req : Z; r_bytes : list Z }.

Section loc.
Implicit Types (l : loc).
Definition set_ref (v : Z) l := Loc v (ctx l) (result l) (outBufs l) (outBufsLen l) (outBufsCapacity l) (inBufs l) (inBufsLen l) (inBufsLenReq l) (handle l) (sc l) (args l).
Definition set_ctx (v : Z) l := Loc (ref l) v (result l) (outBufs l) (outBufsLen l) (outBufsCapacity l) (inBufs l) (inBufsLen l) (inBufsLenReq l) (handle l) (sc l) (args l).
Definition set_result (v : Z) l := Loc (ref l) (ctx l) v (outBufs l) (outBufsLen l) (outBufsCapacity l) (inBufs l) (inBufsLen l) (inBufsLenReq l) (handle l) (sc l) (args l).
Definition set_out_len (v : Z) l := Loc (ref l) (ctx l) (result l) (outBufs l) v (outBufsCapacity l) (inBufs l) (inBufsLen l) (inBufsLenReq l) (handle l) (sc l) (args l).
Definition set_out (p c : Z) l := Loc (ref l) (ctx l) (result l) p (outBufsLen l) c (inBufs l) (inBufsLen l) (inBufsLenReq l) (handle l) (sc l) (args l).
Definition set_in (p n : Z) l := Loc (ref l) (ctx l) (result l) (outBufs l) (outBufsLen l) (outBufsCapacity l) p n (inBufsLenReq l) (handle l) (sc l) (args l).
Definition set_sc (v : Z) l := Loc (ref l) (ctx l) (result l) (outBufs l) (outBufsLen l) (outBufsCapacity l) (inBufs l) (inBufsLen l) (inBufsLenReq l) (handle l) v (args l).
Definition set_args (v : list remote_arg) l := Loc (ref l) (ctx l) (result l) (outBufs l) (outBufsLen l) (outBufsCapacity l) (inBufs l) (inBufsLen l) (inBufsLenReq l) (handle l) (sc l) v.
(** The outputs of [next2]. *)
Definition set_call (r : reply) l := Loc (ref l) (r_ctx r) (result l) (outBufs l) (outBufsLen l) (outBufsCapacity l) (inBufs l) (inBufsLen l) (r_req r) (r_handle r) (r_sc r) (args l).
End loc.

Section update.
Context {W : Type}.
Definition set_app (w : W) (s : lst W) : lst W := Lst w (mem s) (rpcmem s) (bad_free s).
Definition set_mem (m : memory) (s : lst W) : lst W := Lst (app s) m (rpcmem s) (bad_free s).
Definition set_rpcmem (r : gmap Z Z) (s : lst W) : lst W := Lst (app s) (mem s) r (bad_free s).
Definition set_bad (s : lst W) : lst W := Lst (app s) (mem s) (rpcmem s) true.
End update.

#[export] Instance lst_session {W K} `{HasSession W K} : HasSession (lst W) K :=
  { ses s := ses (app s); set_ses k s := set_app (set_ses k (app s)) s; ses_set k s := ses_set k (app s) }.

Section listener.
Context {W K : Type} `{HS : HasSession W K} `{HO : SessionOps K}.
Variables (domain cache_size : Z) (is_process_exiting : W -> bool).
(** [rpcmem_alloc_internal] with the heap and flags of the thread: an address, or 0. *)
Variable rpcmem_alloc_internal : lst W -> Z -> Z.
(** The handle of the stub, the context, the result, the bytes of the reply, the length of the
    input buffer. *)
Variable next2 : Z -> Z -> Z -> list Z -> Z -> W -> reply * W.
(** The handle of the stub, the context, offset and length: the result, the bytes and the
    length of all input buffers. *)
Variable get_in_bufs2 : Z -> Z -> Z -> Z -> W -> (Z * list Z * Z) * W.
Variable mod_table_invoke : Z -> Z -> list remote_arg -> W -> memory -> (Z * memory) * W.
Variable eventfd_write : W -> Z * W.

(** ** Buffers *)
Definition alloc (size : Z) : M (lst W) Z :=
  s ← get;
  let a := rpcmem_alloc_internal s size in
  if a =? 0 then mret 0 else (_ ← put (set_rpcmem (<[a := size]> (rpcmem s)) s); mret a).
Definition rpcmem_free_internal (a : Z) : M (lst W) unit :=
  modify (fun s => match rpcmem s !! a with Some _ => set_rpcmem (delete a (rpcmem s)) s | None => set_bad s end).
Definition rpcmem_realloc (buf oldsize size : Z) : M (lst W) Z :=
  bufnew ← alloc (u64 size);
  _ ← (if negb (buf =? 0) && negb (bufnew =? 0) then
         _ ← modify (fun s => set_mem (store (mem s) bufnew (load (mem s) buf (Z.min (u64 oldsize) (u64 size)))) s);
         rpcmem_free_internal buf
       else mret tt);
  mret bufnew.
(** [RPC_FREEIF]. *)
Definition RPC_FREEIF (buf : Z) : M (lst W) unit := if negb (buf =? 0) then rpcmem_free_internal buf else mret tt.

Definition world {A} (f : W -> A * W) : M (lst W) A := fun s => let '(a, w) := f (app s) in (Go a, set_app w s).

(** ** One turn *)

(** A call of [next2] with a reply of [outLen] bytes at [out]. The outputs are only set when it
    succeeds. *)
Definition next (h res out outLen : Z) : M (lst W * loc) Z :=
  l ← getl id;
  r ← lift (s ← get; world (next2 h (ctx l) res (load (mem s) out (u32 outLen)) (inBufsLen l)));
  _ ← lift (modify (fun s => set_mem (store (mem s) (inBufs l) (take (Z.to_nat (inBufsLen l)) (r_bytes r))) s));
  _ ← (if r_err r =? 0 then setl (set_call r) else mret tt);
  mret (r_err r).

(** [FASTRPC_PUT_REF] and [FASTRPC_GET_REF]. *)
Definition put_ref : M (lst W * loc) unit :=
  l ← getl id;
  if ref l =? 1 then (_ ← lift (on_ses (session_put domain)); setl (set_ref 0)) else mret tt.
Definition get_ref : M (lst W * loc) unit :=
  _ ← VERIFY_CALL (lift (on_ses (session_get domain))); setl (set_ref 1).

(** From [invoke:] to the reference: [true] when a call was received, [false] when the thread
    goes back to [invoke]. It leaves at [bail] when the DSP is gone. *)
Definition receive (h : Z) : M (lst W * loc) bool :=
  _ ← setl (set_sc 4294967295);
  l ← getl id;
  _ ← (if negb (result l =? 0) then setl (set_out_len 0) else mret tt);
  _ ← put_ref;
  l ← getl id;
  nErr ← next h (result l) (outBufs l) (outBufsLen l);
  if nErr =? 0 then mret true
  else if nErr =? AEE_EINTERRUPTED then (_ ← setl (set_ctx 0); _ ← setl (set_result (-1)); mret false)
  else if u32 nErr =? DSP_AEE_EOFFSET + AEE_EBADSTATE then bail nErr
  else (nErr ← next h nErr 0 0; if nErr =? 0 then mret true else bail nErr).

(** The part of a turn that jumps to [invoke] with an error in [result] is a body that leaves
    with that error. *)
Definition fit_in_bufs (h : Z) : M (lst W * loc) unit :=
  l ← getl id;
  _ ← VERIFYC (negb (smul2_overflow (inBufsLenReq l))) AEE_EBADSIZE;
  let size := ALIGNB (inBufsLenReq l * 2) in
  _ ← (if (size <? inBufsLen l) && (cache_size <? inBufsLen l) then
         buf ← lift (rpcmem_realloc (inBufs l) (inBufsLen l) size);
         _ ← VERIFYC (negb (buf =? 0)) AEE_ENORPCMEMORY;
         setl (set_in buf size)
       else mret tt);
  l ← getl id;
  if inBufsLen l <? inBufsLenReq l then
    let oldLen := inBufsLen l in
    let size := ALIGN_BUF (inBufsLenReq l) in
    buf ← lift (rpcmem_realloc (inBufs l) oldLen size);
    _ ← VERIFYC (negb (buf =? 0)) AEE_ENORPCMEMORY;
    _ ← setl (set_in buf size);
    r ← lift (world (get_in_bufs2 h (ctx l) oldLen (size - oldLen)));
    let '(res, bytes, req) := r : Z * list Z * Z in
    _ ← lift (modify (fun s => set_mem (store (mem s) (buf + oldLen) (take (Z.to_nat (size - oldLen)) bytes)) s));
    _ ← VERIFYC (res =? AEE_SUCCESS) res;
    VERIFYC (negb (size <? req)) AEE_EBADPARM
  else mret tt.

Definition fit_out_bufs : M (lst W * loc) unit :=
  l ← getl id;
  _ ← VERIFYC (negb (smul2_overflow (outBufsLen l))) AEE_EBADSIZE;
  let size := ALIGNB (outBufsLen l * 2) in
  _ ← (if (size <? outBufsCapacity l) && (cache_size <? outBufsCapacity l) then
         buf ← lift (rpcmem_realloc (outBufs l) (outBufsCapacity l) size);
         _ ← VERIFYC (negb (buf =? 0)) AEE_ENORPCMEMORY;
         setl (set_out buf size)
       else mret tt);
  l ← getl id;
  if outBufsCapacity l <? outBufsLen l then
    let size := ALIGNB (outBufsLen l) in
    buf ← lift (rpcmem_realloc (outBufs l) (outBufsCapacity l) size);
    _ ← VERIFYC (negb (buf =? 0)) AEE_ENORPCMEMORY;
    _ ← setl (set_out buf size);
    setl (set_out_len size)
  else mret tt.

(** [pack_out_bufs] over the output arguments. *)
Definition out_args (l : loc) : list remote_arg :=
  take (Z.to_nat (REMOTE_SCALARS_OUTBUFS (sc l))) (drop (Z.to_nat (REMOTE_SCALARS_INBUFS (sc l))) (args l)).
Definition set_out_args (v : list remote_arg) (l : loc) : loc :=
  let ins := Z.to_nat (REMOTE_SCALARS_INBUFS (sc l)) in
  set_args (take ins (args l) ++ v ++ drop (ins + Z.to_nat (REMOTE_SCALARS_OUTBUFS (sc l))) (args l)) l.
Definition pack_outs (data dataLen : Z) : M (lst W * loc) Z :=
  l ← getl id; s ← lift get;
  let '(b, m, v) := pack_out_bufs (sbuf_init 0 data dataLen) (mem s) (out_args l) in
  _ ← lift (put (set_mem m s));
  _ ← setl (set_out_args v);
  mret (sbuf_needed b).
Definition unpack_args : M (lst W * loc) unit :=
  l ← getl id; s ← lift get;
  let ins := Z.to_nat (REMOTE_SCALARS_INBUFS (sc l)) in
  let '(b, v) := unpack_in_bufs (sbuf_init 0 (inBufs l) (inBufsLen l)) (mem s) 0 (take ins (args l)) in
  _ ← setl (set_args (v ++ drop ins (args l)));
  l ← getl id;
  let '(_, o) := unpack_out_lens b (mem s) 0 (out_args l) in
  setl (set_out_args o).

(** From the lengths of the outputs to the result of the module. *)
Definition invoke_call : M (lst W * loc) unit :=
  _ ← fit_out_bufs;
  l ← getl id;
  _ ← pack_outs (outBufs l) (outBufsLen l);
  l ← getl id;
  s ← lift get;
  let '((r, m), w) := mod_table_invoke (handle l) (sc l) (args l) (app s) (mem s) in
  _ ← lift (put (set_app w (set_mem m s)));
  setl (set_result (if negb (r =? 0) && is_process_exiting w then AEE_EBADSTATE else r)).
Definition serve (h : Z) : M (lst W * loc) unit :=
  _ ← fit_in_bufs h;
  l ← getl id;
  _ ← VERIFYC (negb (0 <? REMOTE_SCALARS_INHANDLES (sc l) + REMOTE_SCALARS_OUTHANDLES (sc l))) AEE_EBADPARM;
  _ ← unpack_args;
  needed ← pack_outs 0 0;
  _ ← setl (set_out_len needed);
  invoke_call.

Definition turn (h : Z) : M (lst W * loc) unit :=
  got ← receive h;
  if got : bool then
    _ ← get_ref;
    e ← to_bail (serve h);
    if e =? AEE_SUCCESS then mret tt else setl (set_result e)
  else mret tt.

(** The loop has no end of its own: [Go] after [fuel] turns means that the thread still runs. *)
Fixpoint turns (fuel : nat) (h : Z) : M (lst W * loc) unit :=
  match fuel with O => mret tt | S fuel => _ ← turn h; turns fuel h end.

Fixpoint write_event (n : nat) : M (lst W) Z :=
  match n with
  | O => mret (-1)
  | S n => e ← world eventfd_write; if e =? AEE_SUCCESS then mret e else match n with O => mret e | _ => write_event n end
  end.
(** The code after [bail:]. *)
Definition finish (l : loc) : M (lst W) Z :=
  _ ← RPC_FREEIF (outBufs l);
  _ ← RPC_FREEIF (inBufs l);
  write_event RETRY_WRITE.
(** The whole thread: [None] when it still runs after [fuel] turns. *)
Definition listener (fuel : nat) (h : Z) : M (lst W) (option Z) :=
  r ← with_locals loc0 (turns fuel h);
  if r.1 =? 0 then mret None else (e ← finish r.2; mret (Some e)).
End listener.

(** ** The buffers *)

Definition blk (a n : Z) : gmap Z Z := if a =? 0 then ∅ else {[a := n]}.
(** A buffer of the thread: none, or a block below [2^62]. *)
Definition buf_ok (a n : Z) : Prop := (a = 0 /\ n = 0) \/ (0 < a /\ 0 <= n < 2147483648 /\ a + n < 2 ^ 62).
Definition apart (a n b k : Z) : Prop := a = 0 \/ b = 0 \/ a <> b /\ (a + n <= b \/ b + k <= a).
(** The thread has exactly these two blocks, and never gave back anything else. *)
Record owns {W} (s : lst W) (a n b k : Z) : Prop := Owns {
  own_blocks : rpcmem s = blk a n ∪ blk b k;
  own_a : buf_ok a n;
  own_b : buf_ok b k;
  own_apart : apart a n b k;
  own_good : bad_free s = false
}.

(** What the allocator promises: 0, or a block that is free and apart from the others. *)
Definition alloc_ok {W} (f : lst W -> Z -> Z) : Prop := forall s n, 0 <= n ->
  f s n = 0 \/ (0 < f s n /\ f s n + n < 2 ^ 62 /\ rpcmem s !! f s n = None /\
    forall b k, rpcmem s !! b = Some k -> f s n + n <= b \/ b + k <= f s n).

Lemma owns_sym {W} (s : lst W) a n b k : owns s a n b k -> owns s b k a n.
Proof.
  intros [H1 H2 H3 H4 H5]. constructor; try done; [|unfold apart in *; intuition auto].
  rewrite H1. apply map_union_comm. unfold blk, apart in *.
  destruct (Z.eqb_spec a 0), (Z.eqb_spec b 0); try apply map_disjoint_empty_l; try apply map_disjoint_empty_r.
  apply map_disjoint_singleton_r. apply lookup_singleton_ne. lia.
Qed.
Lemma owns_lookup {W} (s : lst W) a n b k x m : owns s a n b k ->
  rpcmem s !! x = Some m <-> (x <> 0 /\ (x = a /\ m = n \/ x = b /\ m = k)).
Proof.
  intros [H1 H2 H3 H4 _]. rewrite H1, lookup_union_Some_raw. unfold blk, apart in *.
  destruct (Z.eqb_spec a 0) as [Ha|Ha], (Z.eqb_spec b 0) as [Hb|Hb];
    rewrite ?lookup_empty, ?lookup_singleton_Some, ?lookup_singleton_None; unfold buf_ok in *; intuition (try congruence; try lia).
  all: try (left; lia).
Qed.
Lemma owns_ext {W} (s s' : lst W) a n b k : rpcmem s' = rpcmem s -> bad_free s' = bad_free s -> owns s a n b k -> owns s' a n b k.
Proof. intros E1 E2 []. constructor; congruence. Qed.

Section realloc.
Context {W : Type}.
Variable f : lst W -> Z -> Z.
Hypothesis Hf : alloc_ok f.
Implicit Types (s : lst W).

Lemma ALIGN_BUF_u64 sz : u64 (ALIGN_BUF sz) < 2 ^ 62 -> 0 <= ALIGN_BUF sz < 2147483648 /\ u64 (ALIGN_BUF sz) = ALIGN_BUF sz.
Proof.
  change (2 ^ 62) with 4611686018427387904. unfold ALIGN_BUF, MIN_BUF_SIZE.
  pose proof (s32_range (sz + (4096 - 1))) as Hr.
  change (Z.lnot (4096 - 1)) with (Z.lnot (2 ^ 12 - 1)). rewrite land_lnot_ones by lia.
  pose proof (Z.mod_pos_bound (s32 (sz + (4096 - 1))) (2 ^ 12)). set (x := s32 _) in *.
  assert (Hd : x - x mod 2 ^ 12 < 0 \/ 0 <= x - x mod 2 ^ 12) by lia. intros H1. destruct Hd as [Hd|Hd].
  - exfalso. revert H1. unfold u64. assert (-2147487744 <= x - x mod 2 ^ 12) by lia.
    rewrite <- (Z_mod_plus_full _ 1), Z.mod_small by lia. lia.
  - split; [lia|]. apply u64_small. lia.
Qed.

(** Reallocating the first buffer: nothing happens when there is no memory; otherwise the new
    block takes the place of the old one and has its first bytes. *)
Lemma realloc_spec s a n b k size (Q : Z -> lst W -> Prop) R :
  owns s a n b k -> (u64 size < 2 ^ 62 -> 0 <= size < 2147483648 /\ u64 size = size) -> (f s (u64 size) = 0 -> Q 0 s) ->
  (forall p s', p <> 0 -> 0 <= size -> owns s' p size b k -> app s' = app s ->
     (forall i, 0 <= i < Z.min n size -> rd (mem s') (p + i) = rd (mem s) (a + i)) ->
     (b <> 0 -> forall i, 0 <= i < k -> rd (mem s') (b + i) = rd (mem s) (b + i)) -> Q p s') ->
  wp (rpcmem_realloc f a n size) Q R s.
Proof.
  change (2 ^ 62) with 4611686018427387904. intros Ho Hs H0 H1. unfold rpcmem_realloc, alloc. wp_step. wp_step. wp_step. cbv zeta.
  destruct (Hf s (u64 size)) as [E0|(Hp & Hlt & Hnew & Hap)]; [apply u64_range| |].
  { specialize (H0 E0). rewrite E0. cbn [Z.eqb]. wp_step. rewrite andb_false_r. wp_step. wp_step. by wp_step. }
  change (2 ^ 62) with 4611686018427387904 in *.
  set (p := f s (u64 size)) in *. rewrite (proj2 (Z.eqb_neq p 0)) by lia. wp_step. wp_step. wp_step. wp_step.
  pose proof (u64_range size) as Hu. destruct Hs as [Hs Eu]; [lia|]. rewrite Eu in *. rewrite (proj2 (Z.eqb_neq p 0)) by lia. cbn [negb]. rewrite andb_true_r.
  pose proof Ho as [Hb Ha Hk Hsep Hg].
  assert (Hpa : a <> 0 -> p <> a) by (intros Hne ->; rewrite (proj2 (owns_lookup s a n b k a n Ho)) in Hnew; [done|tauto]).
  assert (Hpb : b <> 0 -> p <> b) by (intros Hne ->; rewrite (proj2 (owns_lookup s a n b k b k Ho)) in Hnew; [done|tauto]).
  assert (Hapa : a <> 0 -> p + size <= a \/ a + n <= p).
  { intros Hne. apply Hap. apply (owns_lookup s a n b k a n Ho). tauto. }
  assert (Hapb : b <> 0 -> p + size <= b \/ b + k <= p).
  { intros Hne. apply Hap. apply (owns_lookup s a n b k b k Ho). tauto. }
  assert (Hpo : apart p size b k) by (unfold apart; destruct (decide (b = 0)); [tauto|right; right; intuition auto]).
  assert (Hpn : buf_ok p size) by (right; change (2 ^ 62) with 4611686018427387904; lia).
  assert (Ebp : blk p size = {[p := size]}) by (unfold blk; by rewrite (proj2 (Z.eqb_neq p 0)) by lia).
  destruct (Z.eqb_spec a 0) as [->|Hne]; cbn [negb].
  - wp_step. wp_step. destruct Ha as [[_ ->]|Ha]; [|lia]. apply H1; try done; try lia.
    constructor; try done. cbn [rpcmem set_rpcmem]. rewrite Hb, Ebp. unfold blk at 1. cbn [Z.eqb]. rewrite left_id_L by apply _. by rewrite insert_union_singleton_l.
  - wp_step. wp_step. unfold rpcmem_free_internal. wp_step. cbn [rpcmem set_mem set_rpcmem].
    rewrite lookup_insert_ne by (by apply Hpa). rewrite (proj2 (owns_lookup s a n b k a n Ho)) by tauto. wp_step.
    rewrite (u64_small n) by (destruct Ha as [[? ->]|?]; lia).
    assert (Hl : Z.of_nat (length (load (mem s) a (Z.min n size))) = Z.min n size).
    { rewrite length_load. apply Z2Nat.id. destruct Ha as [[? ->]|?]; lia. }
    apply H1; try lia; [|done|..].
    + constructor; try done. cbn [rpcmem set_mem set_rpcmem].
      rewrite Hb. unfold blk at 1. rewrite (proj2 (Z.eqb_neq a 0)) by done. rewrite Ebp.
      rewrite delete_insert_ne by (by apply not_eq_sym, Hpa). rewrite <- insert_union_singleton_l.
      rewrite delete_insert_id; [by rewrite insert_union_singleton_l|].
      unfold blk. destruct (Z.eqb_spec b 0); [done|]. apply lookup_singleton_ne. unfold apart in Hsep. lia.
    + intros i Hi. cbn [mem set_mem set_rpcmem]. rewrite rd_store_in by lia. 
      replace (p + i - p) with i by lia. rewrite nth_load by lia. done.
    + intros Hb0 i Hi. cbn [mem set_mem set_rpcmem]. apply rd_store_out. specialize (Hapb Hb0). lia.
Qed.
End realloc.

Lemma ALIGN_BUF_ge sz : -2147483648 <= sz < 2147483648 -> 0 <= ALIGN_BUF sz -> sz <= ALIGN_BUF sz.
Proof.
  intros Hz. unfold ALIGN_BUF, MIN_BUF_SIZE. change (Z.lnot (4096 - 1)) with (Z.lnot (2 ^ 12 - 1)). rewrite land_lnot_ones by lia.
  pose proof (Z.mod_pos_bound (s32 (sz + (4096 - 1))) (2 ^ 12)). intros H0.
  destruct (decide (sz + 4095 < 2147483648)); [rewrite s32_small in * by lia; lia|].
  exfalso. unfold s32 in *. Z.to_euclidean_division_equations. lia.
Qed.
Lemma ALIGNB_ge sz : -2147483648 <= sz < 2147483648 -> 0 <= ALIGNB sz -> sz <= ALIGNB sz.
Proof. intros Hz. unfold ALIGNB. destruct (Z.eqb_spec sz 0); [lia|]. by apply ALIGN_BUF_ge. Qed.
Lemma ALIGN_BUF_small sz : 0 <= sz < 1073741824 -> sz <= ALIGN_BUF sz < 2147483648.
Proof.
  intros Hz. unfold ALIGN_BUF, MIN_BUF_SIZE. change (Z.lnot (4096 - 1)) with (Z.lnot (2 ^ 12 - 1)). rewrite land_lnot_ones by lia.
  rewrite s32_small by lia. pose proof (Z.mod_pos_bound (sz + (4096 - 1)) (2 ^ 12)). lia.
Qed.
Lemma ALIGNB_u64 sz : u64 (ALIGNB sz) < 2 ^ 62 -> 0 <= ALIGNB sz < 2147483648 /\ u64 (ALIGNB sz) = ALIGNB sz.
Proof. unfold ALIGNB. destruct (sz =? 0); [done|]. apply ALIGN_BUF_u64. Qed.
Lemma smul2_ok a : smul2_overflow a = false -> -1073741824 <= a < 1073741824.
Proof. unfold smul2_overflow. intros H%negb_false_iff%Z.eqb_eq. pose proof (s32_range (a * 2)). lia. Qed.

(** ** What every turn keeps *)
Section inv.
Context {W K : Type} `{HS : HasSession W K} `{HO : SessionOps K}.
Variables (domain cache_size : Z) (is_process_exiting : W -> bool).
Variable f : lst W -> Z -> Z.
Variable next2 : Z -> Z -> Z -> list Z -> Z -> W -> reply * W.
Variable get_in_bufs2 : Z -> Z -> Z -> Z -> W -> (Z * list Z * Z) * W.
Variable mod_table_invoke : Z -> Z -> list remote_arg -> W -> memory -> (Z * memory) * W.
Variable eventfd_write : W -> Z * W.
Hypothesis Hf : alloc_ok f.
(** A predicate of the world for a thread with [r] references of its session, and that the
    calls keep it: the DSP is only waited for without a reference. *)
Variable Pw : Z -> W -> Prop.
Hypothesis Hnext : forall h c r bs n w, Pw 0 w -> Pw 0 (next2 h c r bs n w).2.
Hypothesis Hget_in : forall h c o n w, Pw 1 w -> Pw 1 (get_in_bufs2 h c o n w).2.
Hypothesis Hinvoke : forall h sc a w m, Pw 1 w -> Pw 1 (mod_table_invoke h sc a w m).2.
Hypothesis Hevent : forall w, Pw 0 w -> Pw 0 (eventfd_write w).2.
Hypothesis Hget : forall w, Pw 0 w -> exists e k, session_get domain (ses w) = (Go e, k) /\ Pw (if e =? 0 then 1 else 0) (set_ses k w).
Hypothesis Hput : forall w, Pw 1 w -> exists r k, session_put domain (ses w) = (Go r, k) /\ Pw 0 (set_ses k w).

Definition owned (l : loc) (s : lst W) : Prop := owns s (outBufs l) (outBufsCapacity l) (inBufs l) (inBufsLen l).
Record inv (l : loc) (s : lst W) : Prop := Inv {
  inv_owned : owned l s;
  inv_args : length (args l) = NUM_ARGS;
  inv_ref : ref l = 0 \/ ref l = 1;
  inv_world : Pw (ref l) (app s)
}.
(** At the label [invoke]: a reply that is going to be sent lies in its buffer. *)
Definition at_invoke (l : loc) (s : lst W) : Prop := inv l s /\ (result l = 0 -> outBufsLen l <= outBufsCapacity l).

Lemma inv_ext l l' s s' : inv l s -> rpcmem s' = rpcmem s -> bad_free s' = bad_free s -> Pw (ref l) (app s') ->
  outBufs l' = outBufs l -> outBufsCapacity l' = outBufsCapacity l -> inBufs l' = inBufs l -> inBufsLen l' = inBufsLen l ->
  length (args l') = length (args l) -> ref l' = ref l -> inv l' s'.
Proof.
  intros [H1 H2 H3 H4] E1 E2 Hp Eo Ec Ei En Ea Er. split; [|congruence|by rewrite Er|by rewrite Er].
  unfold owned. rewrite Eo, Ec, Ei, En. by eapply owns_ext.
Qed.

(** A call of the DSP. *)
Lemma next_call_spec h res out n l s (Q : Z -> lst W * loc -> Prop) R : inv l s -> ref l = 0 ->
  (forall e s' l', inv l' s' -> ref l' = 0 -> (e <> 0 -> l' = l) -> result l' = result l -> outBufsLen l' = outBufsLen l -> Q e (s', l')) ->
  wp (next next2 h res out n) Q R (s, l).
Proof.
  intros Hi Hr HQ. unfold next, world. wp_step. wp_step. wp_step. wp_step. wp_step. wp_step.
  unfold wp at 1. unfold id. pose proof (Hnext h (ctx l) res (load (mem s) out (u32 n)) (inBufsLen l) (app s)) as Hn.
  destruct (next2 _ _ _ _ _ _) as [r w]. cbn [snd] in Hn. repeat wp_step.
  - apply HQ; try done; [|by intros ?%Z.eqb_neq; congruence]. eapply inv_ext; try done. rewrite Hr. apply Hn. rewrite <- Hr. apply Hi.
  - apply HQ; try done. eapply inv_ext; try done. rewrite Hr. apply Hn. rewrite <- Hr. apply Hi.
Qed.

Ltac keep_inv H := eapply inv_ext; [exact H|first [reflexivity | apply H | idtac] ..].

Lemma inv_session l s r w : inv l s -> r = 0 \/ r = 1 -> Pw r w -> inv (set_ref r l) (set_app w s).
Proof. intros [Ho Ha Hr Hw] H1 H2. split; [|done..]. unfold owned in *. eapply owns_ext; [| |exact Ho]; done. Qed.

Lemma put_ref_spec l s (Q : unit -> lst W * loc -> Prop) R : inv l s ->
  (forall s', inv (set_ref 0 l) s' -> Q tt (s', set_ref 0 l)) -> wp (put_ref domain) Q R (s, l).
Proof.
  intros Hi HQ. unfold put_ref. wp_step. wp_step. unfold id. pose proof Hi as [Ho Ha Hr Hw]. destruct (Z.eqb_spec (ref l) 1) as [E|E].
  - wp_step. wp_step. rewrite E in Hw. destruct (Hput (app s) Hw) as (r & k & Ep & Hk). unfold wp at 1, on_ses.
    change (ses s) with (ses (app s)). rewrite Ep. wp_step. apply HQ.
    apply (inv_session l s 0 (set_ses k (app s))); [done|by left|done].
  - destruct Hr as [E0|E1]; [|done]. replace (set_ref 0 l) with l in * by (destruct l; cbn in *; by subst). wp_step. by apply HQ.
Qed.
Lemma get_ref_spec l s (Q : unit -> lst W * loc -> Prop) (R : Z -> lst W * loc -> Prop) : inv l s -> ref l = 0 ->
  (forall s', inv (set_ref 1 l) s' -> Q tt (s', set_ref 1 l)) -> (forall e s', e <> 0 -> inv l s' -> R e (s', l)) ->
  wp (get_ref domain) Q R (s, l).
Proof.
  intros Hi Hr HQ HR. unfold get_ref. wp_step. wp_step. wp_step. pose proof Hi as [Ho Ha _ Hw]. rewrite Hr in Hw.
  destruct (Hget (app s) Hw) as (e & k & Eg & Hk). unfold wp, on_ses. change (ses s) with (ses (app s)). rewrite Eg. split.
  - intros ->. apply HQ. apply (inv_session l s 1 (set_ses k (app s))); [done|by right|done].
  - intros He. apply HR; [done|]. rewrite (proj2 (Z.eqb_neq e 0)) in Hk by done. keep_inv Hi. by rewrite Hr.
Qed.

Lemma receive_spec h l s (Q : bool -> lst W * loc -> Prop) (R : Z -> lst W * loc -> Prop) : at_invoke l s ->
  (forall s' l', inv l' s' -> ref l' = 0 -> Q true (s', l')) ->
  (forall s' l', at_invoke l' s' -> ref l' = 0 -> Q false (s', l')) ->
  (forall e s' l', e <> 0 -> inv l' s' -> ref l' = 0 -> R e (s', l')) ->
  wp (receive domain next2 h) Q R (s, l).
Proof.
  intros [Hi Hl] HT HF HR. unfold receive. wp_step. wp_step. wp_step. wp_step. unfold id. wp_step.
  match goal with |- wp _ ?Q2 _ _ => enough (Hrest : forall l1, inv l1 s -> Q2 tt (s, l1)) end.
  { destruct (negb (result _ =? 0)); wp_step; apply Hrest; keep_inv Hi. }
  intros l1 H1. wp_step. apply put_ref_spec; [done|]. intros s2 H2. wp_step. wp_step. unfold id. wp_step.
  apply next_call_spec; [done|done|]. intros e s3 l3 H3 Hr3 Hl3 _ _. cbv beta.
  wp_step; [wp_step; by apply HT|]. apply Z.eqb_neq in H. wp_step.
  - wp_step. wp_step. wp_step. wp_step. wp_step. apply HF; [|done]. split; [keep_inv H3|done].
  - wp_step; [wp_step; by apply HR|]. wp_step. apply next_call_spec; [done|done|]. intros e4 s4 l4 Hi4 Hr4 _ _ _. cbv beta. destruct (Z.eqb_spec e4 0).
    + wp_step. by apply HT.
    + wp_step. by apply HR.
Qed.

(** Why a call is refused before it reaches the module: its sizes, the memory, the DSP. *)
Definition no_memory (size : Z) : Prop := exists s a n b k, owns s a n b k /\ f s (u64 size) = 0.
Definition in_fault (h : Z) (l : loc) (s : lst W) : Prop :=
  smul2_overflow (inBufsLenReq l) = true \/ no_memory (ALIGNB (inBufsLenReq l * 2)) \/ no_memory (ALIGN_BUF (inBufsLenReq l)) \/
  (inBufsLen l < inBufsLenReq l /\
   let r := get_in_bufs2 h (ctx l) (inBufsLen l) (ALIGN_BUF (inBufsLenReq l) - inBufsLen l) (app s) in
   r.1.1.1 <> 0 \/ ALIGN_BUF (inBufsLenReq l) < r.1.2).
Definition out_fault (l : loc) : Prop :=
  smul2_overflow (outBufsLen l) = true \/ no_memory (ALIGNB (outBufsLen l * 2)) \/ no_memory (ALIGNB (outBufsLen l)).

(** What the input buffer holds once a request of [inBufsLenReq] bytes is complete: what was
    there, then what [get_in_bufs2] delivered. *)
Definition fetched (h : Z) (l : loc) (s : lst W) (p n : Z) (s' : lst W) : Prop :=
  (forall i, 0 <= i < Z.min (inBufsLen l) (inBufsLenReq l) -> rd (mem s') (p + i) = rd (mem s) (inBufs l + i)) /\
  (inBufsLenReq l <= inBufsLen l -> app s' = app s) /\
  (inBufsLen l < inBufsLenReq l ->
    let r := get_in_bufs2 h (ctx l) (inBufsLen l) (n - inBufsLen l) (app s) in
    n = ALIGN_BUF (inBufsLenReq l) /\ app s' = r.2 /\
    forall i, 0 <= i < n - inBufsLen l -> i < Z.of_nat (length r.1.1.2) -> rd (mem s') (p + inBufsLen l + i) = nth (Z.to_nat i) r.1.1.2 0).

Lemma rd_store_take m a bs n i : 0 <= i < n -> i < Z.of_nat (length bs) -> rd (store m a (take (Z.to_nat n) bs)) (a + i) = nth (Z.to_nat i) bs 0.
Proof.
  intros Hi Hl. rewrite rd_store_in by (rewrite length_take; lia). replace (a + i - a) with i by lia.
  rewrite !nth_lookup, lookup_take_lt by lia. done.
Qed.

Lemma fit_in_spec h l s (Q : unit -> lst W * loc -> Prop) (R : Z -> lst W * loc -> Prop) : inv l s -> ref l = 1 ->
  (forall p n s', inv (set_in p n l) s' -> inBufsLenReq l <= n -> fetched h l s p n s' -> Q tt (s', set_in p n l)) ->
  (forall e s' l', e <> 0 -> inv l' s' -> ref l' = 1 -> in_fault h l s -> R e (s', l')) ->
  wp (fit_in_bufs cache_size f get_in_bufs2 h) Q R (s, l).
Proof.
  intros Hi Hr HQ HR. unfold fit_in_bufs. wp_step. wp_step. unfold id. wp_step. apply wp_VERIFYC; intros Hov; [|apply HR; [done..|left; by apply negb_false_iff]].
  apply negb_true_iff, smul2_ok in Hov. pose proof (inv_owned _ _ Hi) as Ho.
  wp_step. cbv zeta.
  match goal with |- wp _ ?Q2 _ _ => enough (Hrest : forall p n s1, inv (set_in p n l) s1 -> app s1 = app s ->
    (p = inBufs l /\ n = inBufsLen l /\ s1 = s \/ inBufsLenReq l <= n /\ inBufsLenReq l < inBufsLen l /\ forall i, 0 <= i < Z.min (inBufsLen l) (inBufsLenReq l) -> rd (mem s1) (p + i) = rd (mem s) (inBufs l + i)) ->
    Q2 tt (s1, set_in p n l)) end.
  - apply wp_if; intros Hc.
    + apply andb_true_iff in Hc as [Hc1%Z.ltb_lt Hc2]. wp_step. wp_step.
      eapply realloc_spec; [done|apply owns_sym, Ho|apply ALIGNB_u64| |].
      * intros E0. cbv beta. wp_step. apply wp_VERIFYC; intros Hb; [by rewrite Z.eqb_refl in Hb|]. apply HR; [done..|right; left; by eexists _, _, _, _, _].
      * intros p s' Hp Hs Ho' Ea Hd _. wp_step. apply wp_VERIFYC; intros Hb; [|by rewrite (proj2 (Z.eqb_neq p 0)) in Hb].
        wp_step. pose proof (ALIGNB_ge (inBufsLenReq l * 2) ltac:(lia) Hs) as Hge.
        apply Hrest; [|done|].
        -- split; [by apply owns_sym|apply Hi..|]. cbn. rewrite Ea. apply Hi.
        -- right. split_and!; [lia|lia|]. intros i Hlt. apply Hd. lia.
    + wp_step. assert (El : l = set_in (inBufs l) (inBufsLen l) l) by by destruct l.
      replace (s, l) with (s, set_in (inBufs l) (inBufsLen l) l) by by rewrite <- El. apply Hrest; [by rewrite <- El|done|by left].
  - intros p n s1 H1 Ea Hd. wp_step. wp_step. unfold id. cbn [inBufsLen inBufs inBufsLenReq ctx set_in].
    apply wp_if; intros Hc%(Z.ltb_lt n) || intros Hc%(Z.ltb_ge n).
    2:{ wp_step. apply HQ; [done|done|]. split_and!; [|done|].
        - destruct Hd as [(-> & -> & ->)|(_ & _ & Hd)]; [done|exact Hd].
        - intros Hlt. destruct Hd as [(-> & -> & ->)|(H2 & H3 & Hd)]; lia. }
    destruct Hd as [(-> & -> & ->)|(Hlt & _)]; [|lia].
    wp_step. wp_step. assert (El : l = set_in (inBufs l) (inBufsLen l) l) by by destruct l.
    eapply realloc_spec; [done|apply owns_sym, Ho|apply ALIGN_BUF_u64| |].
    { intros E0. cbv beta. wp_step. apply wp_VERIFYC; intros Hb; [by rewrite Z.eqb_refl in Hb|]. rewrite <- El. apply HR; [done..|right; right; left; by eexists _, _, _, _, _]. }
    intros p s' Hp Hs Ho' Ea' Hd _. wp_step. apply wp_VERIFYC; intros Hb; [|by rewrite (proj2 (Z.eqb_neq p 0)) in Hb].
    wp_step. wp_step. wp_step. wp_step. unfold world, wp at 1.
    pose proof (Hget_in h (ctx l) (inBufsLen l) (ALIGN_BUF (inBufsLenReq l) - inBufsLen l) (app s')) as Hg.
    destruct (get_in_bufs2 h (ctx l) _ _ (app s')) as [[[res bytes] req] w] eqn:Eg. cbn [snd] in Hg.
    wp_step. wp_step. wp_step. wp_step.
    set (n := ALIGN_BUF (inBufsLenReq l)) in *.
    assert (Hin : inv (set_in p n l) (set_mem (store (mem (set_app w s')) (p + inBufsLen l) (take (Z.to_nat (n - inBufsLen l)) bytes)) (set_app w s'))).
    { split; [|apply Hi..|].
      - unfold owned. eapply owns_ext; [| |apply owns_sym, Ho']; done.
      - cbn. rewrite Hr. apply Hg. rewrite Ea', <- Hr. apply Hi. }
    change (set_in p n (set_in (inBufs l) (inBufsLen l) l)) with (set_in p n l).
    apply wp_VERIFYC; intros Hres; [|apply Z.eqb_neq in Hres; apply HR; [done|done|done|right; right; right; split; [done|]; rewrite <- Ea'; fold n; rewrite Eg; by left]].
    apply wp_VERIFYC; intros Hreq; [|apply HR; [done..|right; right; right; split; [done|]; rewrite <- Ea'; fold n; rewrite Eg; right; cbn; apply negb_false_iff, Z.ltb_lt in Hreq; exact Hreq]]. pose proof (ALIGN_BUF_ge (inBufsLenReq l) ltac:(lia) Hs) as Hge.
    pose proof (own_b _ _ _ _ _ Ho) as Hbo.
    apply HQ; [exact Hin|done|]. unfold fetched. cbn [mem set_mem set_app app]. split_and!.
    + intros i Hlt. rewrite rd_store_out by lia. apply Hd. unfold n. lia.
    + lia.
    + intros _. fold n. rewrite <- Ea', Eg. cbn. split_and!; [done|done|]. intros i Hlt Hlb. by apply rd_store_take.
Qed.

(** The bytes of the input buffer. *)
Definition same_in (l : loc) (s s' : lst W) : Prop :=
  inBufs l <> 0 -> forall i, 0 <= i < inBufsLen l -> rd (mem s') (inBufs l + i) = rd (mem s) (inBufs l + i).

Lemma fit_out_spec l s (Q : unit -> lst W * loc -> Prop) (R : Z -> lst W * loc -> Prop) : inv l s -> ref l = 1 ->
  -2147483648 <= outBufsLen l < 2147483648 ->
  (forall p c n s', inv (set_out_len n (set_out p c l)) s' -> outBufsLen l <= n <= c -> same_in l s s' -> app s' = app s ->
     Q tt (s', set_out_len n (set_out p c l))) ->
  (forall e s' l', e <> 0 -> inv l' s' -> ref l' = 1 -> out_fault l -> R e (s', l')) ->
  wp (fit_out_bufs cache_size f) Q R (s, l).
Proof.
  intros Hi Hr Hrange HQ HR. unfold fit_out_bufs. wp_step. wp_step. unfold id. wp_step. apply wp_VERIFYC; intros Hov; [|apply HR; [done..|left; by apply negb_false_iff]].
  apply negb_true_iff, smul2_ok in Hov. pose proof (inv_owned _ _ Hi) as Ho.
  assert (El : l = set_out (outBufs l) (outBufsCapacity l) l) by by destruct l.
  wp_step. cbv zeta.
  match goal with |- wp _ ?Q2 _ _ => enough (Hrest : forall p c s1, inv (set_out p c l) s1 -> app s1 = app s -> same_in l s s1 ->
    (p = outBufs l /\ c = outBufsCapacity l /\ s1 = s \/ outBufsLen l <= c) -> Q2 tt (s1, set_out p c l)) end.
  - apply wp_if; intros Hc.
    + apply andb_true_iff in Hc as [Hc1%Z.ltb_lt Hc2]. wp_step. wp_step.
      eapply realloc_spec; [done|exact Ho|apply ALIGNB_u64| |].
      * intros E0. cbv beta. wp_step. apply wp_VERIFYC; intros Hb; [by rewrite Z.eqb_refl in Hb|]. apply HR; [done..|right; left; by eexists _, _, _, _, _].
      * intros p s' Hp Hs Ho' Ea _ Hd. wp_step. apply wp_VERIFYC; intros Hb; [|by rewrite (proj2 (Z.eqb_neq p 0)) in Hb].
        wp_step. pose proof (ALIGNB_ge (outBufsLen l * 2) ltac:(lia) Hs) as Hge.
        apply Hrest; [|done|exact Hd|right; lia].
        split; [exact Ho'|apply Hi..|]. cbn. rewrite Ea. apply Hi.
    + wp_step. replace (s, l) with (s, set_out (outBufs l) (outBufsCapacity l) l) by by rewrite <- El.
      apply Hrest; [by rewrite <- El|done|by intros ? ? ?|by left].
  - intros p c s1 H1 Ea Hin Hd. wp_step. wp_step. unfold id. cbn [outBufsLen outBufsCapacity outBufs set_out].
    apply wp_if; intros Hc%(Z.ltb_lt c) || intros Hc%(Z.ltb_ge c).
    2:{ wp_step. replace (set_out p c l) with (set_out_len (outBufsLen l) (set_out p c l)) by by destruct l.
        apply HQ; [by destruct l|lia|done|done]. }
    destruct Hd as [(-> & -> & ->)|Hlt]; [|lia].
    wp_step. wp_step. eapply realloc_spec; [done|exact Ho|apply ALIGNB_u64| |].
    { intros E0. cbv beta. wp_step. apply wp_VERIFYC; intros Hb; [by rewrite Z.eqb_refl in Hb|]. rewrite <- El. apply HR; [done..|right; right; by eexists _, _, _, _, _]. }
    intros p s' Hp Hs Ho' Ea' _ Hd. wp_step. apply wp_VERIFYC; intros Hb; [|by rewrite (proj2 (Z.eqb_neq p 0)) in Hb].
    wp_step. wp_step. wp_step. pose proof (ALIGNB_ge (outBufsLen l) ltac:(lia) Hs) as Hge.
    change (set_out p (ALIGNB (outBufsLen l)) (set_out (outBufs l) (outBufsCapacity l) l)) with (set_out p (ALIGNB (outBufsLen l)) l).
    apply HQ; [|lia|exact Hd|done].
    split; [exact Ho'|apply Hi..|]. cbn. rewrite Ea'. apply Hi.
Qed.

Lemma pack_out_bufs_length b m pra : length (pack_out_bufs b m pra).2 = length pra.
Proof.
  revert b m. induction pra as [|a pra IH]; intros b m; [done|]. cbn [pack_out_bufs]. destruct (sbuf_write _ _ _ _) as [b1 m1].
  destruct (nLen a =? 0); cbv zeta; match goal with |- context [pack_out_bufs ?b ?m pra] => specialize (IH b m); destruct (pack_out_bufs b m pra) as [[? ?] ?] end;
  cbn in *; by rewrite IH.
Qed.
Lemma unpack_in_bufs_length b m len pra : length (unpack_in_bufs b m len pra).2 = length pra.
Proof.
  revert b len. induction pra as [|a pra IH]; intros b len; [done|]. cbn [unpack_in_bufs]. destruct (sbuf_read _ _ _ _) as [b1 bs].
  cbv zeta. destruct (of_le32 bs =? 0); match goal with |- context [unpack_in_bufs ?b m ?n pra] => specialize (IH b n); destruct (unpack_in_bufs b m n pra) as [? ?] end;
  cbn in *; by rewrite IH.
Qed.
Lemma unpack_out_lens_length b m len pra : length (unpack_out_lens b m len pra).2 = length pra.
Proof.
  revert b len. induction pra as [|a pra IH]; intros b len; [done|]. cbn [unpack_out_lens]. destruct (sbuf_read _ _ _ _) as [b1 bs].
  cbv zeta. match goal with |- context [unpack_out_lens ?b m ?n pra] => specialize (IH b n); destruct (unpack_out_lens b m n pra) as [? ?] end;
  cbn in *; by rewrite IH.
Qed.

Lemma set_out_args_length v l : length v = length (out_args l) -> length (args (set_out_args v l)) = length (args l).
Proof. unfold set_out_args, out_args. cbn. rewrite !length_app, !length_take, !length_drop. lia. Qed.

(** The two passes over the output arguments, and the unpacking. *)
Lemma pack_outs_spec data dataLen l s (Q : Z -> lst W * loc -> Prop) (R : Z -> lst W * loc -> Prop) :
  (let r := pack_out_bufs (sbuf_init 0 data dataLen) (mem s) (out_args l) in
   Q (sbuf_needed r.1.1) (set_mem r.1.2 s, set_out_args r.2 l)) ->
  wp (pack_outs data dataLen) Q R (s, l).
Proof.
  cbv zeta. intros HQ. unfold pack_outs. repeat wp_step. unfold id. destruct (pack_out_bufs _ _ _) as [[b m] v]. repeat wp_step. exact HQ.
Qed.
Definition unpacked (l : loc) (m : memory) : loc :=
  let ins := Z.to_nat (REMOTE_SCALARS_INBUFS (sc l)) in
  let r := unpack_in_bufs (sbuf_init 0 (inBufs l) (inBufsLen l)) m 0 (take ins (args l)) in
  let l1 := set_args (r.2 ++ drop ins (args l)) l in
  set_out_args (unpack_out_lens r.1 m 0 (out_args l1)).2 l1.
Lemma unpack_args_spec l s (Q : unit -> lst W * loc -> Prop) (R : Z -> lst W * loc -> Prop) :
  Q tt (s, unpacked l (mem s)) -> wp (unpack_args) Q R (s, l).
Proof.
  intros HQ. unfold unpack_args, unpacked in *. repeat wp_step. unfold id. cbv zeta in *. destruct (unpack_in_bufs _ _ _ _) as [b v]. cbn [fst snd] in *.
  repeat wp_step. unfold id. destruct (unpack_out_lens _ _ _ _). cbn [snd] in HQ. by repeat wp_step.
Qed.
Lemma unpacked_length l m : length (args (unpacked l m)) = length (args l).
Proof.
  unfold unpacked. cbv zeta. rewrite set_out_args_length by by rewrite unpack_out_lens_length.
  cbn [args set_args]. rewrite length_app, unpack_in_bufs_length, length_take, length_drop. lia.
Qed.
Lemma sbuf_needed_range b : -2147483648 <= sbuf_needed b < 2147483648.
Proof. apply s32_range. Qed.

Lemma serve_spec h l s (Q : unit -> lst W * loc -> Prop) (R : Z -> lst W * loc -> Prop) : inv l s -> ref l = 1 ->
  (forall s' l', at_invoke l' s' -> ref l' = 1 -> Q tt (s', l')) -> (forall e s' l', e <> 0 -> inv l' s' -> ref l' = 1 -> R e (s', l')) ->
  wp (serve cache_size is_process_exiting f get_in_bufs2 mod_table_invoke h) Q R (s, l).
Proof.
  intros Hi Hr HQ HR. unfold serve, invoke_call. wp_step. apply fit_in_spec; [done|done| |by intros; apply HR].
  intros p n s1 H1 _ _. wp_step. wp_step. unfold id. wp_step. apply wp_VERIFYC; intros Hh; [|by apply HR].
  set (l1 := set_in p n l) in *. wp_step. apply unpack_args_spec.
  assert (H2 : inv (unpacked l1 (mem s1)) s1) by (eapply inv_ext; [exact H1|try reflexivity..]; [apply H1|apply unpacked_length]).
  set (l2 := unpacked l1 (mem s1)) in *. assert (Hr2 : ref l2 = 1) by done. clearbody l2. wp_step. apply pack_outs_spec. cbv zeta.
  destruct (pack_out_bufs _ _ _) as [[b m] v] eqn:E. cbn [fst snd]. wp_step. wp_step.
  set (l3 := set_out_len (sbuf_needed b) (set_out_args v l2)).
  assert (Ev : length v = length (out_args l2)) by (change v with (b, m, v).2; rewrite <- E; apply pack_out_bufs_length).
  assert (H3 : inv l3 (set_mem m s1)) by (eapply inv_ext; [exact H2|try reflexivity..]; [apply H2|by apply set_out_args_length]).
  wp_step. apply fit_out_spec; [done|done|apply sbuf_needed_range| |by intros; apply HR].
  intros po c no s4 H4 Hno _ _. wp_step. wp_step. unfold id. wp_step. set (l4 := set_out_len no (set_out po c l3)) in *. apply pack_outs_spec. cbv zeta.
  destruct (pack_out_bufs (sbuf_init 0 (outBufs l4) _) _ _) as [[b5 m5] v5] eqn:E5. cbn [fst snd].
  assert (Ev5 : length v5 = length (out_args l4)) by (change v5 with (b5, m5, v5).2; rewrite <- E5; apply pack_out_bufs_length).
  assert (H5 : inv (set_out_args v5 l4) (set_mem m5 s4)) by (eapply inv_ext; [exact H4|try reflexivity..]; [apply H4|by apply set_out_args_length]).
  assert (Hr5 : ref l4 = 1) by done.
  wp_step. wp_step. unfold id. wp_step. wp_step. wp_step.
  set (l5 := set_out_args v5 l4) in *.
  pose proof (Hinvoke (handle l5) (sc l5) (args l5) (app (set_mem m5 s4)) (mem (set_mem m5 s4))) as Hm.
  destruct (mod_table_invoke _ _ _ _ _) as [[r m6] w6]. cbn [snd] in Hm. repeat wp_step. apply HQ; [|done]. split; [|intros _; cbn; lia].
  keep_inv H5. cbn. change (Pw (ref l4) w6). rewrite Hr5. apply Hm. change (Pw 1 (app s4)). rewrite <- Hr5. apply H4.
Qed.

Lemma turn_spec h l s (Q : unit -> lst W * loc -> Prop) (R : Z -> lst W * loc -> Prop) : at_invoke l s ->
  (forall s' l', at_invoke l' s' -> Q tt (s', l')) -> (forall e s' l', e <> 0 -> inv l' s' -> ref l' = 0 -> R e (s', l')) ->
  wp (turn domain cache_size is_process_exiting f next2 get_in_bufs2 mod_table_invoke h) Q R (s, l).
Proof.
  intros Hi HQ HR. unfold turn. wp_step. apply receive_spec; [done| | |done].
  - intros s1 l1 H1 Hr1. cbv iota beta. wp_step. apply get_ref_spec; [done|done| |by intros; apply HR].
    intros s2 H2. wp_step. wp_step. apply serve_spec; [done|done| |].
    + intros s3 l3 H3 Hr3. change (Q tt (s3, l3)). by apply HQ.
    + intros e s3 l3 He H3 Hr3. rewrite (proj2 (Z.eqb_neq e AEE_SUCCESS)) by done. wp_step. apply HQ. split; [keep_inv H3|by intros E; cbn in E].
  - intros s1 l1 H1 Hr1. wp_step. by apply HQ.
Qed.
Lemma turns_spec fuel h l s (Q : unit -> lst W * loc -> Prop) (R : Z -> lst W * loc -> Prop) : at_invoke l s ->
  (forall s' l', at_invoke l' s' -> Q tt (s', l')) -> (forall e s' l', e <> 0 -> inv l' s' -> ref l' = 0 -> R e (s', l')) ->
  wp (turns domain cache_size is_process_exiting f next2 get_in_bufs2 mod_table_invoke fuel h) Q R (s, l).
Proof.
  intros Hi HQ HR. revert l s Hi. induction fuel as [|fuel IH]; intros l s Hi; cbn [turns].
  - wp_step. by apply HQ.
  - wp_step. apply turn_spec; [done| |done]. intros s' l' H'. by apply IH.
Qed.

(** The end of the thread. *)
Lemma freeif_spec s a n b k (Q : unit -> lst W -> Prop) R : owns s a n b k ->
  (forall s', owns s' 0 0 b k -> app s' = app s -> Q tt s') -> wp (RPC_FREEIF a) Q R s.
Proof.
  intros Ho HQ. unfold RPC_FREEIF, rpcmem_free_internal. pose proof Ho as [Hb Ha Hk Hs Hg]. destruct (Z.eqb_spec a 0) as [->|Hne]; cbn [negb].
  - wp_step. apply HQ; [|done]. destruct Ha as [[_ ->]|Ha]; [done|lia].
  - wp_step. rewrite (proj2 (owns_lookup s a n b k a n Ho)) by tauto. apply HQ; [|done].
    constructor; [|by left|done|by left|done]. cbn [rpcmem set_rpcmem]. rewrite Hb.
    unfold blk at 1. rewrite (proj2 (Z.eqb_neq a 0)) by done. unfold blk at 2. cbn [Z.eqb]. rewrite (left_id_L ∅ (∪)).
    rewrite <- insert_union_singleton_l. apply delete_insert_id. unfold blk.
    destruct (Z.eqb_spec b 0); [done|]. apply lookup_singleton_ne. unfold apart in Hs. lia.
Qed.
Lemma write_event_spec n s (Q : Z -> lst W -> Prop) R : Pw 0 (app s) ->
  (forall e s', rpcmem s' = rpcmem s -> bad_free s' = bad_free s -> Pw 0 (app s') -> Q e s') -> wp (write_event eventfd_write n) Q R s.
Proof.
  revert s. induction n as [|n IH]; intros s Hw HQ; cbn [write_event].
  - wp_step. by apply HQ.
  - wp_step. unfold world, wp at 1. pose proof (Hevent _ Hw) as He. destruct (eventfd_write (app s)) as [e w]. cbn [snd] in He.
    wp_step; [wp_step; by apply HQ|]. destruct n; [wp_step; by apply HQ|]. apply IH; [done|]. intros. by apply HQ.
Qed.
Lemma finish_spec l s (Q : Z -> lst W -> Prop) R : inv l s -> ref l = 0 ->
  (forall e s', rpcmem s' = ∅ -> bad_free s' = false -> Pw 0 (app s') -> Q e s') -> wp (finish eventfd_write l) Q R s.
Proof.
  intros Hi Hr HQ. unfold finish. wp_step. eapply freeif_spec; [apply Hi|]. intros s1 H1 E1. wp_step.
  eapply freeif_spec; [apply owns_sym, H1|]. intros s2 H2 E2. apply write_event_spec.
  - rewrite E2, E1, <- Hr. apply Hi.
  - intros e s3 E3 Eb Hw. apply HQ; [|rewrite Eb; apply H2|done]. rewrite E3, (own_blocks _ _ _ _ _ H2). unfold blk. cbn. by rewrite (left_id_L ∅ (∪)).
Qed.

End inv.

Lemma owned_start {W} (s : lst W) : rpcmem s = ∅ -> bad_free s = false -> owned loc0 s.
Proof. intros H1 H2. constructor; [|by left|by left|by left|done]. rewrite H1. unfold blk. cbn. by rewrite (left_id_L ∅ (∪)). Qed.

Lemma wp_exists {S A} (m : M S A) (P : A -> S -> Prop) s : wp m P (fun _ _ => False) s -> exists a s', m s = (Go a, s') /\ P a s'.
Proof. unfold wp. destruct (m s) as [[a|] s']; [|done]. intros H. by exists a, s'. Qed.

Section theorems.
Context {W K : Type} `{HS : HasSession W K} `{HO : SessionOps K}.
Variables (domain cache_size : Z) (is_process_exiting : W -> bool).
Variable f : lst W -> Z -> Z.
Variable next2 : Z -> Z -> Z -> list Z -> Z -> W -> reply * W.
Variable get_in_bufs2 : Z -> Z -> Z -> Z -> W -> (Z * list Z * Z) * W.
Variable mod_table_invoke : Z -> Z -> list remote_arg -> W -> memory -> (Z * memory) * W.
Variable eventfd_write : W -> Z * W.
Abbreviation run := (listener domain cache_size is_process_exiting f next2 get_in_bufs2 mod_table_invoke eventfd_write).
Abbreviation loop := (turns domain cache_size is_process_exiting f next2 get_in_bufs2 mod_table_invoke).


(** C8: The session reference of the listener: it holds exactly one while it serves a call, so
    that the session cannot be closed under the module function, none while it waits for the
    DSP, and none once it has ended, whatever fails. What the DSP and the modules do is only
    assumed to keep the counts in these states. *)
Theorem listener_references `{HL : !SessionLaws K} (base : Z -> Z) fuel h s :
  let counts r w := sess_ok (ses w) /\ forall x, sref (ses w) x = base x + (if decide (x = domain) then r else 0) in
  alloc_ok f -> base domain < REF_MAX ->
  (forall h c r bs n w, counts 0 w -> counts 0 (next2 h c r bs n w).2) ->
  (forall h c o n w, counts 1 w -> counts 1 (get_in_bufs2 h c o n w).2) ->
  (forall h sc a w m, counts 1 w -> counts 1 (mod_table_invoke h sc a w m).2) ->
  (forall w, counts 0 w -> counts 0 (eventfd_write w).2) ->
  rpcmem s = ∅ -> bad_free s = false -> counts 0 (app s) ->
  exists r s', run fuel h s = (Go r, s') /\ match r with Some _ => counts 0 (app s') | None => counts 0 (app s') \/ counts 1 (app s') end.
Proof.
  intros Pw Hf Hb Hn Hg Hi He H1 H2 H0.
  assert (Hget : forall w, Pw 0 w -> exists e k, session_get domain (ses w) = (Go e, k) /\ Pw (if e =? 0 then 1 else 0) (set_ses k w)).
  { intros w [Hok Hc]. destruct (get_sref domain (ses w) Hok) as (e & k & E & Hok' & Hs'); [rewrite Hc, decide_True by done; lia|].
    exists e, k. split; [done|]. unfold Pw. rewrite ses_set. split; [done|]. intros x. rewrite Hs', !Hc.
    destruct (Z.eqb_spec e 0), (decide (x = domain)) as [->|Hx]; rewrite ?(decide_True (P := domain = domain)) by done;
      [rewrite decide_True by done|rewrite decide_False by tauto..]; lia. }
  assert (Hput : forall w, Pw 1 w -> exists r k, session_put domain (ses w) = (Go r, k) /\ Pw 0 (set_ses k w)).
  { intros w [Hok Hc]. pose proof (sref_range (ses s) domain (proj1 H0)) as Hr. rewrite (proj2 H0), decide_True in Hr by done.
    destruct (put_sref domain (ses w) Hok) as (e & k & E & Hok' & Hs'); [rewrite Hc, decide_True by done; lia|].
    exists e, k. split; [done|]. unfold Pw. rewrite ses_set. split; [done|]. intros x. rewrite Hs', !Hc.
    destruct (decide (x = domain)) as [->|Hx]; rewrite ?(decide_True (P := domain = domain)) by done; lia. }
  apply wp_exists. unfold listener. wp_step. wp_step.
  apply (turns_spec domain cache_size is_process_exiting f next2 get_in_bufs2 mod_table_invoke Hf Pw Hn Hg Hi Hget Hput).
  - split; [split; [by apply owned_start|done|by left|done]|done].
  - intros s' l' [[_ _ [Hr|Hr] Hw] _]; rewrite Hr in Hw; cbv beta; cbn [fst snd]; change (AEE_SUCCESS =? 0) with true; [by left|by right].
  - intros e s' l' Hne Hi' Hr. cbv beta. cbn [fst snd]. rewrite (proj2 (Z.eqb_neq e 0)) by done. wp_step.
    eapply finish_spec with (Pw := Pw); done.
Qed.
End theorems.

(** ** A concrete listener

    The world is the session table and the number of calls of [next2] so far. The first one
    brings a request with one input of three bytes and one output of ten, the second is
    interrupted, and the DSP is gone after that. *)
Module ListenerEx.
#[local] Instance ex_pl : PlResult := 0.
#[export] Instance self_session : HasSession (proc * nat) (proc * nat) := { ses w := w; set_ses k _ := k; ses_set k _ := eq_refl }.

(** The blocks lie behind each other. *)
Definition top (m : gmap Z Z) : Z := foldr (fun p t => Z.max (Z.max p.1 (p.1 + p.2)) t) 4096 (map_to_list m).
Definition allocate (s : lst (proc * nat)) (n : Z) : Z := let a := 1 + top (rpcmem s) in if a + n <? 2147483648 then a else 0.
Lemma top_ge m : 4096 <= top m /\ forall b k, m !! b = Some k -> b <= top m /\ b + k <= top m.
Proof.
  unfold top. split.
  - induction (map_to_list m); cbn; lia.
  - intros b k H%elem_of_map_to_list. induction (map_to_list m) as [|x xs IH]; [by apply elem_of_nil in H|].
    apply elem_of_cons in H as [<-|H]; cbn; [lia|]. specialize (IH H). lia.
Qed.
Lemma allocate_ok : alloc_ok allocate.
Proof.
  intros s n Hn. unfold allocate. cbv zeta. destruct (top_ge (rpcmem s)) as [H1 H2]. change (2 ^ 62) with 4611686018427387904.
  destruct (Z.ltb_spec (1 + top (rpcmem s) + n) 2147483648); [right|by left]. split_and!; [lia|lia| |].
  - destruct (rpcmem s !! _) eqn:E; [|done]. specialize (H2 _ _ E). lia.
  - intros b k E. specialize (H2 _ _ E). lia.
Qed.

Definition request : list Z := le32 3 ++ [0; 0; 0; 0; 11; 22; 33] ++ le32 10.
Definition dsp (h c r : Z) (bs : list Z) (n : Z) (w : proc * nat) : reply * (proc * nat) :=
  (match w.2 with
   | O => Reply 0 7 5 (REMOTE_SCALARS_MAKEX 0 2 1 1 0 0) (Z.of_nat (length request)) request
   | S O => Reply AEE_EINTERRUPTED 0 0 0 0 []
   | _ => Reply (-1) 0 0 0 0 []
   end, (w.1, S w.2)).
Definition dsp_bufs (h c o n : Z) (w : proc * nat) : (Z * list Z * Z) * (proc * nat) := ((0, drop (Z.to_nat o) request, Z.of_nat (length request)), w).
(** The module writes the sum of its input to its output. *)
Definition module (h sc : Z) (a : list remote_arg) (w : proc * nat) (m : memory) : (Z * memory) * (proc * nat) :=
  match a with
  | i :: o :: _ => ((0, store m (pv o) [foldr Z.add 0 (load m (pv i) (nLen i))]), w)
  | _ => ((1, m), w)
  end.
Definition event_ok (w : proc * nat) : Z * (proc * nat) := (0, w).
Definition entry : handle_list := HandleList [] [] [] 0 0 0 0 FASTRPC_DOMAIN_STATE_INIT 0 5 0 0.
Definition start : lst (proc * nat) := Lst (Proc (Some {[ 3 := entry ]}) true (Some 3) [], O) ∅ ∅ false.
Abbreviation exrun := (listener (W := proc * nat) (K := proc * nat) 3 0 (fun _ => false) allocate dsp dsp_bufs module event_ok).

Lemma entry_refs d : Session.ref (hl (app start).1 d) = 0.
Proof. unfold hl. cbn. destruct (decide (d = 3)) as [->|]; [by rewrite lookup_singleton_eq|by rewrite lookup_singleton_ne]. Qed.
Lemma listener_references_witness : exists s', exrun 5 1 start = (Go (Some 0), s') /\ Session.ref (hl (app s').1 3) = 0.
Proof.
  destruct (listener_references 3 0 (fun _ => false) allocate dsp dsp_bufs module event_ok (fun _ => 0) 5 1 start)
    as (r & s' & E & H); [apply allocate_ok|done|done|done| |done|done|done| |].
  - intros h c a w m Hw. unfold module. destruct a as [|i [|o a]]; exact Hw.
  - split; [intros d; change (0 <= Session.ref (hl (app start).1 d) <= REF_MAX); by rewrite entry_refs|]. intros d. destruct (decide (d = 3)); apply entry_refs.
  - exists s'. assert (Er : (exrun 5 1 start).1 = Go (Some 0)) by (vm_compute; reflexivity). rewrite E in Er. injection Er as ->. split; [exact E|].
    destruct H as [_ H]. apply H.
Defined.
End ListenerEx.
