(* ===== verification/ListenerCall.v ===== *)
(** A call of the DSP, from the sender that packs its arguments to the function of a module:
    the composition of the buffers of [ListenerBuf] with the turn of [Listener]. *)
From S2P Require Import Prelude Errors Sbuf ListenerBuf Remote Session SessionIface Listener.
#[local] Open Scope Z_scope.

(** ** The bytes of a request *)

(** From offset [o] on, the memory at [base] carries these payloads. *)
Fixpoint carries (m : memory) (base o : Z) (ps : list (list Z)) : Prop :=
  match ps with
  | [] => True
  | p :: ps =>
    let n := Z.of_nat (length p) in
    of_le32 (load m (base + o) 4) = n /\ load m (base + item_data o) n = p /\ carries m base (item_end o n) ps
  end.
(** The words with the lengths of the outputs. *)
Fixpoint carries_words (m : memory) (a : Z) (ns : list Z) : Prop :=
  match ns with [] => True | n :: ns => of_le32 (load m a 4) = n /\ carries_words m (a + 4) ns end.

Definition sizes (ps : list (list Z)) : list Z := (fun p => Z.of_nat (length p)) <$> ps.
Lemma sizes_nonneg ps : Forall (fun l => 0 <= l) (sizes ps).
Proof. unfold sizes. apply Forall_fmap, Forall_forall. intros p _. cbn. lia. Qed.

(** [n] bytes at [base'] are those at [base]. *)
Definition moved (m m' : memory) (base base' n : Z) : Prop := forall i, 0 <= i < n -> rd m' (base' + i) = rd m (base + i).

Lemma load_moved m m' base base' n o k : moved m m' base base' n -> 0 <= o -> o + k <= n -> load m' (base' + o) k = load m (base + o) k.
Proof.
  intros H Ho Hk. unfold load. apply list_eq. intros i. rewrite !list_lookup_fmap. destruct (seqZ 0 k !! i) as [x|] eqn:E; [|done].
  apply lookup_seqZ in E. cbn. f_equal. rewrite <- !Z.add_assoc. apply H. lia.
Qed.
Lemma carries_moved m m' base base' n ps : moved m m' base base' n -> forall o, 0 <= o -> bufs_end o (sizes ps) <= n -> carries m base o ps -> carries m' base' o ps.
Proof.
  intros H. induction ps as [|p ps IH]; intros o Ho Hn Hc; [done|]. destruct Hc as (H1 & H2 & H3).
  change (sizes (p :: ps)) with (Z.of_nat (length p) :: sizes ps) in Hn. rewrite bufs_end_cons in Hn.
  pose proof (item_end_bounds o (Z.of_nat (length p)) ltac:(lia)) as Hb. pose proof (item_data_bounds o) as Hd.
  pose proof (bufs_end_ge (item_end o (Z.of_nat (length p))) _ (sizes_nonneg ps)) as Hg. cbn [carries]. split_and!.
  - by rewrite (load_moved _ _ _ _ _ _ _ H) by lia.
  - destruct p as [|x p]; [by rewrite load_nil by done|]. rewrite (load_moved _ _ _ _ _ _ _ H); [done|lia|].
    unfold item_end in *. destruct (Z.eqb_spec (Z.of_nat (length (x :: p))) 0); [cbn in *; lia|lia].
  - apply IH; [lia|done|done].
Qed.
Lemma carries_words_moved m m' base base' n ns : moved m m' base base' n -> forall o, 0 <= o -> o + 4 * Z.of_nat (length ns) <= n ->
  carries_words m (base + o) ns -> carries_words m' (base' + o) ns.
Proof.
  intros H. induction ns as [|k ns IH]; intros o Ho Hn Hc; [done|]. destruct Hc as (H1 & H2). cbn [length] in Hn. split.
  - by rewrite (load_moved _ _ _ _ _ _ _ H) by lia.
  - rewrite <- Z.add_assoc in *. apply IH; [lia|lia|done].
Qed.

(** ** The sender *)
Definition payloads (m : memory) (pra : list remote_arg) : list (list Z) := (fun a => load m (pv a) (nLen a)) <$> pra.
Lemma sizes_payloads m pra : lens_ok pra -> sizes (payloads m pra) = lens pra.
Proof.
  intros H. unfold sizes, payloads, lens. rewrite <- list_fmap_compose. apply Forall_fmap_ext_1. eapply Forall_impl; [exact H|].
  intros a Ha. cbn in *. rewrite length_load. lia.
Qed.

Lemma pack_carries pra : forall b m, lens_ok pra -> sbuf_room b (items_bound (lens pra)) ->
  buf b <= bufCur b -> bufStart b + bufs_end (off b) (lens pra) <= bufEnd b -> Forall (payload_out b) pra ->
  carries (pack_in_bufs b m pra).2 (bufStart b) (off b) (payloads m pra).
Proof.
  induction pra as [|a pra IH]; intros b m Hok Hr Hlo He Hp; [done|].
  pose proof Hok as Hok0. apply lens_ok_cons in Hok0 as [Ha Hok']. apply Forall_cons in Hp as [Hpa Hp].
  pose proof (items_bound_nonneg _ (lens_nonneg _ Hok')) as Hnn.
  change (lens (a :: pra)) with (nLen a :: lens pra) in *. rewrite bufs_end_cons in He.
  pose proof (item_end_bounds (off b) (nLen a) ltac:(lia)) as Hie. pose proof (item_data_bounds (off b)) as Hid.
  pose proof (bufs_end_ge (item_end (off b) (nLen a)) _ (lens_nonneg _ Hok')) as Hge.
  destruct (pack_item b m a pra) as (m2 & E & F & Hw & Hd); try done; [lia|]. rewrite E.
  pose proof Hr as Hr0. rewrite items_bound_cons in Hr0.
  assert (Hr' : sbuf_room (at_off b (item_end (off b) (nLen a))) (items_bound (lens pra))) by (eapply room_at_off; [exact Hr0|lia..]).
  set (b' := at_off b (item_end (off b) (nLen a))) in *.
  assert (Ho' : off b' = item_end (off b) (nLen a)) by apply off_at_off.
  assert (Hc' : bufCur b' = bufStart b + item_end (off b) (nLen a)) by done.
  assert (Hc : bufCur b = bufStart b + off b) by (unfold off; lia).
  destruct (pack_in_bufs_spec pra b' m2 Hok' Hr') as [_ F'].
  specialize (IH b' m2 Hok' Hr' ltac:(change (buf b') with (buf b); lia) ltac:(rewrite Ho'; exact He) Hp). rewrite Ho' in IH.
  change (bufStart b') with (bufStart b) in IH. set (m' := (pack_in_bufs b' m2 pra).2) in *.
  change (payloads m (a :: pra)) with (load m (pv a) (nLen a) :: payloads m pra). cbn [carries].
  rewrite length_load, Z2Nat.id by lia. split_and!.
  - rewrite <- Hw, <- Hc. f_equal. apply load_agree. intros x Hx. apply F'. lia.
  - destruct (decide (nLen a = 0)) as [->|Hne]; [by rewrite !load_nil|]. rewrite <- Hd by done. apply load_agree. intros x Hx. apply F'.
    unfold item_end in *. rewrite (proj2 (Z.eqb_neq _ _) Hne) in *. lia.
  - replace (payloads m pra) with (payloads m2 pra); [exact IH|]. apply Forall_fmap_ext_1. eapply Forall_impl; [exact Hp|].
    intros x Hx. apply load_agree. intros y Hy. apply F. unfold payload_out, in_window in *. lia.
Qed.

Lemma pack_out_lens_spec pra : forall b m, lens_ok pra -> sbuf_room b (4 * Z.of_nat (length pra)) ->
  buf b <= bufCur b -> bufCur b + 4 * Z.of_nat (length pra) <= bufEnd b ->
  (pack_out_lens b m pra).1 = at_off b (off b + 4 * Z.of_nat (length pra)) /\
  (forall x, x < bufCur b \/ ~ in_window b x -> rd (pack_out_lens b m pra).2 x = rd m x) /\
  carries_words (pack_out_lens b m pra).2 (bufCur b) (lens pra).
Proof.
  induction pra as [|a pra IH]; intros b m Hok Hr Hlo He.
  { cbn [pack_out_lens fst snd length]. rewrite Z.mul_0_r, Z.add_0_r, at_off_off. by split_and!. }
  apply lens_ok_cons in Hok as [Ha Hok]. cbn [length] in *. cbn [pack_out_lens]. rewrite (u32_small (nLen a)) by lia.
  destruct (write_step b m (le32 (nLen a)) 4 _ Hr eq_refl ltac:(lia)) as [E1 W1].
  destruct (sbuf_write b m (le32 (nLen a)) 4) as [b1 m1]. cbn [fst snd] in E1, W1. subst b1.
  assert (Hc : bufCur (at_off b (off b + 4)) = bufCur b + 4) by (unfold at_off, off; cbn; lia).
  destruct (IH (at_off b (off b + 4)) m1 Hok) as (E & F & C).
  { eapply room_at_off; [exact Hr|lia..]. }
  { change (buf (at_off b (off b + 4))) with (buf b). lia. }
  { change (bufEnd (at_off b (off b + 4))) with (bufEnd b). lia. }
  rewrite Hc in F, C. rewrite E, at_off_at_off, off_at_off. split_and!; [f_equal; lia|..].
  - intros x Hx. rewrite F by (unfold in_window, at_off in *; cbn in *; lia). rewrite W1, decide_False; [done|]. unfold in_window in *. lia.
  - change (lens (a :: pra)) with (nLen a :: lens pra). cbn [carries_words]. split; [|exact C].
    transitivity (of_le32 (load m1 (bufCur b) 4)); [f_equal; apply load_agree; intros x Hx; apply F; lia|].
    transitivity (of_le32 (le32 (nLen a))); [|apply of_le32_le32; lia]. f_equal. apply bytes_eq; [by rewrite length_load|].
    intros i Hi. rewrite length_load in Hi. rewrite nth_load by lia. rewrite W1, decide_True by (unfold in_window; lia). f_equal. lia.
Qed.

(** ** The receiver *)

(** An input argument with its payload, inside a buffer. *)
Definition gets (m : memory) (lo hi : Z) (p : list Z) (a : remote_arg) : Prop :=
  nLen a = Z.of_nat (length p) /\ load m (pv a) (nLen a) = p /\ (p <> [] -> lo <= pv a /\ pv a + nLen a <= hi).

Lemma unpack_carries ps : forall b m len pra, sbuf_room b (items_bound (sizes ps)) -> buf b <= bufCur b ->
  bufStart b + bufs_end (off b) (sizes ps) <= bufEnd b -> carries m (bufStart b) (off b) ps -> length pra = length ps ->
  (unpack_in_bufs b m len pra).1 = at_off b (bufs_end (off b) (sizes ps)) /\
  Forall2 (gets m (buf b) (bufEnd b)) ps (unpack_in_bufs b m len pra).2.
Proof.
  induction ps as [|p ps IH]; intros b m len pra Hr Hlo He Hc Hl; destruct pra as [|a pra]; try done.
  { cbn. rewrite at_off_off. by split. }
  destruct Hc as (H1 & H2 & H3). injection Hl as Hl. change (sizes (p :: ps)) with (Z.of_nat (length p) :: sizes ps) in *.
  set (n := Z.of_nat (length p)) in *. rewrite bufs_end_cons in *. rewrite items_bound_cons in Hr.
  assert (Hn : 0 <= n) by (unfold n; lia).
  pose proof (item_end_bounds (off b) n Hn) as Hie. pose proof (item_data_bounds (off b)) as Hid.
  pose proof (items_bound_nonneg _ (sizes_nonneg ps)) as Hnn. pose proof (bufs_end_ge (item_end (off b) n) _ (sizes_nonneg ps)) as Hge.
  assert (Hcur : bufCur b = bufStart b + off b) by (unfold off; lia). rewrite <- Hcur in H1.
  rewrite (unpack_item b m len a pra (n + items_bound (sizes ps))); cbv zeta; rewrite ?H1; try lia;
    [|by replace (12 + (n + items_bound (sizes ps))) with (12 + n + items_bound (sizes ps)) by lia].
  set (b' := at_off b (item_end (off b) n)) in *.
  assert (Ho' : off b' = item_end (off b) n) by apply off_at_off.
  destruct (IH b' m n pra) as [E1 E2].
  - eapply room_at_off; [exact Hr|lia..].
  - change (buf b') with (buf b). change (bufCur b') with (bufStart b + item_end (off b) n). lia.
  - rewrite Ho'. exact He.
  - rewrite Ho'. exact H3.
  - done.
  - destruct (unpack_in_bufs b' m n pra) as [b'' pra1]. cbn [fst snd] in *. rewrite E1, Ho'. split; [done|].
    constructor; [|exact E2]. split; [done|]. cbn [nLen pv]. destruct (Z.eqb_spec n 0) as [E|Hne].
    + assert (p = []) as -> by (destruct p; [done|cbn in *; lia]). by rewrite E, load_nil.
    + split; [exact H2|]. intros _. unfold item_end in *. rewrite (proj2 (Z.eqb_neq n 0)) in * by done.
      split; [lia|]. lia.
Qed.

Lemma unpack_words ns : forall b m len pra, sbuf_room b (4 * Z.of_nat (length ns)) -> buf b <= bufCur b ->
  bufCur b + 4 * Z.of_nat (length ns) <= bufEnd b -> carries_words m (bufCur b) ns -> length pra = length ns ->
  lens (unpack_out_lens b m len pra).2 = ns.
Proof.
  induction ns as [|n ns IH]; intros b m len pra Hr Hlo He Hc Hl; destruct pra as [|a pra]; try done.
  destruct Hc as [H1 H2]. injection Hl as Hl. cbn [unpack_out_lens length] in *.
  rewrite read_word_step by (first [done|lia|eapply sbuf_room_weaken; [done|lia]]). rewrite H1.
  specialize (IH (at_off b (off b + 4)) m n pra). 
  assert (Hcur : bufCur (at_off b (off b + 4)) = bufCur b + 4) by (unfold at_off, off; cbn; lia). rewrite Hcur in IH.
  destruct (unpack_out_lens _ _ _ _) as [b' v]. cbn [snd] in *. change (lens (RemoteArg (pv a) n :: v)) with (n :: lens v). f_equal. apply IH.
  - eapply room_at_off; [exact Hr|lia..].
  - change (buf (at_off b (off b + 4))) with (buf b). lia.
  - change (bufEnd (at_off b (off b + 4))) with (bufEnd b). lia.
  - done.
  - done.
Qed.

(** ** The arguments of a turn *)
Lemma INBUFS_bound c : 0 <= REMOTE_SCALARS_INBUFS c <= 255 /\ 0 <= REMOTE_SCALARS_OUTBUFS c <= 255.
Proof.
  unfold REMOTE_SCALARS_INBUFS, REMOTE_SCALARS_OUTBUFS. change 255 with (Z.ones 8). rewrite !Z.land_ones by lia.
  pose proof (Z.mod_pos_bound (Z.shiftr c 16) (2 ^ 8)). pose proof (Z.mod_pos_bound (Z.shiftr c 8) (2 ^ 8)). change (Z.ones 8) with 255. lia.
Qed.
Lemma set_out_args_parts v l : length (args l) = NUM_ARGS -> length v = length (out_args l) ->
  let ins := Z.to_nat (REMOTE_SCALARS_INBUFS (sc l)) in
  take ins (args (set_out_args v l)) = take ins (args l) /\ out_args (set_out_args v l) = v.
Proof.
  intros Ha Hv ins. pose proof (INBUFS_bound (sc l)) as Hb. assert (Hl : length (take ins (args l)) = ins) by (rewrite length_take; unfold NUM_ARGS, ins in *; lia).
  assert (Hvl : length v = Z.to_nat (REMOTE_SCALARS_OUTBUFS (sc l))).
  { rewrite Hv. unfold out_args. rewrite length_take, length_drop. unfold NUM_ARGS in *. lia. }
  unfold out_args, set_out_args. fold ins. cbn [args set_args sc]. split.
  - rewrite take_app_le by lia. by rewrite take_take, Nat.min_id.
  - rewrite drop_app_length' by done. rewrite <- Hvl. by rewrite take_app_length.
Qed.

Lemma sbuf_init_at base n : 0 <= base -> 0 <= n -> base + n < 2 ^ 62 ->
  buf (sbuf_init 0 base n) = base /\ bufStart (sbuf_init 0 base n) = base /\ bufCur (sbuf_init 0 base n) = base /\ bufEnd (sbuf_init 0 base n) = base + n.
Proof. change (2 ^ 62) with 4611686018427387904. intros. unfold sbuf_init. cbn. int_norm. lia. Qed.

Lemma unpacked_request l m ps ns :
  0 <= inBufs l -> 0 <= inBufsLen l < 2147483648 -> inBufs l + inBufsLen l < 2 ^ 62 -> length (args l) = NUM_ARGS ->
  REMOTE_SCALARS_INBUFS (sc l) = Z.of_nat (length ps) -> REMOTE_SCALARS_OUTBUFS (sc l) = Z.of_nat (length ns) ->
  items_bound (sizes ps) + 4 * Z.of_nat (length ns) < 2147483648 ->
  bufs_end 0 (sizes ps) + 4 * Z.of_nat (length ns) <= inBufsLen l ->
  carries m (inBufs l) 0 ps -> carries_words m (inBufs l + bufs_end 0 (sizes ps)) ns ->
  Forall2 (gets m (inBufs l) (inBufs l + inBufsLen l)) ps (take (length ps) (args (unpacked l m))) /\ lens (out_args (unpacked l m)) = ns.
Proof.
  intros H0 Hn Hh Ha Hi Ho Hb He Hc Hw. pose proof (INBUFS_bound (sc l)) as Hs.
  destruct (sbuf_init_at (inBufs l) (inBufsLen l)) as (B1 & B2 & B3 & B4); [lia..|].
  pose proof (items_bound_nonneg _ (sizes_nonneg ps)) as Hnn. pose proof (bufs_end_ge 0 _ (sizes_nonneg ps)) as Hge. pose proof (bufs_end_le 0 _ (sizes_nonneg ps)) as Hle.
  assert (Hr : sbuf_room (sbuf_init 0 (inBufs l) (inBufsLen l)) (items_bound (sizes ps) + 4 * Z.of_nat (length ns))) by (apply room_init; lia).
  unfold unpacked. cbv zeta. rewrite Hi, Nat2Z.id. set (b := sbuf_init 0 (inBufs l) (inBufsLen l)) in *.
  assert (Hoff : off b = 0) by apply off_init.
  assert (Htl : length (take (length ps) (args l)) = length ps) by (rewrite length_take; unfold NUM_ARGS in *; lia).
  destruct (unpack_carries ps b m 0 (take (length ps) (args l))) as [E1 E2].
  { eapply sbuf_room_weaken; [exact Hr|lia]. } { lia. } { rewrite Hoff, B2, B4. lia. } { by rewrite Hoff, B2. } { done. }
  destruct (unpack_in_bufs b m 0 (take (length ps) (args l))) as [b1 v1]. cbn [fst snd] in *. rewrite Hoff in E1.
  pose proof (Forall2_length _ _ _ E2) as Hv1. set (l1 := set_args (v1 ++ drop (length ps) (args l)) l).
  assert (Hl1 : length (args l1) = NUM_ARGS).
  { cbn [l1 args set_args]. rewrite length_app, length_drop, <- Hv1, Ha. unfold NUM_ARGS in *. lia. }
  destruct (set_out_args_parts (unpack_out_lens b1 m 0 (out_args l1)).2 l1 Hl1 ltac:(apply unpack_out_lens_length)) as [T1 T2].
  change (sc l1) with (sc l) in T1. rewrite Hi, Nat2Z.id in T1. rewrite T1, T2. split.
  - cbn [l1 args set_args]. rewrite take_app_le by lia. rewrite Hv1, firstn_all. rewrite B1, B4 in E2. exact E2.
  - apply unpack_words; subst b1.
    + eapply room_at_off; [exact Hr|lia..].
    + unfold at_off. cbn [buf bufCur set_cur]. lia.
    + unfold at_off. cbn [bufEnd bufCur set_cur]. lia.
    + unfold at_off. cbn [bufCur set_cur]. by rewrite B2.
    + unfold out_args. change (sc l1) with (sc l). rewrite Hi, Ho, !Nat2Z.id, length_take, length_drop, Hl1. unfold NUM_ARGS. lia.
Qed.

Lemma mapped_lens b o p p' : mapped b o p p' -> lens p' = lens p.
Proof. intros H. induction H as [|o a a' p p' [Hl _] _ IH]; [done|]. unfold lens in *. cbn. by rewrite Hl, IH. Qed.

(** ** The call *)
Section call.
Context {W K : Type} `{HS : HasSession W K} `{HO : SessionOps K}.
Variables (cache_size : Z) (is_process_exiting : W -> bool).
Variable f : lst W -> Z -> Z.
Variable get_in_bufs2 : Z -> Z -> Z -> Z -> W -> (Z * list Z * Z) * W.
Variable mod_table_invoke : Z -> Z -> list remote_arg -> W -> memory -> (Z * memory) * W.
Hypothesis Hf : alloc_ok f.
(** There is memory for another buffer. *)
Hypothesis Hmem : forall s a n b k z, owns s a n b k -> 0 <= z < 2147483648 -> f s z <> 0.
Abbreviation Pw := (fun (_ : Z) (_ : W) => True).

Lemma no_memory_absurd z : 0 <= z < 2147483648 -> ~ no_memory f z.
Proof. intros Hz (s & a & n & b & k & Ho & E). rewrite u64_small in E by lia. by eapply Hmem. Qed.
Lemma smul2_small z : 0 <= z < 536870912 -> smul2_overflow z = false.
Proof. intros Hz. unfold smul2_overflow. rewrite s32_small by lia. by rewrite Z.eqb_refl. Qed.
Lemma ALIGNB_small z : 0 <= z < 1073741824 -> 0 <= ALIGNB z < 2147483648.
Proof. intros Hz. unfold ALIGNB, MIN_BUF_SIZE. destruct (Z.eqb_spec z 0); [lia|]. pose proof (ALIGN_BUF_small z Hz). lia. Qed.

(** What is left after the input buffer holds the whole request. *)
Lemma outputs_of (l : loc) (s : lst W) :
  owned l s -> length (args l) = NUM_ARGS -> lens_ok (out_args l) -> items_bound (lens (out_args l)) < 536870912 ->
  let r := pack_out_bufs (sbuf_init 0 0 0) (mem s) (out_args l) in
  sbuf_needed r.1.1 = bufs_end 0 (lens (out_args l)) /\ (forall x, rd r.1.2 x = rd (mem s) x) /\ lens r.2 = lens (out_args l).
Proof.
  intros Ho Ha Hok Hb r. pose proof (items_bound_nonneg _ (lens_nonneg _ Hok)) as Hnn.
  assert (Hr : sbuf_room (sbuf_init 0 0 0) (items_bound (lens (out_args l)))) by (apply room_init; lia).
  destruct (pack_out_bufs_spec (out_args l) _ (mem s) Hok Hr) as (_ & F & Hm). split_and!.
  - apply out_needed; lia || done.
  - intros x. apply F. right. destruct (sbuf_init_at 0 0) as (B1 & _ & _ & B4); [lia..|]. unfold in_window. rewrite B1, B4. lia.
  - exact (mapped_lens _ _ _ _ Hm).
Qed.

(** The request in the input buffer when it is complete. *)
Lemma fetched_request h l s p n s' m base ps ns :
  let req := bufs_end 0 (sizes ps) + 4 * Z.of_nat (length ns) in
  fetched get_in_bufs2 h l s p n s' -> inBufsLenReq l = req -> 0 <= inBufsLen l -> req <= n ->
  carries m base 0 ps -> carries_words m (base + bufs_end 0 (sizes ps)) ns ->
  moved m (mem s) base (inBufs l) (Z.min (inBufsLen l) req) ->
  (inBufsLen l < req -> let r := get_in_bufs2 h (ctx l) (inBufsLen l) (ALIGN_BUF req - inBufsLen l) (app s) in
     forall i, inBufsLen l <= i < req -> i - inBufsLen l < Z.of_nat (length r.1.1.2) /\ nth (Z.to_nat (i - inBufsLen l)) r.1.1.2 0 = rd m (base + i)) ->
  carries (mem s') p 0 ps /\ carries_words (mem s') (p + bufs_end 0 (sizes ps)) ns.
Proof.
  intros req (F1 & _ & F2) Hreq Hlen Hn Hc Hw Hm Hget. rewrite Hreq in *. pose proof (bufs_end_ge 0 _ (sizes_nonneg ps)) as Hge.
  assert (Hall : moved m (mem s') base p req).
  { intros i Hi. destruct (decide (i < inBufsLen l)) as [Hlt|Hlt].
    - rewrite F1 by lia. apply Hm. lia.
    - destruct (F2 ltac:(lia)) as (En & _ & Fr). destruct (Hget ltac:(lia) i ltac:(lia)) as [Hl Hv]. rewrite <- En in Hl, Hv.
      rewrite <- Hv. rewrite <- (Fr (i - inBufsLen l)) by lia. f_equal. lia. }
  split.
  - apply (carries_moved m _ base p req); [done|lia|lia|done].
  - apply (carries_words_moved m _ base p req); [done|lia|lia|done].
Qed.

(** What the module function is called with: the inputs carry the payloads, the outputs have
    the sizes asked for, in order and disjoint, inside the reply buffer. *)
Record call_args (l : loc) (m : memory) (ps : list (list Z)) (ns : list Z) (as_ : list remote_arg) : Prop := CallArgs {
  ca_in : Forall2 (gets m (inBufs l) (inBufs l + inBufsLen l)) ps (take (length ps) as_);
  ca_lens : lens (take (length ns) (drop (length ps) as_)) = ns;
  ca_out : Forall (fun a => nLen a <> 0 -> outBufs l <= pv a /\ pv a + nLen a <= outBufs l + outBufsLen l) (take (length ns) (drop (length ps) as_));
  ca_sorted : StronglySorted (fun a b => nLen a <> 0 -> nLen b <> 0 -> pv a + nLen a <= pv b) (take (length ns) (drop (length ps) as_));
  ca_fits : outBufsLen l <= outBufsCapacity l
}.

(** The end of a turn in which the module function was called, in the world [w]. *)
Definition called (l : loc) (ps : list (list Z)) (ns : list Z) (w : W) (sl : lst W * loc) : Prop :=
  exists as_ m,
    let c := mod_table_invoke (handle l) (sc l) as_ w m in
    call_args sl.2 m ps ns as_ /\ app sl.1 = c.2 /\ mem sl.1 = c.1.2 /\ owned sl.2 sl.1 /\ ctx sl.2 = ctx l /\
    result sl.2 = (if negb (c.1.1 =? 0) && is_process_exiting c.2 then AEE_EBADSTATE else c.1.1).
(** The rest of a request that did not fit. *)
Definition rest_of (h : Z) (l : loc) (s : lst W) : (Z * list Z * Z) * W :=
  get_in_bufs2 h (ctx l) (inBufsLen l) (ALIGN_BUF (inBufsLenReq l) - inBufsLen l) (app s).

Lemma gets_frame m m' lo hi ps l : Forall2 (gets m lo hi) ps l -> (forall x, lo <= x < hi -> rd m' x = rd m x) -> Forall2 (gets m' lo hi) ps l.
Proof.
  intros H Hx. eapply Forall2_impl; [exact H|]. intros p a (H1 & H2 & H3). split_and!; [done| |done].
  destruct p as [|y p]; [cbn in H1; by rewrite H1, load_nil|]. destruct H3 as [Ha Hb]; [done|]. rewrite <- H2. apply load_agree. intros z Hz. apply Hx. lia.
Qed.

(** The second half of the turn, with the outputs still to be placed. *)
Lemma invoke_call_spec l s ps ns :
  inv Pw l s -> ref l = 1 ->
  REMOTE_SCALARS_INBUFS (sc l) = Z.of_nat (length ps) -> REMOTE_SCALARS_OUTBUFS (sc l) = Z.of_nat (length ns) ->
  Forall (fun n => 0 <= n < 2147483648) ns -> items_bound ns < 536870912 -> lens (out_args l) = ns -> outBufsLen l = bufs_end 0 ns ->
  Forall2 (gets (mem s) (inBufs l) (inBufs l + inBufsLen l)) ps (take (length ps) (args l)) ->
  wp (invoke_call cache_size is_process_exiting f mod_table_invoke) (fun _ sl => called l ps ns (app s) sl) (fun _ _ => False) (s, l).
Proof.
  intros Hv Hr Hi Ho Hns Hob Hl Hneed Hin.
  assert (Hnn : Forall (fun l => 0 <= l) ns) by (eapply Forall_impl; [exact Hns|]; cbn; lia).
  pose proof (bufs_end_ge 0 _ Hnn) as Hn1. pose proof (bufs_end_le 0 _ Hnn) as Hn2. set (need := bufs_end 0 ns) in *.
  assert (Hok : lens_ok (out_args l)) by (unfold lens_ok; unfold lens in Hl; rewrite <- Hl in Hns; by apply Forall_fmap in Hns).
  unfold invoke_call. wp_step. apply (fit_out_spec cache_size f Hf Pw); [done|done|rewrite Hneed; lia| |].
  2:{ intros e s' l' _ _ _ [H|[H|H]]; rewrite Hneed in H.
      - by rewrite smul2_small in H by lia.
      - apply no_memory_absurd in H; [done|]. apply ALIGNB_small. lia.
      - apply no_memory_absurd in H; [done|]. apply ALIGNB_small. lia. }
  intros po c no s4 H4 Hno Hsame Happ. rewrite Hneed in Hno. set (l4 := set_out_len no (set_out po c l)) in *.
  pose proof (inv_owned _ _ _ H4) as Ho4. change (owns s4 po c (inBufs l) (inBufsLen l)) in Ho4.
  assert (Hb4 : 0 <= po /\ 0 <= no < 2147483648 /\ po + no < 2 ^ 62).
  { destruct Ho4 as [_ Ha _ _ _]. change (2 ^ 62) with 4611686018427387904 in *. destruct Ha; lia. }
  wp_step. wp_step. unfold id. wp_step. apply pack_outs_spec. cbv zeta.
  change (outBufs l4) with po. change (outBufsLen l4) with no. change (out_args l4) with (out_args l).
  destruct (out_bufs_measure_then_map po no (mem s4) (mem s4) (out_args l)) as (_ & M2 & M3 & M4 & M5); try (rewrite ?Hl; lia); [done| |].
  { rewrite out_needed by (done || rewrite ?Hl; lia). rewrite Hl. fold need. lia. }
  pose proof (pack_out_bufs_length (sbuf_init 0 po no) (mem s4) (out_args l)) as Ev.
  destruct (pack_out_bufs (sbuf_init 0 po no) (mem s4) (out_args l)) as [[b m] v]. cbn [fst snd] in M2, M3, M4, M5, Ev |- *. rewrite Hl in M2.
  destruct (set_out_args_parts v l4 (inv_args _ _ _ H4) Ev) as [U1 U2]. set (l5 := set_out_args v l4) in *.
  change (sc l4) with (sc l) in U1. rewrite Hi, Nat2Z.id in U1. unfold out_args in U2. change (sc l5) with (sc l) in U2. rewrite Hi, Ho, !Nat2Z.id in U2.
  assert (Hargs : call_args l5 m ps ns (args l5)).
  { constructor; rewrite ?U2; [|done..|change (no <= c); lia]. rewrite U1. eapply gets_frame; [exact Hin|]. intros x Hx. change (inBufs l <= x < inBufs l + inBufsLen l) in Hx.
    destruct Ho4 as [_ Ha Hb Hap _]. assert (inBufs l <> 0) by (intros E; destruct Hb; lia).
    rewrite M5 by (unfold apart in Hap; destruct Ha; lia). replace x with (inBufs l + (x - inBufs l)) by lia. apply Hsame; [done|lia]. }
  repeat wp_step. unfold id. change (handle l5) with (handle l). change (sc l5) with (sc l). cbn [app mem set_mem]. rewrite Happ.
  destruct (mod_table_invoke (handle l) (sc l) (args l5) (app s) m) as [[r m6] w6] eqn:Em. repeat wp_step.
  exists (args l5), m. cbv zeta. rewrite Em. cbn [fst snd]. split_and!; [|done|done| |done|done].
  - destruct Hargs. by constructor.
  - unfold owned. eapply owns_ext; [| |exact Ho4]; done.
Qed.

Lemma serve_call h l s ps ns :
  let req := bufs_end 0 (sizes ps) + 4 * Z.of_nat (length ns) in
  owned l s -> length (args l) = NUM_ARGS -> ref l = 1 ->
  REMOTE_SCALARS_INBUFS (sc l) = Z.of_nat (length ps) -> REMOTE_SCALARS_OUTBUFS (sc l) = Z.of_nat (length ns) ->
  REMOTE_SCALARS_INHANDLES (sc l) + REMOTE_SCALARS_OUTHANDLES (sc l) = 0 ->
  items_bound (sizes ps) + 4 * Z.of_nat (length ns) < 536870912 -> Forall (fun n => 0 <= n < 2147483648) ns -> items_bound ns < 536870912 ->
  inBufsLenReq l = req ->
  (forall p n s', fetched get_in_bufs2 h l s p n s' -> req <= n -> carries (mem s') p 0 ps /\ carries_words (mem s') (p + bufs_end 0 (sizes ps)) ns) ->
  (inBufsLen l < req -> let r := rest_of h l s in r.1.1.1 = 0 /\ r.1.2 <= ALIGN_BUF req) ->
  wp (serve cache_size is_process_exiting f get_in_bufs2 mod_table_invoke h)
    (fun _ sl => called l ps ns (if inBufsLen l <? req then (rest_of h l s).2 else app s) sl) (fun _ _ => False) (s, l).
Proof.
  intros req Ho Ha Hr Hi Hou Hh Hb Hns Hob Hreq Hf1 Hg. unfold rest_of in *. rewrite Hreq in *.
  pose proof (items_bound_nonneg _ (sizes_nonneg ps)) as Hnn. pose proof (bufs_end_ge 0 _ (sizes_nonneg ps)) as Hge. pose proof (bufs_end_le 0 _ (sizes_nonneg ps)) as Hle.
  assert (Hinv : inv Pw l s) by (split; [done|done|by right|done]).
  unfold serve. wp_step. apply (fit_in_spec cache_size f get_in_bufs2 Hf Pw ltac:(done)); [done|done| |].
  2:{ intros e s' l' _ _ _ [H|[H|[H|[Hlt H]]]]; rewrite Hreq in H.
      - by rewrite smul2_small in H by lia.
      - apply no_memory_absurd in H; [done|]. apply ALIGNB_small. lia.
      - apply no_memory_absurd in H; [done|]. pose proof (ALIGN_BUF_small req). lia.
      - rewrite Hreq in Hlt. destruct (Hg Hlt) as [G1 G2]. cbv zeta in H. destruct H; [done|lia]. }
  intros p n s1 H1 Hn Hfe. rewrite Hreq in Hn. destruct (Hf1 p n s1 Hfe Hn) as [Hc Hw].
  wp_step. wp_step. unfold id. wp_step. apply wp_VERIFYC; intros Hh'; [|exfalso; change (sc (set_in p n l)) with (sc l) in Hh'; rewrite Hh in Hh'; done]. clear Hh'.
  set (l1 := set_in p n l) in *. wp_step. apply unpack_args_spec.
  pose proof (own_b _ _ _ _ _ (inv_owned _ _ _ H1)) as Hbo. change (buf_ok p n) in Hbo.
  assert (Hbn : 0 <= p /\ 0 <= n < 2147483648 /\ p + n < 2 ^ 62) by (change (2 ^ 62) with 4611686018427387904 in *; destruct Hbo; lia).
  destruct (unpacked_request l1 (mem s1) ps ns) as [Hin Hout]; try done; try (unfold l1; cbn [inBufs inBufsLen set_in]; lia).
  assert (H2 : inv Pw (unpacked l1 (mem s1)) s1) by (eapply inv_ext; [exact H1|try done..]; apply unpacked_length).
  set (l2 := unpacked l1 (mem s1)) in *. wp_step. apply pack_outs_spec. cbv zeta.
  assert (Hok : lens_ok (out_args l2)) by (unfold lens_ok; unfold lens in Hout; rewrite <- Hout in Hns; by apply Forall_fmap in Hns).
  destruct (outputs_of l2 s1) as (O1 & O2 & O3); [apply H2|apply H2|done|by rewrite Hout|]. rewrite Hout in O1, O3.
  pose proof (pack_out_bufs_length (sbuf_init 0 0 0) (mem s1) (out_args l2)) as Ev.
  destruct (pack_out_bufs (sbuf_init 0 0 0) (mem s1) (out_args l2)) as [[b m] v]. cbn [fst snd] in O1, O2, O3, Ev |- *. wp_step. wp_step. rewrite O1.
  destruct (set_out_args_parts v l2 (inv_args _ _ _ H2) Ev) as [T1 T2]. change (sc l2) with (sc l) in T1. rewrite Hi, Nat2Z.id in T1.
  eapply wp_mono; [apply (invoke_call_spec _ _ ps ns)| |done]; try done.
  - eapply inv_ext; [exact H2|try done..]. by apply set_out_args_length.
  - change (lens (out_args (set_out_args v l2)) = ns). by rewrite T2.
  - change (Forall2 (gets m p (p + n)) ps (take (length ps) (args (set_out_args v l2)))). rewrite T1. by eapply gets_frame; [exact Hin|].
  - intros u sl Hcall. replace (if inBufsLen l <? req then _ else _) with (app s1); [exact Hcall|].
    destruct Hfe as (_ & A1 & A2). rewrite Hreq in A1, A2. destruct (Z.ltb_spec (inBufsLen l) req) as [Hlt|Hlt]; [|by apply A1].
    destruct (A2 Hlt) as (En & Ea & _). rewrite Ea. by rewrite En.
Qed.

(** C6: A call of the DSP reaches the module as it was sent. When the sender packs its inputs
    and the sizes of its outputs with the functions of [listener_buf.h], and the listener gets
    the bytes of that message, at once or the rest with [get_in_bufs2], then the turn calls
    the function of the handle once, with the sender's bytes as inputs and with outputs of the
    sizes asked for that lie in order, without overlap, inside the reply buffer; its result
    and that buffer are the answer of the next turn. *)
Theorem listener_serves h l s data dataLen mS ins outs :
  let p := pack_in_bufs (sbuf_init 0 data dataLen) mS ins in
  let msg := pack_out_lens p.1 p.2 outs in
  let req := sbuf_needed msg.1 in
  0 <= data -> 0 <= dataLen < 2147483648 -> data + dataLen < 2 ^ 62 ->
  lens_ok ins -> lens_ok outs -> Forall (payload_out (sbuf_init 0 data dataLen)) ins ->
  bufs_end 0 (lens ins) + 4 * Z.of_nat (length outs) <= dataLen ->
  items_bound (lens ins) + 4 * Z.of_nat (length outs) < 536870912 -> items_bound (lens outs) < 536870912 ->
  owned l s -> length (args l) = NUM_ARGS -> ref l = 1 -> inBufsLenReq l = req ->
  REMOTE_SCALARS_INBUFS (sc l) = Z.of_nat (length ins) -> REMOTE_SCALARS_OUTBUFS (sc l) = Z.of_nat (length outs) ->
  REMOTE_SCALARS_INHANDLES (sc l) + REMOTE_SCALARS_OUTHANDLES (sc l) = 0 ->
  moved msg.2 (mem s) data (inBufs l) (Z.min (inBufsLen l) req) ->
  (inBufsLen l < req -> let r := rest_of h l s in
     r.1.1.1 = 0 /\ r.1.2 <= ALIGN_BUF req /\
     forall i, inBufsLen l <= i < req -> i - inBufsLen l < Z.of_nat (length r.1.1.2) /\ nth (Z.to_nat (i - inBufsLen l)) r.1.1.2 0 = rd msg.2 (data + i)) ->
  exists l' s',
    serve cache_size is_process_exiting f get_in_bufs2 mod_table_invoke h (s, l) = (Go tt, (s', l')) /\
    called l (payloads mS ins) (lens outs) (if inBufsLen l <? req then (rest_of h l s).2 else app s) (s', l').
Proof.
  intros p msg req Hd Hdl Hde Hoki Hoko Hpo Hfit Hb1 Hb2 Ho Ha Hr Hreq Hi Hou Hh Hmv Hrest.
  pose proof (lens_nonneg _ Hoki) as Hnn. pose proof (items_bound_nonneg _ Hnn) as Hnn2. pose proof (bufs_end_ge 0 _ Hnn) as Hge. pose proof (bufs_end_le 0 _ Hnn) as Hle.
  destruct (sbuf_init_at data dataLen) as (B1 & B2 & B3 & B4); [lia..|]. set (b := sbuf_init 0 data dataLen) in *.
  assert (Hr0 : sbuf_room b (items_bound (lens ins) + 4 * Z.of_nat (length outs))) by (apply room_init; lia).
  assert (Hr1 : sbuf_room b (items_bound (lens ins))) by (eapply sbuf_room_weaken; [exact Hr0|lia]).
  assert (Hoff : off b = 0) by apply off_init.
  destruct (pack_in_bufs_spec ins b mS Hoki Hr1) as [Ep _].
  pose proof (pack_carries ins b mS Hoki Hr1 ltac:(lia) ltac:(rewrite Hoff; lia) Hpo) as Hc. fold p in Ep, Hc. rewrite Hoff, B2 in *.
  destruct (pack_out_lens_spec outs p.1 p.2 Hoko) as (Em & Fm & Cm).
  { rewrite Ep. eapply room_at_off; [exact Hr0|lia..]. }
  { rewrite Ep. unfold at_off. cbn [buf bufCur set_cur]. lia. }
  { rewrite Ep. unfold at_off. cbn [bufEnd bufCur set_cur]. lia. }
  fold msg in Em, Fm, Cm. rewrite Ep in Em, Fm, Cm. unfold at_off in Fm, Cm. cbn [bufCur set_cur] in Fm, Cm. rewrite B2 in Fm, Cm.
  assert (Ereq : req = bufs_end 0 (lens ins) + 4 * Z.of_nat (length outs)).
  { unfold req. rewrite Em, off_at_off, at_off_at_off. apply (needed_at_off b _ _ Hr0). rewrite Hoff. lia. }
  assert (Hsz : sizes (payloads mS ins) = lens ins) by by apply sizes_payloads.
  assert (Hlp : length (payloads mS ins) = length ins) by apply length_fmap.
  assert (Hlo : length (lens outs) = length outs) by apply length_fmap.
  assert (Hcar : carries msg.2 data 0 (payloads mS ins)).
  { apply (carries_moved p.2 _ data data (bufs_end 0 (lens ins))); [|lia|by rewrite Hsz|exact Hc]. intros i Hlt. apply Fm. lia. }
  pose proof (own_b _ _ _ _ _ Ho) as Hbo.
  assert (Hwp : wp (serve cache_size is_process_exiting f get_in_bufs2 mod_table_invoke h)
    (fun _ sl => called l (payloads mS ins) (lens outs) (if inBufsLen l <? req then (rest_of h l s).2 else app s) sl) (fun _ _ => False) (s, l)).
  { rewrite Ereq in *. rewrite <- Hsz, <- Hlp, <- Hlo in *. apply serve_call; try done.
    - by apply Forall_fmap.
    - intros q n s' Hfe Hn. eapply (fetched_request h l s q n s' msg.2 data); try done; [destruct Hbo; lia|]. intros Hlt i Hi2.
      destruct (Hrest Hlt) as (_ & _ & Hx). unfold rest_of in Hx. rewrite Hreq in Hx. by apply Hx.
    - intros Hlt. destruct (Hrest Hlt) as (G1 & G2 & _). by split. }
  apply wp_exists in Hwp as ([] & [s' l'] & E & H). by exists l', s'.
Qed.
End call.

(** ** A concrete call *)
Module ListenerCallEx.
Import ListenerEx.
(** An allocator with three places that are far from each other. *)
Definition fits (m : gmap Z Z) (z c : Z) : bool := forallb (fun p => negb (p.1 =? c) && ((c + z <? p.1) || (p.1 + p.2 <? c))) (map_to_list m).
Definition places : list Z := [8589934592; 17179869184; 25769803776].
Definition place (s : lst (proc * nat)) (z : Z) : Z :=
  if z <? 2147483648 then match List.filter (fits (rpcmem s) z) places with c :: _ => c | [] => 0 end else 0.
Lemma fits_spec m z c : fits m z c = true <-> forall b k, m !! b = Some k -> b <> c /\ (c + z < b \/ b + k < c).
Proof.
  unfold fits. rewrite forallb_forall. split.
  - intros H b k Hb%elem_of_map_to_list%list_elem_of_In. specialize (H _ Hb). cbn in H.
    apply andb_true_iff in H as [H1%negb_true_iff%Z.eqb_neq [H2%Z.ltb_lt|H2%Z.ltb_lt]%orb_true_iff]; auto.
  - intros H [b k] Hb%list_elem_of_In%elem_of_map_to_list. destruct (H b k Hb) as [H1 H2]. cbn.
    rewrite (proj2 (Z.eqb_neq b c)) by done. cbn. apply orb_true_iff. rewrite !Z.ltb_lt. done.
Qed.
Lemma place_ok : alloc_ok place.
Proof.
  intros s z Hz. unfold place. destruct (Z.ltb_spec z 2147483648); [|by left].
  destruct (List.filter _ _) as [|c l] eqn:E; [by left|]. right.
  assert (Hc : In c (List.filter (fits (rpcmem s) z) places)) by (rewrite E; by left). apply filter_In in Hc as [Hin Hf].
  rewrite fits_spec in Hf. change (2 ^ 62) with 4611686018427387904. split_and!.
  - cbn in Hin. intuition lia.
  - cbn in Hin. intuition lia.
  - destruct (rpcmem s !! c) eqn:El; [|done]. by destruct (Hf _ _ El).
  - intros b k Hb. destruct (Hf _ _ Hb). lia.
Qed.
Lemma place_mem s a n b k z : owns s a n b k -> 0 <= z < 2147483648 -> place s z <> 0.
Proof.
  intros Ho Hz. unfold place. rewrite (proj2 (Z.ltb_lt z _)) by lia.
  destruct (List.filter _ _) as [|c l] eqn:E.
  2:{ assert (Hc : In c (List.filter (fits (rpcmem s) z) places)) by (rewrite E; by left). apply filter_In in Hc as [Hin _]. cbn in Hin. intuition lia. }
  exfalso. assert (H : forall c, In c places -> (a <> 0 /\ a - 2147483648 <= c <= a + 2147483648) \/ (b <> 0 /\ b - 2147483648 <= c <= b + 2147483648)).
  { intros c Hc. destruct (fits (rpcmem s) z c) eqn:Ef.
    { assert (Hin : In c (List.filter (fits (rpcmem s) z) places)) by by apply filter_In. by rewrite E in Hin. }
    destruct (decide ((a <> 0 /\ a - 2147483648 <= c <= a + 2147483648) \/ (b <> 0 /\ b - 2147483648 <= c <= b + 2147483648))) as [|Hno]; [done|].
    exfalso. assert (Ht : fits (rpcmem s) z c = true); [|congruence]. apply fits_spec. intros x m Hx. apply (owns_lookup _ _ _ _ _ _ _ Ho) in Hx as [Hx0 Hx].
    destruct Ho as [_ Ha Hb _ _]. change (2 ^ 62) with 4611686018427387904 in *. destruct Hx as [[-> ->]|[-> ->]]; [destruct Ha|destruct Hb]; lia. }
  pose proof (H 8589934592 ltac:(cbn; tauto)). pose proof (H 17179869184 ltac:(cbn; tauto)). pose proof (H 25769803776 ltac:(cbn; tauto)). lia.
Qed.

Definition mS : memory := store ∅ 100 [11; 22; 33].
Definition ins : list remote_arg := [RemoteArg 100 3].
Definition outs : list remote_arg := [RemoteArg 0 10].
Definition sent : sbuf * memory := let p := pack_in_bufs (sbuf_init 0 1000 64) mS ins in pack_out_lens p.1 p.2 outs.
Definition rest (h c o n : Z) (w : proc * nat) : (Z * list Z * Z) * (proc * nat) := ((0, drop (Z.to_nat o) (load sent.2 1000 15), 15), w).
Definition l0 : loc := set_call (Reply 0 7 5 (REMOTE_SCALARS_MAKEX 0 2 1 1 0 0) 15 []) (set_ref 1 loc0).
(** The module's answer, 66 = 11 + 22 + 33, is at the first output. *)
Lemma listener_serves_witness : exists l' s',
  serve 0 (fun _ => false) place rest module 1 (start, l0) = (Go tt, (s', l')) /\ result l' = 0 /\ load (mem s') (outBufs l' + 8) 1 = [66].
Proof.
  destruct (listener_serves 0 (fun _ => false) place rest module place_ok place_mem 1 l0 start 1000 64 mS ins outs)
    as (l' & s' & E & _);
    [lia|lia|lia|repeat constructor; cbn; lia|repeat constructor; cbn; lia
    |repeat constructor; unfold payload_out; vm_compute; intuition congruence
    |vm_compute; congruence|vm_compute; reflexivity|vm_compute; reflexivity|by apply owned_start|reflexivity|reflexivity
    |vm_compute; reflexivity|vm_compute; reflexivity|vm_compute; reflexivity|vm_compute; reflexivity| | |].
  - intros i Hi. exfalso. change (inBufsLen l0) with 0 in Hi. lia.
  - intros _. cbv zeta. split; [done|]. split; [by vm_compute|]. intros i Hi.
    change (inBufsLen l0 <= i < 15) in Hi. change (inBufsLen l0) with 0 in *. unfold rest_of, rest. cbn [fst snd]. rewrite Z.sub_0_r.
    change (drop (Z.to_nat (inBufsLen l0)) (load sent.2 1000 15)) with (load sent.2 1000 15). rewrite length_load. split; [lia|]. by rewrite nth_load by lia.
  - exists l', s'. split; [exact E|]. 
    assert (Er : match (serve 0 (fun _ => false) place rest module 1 (start, l0)).2 with (s1, l1) => result l1 = 0 /\ load (mem s1) (outBufs l1 + 8) 1 = [66] end) by (vm_compute; split; reflexivity).
    rewrite E in Er. exact Er.
Defined.

(** The length of an output is not checked: with one close to [2^32] the measured length is
    negative, no buffer is needed for it, and the module is called with an output of almost
    4 GiB at address 8. *)
Definition wild (h c o n : Z) (w : proc * nat) : (Z * list Z * Z) * (proc * nat) := ((0, le32 4294967196, 4), w).
Definition refuse (h sc : Z) (a : list remote_arg) (w : proc * nat) (m : memory) : (Z * memory) * (proc * nat) := ((0, m), w).
Definition l1 : loc := set_call (Reply 0 7 5 (REMOTE_SCALARS_MAKEX 0 2 0 1 0 0) 4 []) (set_ref 1 loc0).
Lemma wild_output : match (serve 0 (fun _ => false) place wild refuse 1 (start, l1)).2 with
  (s', l') => head (args l') = Some (RemoteArg 8 4294967196) /\ outBufsLen l' = -92 /\ outBufs l' = 0 /\ result l' = 0 end.
Proof. vm_compute. by split_and!. Qed.
End ListenerCallEx.
