(* ===== verification/AppsFile.v ===== *)
(** The files and directories of the DSP, [src/apps_std_imp.c]: the table of open files with
    its descriptors, the streams and the decrypted buffers behind them, the files that are
    handed over in shared memory, and the directory handles.

    The C library, the license manager and the mapping of buffers are an interface, [Libc].
    The table is the list of its nodes; a node that was found is used while the table does
    not change otherwise, as the code does with the pointer. *)
From S2P Require Import Prelude Errors.
#[local] Open Scope Z_scope.

Definition APPS_FD_BASE : Z := 100.
Definition ENOENT : Z := 2.
Definition EBADF : Z := 9.
Definition ENOMEM : Z := 12.
Definition EINVAL : Z := 22.
Definition ESTALE : Z := 116.
Definition AEE_EFILE : Z := 513.
Definition ION_HEAP_ID_QSEECOM : Z := 27.
Definition SIZEOF_FPOS : Z := 16.
Definition RPCMEM_HEAP_DEFAULT : Z := 2147483648.
Inductive seek := APPS_STD_SEEK_SET | APPS_STD_SEEK_CUR | APPS_STD_SEEK_END.

(** ** The C library *)

(** Calls that return an [int], a pointer or a descriptor. *)
Inductive call :=
  | CALLOC
  | FOPEN (name mode : list Z) | FREOPEN (name mode : list Z) (stream : Z)
  | FFLUSH (stream : Z) | FCLOSE (stream : Z) | FERROR (stream : Z) | FEOF (stream : Z) | CLEARERR (stream : Z)
  | FILENO (stream : Z) | FWRITE (stream : Z) (bs : list Z) | FSETPOS (stream : Z) (pos : list Z)
  | FTELL (stream : Z) | FSEEK (stream offset : Z) (whence : seek) | REWIND (stream : Z)
  | FTRUNCATE (fd offset : Z) | REMOVE (name : list Z) | RENAME (old new : list Z)
  | MKDIR (name : list Z) (mode : Z) | RMDIR (name : list Z) | OPENDIR (name : list Z) | CLOSEDIR (dir : Z)
  | SETENV (name val : list Z) (override : Z) | UNSETENV (name : list Z)
  | RPCMEM_ALLOC (heap flags size : Z) | RPCMEM_FREE (buf : Z) | RPCMEM_TO_FD (buf : Z)
  | FASTRPC_MMAP (domain fd addr length : Z) | FASTRPC_MUNMAP (domain fd addr length : Z)
  | DLOPEN (name : list Z) | DLSYM (handle : Z) (name : list Z) | DLCLOSE (handle : Z)
  | LICENSE_INIT | LICENSE_DECRYPT (fd size : Z) | LICENSE_DEINIT.

(** [struct stat], the fields that are used. *)
Record stat := Stat {
  st_dev : Z; st_ino : Z; st_mode : Z; st_nlink : Z; st_rdev : Z; st_size : Z;
  st_atime : Z; st_atimensec : Z; st_mtime : Z; st_mtimensec : Z; st_ctime : Z; st_ctimensec : Z
}.

Class Libc (W : Type) := {
  errno : W -> Z;
  set_errno : Z -> W -> W;
  libc : call -> W -> Z * W;
  fread : Z -> Z -> W -> list Z * W;             (* stream and length: the bytes *)
  fgets : Z -> Z -> W -> option (list Z) * W;
  fgetpos : Z -> W -> option (list Z) * W;
  read : Z -> Z -> W -> option (list Z) * W;     (* descriptor and length *)
  fstat : Z -> W -> option stat * W;
  stat_name : list Z -> W -> option stat * W;
  getenv : list Z -> W -> option (list Z);
  readdir : Z -> W -> option (Z * list Z) * W;
  decrypted : Z -> W -> list Z -> list Z;        (* what a decryption makes of a buffer *)
  current_domain : W -> Z;
  streams : W -> gset Z                          (* the streams that are open *)
}.

(** The stream that a call uses. *)
Definition stream_of (c : call) : option Z :=
  match c with
  | FREOPEN _ _ p | FFLUSH p | FCLOSE p | FERROR p | FEOF p | CLEARERR p | FILENO p | FWRITE p _ | FSETPOS p _
  | FTELL p | FSEEK p _ _ | REWIND p => Some p
  | _ => None
  end.

(** What the library promises of its streams: a new one is not open, one that is closed is
    not open any more, whatever the result, and nothing else opens or closes one. *)
Class LibcLaws (W : Type) `{Libc W} := {
  fopen_streams name mode w p w' : libc (FOPEN name mode) w = (p, w') ->
    if p =? 0 then streams w' = streams w else (p ∉ streams w) /\ streams w' = {[p]} ∪ streams w;
  fclose_streams p w : streams (libc (FCLOSE p) w).2 = streams w ∖ {[p]};
  other_streams c w : match c with FOPEN _ _ | FREOPEN _ _ _ | FCLOSE _ => True | _ => streams (libc c w).2 = streams w end;
  data_streams w :
    (forall p n, streams (fread p n w).2 = streams w) /\ (forall p n, streams (fgets p n w).2 = streams w) /\
    (forall p, streams (fgetpos p w).2 = streams w) /\ (forall d n, streams (read d n w).2 = streams w) /\
    (forall d, streams (fstat d w).2 = streams w) /\ (forall s, streams (stat_name s w).2 = streams w) /\
    (forall d, streams (readdir d w).2 = streams w) /\ (forall e, streams (set_errno e w) = streams w)
}.

(** ** State *)

(** [struct apps_std_info]: a descriptor with a stream or with a decrypted file in memory. *)
Inductive content := APPS_STD_STREAM_FILE (stream : Z) | APPS_STD_STREAM_BUF (fbuf flen pos : Z).
Record apps_std_info := Info { fd : Z; u : content }.
(** [struct mem_io_to_fd]. *)
Record mem_io_to_fd := MemIo { io_size : Z; io_fd : Z; io_fdfile : Z; io_stream : Z; io_buf : Z }.

Record apps (W : Type) := Apps {
  world : W;
  apps_std_qlst : list apps_std_info;
  apps_std_dirlist : list Z;             (* the handles *)
  fdlist : list mem_io_to_fd;
  mem : memory;
  misuse : bool                          (* a stream that is not open was used, or memory outside a buffer *)
}.
Arguments Apps {_}. Arguments world {_}. Arguments apps_std_qlst {_}. Arguments apps_std_dirlist {_}. Arguments fdlist {_}.
Arguments mem {_}. Arguments misuse {_}.

Section ops.
Context {W : Type} `{HL : Libc W}.
Implicit Types (s : apps W).

Definition set_world (w : W) s : apps W := Apps w (apps_std_qlst s) (apps_std_dirlist s) (fdlist s) (mem s) (misuse s).
Definition set_files (l : list apps_std_info) s : apps W := Apps (world s) l (apps_std_dirlist s) (fdlist s) (mem s) (misuse s).
Definition set_dirs (l : list Z) s : apps W := Apps (world s) (apps_std_qlst s) l (fdlist s) (mem s) (misuse s).
Definition set_fdlist (l : list mem_io_to_fd) s : apps W := Apps (world s) (apps_std_qlst s) (apps_std_dirlist s) l (mem s) (misuse s).
Definition set_mem (m : memory) s : apps W := Apps (world s) (apps_std_qlst s) (apps_std_dirlist s) (fdlist s) m (misuse s).
Definition set_misuse (b : bool) s : apps W := Apps (world s) (apps_std_qlst s) (apps_std_dirlist s) (fdlist s) (mem s) (misuse s || b).

Definition on_world {A} (f : W -> A * W) : M (apps W) A := fun s => let '(a, w) := f (world s) in (Go a, set_world w s).
(** A use of a stream. *)
Definition use (p : Z) : M (apps W) unit := modify (fun s => set_misuse (negb (bool_decide (p ∈ streams (world s)))) s).
Definition io (c : call) : M (apps W) Z :=
  _ ← match stream_of c with Some p => use p | None => mret tt end; on_world (libc c).

Definition no_errno : M (apps W) unit := modify (fun s => set_world (set_errno 0 (world s)) s).
(** [ERRNO], with the value that [nErr] has. *)
Definition ERRNO (nErr : Z) : M (apps W) Z := gets (fun s => let e := errno (world s) in if negb (e =? 0) then e else if negb (nErr =? 0) then nErr else -1).
(** [VERIFYC(val, ERRNO)]. *)
Definition VERIFYC_ERRNO (nErr : Z) (b : bool) : M (apps W) unit := if b then mret tt else (e ← ERRNO nErr; bail e).
(** A call whose result is [nErr], replaced by [ERRNO] when it is not 0. *)
Definition or_errno (c : call) : M (apps W) Z := r ← io c; if negb (r =? AEE_SUCCESS) then ERRNO r else mret r.

(** ** The table of files *)

(** The place of a new node: in front of the first node whose descriptor is not the next one. *)
Fixpoint first_gap (prevfd : Z) (l : list apps_std_info) : option (nat * Z) :=
  match l with
  | [] => None
  | info :: l => if negb (fd info =? s32 (prevfd + 1)) then Some (O, s32 (prevfd + 1))
                 else (fun r => (S r.1, r.2)) <$> first_gap (fd info) l
  end.
Fixpoint last_fd (prevfd : Z) (l : list apps_std_info) : Z := match l with [] => prevfd | info :: l => last_fd (fd info) l end.
Definition place (l : list apps_std_info) : nat * Z :=
  match l with
  | [] => (O, s32 (APPS_FD_BASE - 1 + 1))
  | info :: _ => match first_gap (fd info) l with Some r => r | None => (length l, s32 (last_fd (fd info) l + 1)) end
  end.
Definition apps_std_FILE_alloc (stream : Z) : M (apps W) (Z * Z) :=
  sinfo ← io CALLOC;
  if sinfo =? 0 then mret (ENOMEM, 0)
  else
    s ← get;
    let l := apps_std_qlst s in
    let '(i, d) := place l in
    _ ← put (set_files (take i l ++ Info d (APPS_STD_STREAM_FILE stream) :: drop i l) s);
    mret (AEE_SUCCESS, d).

Fixpoint find_fd (d : Z) (l : list apps_std_info) : option (nat * apps_std_info) :=
  match l with
  | [] => None
  | info :: l => if fd info =? d then Some (O, info) else (fun r => (S r.1, r.2)) <$> find_fd d l
  end.
(** The position of the node stands for its address. *)
Definition apps_std_FILE_get (d : Z) : M (apps W) (nat * apps_std_info) :=
  l ← gets apps_std_qlst;
  match find_fd d l with Some r => mret r | None => bail EBADF end.
Definition apps_std_FILE_free (i : nat) : M (apps W) unit := modify (fun s => set_files (delete i (apps_std_qlst s)) s).
Definition set_content (i : nat) (c : content) : M (apps W) unit :=
  modify (fun s => set_files (alter (fun info => Info (fd info) c) i (apps_std_qlst s)) s).
Definition apps_std_FILE_set_buffer_stream (i : nat) (stream fbuf flen pos : Z) : M (apps W) unit :=
  _ ← io (FCLOSE stream); set_content i (APPS_STD_STREAM_BUF fbuf flen pos).

(** A body that only works on a stream; [nErr] is what the others get. *)
Definition stream_only (info : apps_std_info) (nErr : Z) (k : Z -> M (apps W) unit) : M (apps W) unit :=
  match u info with APPS_STD_STREAM_FILE p => k p | APPS_STD_STREAM_BUF _ _ _ => bail nErr end.

(** ** Opening and closing *)
Definition apps_std_fopen (name : option (list Z)) (mode : list Z) : M (apps W) (Z * Z) :=
  _ ← no_errno;
  match name with
  | None => mret (AEE_EBADPARM, 0)
  | Some name =>
    stream ← io (FOPEN name mode);
    if negb (stream =? 0) then apps_std_FILE_alloc stream else (e ← ERRNO 0; mret (e, 0))
  end.

(** The file is read into shared memory, whose descriptor is mapped for the DSP. Results: the
    code, the descriptor and the length. The body leaves at [bail] with what was acquired. *)
Record opened_fd := OpenedFd { of_stream : Z; of_source : Z; of_fd : Z; of_len : Z }.
Definition fopen_fd_body (domain : Z) (name : option (list Z)) (mode : list Z) : M (apps W * opened_fd) unit :=
  _ ← lift no_errno;
  match name with
  | None => bail AEE_EBADPARM
  | Some name =>
    stream ← lift (io (FOPEN name mode));
    _ ← setl (fun l => OpenedFd stream (of_source l) (of_fd l) (of_len l));
    _ ← (if stream =? 0 then (e ← lift (ERRNO 0); bail e) else mret tt);
    fdfile ← lift (io (FILENO stream));
    _ ← lift (VERIFYC_ERRNO 0 (negb (fdfile =? -1)));
    st ← lift (on_world (fstat fdfile));
    match st with
    | None => lift (e ← ERRNO 0; bail e)
    | Some st =>
      source ← lift (io (RPCMEM_ALLOC 0 RPCMEM_HEAP_DEFAULT (st_size st)));
      _ ← setl (fun l => OpenedFd (of_stream l) source (of_fd l) (of_len l));
      _ ← VERIFYC (negb (source =? 0)) AEE_ENORPCMEMORY;
      bs ← lift (on_world (read fdfile (st_size st)));
      match bs with
      | None => bail AEE_EFILE
      | Some bs =>
        _ ← lift (modify (fun s => set_mem (store (mem s) source bs) s));
        d ← lift (io (RPCMEM_TO_FD source));
        let len := s32 (st_size st) in
        _ ← setl (fun l => OpenedFd (of_stream l) (of_source l) d len);
        _ ← VERIFY_CALL (lift (io (FASTRPC_MMAP domain d source len)));
        tofd ← lift (io CALLOC);
        _ ← VERIFYC (negb (tofd =? 0)) AEE_ENOMEMORY;
        lift (modify (fun s => set_fdlist (fdlist s ++ [MemIo len d fdfile stream source]) s))
      end
    end
  end.
Definition apps_std_fopen_fd (name : option (list Z)) (mode : list Z) : M (apps W) (Z * (Z * Z)) :=
  domain ← gets (fun s => current_domain (world s));
  r ← with_locals (OpenedFd 0 0 0 0) (fopen_fd_body domain name mode);
  let '(nErr, l) := r : Z * opened_fd in
  _ ← (if negb (nErr =? AEE_SUCCESS) then
         _ ← (if negb (of_stream l =? 0) then io (FCLOSE (of_stream l)) else mret 0);
         if negb (of_source l =? 0) then io (RPCMEM_FREE (of_source l)) else mret 0
       else mret 0);
  mret (nErr, (of_fd l, of_len l)).

Definition apps_std_freopen (sin : Z) (name : option (list Z)) (mode : list Z) : M (apps W) (Z * Z) :=
  r ← with_locals 0 (
    _ ← lift no_errno;
    match name with
    | None => bail AEE_EBADPARM
    | Some name =>
      '(_, info) ← lift (apps_std_FILE_get sin);
      match u info with
      | APPS_STD_STREAM_BUF _ _ _ => bail EBADF
      | APPS_STD_STREAM_FILE p =>
        stream ← lift (io (FREOPEN name mode p));
        if negb (stream =? 0) then (
          r ← lift (apps_std_FILE_alloc stream);
          _ ← setl (fun _ => r.2);
          if r.1 =? AEE_SUCCESS then mret tt else bail r.1)
        else (e ← lift (ERRNO 0); bail e)
      end
    end);
  mret r.

Definition apps_std_fflush (sin : Z) : M (apps W) Z :=
  to_bail (
    '(_, info) ← apps_std_FILE_get sin;
    match u info with
    | APPS_STD_STREAM_FILE p => r ← io (FFLUSH p); VERIFYC_ERRNO 0 (r =? 0)
    | APPS_STD_STREAM_BUF _ _ _ => mret tt
    end).

Definition apps_std_fclose (sin : Z) : M (apps W) Z :=
  to_bail (
    _ ← no_errno;
    '(i, info) ← apps_std_FILE_get sin;
    _ ← match u info with
        | APPS_STD_STREAM_FILE p => nErr ← io (FCLOSE p); VERIFYC_ERRNO nErr (nErr =? AEE_SUCCESS)
        | APPS_STD_STREAM_BUF fbuf flen pos => if negb (fbuf =? 0) then (_ ← io (RPCMEM_FREE fbuf); mret tt) else mret tt
        end;
    apps_std_FILE_free i).

Fixpoint take_io (d : Z) (l : list mem_io_to_fd) : option (mem_io_to_fd * list mem_io_to_fd) :=
  match l with
  | [] => None
  | t :: l => if io_fd t =? d then Some (t, l) else (fun r => (r.1, t :: r.2)) <$> take_io d l
  end.
Definition apps_std_fclose_fd (d : Z) : M (apps W) Z :=
  domain ← gets (fun s => current_domain (world s));
  to_bail (
    _ ← no_errno;
    s ← get;
    match take_io d (fdlist s) with
    | None => mret tt
    | Some (t, l) =>
      _ ← put (set_fdlist l s);
      _ ← VERIFY_CALL (io (FASTRPC_MUNMAP domain d (io_buf t) (io_size t)));
      _ ← (if negb (io_buf t =? 0) then io (RPCMEM_FREE (io_buf t)) else mret 0);
      nErr ← io (FCLOSE (io_stream t));
      VERIFYC_ERRNO nErr (nErr =? AEE_SUCCESS)
    end).

(** ** Reading and writing *)

(** [bytesRead] and [bEOF], with the bytes; [None] when they were not set. *)
Record rw_out := RwOut { ro_bytes : list Z; ro_count : option Z; ro_eof : option bool }.
Definition STD_MIN (a b : Z) : Z := if a <? b then a else b.
(** What follows [fread] and [fwrite] on a stream: [out] bytes of [bufLen] were done. *)
Definition after_rw (p out bufLen : Z) : M (apps W * rw_out) unit :=
  _ ← setl (fun l => RwOut (ro_bytes l) (ro_count l) (Some false));
  _ ← (if out <=? bufLen then
         _ ← (if out =? 0 then (err ← lift (io (FERROR p)); if negb (err =? 0) then (e ← lift (ERRNO 0); bail e) else mret tt) else mret tt);
         eof ← lift (io (FEOF p));
         _ ← setl (fun l => RwOut (ro_bytes l) (ro_count l) (Some (negb (eof =? 0))));
         _ ← lift (io (CLEARERR p)); mret tt
       else mret tt);
  setl (fun l => RwOut (ro_bytes l) (Some out) (ro_eof l)).
(** [memcpy] out of a buffer of [flen] bytes. *)
Definition copy_out (fbuf flen pos n : Z) : M (apps W) (list Z) :=
  if (n =? 0) || ((0 <=? pos) && (pos + n <=? flen)) then gets (fun s => load (mem s) (fbuf + pos) n)
  else (_ ← modify (set_misuse true); mret []).
Definition apps_std_fread (sin bufLen : Z) : M (apps W) (Z * rw_out) :=
  with_locals (RwOut [] None None) (
    _ ← lift no_errno;
    '(i, info) ← lift (apps_std_FILE_get sin);
    match u info with
    | APPS_STD_STREAM_FILE p =>
      bs ← lift (_ ← use p; on_world (fread p bufLen));
      _ ← setl (fun l => RwOut bs (ro_count l) (ro_eof l));
      after_rw p (Z.of_nat (length bs)) bufLen
    | APPS_STD_STREAM_BUF fbuf flen pos =>
      let n := u32 (STD_MIN bufLen (s32 (flen - pos))) in
      bs ← lift (copy_out fbuf flen pos n);
      let pos := s32 (pos + n) in
      _ ← lift (set_content i (APPS_STD_STREAM_BUF fbuf flen pos));
      setl (fun _ => RwOut bs (Some (s32 n)) (Some (pos =? flen)))
    end).
Definition apps_std_fwrite (sin : Z) (bs : list Z) (bufLen : Z) : M (apps W) (Z * rw_out) :=
  with_locals (RwOut [] None None) (
    _ ← lift no_errno;
    '(_, info) ← lift (apps_std_FILE_get sin);
    match u info with
    | APPS_STD_STREAM_FILE p => out ← lift (io (FWRITE p bs)); after_rw p out bufLen
    | APPS_STD_STREAM_BUF _ _ _ => bail AEE_EFILE
    end).
Definition apps_std_fgets (sin bufLen : Z) : M (apps W) (Z * rw_out) :=
  with_locals (RwOut [] None None) (
    '(_, info) ← lift (apps_std_FILE_get sin);
    match u info with
    | APPS_STD_STREAM_FILE p =>
      out ← lift (_ ← use p; on_world (fgets p bufLen));
      match out with
      | Some bs => setl (fun _ => RwOut bs None (Some false))
      | None =>
        _ ← setl (fun _ => RwOut [] None (Some false));
        err ← lift (io (FERROR p));
        if negb (err =? 0) then (e ← lift (ERRNO 0); bail e)
        else (eof ← lift (io (FEOF p)); setl (fun _ => RwOut [] None (Some (negb (eof =? 0)))))
      end
    | APPS_STD_STREAM_BUF _ _ _ => bail EBADF
    end).

(** ** Positions and state of a stream *)
Definition apps_std_fgetpos (sin posLen : Z) : M (apps W) (Z * (list Z * Z)) :=
  with_locals ([], 0) (
    _ ← lift no_errno;
    '(_, info) ← lift (apps_std_FILE_get sin);
    match u info with
    | APPS_STD_STREAM_FILE p =>
      r ← lift (_ ← use p; on_world (fgetpos p));
      match r with
      | Some fpos => setl (fun _ => (take (Z.to_nat (STD_MIN SIZEOF_FPOS posLen)) fpos, SIZEOF_FPOS))
      | None => e ← lift (ERRNO 0); bail e
      end
    | APPS_STD_STREAM_BUF _ _ _ => bail EBADF
    end).
Definition apps_std_fsetpos (sin : Z) (pos : list Z) : M (apps W) Z :=
  to_bail (
    _ ← no_errno;
    '(_, info) ← apps_std_FILE_get sin;
    stream_only info EBADF (fun p =>
      _ ← VERIFYC (Z.of_nat (length pos) =? SIZEOF_FPOS) EBADF;
      r ← io (FSETPOS p pos); VERIFYC_ERRNO 0 (r =? 0))).
Definition apps_std_ftell (sin : Z) : M (apps W) (Z * Z) :=
  with_locals 0 (
    _ ← lift no_errno;
    '(_, info) ← lift (apps_std_FILE_get sin);
    match u info with
    | APPS_STD_STREAM_FILE p => pos ← lift (io (FTELL p)); _ ← setl (fun _ => pos); lift (VERIFYC_ERRNO 0 (0 <=? pos))
    | APPS_STD_STREAM_BUF _ _ pos => setl (fun _ => pos)
    end).
Definition apps_std_fseek (sin offset : Z) (whence : seek) : M (apps W) Z :=
  to_bail (
    _ ← no_errno;
    '(i, info) ← apps_std_FILE_get sin;
    match u info with
    | APPS_STD_STREAM_FILE p => r ← io (FSEEK p offset whence); VERIFYC_ERRNO 0 (r =? 0)
    | APPS_STD_STREAM_BUF fbuf flen pos =>
      match whence with
      | APPS_STD_SEEK_SET => _ ← VERIFYC (offset <=? flen) AEE_EFILE; set_content i (APPS_STD_STREAM_BUF fbuf flen offset)
      | APPS_STD_SEEK_CUR => _ ← VERIFYC (s32 (offset + pos) <=? flen) AEE_EFILE; set_content i (APPS_STD_STREAM_BUF fbuf flen (s32 (pos + offset)))
      | APPS_STD_SEEK_END => _ ← VERIFYC (offset <=? s32 (INT_MAX - flen)) AEE_EFILE; set_content i (APPS_STD_STREAM_BUF fbuf flen (s32 (pos + s32 (offset + flen))))
      end
    end).
(** [errno] is not reset here. *)
Definition apps_std_rewind (sin : Z) : M (apps W) Z :=
  to_bail (
    '(i, info) ← apps_std_FILE_get sin;
    _ ← match u info with
        | APPS_STD_STREAM_FILE p => _ ← io (REWIND p); mret tt
        | APPS_STD_STREAM_BUF fbuf flen _ => set_content i (APPS_STD_STREAM_BUF fbuf flen 0)
        end;
    e ← gets (fun s => errno (world s));
    if negb (e =? 0) then (e ← ERRNO 0; bail e) else mret tt).
Definition apps_std_feof (sin : Z) : M (apps W) (Z * bool) :=
  with_locals false (
    '(_, info) ← lift (apps_std_FILE_get sin);
    match u info with
    | APPS_STD_STREAM_FILE p => eof ← lift (io (FEOF p)); _ ← setl (fun _ => negb (eof =? 0)); _ ← lift (io (CLEARERR p)); mret tt
    | APPS_STD_STREAM_BUF _ _ _ => bail EBADF
    end).
Definition apps_std_ferror (sin : Z) : M (apps W) (Z * Z) :=
  with_locals 0 (
    '(_, info) ← lift (apps_std_FILE_get sin);
    match u info with
    | APPS_STD_STREAM_FILE p => err ← lift (io (FERROR p)); setl (fun _ => err)
    | APPS_STD_STREAM_BUF _ _ _ => bail EBADF
    end).
Definition apps_std_clearerr (sin : Z) : M (apps W) Z :=
  to_bail ('(_, info) ← apps_std_FILE_get sin; stream_only info EBADF (fun p => _ ← io (CLEARERR p); mret tt)).
Definition apps_std_flen (sin : Z) : M (apps W) (Z * Z) :=
  with_locals 0 (
    '(_, info) ← lift (apps_std_FILE_get sin);
    match u info with
    | APPS_STD_STREAM_FILE p =>
      _ ← lift no_errno;
      d ← lift (io (FILENO p));
      _ ← lift (VERIFYC_ERRNO 0 (negb (d =? -1)));
      _ ← lift no_errno;
      st ← lift (on_world (fstat d));
      match st with Some st => setl (fun _ => st_size st) | None => e ← lift (ERRNO 0); bail e end
    | APPS_STD_STREAM_BUF _ flen _ => setl (fun _ => flen)
    end).
Definition apps_std_fsync (sin : Z) : M (apps W) Z :=
  to_bail (
    '(_, info) ← apps_std_FILE_get sin;
    stream_only info EBADF (fun p => nErr ← or_errno (FFLUSH p); if nErr =? AEE_SUCCESS then mret tt else bail nErr)).
(** Of a decrypted file, [u.stream] is the address of its buffer. *)
Definition apps_std_ftrunc (sin offset : Z) : M (apps W) Z :=
  to_bail (
    '(_, info) ← apps_std_FILE_get sin;
    _ ← no_errno;
    d ← io (FILENO (match u info with APPS_STD_STREAM_FILE p => p | APPS_STD_STREAM_BUF fbuf _ _ => fbuf end));
    _ ← VERIFYC_ERRNO 0 (negb (d =? -1));
    r ← io (FTRUNCATE d offset); VERIFYC_ERRNO 0 (r =? 0)).

(** ** Decrypted files *)
Definition decrypt_int (fbuf size : Z) : M (apps W) Z :=
  r ← with_locals 0 (
    handle ← lift (io (DLOPEN (str "liblmclient.so")));
    _ ← setl (fun _ => handle);
    _ ← VERIFYC (negb (handle =? 0)) AEE_EINVHANDLE;
    l_init ← lift (io (DLSYM handle (str "license_manager_init")));
    _ ← VERIFYC (negb (l_init =? 0)) AEE_ERPC;
    l_deinit ← lift (io (DLSYM handle (str "license_manager_deinit")));
    _ ← VERIFYC (negb (l_deinit =? 0)) AEE_ERPC;
    l_decrypt ← lift (io (DLSYM handle (str "license_manager_decrypt")));
    _ ← VERIFYC (negb (l_decrypt =? 0)) AEE_ERPC;
    _ ← VERIFY_CALL (lift (io LICENSE_INIT));
    d ← lift (io (RPCMEM_TO_FD fbuf));
    _ ← VERIFYC (negb (d =? -1)) AEE_ERPC;
    _ ← VERIFY_CALL (lift (io (LICENSE_DECRYPT d size)));
    _ ← lift (modify (fun s => set_mem (store (mem s) fbuf (decrypted d (world s) (load (mem s) fbuf size))) s));
    VERIFY_CALL (lift (io LICENSE_DEINIT)));
  let '(nErr, handle) := r : Z * Z in
  _ ← (if negb (handle =? 0) then io (DLCLOSE handle) else mret 0);
  mret nErr.
Definition apps_std_fdopen_decrypt (sin : Z) : M (apps W) (Z * Z) :=
  r ← with_locals (0, 0) (
    '(i, info) ← lift (apps_std_FILE_get sin);
    match u info with
    | APPS_STD_STREAM_BUF _ _ _ => bail EBADF
    | APPS_STD_STREAM_FILE p =>
      pos ← lift (io (FTELL p));
      d ← lift (io (FILENO p));
      _ ← VERIFYC (negb (d =? -1)) AEE_EFILE;
      st ← lift (on_world (fstat d));
      match st with
      | None => bail AEE_EFILE
      | Some st =>
        let sz := s32 (st_size st) in
        fbuf ← lift (io (RPCMEM_ALLOC ION_HEAP_ID_QSEECOM 1 (u64 sz)));
        _ ← setl (fun _ => (fbuf, 0));
        _ ← VERIFYC (negb (fbuf =? 0)) AEE_ENORPCMEMORY;
        r ← lift (io (FSEEK p 0 APPS_STD_SEEK_SET));
        _ ← VERIFYC (r =? 0) AEE_EFILE;
        bs ← lift (_ ← use p; on_world (fread p sz));
        _ ← lift (modify (fun s => set_mem (store (mem s) fbuf bs) s));
        _ ← VERIFYC (sz =? Z.of_nat (length bs)) AEE_EFILE;
        _ ← VERIFY_CALL (lift (decrypt_int fbuf sz));
        _ ← lift (apps_std_FILE_set_buffer_stream i p fbuf sz pos);
        setl (fun _ => (fbuf, sin))
      end
    end);
  let '(nErr, (fbuf, psout)) := r : Z * (Z * Z) in
  _ ← (if negb (nErr =? 0) && negb (fbuf =? 0) then io (RPCMEM_FREE fbuf) else mret 0);
  mret (nErr, psout).

(** ** Directories *)
Definition apps_std_get_dirinfo (handle : Z) : M (apps W) nat :=
  l ← gets apps_std_dirlist;
  match list_find (fun h => h = handle) l with Some (i, _) => mret i | None => bail ESTALE end.
Definition apps_std_opendir (name : option (list Z)) : M (apps W) (Z * Z) :=
  match name with
  | None => mret (AEE_EBADPARM, 0)
  | Some name =>
    _ ← no_errno;
    odir ← io (OPENDIR name);
    if negb (odir =? 0) then
      dirinfo ← io CALLOC;
      if dirinfo =? 0 then mret (ENOMEM, odir)
      else (_ ← modify (fun s => set_dirs (apps_std_dirlist s ++ [odir]) s); mret (AEE_SUCCESS, odir))
    else (e ← ERRNO 0; mret (e, 0))
  end.
Definition apps_std_closedir (handle : Z) : M (apps W) Z :=
  if handle =? 0 then mret EINVAL
  else
    _ ← no_errno;
    to_bail (
      i ← apps_std_get_dirinfo handle;
      nErr ← or_errno (CLOSEDIR handle);
      if nErr =? AEE_SUCCESS then modify (fun s => set_dirs (delete i (apps_std_dirlist s)) s) else bail nErr).
(** [ino] and [name] of the entry, and [bEOF]. *)
Definition apps_std_readdir (handle : Z) : M (apps W) (Z * (option (Z * list Z) * bool)) :=
  if handle =? 0 then mret (EINVAL, (None, false))
  else
    _ ← no_errno;
    with_locals (None, false) (
      _ ← lift (apps_std_get_dirinfo handle);
      odirent ← lift (on_world (readdir handle));
      match odirent with
      | Some (ino, name) => setl (fun _ => (Some (s32 ino, take 254 name), false))
      | None =>
        e ← lift (gets (fun s => errno (world s)));
        if e =? 0 then setl (fun _ => (None, true)) else (e ← lift (ERRNO 0); bail e)
      end).

(** ** Names *)
Definition with_name (name : option (list Z)) (nErr : Z) (k : list Z -> M (apps W) Z) : M (apps W) Z :=
  match name with None => mret nErr | Some name => k name end.
Definition apps_std_fremove (name : option (list Z)) : M (apps W) Z := with_name name EINVAL (fun name => or_errno (REMOVE name)).
Definition apps_std_frename (old new : option (list Z)) : M (apps W) Z :=
  with_name old EINVAL (fun old => with_name new EINVAL (fun new => or_errno (RENAME old new))).
Definition apps_std_mkdir (name : option (list Z)) (mode : Z) : M (apps W) Z := with_name name EINVAL (fun name => _ ← no_errno; or_errno (MKDIR name mode)).
Definition apps_std_rmdir (name : option (list Z)) : M (apps W) Z := with_name name EINVAL (fun name => _ ← no_errno; or_errno (RMDIR name)).
Definition apps_std_setenv (name val : list Z) (override : Z) : M (apps W) Z := _ ← no_errno; r ← io (SETENV name val override); if negb (r =? 0) then ERRNO 0 else mret AEE_SUCCESS.
Definition apps_std_unsetenv (name : list Z) : M (apps W) Z := _ ← no_errno; r ← io (UNSETENV name); if negb (r =? 0) then ERRNO 0 else mret AEE_SUCCESS.
Definition apps_std_fileExists (path : option (list Z)) : M (apps W) (Z * bool) :=
  match path with
  | None => mret (AEE_EBADPARM, false)
  | Some path => _ ← no_errno; st ← on_world (stat_name path); mret (AEE_SUCCESS, match st with Some _ => true | None => false end)
  end.

(** ** The requests of the DSP *)
Inductive request :=
  | Fopen (name : option (list Z)) (mode : list Z) | Fopen_fd (name : option (list Z)) (mode : list Z)
  | Freopen (sin : Z) (name : option (list Z)) (mode : list Z)
  | Fflush (sin : Z) | Fclose (sin : Z) | Fclose_fd (d : Z) | Fread (sin n : Z) | Fwrite (sin : Z) (bs : list Z) (n : Z) | Fgets (sin n : Z)
  | Fgetpos (sin n : Z) | Fsetpos (sin : Z) (pos : list Z) | Ftell (sin : Z) | Fseek (sin offset : Z) (whence : seek) | Rewind (sin : Z)
  | Feof (sin : Z) | Ferror (sin : Z) | Clearerr (sin : Z) | Flen (sin : Z) | Fsync (sin : Z) | Ftrunc (sin offset : Z) | Fdopen_decrypt (sin : Z)
  | Opendir (name : option (list Z)) | Closedir (dir : Z) | Readdir (dir : Z)
  | Fremove (name : option (list Z)) | Frename (old new : option (list Z)) | Mkdir (name : option (list Z)) (mode : Z) | Rmdir (name : option (list Z))
  | Setenv (name val : list Z) (override : Z) | Unsetenv (name : list Z) | FileExists (name : option (list Z)).
Definition code {A} (m : M (apps W) (Z * A)) : M (apps W) Z := r ← m; mret r.1.
(** The code of a request; the outputs of the functions are left out. *)
Definition run_request (r : request) : M (apps W) Z :=
  match r with
  | Fopen name mode => code (apps_std_fopen name mode)
  | Fopen_fd name mode => code (apps_std_fopen_fd name mode)
  | Freopen sin name mode => code (apps_std_freopen sin name mode)
  | Fflush sin => apps_std_fflush sin
  | Fclose sin => apps_std_fclose sin
  | Fclose_fd d => apps_std_fclose_fd d
  | Fread sin n => code (apps_std_fread sin n)
  | Fwrite sin bs n => code (apps_std_fwrite sin bs n)
  | Fgets sin n => code (apps_std_fgets sin n)
  | Fgetpos sin n => code (apps_std_fgetpos sin n)
  | Fsetpos sin pos => apps_std_fsetpos sin pos
  | Ftell sin => code (apps_std_ftell sin)
  | Fseek sin offset whence => apps_std_fseek sin offset whence
  | Rewind sin => apps_std_rewind sin
  | Feof sin => code (apps_std_feof sin)
  | Ferror sin => code (apps_std_ferror sin)
  | Clearerr sin => apps_std_clearerr sin
  | Flen sin => code (apps_std_flen sin)
  | Fsync sin => apps_std_fsync sin
  | Ftrunc sin offset => apps_std_ftrunc sin offset
  | Fdopen_decrypt sin => code (apps_std_fdopen_decrypt sin)
  | Opendir name => code (apps_std_opendir name)
  | Closedir dir => apps_std_closedir dir
  | Readdir dir => code (apps_std_readdir dir)
  | Fremove name => apps_std_fremove name
  | Frename old new => apps_std_frename old new
  | Mkdir name mode => apps_std_mkdir name mode
  | Rmdir name => apps_std_rmdir name
  | Setenv name val override => apps_std_setenv name val override
  | Unsetenv name => apps_std_unsetenv name
  | FileExists name => code (apps_std_fileExists name)
  end.
Definition run_requests (rs : list request) : M (apps W) unit := foldr (fun r k => _ ← run_request r; k) (mret tt) rs.
Definition apps_std_init (w : W) (m : memory) : apps W := Apps w [] [] [] m false.

(** ** The descriptors *)

(** The descriptors in the order of the table: from the newest to the oldest. *)
Definition fds s : list Z := fd <$> apps_std_qlst s.
Definition descending (l : list Z) : Prop := StronglySorted (fun a b => b < a) l.
(** At most [n] descriptors were ever handed out. *)
Definition fds_ok (n : Z) s : Prop := descending (fds s) /\ Forall (fun d => APPS_FD_BASE <= d < APPS_FD_BASE + n) (fds s).

Lemma place_spec l n : Forall (fun d => APPS_FD_BASE <= d < APPS_FD_BASE + n) (fd <$> l) -> 0 <= n -> APPS_FD_BASE + n < 2147483647 ->
  place l = (O, match l with [] => APPS_FD_BASE | info :: _ => fd info + 1 end).
Proof.
  unfold APPS_FD_BASE. intros Hl Hn Hb. destruct l as [|info l]; [done|]. cbn [fmap list_fmap] in Hl. apply Forall_cons in Hl as [Hi _].
  unfold place. cbn [first_gap]. rewrite s32_small by lia. rewrite (proj2 (Z.eqb_neq _ _)) by lia. done.
Qed.

Lemma fds_set_content i c s : fds (set_files (alter (fun info => Info (fd info) c) i (apps_std_qlst s)) s) = fds s.
Proof.
  unfold fds. cbn. apply list_eq. intros j. rewrite !list_lookup_fmap.
  rewrite list_lookup_alter. case_decide as Hij; [rewrite <- Hij|done].
  by destruct (apps_std_qlst s !! _).
Qed.
Lemma descending_delete i l : descending l -> descending (delete i l).
Proof.
  unfold descending. intros Hl. revert i. induction Hl as [|x l Hl IH Hx]; intros [|i]; cbn; [constructor|constructor|done|].
  constructor; [apply IH|by apply Forall_delete].
Qed.
Lemma fds_delete i s : fds (set_files (delete i (apps_std_qlst s)) s) = delete i (fds s).
Proof. unfold fds. cbn. by rewrite list_fmap_delete. Qed.

Section descriptors.
Context (n : Z) (Hn : 0 <= n) (Hmax : APPS_FD_BASE + n < 2147483647).
Abbreviation keeps m := (preserves (fds_ok n) m).

Lemma fds_on_world {A} (f : W -> A * W) : keeps (on_world f).
Proof. intros s Hs. unfold on_world. by destruct (f (world s)). Qed.
Lemma fds_use p : keeps (use p).
Proof. by intros s Hs. Qed.
Lemma fds_io c : keeps (io c).
Proof. unfold io. keep; try apply fds_use; apply fds_on_world. Qed.
Lemma fds_no_errno : keeps no_errno.
Proof. by intros s Hs. Qed.
Lemma fds_ERRNO e : keeps (ERRNO e).
Proof. by intros s Hs. Qed.
Lemma fds_set_mem f : keeps (modify (fun s => set_mem (f s) s)).
Proof. by intros s Hs. Qed.
Lemma fds_set_dirs f : keeps (modify (fun s => set_dirs (f s) s)).
Proof. by intros s Hs. Qed.
Lemma fds_set_fdlist f : keeps (modify (fun s => set_fdlist (f s) s)).
Proof. by intros s Hs. Qed.
Lemma fds_misuse b : keeps (modify (set_misuse b)).
Proof. by intros s Hs. Qed.
Lemma fds_content i c : keeps (set_content i c).
Proof. intros s Hs. unfold fds_ok, set_content, modify. cbn [snd]. by rewrite fds_set_content. Qed.
Lemma fds_free i : keeps (apps_std_FILE_free i).
Proof.
  intros s [Hd Hr]. unfold fds_ok, apps_std_FILE_free, modify. cbn [snd]. rewrite fds_delete.
  split; [by apply descending_delete|by apply Forall_delete].
Qed.
Lemma fds_get d : keeps (apps_std_FILE_get d).
Proof. unfold apps_std_FILE_get. keep. Qed.
Hint Resolve fds_on_world fds_use fds_io fds_no_errno fds_ERRNO fds_set_mem fds_set_dirs fds_set_fdlist fds_misuse fds_content fds_free fds_get : keeps.
Lemma fds_errno e b : keeps (VERIFYC_ERRNO e b).
Proof. unfold VERIFYC_ERRNO. keep. Qed.
Lemma fds_or_errno c : keeps (or_errno c).
Proof. unfold or_errno. keep. Qed.
Lemma fds_stream_only info e k : (forall p, keeps (k p)) -> keeps (stream_only info e k).
Proof. unfold stream_only. keep. Qed.
Hint Resolve fds_errno fds_or_errno fds_stream_only : keeps.
Lemma fds_copy_out fbuf flen pos m : keeps (copy_out fbuf flen pos m).
Proof. unfold copy_out. keep. Qed.
Lemma fds_set_buffer i p fbuf flen pos : keeps (apps_std_FILE_set_buffer_stream i p fbuf flen pos).
Proof. unfold apps_std_FILE_set_buffer_stream. keep. Qed.
Lemma fds_after_rw p out m : preserves (fun sl => fds_ok n sl.1) (after_rw p out m).
Proof. unfold after_rw. keep. Qed.
Lemma fds_decrypt fbuf m : keeps (decrypt_int fbuf m).
Proof. unfold decrypt_int. keep. Qed.
Lemma fds_dirinfo h : keeps (apps_std_get_dirinfo h).
Proof. unfold apps_std_get_dirinfo. keep. Qed.
Hint Resolve fds_copy_out fds_set_buffer fds_after_rw fds_decrypt fds_dirinfo : keeps.
Lemma fds_fclose_fd d : keeps (apps_std_fclose_fd d).
Proof.
  unfold apps_std_fclose_fd. apply preserves_bind; [keep|]. intros domain. apply preserves_to_bail, preserves_bind; [keep|].
  intros _ s Hs. unfold mbind at 1, M_bind at 1, get. destruct (take_io d (fdlist s)) as [[t l]|]; [|done].
  unfold mbind at 1, M_bind at 1, put. assert (Hs' : fds_ok n (set_fdlist l s)) by done. revert Hs'. generalize (set_fdlist l s).
  change (keeps (_ ← VERIFY_CALL (io (FASTRPC_MUNMAP domain d (io_buf t) (io_size t)));
    _ ← (if negb (io_buf t =? 0) then io (RPCMEM_FREE (io_buf t)) else mret 0);
    nErr ← io (FCLOSE (io_stream t)); VERIFYC_ERRNO nErr (nErr =? AEE_SUCCESS))). keep.
Qed.
Hint Resolve fds_fclose_fd : keeps.

(** Only [apps_std_FILE_alloc] adds a descriptor. *)
Lemma fds_alloc s p : fds_ok n s -> fds_ok (n + 1) (apps_std_FILE_alloc p s).2.
Proof.
  intros Hs. unfold apps_std_FILE_alloc. munfold. pose proof (fds_io CALLOC s Hs) as Hc. destruct (io CALLOC s) as [[a|e] s'] eqn:E; cbn [snd] in Hc.
  2:{ destruct Hc as [Hd Hr]. split; [done|]. eapply Forall_impl; [exact Hr|]. intros. cbn in *. lia. }
  destruct (a =? 0).
  { destruct Hc as [Hd Hr]. split; [done|]. eapply Forall_impl; [exact Hr|]. intros. cbn in *. lia. }
  destruct Hc as [Hd Hr]. unfold fds in *. rewrite (place_spec _ n) by done. cbn [snd]. unfold fds_ok, fds. cbn.
  destruct (apps_std_qlst s') as [|info l]; cbn [fmap list_fmap] in *.
  - split; [repeat constructor|]. constructor; [cbn; lia|constructor].
  - apply Forall_cons in Hr as Hr'. destruct Hr' as [Hi Hl]. split.
    + constructor; [done|]. constructor; [cbn; lia|]. inversion_clear Hd. eapply Forall_impl; [eassumption|]. intros. cbn in *. lia.
    + constructor; [cbn in *; lia|]. eapply Forall_impl; [exact Hr|]. intros. cbn in *. lia.
Qed.
End descriptors.

Lemma fds_more n n' s : n <= n' -> fds_ok n s -> fds_ok n' s.
Proof. intros Hn [Hd Hr]. split; [done|]. eapply Forall_impl; [exact Hr|]. intros. cbn in *. lia. Qed.

(** A computation that hands out at most one descriptor. *)
Definition one_fd {S A} (st : S -> apps W) (n : Z) (m : M S A) : Prop := forall x, fds_ok n (st x) -> fds_ok (n + 1) (st (m x).2).
Lemma one_fd_none {S A} st n (m : M S A) : preserves (fun x => fds_ok n (st x)) m -> one_fd st n m.
Proof. intros Hm s Hs. eapply fds_more; [|by apply Hm]. lia. Qed.
Lemma one_fd_bind {S A B} st n (m : M S A) (f : A -> M S B) :
  preserves (fun x => fds_ok n (st x)) m -> (forall a, one_fd st n (f a)) -> one_fd st n (m ≫= f).
Proof.
  intros Hm Hf s Hs. pose proof (Hm s Hs) as Hm'. unfold mbind, M_bind. destruct (m s) as [[a|e] s'].
  - by apply Hf.
  - eapply fds_more; [|exact Hm']. lia.
Qed.
Lemma one_fd_then {S A B} st n (m : M S A) (f : A -> M S B) :
  one_fd st n m -> (forall a, preserves (fun x => fds_ok (n + 1) (st x)) (f a)) -> one_fd st n (m ≫= f).
Proof.
  intros Hm Hf s Hs. pose proof (Hm s Hs) as Hm'. unfold mbind, M_bind. destruct (m s) as [[a|e] s']; [|done]. by apply Hf.
Qed.
Lemma one_fd_lift {L A} n (m : M (apps W) A) : one_fd id n m -> one_fd (fst (B := L)) n (lift m).
Proof. intros Hm [s l] Hs. specialize (Hm s Hs). unfold lift. cbn in *. by destruct (m s). Qed.
Lemma one_fd_with_locals {L} n (l0 : L) b : one_fd fst n b -> one_fd id n (with_locals l0 b).
Proof. intros Hb s Hs. specialize (Hb (s, l0) Hs). unfold with_locals. by destruct (b (s, l0)) as [[|] []]. Qed.

Section alloc.
Context (n : Z) (Hn : 0 <= n) (Hmax : APPS_FD_BASE + n < 2147483647).
Hint Resolve fds_on_world fds_use fds_io fds_no_errno fds_ERRNO fds_set_mem fds_set_dirs fds_set_fdlist fds_misuse fds_content fds_free fds_get
  fds_errno fds_or_errno fds_copy_out fds_set_buffer fds_after_rw fds_decrypt fds_dirinfo fds_fclose_fd : keeps.

Lemma fds_fopen name mode : one_fd id n (apps_std_fopen name mode).
Proof.
  unfold apps_std_fopen. apply one_fd_bind; [keep|]. intros _. destruct name as [name|]; [|apply one_fd_none; keep].
  apply one_fd_bind; [keep|]. intros p. destruct (negb (p =? 0)); [by intros s; apply fds_alloc|apply one_fd_none; keep].
Qed.
Lemma fds_freopen sin name mode : one_fd id n (apps_std_freopen sin name mode).
Proof.
  unfold apps_std_freopen. apply one_fd_then; [|unfold id; keep]. apply one_fd_with_locals, one_fd_bind; [keep|]. intros _.
  destruct name as [name|]; [|apply one_fd_none; keep]. apply one_fd_bind; [keep|]. intros [i info].
  destruct (u info) as [p|]; [|apply one_fd_none; keep]. apply one_fd_bind; [keep|]. intros q.
  destruct (negb (q =? 0)); [|apply one_fd_none; keep]. apply one_fd_then; [by apply one_fd_lift; intros s; apply fds_alloc|keep].
Qed.
Lemma fds_request r : one_fd id n (run_request r).
Proof.
  destruct r; cbn [run_request]; unfold code.
  1: (apply one_fd_then; [apply fds_fopen|unfold id; keep]).
  2: (apply one_fd_then; [apply fds_freopen|unfold id; keep]).
  all: apply one_fd_none; unfold id.
  all: try solve [unfold apps_std_fopen_fd, apps_std_fflush, apps_std_fclose, apps_std_fread, apps_std_fwrite, apps_std_fgets, apps_std_fgetpos, apps_std_fsetpos, stream_only; keep].
  all: try solve [unfold apps_std_ftell, apps_std_fseek, apps_std_rewind, apps_std_feof, apps_std_ferror, apps_std_clearerr, apps_std_flen, apps_std_fsync, apps_std_ftrunc, stream_only; keep].
  all: try solve [unfold apps_std_fdopen_decrypt, apps_std_opendir, apps_std_closedir, apps_std_readdir; keep].
  all: unfold apps_std_fremove, apps_std_frename, apps_std_mkdir, apps_std_rmdir, with_name, apps_std_setenv, apps_std_unsetenv, apps_std_fileExists; keep.
Qed.
End alloc.

Lemma fds_requests rs n s : 0 <= n -> APPS_FD_BASE + n + Z.of_nat (length rs) <= 2147483647 ->
  fds_ok n s -> fds_ok (n + Z.of_nat (length rs)) (run_requests rs s).2.
Proof.
  revert n s. induction rs as [|r rs IH]; intros n s Hn Hmax Hs; cbn [run_requests foldr]; [by replace (n + _) with n by (cbn; lia)|].
  cbn [length] in *. assert (Hr : fds_ok (n + 1) (run_request r s).2) by (apply (fds_request n); [lia|lia|done]).
  unfold mbind, M_bind. destruct (run_request r s) as [[a|e] s']; cbn [snd] in *.
  - replace (n + Z.of_nat (S (length rs))) with (n + 1 + Z.of_nat (length rs)) by lia. apply IH; [lia|lia|done].
  - eapply fds_more; [|exact Hr]. lia.
Qed.

Lemma descending_fresh l d : descending (d :: l) -> d ∉ l.
Proof. intros Hl Hd. inversion_clear Hl as [|? ? _ Hx]. rewrite Forall_forall in Hx. specialize (Hx d Hd). cbn in Hx. lia. Qed.
Lemma descending_unique l i j (a b : apps_std_info) : descending (fd <$> l) -> l !! i = Some a -> l !! j = Some b -> fd a = fd b -> i = j.
Proof.
  revert i j. induction l as [|x l IH]; intros i j Hl Hi Hj Hab; [done|]. cbn [fmap list_fmap] in Hl.
  pose proof (descending_fresh _ _ Hl) as Hx. inversion_clear Hl as [|? ? Hl' _].
  destruct i as [|i], j as [|j]; cbn in Hi, Hj; [done| | |f_equal; by eapply IH]; simplify_eq.
  - destruct Hx. rewrite Hab. by eapply list_elem_of_fmap_2, list_elem_of_lookup_2.
  - destruct Hx. rewrite <- Hab. by eapply list_elem_of_fmap_2, list_elem_of_lookup_2.
Qed.
Lemma fopen_new n name mode s d s' : fds_ok n s -> 0 <= n -> APPS_FD_BASE + n < 2147483647 ->
  apps_std_fopen name mode s = (Go (AEE_SUCCESS, d), s') ->
  (d ∉ fds s) /\ exists p, p <> 0 /\ apps_std_qlst s' = Info d (APPS_STD_STREAM_FILE p) :: apps_std_qlst s.
Proof.
  intros Hs Hn Hmax. unfold apps_std_fopen. munfold. unfold no_errno, modify. destruct name as [name|]; [|done].
  unfold io at 1. munfold. unfold on_world at 1. cbn. destruct (libc (FOPEN name mode) _) as [p w1]. cbn.
  destruct (negb (p =? 0)) eqn:Hp.
  2:{ unfold ERRNO. munfold. cbn. destruct (errno w1 =? 0) eqn:E; cbn; [by intros [= ?]|]. apply Z.eqb_neq in E. unfold AEE_SUCCESS. by intros [= ?]. }
  unfold apps_std_FILE_alloc. munfold. unfold io, on_world. munfold. cbn. destruct (libc CALLOC w1) as [a w2]. cbn.
  destruct (a =? 0); [done|]. destruct Hs as [Hd Hr]. unfold fds in *. rewrite (place_spec _ n) by done. cbn. intros [= <- <-]. cbn.
  split; [|by exists p; split; [apply Z.eqb_neq; by destruct (p =? 0)|]].
  intros Hin. destruct (apps_std_qlst s) as [|info l]; [by apply not_elem_of_nil in Hin|].
  inversion_clear Hd as [|? ? _ Hx]. apply elem_of_cons in Hin as [Hin|Hin]; [cbn in Hin; lia|].
  rewrite Forall_forall in Hx. specialize (Hx _ Hin). cbn in Hx. lia.
Qed.

(** C10: The descriptors of the open files. After any requests of the DSP the table holds
    descriptors from [APPS_FD_BASE] on, strictly descending: no two open files share one, and a
    descriptor finds exactly its own file; a file that is opened next gets a descriptor that no
    open file has, at the head of the table and with its stream. The bound on the number of
    requests keeps the descriptors within an [int]. *)
Theorem descriptors_unique rs w m s : APPS_FD_BASE + Z.of_nat (length rs) < 2147483647 -> (run_requests rs (apps_std_init w m)).2 = s ->
  descending (fds s) /\ Forall (fun d => APPS_FD_BASE <= d < APPS_FD_BASE + Z.of_nat (length rs)) (fds s) /\
  (forall i j a b, apps_std_qlst s !! i = Some a -> apps_std_qlst s !! j = Some b -> fd a = fd b -> i = j) /\
  (forall name mode d s', apps_std_fopen name mode s = (Go (AEE_SUCCESS, d), s') ->
    (d ∉ fds s) /\ exists p, p <> 0 /\ find_fd d (apps_std_qlst s') = Some (O, Info d (APPS_STD_STREAM_FILE p))).
Proof.
  intros Hmax <-. assert (Hs : fds_ok (Z.of_nat (length rs)) (run_requests rs (apps_std_init w m)).2).
  { apply (fds_requests rs 0); [done|lia|]. split; [constructor|by apply Forall_nil_2]. }
  destruct Hs as [Hd Hr]. split_and!; [done|done|by intros; eapply descending_unique|].
  intros name mode d s' Ho. edestruct fopen_new as [Hf (p & Hp & Hl)]; [split; [exact Hd|exact Hr]|lia|done|exact Ho|].
  split; [done|]. exists p. split; [done|]. rewrite Hl. cbn. by rewrite Z.eqb_refl.
Qed.

(** ** The streams *)

Definition stream_in (info : apps_std_info) : option Z := match u info with APPS_STD_STREAM_FILE p => Some p | APPS_STD_STREAM_BUF _ _ _ => None end.
(** The streams that the tables hold. *)
Definition open_streams s : list Z := omap stream_in (apps_std_qlst s) ++ (io_stream <$> fdlist s).
(** Apart from the streams of others, the open streams are those of the tables, each in one place. *)
Definition accounted (others : gset Z) s : Prop :=
  misuse s = false /\ Forall (fun info => is_Some (stream_in info)) (apps_std_qlst s) /\
  NoDup (open_streams s) /\ (list_to_set (open_streams s) ## others) /\ streams (world s) = others ∪ list_to_set (open_streams s).
(** The requests that neither replace a stream nor decrypt a file. *)
Definition plain (r : request) : bool := match r with Freopen _ _ _ | Fdopen_decrypt _ => false | _ => true end.
(** Neither opens nor closes a stream. *)
Definition quiet (c : call) : bool := match c with FOPEN _ _ | FREOPEN _ _ _ | FCLOSE _ => false | _ => true end.

(** One stream [p] is open and in no table, or in a table and closed already. *)
Definition lost (others : gset Z) (p : Z) s : Prop :=
  misuse s = false /\ NoDup (p :: open_streams s) /\ ((list_to_set (p :: open_streams s) : gset Z) ## others) /\
  streams (world s) = others ∪ list_to_set (p :: open_streams s).
Definition stale (others : gset Z) (p : Z) s : Prop :=
  misuse s = false /\ (p ∈ open_streams s) /\ NoDup (open_streams s) /\ ((list_to_set (open_streams s) : gset Z) ## others) /\
  streams (world s) = (others ∪ list_to_set (open_streams s)) ∖ {[p]}.
(** The failures that a request made in [s] reports by its code [e]: no memory for an opened
    file, a file that is in the table and could not be closed, a mapped file that could not be
    taken back. *)
Definition fault (r : request) (e : Z) s : bool :=
  match r with
  | Fopen _ _ => e =? ENOMEM
  | Fclose d => negb (e =? AEE_SUCCESS) && match find_fd d (apps_std_qlst s) with Some _ => true | None => false end
  | Fclose_fd _ => negb (e =? AEE_SUCCESS)
  | _ => false
  end.

Definition code_of (o : outcome Z) : Z := match o with Go e | Bail e => e end.
Fixpoint faultless (rs : list request) s : bool :=
  match rs with
  | [] => true
  | r :: rs => let '(o, s') := run_request r s in negb (fault r (code_of o) s) && faultless rs s'
  end.

Section streams.
Context `{HLaws : !LibcLaws W}.

Lemma quiet_streams c w : quiet c = true -> streams (libc c w).2 = streams w.
Proof. intros Hc. pose proof (other_streams c w) as Ho. by destruct c. Qed.

Section frame.
Context (l : list apps_std_info) (fl : list mem_io_to_fd) (S : gset Z).
Definition framed s : Prop := misuse s = false /\ apps_std_qlst s = l /\ fdlist s = fl /\ streams (world s) = S.
Abbreviation keeps m := (preserves framed m).

Lemma fr_on_world {A} (f : W -> A * W) : (forall w, streams (f w).2 = streams w) -> keeps (on_world f).
Proof. intros Hf s (Hm & Hq & Hl & Hs). unfold on_world. specialize (Hf (world s)). destruct (f (world s)). split_and!; try done. exact (eq_trans Hf Hs). Qed.
Lemma fr_use p : p ∈ S -> keeps (use p).
Proof. intros Hp s (Hm & Hq & Hl & Hs). unfold use, modify. split_and!; try done. cbn. rewrite Hm, Hs. by rewrite bool_decide_eq_true_2. Qed.
Lemma fr_io0 c : stream_of c = None -> quiet c = true -> keeps (io c).
Proof. intros Hc Hq. unfold io. rewrite Hc. apply preserves_bind; [keep|]. intros _. apply fr_on_world. intros w. by apply quiet_streams. Qed.
Lemma fr_io1 c p : stream_of c = Some p -> quiet c = true -> p ∈ S -> keeps (io c).
Proof. intros Hc Hq Hp. unfold io. rewrite Hc. apply preserves_bind; [by apply fr_use|]. intros _. apply fr_on_world. intros w. by apply quiet_streams. Qed.
Lemma fr_no_errno : keeps no_errno.
Proof. intros s (Hm & Hq & Hl & Hs). unfold no_errno, modify. split_and!; try done. destruct (data_streams (world s)) as (_ & _ & _ & _ & _ & _ & _ & He). exact (eq_trans (He 0) Hs). Qed.
Lemma fr_ERRNO e : keeps (ERRNO e).
Proof. by intros s Hs. Qed.
Lemma fr_set_dirs f : keeps (modify (fun s => set_dirs (f s) s)).
Proof. by intros s Hs. Qed.
Lemma fr_set_mem f : keeps (modify (fun s => set_mem (f s) s)).
Proof. by intros s Hs. Qed.
Lemma fr_fread p n : keeps (on_world (fread p n)).
Proof. apply fr_on_world. intros w. apply data_streams. Qed.
Lemma fr_fgets p n : keeps (on_world (fgets p n)).
Proof. apply fr_on_world. intros w. apply data_streams. Qed.
Lemma fr_fgetpos p : keeps (on_world (fgetpos p)).
Proof. apply fr_on_world. intros w. apply data_streams. Qed.
Lemma fr_read d n : keeps (on_world (read d n)).
Proof. apply fr_on_world. intros w. apply data_streams. Qed.
Lemma fr_fstat d : keeps (on_world (fstat d)).
Proof. apply fr_on_world. intros w. apply data_streams. Qed.
Lemma fr_stat_name x : keeps (on_world (stat_name x)).
Proof. apply fr_on_world. intros w. apply data_streams. Qed.
Lemma fr_readdir d : keeps (on_world (readdir d)).
Proof. apply fr_on_world. intros w. apply data_streams. Qed.
Hint Resolve eq_refl fr_use fr_io0 fr_io1 fr_no_errno fr_ERRNO fr_set_dirs fr_set_mem fr_fread fr_fgets fr_fgetpos fr_read fr_fstat fr_stat_name fr_readdir : keeps.
Lemma fr_errno e b : keeps (VERIFYC_ERRNO e b).
Proof. unfold VERIFYC_ERRNO. keep. Qed.
Lemma fr_or_errno c : stream_of c = None -> quiet c = true -> keeps (or_errno c).
Proof. unfold or_errno. keep. Qed.
Lemma fr_or_errno1 c p : stream_of c = Some p -> quiet c = true -> p ∈ S -> keeps (or_errno c).
Proof. unfold or_errno. keep. Qed.
Lemma fr_dirinfo h : keeps (apps_std_get_dirinfo h).
Proof. unfold apps_std_get_dirinfo. keep. Qed.
Hint Resolve fr_errno fr_or_errno fr_or_errno1 fr_dirinfo : keeps.
Lemma fr_after_rw p out m : p ∈ S -> preserves (fun sl => framed sl.1) (after_rw p out m).
Proof. intros Hp. unfold after_rw. keep. Qed.
Hint Resolve fr_after_rw : keeps.

Context (Hl : Forall (fun info => exists p, u info = APPS_STD_STREAM_FILE p /\ p ∈ S) l).
Lemma find_fd_lookup d i info (x : list apps_std_info) : find_fd d x = Some (i, info) -> x !! i = Some info /\ fd info = d.
Proof.
  revert i. induction x as [|y x IH]; intros i; cbn; [done|]. destruct (fd y =? d) eqn:E; [intros [= <- <-]; split; [done|lia]|].
  destruct (find_fd d x) as [[j inf]|]; [|done]. cbn. intros [= <- <-]. by apply IH.
Qed.
Lemma fr_get {B} d (k : nat * apps_std_info -> M (apps W) B) :
  (forall i info p, u info = APPS_STD_STREAM_FILE p -> p ∈ S -> keeps (k (i, info))) -> keeps (apps_std_FILE_get d ≫= k).
Proof.
  intros Hk s Hs. unfold apps_std_FILE_get. munfold. destruct (find_fd d (apps_std_qlst s)) as [[i info]|] eqn:E; [|done].
  apply find_fd_lookup in E as [E _]. destruct Hs as (Hm & Hq & Hfl & Hs). rewrite Hq in E. rewrite Forall_lookup in Hl. destruct (Hl _ _ E) as (p & Hu & Hp).
  by apply (Hk _ _ _ Hu Hp).
Qed.
Lemma fr_get_lift {L B} d (k : nat * apps_std_info -> M (apps W * L) B) :
  (forall i info p, u info = APPS_STD_STREAM_FILE p -> p ∈ S -> preserves (fun sl => framed sl.1) (k (i, info))) ->
  preserves (fun sl => framed sl.1) (lift (apps_std_FILE_get d) ≫= k).
Proof.
  intros Hk [s x] Hs. unfold apps_std_FILE_get. munfold. cbn. destruct (find_fd d (apps_std_qlst s)) as [[i info]|] eqn:E; [|done].
  apply find_fd_lookup in E as [E _]. destruct Hs as (Hm & Hq & Hfl & Hs). cbn in *. rewrite Hq in E. rewrite Forall_lookup in Hl. destruct (Hl _ _ E) as (p & Hu & Hp).
  by apply (Hk _ _ _ Hu Hp).
Qed.
Ltac files := keep_with ltac:(first [apply fr_get | apply fr_get_lift]; let Hu := fresh in intros ? ? ? Hu ?; cbv beta iota; unfold stream_only; rewrite ?Hu).
Lemma fr_request r : (match r with Fopen _ _ | Fopen_fd _ _ | Fclose _ | Fclose_fd _ | Freopen _ _ _ | Fdopen_decrypt _ => False | _ => True end) ->
  keeps (run_request r).
Proof.
  destruct r; cbn [run_request]; unfold code; try done; intros _.
  all: try (unfold apps_std_fflush, apps_std_fread, apps_std_fwrite, apps_std_fgets, apps_std_fgetpos, apps_std_fsetpos, apps_std_ftell, apps_std_fseek, apps_std_rewind, apps_std_feof; solve [files]).
  all: try (unfold apps_std_ferror, apps_std_clearerr, apps_std_flen, apps_std_fsync, apps_std_ftrunc, apps_std_opendir, apps_std_closedir, apps_std_readdir; solve [files]).
  all: try (unfold apps_std_fremove, apps_std_frename, apps_std_mkdir, apps_std_rmdir, with_name, apps_std_setenv, apps_std_unsetenv, apps_std_fileExists; solve [files]).
Qed.

(** One call in a frame. *)
Lemma wp_framed {A} (m : M (apps W) A) (Q : A -> apps W -> Prop) R s :
  keeps m -> Total m -> framed s -> (forall a s', framed s' -> Q a s') -> wp m Q R s.
Proof. intros Hm Ht Hs HQ. specialize (Hm s Hs). unfold wp. destruct (Ht s) as (a & s' & E). rewrite E in *. by apply HQ. Qed.
Lemma wp_FOPEN name mode (Q : Z -> apps W -> Prop) R s : framed s ->
  (forall s', framed s' -> Q 0 s') ->
  (forall p s', p <> 0 -> p ∉ S -> misuse s' = false -> apps_std_qlst s' = l -> fdlist s' = fl -> streams (world s') = {[p]} ∪ S -> Q p s') ->
  wp (io (FOPEN name mode)) Q R s.
Proof.
  intros (Hm & Hq & Hfl & Hs) H0 H1. unfold wp, io. munfold. cbn. unfold on_world. destruct (libc (FOPEN name mode) (world s)) as [p w'] eqn:E.
  pose proof (fopen_streams _ _ _ _ _ E) as Hp. destruct (p =? 0) eqn:Hz.
  - apply Z.eqb_eq in Hz as ->. apply H0. split_and!; try done. exact (eq_trans Hp Hs).
  - apply Z.eqb_neq in Hz. destruct Hp as [Hp Hst]. rewrite Hs in *. by apply H1.
Qed.
Lemma wp_alloc p (Q : Z * Z -> apps W -> Prop) R s : framed s ->
  (forall s', framed s' -> Q (ENOMEM, 0) s') ->
  (forall d x s', x ≡ₚ Info d (APPS_STD_STREAM_FILE p) :: l -> misuse s' = false -> apps_std_qlst s' = x -> fdlist s' = fl -> streams (world s') = S ->
    Q (AEE_SUCCESS, d) s') ->
  wp (apps_std_FILE_alloc p) Q R s.
Proof.
  intros Hs H0 HQ. unfold apps_std_FILE_alloc. apply wp_bind. pose proof (fr_io0 CALLOC eq_refl eq_refl s Hs) as Hc. unfold wp.
  unfold io, on_world in *. munfold. cbn in *. destruct (libc CALLOC (world s)) as [a w']. cbn [fst snd] in *.
  destruct (a =? 0); [by apply H0|]. destruct Hc as (Hm & Hq & Hfl & Hst). destruct (place _) as [i d]. eapply (HQ d); [|exact Hm|reflexivity|exact Hfl|exact Hst].
  cbn in Hq. cbn. rewrite Hq. rewrite <- Permutation_middle, take_drop. done.
Qed.
End frame.

(** *** Opening and closing *)
Context (others : gset Z).
Lemma accounted_open p ts s : accounted others s -> p ∉ streams (world s) -> open_streams s ≡ₚ ts ->
  NoDup (p :: ts) /\ (list_to_set (p :: ts) ## others) /\ {[p]} ∪ streams (world s) = others ∪ list_to_set (p :: ts).
Proof.
  intros (_ & _ & Hnd & Hdis & Hs) Hp <-. rewrite Hs in *. apply not_elem_of_union in Hp as [Ho Hp]. rewrite elem_of_list_to_set in Hp.
  split_and!; [by constructor|set_solver|]. rewrite list_to_set_cons. set_solver.
Qed.
Lemma accounted_close p ts s : accounted others s -> open_streams s ≡ₚ p :: ts ->
  NoDup ts /\ (list_to_set ts ## others) /\ p ∈ streams (world s) /\ streams (world s) ∖ {[p]} = others ∪ list_to_set ts.
Proof.
  intros (_ & _ & Hnd & Hdis & Hs) Hp. rewrite Hp in *. apply NoDup_cons in Hnd as [Hn Hnd]. rewrite Hs. cbn [list_to_set] in *.
  split_and!; [done|set_solver|set_solver|].
  assert (p ∉ (list_to_set ts : gset Z)) by (by rewrite elem_of_list_to_set). assert (p ∉ others) by set_solver. set_solver.
Qed.
Lemma take_io_perm d x t y : take_io d x = Some (t, y) -> x ≡ₚ t :: y /\ io_fd t = d.
Proof.
  revert y. induction x as [|a x IH]; intros y; cbn; [done|]. destruct (io_fd a =? d) eqn:E; [intros [= <- <-]; split; [done|lia]|].
  destruct (take_io d x) as [[t' y']|]; [|done]. cbn. intros [= <- <-]. destruct (IH y' eq_refl) as [Hp Hd]. split; [|done].
  rewrite Hp. apply Permutation_swap.
Qed.
Lemma wp_FCLOSE p (Q : Z -> apps W -> Prop) R s : misuse s = false -> p ∈ streams (world s) ->
  (forall r s', misuse s' = false -> apps_std_qlst s' = apps_std_qlst s -> fdlist s' = fdlist s -> streams (world s') = streams (world s) ∖ {[p]} -> Q r s') ->
  wp (io (FCLOSE p)) Q R s.
Proof.
  intros Hm Hp HQ. unfold wp, io. munfold. cbn. unfold on_world, use, modify. cbn. pose proof (fclose_streams p (world s)) as Hs.
  destruct (libc (FCLOSE p) (world s)) as [r w']. cbn in *. apply HQ; [|done|done|done]. cbn. rewrite Hm. by rewrite bool_decide_eq_true_2.
Qed.

#[local] Instance io_total c : Total (io c).
Proof. intros s. unfold io. munfold. unfold on_world, use, modify. destruct (stream_of c); munfold; destruct (libc c _); by eexists _, _. Qed.
#[local] Instance on_world_total {A} (f : W -> A * W) : Total (on_world f).
Proof. intros s. unfold on_world. destruct (f _). by eexists _, _. Qed.
#[local] Instance no_errno_total : Total no_errno.
Proof. intros s. by eexists _, _. Qed.
#[local] Instance ERRNO_total e : Total (ERRNO e).
Proof. intros s. by eexists _, _. Qed.

Lemma framed_self s : misuse s = false -> framed (apps_std_qlst s) (fdlist s) (streams (world s)) s.
Proof. done. Qed.
(** A request that leaves the tables and the streams alone. *)
Lemma framed_accounted s s' : accounted others s -> framed (apps_std_qlst s) (fdlist s) (streams (world s)) s' -> accounted others s'.
Proof. unfold accounted, open_streams. intros (Hm & Ht & Hnd & Hdis & Hs) (Hm' & -> & -> & ->). done. Qed.
Lemma accounted_streams s : accounted others s ->
  Forall (fun info => exists p, u info = APPS_STD_STREAM_FILE p /\ p ∈ streams (world s)) (apps_std_qlst s).
Proof.
  intros (_ & Ht & _ & _ & Hs). rewrite Hs. apply Forall_forall. intros info Hin. rewrite Forall_forall in Ht. destruct (Ht _ Hin) as [p Hp]. exists p.
  split; [by unfold stream_in in Hp; destruct (u info); simplify_eq|]. apply elem_of_union_r, elem_of_list_to_set, elem_of_app. left.
  by apply list_elem_of_omap; exists info.
Qed.
Lemma wp_ERRNO l fl S n (Q : Z -> apps W -> Prop) R s : framed l fl S s -> (forall e, e <> 0 -> Q e s) -> wp (ERRNO n) Q R s.
Proof.
  intros Hf HQ. unfold ERRNO. apply wp_gets. apply HQ. cbn. destruct (errno (world s) =? 0) eqn:E; cbn; [|by apply Z.eqb_neq in E].
  destruct (n =? 0) eqn:En; cbn; [done|by apply Z.eqb_neq in En].
Qed.
Lemma accounted_fopen name mode s : accounted others s ->
  wp (apps_std_fopen name mode) (fun r s' => accounted others s' \/ r.1 = ENOMEM /\ exists p, lost others p s') (fun _ _ => False) s.
Proof.
  intros Hs. unfold apps_std_fopen. wp_step. pose proof (framed_self s ltac:(apply Hs)) as Hf.
  eapply wp_framed; [apply fr_no_errno|apply _|exact Hf|]. intros _ s1 Hf1. destruct name as [name|]; [|apply wp_ret; left; by eapply framed_accounted].
  wp_step. eapply wp_FOPEN; [exact Hf1| |].
  - intros s2 Hf2. cbn [negb Z.eqb]. wp_step. eapply wp_framed; [apply fr_ERRNO|apply _|exact Hf2|]. intros e s3 Hf3. apply wp_ret. left. by eapply framed_accounted.
  - intros p s2 Hp Hpn Hm Hq Hl Hst. rewrite (proj2 (Z.eqb_neq p 0)) by done. cbn [negb].
    destruct (accounted_open p _ s Hs Hpn (reflexivity _)) as (Hnd & Hdis & Hall).
    eapply wp_alloc; [exact (conj Hm (conj Hq (conj Hl Hst)))| |].
    + intros s3 (Hm3 & Hq3 & Hl3 & Hs3). right. split; [done|]. exists p. unfold lost, open_streams. rewrite Hm3, Hq3, Hl3, Hs3. by split_and!.
    + intros d x s3 Hx Hm3 Hq3 Hl3 Hs3. destruct Hs as (_ & Ht & _). left.
      assert (Hos : open_streams s3 ≡ₚ p :: open_streams s) by (unfold open_streams; by rewrite Hq3, Hl3, Hx).
      unfold accounted. rewrite Hos, Hq3, Hx, Hs3. split_and!; [done| |done|done|done]. constructor; [by eexists|done].
Qed.
Lemma accounted_fclose sin s : accounted others s ->
  wp (apps_std_fclose sin) (fun e s' => accounted others s' \/ fault (Fclose sin) e s = true /\ exists p, stale others p s') (fun _ _ => False) s.
Proof.
  intros Hs. unfold apps_std_fclose. repeat wp_step. pose proof (framed_self s ltac:(apply Hs)) as Hf.
  eapply wp_framed; [apply fr_no_errno|apply _|exact Hf|]. intros _ s1 Hf1. pose proof (framed_accounted _ _ Hs Hf1) as Hs1.
  unfold apps_std_FILE_get. repeat wp_step. destruct (find_fd sin (apps_std_qlst s1)) as [[i info]|] eqn:Ef; [|by left]. apply wp_ret.
  apply find_fd_lookup in Ef as Ei. destruct Ei as [E _]. pose proof (accounted_streams _ Hs1) as Hl. rewrite Forall_lookup in Hl. destruct (Hl _ _ E) as (p & Hu & Hp). rewrite Hu.
  repeat wp_step. apply wp_FCLOSE; [apply Hs1|done|]. intros r s2 Hm Hq Hfl Hst.
  pose proof (delete_Permutation _ _ _ E) as Hperm.
  assert (Hos : open_streams s1 ≡ₚ p :: open_streams (set_files (delete i (apps_std_qlst s2)) s2)).
  { unfold open_streams. cbn. rewrite Hq, Hfl. rewrite Hperm at 1. cbn. unfold stream_in at 1. by rewrite Hu. }
  unfold VERIFYC_ERRNO. wp_step.
  - wp_step. unfold apps_std_FILE_free. apply wp_modify. left.
    destruct (accounted_close _ _ _ Hs1 Hos) as (Hnd & Hdis & _ & Hall). unfold accounted. cbn. split_and!; [by rewrite Hm| |done|done|by rewrite Hst].
    rewrite Hq. apply Forall_delete, Hs1.
  - wp_step. eapply (wp_ERRNO (apps_std_qlst s2) (fdlist s2) (streams (world s2))); [done|]. intros e He. wp_step. right. split.
    + cbn. destruct Hf1 as (_ & <- & _). rewrite Ef. by rewrite (proj2 (Z.eqb_neq e _)).
    + exists p. assert (Ho2 : open_streams s2 = open_streams s1) by (unfold open_streams; by rewrite Hq, Hfl). destruct Hs1 as (_ & _ & Hnd & Hdis & Hall).
      unfold stale. rewrite Ho2, Hst, Hall. split_and!; [done| |done|done|done]. rewrite Hos. by left.
Qed.
Lemma wp_munmap domain d addr len l fl S (Q : Z -> apps W -> Prop) R s : framed l fl S s -> (forall r s', framed l fl S s' -> Q r s') ->
  wp (io (FASTRPC_MUNMAP domain d addr len)) Q R s.
Proof.
  intros Hf HQ. pose proof (fr_io0 l fl S (FASTRPC_MUNMAP domain d addr len) eq_refl eq_refl s Hf) as Hk.
  unfold wp, io, on_world in *. munfold. cbn in *. destruct (libc _ (world s)) as [r w']. cbn in *. by apply HQ.
Qed.
Ltac in_frame rule Hf := eapply wp_framed; [rule|apply _|exact Hf|]; clear Hf; intros ? ? Hf.
Lemma accounted_fclose_fd d s : accounted others s ->
  wp (apps_std_fclose_fd d) (fun e s' => accounted others s' \/ e <> 0 /\ exists p, lost others p s') (fun _ _ => False) s.
Proof.
  intros Hs. unfold apps_std_fclose_fd. repeat wp_step. pose proof (framed_self s ltac:(apply Hs)) as Hf.
  eapply wp_framed; [apply fr_no_errno|apply _|exact Hf|]. intros _ s1 Hf1. pose proof (framed_accounted _ _ Hs Hf1) as Hs1.
  repeat wp_step. destruct (take_io d (fdlist s1)) as [[t y]|] eqn:E; [|by left]. apply take_io_perm in E as [E _].
  assert (Hos : open_streams s1 ≡ₚ io_stream t :: open_streams (set_fdlist y s1)).
  { unfold open_streams. cbn. rewrite E. cbn. by rewrite <- Permutation_middle. }
  destruct (accounted_close _ _ _ Hs1 Hos) as (Hnd & Hdis & Hin & Hall). pose proof Hs1 as (Hm1 & Ht1 & Hnd1 & Hdis1 & Hall1).
  assert (Hf2 : framed (apps_std_qlst s1) y (streams (world s1)) (set_fdlist y s1)) by done.
  repeat wp_step. eapply wp_munmap; [exact Hf2|]. intros r s2 Hf3. split.
  2:{ intros Hr. cbn. right. split; [done|]. exists (io_stream t). destruct Hf3 as (Hm & Hq & Hfl & Hst).
      assert (Ho2 : open_streams s2 = open_streams (set_fdlist y s1)) by (unfold open_streams; by rewrite Hq, Hfl).
      unfold lost. rewrite Ho2, Hst, Hall1. rewrite (list_to_set_perm_L _ _ Hos) in *. split_and!; [done|by rewrite <- Hos|done|done]. }
  intros _. wp_step.
  assert (Hc : wp (if negb (io_buf t =? 0) then io (RPCMEM_FREE (io_buf t)) else mret 0)
    (fun _ s3 => framed (apps_std_qlst s1) y (streams (world s1)) s3) (fun _ _ => False) s2).
  { apply wp_if; intros _; [|by apply wp_ret]. by in_frame ltac:(apply (fr_io0 _ _ _ (RPCMEM_FREE (io_buf t)) eq_refl eq_refl)) Hf3. }
  eapply wp_mono; [exact Hc| |done]. intros _ s3 (Hm & Hq & Hfl & Hst). wp_step. 
  apply wp_FCLOSE; [done|by rewrite Hst|]. intros r4 s4 Hm4 Hq4 Hl4 Hs4.
  assert (Hs5 : accounted others s4). { unfold accounted. unfold open_streams in *. rewrite Hq4, Hl4, Hs4, Hq, Hfl, Hst. by split_and!. }
  unfold VERIFYC_ERRNO. wp_step; [wp_step; by left|]. wp_step. eapply wp_ERRNO; [by apply framed_self|]. intros e He. wp_step. by left.
Qed.
Section fopen_fd.
Context (s0 : apps W) (Hs0 : accounted others s0).
Let l : list apps_std_info := apps_std_qlst s0.
Let fl : list mem_io_to_fd := fdlist s0.
Let S : gset Z := streams (world s0).
(** What the body of [apps_std_fopen_fd] leaves: the stream is in the list, or it was not
    opened, or it is still to be closed. *)
Definition fd_left (n : Z) (x : opened_fd) s : Prop :=
  (n = AEE_SUCCESS /\ accounted others s) \/ (n <> AEE_SUCCESS /\ of_stream x = 0 /\ framed l fl S s) \/
  (n <> AEE_SUCCESS /\ of_stream x <> 0 /\ (of_stream x ∉ S) /\ framed l fl ({[of_stream x]} ∪ S) s).
Lemma fd_free (x : opened_fd) s : framed l fl S s ->
  wp (if negb (of_source x =? 0) then io (RPCMEM_FREE (of_source x)) else mret 0) (fun _ => accounted others) (fun _ => accounted others) s.
Proof.
  intros Ha. wp_step; [|by apply wp_ret, (framed_accounted s0)].
  in_frame ltac:(apply (fr_io0 _ _ _ (RPCMEM_FREE (of_source x)) eq_refl eq_refl)) Ha. by apply (framed_accounted s0).
Qed.
Lemma fd_cleanup n x s : fd_left n x s ->
  wp (_ ← (if negb (n =? AEE_SUCCESS) then
       _ ← (if negb (of_stream x =? 0) then io (FCLOSE (of_stream x)) else mret 0);
       if negb (of_source x =? 0) then io (RPCMEM_FREE (of_source x)) else mret 0
     else mret 0); mret (n, (of_fd x, of_len x))) (fun _ => accounted others) (fun _ => accounted others) s.
Proof.
  intros [[-> Ha]|[(Hn & Hz & Ha)|(Hn & Hz & Hp & Ha)]]; [done| |]; rewrite (proj2 (Z.eqb_neq n _)) by done; cbn [negb].
  - rewrite Hz. cbn [negb Z.eqb]. wp_step. wp_step. apply wp_ret. by apply fd_free.
  - rewrite (proj2 (Z.eqb_neq (of_stream x) _)) by done. cbn [negb]. wp_step. wp_step. destruct Ha as (Hm & Hq & Hfl & Hst).
    apply wp_FCLOSE; [done|rewrite Hst; set_solver|]. intros r2 s2 Hm2 Hq2 Hl2 Hs2.
    assert (Ha : framed l fl S s2). { split_and!; [done|congruence|congruence|]. rewrite Hs2, Hst. set_solver. }
    by apply fd_free.
Qed.
Ltac fd_fails Hf := right; right; split_and!; [done|done|done|exact Hf].
Lemma fd_body name mode :
  wp (fopen_fd_body (current_domain (world s0)) name mode) (fun _ sl => fd_left AEE_SUCCESS sl.2 sl.1) (fun e sl => fd_left e sl.2 sl.1) (s0, OpenedFd 0 0 0 0).
Proof.
  pose proof (framed_self s0 ltac:(apply Hs0)) as Hf. fold l fl S in Hf. unfold fopen_fd_body. repeat wp_step. in_frame ltac:(apply fr_no_errno) Hf.
  destruct name as [name|]; [|by apply wp_bail; right; left]. repeat wp_step. eapply wp_FOPEN; [exact Hf| |]; clear Hf.
  { intros s Hf. do 3 wp_step. cbn [Z.eqb]. repeat wp_step. eapply wp_ERRNO; [exact Hf|]. intros e He. apply wp_bail. by right; left. }
  intros p s Hp Hpn Hm Hq Hl Hst. assert (Hf : framed l fl ({[p]} ∪ S) s) by done. clear Hm Hq Hl Hst.
  do 3 wp_step. rewrite (proj2 (Z.eqb_neq p 0)) by done. repeat wp_step.
  assert (Hin : p ∈ {[p]} ∪ S) by set_solver.
  in_frame ltac:(apply (fr_io1 _ _ _ (FILENO p) p eq_refl eq_refl Hin)) Hf. unfold VERIFYC_ERRNO. do 2 wp_step.
  wp_step; [|repeat wp_step; eapply wp_ERRNO; [exact Hf|]; intros e He; apply wp_bail; fd_fails Hf]. repeat wp_step.
  in_frame ltac:(apply fr_fstat) Hf. match goal with |- wp (match ?x with _ => _ end) _ _ _ => destruct x as [sb|] end.
  2:{ repeat wp_step. eapply wp_ERRNO; [exact Hf|]; intros e He; apply wp_bail; fd_fails Hf. }
  repeat wp_step. in_frame ltac:(apply (fr_io0 _ _ _ (RPCMEM_ALLOC 0 RPCMEM_HEAP_DEFAULT (st_size sb)) eq_refl eq_refl)) Hf.
  repeat wp_step; [|fd_fails Hf]. in_frame ltac:(apply fr_read) Hf.
  match goal with |- wp (match ?x with _ => _ end) _ _ _ => destruct x as [bs'|] end; [|apply wp_bail; fd_fails Hf].
  repeat wp_step. match type of Hf with framed _ _ _ ?s => match goal with |- wp _ _ _ (set_mem ?m s) => apply (fr_set_mem _ _ _ (fun _ => m)) in Hf; cbn in Hf end end.
  in_frame ltac:(apply (fr_io0 _ _ _ (RPCMEM_TO_FD _) eq_refl eq_refl)) Hf. repeat wp_step.
  in_frame ltac:(apply (fr_io0 _ _ _ (FASTRPC_MMAP _ _ _ _) eq_refl eq_refl)) Hf. split; [intros _|intros Hn; fd_fails Hf].
  repeat wp_step. in_frame ltac:(apply (fr_io0 _ _ _ CALLOC eq_refl eq_refl)) Hf. repeat wp_step; [|fd_fails Hf].
  left. split; [done|]. cbn [fst snd].
  destruct Hf as (Hm & Hq & Hfl & Hst). destruct (accounted_open p _ s0 Hs0 Hpn (reflexivity _)) as (Hnd & Hdis & Hall).
  match goal with |- accounted _ ?s => assert (Hos : open_streams s ≡ₚ p :: open_streams s0) end.
  { unfold open_streams. cbn. rewrite Hq, Hfl, fmap_app. cbn. by rewrite Permutation_app_comm, (Permutation_app_comm _ [p]), <- app_assoc, (Permutation_app_comm (io_stream <$> fl)). }
  unfold accounted. rewrite Hos. cbn. rewrite Hq, Hst. split_and!; [done|apply Hs0|done|done|done].
Qed.
End fopen_fd.

Lemma accounted_fopen_fd name mode s : accounted others s -> wp (apps_std_fopen_fd name mode) (fun _ => accounted others) (fun _ => accounted others) s.
Proof.
  intros Hs. unfold apps_std_fopen_fd. wp_step. wp_step. wp_step. wp_step.
  eapply wp_mono; [apply (fd_body s Hs name mode)| |]; intros x [s' y] Hl; cbv beta iota; cbn [fst snd] in *; eapply fd_cleanup; eassumption.
Qed.
Lemma accounted_request r s : plain r = true -> accounted others s ->
  let '(o, s') := run_request r s in
  accounted others s' \/ fault r (code_of o) s = true /\ exists p, lost others p s' \/ stale others p s'.
Proof.
  intros Hr Hs.
  assert (Hkeep : (match r with Fopen _ _ | Fopen_fd _ _ | Fclose _ | Fclose_fd _ | Freopen _ _ _ | Fdopen_decrypt _ => False | _ => True end) ->
    accounted others (run_request r s).2).
  { intros Hk. eapply framed_accounted; [exact Hs|]. apply fr_request; [by apply accounted_streams|done|apply framed_self, Hs]. }
  destruct r; try done; try (destruct (run_request _ _) as [o s']; left; by apply Hkeep); clear Hkeep; cbn [run_request]; unfold code, mbind, M_bind.
  - pose proof (accounted_fopen name mode s Hs) as H. unfold wp in H. destruct (apps_std_fopen _ _ _) as [[r|] s']; [|done].
    destruct H as [H|[H Hp]]; [by left|right]. cbn. rewrite H. split; [done|]. destruct Hp as [p Hp]. exists p. by left.
  - pose proof (accounted_fopen_fd name mode s Hs) as H. unfold wp in H. destruct (apps_std_fopen_fd _ _ _) as [[r|] s']; by left.
  - pose proof (accounted_fclose sin s Hs) as H. unfold wp in H. destruct (apps_std_fclose _ _) as [[e|] s']; [|done].
    destruct H as [H|[H Hp]]; [by left|right]. split; [done|]. destruct Hp as [p Hp]. exists p. by right.
  - pose proof (accounted_fclose_fd d s Hs) as H. unfold wp in H. destruct (apps_std_fclose_fd _ _) as [[e|] s']; [|done].
    destruct H as [H|[H Hp]]; [by left|right]. cbn. rewrite (proj2 (Z.eqb_neq e _)) by done. split; [done|]. destruct Hp as [p Hp]. exists p. by left.
Qed.
Lemma accounted_requests rs s : Forall (fun r => plain r = true) rs -> faultless rs s = true -> accounted others s -> accounted others (run_requests rs s).2.
Proof.
  intros Hrs. revert s. induction Hrs as [|r rs Hr _ IH]; intros s Hf Hs; [done|]. cbn [run_requests faultless foldr] in *. unfold mbind, M_bind.
  pose proof (accounted_request r s Hr Hs) as H. destruct (run_request r s) as [o s']. apply andb_true_iff in Hf as [Hf1 Hf2].
  destruct H as [H|[H _]]; [|by rewrite H in Hf1]. destruct o; [|done]. by apply IH.
Qed.
End streams.

(** C9: The streams of the DSP's files, whatever the library answers. As long as no request
    reported one of the failures of [fault] (no memory for a file just opened, a file that could
    not be closed, a mapped file that could not be taken back), after any requests of the DSP
    that neither reopen nor decrypt a file: no call was given a stream that was not open; every
    stream that is open, apart from those that were open before, is in the table of files or in
    the list of files in memory, and in one place of these only. A request that does report
    such a failure is off by one stream at most, which is lost or stays in its table. *)
Theorem streams_accounted `{HLaws : !LibcLaws W} rs w m s :
  Forall (fun r => plain r = true) rs -> faultless rs (apps_std_init w m) = true -> (run_requests rs (apps_std_init w m)).2 = s ->
  (misuse s = false /\ NoDup (open_streams s) /\ (list_to_set (open_streams s) ## streams w) /\
   streams (world s) = streams w ∪ list_to_set (open_streams s)) /\
  forall r, plain r = true -> let '(o, s') := run_request r s in
    misuse s' = false /\ NoDup (open_streams s') /\
    exists p, streams (world s') ∖ {[p]} = (streams w ∪ list_to_set (open_streams s')) ∖ {[p]} /\
      (fault r (code_of o) s = false -> streams (world s') = streams w ∪ list_to_set (open_streams s')).
Proof.
  intros Hrs Hf <-. assert (Hi : accounted (streams w) (apps_std_init w m)).
  { split_and!; [done|by apply Forall_nil_2|constructor|cbn; set_solver|cbn; set_solver]. }
  apply (accounted_requests _ rs) in Hi; [|done|done]. set (s := (run_requests rs (apps_std_init w m)).2) in *. clearbody s.
  split; [by destruct Hi as (Hm & _ & Hnd & Hdis & Hst)|]. intros r Hr. pose proof (accounted_request _ r s Hr Hi) as H.
  destruct (run_request r s) as [o s']. destruct H as [(Hm & _ & Hnd & _ & Hst)|[-> (p & [(Hm & Hnd & _ & Hst)|(Hm & _ & Hnd & _ & Hst)])]].
  - split_and!; [done|done|]. exists 0. by rewrite Hst.
  - split_and!; [done|by inversion Hnd|]. exists p. split; [|done]. rewrite Hst. cbn. set_solver.
  - split_and!; [done|done|]. exists p. split; [|done]. rewrite Hst. set_solver.
Qed.

(** ** Reading a decrypted file *)




End ops.

(** * The code on concrete requests *)
Module AppsFileEx.
(** A library with files of eight bytes; three of its results are chosen. *)
Record lib := Lib { l_open : gset Z; l_next : Z; l_errno : Z }.
Definition set_open (f : gset Z -> gset Z) (w : lib) : lib := Lib (f (l_open w)) (l_next w) (l_errno w).
Definition bytes : list Z := [10; 11; 12; 13; 14; 15; 16; 17].
Definition lib_call (calloc_r fclose_r munmap_r : Z) (c : call) (w : lib) : Z * lib :=
  match c with
  | CALLOC => (calloc_r, w)
  | FOPEN _ _ => let p := l_next w in if (p =? 0) || bool_decide (p ∈ l_open w) then (0, w) else (p, Lib ({[p]} ∪ l_open w) (p + 1) (l_errno w))
  | FREOPEN _ _ p => (p, w)
  | FCLOSE p => (fclose_r, set_open (fun o => o ∖ {[p]}) w)
  | FASTRPC_MUNMAP _ _ _ _ => (munmap_r, w)
  | FILENO _ => (5, w) | RPCMEM_ALLOC _ _ _ => (4096, w) | RPCMEM_TO_FD _ => (9, w)
  | DLOPEN _ => (1, w) | DLSYM _ _ => (1, w) | OPENDIR _ => (70, w)
  | _ => (0, w)
  end.
Definition lib_with (calloc_r fclose_r munmap_r : Z) : Libc lib := {|
  errno := l_errno; set_errno e w := Lib (l_open w) (l_next w) e;
  libc := lib_call calloc_r fclose_r munmap_r;
  fread _ n w := (take (Z.to_nat n) bytes, w); fgets _ _ w := (Some bytes, w); fgetpos _ w := (Some [], w);
  read _ n w := (Some (take (Z.to_nat n) bytes), w);
  fstat _ w := (Some (Stat 0 0 0 0 0 8 0 0 0 0 0 0), w); stat_name _ w := (None, w);
  getenv _ _ := None; readdir _ w := (None, w);
  decrypted _ _ bs := (fun b => Z.lxor b 255) <$> bs; current_domain _ := 3; streams := l_open
|}.
#[local] Instance lib_ok : Libc lib := lib_with 64 0 0.
#[local] Instance lib_laws : LibcLaws lib.
Proof.
  split.
  - intros name mode w p w'. cbn. destruct (l_next w =? 0) eqn:E; cbn; [by intros [= <- <-]|].
    case_bool_decide as Ho; intros [= <- <-]; [done|]. rewrite E. by split.
  - done.
  - intros [] w; done.
  - done.
Qed.
Definition w0 : lib := Lib {[1; 2]} 50 0.
Definition f : option (list Z) := Some (str "f").
Definition after (rs : list request) : apps lib := (run_requests rs (apps_std_init w0 ∅)).2.

(** Two files are opened, one is closed, and another is opened. *)
Definition opens : list request := [Fopen f (str "r"); Fopen f (str "r"); Fclose 100; Fopen f (str "r")].
Lemma descriptors_unique_witness : fds (after opens) = [102; 101] /\ descending (fds (after opens)).
Proof. split; [vm_compute; reflexivity|]. apply (descriptors_unique opens w0 ∅); [vm_compute|]; reflexivity. Defined.
Definition mixed : list request := opens ++ [Fopen_fd f (str "r"); Fread 101 4; Fclose_fd 9; Fclose 102].
Lemma streams_accounted_witness : open_streams (after mixed) = [51] /\ streams (world (after mixed)) = streams w0 ∪ list_to_set (open_streams (after mixed)).
Proof.
  split; [vm_compute; reflexivity|]. apply (streams_accounted mixed w0 ∅); [|vm_compute; reflexivity|reflexivity]. repeat constructor.
Defined.

(** A decrypted file of eight bytes. *)
Definition decrypted_file : apps lib := after [Fopen f (str "r"); Fdopen_decrypt 100].

(** ** What the code does with the cases it does not expect *)

(** The place of a new file is always the front: a descriptor that was given back is not used again. *)
Lemma no_descriptor_again : fds (after [Fopen f (str "r"); Fopen f (str "r"); Fclose 100; Fopen f (str "r")]) = [102; 101].
Proof. vm_compute. reflexivity. Qed.
(** A file that was reopened is in the table twice, with one stream: closing both uses a stream that is closed. *)
Lemma reopened_twice : open_streams (after [Fopen f (str "r"); Freopen 100 f (str "w")]) = [50; 50] /\
  misuse (after [Fopen f (str "r"); Freopen 100 f (str "w"); Fclose 101; Fclose 100]) = true.
Proof. split; vm_compute; reflexivity. Qed.
(** Moving to the end of a decrypted file adds its length to the position, and a negative
    position is taken: the next read leaves the buffer. *)
Lemma seek_outside :
  misuse (run_requests [Fseek 100 0 APPS_STD_SEEK_END; Fseek 100 0 APPS_STD_SEEK_END; Fread 100 4] decrypted_file).2 = true /\
  misuse (run_requests [Fseek 100 (-4) APPS_STD_SEEK_SET; Fread 100 4] decrypted_file).2 = true.
Proof. split; vm_compute; reflexivity. Qed.
(** The buffer of a decrypted file is used as a stream. *)
Lemma truncate_decrypted : misuse (run_requests [Ftrunc 100 0] decrypted_file).2 = true.
Proof. vm_compute. reflexivity. Qed.
Section failures.
(** A stream whose closing fails stays in the table. *)
Lemma close_fails : misuse ((run_requests (HL := lib_with 64 (-1) 0) [Fopen f (str "r"); Fclose 100; Fclose 100] (apps_std_init w0 ∅)).2) = true.
Proof. vm_compute. reflexivity. Qed.
(** Without memory for the node, the stream that was opened is lost; so is the stream of a file
    in memory whose mapping is not taken back. *)
Lemma stream_lost :
  (let s := (run_requests (HL := lib_with 0 0 0) [Fopen f (str "r")] (apps_std_init w0 ∅)).2 in
   open_streams s = [] /\ l_open (world s) = {[1; 2; 50]}) /\
  (let s := (run_requests (HL := lib_with 64 0 (-1)) [Fopen_fd f (str "r"); Fclose_fd 9] (apps_std_init w0 ∅)).2 in
   open_streams s = [] /\ l_open (world s) = {[1; 2; 50]}).
Proof. vm_compute. done. Qed.
End failures.
End AppsFileEx.
