(* ===== verification/AppsMem.v ===== *)
(** The memory that the DSP asks for, [src/apps_mem_imp.c]: the list of its buffers for each
    session, their allocation ([Rpcmem]) and their mapping on the DSP ([Mem]).

    The table of sessions is a map; an entry that was found under the mutex is used after it. *)
From S2P Require Import Prelude Errors Domain Ioctl Session SessionIface Mem Rpcmem DmaHandles.
#[local] Open Scope Z_scope.

Definition ADSP_MMAP_HEAP_ADDR : Z := 4.
Definition ADSP_MMAP_ADD_PAGES_LLC : Z := 12288.
Definition FASTRPC_ALLOC_HLOS_FD : Z := 65536.
Definition FASTRPC_MAP_FD_DELAYED : Z := 3.
Definition AUDIO_STATICPD : Z := 2.
Definition AEE_EBADFD : Z := 79.

(** ** What the mapping functions leave alone *)
Section leave.
Context {K : Type} `{HO : SessionOps K}.
Variable sys_ioctl : Z -> ioctl_req -> K -> io * K.
(** A property of the session state that references, requests and the initialisation keep. *)
Class Stable (ready : K -> Prop) : Prop := {
  ready_up k : ready k -> up k;
  ready_get d k : ready k -> ready (session_get d k).2;
  ready_put d k : ready k -> ready (session_put d k).2;
  ready_ioctl dv r k : ready k -> ready (sys_ioctl dv r k).2
}.
Context (ready : K -> Prop) `{HR : !Stable ready} (l : list mem_to_fd).
(** The registered buffers are [l]. *)
Definition leaves (m : mem K) : Prop := ready (mses m) /\ fdlist m = l.
Abbreviation kept m := (preserves leaves m).
Abbreviation kept' m := (preserves (fun sl => leaves sl.1) m).

Lemma lv_on_ses {A} (m : M K A) : preserves ready m -> kept (on_ses m).
Proof. intros Hm s [Hr Hl]. unfold on_ses. specialize (Hm _ Hr). by destruct (m _). Qed.
Lemma lv_on_ses' {L A} (m : M K A) : preserves ready m -> preserves (fun sl : mem K * L => leaves sl.1) (on_ses m).
Proof. intros Hm [s x] [Hr Hl]. unfold on_ses. specialize (Hm _ Hr). cbn in *. by destruct (m _). Qed.
Lemma lv_init : kept init.
Proof. apply lv_on_ses. intros k Hk. by rewrite (ready_up k Hk). Qed.
Lemma lv_bracket {A B} d (fail : Z -> M (mem K) B) (body : M (mem K) A) post :
  (forall e, kept (fail e)) -> kept body -> (forall a, kept (post a)) -> kept (bracket d fail body post).
Proof.
  intros Hf Hb Hp. unfold bracket. apply preserves_bind; [apply lv_on_ses; intros k; apply ready_get|]. intros e.
  apply preserves_if; [done|]. apply preserves_bind; [done|]. intros a. apply preserves_bind; [apply lv_on_ses; intros k; apply ready_put|done].
Qed.
Lemma lv_bracket' {L A B} d (fail : Z -> M (mem K * L) B) (body : M (mem K * L) A) post :
  (forall e, kept' (fail e)) -> kept' body -> (forall a, kept' (post a)) -> kept' (bracket d fail body post).
Proof.
  intros Hf Hb Hp. unfold bracket. apply preserves_bind; [apply lv_on_ses'; intros k; apply ready_get|]. intros e.
  apply preserves_if; [done|]. apply preserves_bind; [done|]. intros a. apply preserves_bind; [apply lv_on_ses'; intros k; apply ready_put|done].
Qed.
Lemma lv_with_ref d body : kept body -> kept (with_ref d body).
Proof. intros Hb. apply lv_bracket; [keep|by apply preserves_to_bail|keep]. Qed.
Lemma lv_with_ref' {L} d (body : M (mem K * L) unit) : kept' body -> kept' (with_ref d body).
Proof. intros Hb. apply lv_bracket'; [keep|by apply preserves_to_bail|keep]. Qed.
Lemma lv_ioctl c : (forall k, ready k -> ready (c k).2) -> kept (do_ioctl c).
Proof. intros Hc s [Hr Hl]. unfold do_ioctl. specialize (Hc _ Hr). destruct (c (mses s)) as [r k]. cbn. by destruct (io_ret r =? 0). Qed.
Lemma lv_mmap dv req flags attr fd offset len va : kept (do_mmap sys_ioctl dv req flags attr fd offset len va).
Proof. apply lv_ioctl. intros k Hk. unfold ioctl_mmap, no_ioctl. repeat case_match; try done; by apply ready_ioctl. Qed.
Lemma lv_munmap dv req attr buf fd len va : kept (do_munmap sys_ioctl dv req attr buf fd len va).
Proof. apply lv_ioctl. intros k Hk. unfold ioctl_munmap, no_ioctl. repeat case_match; try done; by apply ready_ioctl. Qed.
Lemma lv_errno e : kept (modify (set_errno e)).
Proof. by intros s Hs. Qed.
Lemma lv_smaps d f : kept (modify (set_smaps d f)).
Proof. by intros s Hs. Qed.
Lemma lv_rmaps d f : kept (modify (set_rmaps d f)).
Proof. by intros s Hs. Qed.
Lemma lv_rmaps_of d f : kept (modify (fun s => set_rmaps d (f s) s)).
Proof. by intros s Hs. Qed.
Lemma lv_pick d : kept (pick_domain d).
Proof. unfold pick_domain. keep. Qed.
Lemma lv_dev d : kept (get_dev d).
Proof. unfold get_dev. keep. Qed.
Hint Resolve lv_init lv_mmap lv_munmap lv_errno lv_smaps lv_rmaps lv_rmaps_of lv_pick lv_dev : keeps.
Ltac maps_leave := keep_with ltac:(first [apply lv_bracket | apply lv_with_ref | apply lv_with_ref']).
Lemma lv_user e : kept (to_user e).
Proof. unfold to_user. keep. Qed.
Lemma lv_lookup d va : kept (fastrpc_remote_map_lookup d va).
Proof. unfold fastrpc_remote_map_lookup. keep. Qed.
Lemma lv_helper domain fd va offset length flags attrs : kept (fastrpc_mmap_helper sys_ioctl domain fd va offset length flags attrs).
Proof. unfold fastrpc_mmap_helper. maps_leave. Qed.
Hint Resolve lv_user lv_lookup lv_helper : keeps.
Lemma lv_fastrpc_mmap domain fd va offset length flags : kept (fastrpc_mmap sys_ioctl domain fd va offset length flags).
Proof. unfold fastrpc_mmap. maps_leave. Qed.
Lemma lv_mmap_internal domain fd va offset length flags : kept (fastrpc_mmap_internal sys_ioctl domain fd va offset length flags).
Proof. unfold fastrpc_mmap_internal. maps_leave. Qed.
Lemma lv_unmap_with domain p : kept (unmap_with sys_ioctl domain p).
Proof. unfold unmap_with, unmap_node. maps_leave. Qed.
Hint Resolve lv_fastrpc_mmap lv_mmap_internal lv_unmap_with : keeps.
Lemma lv_fastrpc_munmap domain fd va length : kept (fastrpc_munmap sys_ioctl domain fd va length).
Proof. unfold fastrpc_munmap. maps_leave. Qed.
Lemma lv_munmap_internal domain raddr length : kept (fastrpc_munmap_internal sys_ioctl domain raddr length).
Proof. unfold fastrpc_munmap_internal. maps_leave. Qed.
Hint Resolve lv_fastrpc_munmap lv_munmap_internal : keeps.
Lemma lv_mmap64_internal fd flags va size : kept (remote_mmap64_internal sys_ioctl fd flags va size).
Proof. unfold remote_mmap64_internal. maps_leave. Qed.
Lemma lv_munmap64 va size : kept (remote_munmap64 sys_ioctl va size).
Proof. unfold remote_munmap64. maps_leave. Qed.
End leave.

(** ** State *)
Record mem_info := MemInfo { vapps : Z; vadsp : Z; mi_size : Z; mapped : bool; rflags : Z }.
(** [apps_mem_info]: the list of a session and whether it is initialised. *)
Record apps_mem_info := AppsMemInfo { mem_list : list mem_info; am_init : bool }.
Record apps_mem (K W : Type) := AppsMem { tbl : gmap Z apps_mem_info; am_rpc : rpcmem K W; am_dma : dma }.
Arguments AppsMem {_ _}. Arguments tbl {_ _}. Arguments am_rpc {_ _}. Arguments am_dma {_ _}.

(** What the sessions know of a domain: [get_unsigned_pd_attribute] and [fastrpc_get_pd_type]
    of [Control], [is_userspace_allocation_supported] of [Cap]. *)
Class PdAttributes (K : Type) := {
  get_unsigned_pd_attribute : Z -> K -> Z * Z;
  is_userspace_allocation_supported : K -> Z * K;
  fastrpc_get_pd_type : Z -> K -> Z
}.

Section apps_mem.
Context {K W : Type} `{HO : SessionOps K} `{HK : Kernel W} `{HP : PdAttributes K}.
Variable sys_ioctl : Z -> ioctl_req -> K -> io * K.
(** What is found in a field that was not written. *)
Variable junk : Z.
Abbreviation st := (apps_mem K W).
Implicit Types (s : st).

Definition set_tbl (t : gmap Z apps_mem_info) s : st := AppsMem t (am_rpc s) (am_dma s).
Definition set_rpc (r : rpcmem K W) s : st := AppsMem (tbl s) r (am_dma s).
Definition set_dma (d : dma) s : st := AppsMem (tbl s) (am_rpc s) d.
Definition set_list (d : Z) (l : list mem_info) (b : bool) s : st := set_tbl (<[d := AppsMemInfo l b]> (tbl s)) s.

Definition on_rpc {A} (m : M (rpcmem K W) A) : M st A := fun s => let '(r, t) := m (am_rpc s) in (r, set_rpc t s).
Definition on_map {A} (m : M (mem K) A) : M st A := on_rpc (on_mem m).
Definition on_sess {A} (f : K -> A * K) : M st A := on_map (fun m => let '(a, k) := f (mses m) in (Go a, set_mses k m)).
Definition sess {A} (f : K -> A) : M st A := gets (fun s => f (mses (rmem (am_rpc s)))).
Definition alloc (heapid flags size : Z) : M st Z := on_rpc (rpcmem_alloc_internal sys_ioctl heapid flags size).

(** [GET_HASH_NODE] *)
Definition get_node (domain : Z) : M st (option apps_mem_info) := gets (fun s => tbl s !! domain).
(** Appending a node, under the mutex. *)
Definition add_info (domain : Z) (i : mem_info) : M st unit :=
  modify (fun s => match tbl s !! domain with Some me => set_list domain (mem_list me ++ [i]) (am_init me) s | None => s end).
(** What a node holds is given back. *)
Definition release (i : mem_info) : M st unit :=
  if mapped i then (_ ← on_rpc (sys (MUNMAP (vapps i) (u64 (mi_size i)))); mret tt)
  else if negb (vapps i =? 0) then on_rpc (rpcmem_free_internal sys_ioctl (vapps i)) else mret tt.

(** ** Sessions that start and end *)
Definition apps_mem_init (domain : Z) : M st Z :=
  to_bail (
    me ← get_node domain;
    _ ← match me with
        | Some _ => mret tt
        | None => p ← on_rpc (sys CALLOC); if p.1 =? 0 then bail AEE_ENOMEMORY else mret tt
        end;
    modify (set_list domain [] true)).

Fixpoint pop_all (l : list mem_info) : M st unit :=
  match l with
  | [] => mret tt
  | mfree :: l => _ ← (if negb (vapps mfree =? 0) then release mfree else mret tt); pop_all l
  end.
Definition apps_mem_deinit (domain : Z) : M st unit :=
  me ← get_node domain;
  match me with
  | None => mret tt
  | Some me => if am_init me then (_ ← modify (set_list domain [] false); pop_all (mem_list me)) else mret tt
  end.

(** ** Requests *)

(** [*vapps] and [*vadsp], when written, and the buffer. *)
Record map_out := MapOut { o_vapps : option Z; o_vadsp : option Z; o_buf : Z }.
Definition out_vapps (v : Z) : M (st * map_out) unit := setl (fun o => MapOut (Some v) (o_vadsp o) (o_buf o)).
Definition out_vadsp (v : Z) : M (st * map_out) unit := setl (fun o => MapOut (o_vapps o) (Some v) (o_buf o)).
Definition out_buf (b : Z) : M (st * map_out) unit := setl (fun o => MapOut (o_vapps o) (o_vadsp o) b).
(** [VERIFY(AEE_SUCCESS == (nErr = remote_mmap64_internal(..., vadsp)))] *)
Definition map_on_dsp (fd rflags vin len : Z) : M (st * map_out) Z :=
  r ← lift (on_map (remote_mmap64_internal sys_ioctl fd rflags vin len));
  let '(nErr, out) := r : Z * option Z in
  let v := default 0 out in
  _ ← (match out with Some v => out_vadsp v | None => mret tt end);
  _ ← VERIFY nErr (nErr =? AEE_SUCCESS); mret v.
(** [rpcmem_alloc_internal] with its check. *)
Definition take_buf (heapid lflags len : Z) : M (st * map_out) Z :=
  buf ← lift (alloc heapid lflags len); _ ← out_buf buf;
  _ ← VERIFYC (negb (buf =? 0)) AEE_ENORPCMEMORY; mret buf.
Definition is_add_pages (rflags : Z) : bool := (rflags =? ADSP_MMAP_ADD_PAGES) || (rflags =? ADSP_MMAP_ADD_PAGES_LLC).

(** The three kinds of requests: [vapps] and [vadsp]. *)
Definition request_memory (domain heapid lflags rflags len unsigned_module ualloc_support : Z) : M (st * map_out) (Z * Z) :=
  if (rflags =? ADSP_MMAP_HEAP_ADDR) || (rflags =? ADSP_MMAP_REMOTE_HEAP_ADDR) then
    vadsp ← map_on_dsp (-1) rflags 0 len; _ ← out_vapps 0; mret (0, vadsp)
  else if rflags =? FASTRPC_ALLOC_HLOS_FD then
    buf ← take_buf heapid lflags len;
    fd ← lift (on_rpc (rpcmem_to_fd_internal buf));
    _ ← VERIFYC (0 <? fd) AEE_EBADFD;
    _ ← VERIFY_CALL (lift (on_map (fastrpc_mmap sys_ioctl domain fd buf 0 len FASTRPC_MAP_FD_DELAYED)));
    _ ← out_vapps buf; _ ← out_vadsp fd; mret (buf, fd)
  else
    bf ← (if negb (is_add_pages rflags) || (negb (unsigned_module =? 0) && negb (ualloc_support =? 0)) then
            buf ← take_buf heapid lflags len;
            fd ← lift (on_rpc (rpcmem_to_fd_internal buf));
            _ ← VERIFYC (0 <? fd) AEE_EBADPARM; mret (buf, fd)
          else mret (0, -1));
    let '(buf, fd) := bf : Z * Z in
    vadsp ← map_on_dsp fd rflags buf len; _ ← out_vapps buf; mret (buf, vadsp).

Definition apps_mem_request_map64 (heapid lflags rflags vin len : Z) : M st (Z * map_out) :=
  domain ← sess current_domain;
  r ← with_locals (MapOut None None 0) (
    me ← lift (get_node domain);
    _ ← VERIFYC (match me with Some _ => true | None => false end) AEE_ERESOURCENOTFOUND;
    a ← lift (sess (get_unsigned_pd_attribute domain));
    let '(nErr, unsigned_module) := a : Z * Z in
    _ ← VERIFY nErr (nErr =? AEE_SUCCESS);
    ualloc_support ← lift (if negb (unsigned_module =? 0) then on_sess is_userspace_allocation_supported else mret 0);
    _ ← VERIFYC (0 <=? len) AEE_EBADPARM;
    minfo ← lift (on_rpc (sys CALLOC));
    _ ← VERIFYC (negb (minfo.1 =? 0)) AEE_ENOMEMORY;
    _ ← out_vadsp 0;
    v ← request_memory domain heapid lflags rflags len unsigned_module ualloc_support;
    lift (add_info domain (MemInfo v.1 v.2 (s32 len) false rflags)));
  let '(nErr, o) := r : Z * map_out in
  _ ← (if negb (nErr =? 0) && negb (o_buf o =? 0) then on_rpc (rpcmem_free_internal sys_ioctl (o_buf o)) else mret tt);
  mret (nErr, o).

(** The low words of the addresses. *)
Definition apps_mem_request_map (heapid lflags rflags vin len : Z) : M st (Z * (Z * Z)) :=
  r ← apps_mem_request_map64 heapid lflags rflags vin len;
  mret (r.1, (u32 (default junk (o_vapps r.2)), u32 (default junk (o_vadsp r.2)))).

Fixpoint find_vadsp (v : Z) (l : list mem_info) : option (nat * mem_info) :=
  match l with
  | [] => None
  | minfo :: l => if vadsp minfo =? v then Some (O, minfo) else (fun r => (S r.1, r.2)) <$> find_vadsp v l
  end.
Definition apps_mem_request_unmap64 (v len : Z) : M st Z :=
  domain ← sess current_domain;
  to_bail (
    me ← get_node domain;
    match me with
    | None => bail AEE_ERESOURCENOTFOUND
    | Some me =>
      pd_type ← sess (fastrpc_get_pd_type domain);
      match find_vadsp v (mem_list me) with
      | Some (i, mfree) =>
        _ ← (if rflags mfree =? FASTRPC_ALLOC_HLOS_FD
             then VERIFY_CALL (on_map (fastrpc_munmap sys_ioctl domain (s32 v) 0 len))
             else VERIFY_CALL (on_map (remote_munmap64 sys_ioctl v len)));
        _ ← modify (set_list domain (delete i (mem_list me)) (am_init me));
        release mfree
      | None =>
        if pd_type =? AUDIO_STATICPD then VERIFY_CALL (on_map (remote_munmap64 sys_ioctl v len))
        else bail AEE_ENOSUCHMAP
      end
    end).
Definition apps_mem_request_unmap (v len : Z) : M st Z := apps_mem_request_unmap64 v len.

Definition apps_mem_share_map (fd size : Z) : M st (Z * map_out) :=
  domain ← sess current_domain;
  r ← with_locals (MapOut None None 0) (
    me ← lift (get_node domain);
    _ ← VERIFYC (match me with Some _ => true | None => false end) AEE_ERESOURCENOTFOUND;
    _ ← VERIFYC (0 <? fd) AEE_EBADPARM;
    minfo ← lift (on_rpc (sys CALLOC));
    _ ← VERIFYC (negb (minfo.1 =? 0)) AEE_ENOMEMORY;
    _ ← out_vadsp 0;
    b ← lift (on_rpc (sys (MMAP (u64 size) fd)));
    _ ← out_buf b.1;
    _ ← VERIFYC (negb (b.1 =? MAP_FAILED)) AEE_ERPC;
    vadsp ← map_on_dsp fd 0 b.1 size;
    _ ← out_vapps b.1;
    lift (add_info domain (MemInfo b.1 vadsp size true junk)));
  let '(nErr, o) := r : Z * map_out in
  _ ← (if negb (nErr =? 0) && negb (o_buf o =? 0) then (_ ← on_rpc (sys (MUNMAP (o_buf o) (u64 size))); mret tt) else mret tt);
  mret (nErr, o).
Definition apps_mem_share_unmap (v size : Z) : M st Z := apps_mem_request_unmap64 v size.

Definition apps_mem_dma_handle_map (fd offset size : Z) : M st Z :=
  domain ← sess current_domain;
  to_bail (
    _ ← VERIFYC ((0 <? fd) && (0 <? size)) AEE_EBADPARM;
    s ← get;
    let '((len, attr), d) := unregister_dma_handle fd (am_dma s) in
    _ ← modify (set_dma d);
    flags ← (if attr =? FASTRPC_ATTR_NOMAP then (_ ← VERIFYC (size <=? s32 len) AEE_EBADPARM; mret FASTRPC_MAP_FD_NOMAP) else mret FASTRPC_MAP_FD_DELAYED);
    VERIFY_CALL (on_map (fastrpc_mmap sys_ioctl domain fd 0 offset size flags))).
Definition apps_mem_dma_handle_unmap (fd size : Z) : M st Z :=
  domain ← sess current_domain;
  to_bail (
    _ ← VERIFYC ((0 <? fd) && (0 <? size)) AEE_EBADPARM;
    VERIFY_CALL (on_map (fastrpc_munmap sys_ioctl domain fd 0 size))).

(** ** Sessions and requests *)
Inductive am_op :=
  | Init (domain : Z) | Deinit (domain : Z)
  | RequestMap64 (heapid lflags rflags vin len : Z) | RequestMap (heapid lflags rflags vin len : Z)
  | RequestUnmap64 (v len : Z) | RequestUnmap (v len : Z) | ShareMap (fd size : Z) | ShareUnmap (v size : Z)
  | DmaHandleMap (fd offset size : Z) | DmaHandleUnmap (fd size : Z).
Definition am_step (o : am_op) : M st unit :=
  match o with
  | Init domain => _ ← apps_mem_init domain; mret tt
  | Deinit domain => apps_mem_deinit domain
  | RequestMap64 heapid lflags rflags vin len => _ ← apps_mem_request_map64 heapid lflags rflags vin len; mret tt
  | RequestMap heapid lflags rflags vin len => _ ← apps_mem_request_map heapid lflags rflags vin len; mret tt
  | RequestUnmap64 v len => _ ← apps_mem_request_unmap64 v len; mret tt
  | RequestUnmap v len => _ ← apps_mem_request_unmap v len; mret tt
  | ShareMap fd size => _ ← apps_mem_share_map fd size; mret tt
  | ShareUnmap v size => _ ← apps_mem_share_unmap v size; mret tt
  | DmaHandleMap fd offset size => _ ← apps_mem_dma_handle_map fd offset size; mret tt
  | DmaHandleUnmap fd size => _ ← apps_mem_dma_handle_unmap fd size; mret tt
  end.
Fixpoint am_run (os : list am_op) : M st unit := match os with [] => mret tt | o :: os => _ ← am_step o; am_run os end.

(** ** What is held *)
Definition infos (t : gmap Z apps_mem_info) : list mem_info := concat ((fun x => mem_list x.2) <$> map_to_list t).
Definition is_shared (i : mem_info) : bool := negb (mapped i) && negb (vapps i =? 0).
(** The buffers of the allocator and the mappings that the nodes hold. *)
Definition shared (l : list mem_info) : list Z := vapps <$> filter (fun i => is_shared i = true) l.
Definition own (l : list mem_info) : list (Z * Z) := (fun i => (vapps i, u64 (mi_size i))) <$> filter (fun i => mapped i = true) l.

Lemma infos_insert t d l b : infos (<[d := AppsMemInfo l b]> t) ≡ₚ l ++ infos (delete d t).
Proof. unfold infos. rewrite <- insert_delete_eq. rewrite map_to_list_insert by by rewrite lookup_delete_eq. done. Qed.
Lemma infos_lookup t d me : t !! d = Some me -> infos t ≡ₚ mem_list me ++ infos (delete d t).
Proof. intros Hd. rewrite <- (insert_id t d me Hd) at 1. destruct me as [l b]. apply infos_insert. Qed.
Lemma infos_none t d : t !! d = None -> infos (delete d t) = infos t.
Proof. intros Hd. by rewrite delete_id. Qed.
Lemma shared_app l l' : shared (l ++ l') = shared l ++ shared l'.
Proof. unfold shared. by rewrite filter_app, fmap_app. Qed.
Lemma own_app l l' : own (l ++ l') = own l ++ own l'.
Proof. unfold own. by rewrite filter_app, fmap_app. Qed.
#[local] Instance shared_perm : Proper ((≡ₚ) ==> (≡ₚ)) shared.
Proof. intros l l' Hl. unfold shared. by rewrite Hl. Qed.
#[local] Instance own_perm : Proper ((≡ₚ) ==> (≡ₚ)) own.
Proof. intros l l' Hl. unfold own. by rewrite Hl. Qed.

Section invariant.
Context `{HKL : !KernelLaws W} (ready : K -> Prop) `{HR : !Stable sys_ioctl ready}.
Context (Hualloc : forall k, ready k -> ready (is_userspace_allocation_supported k).2).
Context (fds0 : gset Z) (maps0 : gmap Z Z).

(** The nodes [es], the buffers [B] and the mappings [O] hold everything that the process holds
    apart from what it held before. *)
Record holds (B : list Z) (O : list (Z * Z)) (es : list mem_info) (r : rpcmem K W) : Prop := Holds {
  h_rpc : rpc_ok ready fds0 (list_to_map (O ++ own es) ∪ maps0) r;
  h_nodup : NoDup (O ++ own es).*1;
  h_other : Forall (fun x => maps0 !! x.1 = None) (O ++ own es);
  h_bufs : ri_buf <$> rpclst r ≡ₚ B ++ shared es
}.
Lemma rpc_ok_maps0 m m' (r : rpcmem K W) : m = m' -> rpc_ok ready fds0 m r -> rpc_ok ready fds0 m' r.
Proof. by intros ->. Qed.
Lemma list_to_map_perm (l l' : list (Z * Z)) : NoDup l.*1 -> l ≡ₚ l' -> list_to_map l =@{gmap Z Z} list_to_map l'.
Proof. apply list_to_map_proper. Qed.
(** Moving a buffer or a mapping from hand into a node and back. *)
Lemma holds_move B B' O O' es es' r : B ++ shared es ≡ₚ B' ++ shared es' -> O ++ own es ≡ₚ O' ++ own es' -> holds B O es r -> holds B' O' es' r.
Proof.
  intros HB HO' [H1 H2 H3 H4]. split.
  - eapply rpc_ok_maps0; [|exact H1]. f_equal. by apply list_to_map_perm.
  - by rewrite <- HO'.
  - by rewrite <- HO'.
  - by rewrite H4.
Qed.

(** *** One call of the allocator or the kernel *)
Lemma rpc_ok_leaves m0 (r : rpcmem K W) m : rpc_ok ready fds0 m0 r -> leaves ready (fdlist (rmem r)) m -> rpc_ok ready fds0 m0 (set_rmem m r).
Proof. intros [] [Hm Hl]. split; cbn; try done. by rewrite Hl. Qed.
Lemma holds_mem {A} B O es (m : M (mem K) A) r : (forall l, preserves (leaves ready l) m) -> holds B O es r -> holds B O es (on_mem m r).2.
Proof.
  intros Hm [H1 H2 H3 H4]. unfold on_mem. pose proof (Hm (fdlist (rmem r)) (rmem r)) as Hl. destruct (m (rmem r)) as [a t]. cbn [snd] in *.
  split; [|done|done|done]. apply rpc_ok_leaves; [done|]. apply Hl. split; [apply H1|done].
Qed.
Lemma holds_calloc B O es r : holds B O es r -> holds B O es (sys CALLOC r).2.
Proof.
  intros [H1 H2 H3 H4]. unfold sys. destruct (calloc_quiet (kern r)) as [Hf Hm]. destruct (kernel CALLOC (kern r)) as [a w]. cbn in *.
  split; [by apply rpc_ok_kern|done|done|done].
Qed.
Lemma holds_alloc O es heapid flags size r : 0 <= size < 2147483648 -> holds [] O es r ->
  wp (rpcmem_alloc_internal sys_ioctl heapid flags size) (fun b r' => holds (if b =? 0 then [] else [b]) O es r') (fun _ _ => False) r.
Proof.
  intros Hsz [H1 H2 H3 H4]. eapply wp_mono; [apply (alloc_ok sys_ioctl ready (ready_up sys_ioctl)); [done|exact H1]| |done].
  intros b r' [Hok Hb]. split; [done..|]. destruct (b =? 0); [by rewrite Hb|].
  destruct Hb as (n & fd & ->). rewrite fmap_app. cbn. rewrite H4. by rewrite Permutation_app_comm.
Qed.
Lemma holds_free b B O es r : holds (b :: B) O es r -> wp (rpcmem_free_internal sys_ioctl b) (fun _ => holds B O es) (fun _ _ => False) r.
Proof.
  intros [H1 H2 H3 H4]. eapply wp_mono; [apply (free_ok sys_ioctl ready (ready_up sys_ioctl)); exact H1| |done].
  intros ? r' [Hok Hb]. split; [done..|]. specialize (Hb ltac:(rewrite H4; left)). rewrite Hb in H4. by apply Permutation_cons_inv in H4.
Qed.
Lemma holds_mmap B es n fd r : holds B [] es r ->
  holds B (if (kernel (MMAP n fd) (kern r)).1.1 =? MAP_FAILED then [] else [((kernel (MMAP n fd) (kern r)).1.1, n)]) es (set_kern (kernel (MMAP n fd) (kern r)).2 r).
Proof.
  intros [H1 H2 H3 H4]. destruct (kernel (MMAP n fd) (kern r)) as [[a d] w] eqn:E. cbn [fst snd]. destruct (mmap_maps _ _ _ _ _ _ E) as [Hf Hm].
  destruct (a =? MAP_FAILED); [split; [by apply rpc_ok_kern|done..]|]. destruct Hm as (Hn & Ha & Hnone & Hins & Hok).
  destruct (maps_new ready fds0 _ _ _ H1 Hnone) as [Hb Hc]. apply lookup_union_None in Hc as [Hc1 Hc2].
  split; [|cbn; constructor; [by apply not_elem_of_list_to_map_2|done]|constructor; [done|done]|done].
  destruct H1. split; cbn; try done.
  - by rewrite Hf.
  - apply Forall_forall. intros x Hx. pose proof ok_maps_other as Hx0. rewrite Forall_forall in Hx0. specialize (Hx0 x Hx). apply lookup_union_None in Hx0 as [Hx1 Hx2]. apply lookup_union_None. split; [|done].
    rewrite lookup_insert_ne; [done|]. intros ->. apply Hb. by apply list_elem_of_fmap_2.
  - rewrite Hins, ok_maps. rewrite <- insert_union_l, insert_union_r; [done|]. by apply not_elem_of_list_to_map_1.
  - by apply Hok.
Qed.
Lemma holds_munmap B O es a n r : holds B ((a, n) :: O) es r -> holds B O es (set_kern (kernel (MUNMAP a n) (kern r)).2 r).
Proof.
  intros [H1 H2 H3 H4]. cbn in *. apply NoDup_cons in H2 as [H2a H2]. apply Forall_cons in H3 as [H3a H3].
  assert (Hb : a ∉ (rpc_maps r).*1).
  { intros Hin. pose proof (ok_maps_other _ _ _ _ H1) as Ho. rewrite Forall_forall in Ho. apply list_elem_of_fmap in Hin as (x & -> & Hx).
    specialize (Ho x Hx). apply lookup_union_None in Ho as [Ho _]. by rewrite lookup_insert_eq in Ho. }
  assert (Ha : maps (kern r) !! a = Some n).
  { rewrite (ok_maps _ _ _ _ H1), lookup_union_r by by apply not_elem_of_list_to_map_1. apply lookup_union_Some_l. by rewrite lookup_insert_eq. }
  assert (Hnf : a <> MAP_FAILED) by (destruct (ok_ranges _ _ _ _ H1 _ _ Ha) as (? & ? & ? & _); lia).
  destruct (munmap_maps _ _ _ Hnf Ha) as [Hf Hm]. split; [|done..].
  destruct H1. split; cbn; try done.
  - by rewrite Hf.
  - eapply Forall_impl; [exact ok_maps_other|]. intros x Hx0. apply lookup_union_None in Hx0 as [Hx1 Hx2]. apply lookup_union_None. split; [|done].
    by apply lookup_insert_None in Hx1 as [? _].
  - rewrite Hm, ok_maps. rewrite delete_union, (delete_id (list_to_map (rpc_maps r))) by by apply not_elem_of_list_to_map_1.
    rewrite delete_union, (delete_id maps0) by done. by rewrite delete_insert_id by by apply not_elem_of_list_to_map_1.
  - rewrite Hm. intros b k Hk. apply lookup_delete_Some in Hk as [_ Hk]. destruct (ok_ranges b k Hk) as (K1 & K2 & K3 & K4).
    split_and!; [done..|]. intros c j Hc. apply lookup_delete_Some in Hc as [_ Hc]. by apply K4.
Qed.

(** *** The state of the component *)
Definition inv (B : list Z) (O : list (Z * Z)) (t : gmap Z apps_mem_info) s : Prop := tbl s = t /\ holds B O (infos t) (am_rpc s).
(** A buffer in hand. *)
Definition hand (b : Z) : list Z := if b =? 0 then [] else [b].

#[local] Instance on_rpc_total {A} (m : M (rpcmem K W) A) : Total m -> Total (on_rpc m).
Proof. intros Hm s. unfold on_rpc. destruct (Hm (am_rpc s)) as (a & r & ->). by eexists _, _. Qed.
#[local] Instance on_map_total {A} (m : M (mem K) A) : Total m -> Total (on_map m).
Proof. intros Hm. apply on_rpc_total, on_mem_total, Hm. Qed.
#[local] Instance on_sess_total {A} (f : K -> A * K) : Total (on_sess f).
Proof. apply on_map_total. intros m. destruct (f (mses m)). by eexists _, _. Qed.
#[local] Instance sess_total {A} (f : K -> A) : Total (sess f).
Proof. apply _. Qed.
#[local] Instance mmap64_total fd flags va size : Total (remote_mmap64_internal sys_ioctl fd flags va size).
Proof. unfold remote_mmap64_internal, to_user. apply Total_bind; [apply _|]. intros [nErr out]. apply _. Qed.
#[local] Instance fastrpc_mmap_total domain fd va offset length flags : Total (fastrpc_mmap sys_ioctl domain fd va offset length flags).
Proof. apply _. Qed.
#[local] Instance to_fd_total po : Total (rpcmem_to_fd_internal po : M (rpcmem K W) Z).
Proof. unfold rpcmem_to_fd_internal. apply _. Qed.

Section keep.
Context (B : list Z) (O : list (Z * Z)) (t : gmap Z apps_mem_info).
Abbreviation keeps m := (preserves (inv B O t) m).
Lemma iv_rpc {A} (m : M (rpcmem K W) A) : (forall r, holds B O (infos t) r -> holds B O (infos t) (m r).2) -> keeps (on_rpc m).
Proof. intros Hm s [Ht Hh]. unfold on_rpc. specialize (Hm (am_rpc s)). destruct (m (am_rpc s)) as [a r]. split; [done|]. by apply Hm. Qed.
Lemma iv_map {A} (m : M (mem K) A) : (forall l, preserves (leaves ready l) m) -> keeps (on_map m).
Proof. intros Hm. apply iv_rpc. intros r. by apply holds_mem. Qed.
Lemma iv_mmap64 fd flags va size : keeps (on_map (remote_mmap64_internal sys_ioctl fd flags va size)).
Proof. apply iv_map. intros l. by apply lv_mmap64_internal. Qed.
Lemma iv_munmap64 va size : keeps (on_map (remote_munmap64 sys_ioctl va size)).
Proof. apply iv_map. intros l. by apply lv_munmap64. Qed.
Lemma iv_fastrpc_mmap domain fd va offset length flags : keeps (on_map (fastrpc_mmap sys_ioctl domain fd va offset length flags)).
Proof. apply iv_map. intros l. by apply lv_fastrpc_mmap. Qed.
Lemma iv_fastrpc_munmap domain fd va length : keeps (on_map (fastrpc_munmap sys_ioctl domain fd va length)).
Proof. apply iv_map. intros l. by apply lv_fastrpc_munmap. Qed.
Lemma iv_calloc : keeps (on_rpc (sys CALLOC)).
Proof. apply iv_rpc. intros r. apply holds_calloc. Qed.
Lemma iv_to_fd po : keeps (on_rpc (rpcmem_to_fd_internal po)).
Proof. by apply iv_rpc. Qed.
Lemma iv_ualloc : keeps (on_sess is_userspace_allocation_supported).
Proof.
  apply iv_map. intros l m [Hr Hl]. specialize (Hualloc _ Hr). destruct (is_userspace_allocation_supported (mses m)) as [a k]. by split.
Qed.
Lemma iv_dma d : keeps (modify (set_dma d)).
Proof. by intros s Hs. Qed.
Lemma wp_iv {A} (m : M st A) (Q : A -> st -> Prop) R s : keeps m -> Total m -> inv B O t s -> (forall a s', inv B O t s' -> Q a s') -> wp m Q R s.
Proof. intros Hm Ht Hs HQ. specialize (Hm s Hs). unfold wp. destruct (Ht s) as (a & s' & E). rewrite E in *. by apply HQ. Qed.
End keep.

Lemma wp_on_rpc {A} (m : M (rpcmem K W) A) (Q : A -> st -> Prop) R s :
  wp m (fun a r => Q a (set_rpc r s)) (fun e r => R e (set_rpc r s)) (am_rpc s) -> wp (on_rpc m) Q R s.
Proof. unfold wp, on_rpc. by destruct (m (am_rpc s)) as [[a|e] r]. Qed.
Lemma wp_total {S A} (m : M S A) (Q : A -> S -> Prop) R x : Total m -> (forall a y, Q a y) -> wp m Q R x.
Proof. intros Hm HQ. unfold wp. destruct (Hm x) as (a & y & ->). apply HQ. Qed.
Lemma wp_alloc_buf O t heapid flags size (Q : Z -> st -> Prop) R s : 0 <= size < 2147483648 -> inv [] O t s ->
  (forall b s', inv (hand b) O t s' -> Q b s') -> wp (alloc heapid flags size) Q R s.
Proof.
  intros Hsz [Ht Hs] HQ. unfold alloc. apply wp_on_rpc. eapply wp_mono; [by apply holds_alloc| |done]. intros b r Hb. by apply HQ.
Qed.
Lemma wp_free_buf b B O t (Q : unit -> st -> Prop) R s : inv (b :: B) O t s -> (forall s', inv B O t s' -> Q tt s') -> wp (on_rpc (rpcmem_free_internal sys_ioctl b)) Q R s.
Proof.
  intros [Ht Hs] HQ. apply wp_on_rpc. eapply wp_mono; [by apply holds_free| |done]. intros [] r Hr. by apply HQ.
Qed.
Lemma wp_sys_rpc c (Q : Z * Z -> st -> Prop) R s : Q (kernel c (kern (am_rpc s))).1 (set_rpc (set_kern (kernel c (kern (am_rpc s))).2 (am_rpc s)) s) -> wp (on_rpc (sys c)) Q R s.
Proof. intros HQ. apply wp_on_rpc, wp_sys. exact HQ. Qed.
(** What a node holds, in hand. *)
Definition hand_of (i : mem_info) : list Z := if mapped i then [] else hand (vapps i).
Definition mapping_of (i : mem_info) : list (Z * Z) := if mapped i then [(vapps i, u64 (mi_size i))] else [].
Lemma shared_one i : shared [i] = hand_of i.
Proof. unfold shared, hand_of, hand. rewrite filter_cons. unfold is_shared. destruct (mapped i), (vapps i =? 0); cbn; done. Qed.
Lemma own_one i : own [i] = mapping_of i.
Proof. unfold own, mapping_of. rewrite filter_cons. by destruct (mapped i). Qed.
Lemma wp_sys_munmap a n B O t (Q : Z * Z -> st -> Prop) R s : inv B ((a, n) :: O) t s -> (forall x s', inv B O t s' -> Q x s') -> wp (on_rpc (sys (MUNMAP a n))) Q R s.
Proof.
  intros [Ht Hs] HQ. apply wp_sys_rpc, HQ. split; [done|]. by apply holds_munmap.
Qed.
Lemma wp_release i B O t (Q : unit -> st -> Prop) R s : inv (hand_of i ++ B) (mapping_of i ++ O) t s -> (forall s', inv B O t s' -> Q tt s') -> wp (release i) Q R s.
Proof.
  unfold hand_of, mapping_of, hand, release. intros Hs HQ. destruct (mapped i).
  - wp_step. eapply wp_sys_munmap; [exact Hs|]. intros _ s' Hs'. by apply wp_ret, HQ.
  - destruct (vapps i =? 0); cbn [negb]; [by apply wp_ret, HQ|by eapply wp_free_buf].
Qed.

(** *** A request in progress: the buffer in hand is the one that the clean-up frees. *)
Definition in_hand (t : gmap Z apps_mem_info) (b : Z) (sl : st * map_out) : Prop := o_buf sl.2 = b /\ inv (hand b) [] t sl.1.
Definition fails (t : gmap Z apps_mem_info) (e : Z) (sl : st * map_out) : Prop := e <> 0 /\ in_hand t (o_buf sl.2) sl.
Lemma fails_any t b e sl : in_hand t b sl -> e <> 0 -> fails t e sl.
Proof. intros [<- Hs] He. by split. Qed.
Lemma map_on_dsp_keeps B O t b fd rfl vin len sl : o_buf sl.2 = b -> inv B O t sl.1 ->
  wp (map_on_dsp fd rfl vin len) (fun _ sl' => o_buf sl'.2 = b /\ inv B O t sl'.1) (fun e sl' => e <> 0 /\ o_buf sl'.2 = b /\ inv B O t sl'.1) sl.
Proof.
  destruct sl as [s o]. intros Ho Hs. unfold map_on_dsp. do 2 wp_step. eapply wp_iv; [apply iv_mmap64|apply _|exact Hs|]. intros [nErr out] s' Hs'.
  wp_step. assert (Hout : wp (match out with Some v => out_vadsp v | None => mret tt end) (fun _ sl' => o_buf sl'.2 = b /\ inv B O t sl'.1) (fun _ _ => False) (s', o)).
  { destruct out as [v|]; [unfold out_vadsp; by wp_step|by apply wp_ret]. }
  eapply wp_mono; [exact Hout| |done]. intros ? sl Hsl. repeat wp_step; [done|]. split; [|done]. destruct (nErr =? 0) eqn:E; lia.
Qed.
Lemma map_on_dsp_held t b fd rfl vin len sl : in_hand t b sl -> wp (map_on_dsp fd rfl vin len) (fun _ => in_hand t b) (fails t) sl.
Proof.
  intros [Ho Hs]. eapply wp_mono; [by apply (map_on_dsp_keeps (hand b) [] t b)|done|].
  intros e sl' (He & Hsl). by apply (fails_any t b).
Qed.
Lemma take_buf_held t heapid lflags len sl : 0 <= len < 2147483648 -> in_hand t 0 sl -> wp (take_buf heapid lflags len) (in_hand t) (fails t) sl.
Proof.
  destruct sl as [s o]. intros Hlen [Ho Hs]. unfold take_buf. do 2 wp_step. eapply wp_alloc_buf; [done|exact Hs|]. intros b s' Hs'. unfold out_buf. repeat wp_step; [by split|].
  by eapply (fails_any t b).
Qed.
Lemma to_fd_held t b sl (Q : Z -> st * map_out -> Prop) R : in_hand t b sl -> (forall fd sl', in_hand t b sl' -> Q fd sl') -> wp (lift (on_rpc (rpcmem_to_fd_internal b))) Q R sl.
Proof. destruct sl as [s o]. intros [Ho Hs] HQ. wp_step. eapply wp_iv; [apply iv_to_fd|apply _|exact Hs|]. intros fd s' Hs'. by apply HQ. Qed.
Lemma request_memory_held t domain heapid lflags rfl len un ua sl : 0 <= len < 2147483648 -> in_hand t 0 sl ->
  wp (request_memory domain heapid lflags rfl len un ua) (fun v => in_hand t v.1) (fails t) sl.
Proof.
  intros Hlen Hsl. unfold request_memory. wp_step; [|wp_step].
  - wp_step. eapply wp_mono; [by apply (map_on_dsp_held t 0)| |done]. intros v [s o] Hv. unfold out_vapps. repeat wp_step. done.
  - wp_step. eapply wp_mono; [by apply take_buf_held| |done]. intros b sl1 Hb. wp_step. eapply to_fd_held; [exact Hb|]. intros fd sl2 Hb2.
    wp_step. wp_step; [|by eapply fails_any]. destruct sl2 as [s o]. destruct Hb2 as [Ho Hs]. do 3 wp_step. eapply wp_iv; [apply iv_fastrpc_mmap|apply _|exact Hs|].
    intros e s' Hs'. split; [|intros He; by eapply (fails_any t b)]. intros _. unfold out_vapps, out_vadsp. repeat wp_step. done.
  - wp_step. match goal with |- wp ?m _ _ _ => assert (Hm : wp m (fun bf => in_hand t bf.1) (fails t) sl) end.
    { wp_step; [|by apply wp_ret]. wp_step. eapply wp_mono; [by apply take_buf_held| |done]. intros b sl1 Hb. wp_step. eapply to_fd_held; [exact Hb|]. intros fd sl2 Hb2.
      repeat wp_step; [done|by eapply fails_any]. }
    eapply wp_mono; [exact Hm| |done]. intros [buf fd] sl1 Hb. cbn [fst] in Hb. wp_step. eapply wp_mono; [by apply (map_on_dsp_held t buf)| |done].
    intros v [s o] Hv. unfold out_vapps. repeat wp_step. done.
Qed.
#[local] Instance calloc_total : Total (on_rpc (sys CALLOC)).
Proof. apply on_rpc_total, sys_total. Qed.

(** Everything is held by the nodes. *)
Definition accounted s : Prop := inv [] [] (tbl s) s.
Lemma inv_accounted t s : inv [] [] t s -> accounted s.
Proof. intros [Ht Hs]. split; [done|]. by rewrite Ht. Qed.
(** A node at the end of the list, and one that is taken out. *)
Lemma inv_add d me i t s : inv (hand_of i) (mapping_of i) t s -> t !! d = Some me -> accounted (set_list d (mem_list me ++ [i]) (am_init me) s).
Proof.
  intros [Ht Hs] Hd. split; [done|]. change (am_rpc _) with (am_rpc s).
  pose proof (infos_lookup _ _ _ Hd) as H1. pose proof (infos_insert t d (mem_list me ++ [i]) (am_init me)) as H2. cbn. rewrite Ht.
  eapply holds_move; [| |exact Hs]; rewrite H1, H2, ?shared_app, ?own_app, ?shared_one, ?own_one.
  - cbn. rewrite (Permutation_app_comm (shared (mem_list me)) (hand_of i)). by rewrite <- !app_assoc.
  - cbn. rewrite (Permutation_app_comm (own (mem_list me)) (mapping_of i)). by rewrite <- !app_assoc.
Qed.
Lemma inv_take B O d me l i b s t : inv B O t s -> t !! d = Some me -> mem_list me ≡ₚ i :: l ->
  inv (hand_of i ++ B) (mapping_of i ++ O) (<[d := AppsMemInfo l b]> t) (set_list d l b s).
Proof.
  intros [Ht Hs] Hd Hl. split; [cbn; by rewrite Ht|]. change (am_rpc _) with (am_rpc s).
  pose proof (infos_lookup _ _ _ Hd) as H1. pose proof (infos_insert t d l b) as H2. rewrite Hl in H1.
  eapply holds_move; [| |exact Hs]; rewrite H1, H2; change (i :: l) with ([i] ++ l); rewrite ?shared_app, ?own_app, ?shared_one, ?own_one, <- ?app_assoc.
  - rewrite (app_assoc B (hand_of i)), (Permutation_app_comm B (hand_of i)). by rewrite <- !app_assoc.
  - rewrite (app_assoc O (mapping_of i)), (Permutation_app_comm O (mapping_of i)). by rewrite <- !app_assoc.
Qed.

Lemma map_cleanup nErr o s : (nErr = AEE_SUCCESS /\ accounted s) \/ (nErr <> 0 /\ inv (hand (o_buf o)) [] (tbl s) s) ->
  wp (_ ← (if negb (nErr =? 0) && negb (o_buf o =? 0) then on_rpc (rpcmem_free_internal sys_ioctl (o_buf o)) else mret tt); mret (nErr, o))
    (fun _ => accounted) (fun _ => accounted) s.
Proof.
  intros [[-> Ha]|[Hn Hi]]; [by repeat wp_step|]. rewrite (proj2 (Z.eqb_neq _ _) Hn). cbn [negb andb]. wp_step. unfold hand in Hi.
  destruct (o_buf o =? 0); cbn [negb]; [by repeat wp_step|]. eapply wp_free_buf; [exact Hi|]. intros s' Hs'. apply wp_ret. by eapply inv_accounted.
Qed.
Lemma in_hand_cleanup t nErr sl : fails t nErr sl -> (nErr = AEE_SUCCESS /\ accounted sl.1) \/ (nErr <> 0 /\ inv (hand (o_buf sl.2)) [] (tbl sl.1) sl.1).
Proof. intros (Hn & _ & [Ht Hs]). right. split; [done|]. split; [done|]. by rewrite Ht. Qed.
Ltac fails_now t := apply (fails_any t 0); [by split|done].

Lemma request_map64_accounted heapid lflags rfl vin len s : len < 2147483648 -> accounted s ->
  wp (apps_mem_request_map64 heapid lflags rfl vin len) (fun _ => accounted) (fun _ => accounted) s.
Proof.
  intros Hlen Hs. unfold apps_mem_request_map64, sess. do 3 wp_step. set (domain := current_domain _). set (t := tbl s).
  apply wp_with_locals. eapply wp_mono with (Q := fun _ sl => accounted sl.1) (R := fails t).
  2:{ intros ? [s' o] Ha. cbn [fst snd] in *. apply map_cleanup. by left. }
  2:{ intros e sl Hf. apply map_cleanup. by eapply in_hand_cleanup. }
  change (inv (hand 0) [] t s) in Hs.
  unfold get_node. do 3 wp_step.  destruct (tbl s !! domain) as [me|] eqn:Hd; [|by wp_step; wp_step; [done|fails_now t]]. wp_step. wp_step; [|done]. do 3 wp_step.
  destruct (get_unsigned_pd_attribute _ _) as [nErr un]. wp_step. wp_step; [|eapply (fails_any t 0); [by split|destruct (nErr =? 0) eqn:E; lia]].
   do 2 wp_step. match goal with |- wp ?m _ _ _ => assert (Hm : wp m (fun _ s' => inv (hand 0) [] t s') (fun _ _ => False) s) end.
  { wp_step; [|by apply wp_ret]. eapply wp_iv; [apply iv_ualloc|apply _|exact Hs|done]. }
  eapply wp_mono; [exact Hm| |done]. clear Hs. intros ua s1 Hs. wp_step. wp_step; [|fails_now t]. do 2 wp_step.
  eapply wp_iv; [apply iv_calloc|apply _|exact Hs|]. clear Hs. intros p s2 Hs. wp_step. wp_step; [|fails_now t].
  unfold out_vadsp. wp_step. wp_step. wp_step.
  eapply wp_mono; [apply (request_memory_held t); [lia|by split]| |done]. intros v [s3 o] [Ho Hs3]. unfold add_info. repeat wp_step. cbn [fst snd] in *.
  destruct Hs3 as [Ht Hs3]. rewrite Ht. fold t in Hd. rewrite Hd. eapply inv_add; [|exact Hd]. by split.
Qed.

(** *** Unmapping *)
Lemma find_vadsp_perm v l i x : find_vadsp v l = Some (i, x) -> l ≡ₚ x :: delete i l.
Proof.
  intros E. apply delete_Permutation. revert i E. induction l as [|y l IH]; intros i; cbn; [done|]. destruct (vadsp y =? v); [by intros [= <- <-]|].
  destruct (find_vadsp v l) as [[j z]|]; [|done]. cbn. intros [= <- <-]. by apply IH.
Qed.
Lemma wp_keep {A} (P : st -> Prop) (m : M st A) (Q : A -> st -> Prop) R s :
  preserves P m -> P s -> (forall a s', P s' -> Q a s') -> (forall e s', P s' -> R e s') -> wp m Q R s.
Proof. intros Hm Hs HQ HE. specialize (Hm s Hs). unfold wp. destruct (m s) as [[a|e] s']; auto. Qed.
Lemma request_unmap64_accounted v len s : accounted s -> wp (apps_mem_request_unmap64 v len) (fun _ => accounted) (fun _ => accounted) s.
Proof.
  intros Hs. unfold apps_mem_request_unmap64, sess, get_node. do 5 wp_step. set (domain := current_domain _). set (t := tbl s). change (inv [] [] t s) in Hs.
  destruct (t !! domain) as [me|] eqn:Hd; [|by apply wp_bail]. do 2 wp_step.
  destruct (find_vadsp v (mem_list me)) as [[i x]|] eqn:E.
  - apply find_vadsp_perm in E. wp_step. apply (wp_keep (inv [] [] t)); [|exact Hs| |intros e s' Hs'; by eapply inv_accounted].
    { apply preserves_if; apply preserves_VERIFY_CALL; [apply iv_fastrpc_munmap|apply iv_munmap64]. }
    intros ? s1 Hs1. do 2 wp_step. eapply wp_release; [by apply (inv_take [] [] domain me (delete i (mem_list me)) x (am_init me) s1 t)|].
    intros s2 Hs2. by eapply inv_accounted.
  - wp_step; [|by apply wp_bail]. apply (wp_keep (inv [] [] t)); [apply preserves_VERIFY_CALL, iv_munmap64|exact Hs|intros ? s' Hs'; by eapply inv_accounted|intros e s' Hs'; by eapply inv_accounted].
Qed.

(** *** Shared mappings *)
Lemma share_map_accounted fd size s : accounted s -> wp (apps_mem_share_map fd size) (fun _ => accounted) (fun _ => accounted) s.
Proof.
  intros Hs. unfold apps_mem_share_map, sess, get_node. do 3 wp_step. set (domain := current_domain _). set (t := tbl s). change (inv [] [] t s) in Hs.
  set (mine := fun b : Z => if b =? MAP_FAILED then [] else [(b, u64 size)]).
  apply wp_with_locals. eapply wp_mono with (Q := fun _ sl => accounted sl.1)
    (R := fun e sl => e <> 0 /\ inv [] (if o_buf sl.2 =? 0 then [] else mine (o_buf sl.2)) t sl.1).
  2:{ intros ? [s' o] Ha. cbn [fst snd] in *. by repeat wp_step. }
  2:{ intros e [s' o] [He Hi]. cbn [fst snd] in *. rewrite (proj2 (Z.eqb_neq _ _) He). cbn [negb andb]. wp_step.
      destruct (o_buf o =? 0); cbn [negb]; [repeat wp_step; by eapply inv_accounted|]. wp_step. unfold mine in Hi. destruct (Z.eqb_spec (o_buf o) MAP_FAILED) as [->|Hn].
      - apply wp_sys_rpc. repeat wp_step. destruct Hi as [Ht Hi]. split; [done|]. cbn. rewrite Ht. destruct Hi as [H1 H2 H3 H4].
        destruct (munmap_failed (u64 size) (kern (am_rpc s'))) as [Hf Hm]. split; [by apply rpc_ok_kern|done..].
      - eapply wp_sys_munmap; [exact Hi|]. intros ? s2 Hs2. repeat wp_step. by eapply inv_accounted. }
  do 3 wp_step. fold t. destruct (t !! domain) as [me|] eqn:Hd; [|by wp_step; wp_step]. wp_step. wp_step; [|done].
  wp_step. wp_step; [|done]. do 2 wp_step. eapply wp_iv; [apply iv_calloc|apply _|exact Hs|]. clear Hs. intros p s1 Hs. wp_step. wp_step; [|done].
  unfold out_vadsp. do 4 wp_step. apply wp_sys_rpc. cbn [o_vapps o_vadsp o_buf].
  assert (Hb0 : (kernel (MMAP (u64 size) fd) (kern (am_rpc s1))).1.1 <> 0).
  { destruct (kernel _ _) as [[a d] w] eqn:E. destruct (mmap_maps _ _ _ _ _ _ E) as [_ Ha]. cbn. destruct (Z.eqb_spec a MAP_FAILED) as [->|_]; [done|lia]. }
  set (b := (kernel (MMAP (u64 size) fd) (kern (am_rpc s1))).1) in *. set (s2 := set_rpc _ s1).
  assert (Hs2 : inv [] (mine b.1) t s2).
  { destruct Hs as [Ht Hs]. split; [done|]. by apply holds_mmap. }
  clearbody s2. unfold out_buf. do 2 wp_step. wp_step.
  wp_step; [|by split; [done|]; cbn; rewrite (proj2 (Z.eqb_neq _ _) Hb0)].
  wp_step. destruct (Z.eqb_spec b.1 MAP_FAILED) as [Hb|Hb]; [by rewrite Hb in *|]. unfold mine in *. rewrite (proj2 (Z.eqb_neq _ _) Hb) in Hs2.
  eapply wp_mono; [by apply (map_on_dsp_keeps [] [(b.1, u64 size)] t b.1)| |].
  - intros v [s3 o] [Ho Hs3]. unfold out_vapps, add_info. repeat wp_step. cbn [fst snd] in *. destruct Hs3 as [Ht Hs3]. rewrite Ht, Hd.
    eapply inv_add; [|exact Hd]. by split.
  - intros e [s3 o] (He & Ho & Hs3). split; [done|]. cbn [fst snd] in *. rewrite Ho. by rewrite (proj2 (Z.eqb_neq _ _) Hb0), (proj2 (Z.eqb_neq _ _) Hb).
Qed.

(** *** Sessions *)
Lemma mem_init_accounted d s : accounted s -> match tbl s !! d with Some me => mem_list me = [] | None => True end ->
  wp (apps_mem_init d) (fun _ => accounted) (fun _ => accounted) s.
Proof.
  intros Hs Hd. unfold apps_mem_init, get_node. do 4 wp_step. set (t := tbl s) in *. change (inv [] [] t s) in Hs.
  assert (Hset : forall s', inv [] [] t s' -> accounted (set_list d [] true s')).
  { intros s' [Ht Hs']. split; [done|]. change (am_rpc _) with (am_rpc s').
    assert (Hi : infos (<[d := AppsMemInfo [] true]> t) ≡ₚ infos t).
    { rewrite infos_insert. cbn. destruct (t !! d) as [me|] eqn:E; [by rewrite (infos_lookup t d me E), Hd|by rewrite infos_none]. }
    cbn. rewrite Ht. eapply holds_move; [| |exact Hs']; by rewrite Hi. }
  destruct (t !! d) as [me|]; [repeat wp_step; by apply Hset|]. wp_step. eapply wp_iv; [apply iv_calloc|apply _|exact Hs|]. intros p s' Hs'.
  repeat wp_step; [by eapply inv_accounted|by apply Hset].
Qed.
Lemma mapping_pos B O t a n s : inv B ((a, n) :: O) t s -> 0 < a.
Proof.
  intros [_ [H1 H2 H3 H4]]. cbn in *. apply NoDup_cons in H2 as [H2a H2]. apply Forall_cons in H3 as [H3a H3].
  assert (Ha : maps (kern (am_rpc s)) !! a = Some n); [|by destruct (ok_ranges _ _ _ _ H1 _ _ Ha)].
  rewrite (ok_maps _ _ _ _ H1), lookup_union_r; [apply lookup_union_Some_l; by rewrite lookup_insert_eq|].
  apply not_elem_of_list_to_map_1. intros Hin. pose proof (ok_maps_other _ _ _ _ H1) as Ho. rewrite Forall_forall in Ho.
  apply list_elem_of_fmap in Hin as (x & -> & Hx). specialize (Ho x Hx). apply lookup_union_None in Ho as [Ho _]. by rewrite lookup_insert_eq in Ho.
Qed.
Lemma pop_all_accounted l t s : inv (shared l) (own l) t s -> wp (pop_all l) (fun _ => accounted) (fun _ => accounted) s.
Proof.
  revert s. induction l as [|i l IH]; intros s Hs; cbn [pop_all]; [apply wp_ret; by eapply inv_accounted|].
  change (i :: l) with ([i] ++ l) in Hs. rewrite shared_app, own_app, shared_one, own_one in Hs. wp_step. wp_step.
  - eapply wp_release; [exact Hs|]. intros s' Hs'. by apply IH.
  - apply wp_ret, IH. apply negb_false_iff, Z.eqb_eq in H. unfold hand_of, mapping_of, hand in Hs. rewrite H in Hs. destruct (mapped i); [|done].
    pose proof (mapping_pos _ _ _ _ _ _ Hs). lia.
Qed.
Lemma deinit_accounted d s : accounted s -> wp (apps_mem_deinit d) (fun _ => accounted) (fun _ => accounted) s.
Proof.
  intros Hs. unfold apps_mem_deinit, get_node. do 2 wp_step. set (t := tbl s) in *. change (inv [] [] t s) in Hs. destruct (t !! d) as [me|] eqn:Hd; [|by apply wp_ret].
  wp_step; [|by apply wp_ret]. do 2 wp_step. apply (pop_all_accounted (mem_list me) (<[d := AppsMemInfo [] false]> t)).
  destruct Hs as [Ht Hs]. split; [cbn; by rewrite Ht|]. change (am_rpc _) with (am_rpc s).
  pose proof (infos_lookup _ _ _ Hd) as H1. pose proof (infos_insert t d [] false) as H2.
  eapply holds_move; [| |exact Hs]; rewrite H1, H2, ?shared_app, ?own_app; done.
Qed.
Lemma dma_accounted fd offset size s : accounted s -> wp (apps_mem_dma_handle_map fd offset size) (fun _ => accounted) (fun _ => accounted) s.
Proof.
  intros Hs. unfold apps_mem_dma_handle_map, sess. do 4 wp_step. wp_step; [|done]. do 2 wp_step. destruct (unregister_dma_handle fd (am_dma s)) as [[len attr] d].
  assert (Hk : forall m : M st unit, preserves (inv [] [] (tbl s)) m -> wp m (fun _ => accounted) (fun _ => accounted) (set_dma d s)).
  { intros m Hm. eapply wp_keep; [exact Hm|exact Hs|intros ? s' Hs'; by eapply inv_accounted|intros e s' Hs'; by eapply inv_accounted]. }
  do 2 wp_step. apply Hk. apply preserves_bind; [keep|]. intros flags. apply preserves_VERIFY_CALL, iv_fastrpc_mmap.
Qed.
Lemma dma_unmap_accounted fd size s : accounted s -> wp (apps_mem_dma_handle_unmap fd size) (fun _ => accounted) (fun _ => accounted) s.
Proof.
  intros Hs. unfold apps_mem_dma_handle_unmap, sess. do 4 wp_step. wp_step; [|done].
  apply (wp_keep (inv [] [] (tbl s))); [apply preserves_VERIFY_CALL, iv_fastrpc_munmap|exact Hs|intros ? s' Hs'; by eapply inv_accounted|intros e s' Hs'; by eapply inv_accounted].
Qed.

(** The sizes that the DSP asks for, and sessions that start when they hold nothing. *)
Definition op_ok (o : am_op) s : Prop :=
  match o with
  | RequestMap64 _ _ _ _ len | RequestMap _ _ _ _ len => len < 2147483648
  | Init d => match tbl s !! d with Some me => mem_list me = [] | None => True end
  | _ => True
  end.
Fixpoint ops_ok (os : list am_op) s : Prop := match os with [] => True | o :: os => op_ok o s /\ ops_ok os (am_step o s).2 end.
Lemma step_accounted o s : op_ok o s -> accounted s -> wp (am_step o) (fun _ => accounted) (fun _ => accounted) s.
Proof.
  intros Ho Hs. destruct o; cbn [am_step op_ok] in *; [|by apply deinit_accounted| | | | | | | | ].
  - wp_step. eapply wp_mono; [by apply mem_init_accounted|by intros; apply wp_ret|done].
  - wp_step. eapply wp_mono; [by apply request_map64_accounted|by intros; apply wp_ret|done].
  - unfold apps_mem_request_map. repeat wp_step. eapply wp_mono; [by apply request_map64_accounted|by intros; repeat wp_step|done].
  - wp_step. eapply wp_mono; [by apply request_unmap64_accounted|by intros; apply wp_ret|done].
  - wp_step. eapply wp_mono; [by apply request_unmap64_accounted|by intros; apply wp_ret|done].
  - wp_step. eapply wp_mono; [by apply share_map_accounted|by intros; apply wp_ret|done].
  - wp_step. eapply wp_mono; [by apply request_unmap64_accounted|by intros; apply wp_ret|done].
  - wp_step. eapply wp_mono; [by apply dma_accounted|by intros; apply wp_ret|done].
  - wp_step. eapply wp_mono; [by apply dma_unmap_accounted|by intros; apply wp_ret|done].
Qed.
Lemma run_accounted os s : ops_ok os s -> accounted s -> accounted (am_run os s).2.
Proof.
  revert s. induction os as [|o os IH]; intros s Ho Hs; [done|]. destruct Ho as [Ho Hos]. cbn [am_run]. unfold mbind, M_bind.
  pose proof (step_accounted o s Ho Hs) as Hst. apply wp_run_state in Hst. destruct (am_step o s) as [[a|e] s']; [by apply IH|done].
Qed.
End invariant.

(** C13: The memory of the DSP. For sessions that start when their list is empty and requests of
    less than 2 GiB ([ops_ok]; a session that starts over a list that is not empty loses it, see
    [AppsMemEx.list_lost]): after any sequence of them, with any refused by the kernel, the
    allocator or the mapping functions, the buffers of the allocator are exactly those of the nodes
    in the lists, and the process holds no descriptor and no mapping beyond those of the buffers,
    the shared mappings of the nodes, each once, and what it held before: a refused request gives
    back what it took, and an unmapping gives back once. *)
Theorem dsp_memory_accounted `{HKL : !KernelLaws W} (ready : K -> Prop) `{HR : !Stable sys_ioctl ready} os s0 s :
  (forall k, ready k -> ready (is_userspace_allocation_supported k).2) ->
  ready (mses (rmem (am_rpc s0))) -> tbl s0 = ∅ -> rpclst (am_rpc s0) = [] -> fdlist (rmem (am_rpc s0)) = [] -> maps_ok (maps (kern (am_rpc s0))) ->
  ops_ok os s0 -> (am_run os s0).2 = s ->
  ri_buf <$> rpclst (am_rpc s) ≡ₚ shared (infos (tbl s)) /\
  NoDup (rpc_fds (am_rpc s)) /\ open_fds (kern (am_rpc s)) = open_fds (kern (am_rpc s0)) ∪ list_to_set (rpc_fds (am_rpc s)) /\
  NoDup (own (infos (tbl s))).*1 /\ NoDup (rpc_maps (am_rpc s)).*1 /\
  maps (kern (am_rpc s)) = list_to_map (rpc_maps (am_rpc s)) ∪ (list_to_map (own (infos (tbl s))) ∪ maps (kern (am_rpc s0))).
Proof.
  intros Hu Hr Ht Hl Hf Hm Hos <-.
  assert (Hs0 : accounted ready (open_fds (kern (am_rpc s0))) (maps (kern (am_rpc s0))) s0).
  { split; [done|]. rewrite Ht. split; unfold infos; rewrite ?map_to_list_empty; cbn; [|apply NoDup_nil_2|by apply Forall_nil_2|by rewrite Hl].
    split; unfold rpc_fds, rpc_maps; rewrite ?Hl; cbn; try done; [apply NoDup_nil_2|by rewrite (right_id_L ∅ (∪))|apply NoDup_nil_2|by rewrite !(left_id_L ∅ (∪))]. }
  pose proof (run_accounted ready Hu _ _ os s0 Hos Hs0) as [_ [H1 H2 H3 H4]].
  cbn [app] in *. split_and!; [exact H4|apply H1|apply H1|exact H2|apply H1|apply H1].
Qed.
End apps_mem.

(** * The requests on a concrete process *)
Module AppsMemEx.
#[local] Instance ex_pl : PlResult := 0.
Import RpcmemEx.
#[local] Existing Instance ex_kernel.
#[local] Existing Instance ex_laws.
(** The process of [MemEx] with domain 3 open; a driver that maps everything at one address. *)
Definition driver (_ : Z) (_ : ioctl_req) (k : proc * unit) : io * (proc * unit) := (Io 0 8192 0, k).
#[local] Instance ex_pd : PdAttributes (proc * unit) :=
  {| get_unsigned_pd_attribute _ _ := (0, 1); is_userspace_allocation_supported k := (1, k); fastrpc_get_pd_type _ _ := 1 |}.
Definition ready (k : proc * unit) : Prop := is_Some (hlist k.1).
#[local] Instance ex_stable : Stable driver ready.
Proof.
  split.
  - intros [p u] [h Hh]. unfold up. cbn. unfold init_once, on_proc. munfold. cbn [fst snd] in *. by rewrite Hh.
  - intros d [p u] [h Hh]. unfold ready in *. cbn in *. unfold on_proc, fastrpc_session_get, set_thread_context. munfold. cbn in *. rewrite Hh.
    destruct (_ =? _); cbn; [by exists h|]. unfold set_hl. rewrite Hh. destruct (tlsKey _); cbn; by eexists.
  - intros d [p u] [h Hh]. unfold ready in *. cbn in *. unfold on_proc, fastrpc_session_put. munfold. cbn in *. rewrite Hh.
    destruct (_ <? _); cbn; [|by exists h]. unfold set_hl. rewrite Hh. cbn. by eexists.
  - intros dv r k Hk. exact Hk.
Qed.
Definition start : apps_mem (proc * unit) kw := AppsMem ∅ RpcmemEx.start dma0.
Definition after (junk : Z) (os : list am_op) : apps_mem (proc * unit) kw := (am_run driver junk os start).2.
Definition requests : list am_op :=
  [Init 3; RequestMap64 0 0 FASTRPC_ALLOC_HLOS_FD 0 64; RequestMap64 0 0 ADSP_MMAP_ADD_PAGES 0 4096; ShareMap 30 128; RequestUnmap64 20 64; RequestMap64 0 0 ADSP_MMAP_REMOTE_HEAP_ADDR 0 100].
Lemma dsp_memory_accounted_witness : rpclst (am_rpc (after 0 requests)) = [RpcInfo 65600 4096 21] /\ NoDup (own (infos (tbl (after 0 requests)))).*1.
Proof.
  split; [vm_compute; reflexivity|].
  destruct (dsp_memory_accounted driver 0 ready requests start (after 0 requests)) as [_ [_ [_ [Hnd _]]]].
  - intros k Hk. exact Hk.
  - by eexists.
  - reflexivity.
  - reflexivity.
  - reflexivity.
  - change (maps (kern (am_rpc start))) with ({[ 4096 := 4096 ]} : gmap Z Z). intros a n Ha. apply lookup_singleton_Some in Ha as [<- <-]. unfold MAP_FAILED. split_and!; [lia..|].
    intros b k Hb. by apply lookup_singleton_Some in Hb as [<- <-].
  - vm_compute. tauto.
  - reflexivity.
  - exact Hnd.
Defined.

(** The flags of a shared mapping are not written: with the value of [FASTRPC_ALLOC_HLOS_FD] in the
    memory, its address on the DSP is taken for a descriptor, and it cannot be unmapped. *)
Lemma share_flags_unset : length (infos (tbl (after FASTRPC_ALLOC_HLOS_FD [Init 3; ShareMap 30 128; ShareUnmap 8192 128]))) = 1%nat /\
  length (infos (tbl (after 0 [Init 3; ShareMap 30 128; ShareUnmap 8192 128]))) = 0%nat.
Proof. split; vm_compute; reflexivity. Qed.
(** A session that starts again loses what its list held, and what is requested after its end is
    not given back by another end. *)
Lemma list_lost : let s := after 0 [Init 3; RequestMap64 0 0 8192 0 64; Init 3] in infos (tbl s) = [] /\ length (rpclst (am_rpc s)) = 1%nat.
Proof. vm_compute. done. Qed.
Lemma request_after_end : length (rpclst (am_rpc (after 0 [Init 3; Deinit 3; RequestMap64 0 0 8192 0 64; Deinit 3]))) = 1%nat.
Proof. vm_compute. reflexivity. Qed.
End AppsMemEx.
